(* ===== verification/_CoqProject ===== *)
-Q . S2P
Prelude.v
Float64.v
GoTime.v
NtpTime.v
NtpPacket.v
Measurement.v
Filter.v
Select.v
Loop.v
System.v
Netip.v
RateLimit.v
GoStrings.v
NetipParse.v
Auth.v
Keys.v
Sha256.v
GoDate.v
GoText.v
LeapTable.v
LeapWire.v
Distributor.v
ServerStats.v
Responder.v
Listener.v
Md5.v
Exchange.v
NtpSource.v
SourceMeta.v
Interop.v
Refclock.v
Pps.v
NmeaSentence.v
Nmea.v
Clock.v
LeapDisk.v
LeapStore.v
DriftFile.v
Drift.v
EngineLeap.v
Engine.v
EngineTrace.v
EngineClock.v
LeapSeed.v
LeapFetch.v
LeapUpdater.v
LeapInstall.v
LeapSchedule.v
LeapAuthority.v
Config.v
ConfigSound.v
Startup.v
StartupSound.v
StatusText.v
Stats.v
StatsKept.v
StatsJournal.v
Control.v
ControlSound.v
ControlClient.v
Monitor.v
MonitorSound.v
