(* ===== verification/Prelude.v ===== *)
(** * Carillon: a verification development

    Carillon is an NTP daemon: it measures the clock against NTP servers and
    local reference clocks, disciplines the kernel clock, answers NTP clients,
    and keeps, acquires and redistributes the leap-second table.  This library
    models its Go sources (the daemon under cmd/carillon and the packages under
    internal) and proves what makes them correct.

    ** How the program works, and how the files follow it

    Sources produce measurements.  An NTP source (internal/source) polls one
    server at a time, a PPS source and an NMEA source (internal/refclock) read a
    device; each keeps its own filter or window and sends measurements to the
    engine.  The engine (internal/engine) is one goroutine that owns the clock:
    it gives every measurement to the discipline (internal/discipline: filter,
    selection, loop and the synchronization state machine), carries out the
    actions that come back (step, slew, frequency word, filter reset), guards
    them with an epoch counter that is odd while the clock is discontinuous,
    handles leap seconds, writes the drift file and publishes snapshots.  The
    server (internal/server) answers NTP requests from the last snapshot, with
    access rules, rate limits and message authentication (internal/ntp).  The
    leap updater (internal/leap) fetches tables from publishers, peers and files,
    saves them and asks the engine to activate them.  cmd/carillon builds all of
    it from the configuration (internal/config).  The recorder (internal/stats)
    writes snapshots to daily files, the control socket (internal/control) shows
    them to a client, the monitor (internal/monitor) to HTTP probes and scrapers.

    - This file: record update, the option and error notations, tactics, the
      hint databases and the lemmas on lists, integers and options that the other
      files share.
    - Go's own library.  Float64 (IEEE binary64 on Stdlib's SpecFloat), GoTime
      (time.Time as nanoseconds, time.Duration at 64 bits), GoStrings, GoDate,
      GoText, Netip, NetipParse, Sha256, Md5.
    - Data on the wire.  NtpTime and NtpPacket (internal/ntp/time.go, packet.go),
      Auth and Keys (internal/ntp/auth), LeapWire (internal/leap/wire.go).
    - Discipline.  Measurement, Filter, Select, Loop, System, one per file of
      internal/discipline.
    - Sources.  Exchange, NtpSource, SourceMeta (internal/source), Refclock, Pps,
      NmeaSentence, Nmea (internal/refclock); Interop composes the client with
      the server.
    - Server.  RateLimit, ServerStats, Responder, Listener (internal/server).
    - Leap seconds.  LeapTable (leap.go, object.go), LeapDisk and LeapStore
      (store.go: the directory with its writes, and the cache kept in it),
      Distributor, LeapSeed, LeapFetch, LeapUpdater (updater.go, report.go), with
      LeapInstall and LeapSchedule for what the updater installs and when it
      asks, and LeapAuthority for the updater and the engine together.
    - Engine.  Clock (the kernel's words), DriftFile, Drift, EngineLeap
      (engine/leap.go), Engine (engine.go), EngineTrace (the engine's dealings
      with clock and discipline as a trace), EngineClock (the engine as a step
      relation).
    - Start-up.  Config and ConfigSound (internal/config), Startup and
      StartupSound (cmd/carillon/main.go).
    - Reports.  StatusText (the String methods), Stats, StatsKept, StatsJournal
      (internal/stats), Control, ControlSound, ControlClient (internal/control
      and the waitsync command of cmd/carillonctl), Monitor, MonitorSound
      (internal/monitor).

    ** How it is modelled

    A struct is a [Record] with a field per field, a mutation is the record
    update [r <| f := v |>], an error result is [option], [sum] or an error type
    of the component, and a panic (an index out of range, a nil dereference, a
    division by zero) is [None] of the definition, so that a theorem that a
    function returns is a theorem.  Machine integers are [Z] with their wrap
    written out ([u8], [u16], [u32], [u64], [i64]); float64 is the executable
    IEEE model and keeps NaN, infinities and rounding; bytes are [Z] below 256.
    Goroutines that share state are step functions whose interleavings are
    lists of steps (Distributor, ServerStats, Drift, Listener, Control,
    LeapAuthority); a goroutine that owns its state is a fold over its events
    (Engine, LeapUpdater, Stats).  What the world answers (the clock, a device,
    a socket, the disk, the random source) is an input of the step, or a function
    of the number of the call.  The leap cache's directory also remembers what
    the disk may still hold of it: a loss of power may set any name back to what
    it was since the directory was last synced, and spoil the bytes of a file
    that was not.

    Parameters, because their code is not in the repository: the block cipher
    (class [BlockCipher], with AES-128 as an instance), the TOML and JSON
    decoders and encoders, the syntax of HTTP dates, parsing and printing of
    floating-point text, and the system calls.  Where a theorem needs something
    of them it is a named hypothesis (a decoder inverts the encoder, a printed
    number has no tab or newline), and the theorem's witness instantiates it.
    Interfaces between components are classes: [Kernel] (the clock under the
    engine), [Controller] with [ControllerLaws] (the engine under the updater),
    which LeapAuthority instantiates with the engine itself.

    Fuel appears where recursion is not structural, and is always enough: the
    walk over extension fields gets the number of bytes left and each field
    takes at least four, the clustering loop gets one turn more than there are
    survivors and drops one a turn (running out of turns is [None], and a theorem
    that it returns says it never does), the majority search gets their number and stops at half of
    it, the binary search of the slew history gets its length and halves its
    range, the halving of a receive buffer gets the logarithm of the wanted size,
    draining the recorder's queues gets the number of queued items, and decimal
    digits get the binary length of the number.  For those whose result would
    show it, a lemma says that the walk ends with this fuel (NtpPacket, LeapWire,
    Select, Loop, Listener).

    ** What is proved

    - The daemon as a whole: an answer that claims to be synchronized comes from
      a recent synchronized snapshot of a run of the engine and satisfies the
      leap requirement; a configuration that loads starts.  (StartupSound)
    - The engine: no panic for any clock and any events; the epoch protocol; no
      measurement of an older epoch reaches the discipline; after a step nothing
      is served or told to the kernel as synchronized before new measurements;
      nothing left by a stopped source is used; the frequencies written are in
      range (but for the shutdown's write, which the code does not check for a
      NaN), and the kernel is left at the base frequency unless it refused one.
      (EngineTrace, EngineClock)
    - Discipline: every operation is a labelled move of an abstract machine of
      phases whose guards say when the clock may be trusted, the label being what
      the caller sees; the clock is trusted only on updates and settling observed
      since the last step; a sample drives the loop once; selection returns,
      keeps a strict majority, and obeys preference and the vouching for PPS;
      clustering ends, with a quorum.  (System, Select, Loop)
    - Sources: a successful exchange proves its datagram's origin and
      authenticity, a measurement's fields belong to one exchange, polling obeys
      the server, stale samples are discarded, a PPS or GPS estimate is the
      median of a locked window (a GPS window is of one epoch when the resets come
      in time, which Nmea states as a premise because the engine's step does not
      ensure it).  (Exchange, NtpSource, SourceMeta, Pps, Nmea)
    - Server: no panic, no amplification, access control; client and server agree
      on every reply; leap data goes to authorized keys within their budgets, from
      a table that covers the time.  (Responder, Interop, Distributor)
    - Leap seconds: an accepted table says what its file says and never changes
      history, a leap second is executed once, the rollback anchor never falls,
      what the engine serves is on disk, the cache loads the last state saved or a
      later one tried through any kill or loss of power and only with objects
      that match their manifests, fetching is sound and complete, requests are
      apart.  (LeapTable, EngineLeap, LeapInstall, LeapAuthority, LeapFetch,
      LeapSchedule, LeapStore)
    - Formats: the packet decoder inverts the encoder, CMAC is RFC 4493, its subkeys by
      doubling in the field.
      (NtpPacket, Auth)
    - Reports: the statistics files are an abstract journal of rows, retention
      never reaches a day it should keep, one process owns the control path, the
      health probe says exactly whether the clock is worth using, and a scrape
      accounts for every datagram.  (StatsJournal, StatsKept, ControlSound,
      MonitorSound)

    Several [Example]s show a concrete run in which the code does something
    other than its comments say; they stand beside the theorem they bound.

    ** Not modelled

    The system-call layers (internal/clock/sysclock_*.go, internal/pps,
    internal/serial, internal/sockts, the packet-information and socket-option
    files of internal/server): their values are inputs.  net/http, the Prometheus
    registry and the lifecycle of the listeners; what carillonctl prints other
    than the result of a wait.  Log lines, the text of errors, command-line
    flags, signals and the draining of goroutines at exit.  config.Check, which
    opens and stats files.  PrecisionFromSeconds, which needs math.Log2. *)

From stdpp Require Import base list gmap strings numbers sorting.
From Stdlib Require Import Lia ZArith.

Local Open Scope Z_scope.

(** ** Functional record update

    [r <| f := v |>] is Go's [r.f = v] on a struct value.  The setter of a
    projection is computed from the eta-expansion of its record, registered
    once per record as an [Eta] instance. *)
Class Setter {R E : Type} (proj : R -> E) := set : (E -> E) -> R -> R.
Arguments set {R E} proj {_} _ _.

Class Eta (R : Type) := eta : R -> R.

Ltac build_setter :=
  match goal with
  | |- @Setter ?R ?E ?p =>
    let f := fresh "f" in
    let r := fresh "r" in
    intros f r;
    let e := constr:(_ : Eta R) in
    let t := eval hnf in (@eta R e r) in
    let t' := eval pattern (p r) in t in
    match t' with
    | ?g (p r) => let t'' := eval cbv beta in (g (f (p r))) in exact t''
    end
  end.

#[export] Hint Extern 0 (Setter _) => build_setter : typeclass_instances.

Declare Scope carillon_scope.
Delimit Scope carillon_scope with carillon.
Notation "x <| p := v |>" := (set p (fun _ => v) x)
  (at level 1, left associativity, p at level 40, v at level 200) : carillon_scope.
Open Scope carillon_scope.

(** ** Results of fallible Go functions: a value or an error. *)
Inductive result (E A : Type) : Type :=
| Ok (a : A)
| Err (e : E).
Arguments Ok {E A} _.
Arguments Err {E A} _.

#[export] Instance result_eq_dec {E A} `{EqDecision E, EqDecision A} :
  EqDecision (result E A).
Proof. solve_decision. Defined.

Definition result_bind {E A B} (r : result E A) (k : A -> result E B) : result E B :=
  match r with Ok a => k a | Err e => Err e end.
Notation "'try' x <- r ; k" := (result_bind r (fun x => k))
  (at level 10, x pattern, r at level 100, k at level 200) : carillon_scope.

(** ** Automation

    [crush] splits boolean conjunctions, reflects the Z and nat comparisons
    of the code's guards into propositions and closes linear goals. *)
Create HintDb carillon.

Ltac bool_step :=
  match goal with
  | H : _ && _ = true |- _ => apply andb_true_iff in H; destruct H
  | H : _ || _ = false |- _ => apply orb_false_iff in H; destruct H
  | H : negb _ = true |- _ => apply negb_true_iff in H
  | H : negb _ = false |- _ => apply negb_false_iff in H
  | H : Z.leb _ _ = true |- _ => apply Z.leb_le in H
  | H : Z.leb _ _ = false |- _ => apply Z.leb_gt in H
  | H : Z.ltb _ _ = true |- _ => apply Z.ltb_lt in H
  | H : Z.ltb _ _ = false |- _ => apply Z.ltb_ge in H
  | H : Z.eqb _ _ = true |- _ => apply Z.eqb_eq in H
  | H : Z.eqb _ _ = false |- _ => apply Z.eqb_neq in H
  | H : Nat.leb _ _ = true |- _ => apply Nat.leb_le in H
  | H : Nat.leb _ _ = false |- _ => apply Nat.leb_gt in H
  | H : Nat.ltb _ _ = true |- _ => apply Nat.ltb_lt in H
  | H : Nat.ltb _ _ = false |- _ => apply Nat.ltb_ge in H
  | H : Nat.eqb _ _ = true |- _ => apply Nat.eqb_eq in H
  | H : Nat.eqb _ _ = false |- _ => apply Nat.eqb_neq in H
  | H : bool_decide _ = true |- _ => apply bool_decide_eq_true in H
  | H : bool_decide _ = false |- _ => apply bool_decide_eq_false in H
  end.

(** Case split on the innermost [if]/[match] scrutinee found in the goal, or
    in the hypothesis [H]. *)
Ltac case_goal :=
  match goal with
  | |- context [if ?b then _ else _] => destruct b eqn:?
  | |- context [match ?x with _ => _ end] => destruct x eqn:?
  end.

Ltac case_in H :=
  match type of H with
  | context [if ?b then _ else _] => destruct b eqn:?
  | context [match ?x with _ => _ end] => destruct x eqn:?
  end.

Ltac crush := repeat bool_step; try done; try lia; try congruence.

(** ** Machine integers

    A Go integer is a [Z]; a conversion or an overflowing operation is
    followed by the wrap of the destination type. *)
Definition wrapu (w x : Z) : Z := x mod 2 ^ w.
Definition wraps (w x : Z) : Z := (x + 2 ^ (w - 1)) mod 2 ^ w - 2 ^ (w - 1).

Abbreviation u8 := (wrapu 8).
Abbreviation u16 := (wrapu 16).
Abbreviation u32 := (wrapu 32).
Abbreviation u64 := (wrapu 64).
Abbreviation i8 := (wraps 8).
Abbreviation i64 := (wraps 64).

Definition in_u (w x : Z) : Prop := 0 <= x < 2 ^ w.
Definition in_s (w x : Z) : Prop := - 2 ^ (w - 1) <= x < 2 ^ (w - 1).

Lemma wrapu_range w x : 0 <= w -> in_u w (wrapu w x).
Proof. intros. unfold in_u, wrapu. apply Z.mod_pos_bound. lia. Qed.

Lemma wrapu_id w x : in_u w x -> wrapu w x = x.
Proof. apply Z.mod_small. Qed.

Lemma pow2_split w : 0 < w -> 2 ^ w = 2 * 2 ^ (w - 1).
Proof.
  intros. replace w with (1 + (w - 1)) at 1 by lia.
  rewrite Z.pow_add_r by lia. lia.
Qed.

Lemma wraps_range w x : 0 < w -> in_s w (wraps w x).
Proof.
  intros Hw. unfold in_s, wraps. pose proof (pow2_split w Hw).
  pose proof (Z.mod_pos_bound (x + 2 ^ (w - 1)) (2 ^ w)). lia.
Qed.

Lemma wraps_id w x : 0 < w -> in_s w x -> wraps w x = x.
Proof.
  unfold in_s, wraps. intros Hw Hx. pose proof (pow2_split w Hw).
  rewrite Z.mod_small; lia.
Qed.

(** A signed reinterpretation of an unsigned word and back is the identity. *)
Lemma wraps_wrapu w x : 0 < w -> wraps w (wrapu w x) = wraps w x.
Proof. intros. unfold wraps, wrapu. by rewrite Zplus_mod_idemp_l. Qed.

Lemma wrapu_wraps w x : 0 < w -> wrapu w (wraps w x) = wrapu w x.
Proof.
  intros. unfold wraps, wrapu. rewrite Zminus_mod_idemp_l. f_equal. lia.
Qed.

#[export] Hint Resolve wrapu_range wraps_range : carillon.

(** ** Bytes and big-endian integers (encoding/binary) *)
Definition is_byte (b : Z) : Prop := 0 <= b < 256.

Definition be_decode (l : list Z) : Z :=
  fold_left (fun acc b => acc * 256 + b) l 0.

Fixpoint be_encode (n : nat) (v : Z) : list Z :=
  match n with
  | O => []
  | S n' => be_encode n' (v / 256) ++ [v mod 256]
  end.

(** [b[i:j]] for in-range bounds. *)
Definition slice {A} (i j : nat) (b : list A) : list A := take (j - i) (drop i b).

Lemma length_be_encode n v : length (be_encode n v) = n.
Proof.
  revert v. induction n as [|n IH]; intros v; simpl; [done|].
  rewrite length_app, IH. simpl. lia.
Qed.

Lemma be_encode_bytes n v : Forall is_byte (be_encode n v).
Proof.
  revert v. induction n as [|n IH]; intros v; simpl; [constructor|].
  apply Forall_app. split; [apply IH|]. constructor; [|constructor].
  unfold is_byte. apply Z.mod_pos_bound. lia.
Qed.

Lemma be_decode_app l b : be_decode (l ++ [b]) = be_decode l * 256 + b.
Proof. unfold be_decode. by rewrite fold_left_app. Qed.

Lemma be_decode_encode n v : be_decode (be_encode n v) = v mod 256 ^ Z.of_nat n.
Proof.
  revert v. induction n as [|n IH]; intros v.
  - simpl. by rewrite Z.mod_1_r.
  - simpl be_encode. rewrite be_decode_app, IH.
    rewrite Nat2Z.inj_succ, Z.pow_succ_r by lia.
    rewrite Z.rem_mul_r by lia. lia.
Qed.

Lemma be_encode_mod n v : be_encode n (v mod 256 ^ Z.of_nat n) = be_encode n v.
Proof.
  revert v. induction n as [|n IH]; intros v; [done|].
  simpl. rewrite Nat2Z.inj_succ, Z.pow_succ_r by lia.
  rewrite Z.rem_mul_r by lia.
  assert (0 <= v mod 256 < 256) by (apply Z.mod_pos_bound; lia).
  f_equal.
  - rewrite <- (IH (v / 256)). f_equal.
    rewrite Z.mul_comm, Z.div_add by lia. rewrite (Z.div_small (v mod 256)) by done. lia.
  - f_equal. rewrite Z.mul_comm, Z_mod_plus_full. by apply Z.mod_small.
Qed.

Lemma be_encode_decode l : Forall is_byte l -> be_encode (length l) (be_decode l) = l.
Proof.
  induction l as [|b l IH] using rev_ind; intros Hl; [done|].
  apply Forall_app in Hl as [Hl Hb]. inv Hb.
  match goal with H : is_byte b |- _ => unfold is_byte in H end.
  rewrite length_app. simpl length. rewrite Nat.add_comm. simpl be_encode.
  rewrite be_decode_app.
  rewrite Z.div_add_l by lia. rewrite (Z.div_small b) by lia. rewrite Z.add_0_r.
  rewrite IH by done. f_equal. f_equal.
  rewrite Z.add_comm, Z_mod_plus_full. apply Z.mod_small. lia.
Qed.

Lemma be_decode_range l : Forall is_byte l -> 0 <= be_decode l < 256 ^ Z.of_nat (length l).
Proof.
  intros Hl. rewrite <- (be_encode_decode l Hl) at 1 2. rewrite be_decode_encode.
  apply Z.mod_pos_bound. lia.
Qed.

Lemma slice_app_l {A} i (l k : list A) :
  length l = i -> slice 0 i (l ++ k) = l.
Proof. intros <-. unfold slice. rewrite drop_0, Nat.sub_0_r. apply take_app_length. Qed.

Lemma slice_app_r {A} i j (l k : list A) :
  (length l <= i)%nat -> slice i j (l ++ k) = slice (i - length l) (j - length l) k.
Proof.
  intros. unfold slice. rewrite drop_app_ge by lia. f_equal. lia.
Qed.

Lemma length_slice {A} i j (b : list A) :
  (i <= j <= length b)%nat -> length (slice i j b) = (j - i)%nat.
Proof. intros. unfold slice. rewrite length_take, length_drop. lia. Qed.

Lemma slice_Forall {A} (P : A -> Prop) i j b : Forall P b -> Forall P (slice i j b).
Proof. intros. unfold slice. by apply Forall_take, Forall_drop. Qed.

#[export] Hint Resolve be_encode_bytes slice_Forall : carillon.
#[export] Hint Rewrite length_be_encode be_decode_encode : carillon.

(** ** sort.SliceStable

    The stable sort by a strict order [less]: an element is placed before the
    first one that is strictly greater, so equal elements keep their order. *)
Section Sort.
Context {A : Type} (less : A -> A -> bool).

Fixpoint sort_insert (x : A) (l : list A) : list A :=
  match l with
  | [] => [x]
  | y :: l' => if less x y then x :: l else y :: sort_insert x l'
  end.

(** Elements are inserted from the left, after their equals. *)
Definition sort_stable (l : list A) : list A :=
  fold_left (fun acc x => sort_insert x acc) l [].

Lemma sort_insert_perm x l : sort_insert x l ≡ₚ x :: l.
Proof.
  induction l as [|y l IH]; simpl; [done|].
  destruct (less x y); [done|]. rewrite IH. apply Permutation_swap.
Qed.

Lemma sort_stable_perm l : sort_stable l ≡ₚ l.
Proof.
  unfold sort_stable. enough (H : forall acc, fold_left (fun acc x => sort_insert x acc) l acc ≡ₚ acc ++ l).
  { apply (H []). }
  induction l as [|x l IH]; intros acc; simpl; [by rewrite app_nil_r|].
  rewrite IH, sort_insert_perm. simpl. by rewrite Permutation_middle.
Qed.

(** [not_above x y]: [y] is not strictly before [x]. *)
Definition not_above (x y : A) : Prop := less y x = false.

Context (P : A -> Prop).
Hypothesis less_asym : forall x y, P x -> P y -> less x y = true -> less y x = false.
Hypothesis less_trans_neg : forall x y z, P x -> P y -> P z ->
  less y x = false -> less z y = false -> less z x = false.

Lemma sort_insert_sorted x l :
  P x -> Forall P l -> StronglySorted not_above l -> StronglySorted not_above (sort_insert x l).
Proof.
  intros Hx HP Hl. induction Hl as [|y l Hl IH Hy]; simpl.
  - repeat constructor.
  - inv HP. destruct (less x y) eqn:E.
    + constructor; [by constructor|]. constructor; [by apply less_asym|].
      rewrite Forall_forall in *. intros z Hz.
      apply (less_trans_neg x y z); [done|done|auto|by apply less_asym|by apply Hy].
    + constructor; [by apply IH|].
      rewrite Forall_forall in *. intros z Hz.
      rewrite sort_insert_perm in Hz. apply elem_of_cons in Hz as [->|Hz]; [done|by apply Hy].
Qed.

Lemma sort_stable_sorted l : Forall P l -> StronglySorted not_above (sort_stable l).
Proof.
  unfold sort_stable. intros HP.
  enough (H : forall acc, Forall P acc -> StronglySorted not_above acc ->
    StronglySorted not_above (fold_left (fun acc x => sort_insert x acc) l acc)).
  { apply H; constructor. }
  induction HP as [|x l Hx HP IH]; intros acc Hacc Hs; simpl; [done|].
  apply IH; [|by apply sort_insert_sorted].
  rewrite sort_insert_perm. by constructor.
Qed.
End Sort.

Lemma length_sort_stable {A} (less : A -> A -> bool) l : length (sort_stable less l) = length l.
Proof. by rewrite sort_stable_perm. Qed.

Lemma elem_of_sort_stable {A} (less : A -> A -> bool) l x : x ∈ sort_stable less l <-> x ∈ l.
Proof. by rewrite sort_stable_perm. Qed.

(** ** Counting

    The number of elements a test accepts, as an integer. *)
Definition zcount {A} (p : A -> bool) (l : list A) : Z :=
  foldr (fun x n => (if p x then 1 else 0) + n) 0 l.

Lemma zcount_app {A} (p : A -> bool) l k : zcount p (l ++ k) = zcount p l + zcount p k.
Proof. induction l as [|x l IH]; simpl; [done|]. rewrite IH. lia. Qed.

Lemma zcount_nonneg {A} (p : A -> bool) l : 0 <= zcount p l.
Proof. induction l as [|x l IH]; simpl; [done|]. destruct (p x); lia. Qed.

Lemma zcount_perm {A} (p : A -> bool) l k : l ≡ₚ k -> zcount p l = zcount p k.
Proof. induction 1; simpl; lia. Qed.

Lemma zcount_le {A} (p q : A -> bool) l :
  Forall (fun x => p x = true -> q x = true) l -> zcount p l <= zcount q l.
Proof.
  induction 1 as [|x l Hx _ IH]; simpl; [done|].
  destruct (p x); [rewrite Hx by done; lia|destruct (q x); lia].
Qed.

Lemma zcount_zero {A} (p : A -> bool) l : Forall (fun x => p x = false) l -> zcount p l = 0.
Proof. induction 1 as [|x l Hx _ IH]; simpl; [done|]. rewrite Hx. lia. Qed.

Lemma zcount_filter {A} (p : A -> bool) l :
  Z.of_nat (length (filter (fun x => p x = true) l)) = zcount p l.
Proof.
  induction l as [|x l IH]; simpl; [done|].
  rewrite filter_cons. destruct (decide (p x = true)) as [E|E].
  - rewrite E. simpl length. lia.
  - apply not_true_is_false in E. rewrite E. lia.
Qed.

Lemma zcount_fmap {A B} (p : B -> bool) (f : A -> B) l : zcount p (f <$> l) = zcount (p ∘ f) l.
Proof.
  induction l as [|x l IH]; [done|]. rewrite fmap_cons. unfold zcount in *. simpl. by rewrite IH.
Qed.

(** An invariant kept by every step of a left fold holds of its result. *)
Lemma fold_left_inv {A B} (I : A -> Prop) (f : A -> B -> A) l a :
  (forall acc x, x ∈ l -> I acc -> I (f acc x)) -> I a -> I (fold_left f l a).
Proof.
  revert a. induction l as [|x l IH]; intros a Hf Ha; simpl; [done|].
  apply IH; [|apply Hf; [apply list_elem_of_here|done]].
  intros acc y Hy. apply Hf. by apply list_elem_of_further.
Qed.

Lemma elem_of_imap_pair {A} (l : list A) i x : (i, x) ∈ imap pair l <-> l !! i = Some x.
Proof.
  rewrite list_elem_of_lookup. split.
  - intros [k Hk]. rewrite list_lookup_imap in Hk. destruct (l !! k) eqn:E; simpl in Hk; [|done].
    by injection Hk as -> ->.
  - intros H. exists i. by rewrite list_lookup_imap, H.
Qed.
