(* ===== verification/Float64.v ===== *)
(** * Go's float64

    IEEE 754 binary64 as the Standard Library's executable [SpecFloat]
    (precision 53, maximal exponent 1024), with the operators and the [math]
    functions the daemon uses.  Comparisons are Go's: every comparison with a
    NaN is false.  Expressions are evaluated without fusing a multiplication
    and an addition, as the compiler does on amd64.

    The lemmas give the order of the non-NaN values (through a lexicographic
    key, so that [lia] decides order goals), the operations that cannot
    produce a NaN and the ones that keep a sign. *)

From stdpp Require Import base list numbers sorting.
From Stdlib Require Import Lia ZArith SpecFloat.
From S2P Require Import Prelude.

Local Open Scope Z_scope.

Definition f64 : Type := spec_float.

Definition fnan : f64 := S754_nan.
Definition finf : f64 := S754_infinity false.
Definition fninf : f64 := S754_infinity true.
Definition fzero : f64 := S754_zero false.

Definition fadd : f64 -> f64 -> f64 := SFadd 53 1024.
Definition fsub : f64 -> f64 -> f64 := SFsub 53 1024.
Definition fmul : f64 -> f64 -> f64 := SFmul 53 1024.
Definition fdiv : f64 -> f64 -> f64 := SFdiv 53 1024.
Definition fsqrt : f64 -> f64 := SFsqrt 53 1024.
Definition fopp : f64 -> f64 := SFopp.
Definition fabs : f64 -> f64 := SFabs.

(** [float64(n)] for an integer [n], rounded to nearest even. *)
Definition of_Z (n : Z) : f64 := binary_normalize 53 1024 n 0 false.

(** The decimal literal [n/d]: the correctly rounded quotient of two integers
    that are themselves exact (below 2^53). *)
Definition lit (n d : Z) : f64 := fdiv (of_Z n) (of_Z d).

Definition is_nan (x : f64) : bool := match x with S754_nan => true | _ => false end.
Definition is_finite (x : f64) : bool :=
  match x with S754_zero _ | S754_finite _ _ _ => true | _ => false end.

(** [math.IsInf(x, 0)]. *)
Definition is_inf (x : f64) : bool := match x with S754_infinity _ => true | _ => false end.

Definition flt : f64 -> f64 -> bool := SFltb.
Definition fle : f64 -> f64 -> bool := SFleb.
Definition feq : f64 -> f64 -> bool := SFeqb.
Definition fgt (x y : f64) : bool := flt y x.
Definition fge (x y : f64) : bool := fle y x.

(** [math.Ldexp(1, e)] for exponents of the normal range. *)
Definition ldexp1 (e : Z) : f64 := SFldexp 53 1024 (of_Z 1) e.

(** [math.Max] and [math.Min] with their special cases. *)
Definition fmax (x y : f64) : f64 :=
  match x, y with
  | S754_infinity false, _ | _, S754_infinity false => finf
  | S754_nan, _ | _, S754_nan => fnan
  | S754_zero sx, S754_zero _ => if sx then y else x
  | _, _ => if fgt x y then x else y
  end.

Definition fmin (x y : f64) : f64 :=
  match x, y with
  | S754_infinity true, _ | _, S754_infinity true => fninf
  | S754_nan, _ | _, S754_nan => fnan
  | S754_zero sx, S754_zero _ => if sx then x else y
  | _, _ => if flt x y then x else y
  end.

(** The built-in [min] on floats: NaN if either is. *)
Definition fmin_builtin (x y : f64) : f64 :=
  if is_nan x || is_nan y then fnan else fmin x y.

(** Truncation toward zero, the conversion of a finite float to an integer. *)
Definition ftrunc (x : f64) : Z :=
  match x with
  | S754_finite s m e =>
      let a := if 0 <=? e then Zpos m * 2 ^ e else Zpos m / 2 ^ (- e) in
      cond_Zopp s a
  | _ => 0
  end.

(** [math.Round]: to the nearest integer, halves away from zero, as an
    integer (the callers convert it at once). *)
Definition fround (x : f64) : Z :=
  match x with
  | S754_finite s m e =>
      let a := if 0 <=? e then Zpos m * 2 ^ e
               else (Zpos m + 2 ^ (- e - 1)) / 2 ^ (- e) in
      cond_Zopp s a
  | _ => 0
  end.

Declare Scope f64_scope.
Delimit Scope f64_scope with f64.
Infix "+" := fadd : f64_scope.
Infix "-" := fsub : f64_scope.
Infix "*" := fmul : f64_scope.
Infix "/" := fdiv : f64_scope.
Notation "- x" := (fopp x) : f64_scope.
Infix "<?" := flt : f64_scope.
Infix "<=?" := fle : f64_scope.
Infix ">?" := fgt (at level 70) : f64_scope.
Infix ">=?" := fge (at level 70) : f64_scope.
Infix "=?" := feq : f64_scope.

Example lit_rounds : lit 15 1000000 = S754_finite false 8854437155380585 (-69).
Proof. vm_compute. reflexivity. Qed.

(** ** Order *)

(** Lexicographic key of a non-NaN value: class, exponent, mantissa, with the
    last two negated for a negative number. *)
Definition kclass (x : f64) : Z :=
  match x with
  | S754_infinity true => -2 | S754_finite true _ _ => -1
  | S754_finite false _ _ => 1 | S754_infinity false => 2
  | _ => 0
  end.
Definition kexp (x : f64) : Z :=
  match x with S754_finite s _ e => cond_Zopp s e | _ => 0 end.
Definition kman (x : f64) : Z :=
  match x with S754_finite s m _ => cond_Zopp s (Zpos m) | _ => 0 end.

Definition klt (x y : f64) : Prop :=
  kclass x < kclass y \/
  kclass x = kclass y /\ (kexp x < kexp y \/ kexp x = kexp y /\ kman x < kman y).
Definition keq (x y : f64) : Prop :=
  kclass x = kclass y /\ kexp x = kexp y /\ kman x = kman y.

Lemma SFcompare_spec x y :
  match SFcompare x y with
  | None => is_nan x = true \/ is_nan y = true
  | Some Lt => is_nan x = false /\ is_nan y = false /\ klt x y
  | Some Eq => is_nan x = false /\ is_nan y = false /\ keq x y
  | Some Gt => is_nan x = false /\ is_nan y = false /\ klt y x
  end.
Proof.
  unfold klt, keq.
  destruct x as [sx|sx| |sx mx ex], y as [sy|sy| |sy my ey];
    try destruct sx; try destruct sy; simpl; auto; try lia;
    change (Pos.compare_cont Eq mx my) with (Pos.compare mx my);
    destruct (Z.compare_spec ex ey), (Pos.compare_spec mx my); simpl; subst; lia.
Qed.

Lemma flt_spec x y : flt x y = true <-> is_nan x = false /\ is_nan y = false /\ klt x y.
Proof.
  unfold flt, SFltb. pose proof (SFcompare_spec x y) as H.
  destruct (SFcompare x y) as [[]|]; unfold klt, keq in *; split; intros; try done;
    try (destruct H; intuition congruence); lia.
Qed.

Lemma fle_spec x y :
  fle x y = true <-> is_nan x = false /\ is_nan y = false /\ (klt x y \/ keq x y).
Proof.
  unfold fle, SFleb. pose proof (SFcompare_spec x y) as H.
  destruct (SFcompare x y) as [[]|]; unfold klt, keq in *; split; intros; try done;
    try (destruct H; intuition congruence); lia.
Qed.

Lemma feq_spec x y : feq x y = true <-> is_nan x = false /\ is_nan y = false /\ keq x y.
Proof.
  unfold feq, SFeqb. pose proof (SFcompare_spec x y) as H.
  destruct (SFcompare x y) as [[]|]; unfold klt, keq in *; split; intros; try done;
    try (destruct H; intuition congruence); lia.
Qed.

Lemma iff_false (b : bool) (P : Prop) : (b = true <-> P) -> b = false <-> ~ P.
Proof. destruct b; intuition congruence. Qed.

Lemma flt_false x y : flt x y = false <-> ~ (is_nan x = false /\ is_nan y = false /\ klt x y).
Proof. apply iff_false, flt_spec. Qed.
Lemma fle_false x y :
  fle x y = false <-> ~ (is_nan x = false /\ is_nan y = false /\ (klt x y \/ keq x y)).
Proof. apply iff_false, fle_spec. Qed.
Lemma feq_false x y : feq x y = false <-> ~ (is_nan x = false /\ is_nan y = false /\ keq x y).
Proof. apply iff_false, feq_spec. Qed.

(** [ford] decides goals about [<], [<=] and [=] on floats: comparisons are
    rewritten to their keys and the rest is linear arithmetic. *)
Definition knan (x : f64) : Z := if is_nan x then 1 else 0.

Lemma is_nan_false x : is_nan x = false <-> knan x = 0.
Proof. unfold knan. destruct (is_nan x); split; intros; first [done | lia]. Qed.
Lemma is_nan_true x : is_nan x = true <-> knan x <> 0.
Proof. unfold knan. destruct (is_nan x); split; intros; first [done | lia]. Qed.

Ltac ford :=
  intros; unfold fgt, fge in *;
  rewrite ?flt_spec, ?fle_spec, ?feq_spec, ?flt_false, ?fle_false, ?feq_false in *;
  rewrite ?is_nan_false, ?is_nan_true in *;
  unfold klt, keq in *; lia.

Lemma flt_irrefl x : flt x x = false.
Proof. ford. Qed.
Lemma flt_trans x y z : flt x y = true -> flt y z = true -> flt x z = true.
Proof. ford. Qed.
Lemma fle_trans x y z : fle x y = true -> fle y z = true -> fle x z = true.
Proof. ford. Qed.
Lemma flt_le x y : flt x y = true -> fle x y = true.
Proof. ford. Qed.
Lemma fle_refl x : is_nan x = false -> fle x x = true.
Proof. ford. Qed.
Lemma fle_nlt x y : is_nan x = false -> is_nan y = false -> fle x y = negb (flt y x).
Proof. intros. destruct (flt y x) eqn:E, (fle x y) eqn:F; try done; exfalso; ford. Qed.
Lemma flt_asym x y : flt x y = true -> flt y x = false.
Proof. ford. Qed.
Lemma flt_neg_trans x y z :
  is_nan x = false -> is_nan y = false -> is_nan z = false ->
  flt y x = false -> flt z y = false -> flt z x = false.
Proof. ford. Qed.
Lemma fle_not_nan x y : fle x y = true -> is_nan x = false /\ is_nan y = false.
Proof. ford. Qed.

(** ** math.Max, math.Min and clamping *)

Lemma fmax_cases x y : fmax x y = x \/ fmax x y = y \/ is_nan x = true \/ is_nan y = true.
Proof.
  destruct x as [[]|[]| |[]], y as [[]|[]| |[]]; simpl; auto; case_goal; auto.
Qed.

Lemma fmax_ge x y :
  is_nan x = false -> is_nan y = false ->
  is_nan (fmax x y) = false /\ fle x (fmax x y) = true /\ fle y (fmax x y) = true.
Proof.
  intros Hx Hy.
  destruct x as [[]|[]| |[]], y as [[]|[]| |[]]; try done; unfold fmax;
    try (case_goal); repeat split; try done; ford.
Qed.

Lemma fmax_ge_r x y :
  is_nan (fmax x y) = false -> is_nan y = false -> fle y (fmax x y) = true.
Proof.
  intros Hm Hy. destruct (is_nan x) eqn:Hx; [|by apply fmax_ge].
  by destruct x, y as [[]|[]| |[]].
Qed.

Lemma fmin_le x y :
  is_nan x = false -> is_nan y = false ->
  is_nan (fmin x y) = false /\ fle (fmin x y) x = true /\ fle (fmin x y) y = true.
Proof.
  intros Hx Hy.
  destruct x as [[]|[]| |[]], y as [[]|[]| |[]]; try done; unfold fmin;
    try (case_goal); repeat split; try done; ford.
Qed.

Lemma fmax_lub x y z :
  fle x z = true -> fle y z = true -> fle (fmax x y) z = true.
Proof.
  intros Hx Hy. destruct (fmax_cases x y) as [->|[->|[|]]]; try done; ford.
Qed.

Lemma fmin_builtin_le x y :
  is_nan x = false -> is_nan y = false ->
  is_nan (fmin_builtin x y) = false /\ fle (fmin_builtin x y) x = true /\ fle (fmin_builtin x y) y = true.
Proof. intros Hx Hy. unfold fmin_builtin. rewrite Hx, Hy. by apply fmin_le. Qed.

(** [math.Max(lo, math.Min(hi, x))] stays within the bounds, and keeps a NaN. *)
Lemma fclamp_bounds lo hi x :
  fle lo hi = true -> is_nan x = false ->
  fle lo (fmax lo (fmin hi x)) = true /\ fle (fmax lo (fmin hi x)) hi = true.
Proof.
  intros Hb Hx. apply fle_not_nan in Hb as Hn. destruct Hn as [Hlo Hhi].
  destruct (fmin_le hi x Hhi Hx) as (Hm & Hm1 & Hm2).
  destruct (fmax_ge lo _ Hlo Hm) as (_ & H1 & _).
  split; [done|]. by apply fmax_lub.
Qed.

(** ** Operations that cannot produce a NaN, and their signs *)

(** Zero or positive, in Go's order ([-0] included). *)
Definition nonneg (x : f64) : bool :=
  match x with
  | S754_zero _ | S754_infinity false | S754_finite false _ _ => true
  | _ => false
  end.

Lemma nonneg_le x : fle fzero x = nonneg x.
Proof. by destruct x as [[]|[]| |[]]. Qed.

Lemma nonneg_not_nan x : nonneg x = true -> is_nan x = false.
Proof. by destruct x. Qed.

Lemma finite_not_nan x : is_finite x = true -> is_nan x = false.
Proof. by destruct x. Qed.

(** The outcome of a rounding has the requested sign and is not a NaN. *)
Definition signed (s : bool) (x : f64) : Prop :=
  match x with
  | S754_zero s' | S754_infinity s' | S754_finite s' _ _ => s' = s
  | S754_nan => False
  end.

Lemma signed_nonneg x : signed false x -> nonneg x = true.
Proof. destruct x as [[]|[]| |[]]; simpl; done. Qed.
Lemma signed_not_nan s x : signed s x -> is_nan x = false.
Proof. by destruct x. Qed.

Lemma shr_1_nonneg r : 0 <= shr_m r -> 0 <= shr_m (shr_1 r).
Proof. destruct r as [[|[]|[]] ? ?]; simpl; lia. Qed.

Lemma iter_shr_nonneg p r : 0 <= shr_m r -> 0 <= shr_m (iter_pos shr_1 p r).
Proof.
  revert r. induction p as [p IH|p IH|]; intros r Hr; simpl; auto using shr_1_nonneg.
Qed.

Lemma shr_fexp_nonneg m e l :
  0 <= m -> 0 <= shr_m (fst (shr_fexp 53 1024 m e l)).
Proof.
  intros Hm. unfold shr_fexp, shr.
  assert (H0 : 0 <= shr_m (shr_record_of_loc m l)) by (by destruct l as [|[]]).
  destruct (_ - e); simpl; auto using iter_shr_nonneg.
Qed.

Lemma round_nearest_nonneg m l : 0 <= m -> 0 <= round_nearest_even m l.
Proof. intros. destruct l as [|[]]; simpl; try lia. destruct (Z.even m); lia. Qed.

Lemma binary_round_aux_signed s m e l :
  0 <= m -> signed s (binary_round_aux 53 1024 s m e l).
Proof.
  intros Hm. unfold binary_round_aux.
  destruct (shr_fexp 53 1024 m e l) as [r e'] eqn:E1.
  assert (H1 : 0 <= shr_m r) by (change r with (fst (r, e')); rewrite <- E1; by apply shr_fexp_nonneg).
  destruct (shr_fexp 53 1024 _ e' loc_Exact) as [r2 e2] eqn:E2.
  assert (H2 : 0 <= shr_m r2).
  { change r2 with (fst (r2, e2)). rewrite <- E2.
    by apply shr_fexp_nonneg, round_nearest_nonneg. }
  destruct (shr_m r2); [done| |lia]. by case_goal.
Qed.

Lemma binary_round_signed s m e : signed s (binary_round 53 1024 s m e).
Proof.
  unfold binary_round. destruct (shl_align _ _ _). by apply binary_round_aux_signed.
Qed.

Lemma binary_normalize_signed m e sz :
  (0 < m -> signed false (binary_normalize 53 1024 m e sz)) /\
  (m < 0 -> signed true (binary_normalize 53 1024 m e sz)) /\
  is_nan (binary_normalize 53 1024 m e sz) = false.
Proof.
  destruct m as [|p|p]; simpl; repeat split; intros; try lia; try done;
    eauto using binary_round_signed, signed_not_nan.
Qed.

Lemma of_Z_not_nan n : is_nan (of_Z n) = false.
Proof. apply binary_normalize_signed. Qed.

Lemma of_Z_nonneg n : 0 <= n -> nonneg (of_Z n) = true.
Proof.
  intros Hn. unfold of_Z. destruct (Z.eq_dec n 0) as [->|]; [done|].
  apply signed_nonneg, binary_normalize_signed. lia.
Qed.

Lemma fadd_finite x y : is_finite x = true -> is_finite y = true -> is_nan (fadd x y) = false.
Proof.
  unfold fadd.
  destruct x as [[]| | |], y as [[]| | |]; try done; intros; simpl; try done.
  apply binary_normalize_signed.
Qed.

Lemma fsub_finite x y : is_finite x = true -> is_finite y = true -> is_nan (fsub x y) = false.
Proof.
  unfold fsub.
  destruct x as [[]| | |], y as [[]| | |]; try done; intros; simpl; try done.
  apply binary_normalize_signed.
Qed.

(** Adding anything but a NaN to a finite number is not a NaN. *)
Lemma fadd_not_nan x y : is_finite x = true -> is_nan y = false -> is_nan (fadd x y) = false.
Proof.
  intros Hx Hy. destruct y as [|s| |]; try by apply fadd_finite.
  destruct x; done.
Qed.

Lemma fmul_finite x y : is_finite x = true -> is_finite y = true -> is_nan (fmul x y) = false.
Proof.
  unfold fmul. destruct x, y; try done; intros; simpl; try done.
  eapply signed_not_nan, binary_round_aux_signed. lia.
Qed.

Lemma fadd_nonneg x y : nonneg x = true -> nonneg y = true -> nonneg (fadd x y) = true.
Proof.
  unfold fadd.
  destruct x as [[]|[]| |[] mx ex], y as [[]|[]| |[] my ey]; try done; intros; simpl; try done.
  apply signed_nonneg, binary_round_signed.
Qed.

Lemma fsqrt_nonneg x : nonneg x = true -> nonneg (fsqrt x) = true.
Proof.
  unfold fsqrt. destruct x as [[]|[]| |[] m e]; try done; intros _; cbn -[SFsqrt_core_binary].
  destruct (SFsqrt_core_binary 53 1024 (Zpos m) e) as [[q e'] l] eqn:E.
  apply signed_nonneg, binary_round_aux_signed.
  unfold SFsqrt_core_binary in E.
  match type of E with context [Z.sqrtrem ?n] => pose proof (Z.sqrtrem_sqrt n) as G end.
  destruct (Z.sqrtrem _) as [q' r']. inv E. simpl in G. subst. apply Z.sqrt_nonneg.
Qed.

Lemma fdiv_core_nonneg m1 e1 m2 e2 :
  0 <= m1 -> 0 < m2 -> 0 <= fst (fst (SFdiv_core_binary 53 1024 m1 e1 m2 e2)).
Proof.
  intros H1 H2. unfold SFdiv_core_binary.
  set (s := (e1 - e2 - _)%Z).
  set (m' := match s with Z0 => m1 | Zpos _ => Z.shiftl m1 s | Zneg _ => 0 end).
  assert (Hm : 0 <= m').
  { subst m'. destruct s; [done| |done]. by apply Z.shiftl_nonneg. }
  pose proof (Z.div_pos m' m2 Hm H2) as Hq. unfold Z.div in Hq.
  destruct (Z.div_eucl m' m2). done.
Qed.

Lemma fdiv_nonneg x y :
  nonneg x = true -> is_finite x = true -> flt fzero y = true -> nonneg (fdiv x y) = true.
Proof.
  unfold fdiv.
  destruct x as [sx| | |[] mx ex]; try done; intros _ _;
    destruct y as [|[]| |[] my ey]; try done; intros _; cbn -[SFdiv_core_binary]; try by destruct sx.
  pose proof (fdiv_core_nonneg (Zpos mx) ex (Zpos my) ey) as H.
  destruct (SFdiv_core_binary 53 1024 (Zpos mx) ex (Zpos my) ey) as [[q e'] l].
  apply signed_nonneg, binary_round_aux_signed. simpl in H. lia.
Qed.

Lemma fsquare_nonneg x : is_nan x = false -> nonneg (fmul x x) = true.
Proof.
  unfold fmul. destruct x as [[]|[]| |[] m e]; try done; intros _; simpl;
    apply signed_nonneg, binary_round_aux_signed; lia.
Qed.

Lemma fabs_nonneg x : is_nan x = false -> nonneg (fabs x) = true.
Proof. by destruct x. Qed.

#[export] Hint Resolve fadd_nonneg fsqrt_nonneg fsquare_nonneg fabs_nonneg of_Z_not_nan
  nonneg_not_nan finite_not_nan fadd_finite fsub_finite fmul_finite fadd_not_nan : carillon.

(** ** Sorting by a float key with a tie-break

    The comparison of two of the daemon's sorts: by a key, then by [tie].  On
    elements with numeric keys it is a strict weak order when [tie] is. *)
Section KeyOrder.
Context {A : Type} (key : A -> f64) (tie : A -> A -> bool) (P : A -> Prop).
Hypothesis key_number : forall a, P a -> is_nan (key a) = false.
Hypothesis tie_asym : forall a b, P a -> P b -> tie a b = true -> tie b a = false.
Hypothesis tie_neg_trans : forall a b c, P a -> P b -> P c ->
  tie b a = false -> tie c b = false -> tie c a = false.

Definition key_less (a b : A) : bool :=
  if negb (feq (key a) (key b)) then flt (key a) (key b) else tie a b.

Lemma key_less_asym a b : P a -> P b -> key_less a b = true -> key_less b a = false.
Proof.
  unfold key_less. intros Ha Hb. pose proof (key_number a Ha). pose proof (key_number b Hb).
  destruct (feq (key a) (key b)) eqn:E, (feq (key b) (key a)) eqn:E'; simpl; intros.
  - auto.
  - exfalso. ford.
  - exfalso. ford.
  - ford.
Qed.

Lemma key_less_false a b : P a -> P b ->
  key_less b a = false <->
  flt (key a) (key b) = true \/ feq (key a) (key b) = true /\ tie b a = false.
Proof.
  unfold key_less. intros Ha Hb. pose proof (key_number a Ha). pose proof (key_number b Hb).
  destruct (feq (key b) (key a)) eqn:E; simpl.
  - assert (flt (key a) (key b) = false) as -> by ford.
    assert (feq (key a) (key b) = true) as -> by ford. intuition congruence.
  - assert (feq (key a) (key b) = false) as -> by ford.
    assert (flt (key a) (key b) = negb (flt (key b) (key a))) as ->.
    { destruct (flt (key b) (key a)) eqn:F; simpl; ford. }
    destruct (flt (key b) (key a)); simpl; intuition congruence.
Qed.

Lemma key_less_neg_trans a b c : P a -> P b -> P c ->
  key_less b a = false -> key_less c b = false -> key_less c a = false.
Proof.
  intros Ha Hb Hc. rewrite !key_less_false by done.
  intros [Hab|[Hab Tab]] [Hbc|[Hbc Tbc]].
  - left. by eapply flt_trans.
  - left. clear -Hab Hbc. ford.
  - left. clear -Hab Hbc. ford.
  - right. split; [clear -Hab Hbc; ford|]. by apply (tie_neg_trans a b c).
Qed.

(** An element not above another has a key at most its key. *)
Lemma key_less_le a b : P a -> P b -> key_less b a = false -> fle (key a) (key b) = true.
Proof.
  intros Ha Hb. rewrite key_less_false by done. intros [H|[H _]]; ford.
Qed.

Lemma sort_by_key_sorted l :
  Forall P l -> StronglySorted (not_above key_less) (sort_stable key_less l).
Proof.
  apply sort_stable_sorted; [apply key_less_asym|apply key_less_neg_trans].
Qed.
End KeyOrder.
