(* ===== verification/GoTime.v ===== *)
(** * Go's time.Time and time.Duration

    An instant is a number of nanoseconds since the Unix epoch; a duration is
    an int64 number of nanoseconds.  The zero [time.Time] (January 1, year 1)
    is the sentinel the code tests with [IsZero]. *)

From stdpp Require Import base numbers.
From Stdlib Require Import Lia ZArith SpecFloat.
From S2P Require Import Prelude Float64.

Local Open Scope Z_scope.

Definition time : Type := Z.
Definition duration : Type := Z.

Definition Nanosecond : duration := 1.
Definition Second : duration := 1000000000.
Definition Minute : duration := 60 * Second.
Definition Hour : duration := 60 * Minute.

Definition zeroTime : time := -62135596800 * Second.
Definition IsZero (t : time) : bool := t =? zeroTime.

Definition unixTime (sec nsec : Z) : time := sec * Second + nsec.
Definition Unix (t : time) : Z := t / Second.
Definition nanos (t : time) : Z := t mod Second.

Definition Before (t u : time) : bool := t <? u.
Definition After (t u : time) : bool := u <? t.
Definition Equal (t u : time) : bool := t =? u.
Definition Add (t : time) (d : duration) : time := t + d.

(** [t.Sub(u)] saturates at the int64 range. *)
Definition Sub (t u : time) : duration :=
  Z.max (- 2 ^ 63) (Z.min (2 ^ 63 - 1) (t - u)).

(** [d.Seconds()]: whole seconds plus the remaining nanoseconds over 1e9. *)
Definition Seconds (d : duration) : f64 :=
  fadd (of_Z (Z.quot d Second)) (fdiv (of_Z (Z.rem d Second)) (of_Z Second)).

Lemma nanos_range t : 0 <= nanos t < Second.
Proof. apply Z.mod_pos_bound. done. Qed.

Lemma unix_nanos t : unixTime (Unix t) (nanos t) = t.
Proof. unfold unixTime, Unix, nanos. pose proof (Z.div_mod t Second). unfold Second in *. lia. Qed.
