(* ===== verification/NtpTime.v ===== *)
(** * internal/ntp/time.go: NTP timestamps and identifiers

    64-bit NTP timestamps (32 bits of seconds modulo the era, 32 bits of
    fraction), the 32-bit short format, the leap indicator and mode fields
    and the reference identifier. *)

From stdpp Require Import base list numbers.
From Stdlib Require Import Lia ZArith SpecFloat.
From S2P Require Import Prelude Float64 GoTime.

Local Open Scope Z_scope.

Definition unixEpochOffset : Z := 2208988800.
Definition eraLength : Z := 2 ^ 32.

(** A [Time] is a uint64, a [Short] a uint32. *)
Definition Time : Type := Z.
Definition Short : Type := Z.

Definition FromUnix (sec nsec : Z) : Time :=
  let s := u32 (u64 (i64 (sec + unixEpochOffset))) in
  let f := u32 (Z.quot (i64 (Z.shiftl nsec 32)) 1000000000) in
  Z.lor (Z.shiftl s 32) f.

Definition FromTime (t : time) : Time := FromUnix (Unix t) (nanos t).

Definition TimeSeconds (t : Time) : Z := u32 (Z.shiftr t 32).
Definition Fraction (t : Time) : Z := u32 t.
Definition TimeIsZero (t : Time) : bool := t =? 0.

Definition floorDiv (a b : Z) : Z :=
  let q := Z.quot a b in
  if negb (Z.rem a b =? 0) && negb (Bool.eqb (a <? 0) (b <? 0)) then i64 (q - 1) else q.

Definition TimeUnix (t : Time) (nearSec : Z) : Z * Z :=
  let sec := i64 (TimeSeconds t - unixEpochOffset) in
  let diff := i64 (nearSec - sec) in
  let eras := floorDiv (i64 (diff + Z.quot eraLength 2)) eraLength in
  let sec := i64 (sec + i64 (eras * eraLength)) in
  let nsec := Z.shiftr (i64 (Fraction t * 1000000000)) 32 in
  (sec, nsec).

(** [t.Time(near)]. *)
Definition TimeTime (t : Time) (near : time) : time :=
  let '(sec, nsec) := TimeUnix t (Unix near) in unixTime sec nsec.

(** [t.Sub(u)], in seconds: the difference modulo 2^64, read as signed. *)
Definition TimeSub (t u : Time) : f64 :=
  let d := i64 (u64 (t - u)) in
  fdiv (of_Z d) (of_Z eraLength).

(** [t.Add(d)], for a shift that fits an int64. *)
Definition TimeAdd (t : Time) (d : f64) : Time :=
  u64 (i64 (i64 t + i64 (fround (fmul d (of_Z eraLength))))).

Definition ShortFromSeconds (s : f64) : Short :=
  if fle s fzero || is_nan s then 0
  else if fge s (of_Z 65536) then 2 ^ 32 - 1
  else u32 (ftrunc (fmul s (of_Z 65536))).

Definition ShortSeconds (s : Short) : f64 := fdiv (of_Z s) (of_Z 65536).

(** [exp] is an int8. *)
Definition Log2Seconds (exp : Z) : f64 := ldexp1 exp.

Definition LeapNone : Z := 0.
Definition LeapInsert : Z := 1.
Definition LeapDelete : Z := 2.
Definition LeapUnsync : Z := 3.

Definition ModeReserved : Z := 0.
Definition ModeSymmetricActive : Z := 1.
Definition ModeSymmetricPassive : Z := 2.
Definition ModeClient : Z := 3.
Definition ModeServer : Z := 4.
Definition ModeBroadcast : Z := 5.
Definition ModeControl : Z := 6.
Definition ModePrivate : Z := 7.

(** A reference identifier is four bytes. *)
Definition RefID : Type := list Z.
Definition zeroRefID : RefID := [0; 0; 0; 0].

Definition RefIDFromString (s : list Z) : RefID :=
  (fun i => default 32 (s !! i)) <$> [0; 1; 2; 3]%nat.

Definition IsText (r : RefID) : bool :=
  forallb (fun b => negb ((b <? 32) || (126 <? b))) r.

(** Trailing spaces are dropped from the end of the four bytes. *)
Fixpoint trim_spaces (rev_r : list Z) : list Z :=
  match rev_r with
  | 32 :: r => trim_spaces r
  | r => r
  end.
Definition Text (r : RefID) : list Z := reverse (trim_spaces (reverse r)).

Definition KissRATE : RefID := RefIDFromString [82; 65; 84; 69].
Definition KissDENY : RefID := RefIDFromString [68; 69; 78; 89].
Definition KissRSTR : RefID := RefIDFromString [82; 83; 84; 82].
Definition KissINIT : RefID := RefIDFromString [73; 78; 73; 84].
Definition KissSTEP : RefID := RefIDFromString [83; 84; 69; 80].
Definition KissHOLD : RefID := RefIDFromString [72; 79; 76; 68].
Definition KissPANC : RefID := RefIDFromString [80; 65; 78; 67].

(** ** Timestamps *)

Lemma floorDiv_div a b : 0 < b -> in_s 64 (a / b) -> floorDiv a b = a / b.
Proof.
  intros Hb Hr. unfold floorDiv.
  destruct (Z.rem a b =? 0) eqn:E; simpl; crush.
  - pose proof (Z.quot_rem' a b). apply Z.div_unique_exact; lia.
  - assert (Hbb : (b <? 0) = false) by lia. rewrite Hbb.
    destruct (a <? 0) eqn:Ea; simpl; crush.
    + pose proof (Z.quot_rem' a b). pose proof (Z.rem_bound_pos_neg a b Hb ltac:(lia)).
      assert (Hq : a / b = Z.quot a b - 1).
      { symmetry. apply (Z.div_unique a b (Z.quot a b - 1) (Z.rem a b + b)); lia. }
      rewrite <- Hq. by apply wraps_id.
    + apply Z.quot_div_nonneg; lia.
Qed.

Lemma in_s64 x : - 2 ^ 63 <= x < 2 ^ 63 -> i64 x = x.
Proof. intros. apply wraps_id; [lia|]. unfold in_s. lia. Qed.

(** Every encoding is a 64-bit value. *)
Lemma FromUnix_range sec nsec : in_u 64 (FromUnix sec nsec).
Proof.
  unfold FromUnix. cbn zeta.
  pose proof (wrapu_range 32 (u64 (i64 (sec + unixEpochOffset))) ltac:(lia)) as H1.
  pose proof (wrapu_range 32 (Z.quot (i64 (Z.shiftl nsec 32)) 1000000000) ltac:(lia)) as H2.
  revert H1 H2. generalize (u32 (u64 (i64 (sec + unixEpochOffset)))) as a.
  generalize (u32 (Z.quot (i64 (Z.shiftl nsec 32)) 1000000000)) as b. intros b a Ha Hb.
  unfold in_u in *.
  assert (Z.land (Z.shiftl a 32) b = 0) as Hl.
  { apply Z.bits_inj'. intros n Hn. rewrite Z.land_spec, Z.bits_0, Z.shiftl_spec by lia.
    destruct (Z.lt_ge_cases n 32); [by rewrite (Z.testbit_neg_r a) by lia|].
    rewrite <- (Z.mod_small b (2 ^ 32)) by lia. rewrite Z.mod_pow2_bits_high by lia. apply andb_false_r. }
  rewrite <- (Z.lxor_lor _ _ Hl), <- (Z.add_nocarry_lxor _ _ Hl), Z.shiftl_mul_pow2 by lia. clear Hl. lia.
Qed.

Lemma FromTime_range t : in_u 64 (FromTime t).
Proof. exact (FromUnix_range (Unix t) (nanos t)). Qed.

Lemma ShortFromSeconds_range s : in_u 32 (ShortFromSeconds s).
Proof.
  unfold ShortFromSeconds. case_goal; [unfold in_u; lia|]. case_goal; [unfold in_u; lia|].
  apply wrapu_range. lia.
Qed.

Lemma FromUnix_fields sec nsec :
  - 2 ^ 62 <= sec < 2 ^ 62 -> 0 <= nsec < 1000000000 ->
  TimeSeconds (FromUnix sec nsec) = (sec + unixEpochOffset) mod 2 ^ 32 /\
  Fraction (FromUnix sec nsec) = nsec * 2 ^ 32 / 1000000000 /\
  in_u 64 (FromUnix sec nsec).
Proof.
  intros Hs Hn. unfold FromUnix, TimeSeconds, Fraction, wrapu, unixEpochOffset, in_u.
  rewrite (Z.shiftl_mul_pow2 nsec) by lia.
  rewrite !in_s64 by lia. rewrite Z.quot_div_nonneg by lia.
  assert (Hf : 0 <= nsec * 2 ^ 32 / 1000000000 < 2 ^ 32).
  { split; [apply Z.div_pos; lia|]. apply Z.div_lt_upper_bound; lia. }
  rewrite (Z.mod_small (nsec * 2 ^ 32 / 1000000000)) by done.
  set (s := ((sec + 2208988800) mod 2 ^ 64) mod 2 ^ 32).
  assert (Hsr : 0 <= s < 2 ^ 32) by (apply Z.mod_pos_bound; lia).
  assert (Hmod : s = (sec + 2208988800) mod 2 ^ 32).
  { subst s. replace (2 ^ 64) with (2 ^ 32 * 2 ^ 32) by lia.
    rewrite Z.rem_mul_r by lia. rewrite Z.mul_comm, Z_mod_plus_full. apply Z.mod_mod. lia. }
  set (f := nsec * 2 ^ 32 / 1000000000) in *.
  assert (Hor : Z.lor (Z.shiftl s 32) f = s * 2 ^ 32 + f).
  { rewrite <- Z.shiftl_mul_pow2 by lia. rewrite <- Z.add_lor_land.
    enough (Z.land (Z.shiftl s 32) f = 0) by lia.
    apply Z.bits_inj'. intros n Hn'. rewrite Z.bits_0, Z.land_spec.
    destruct (Z_lt_dec n 32) as [H32|H32].
    - rewrite Z.shiftl_spec_low by lia. done.
    - rewrite andb_comm. replace (Z.testbit f n) with false; [done|].
      symmetry. apply Z.bits_above_log2; [lia|].
      destruct (Z.eq_dec f 0) as [->|]; [simpl; lia|].
      apply Z.log2_lt_pow2; [lia|]. apply Z.lt_le_trans with (2 ^ 32); [lia|].
      apply Z.pow_le_mono_r; lia. }
  rewrite Hor. rewrite Z.shiftr_div_pow2 by lia.
  rewrite Z.div_add_l by lia. rewrite (Z.div_small f) by lia. rewrite Z.add_0_r.
  repeat split; try lia.
  - rewrite Z.mod_small; lia.
  - rewrite Z.add_comm, Z_mod_plus_full. by apply Z.mod_small.
Qed.

(** The seconds of [TimeUnix] are congruent to the field modulo the era and
    within half an era of [nearSec]. *)
Lemma TimeUnix_seconds t nearSec :
  - 2 ^ 61 <= nearSec < 2 ^ 61 ->
  let s := fst (TimeUnix t nearSec) in
  nearSec - 2 ^ 31 < s <= nearSec + 2 ^ 31 /\
  (s - (TimeSeconds t - unixEpochOffset)) mod eraLength = 0.
Proof.
  intros Hn. unfold TimeUnix, unixEpochOffset, eraLength. simpl fst.
  assert (Ht : 0 <= TimeSeconds t < 2 ^ 32) by (apply wrapu_range; lia).
  set (s0 := TimeSeconds t) in *. clearbody s0.
  rewrite !(in_s64 (s0 - _)) by lia.
  rewrite (in_s64 (nearSec - _)) by lia.
  change (Z.quot (2 ^ 32) 2) with (2 ^ 31).
  rewrite (in_s64 (nearSec - (s0 - 2208988800) + _)) by lia.
  set (d := nearSec - (s0 - 2208988800) + 2 ^ 31).
  pose proof (Z.div_mod d (2 ^ 32) ltac:(lia)) as Hdm.
  pose proof (Z.mod_pos_bound d (2 ^ 32) ltac:(lia)) as Hm.
  assert (Hr : in_s 64 (d / 2 ^ 32)) by (unfold in_s; lia).
  rewrite floorDiv_div by (done || lia).
  rewrite (in_s64 (d / 2 ^ 32 * 2 ^ 32)) by lia.
  rewrite in_s64 by lia.
  split; [lia|].
  replace (_ - _) with (d / 2 ^ 32 * 2 ^ 32) by lia. apply Z_mod_mult.
Qed.

Lemma TimeUnix_nanos t nearSec :
  snd (TimeUnix t nearSec) = Fraction t * 1000000000 / 2 ^ 32.
Proof.
  unfold TimeUnix. simpl snd.
  assert (Hf : 0 <= Fraction t < 2 ^ 32) by (apply wrapu_range; lia).
  rewrite in_s64 by lia. apply Z.shiftr_div_pow2. lia.
Qed.

(** A fraction survives the trip through nanoseconds to within one. *)
Lemma fraction_nanos nsec :
  0 <= nsec < 1000000000 ->
  nsec - 1 <= (nsec * 2 ^ 32 / 1000000000) * 1000000000 / 2 ^ 32 <= nsec.
Proof.
  intros Hn.
  pose proof (Z.div_mod (nsec * 2 ^ 32) 1000000000 ltac:(lia)).
  pose proof (Z.mod_pos_bound (nsec * 2 ^ 32) 1000000000 ltac:(lia)).
  set (f := nsec * 2 ^ 32 / 1000000000) in *.
  pose proof (Z.div_mod (f * 1000000000) (2 ^ 32) ltac:(lia)).
  pose proof (Z.mod_pos_bound (f * 1000000000) (2 ^ 32) ltac:(lia)). lia.
Qed.

(** Two numbers congruent modulo the era and within half an era of the same
    point are equal. *)
Lemma era_unique near x y :
  near - 2 ^ 31 < x <= near + 2 ^ 31 -> near - 2 ^ 31 < y <= near + 2 ^ 31 ->
  (x - y) mod eraLength = 0 -> x = y.
Proof.
  unfold eraLength. intros Hx Hy Hm.
  apply Z.mod_divide in Hm; [|lia]. destruct Hm as [k Hk]. assert (k = 0) by lia. lia.
Qed.

(** The era is recovered.  An instant converted to an NTP timestamp (which
    drops the era) and back, relative to any reference time less than half an
    era away, gives the same second, and the same nanosecond up to the
    truncation of the 32-bit fraction. *)
Theorem unix_roundtrip sec nsec near :
  - 2 ^ 60 <= near < 2 ^ 60 -> 0 <= nsec < 1000000000 ->
  near - 2 ^ 31 < sec <= near + 2 ^ 31 ->
  let '(s, n) := TimeUnix (FromUnix sec nsec) near in
  s = sec /\ nsec - 1 <= n <= nsec.
Proof.
  intros Hnear Hn Hs.
  destruct (FromUnix_fields sec nsec ltac:(lia) Hn) as (Hsec & Hfr & _).
  pose proof (TimeUnix_seconds (FromUnix sec nsec) near ltac:(lia)) as Hu.
  pose proof (TimeUnix_nanos (FromUnix sec nsec) near) as Hns.
  destruct (TimeUnix (FromUnix sec nsec) near) as [s n]. simpl in *.
  destruct Hu as [Hb Hm]. rewrite Hsec in Hm. rewrite Hfr in Hns. subst n.
  split; [|by apply fraction_nanos].
  apply (era_unique near); [lia|lia|].
  rewrite <- Hm. unfold eraLength.
  rewrite <- (Zminus_mod_idemp_r s (_ - _)), Zminus_mod_idemp_l, Zminus_mod_idemp_r.
  f_equal. lia.
Qed.

(** A date past the 2036 era rollover, read back in 2040. *)
Lemma unix_roundtrip_witness :
  let '(s, n) := TimeUnix (FromUnix 2209000000 123456789) 2208000000 in
  s = 2209000000 /\ 123456789 - 1 <= n <= 123456789.
Proof. apply (unix_roundtrip 2209000000 123456789 2208000000); lia. Defined.

(** The timestamp difference is right across an era boundary.  For two
    timestamps whose true distance [d] (in units of 2^-32 s) fits an int64,
    [Sub] returns [d / 2^32] whatever wraps in between. *)
Theorem sub_across_era (t d : Z) :
  - 2 ^ 63 <= d < 2 ^ 63 ->
  TimeSub (u64 (t + d)) (u64 t) = fdiv (of_Z d) (of_Z eraLength).
Proof.
  intros Hd. unfold TimeSub. f_equal. f_equal.
  rewrite wraps_wrapu by lia. unfold wrapu, wraps.
  rewrite <- (in_s64 d Hd) at 2. unfold wraps. f_equal.
  rewrite <- Z.add_sub_swap, Zminus_mod, Zplus_mod_idemp_l, Z.mod_mod by lia.
  rewrite Zminus_mod_idemp_l, Zminus_mod_idemp_r. f_equal. lia.
Qed.

Lemma sub_across_era_witness :
  TimeSub (u64 (2 ^ 64 - 10 + 2 ^ 33)) (u64 (2 ^ 64 - 10)) = of_Z 2.
Proof. rewrite (sub_across_era (2 ^ 64 - 10) (2 ^ 33)) by lia. vm_compute. reflexivity. Defined.
