(* ===== verification/NtpPacket.v ===== *)
(** * internal/ntp/packet.go: the NTP packet header and trailer framing

    [Decode] reads the 48-byte header, walks the RFC 7822 extension fields and
    locates the MAC; [AppendTo]/[Marshal] write the header. *)

From stdpp Require Import base list numbers.
From Stdlib Require Import Lia ZArith.
From S2P Require Import Prelude Float64 GoTime NtpTime.

Local Open Scope Z_scope.

Definition Version : Z := 4.
Definition HeaderSize : nat := 48.
Definition MACSizeCMAC : nat := 20.
Definition macSizeSHA1 : nat := 24.
Definition cryptoNAKSize : nat := 4.
Definition CryptoNAKSize : nat := cryptoNAKSize.
Definition minExtensionField : Z := 16.

Inductive DecodeError : Type :=
| ErrShort
| ErrVersion (v : Z)
| ErrTrailer.

#[export] Instance DecodeError_eq_dec : EqDecision DecodeError.
Proof. solve_decision. Defined.

Record Packet : Type := mkPacket {
  Leap : Z;
  pVersion : Z;
  Mode : Z;
  Stratum : Z;
  Poll : Z;          (* int8 *)
  Precision : Z;     (* int8 *)
  RootDelay : Short;
  RootDispersion : Short;
  ReferenceID : RefID;
  ReferenceTime : Time;
  OriginTime : Time;
  ReceiveTime : Time;
  TransmitTime : Time
}.

#[export] Instance Packet_eta : Eta Packet := fun p =>
  mkPacket (Leap p) (pVersion p) (Mode p) (Stratum p) (Poll p) (Precision p) (RootDelay p)
    (RootDispersion p) (ReferenceID p) (ReferenceTime p) (OriginTime p) (ReceiveTime p)
    (TransmitTime p).

Record MAC : Type := mkMAC { KeyID : Z; Digest : list Z }.

Definition IsCryptoNAK (m : MAC) : bool := (KeyID m =? 0) && (length (Digest m) =? 0)%nat.
Definition IsKiss (p : Packet) : bool := Stratum p =? 0.
Definition KissCode (p : Packet) : list Z :=
  if negb (IsKiss p) || negb (IsText (ReferenceID p)) then [] else Text (ReferenceID p).

(** [b[i]] and the big-endian reads of [b[i:j]], for in-range indices. *)
Definition byte_at (b : list Z) (i : nat) : Z := nth i b 0.
Definition be_at (b : list Z) (i j : nat) : Z := be_decode (slice i j b).

(** The fields of the fixed header, the leap/version/mode byte included. *)
Definition decode_header (b : list Z) : Packet :=
  {| Leap := Z.shiftr (byte_at b 0) 6;
     pVersion := Z.land (Z.shiftr (byte_at b 0) 3) 7;
     Mode := Z.land (byte_at b 0) 7;
     Stratum := byte_at b 1;
     Poll := i8 (byte_at b 2);
     Precision := i8 (byte_at b 3);
     RootDelay := be_at b 4 8;
     RootDispersion := be_at b 8 12;
     ReferenceID := slice 12 16 b;
     ReferenceTime := be_at b 16 24;
     OriginTime := be_at b 24 32;
     ReceiveTime := be_at b 32 40;
     TransmitTime := be_at b 40 48 |}.

(** The extension-field loop: the offset at which at most [macSizeSHA1] bytes
    remain.  [fuel] bounds the number of fields. *)
Fixpoint skip_extensions (fuel : nat) (b : list Z) (off : nat) : option (result DecodeError nat) :=
  if (macSizeSHA1 <? length b - off)%nat then
    match fuel with
    | O => None
    | S fuel' =>
        if (length b - off <? 4)%nat then Some (Err ErrTrailer)
        else
          let l := be_at b (off + 2) (off + 4) in
          if (l <? minExtensionField) || negb (l mod 4 =? 0)
             || (Z.of_nat (length b) <? Z.of_nat off + l)
          then Some (Err ErrTrailer)
          else skip_extensions fuel' b (off + Z.to_nat l)
    end
  else Some (Ok off).

(** What remains after the last extension field. *)
Definition decode_trailer (b : list Z) (off : nat) : result DecodeError (option MAC * nat) :=
  let rest := (length b - off)%nat in
  if (rest =? 0)%nat then Ok (None, length b)
  else if (rest =? cryptoNAKSize)%nat then
    if be_at b off (off + 4) =? 0 then Ok (Some (mkMAC 0 []), off) else Err ErrTrailer
  else if (rest =? MACSizeCMAC)%nat || (rest =? macSizeSHA1)%nat then
    Ok (Some (mkMAC (be_at b off (off + 4)) (drop (off + 4) b)), off)
  else Err ErrTrailer.

(** [Decode]: the packet, the MAC if any, and its offset. *)
Definition Decode (b : list Z) : result DecodeError (Packet * option MAC * nat) :=
  if (length b <? HeaderSize)%nat then Err ErrShort
  else
    let p := decode_header b in
    if (pVersion p =? 0) || (Version <? pVersion p) then Err (ErrVersion (pVersion p))
    else
      match skip_extensions (length b) b HeaderSize with
      | None => Err ErrTrailer
      | Some (Err e) => Err e
      | Some (Ok off) =>
          try (mac, macOffset) <- decode_trailer b off;
          Ok (p, mac, macOffset)
      end.

(** The 48 bytes of the header. *)
Definition Marshal (p : Packet) : list Z :=
  [ u8 (Z.lor (Z.lor (u8 (Z.shiftl (Leap p) 6)) (u8 (Z.shiftl (Z.land (pVersion p) 7) 3)))
              (Z.land (Mode p) 7));
    Stratum p; u8 (Poll p); u8 (Precision p) ]
  ++ be_encode 4 (RootDelay p) ++ be_encode 4 (RootDispersion p)
  ++ ReferenceID p
  ++ be_encode 8 (ReferenceTime p) ++ be_encode 8 (OriginTime p)
  ++ be_encode 8 (ReceiveTime p) ++ be_encode 8 (TransmitTime p).

Definition AppendTo (p : Packet) (dst : list Z) : list Z := dst ++ Marshal p.

(** Field ranges of the Go types, the leap and mode fields at their widths. *)
Record packet_ok (p : Packet) : Prop := {
  ok_leap : 0 <= Leap p < 4;
  ok_version : 0 <= pVersion p < 8;
  ok_mode : 0 <= Mode p < 8;
  ok_stratum : in_u 8 (Stratum p);
  ok_poll : in_s 8 (Poll p);
  ok_precision : in_s 8 (Precision p);
  ok_rootdelay : in_u 32 (RootDelay p);
  ok_rootdisp : in_u 32 (RootDispersion p);
  ok_refid : length (ReferenceID p) = 4%nat /\ Forall is_byte (ReferenceID p);
  ok_reftime : in_u 64 (ReferenceTime p);
  ok_origin : in_u 64 (OriginTime p);
  ok_receive : in_u 64 (ReceiveTime p);
  ok_transmit : in_u 64 (TransmitTime p)
}.

(** ** Header fields *)

Lemma flags_roundtrip l v m :
  0 <= l < 4 -> 0 <= v < 8 -> 0 <= m < 8 ->
  let b := u8 (Z.lor (Z.lor (u8 (Z.shiftl l 6)) (u8 (Z.shiftl (Z.land v 7) 3))) (Z.land m 7)) in
  is_byte b /\ Z.shiftr b 6 = l /\ Z.land (Z.shiftr b 3) 7 = v /\ Z.land b 7 = m.
Proof.
  intros Hl Hv Hm. unfold is_byte.
  assert (l = 0 \/ l = 1 \/ l = 2 \/ l = 3) as El by lia.
  assert (v = 0 \/ v = 1 \/ v = 2 \/ v = 3 \/ v = 4 \/ v = 5 \/ v = 6 \/ v = 7) as Ev by lia.
  assert (m = 0 \/ m = 1 \/ m = 2 \/ m = 3 \/ m = 4 \/ m = 5 \/ m = 6 \/ m = 7) as Em by lia.
  repeat destruct El as [->|El]; subst; repeat destruct Ev as [->|Ev]; subst;
    repeat destruct Em as [->|Em]; subst; vm_compute; done.
Qed.

Lemma flags_encode b :
  is_byte b ->
  u8 (Z.lor (Z.lor (u8 (Z.shiftl (Z.shiftr b 6) 6)) (u8 (Z.shiftl (Z.land (Z.land (Z.shiftr b 3) 7) 7) 3)))
     (Z.land (Z.land b 7) 7)) = b.
Proof.
  intros Hb. assert (Hall : forallb (fun b =>
    u8 (Z.lor (Z.lor (u8 (Z.shiftl (Z.shiftr b 6) 6)) (u8 (Z.shiftl (Z.land (Z.land (Z.shiftr b 3) 7) 7) 3)))
     (Z.land (Z.land b 7) 7)) =? b) (Z.of_nat <$> seq 0 256) = true) by (vm_compute; reflexivity).
  rewrite forallb_forall in Hall. apply Z.eqb_eq, Hall. apply list_elem_of_In, list_elem_of_fmap.
  exists (Z.to_nat b). unfold is_byte in Hb. split; [lia|]. apply elem_of_seq. lia.
Qed.

Lemma be_at_skip l k i j :
  (length l <= i)%nat -> be_at (l ++ k) i j = be_at k (i - length l) (j - length l).
Proof. intros. unfold be_at. by rewrite slice_app_r. Qed.

Lemma be_at_head n v k : be_at (be_encode n v ++ k) 0 n = v mod 256 ^ Z.of_nat n.
Proof. unfold be_at. rewrite slice_app_l by apply length_be_encode. apply be_decode_encode. Qed.

Lemma in_u_mod w n v : in_u w v -> w = 8 * Z.of_nat n -> v mod 256 ^ Z.of_nat n = v.
Proof.
  unfold in_u. intros Hv ->. apply Z.mod_small. rewrite Z.pow_mul_r in Hv by lia. exact Hv.
Qed.

(** Only the reference id has a length of its own. *)
Lemma length_Marshal_refid p : length (ReferenceID p) = 4%nat -> length (Marshal p) = HeaderSize.
Proof. intros Hr. unfold Marshal. rewrite !length_app, !length_be_encode, Hr. reflexivity. Qed.

Lemma length_Marshal p : packet_ok p -> length (Marshal p) = HeaderSize.
Proof.
  intros Hp. unfold Marshal. destruct (ok_refid p Hp) as [Hr _].
  rewrite !length_app, !length_be_encode, Hr. reflexivity.
Qed.

Ltac be_field :=
  repeat (rewrite be_at_skip by (rewrite ?length_be_encode; simpl; lia));
  rewrite ?length_be_encode; simpl Nat.sub; rewrite be_at_head;
  erewrite in_u_mod by (eassumption || (simpl; lia)); reflexivity.

(** Reading back a marshalled header gives the packet, whatever follows. *)
Lemma decode_header_Marshal p k : packet_ok p -> decode_header (Marshal p ++ k) = p.
Proof.
  intros Hp. destruct Hp as [Hl Hv Hm Hs Hpo Hpr Hrd Hdi [Hrl Hrb] Hrt Ho Hre Ht].
  destruct p as [l v m s po pr rd di [|r0 [|r1 [|r2 [|r3 [|]]]]] rt o re t]; try done.
  unfold decode_header, Marshal, byte_at.
  cbn [Leap pVersion Mode Stratum Poll Precision RootDelay RootDispersion ReferenceID
       ReferenceTime OriginTime ReceiveTime TransmitTime] in *.
  destruct (flags_roundtrip l v m Hl Hv Hm) as (_ & F1 & F2 & F3).
  rewrite <- !app_assoc.
  f_equal; try assumption; try (cbn [nth app]; reflexivity).
  - cbn [nth app]. rewrite wraps_wrapu by lia. by apply wraps_id.
  - cbn [nth app]. rewrite wraps_wrapu by lia. by apply wraps_id.
  - be_field.
  - be_field.
  - be_field.
  - be_field.
  - be_field.
  - be_field.
Qed.

(** ** Trailer framing *)

(** With as much fuel as there are bytes left the walk ends, at an offset
    inside the packet with at most a SHA-1 trailer after it. *)
Lemma skip_extensions_total fuel b off :
  (length b - off <= fuel)%nat ->
  exists r, skip_extensions fuel b off = Some r /\
    forall off', r = Ok off' -> (off <= off' /\ length b - off' <= macSizeSHA1)%nat /\
      (off <= length b -> off' <= length b)%nat.
Proof.
  revert off. induction fuel as [|fuel IH]; intros off Hf; simpl;
    destruct (macSizeSHA1 <? length b - off)%nat eqn:E.
  - unfold macSizeSHA1 in E. crush.
  - eexists. split; [done|]. intros off' [= <-]. crush.
  - case_goal; [eexists; split; [done|]; intros; done|].
    case_goal; [eexists; split; [done|]; intros; done|].
    repeat bool_step. unfold minExtensionField in *.
    destruct (IH (off + Z.to_nat (be_at b (off + 2) (off + 4)))%nat) as (r & Hr & Hok); [lia|].
    exists r. split; [done|]. intros off' Hoff. destruct (Hok off' Hoff). lia.
  - eexists. split; [done|]. intros off' [= <-]. crush.
Qed.

(** A well-formed RFC 7822 extension field: type, length, value. *)
Definition ext_field (f : list Z) : Prop :=
  (16 <= length f)%nat /\ Z.of_nat (length f) mod 4 = 0 /\ Z.of_nat (length f) < 2 ^ 16 /\
  be_at f 2 4 = Z.of_nat (length f).

Lemma be_at_mid pre f post i j :
  (i <= j <= length f)%nat ->
  be_at (pre ++ f ++ post) (length pre + i) (length pre + j) = be_at f i j.
Proof.
  intros Hij. unfold be_at, slice. f_equal.
  rewrite drop_app_ge by lia. rewrite drop_app_le by lia.
  rewrite take_app_le by (rewrite length_drop; lia).
  f_equal; [lia|]. f_equal. lia.
Qed.

Lemma ext_fields_length fs : Forall ext_field fs -> (length fs <= length (concat fs))%nat.
Proof. induction 1 as [|f fs [H _] _ IH]; simpl; [lia|]. rewrite length_app. lia. Qed.

(** The walk skips any sequence of well-formed fields in front of a trailer. *)
Lemma skip_extensions_fields fs pre trailer fuel :
  Forall ext_field fs -> (20 <= length trailer <= macSizeSHA1)%nat ->
  (length fs <= fuel)%nat ->
  skip_extensions fuel (pre ++ concat fs ++ trailer) (length pre)
  = Some (Ok (length pre + length (concat fs))%nat).
Proof.
  intros Hfs Ht. unfold macSizeSHA1 in Ht. revert pre fuel.
  induction Hfs as [|f fs (H16 & H4 & Hl & Hlen) Hfs IH]; intros pre fuel Hfuel.
  - assert (E : (macSizeSHA1 <? length (pre ++ trailer) - length pre)%nat = false).
    { rewrite length_app. unfold macSizeSHA1. apply Nat.ltb_ge. lia. }
    destruct fuel; cbn [concat skip_extensions app]; rewrite E; do 2 f_equal; simpl; lia.
  - destruct fuel as [|fuel]; [simpl in Hfuel; lia|]. simpl concat. rewrite <- !app_assoc.
    cbn [skip_extensions].
    assert (Ebe : be_at (pre ++ f ++ concat fs ++ trailer) (length pre + 2) (length pre + 4)
                  = Z.of_nat (length f)) by (rewrite be_at_mid by lia; done).
    rewrite Ebe. rewrite !length_app. unfold minExtensionField.
    assert (E1 : (macSizeSHA1 <? length pre + (length f + (length (concat fs) + length trailer)) - length pre)%nat = true)
      by (unfold macSizeSHA1; apply Nat.ltb_lt; lia).
    rewrite E1.
    assert (E2 : (length pre + (length f + (length (concat fs) + length trailer)) - length pre <? 4)%nat = false)
      by (apply Nat.ltb_ge; lia).
    rewrite E2.
    assert (E3 : (Z.of_nat (length f) <? 16) || negb (Z.of_nat (length f) mod 4 =? 0)
      || (Z.of_nat (length pre + (length f + (length (concat fs) + length trailer)))
          <? Z.of_nat (length pre) + Z.of_nat (length f)) = false).
    { rewrite H4. simpl. rewrite !orb_false_iff. repeat split; apply Z.ltb_ge; lia. }
    rewrite E3. rewrite Nat2Z.id.
    rewrite <- length_app. rewrite app_assoc. rewrite IH by (simpl in Hfuel; lia).
    do 2 f_equal. rewrite !length_app. lia.
Qed.

Lemma decode_trailer_sound b off mac macOff :
  (off <= length b)%nat -> decode_trailer b off = Ok (mac, macOff) ->
  match mac with
  | None => macOff = length b
  | Some m => macOff = off /\ (length b - off = 4 + length (Digest m))%nat /\
      KeyID m = be_at b off (off + 4) /\ Digest m = drop (off + 4) b /\
      (length (Digest m) = 0 \/ length (Digest m) = 16 \/ length (Digest m) = 20)%nat
  end.
Proof.
  intros Ho. unfold decode_trailer, cryptoNAKSize, MACSizeCMAC, macSizeSHA1.
  repeat case_goal; intros Hd; inv Hd; repeat bool_step; simpl; try done.
  - repeat split; try lia; try congruence.
    symmetry. apply drop_ge. lia.
  - match goal with H : _ || _ = true |- _ => apply orb_true_iff in H end.
    rewrite length_drop. repeat split; destruct_or!; repeat bool_step; lia.
Qed.

(** Decoding what was marshalled re-encodes to the same 48 bytes. *)
Lemma Marshal_decode_header b :
  (HeaderSize <= length b)%nat -> Forall is_byte b ->
  packet_ok (decode_header b) /\ Marshal (decode_header b) = take HeaderSize b.
Proof.
  intros Hlen Hb.
  assert (Hn : forall i, (i < 48)%nat -> is_byte (byte_at b i)).
  { intros i Hi. unfold byte_at. rewrite Forall_forall in Hb. apply Hb.
    apply nth_In. unfold HeaderSize in Hlen. lia. }
  assert (Hs : forall i j, (i <= j <= 48)%nat ->
    0 <= be_at b i j < 256 ^ Z.of_nat (j - i) /\ be_encode (j - i) (be_at b i j) = slice i j b).
  { intros i j Hij. unfold be_at.
    assert (Hl : length (slice i j b) = (j - i)%nat) by (apply length_slice; unfold HeaderSize in *; lia).
    assert (HF : Forall is_byte (slice i j b)) by auto with carillon.
    split.
    - rewrite <- Hl. by apply be_decode_range.
    - rewrite <- Hl. by apply be_encode_decode. }
  pose proof (Hn 0%nat ltac:(lia)) as B0. pose proof (Hn 1%nat ltac:(lia)) as B1.
  unfold is_byte in B0, B1.
  split.
  - assert (Hsh : 0 <= Z.shiftr (byte_at b 0) 6 < 4).
    { rewrite Z.shiftr_div_pow2 by lia. split; [apply Z.div_pos; lia|]. apply Z.div_lt_upper_bound; lia. }
    assert (Hland : forall x, 0 <= Z.land x 7 < 8).
    { intros x. change 7 with (Z.ones 3). rewrite Z.land_ones by lia. apply Z.mod_pos_bound. lia. }
    constructor; simpl; try apply Hland; try apply wraps_range; try lia; auto.
    + apply (Hs 4%nat 8%nat). lia.
    + apply (Hs 8%nat 12%nat). lia.
    + split; [apply length_slice; unfold HeaderSize in *; lia|auto with carillon].
    + apply (Hs 16%nat 24%nat). lia.
    + apply (Hs 24%nat 32%nat). lia.
    + apply (Hs 32%nat 40%nat). lia.
    + apply (Hs 40%nat 48%nat). lia.
  - unfold Marshal. simpl Leap. simpl pVersion. simpl Mode.
    rewrite flags_encode by apply B0.
    cbn [decode_header Stratum Poll Precision RootDelay RootDispersion ReferenceID
         ReferenceTime OriginTime ReceiveTime TransmitTime].
    rewrite !wrapu_wraps by lia. rewrite !wrapu_id by (apply Hn; lia).
    assert (Hs' : forall n i j, (i <= j <= 48)%nat -> n = (j - i)%nat ->
      be_encode n (be_at b i j) = slice i j b) by (intros n i j Hij ->; by apply Hs).
    rewrite !Hs' by lia.
    unfold HeaderSize in *. do 48 (destruct b as [|? b]; [simpl in Hlen; lia|]).
    unfold slice, byte_at. reflexivity.
Qed.

Lemma decode_marshalled p fs keyid digest :
  packet_ok p -> 1 <= pVersion p <= 4 -> Forall ext_field fs ->
  in_u 32 keyid -> (length digest = 16 \/ length digest = 20)%nat ->
  Decode (Marshal p ++ concat fs ++ be_encode 4 keyid ++ digest)
  = Ok (p, Some (mkMAC keyid digest), (HeaderSize + length (concat fs))%nat).
Proof.
  intros Hp Hv Hfs Hk Hd. pose proof (length_Marshal p Hp) as Hm.
  set (b := Marshal p ++ _). set (off := (HeaderSize + length (concat fs))%nat).
  assert (Hb : length b = (off + 4 + length digest)%nat).
  { subst b off. rewrite !length_app, length_be_encode, Hm. lia. }
  unfold Decode. rewrite Hb.
  assert (E0 : (off + 4 + length digest <? HeaderSize)%nat = false) by (apply Nat.ltb_ge; lia).
  rewrite E0. replace (decode_header b) with p by (symmetry; by apply decode_header_Marshal).
  assert (E1 : (pVersion p =? 0) || (Version <? pVersion p) = false).
  { apply orb_false_iff. unfold Version. split; [apply Z.eqb_neq|apply Z.ltb_ge]; lia. }
  rewrite E1.
  assert (E2 : skip_extensions (off + 4 + length digest) b HeaderSize = Some (Ok off)).
  { subst b off. rewrite <- Hm. apply skip_extensions_fields; [done| |].
    - rewrite length_app, length_be_encode. unfold macSizeSHA1. lia.
    - pose proof (ext_fields_length fs Hfs). lia. }
  rewrite E2. unfold decode_trailer. rewrite Hb.
  replace (off + 4 + length digest - off)%nat with (4 + length digest)%nat by lia.
  assert (E3 : be_at b off (off + 4) = keyid).
  { subst b off. rewrite <- Hm. rewrite (app_assoc (Marshal p)), <- length_app.
    rewrite <- (Nat.add_0_r (length _)) at 1. rewrite be_at_mid by (rewrite length_be_encode; lia).
    unfold be_at. rewrite <- (app_nil_r (be_encode 4 keyid)).
    rewrite slice_app_l by apply length_be_encode. rewrite be_decode_encode.
    by apply (in_u_mod 32). }
  assert (E4 : drop (off + 4) b = digest).
  { subst b off. rewrite !app_assoc. apply drop_app_length'.
    rewrite !length_app, length_be_encode, Hm. lia. }
  rewrite E3, E4. destruct Hd as [-> | ->]; reflexivity.
Qed.

(** Decode inverts the encoder.  A marshalled header of a supported
    version, followed by any well-formed extension fields and a 20- or 24-byte
    MAC, decodes to the same packet, the MAC's key id and digest, and the
    offset of the MAC, so the authenticated region is exactly the header and
    the fields. *)
Theorem decode_roundtrip p fs keyid digest :
  packet_ok p -> 1 <= pVersion p <= 4 -> Forall ext_field fs ->
  in_u 32 keyid -> (length digest = 16 \/ length digest = 20)%nat ->
  Decode (Marshal p ++ concat fs ++ be_encode 4 keyid ++ digest)
  = Ok (p, Some (mkMAC keyid digest), (HeaderSize + length (concat fs))%nat).
Proof. apply decode_marshalled. Qed.

(** A header, one 16-byte field and a CMAC trailer. *)
Lemma decode_roundtrip_witness :
  let p := mkPacket 0 4 3 0 6 (-20) 0 0 zeroRefID 0 0 0 77 in
  let f := [1; 2; 0; 16] ++ replicate 12 0 in
  Decode (Marshal p ++ concat [f] ++ be_encode 4 9 ++ replicate 16 5)
  = Ok (p, Some (mkMAC 9 (replicate 16 5)), 64%nat).
Proof.
  intros p f. apply (decode_roundtrip p [f] 9 (replicate 16 5)).
  - constructor; vm_compute; repeat split; try congruence; repeat constructor; congruence.
  - vm_compute. split; congruence.
  - constructor; [|constructor]. unfold ext_field. vm_compute. repeat split; try lia.
  - vm_compute. split; congruence.
  - left. reflexivity.
Defined.

(** What a datagram [Decode] accepts looks like. *)
Lemma Decode_accepts b p mac off :
  Forall is_byte b -> Decode b = Ok (p, mac, off) ->
  1 <= pVersion p <= 4 /\ packet_ok p /\ Marshal p = take HeaderSize b /\
  (HeaderSize <= off <= length b)%nat /\
  match mac with
  | None => off = length b
  | Some m => drop off b = be_encode 4 (KeyID m) ++ Digest m /\
      (length (Digest m) = 0%nat /\ KeyID m = 0 \/ length (Digest m) = 16%nat \/ length (Digest m) = 20%nat)
  end.
Proof.
  intros Hb. unfold Decode. case_goal; [done|]. bool_step.
  destruct (Marshal_decode_header b ltac:(done) Hb) as [Hok Hm].
  case_goal; [done|].
  destruct (skip_extensions_total (length b) b HeaderSize ltac:(lia)) as (r & -> & Hr).
  destruct r as [o|e]; [|done]. destruct (Hr o eq_refl) as [[H1 _] H2]. specialize (H2 ltac:(lia)).
  destruct (decode_trailer b o) as [[mac' off']|e] eqn:Et; [|done]. intros [= <- <- <-].
  pose proof (decode_trailer_sound b o mac' off' ltac:(lia) Et) as Hs.
  pose proof (ok_version _ Hok). unfold Version in *. repeat bool_step.
  split; [lia|]. split; [done|]. split; [done|].
  destruct mac' as [m|]; [|subst; split; [lia|done]].
  destruct Hs as (-> & Hl & Hk & Hd & Hc). split; [lia|]. split.
  - rewrite Hk, Hd. unfold be_at.
    assert (Hsl : length (slice o (o + 4) b) = 4%nat) by (rewrite length_slice; lia).
    rewrite <- Hsl at 1. rewrite be_encode_decode by auto with carillon.
    unfold slice. rewrite <- (take_drop 4 (drop o b)) at 1. rewrite drop_drop.
    do 2 f_equal; lia.
  - destruct Hc as [Hc|Hc]; [left|tauto]. split; [done|].
    unfold decode_trailer, cryptoNAKSize, MACSizeCMAC, macSizeSHA1 in Et. rewrite Hl, Hc in Et. simpl in Et.
    case_in Et; inv Et. done.
Qed.

(** Decode is sound.  On any datagram it accepts, the version is 1 to 4,
    the packet re-encodes to the first 48 bytes, every field is in range, the
    reported MAC offset lies between the header and the end of the datagram,
    and the MAC (if any) is exactly what follows that offset: a key id and a
    digest of 0 (crypto-NAK, key id 0), 16 or 20 bytes. *)
Theorem decode_sound b p mac off :
  Forall is_byte b -> Decode b = Ok (p, mac, off) ->
  1 <= pVersion p <= 4 /\ packet_ok p /\ Marshal p = take HeaderSize b /\
  (HeaderSize <= off <= length b)%nat /\
  match mac with
  | None => off = length b
  | Some m => drop off b = be_encode 4 (KeyID m) ++ Digest m /\
      (length (Digest m) = 0%nat /\ KeyID m = 0 \/ length (Digest m) = 16%nat \/ length (Digest m) = 20%nat)
  end.
Proof. apply Decode_accepts. Qed.

Lemma decode_sound_witness :
  let b := [35] ++ replicate 47 1 in
  Forall is_byte b /\ exists p, Decode b = Ok (p, None, 48%nat) /\ Marshal p = take 48 b.
Proof.
  intros b. assert (Hb : Forall is_byte b).
  { apply Forall_app. split; [|apply Forall_replicate]; repeat constructor; unfold is_byte; lia. }
  split; [exact Hb|]. exists (decode_header b).
  assert (E : Decode b = Ok (decode_header b, None, 48%nat)) by reflexivity.
  split; [exact E|]. apply (decode_sound b _ _ _ Hb E).
Defined.

(** The extension-field walk terminates.  For every datagram the loop of
    [Decode] reaches an answer within one iteration per byte: the model's fuel
    is never exhausted, so [Decode] is total. *)
Theorem decode_terminates b :
  exists r, skip_extensions (length b) b HeaderSize = Some r.
Proof.
  destruct (skip_extensions_total (length b) b HeaderSize ltac:(lia)) as (r & Hr & _). eauto.
Qed.
