(* ===== verification/Measurement.v ===== *)
(** * internal/discipline/measurement.go: constants and the measurement record *)

From stdpp Require Import base list strings numbers.
From Stdlib Require Import Lia ZArith.
From S2P Require Import Prelude Float64 GoTime NtpTime.

Local Open Scope Z_scope.

Definition Phi : f64 := lit 15 1000000.
Definition MaxDispersion : f64 := of_Z 16.
Definition MaxDistance : f64 := lit 3 2.
Definition MaxFrequency : f64 := of_Z 500.
Definition AllanIntercept : f64 := of_Z 2048.
Definition FilterStages : nat := 8.
Definition MinPoll : Z := 2.
Definition MaxPoll : Z := 17.
Definition reachBits : f64 := of_Z 8.
Definition minFreshness : f64 := of_Z 64.
Definition primingDispersion : f64 := of_Z 1.

(** What a source delivers to the engine after its own clock filter. *)
Record Measurement : Type := mkMeasurement {
  m_Source : string;
  m_Now : f64;
  m_Reach : Z;           (* uint8 *)
  m_Poll : Z;            (* int8 *)
  m_Generation : Z;      (* uint64 *)
  m_Valid : bool;
  m_Acquired : bool;
  m_LeapSample : bool;
  m_LeapValue : Z;
  m_LeapObserved : f64;
  m_Invalidate : bool;
  m_At : f64;
  m_Offset : f64;
  m_Delay : f64;
  m_Dispersion : f64;
  m_Jitter : f64;
  m_Leap : Z;
  m_Stratum : Z;         (* uint8 *)
  m_RefID : RefID;
  m_RootDelay : f64;
  m_RootDisp : f64;
  m_Precision : Z;
  m_RefTime : time;
  m_SourceRefID : RefID
}.

#[export] Instance Measurement_eta : Eta Measurement := fun m =>
  mkMeasurement (m_Source m) (m_Now m) (m_Reach m) (m_Poll m) (m_Generation m) (m_Valid m) (m_Acquired m) (m_LeapSample m)
    (m_LeapValue m) (m_LeapObserved m) (m_Invalidate m) (m_At m) (m_Offset m) (m_Delay m) (m_Dispersion m) (m_Jitter m)
    (m_Leap m) (m_Stratum m) (m_RefID m) (m_RootDelay m) (m_RootDisp m) (m_Precision m) (m_RefTime m) (m_SourceRefID m).

Record Options : Type := mkOptions {
  Prefer : bool;
  NoSelect : bool;
  Numbering : bool;
  PPS : bool;
  LeapIncapable : bool
}.

Definition IsAcquisition (m : Measurement) : bool := m_Valid m || m_Acquired m.
