(* ===== verification/Filter.v ===== *)
(** * internal/discipline/filter.go: the clock filter

    An eight-stage ring of samples; [Filter_Add] shifts one in, ranks the
    register by root distance and reports the best sample if it has not been
    reported before. *)

From stdpp Require Import base list numbers sorting.
From Stdlib Require Import Lia ZArith.
From S2P Require Import Prelude Float64 GoTime NtpTime Measurement.

Local Open Scope Z_scope.

Record stage : Type := mkStage {
  s_offset : f64; s_delay : f64; s_disp : f64; s_t : f64 }.

#[export] Instance stage_eta : Eta stage := fun s =>
  mkStage (s_offset s) (s_delay s) (s_disp s) (s_t s).

Record Filter : Type := mkFilter {
  stages : list stage;     (* [FilterStages]stage *)
  f_n : nat;
  f_next : nat;
  f_epoch : f64;
  f_update : f64;
  f_floor : f64
}.

#[export] Instance Filter_eta : Eta Filter := fun f =>
  mkFilter (stages f) (f_n f) (f_next f) (f_epoch f) (f_update f) (f_floor f).

Record Output : Type := mkOutput {
  o_Offset : f64; o_Delay : f64; o_Dispersion : f64; o_Jitter : f64;
  o_At : f64; o_Samples : nat }.

Definition zeroStage : stage := mkStage fzero fzero fzero fzero.
Definition zeroOutput : Output := mkOutput fzero fzero fzero fzero fzero 0.

Definition NewFilter (precision : f64) : Filter :=
  mkFilter (replicate FilterStages zeroStage) 0 0 fzero fzero precision.

Definition stage_at (l : list stage) (i : nat) : stage := nth i l zeroStage.

(** Age the dispersion of every stage by the time since the previous call. *)
Definition age_stages (f : Filter) (now : f64) : list stage :=
  if (0 <? f_n f)%nat && fgt now (f_update f) then
    let aging := fmul Phi (fsub now (f_update f)) in
    (fun s => s <| s_disp := fadd (s_disp s) aging |>) <$> stages f
  else stages f.

(** Shift the new sample in. *)
Definition shift_in (f : Filter) (offset delay disp now : f64) : Filter :=
  let st := <[f_next f := mkStage offset delay disp now]> (age_stages f now) in
  f <| f_update := now |> <| stages := st |>
    <| f_next := ((f_next f + 1) mod FilterStages)%nat |>
    <| f_n := (if f_n f <? FilterStages then S (f_n f) else f_n f)%nat |>.

(** The ranking switch: the distance of a sample, and its dispersion capped. *)
Definition rank_dist (now : f64) (s : stage) : f64 :=
  if fge (s_disp s) MaxDispersion then MaxDispersion
  else if fgt (fsub now (s_t s)) AllanIntercept then fadd MaxDistance (s_disp s)
  else fadd (fdiv (s_delay s) (of_Z 2)) (s_disp s).

Definition cap_disp (s : stage) : stage :=
  if fge (s_disp s) MaxDispersion then s <| s_disp := MaxDispersion |> else s.

Record ranked : Type := mkRanked { r_idx : nat; r_dist : f64 }.

(** [sort.SliceStable]'s comparison: by distance, the fresher first on ties. *)
Definition rank_less (st : list stage) (a b : ranked) : bool :=
  if negb (feq (r_dist a) (r_dist b)) then flt (r_dist a) (r_dist b)
  else fgt (s_t (stage_at st (r_idx a))) (s_t (stage_at st (r_idx b))).

(** The number of usable samples: the loop that stops at the first sample that
    carries no information or, with two good ones, is too distant. *)
Fixpoint count_usable (m : nat) (order : list ranked) : nat :=
  match order with
  | [] => m
  | r :: order' =>
      if fge (r_dist r) MaxDispersion || ((2 <=? m)%nat && fge (r_dist r) MaxDistance)
      then m else count_usable (S m) order'
  end.

(** One step of the backward loop that accumulates dispersion and jitter. *)
Definition disp_step (st : list stage) (best : stage) (m : nat)
    (x : nat * ranked) (acc : f64 * f64) : f64 * f64 :=
  let '(i, r) := x in
  let '(dispersion, jitter) := acc in
  let s := stage_at st (r_idx r) in
  let dispersion := fmul (lit 1 2) (fadd dispersion (s_disp s)) in
  let jitter :=
    if (i <? m)%nat && (0 <? i)%nat then
      let d := fsub (s_offset s) (s_offset best) in fadd jitter (fmul d d)
    else jitter in
  (dispersion, jitter).

(** The stages after the ranking loop, and the sorted order. *)
Definition rank_stages (f : Filter) : list stage :=
  imap (fun i s => if (i <? f_n f)%nat then cap_disp s else s) (stages f).

Definition rank_order (f : Filter) (now : f64) : list ranked :=
  sort_stable (rank_less (rank_stages f))
    ((fun i => mkRanked i (rank_dist now (stage_at (stages f) i))) <$> seq 0 (f_n f)).

(** [Add]. *)
Definition Filter_Add (f : Filter) (offset delay disp now : f64) : Filter * Output * bool :=
  let f := shift_in f offset delay disp now in
  let order := rank_order f now in
  let f := f <| stages := rank_stages f |> in
  let m := count_usable 0 order in
  if (m =? 0)%nat then (f, zeroOutput, false)
  else
    let best := stage_at (stages f) (default 0%nat (r_idx <$> head order)) in
    let dispersion :=
      if (f_n f <? FilterStages)%nat
      then fmul primingDispersion
             (fsub (of_Z 1) (ldexp1 (Z.of_nat (f_n f) - Z.of_nat FilterStages)))
      else fzero in
    let '(dispersion, jitter) :=
      foldr (disp_step (stages f) best m) (dispersion, fzero) (imap pair order) in
    let jitter := if (1 <? m)%nat then fsqrt (fdiv jitter (of_Z (Z.of_nat m - 1))) else jitter in
    let jitter := fmax jitter (f_floor f) in
    let out := mkOutput (s_offset best) (s_delay best) dispersion jitter (s_t best) m in
    if fle (s_t best) (f_epoch f) then (f, out, false)
    else (f <| f_epoch := s_t best |>, out, true).

Definition Filter_Reset (f : Filter) : Filter := NewFilter (f_floor f).
Definition Filter_Len (f : Filter) : nat := f_n f.

(** ** Ring invariant and the abstract register *)

Record filter_ok (f : Filter) : Prop := {
  fo_len : length (stages f) = FilterStages;
  fo_n : (f_n f <= FilterStages)%nat;
  fo_next : (f_next f < FilterStages)%nat;
  fo_fill : (f_n f < FilterStages)%nat -> f_next f = f_n f
}.

(** A sample as it was added; its dispersion changes with age. *)
Definition core (s : stage) : f64 * f64 * f64 := (s_offset s, s_delay s, s_t s).

(** The register read from its oldest sample to its newest. *)
Definition contents (f : Filter) : list (f64 * f64 * f64) :=
  core <$> (if (f_n f <? FilterStages)%nat then take (f_n f) (stages f)
            else drop (f_next f) (stages f) ++ take (f_next f) (stages f)).

Definition last_n {A} (k : nat) (l : list A) : list A := drop (length l - k) l.

Lemma last_n_app {A} k (l : list A) x : (length l <= k)%nat -> last_n (S k) (l ++ [x]) = l ++ [x].
Proof.
  intros. unfold last_n. rewrite length_app. simpl.
  replace (length l + 1 - S k)%nat with 0%nat by lia. done.
Qed.

Lemma last_n_snoc {A} k (l : list A) x :
  last_n (S k) (last_n (S k) l ++ [x]) = last_n (S k) (l ++ [x]).
Proof.
  unfold last_n. rewrite !length_app, length_drop. simpl length.
  destruct (decide (length l <= S k)%nat) as [H|H].
  - replace (length l - S k)%nat with 0%nat by lia. by rewrite drop_0, Nat.sub_0_r.
  - replace (length l - (length l - S k) + 1 - S k)%nat with 1%nat by lia.
    replace (length l + 1 - S k)%nat with (S (length l - S k)) by lia.
    rewrite !drop_app_le by (rewrite ?length_drop; lia). f_equal.
    rewrite drop_drop. f_equal. lia.
Qed.

Lemma last_n_last_n {A} k (l ys : list A) :
  last_n (S k) (last_n (S k) l ++ ys) = last_n (S k) (l ++ ys).
Proof.
  induction ys as [|y ys IH] using rev_ind.
  - rewrite !app_nil_r. unfold last_n. rewrite length_drop.
    destruct (decide (length l <= S k)%nat).
    + replace (length l - S k)%nat with 0%nat by lia. rewrite drop_0, Nat.sub_0_r.
      by replace (length l - S k)%nat with 0%nat by lia.
    + by replace (length l - (length l - S k) - S k)%nat with 0%nat by lia.
  - rewrite !app_assoc, <- (last_n_snoc k (_ ++ ys)), IH. apply last_n_snoc.
Qed.

Lemma length_age_stages f now : length (age_stages f now) = length (stages f).
Proof. unfold age_stages. case_goal; [by rewrite length_fmap|done]. Qed.

Lemma core_age_stages f now : core <$> age_stages f now = core <$> stages f.
Proof.
  unfold age_stages. case_goal; [|done]. rewrite <- list_fmap_compose.
  by apply list_fmap_ext.
Qed.

Lemma core_rank_stages f : core <$> rank_stages f = core <$> stages f.
Proof.
  apply list_eq. intros i. unfold rank_stages.
  rewrite !list_lookup_fmap, list_lookup_imap.
  destruct (stages f !! i) as [s|]; [|done]. simpl. f_equal.
  case_goal; [|done]. unfold cap_disp. by case_goal.
Qed.

Lemma length_rank_stages f : length (rank_stages f) = length (stages f).
Proof. apply length_imap. Qed.

Lemma shift_in_ok f o d e now : filter_ok f -> filter_ok (shift_in f o d e now).
Proof.
  intros [Hl Hn Hx Hf]. unfold FilterStages in *.
  constructor; cbn -[Nat.ltb Nat.modulo Nat.add FilterStages]; unfold FilterStages.
  - by rewrite length_insert, length_age_stages.
  - case_goal; crush.
  - pose proof (Nat.mod_upper_bound (f_next f + 1) 8 ltac:(lia)). lia.
  - case_goal; repeat bool_step; [|lia]. intros. rewrite Hf by lia.
    unfold FilterStages in *. rewrite Nat.mod_small; lia.
Qed.

(** Contents depend on the stages only through their samples. *)
Definition ring {A} (n next : nat) (l : list A) : list A :=
  if (n <? FilterStages)%nat then take n l else drop next l ++ take next l.

Lemma contents_ring f : contents f = ring (f_n f) (f_next f) (core <$> stages f).
Proof.
  unfold contents, ring. case_goal; [by rewrite fmap_take|].
  by rewrite fmap_app, fmap_take, fmap_drop.
Qed.

(** Writing at the ring index appends to the register and drops the oldest
    sample once it is full. *)
Lemma ring_insert {A} n next (l : list A) x :
  length l = FilterStages -> (n <= FilterStages)%nat -> (next < FilterStages)%nat ->
  ((n < FilterStages)%nat -> next = n) ->
  ring (if n <? FilterStages then S n else n)%nat ((next + 1) mod FilterStages)
       (<[next := x]> l)
  = last_n FilterStages (ring n next l ++ [x]).
Proof.
  unfold ring, FilterStages. intros Hl Hn Hx Hf.
  destruct (Nat.ltb_spec n 8) as [Hlt|Hge].
  - rewrite (Hf Hlt). rewrite last_n_app by (rewrite length_take; lia).
    assert (Htk : take (S n) (<[n:=x]> l) = take n l ++ [x]).
    { rewrite (take_S_r _ _ x) by (apply list_lookup_insert_eq; lia).
      by rewrite take_insert_ge by lia. }
    destruct (Nat.ltb_spec (S n) 8); [done|].
    replace ((n + 1) mod 8)%nat with 0%nat by (replace (n + 1)%nat with 8%nat by lia; done).
    rewrite drop_0, take_0, app_nil_r, <- Htk. symmetry. apply take_ge. rewrite length_insert. lia.
  - destruct (Nat.ltb_spec n 8); [lia|]. clear Hge Hf.
    assert (Hsplit : exists a y b, l = a ++ y :: b /\ length a = next).
    { destruct (lookup_lt_is_Some_2 l next) as [y Hy]; [lia|].
      exists (take next l), y, (drop (S next) l). split; [by rewrite take_drop_middle|].
      rewrite length_take. lia. }
    destruct Hsplit as (a & y & b & -> & Ha).
    rewrite length_app in Hl. simpl in Hl.
    rewrite insert_app_r_alt by lia. rewrite Ha, Nat.sub_diag. cbn [insert list_insert].
    rewrite (drop_app_length' a (y :: b)) by done. rewrite (take_app_length' a (y :: b)) by done.
    unfold last_n.
    replace (length (((y :: b) ++ a) ++ [x]) - 8)%nat with 1%nat
      by (rewrite !length_app; simpl; lia).
    cbn [drop app].
    destruct (decide (next + 1 = 8)%nat) as [E|E].
    + rewrite E. simpl. rewrite ?drop_0, app_nil_r.
      assert (b = []) as -> by (destruct b; [done|simpl in Hl; lia]). done.
    + rewrite Nat.mod_small by lia.
      replace (next + 1)%nat with (length (a ++ [x])) by (rewrite length_app; simpl; lia).
      replace (a ++ x :: b) with ((a ++ [x]) ++ b) by (by rewrite <- app_assoc).
      rewrite drop_app_length, take_app_length. by rewrite <- app_assoc.
Qed.

Lemma shift_in_contents f o d e now :
  filter_ok f ->
  contents (shift_in f o d e now) = last_n FilterStages (contents f ++ [(o, d, now)]).
Proof.
  intros [Hl Hn Hx Hf]. rewrite !contents_ring. cbn -[last_n FilterStages Nat.modulo Nat.ltb].
  rewrite <- ring_insert; [| |done|done|done].
  - f_equal. by rewrite list_fmap_insert, core_age_stages.
  - by rewrite length_fmap.
Qed.

(** [Add] only changes the register through [shift_in], the ranking cap and
    the reported epoch. *)
Lemma Filter_Add_state f o d e now f' out u :
  Filter_Add f o d e now = (f', out, u) ->
  let g := shift_in f o d e now in
  stages f' = rank_stages g /\ f_n f' = f_n g /\ f_next f' = f_next g /\
  f_epoch f' = (if u then o_At out else f_epoch f) /\ f_floor f' = f_floor f.
Proof.
  unfold Filter_Add. intros H. cbn zeta in *.
  case_in H; [inv H; done|].
  destruct (foldr _ _ _) as [dd jj].
  case_in H; inv H; done.
Qed.

Lemma Filter_Add_ok f o d e now f' out u :
  filter_ok f -> Filter_Add f o d e now = (f', out, u) -> filter_ok f'.
Proof.
  intros Hok H. destruct (Filter_Add_state _ _ _ _ _ _ _ _ H) as (H1 & H2 & H3 & _).
  destruct (shift_in_ok f o d e now Hok) as [A B C D].
  constructor; rewrite ?H1, ?H2, ?H3, ?length_rank_stages; done.
Qed.

Lemma Filter_Add_contents f o d e now f' out u :
  filter_ok f -> Filter_Add f o d e now = (f', out, u) ->
  contents f' = last_n FilterStages (contents f ++ [(o, d, now)]).
Proof.
  intros Hok H. destruct (Filter_Add_state _ _ _ _ _ _ _ _ H) as (H1 & H2 & H3 & _).
  rewrite <- (shift_in_contents f o d e now Hok). rewrite !contents_ring.
  by rewrite H1, H2, H3, core_rank_stages.
Qed.

Lemma NewFilter_ok p : filter_ok (NewFilter p).
Proof. by constructor; simpl; unfold FilterStages; try lia. Qed.

#[export] Hint Resolve NewFilter_ok Filter_Add_ok shift_in_ok : carillon.

(** ** The ranking *)

Lemma rank_order_idx f now r : r ∈ rank_order f now ->
  (r_idx r < f_n f)%nat /\ r_dist r = rank_dist now (stage_at (stages f) (r_idx r)).
Proof.
  unfold rank_order. rewrite elem_of_sort_stable, list_elem_of_fmap.
  intros (i & -> & Hi). rewrite elem_of_seq in Hi. simpl. split; [lia|done].
Qed.

Lemma rank_order_complete f now i : (i < f_n f)%nat ->
  mkRanked i (rank_dist now (stage_at (stages f) i)) ∈ rank_order f now.
Proof.
  intros Hi. unfold rank_order. rewrite elem_of_sort_stable, list_elem_of_fmap.
  exists i. rewrite elem_of_seq. split; [done|lia].
Qed.

Lemma stage_at_core f l i : core <$> l = core <$> stages f ->
  (i < length (stages f))%nat -> core (stage_at l i) = core (stage_at (stages f) i).
Proof.
  intros Hc Hi. unfold stage_at.
  assert (Hl : length l = length (stages f)) by (rewrite <- (length_fmap core l), Hc; apply length_fmap).
  assert (Hn : forall k, (i < length k)%nat -> core (nth i k zeroStage) = nth i (core <$> k) (core zeroStage)).
  { intros k Hk. symmetry. apply (map_nth core). }
  rewrite !Hn by lia. by rewrite Hc.
Qed.

(** A filled stage is part of the register. *)
Lemma stage_at_contents f i : filter_ok f -> (i < f_n f)%nat ->
  core (stage_at (stages f) i) ∈ contents f.
Proof.
  intros [Hl Hn Hx Hf] Hi. unfold contents. apply list_elem_of_fmap_2.
  unfold stage_at. assert (Hlk : stages f !! i = Some (nth i (stages f) zeroStage)).
  { destruct (lookup_lt_is_Some_2 (stages f) i) as [s Hs]; [lia|].
    by rewrite (nth_lookup_Some _ _ _ _ Hs). }
  case_goal; repeat bool_step.
  - apply list_elem_of_lookup. exists i. by rewrite lookup_take_lt.
  - rewrite Permutation_app_comm, take_drop. apply list_elem_of_lookup. eauto.
Qed.

Section Rank.
Context (st : list stage).

(** Distances and sample times that are numbers: what the order needs. *)
Definition rankable (r : ranked) : Prop :=
  is_nan (r_dist r) = false /\ is_nan (s_t (stage_at st (r_idx r))) = false.

Lemma rank_sorted l : Forall rankable l ->
  StronglySorted (not_above (rank_less st)) (sort_stable (rank_less st) l).
Proof.
  apply (sort_by_key_sorted r_dist
    (fun a b => fgt (s_t (stage_at st (r_idx a))) (s_t (stage_at st (r_idx b)))) rankable).
  - by intros a [].
  - intros a b _ _. apply flt_asym.
  - intros a b c [_ Ha] [_ Hb] [_ Hc] H1 H2. by apply (flt_neg_trans _ _ _ Hc Hb Ha).
Qed.
End Rank.

(** The head of the order is not beaten by any filled stage. *)
Lemma rank_order_best f now r rest :
  rank_order f now = r :: rest ->
  Forall (rankable (rank_stages f)) (rank_order f now) ->
  forall j, (j < f_n f)%nat ->
  rank_less (rank_stages f) (mkRanked j (rank_dist now (stage_at (stages f) j))) r = false.
Proof.
  intros Heq Hr j Hj.
  pose proof (rank_order_complete f now j Hj) as Hin. rewrite Heq in Hin.
  apply elem_of_cons in Hin as [->|Hin].
  - unfold rank_less. destruct (feq _ _) eqn:E; simpl; [ford|apply flt_irrefl].
  - assert (Hs : StronglySorted (not_above (rank_less (rank_stages f))) (rank_order f now)).
    { unfold rank_order in *. apply rank_sorted. rewrite sort_stable_perm in Hr. exact Hr. }
    rewrite Heq in Hs. inversion Hs as [|? ? _ Hall]; subst. rewrite Forall_forall in Hall. by apply Hall.
Qed.

Definition out_core (o : Output) : f64 * f64 * f64 := (o_Offset o, o_Delay o, o_At o).

(** What [Add] reports: nothing, or the head of the ranking. *)
Lemma Filter_Add_out f o d e now f' out u :
  filter_ok f -> Filter_Add f o d e now = (f', out, u) ->
  let g := shift_in f o d e now in
  (u = false /\ out = zeroOutput) \/
  exists r rest, rank_order g now = r :: rest /\ (r_idx r < f_n g)%nat /\
    out_core out = core (stage_at (stages g) (r_idx r)) /\
    u = negb (fle (o_At out) (f_epoch f)) /\
    (exists j0, o_Jitter out = fmax j0 (f_floor f)) /\
    (1 <= o_Samples out)%nat.
Proof.
  intros Hok H. unfold Filter_Add in H. cbn zeta in *.
  set (g := shift_in f o d e now) in *.
  destruct (rank_order g now) as [|r rest] eqn:Eo.
  { simpl in H. inv H. by left. }
  destruct (count_usable 0 (r :: rest) =? 0)%nat eqn:Em; [inv H; by left|right].
  exists r, rest. split; [done|].
  assert (Hr : r ∈ rank_order g now) by (rewrite Eo; apply list_elem_of_here).
  apply rank_order_idx in Hr as [Hi _].
  pose proof (shift_in_ok f o d e now Hok) as [Hl Hn _ _].
  assert (Hc : core (stage_at (rank_stages g) (r_idx r)) = core (stage_at (stages g) (r_idx r))).
  { apply stage_at_core; [apply core_rank_stages|]. subst g. rewrite Hl. lia. }
  cbn [default head fmap option_fmap option_map] in H.
  destruct (foldr _ _ _) as [dd jj]. bool_step.
  match type of H with context [fle ?a ?b] => destruct (fle a b) eqn:Ef end;
    injection H as <- <- <-.
  all: split; [exact Hi|]; split; [exact Hc|]; split; [cbn in *; by rewrite Ef|].
  all: split; [eauto|]; apply Nat.neq_0_lt_0 in Em; exact Em.
Qed.

(** A run of the filter: the samples added and the times of the estimates it
    released ([updated] true). *)
Definition sample : Type := f64 * f64 * f64 * f64.
Definition sample_core (x : sample) : f64 * f64 * f64 := let '(o, d, _, t) := x in (o, d, t).
Definition sample_time (x : sample) : f64 := snd x.

Fixpoint filter_run (f : Filter) (xs : list sample) : Filter * list f64 :=
  match xs with
  | [] => (f, [])
  | (o, d, e, t) :: xs' =>
      let '(f', out, updated) := Filter_Add f o d e t in
      let '(f'', rel) := filter_run f' xs' in
      (f'', if updated then o_At out :: rel else rel)
  end.

Lemma filter_run_contents xs f :
  filter_ok f -> (length (contents f) <= FilterStages)%nat ->
  filter_ok (fst (filter_run f xs)) /\
  contents (fst (filter_run f xs)) = last_n FilterStages (contents f ++ (sample_core <$> xs)).
Proof.
  revert f. induction xs as [|[[[o d] e] t] xs IH]; intros f Hok Hlen; simpl.
  - split; [done|]. rewrite app_nil_r. unfold last_n.
    by replace (length (contents f) - FilterStages)%nat with 0%nat by lia.
  - destruct (Filter_Add f o d e t) as [[f' out] u] eqn:E.
    pose proof (Filter_Add_ok _ _ _ _ _ _ _ _ Hok E) as Hok'.
    pose proof (Filter_Add_contents _ _ _ _ _ _ _ _ Hok E) as Hc.
    specialize (IH f' Hok'). destruct (filter_run f' xs) as [f'' rel]. simpl in *.
    destruct IH as [IHa IHb].
    { rewrite Hc. unfold last_n. rewrite length_drop. lia. }
    split; [done|]. rewrite IHb, Hc. unfold FilterStages.
    rewrite last_n_last_n, <- app_assoc. done.
Qed.

(** The epoch only moves to times of samples in the register. *)
Definition timed (f : Filter) : Prop :=
  filter_ok f /\ is_nan (f_epoch f) = false /\ Forall (fun c => is_nan (snd c) = false) (contents f).

Lemma Filter_Add_timed f o d e now f' out u :
  timed f -> is_nan now = false -> Filter_Add f o d e now = (f', out, u) ->
  timed f' /\ (u = true -> flt (f_epoch f) (o_At out) = true /\ f_epoch f' = o_At out) /\
  (u = false -> f_epoch f' = f_epoch f).
Proof.
  intros (Hok & He & Hc) Hnow H.
  pose proof (Filter_Add_ok _ _ _ _ _ _ _ _ Hok H) as Hok'.
  pose proof (Filter_Add_contents _ _ _ _ _ _ _ _ Hok H) as Hc'.
  destruct (Filter_Add_state _ _ _ _ _ _ _ _ H) as (_ & _ & _ & Hep & _).
  assert (Hall : Forall (fun c => is_nan (snd c) = false) (contents f')).
  { rewrite Hc'. apply Forall_drop, Forall_app. split; [done|]. by constructor. }
  destruct (Filter_Add_out _ _ _ _ _ _ _ _ Hok H) as [[-> ->]|(r & rest & Ho & Hi & Hco & Hu & _)].
  - split; [|done]. repeat split; try done; rewrite ?Hep; apply Hok' || done.
  - assert (Hat : is_nan (o_At out) = false).
    { pose proof (stage_at_contents _ _ (shift_in_ok f o d e now Hok) Hi) as Hin.
      rewrite shift_in_contents, <- Hc', <- Hco in Hin by done.
      rewrite Forall_forall in Hall. apply (Hall _ Hin). }
    destruct u; (split; [repeat split; try done; rewrite ?Hep; apply Hok' || done|]); split; try done.
    intros _. split; [|done]. symmetry in Hu. apply negb_true_iff in Hu. ford.
Qed.

Lemma filter_run_releases xs f :
  timed f -> Forall (fun x => is_nan (sample_time x) = false) xs ->
  StronglySorted (fun a b => flt a b = true) (snd (filter_run f xs)) /\
  Forall (fun a => flt (f_epoch f) a = true) (snd (filter_run f xs)).
Proof.
  revert f. induction xs as [|[[[o d] e] t] xs IH]; intros f Hf Hx; simpl; [split; constructor|].
  inversion Hx as [|? ? Ht Hxs]; subst.
  destruct (Filter_Add f o d e t) as [[f' out] u] eqn:E.
  destruct (Filter_Add_timed _ _ _ _ _ _ _ _ Hf Ht E) as (Hf' & Htrue & Hfalse).
  specialize (IH f' Hf' Hxs). destruct (filter_run f' xs) as [f'' rel]. simpl in *.
  destruct IH as [Hs Hep]. destruct u.
  - destruct (Htrue eq_refl) as [H1 H2]. rewrite H2 in Hep. split; constructor; try done.
    eapply Forall_impl; [exact Hep|]. intros a Ha. by eapply flt_trans.
  - rewrite (Hfalse eq_refl) in Hep. done.
Qed.

(** The ring is the last eight samples.  After any sequence of [Add]s
    to a new filter the register, read from the ring index, holds exactly the
    last eight samples in order (offset, delay and time; dispersions age). *)
Theorem filter_register_refines precision xs :
  contents (fst (filter_run (NewFilter precision) xs))
  = last_n FilterStages (sample_core <$> xs).
Proof. by apply filter_run_contents; [auto with carillon|simpl; lia]. Qed.

(** No observation is released twice.  Over any sequence of [Add]s with
    numeric times, the times of the estimates the filter releases
    ([updated] = true) are strictly increasing. *)
Theorem filter_no_replay precision xs :
  Forall (fun x => is_nan (sample_time x) = false) xs ->
  StronglySorted (fun a b => flt a b = true) (snd (filter_run (NewFilter precision) xs)).
Proof.
  intros Hx. apply filter_run_releases; [|done].
  split; [apply NewFilter_ok|]. by repeat constructor.
Qed.

Definition example_samples : list sample :=
  [ (lit 5 1000, lit 20 1000, lit 1 1000, of_Z 10);
    (lit 7 1000, lit 10 1000, lit 1 1000, of_Z 74);
    (lit 6 1000, lit 90 1000, lit 1 1000, of_Z 138) ].

Lemma filter_no_replay_witness :
  snd (filter_run (NewFilter (lit 1 1000000)) example_samples) = [of_Z 10; of_Z 74] /\
  StronglySorted (fun a b => flt a b = true)
    (snd (filter_run (NewFilter (lit 1 1000000)) example_samples)).
Proof.
  split; [vm_compute; reflexivity|].
  apply (filter_no_replay (lit 1 1000000) example_samples).
  repeat constructor.
Defined.

(** The best sample wins.  With numeric distances and times, [Add]
    reports the offset, delay and time of a register sample whose root
    distance no other sample beats, the freshest one among equals; the
    reported jitter is at least the clock precision. *)
Theorem filter_best_sample f o d e now f' out u :
  filter_ok f -> Filter_Add f o d e now = (f', out, u) -> (1 <= o_Samples out)%nat ->
  let g := shift_in f o d e now in
  Forall (rankable (rank_stages g)) (rank_order g now) ->
  (is_nan (o_Jitter out) = false -> is_nan (f_floor f) = false ->
   fle (f_floor f) (o_Jitter out) = true) /\
  exists i, (i < f_n g)%nat /\ out_core out = core (stage_at (stages g) i) /\
  forall j, (j < f_n g)%nat ->
    let di := rank_dist now (stage_at (stages g) i) in
    let dj := rank_dist now (stage_at (stages g) j) in
    flt dj di = false /\
    (feq dj di = true ->
     flt (s_t (stage_at (rank_stages g) i)) (s_t (stage_at (rank_stages g) j)) = false).
Proof.
  intros Hok H Hm g Hr.
  destruct (Filter_Add_out _ _ _ _ _ _ _ _ Hok H) as [[_ ->]|(r & rest & Ho & Hi & Hco & _ & [j0 Hj0] & _)];
    [simpl in Hm; lia|].
  split; [rewrite Hj0; apply fmax_ge_r|]. exists (r_idx r). split; [done|]. split; [done|]. intros j Hj.
  pose proof (rank_order_best g now r rest Ho Hr j Hj) as Hb.
  assert (Hrd : r_dist r = rank_dist now (stage_at (stages g) (r_idx r))).
  { apply rank_order_idx. subst g. rewrite Ho. apply list_elem_of_here. }
  unfold rank_less in Hb. cbn [r_dist r_idx] in Hb. rewrite Hrd in Hb. cbn zeta.
  destruct (feq (rank_dist now (stage_at (stages g) j)) _) eqn:E; cbn [negb] in Hb.
  - split; [ford|]. intros _. exact Hb.
  - split; [exact Hb|done].
Qed.

Lemma filter_best_sample_witness :
  let f := fst (filter_run (NewFilter (lit 1 1000000)) (take 2 example_samples)) in
  let '(f', out, u) := Filter_Add f (lit 6 1000) (lit 90 1000) (lit 1 1000) (of_Z 138) in
  o_At out = of_Z 74 /\
  (is_nan (o_Jitter out) = false -> is_nan (f_floor f) = false ->
   fle (f_floor f) (o_Jitter out) = true).
Proof.
  intros f.
  destruct (Filter_Add f (lit 6 1000) (lit 90 1000) (lit 1 1000) (of_Z 138)) as [[f' out] u] eqn:E.
  assert (Ho : o_At out = of_Z 74 /\ o_Samples out = 3%nat).
  { assert (H : out = (Filter_Add f (lit 6 1000) (lit 90 1000) (lit 1 1000) (of_Z 138)).1.2)
      by (rewrite E; reflexivity). rewrite H. vm_compute. split; reflexivity. }
  split; [apply Ho|].
  assert (Hok : filter_ok f) by (constructor; vm_compute; try lia; reflexivity).
  apply (filter_best_sample f _ _ _ _ f' out u Hok E); [lia|].
  vm_compute. repeat constructor.
Defined.

(** How uncertain a fresh association is reported.  The first sample of a
    new filter, with dispersion [disp] below 16 s and a positive time, is
    released with a filter dispersion of exactly [(127/128 + disp) / 2]
    seconds; for a dispersion of 1 ms that is below the 500 ms the comments
    on [primingDispersion] promise. *)
Theorem first_sample_dispersion precision offset delay disp now :
  flt disp MaxDispersion = true -> flt fzero now = true ->
  fge (rank_dist now (mkStage offset delay disp now)) MaxDispersion = false ->
  let '(_, out, updated) := Filter_Add (NewFilter precision) offset delay disp now in
  updated = true /\ o_Dispersion out = fmul (lit 1 2) (fadd (lit 127 128) disp) /\
  flt (fmul (lit 1 2) (fadd (lit 127 128) (lit 1 1000))) (lit 1 2) = true.
Proof.
  intros Hd Hnow Hr. unfold Filter_Add.
  cbn -[rank_dist ldexp1 lit of_Z fmul fadd fsub fdiv fsqrt MaxDispersion MaxDistance fge fle flt].
  assert (Hc : cap_disp (mkStage offset delay disp now) = mkStage offset delay disp now).
  { unfold cap_disp. cbn [s_disp]. assert (fge disp MaxDispersion = false) as -> by ford. done. }
  unfold stage_at. cbn [nth]. rewrite Hr, Hc. cbn -[lit ldexp1 of_Z fmul fadd fsub fle flt].
  assert (fle now fzero = false) as -> by ford.
  repeat split.
Qed.

Lemma first_sample_dispersion_witness :
  let '(_, out, updated) :=
    Filter_Add (NewFilter (lit 1 1000000)) (lit 5 1000) (lit 20 1000) (lit 1 1000) (of_Z 10) in
  updated = true /\ o_Dispersion out = fmul (lit 1 2) (fadd (lit 127 128) (lit 1 1000)) /\
  flt (fmul (lit 1 2) (fadd (lit 127 128) (lit 1 1000))) (lit 1 2) = true.
Proof.
  apply (first_sample_dispersion (lit 1 1000000) (lit 5 1000) (lit 20 1000) (lit 1 1000) (of_Z 10));
    vm_compute; reflexivity.
Defined.
