(* ===== verification/Select.v ===== *)
(** * internal/discipline/select.go: selection, clustering and combining

    The sources are pointers in the code: selection mutates them while several
    slices refer to them.  Here they live in a store (the [sources] slice) and
    a pointer is the source's index in it. *)

From stdpp Require Import base list strings numbers sorting.
From Stdlib Require Import Lia ZArith.
From S2P Require Import Prelude Float64 GoTime NtpTime Measurement.

Local Open Scope Z_scope.

Definition MinDispersion : f64 := lit 1 1000.
Definition ClusterMin : nat := 3.
Definition PPSGuard : f64 := lit 4 10.
Definition ppsAgreementFloor : f64 := lit 1 1000.

Inductive SelectStatus : Type :=
| StatusUnreachable
| StatusNoSelect
| StatusInvalid
| StatusUnqualified
| StatusFalseticker
| StatusOutlier
| StatusSurvivor
| StatusSystem.

#[export] Instance SelectStatus_eq_dec : EqDecision SelectStatus.
Proof. solve_decision. Defined.

Record SourceState : Type := mkSource {
  Name : string;
  Opts : Options;
  Reach : Z;
  Poll : Z;
  Valid : bool;
  At : f64;
  Updated : f64;
  Offset : f64;
  Delay : f64;
  Dispersion : f64;
  Jitter : f64;
  Leap : Z;
  LiveLeap : Z;
  LeapUpdated : f64;
  LeapKnown : bool;
  Stratum : Z;
  sRefID : RefID;
  SourceRefID : RefID;
  RootDelay : f64;
  RootDisp : f64;
  Precision : Z;
  RefTime : time;
  Status : SelectStatus;
  Distance : f64;
  Current : f64;
  usedAt : f64;
  stale : bool;
  DisagreesWith : string;
  Disagreement : f64;
  inLoop : bool;
  everSurvived : bool;
  sinceStep : Z
}.

#[export] Instance SourceState_eta : Eta SourceState := fun s =>
  mkSource (Name s) (Opts s) (Reach s) (Poll s) (Valid s) (At s) (Updated s) (Offset s) (Delay s)
    (Dispersion s) (Jitter s) (Leap s) (LiveLeap s) (LeapUpdated s) (LeapKnown s) (Stratum s)
    (sRefID s) (SourceRefID s) (RootDelay s) (RootDisp s) (Precision s) (RefTime s) (Status s)
    (Distance s) (Current s) (usedAt s) (stale s) (DisagreesWith s) (Disagreement s) (inLoop s)
    (everSurvived s) (sinceStep s).

(** [&SourceState{Name: name, Options: o}]. *)
Definition newSource (name : string) (o : Options) : SourceState :=
  mkSource name o 0 0 false fzero fzero fzero fzero fzero fzero 0 0 fzero false 0
    zeroRefID zeroRefID fzero fzero 0 zeroTime StatusUnreachable fzero fzero fzero false
    ""%string fzero false false 0.

Definition zeroSource : SourceState := newSource "" (mkOptions false false false false false).

Inductive EventKind : Type :=
| EventStep
| EventPanicRefused
| EventPopcorn
| EventStateChange
| EventFalseticker
| EventTruechimer
| EventPreferLost
| EventPreferRegained
| EventSystemSource
| EventUnknownSource
| EventPPSUnqualified
| EventPPSQualified
| EventTimingLoop
| EventTimingLoopCleared.

(** The synchronization state, whose changes events report. *)
Inductive State : Type :=
| StateUnsynced
| StateSettling
| StateSynced
| StateHoldover.

#[export] Instance State_eq_dec : EqDecision State.
Proof. solve_decision. Defined.

Record Event : Type := mkEvent {
  Kind : EventKind;
  eSource : string;
  Value : f64;
  From : State;
  To : State
}.

Definition source_event (k : EventKind) (name : string) : Event :=
  mkEvent k name fzero StateUnsynced StateUnsynced.
Definition value_event (k : EventKind) (name : string) (v : f64) : Event :=
  mkEvent k name v StateUnsynced StateUnsynced.

(** [apply] records a measurement. *)
Definition apply_leap (s : SourceState) (m : Measurement) : SourceState :=
  if IsAcquisition m && negb (PPS (Opts s)) && negb (LeapIncapable (Opts s)) then
    let s :=
      if m_LeapSample m then s <| LiveLeap := m_LeapValue m |> <| LeapUpdated := m_LeapObserved m |>
      else if m_Valid m then s <| LiveLeap := m_Leap m |> <| LeapUpdated := m_Now m |>
      else s in
    if m_LeapSample m || m_Valid m
    then s <| LeapKnown := LiveLeap s <? LeapUnsync |>
    else s
  else s.

Definition source_apply (s : SourceState) (m : Measurement) : SourceState :=
  let s := s <| Reach := m_Reach m |> <| Poll := m_Poll m |> in
  let s := if m_Invalidate m then s <| Valid := false |> <| LeapKnown := false |> else s in
  let s := apply_leap s m in
  if negb (m_Valid m) then s
  else
    s <| Valid := true |> <| sinceStep := sinceStep s + 1 |> <| At := m_At m |>
      <| Updated := m_Now m |> <| Offset := m_Offset m |> <| Delay := m_Delay m |>
      <| Dispersion := m_Dispersion m |> <| Jitter := m_Jitter m |> <| Leap := m_Leap m |>
      <| Stratum := m_Stratum m |> <| sRefID := m_RefID m |> <| SourceRefID := m_SourceRefID m |>
      <| RootDelay := m_RootDelay m |> <| RootDisp := m_RootDisp m |>
      <| Precision := m_Precision m |> <| RefTime := m_RefTime m |>.

Definition invalidate (s : SourceState) : SourceState :=
  s <| Valid := false |> <| LeapKnown := false |> <| sinceStep := 0 |>.

Definition RootDistance (s : SourceState) (now : f64) : f64 :=
  let age := fsub now (Updated s) in
  let age := if flt age fzero then fzero else age in
  (fmax MinDispersion (RootDelay s + Delay s) / of_Z 2 + RootDisp s + Dispersion s
     + Phi * age + Jitter s)%f64.

Definition synch (s : SourceState) : f64 :=
  (of_Z (Stratum s) * MaxDistance + Distance s)%f64.

Definition candidate (s : SourceState) : bool * SelectStatus :=
  if Reach s =? 0 then (false, StatusUnreachable)
  else if NoSelect (Opts s) then (false, StatusNoSelect)
  else if stale s then (false, StatusUnreachable)
  else if negb (Valid s) || (Leap s =? LeapUnsync) || (16 <=? Stratum s)
          || fge (Distance s) MaxDistance then (false, StatusInvalid)
  else (true, StatusSurvivor).

Definition freshnessDeadline (poll : Z) : f64 :=
  let poll := if poll <? MinPoll then MinPoll else poll in
  let poll := if MaxPoll <? poll then MaxPoll else poll in
  let d := fmul reachBits (ldexp1 poll) in
  if flt d minFreshness then minFreshness else d.

(** The loop of [ppsAgreement], with the closest source so far. *)
Fixpoint ppsAgreement_from (p : SourceState) (numbering : list SourceState) (now : f64)
    (closest : f64) (name : string) : string * f64 * bool :=
  match numbering with
  | [] => (name, closest, false)
  | n :: rest =>
      let d := fabs (fsub (Current n) (Current p)) in
      if fle d (RootDistance n now + fmax (of_Z 4 * Jitter n) ppsAgreementFloor)%f64
      then (""%string, fzero, true)
      else if flt d closest then ppsAgreement_from p rest now d (Name n)
      else ppsAgreement_from p rest now closest name
  end.

Definition ppsAgreement (p : SourceState) (numbering : list SourceState) (now : f64) :=
  ppsAgreement_from p numbering now finf ""%string.

Record Selection : Type := mkSelection {
  Survivors : list nat;
  System : option nat;
  sel_Offset : f64;
  sel_Jitter : f64;
  PreferLost : bool;
  PPSQualified : bool;
  Low : f64;
  High : f64;
  sel_Events : list Event
}.

#[export] Instance Selection_eta : Eta Selection := fun s =>
  mkSelection (Survivors s) (System s) (sel_Offset s) (sel_Jitter s) (PreferLost s)
    (PPSQualified s) (Low s) (High s) (sel_Events s).

Definition zeroSelection : Selection :=
  mkSelection [] None fzero fzero false false fzero fzero [].

(** The identifiers of this host: the keys [LocalRefIDs] maps to true. *)
Definition RefIDs : Type := list RefID.
Definition isLocal (local : RefIDs) (r : RefID) : bool := bool_decide (r ∈ local).

Definition timingLoop (s : SourceState) (local : RefIDs) : bool :=
  if (length local =? 0)%nat then false
  else if negb (IsText (SourceRefID s)) && isLocal local (SourceRefID s) then true
  else if (1 <? Stratum s) && negb (IsText (sRefID s)) && isLocal local (sRefID s) then true
  else false.

Record SelectOptions : Type := mkSelectOptions {
  LocalRefIDs : RefIDs;
  AppliedSince : option (f64 -> f64 -> f64)
}.

(** ** Sources as pointers into a store *)

Abbreviation store := (list SourceState).
Definition src (st : store) (i : nat) : SourceState := nth i st zeroSource.
Definition deref (st : store) (ids : list nat) : list SourceState := src st <$> ids.
Definition upd (st : store) (i : nat) (f : SourceState -> SourceState) : store := alter f i st.
Definition upd_all (st : store) (ids : list nat) (f : SourceState -> SourceState) : store :=
  fold_left (fun st i => upd st i f) ids st.

(** ** intersect: the Marzullo/Mills intersection *)

Record edge : Type := mkEdge { e_v : f64; e_t : Z }.

Definition edges_of (c : list SourceState) : list edge :=
  flat_map (fun s => [ mkEdge (fsub (Current s) (Distance s)) (-1);
                       mkEdge (Current s) 0;
                       mkEdge (fadd (Current s) (Distance s)) 1 ]) c.

Definition edge_less (a b : edge) : bool :=
  if negb (feq (e_v a) (e_v b)) then flt (e_v a) (e_v b) else e_t a <? e_t b.

(** One endpoint scan: stop at the edge where [need] intervals are open;
    [dir] is [-1] from below and [+1] from above. *)
Fixpoint scan (dir need : Z) (es : list edge) (chime mids : Z) : f64 * Z :=
  match es with
  | [] => (fnan, mids)
  | e :: es' =>
      let chime := chime + dir * e_t e in
      if need <=? chime then (e_v e, mids)
      else scan dir need es' chime (if e_t e =? 0 then mids + 1 else mids)
  end.

(** The loop over the number of allowed falsetickers. *)
Fixpoint find_interval (fuel : nat) (n : Z) (es : list edge) (allow : Z) : option (f64 * f64) :=
  match fuel with
  | O => None
  | S fuel' =>
      if 2 * allow <? n then
        let '(lo, mids) := scan (-1) (n - allow) es 0 0 in
        let '(hi, mids) := scan 1 (n - allow) (reverse es) 0 mids in
        if allow <? mids then find_interval fuel' n es (allow + 1)
        else if fgt hi lo then Some (lo, hi)
        else find_interval fuel' n es (allow + 1)
      else None
  end.

Definition overlaps (low high : f64) (s : SourceState) : bool :=
  negb (flt (fadd (Current s) (Distance s)) low || fgt (fsub (Current s) (Distance s)) high).

Definition intersect (st : store) (c : list nat) (sel : Selection) : store * list nat * Selection :=
  let n := length c in
  if (n =? 0)%nat then (st, [], sel)
  else
    let es := sort_stable edge_less (edges_of (deref st c)) in
    match find_interval n (Z.of_nat n) es 0 with
    | None => (upd_all st c (fun s => s <| Status := StatusFalseticker |>), [], sel)
    | Some (low, high) =>
        let surv := filter (fun i => overlaps low high (src st i) = true) c in
        let st := upd_all st (filter (fun i => overlaps low high (src st i) = false) c)
                    (fun s => s <| Status := StatusFalseticker |>) in
        (st, surv, sel <| Low := low |> <| High := high |>)
    end.

(** ** cluster *)

(** The selection jitter of survivor [i]. *)
Definition selection_jitter (ss : list SourceState) (i : nat) (s : SourceState) : f64 :=
  let sum := fold_left (fun sum '(j, o) =>
      if (i =? j)%nat then sum
      else let d := fsub (Current s) (Current o) in fadd sum (fmul d d))
    (imap pair ss) fzero in
  fsqrt (fdiv sum (of_Z (Z.of_nat (length ss) - 1))).

(** The scan of one round: farthest survivor, its jitter, least own jitter. *)
Definition cluster_scan (ss : list SourceState) : option nat * f64 * f64 :=
  fold_left (fun '(maxIdx, maxSel, minJit) '(i, s) =>
      let sj := selection_jitter ss i s in
      let '(maxIdx, maxSel) := if fgt sj maxSel then (Some i, sj) else (maxIdx, maxSel) in
      let minJit := if flt (Jitter s) minJit then Jitter s else minJit in
      (maxIdx, maxSel, minJit))
    (imap pair ss) (None, of_Z (-1), finf).

(** [None] is the panic of indexing with [maxIdx] = -1, or a loop still
    running when the fuel is spent. *)
Fixpoint cluster_loop (fuel : nat) (st : store) (surv : list nat) : option (store * list nat) :=
  match fuel with
  | O => None
  | S fuel' =>
      if (ClusterMin <? length surv)%nat then
        let '(maxIdx, maxSel, minJit) := cluster_scan (deref st surv) in
        if flt maxSel minJit then Some (st, surv)
        else
          match maxIdx with
          | None => None
          | Some k =>
              let st := upd st (nth k surv 0%nat) (fun s => s <| Status := StatusOutlier |>) in
              cluster_loop fuel' st (take k surv ++ drop (S k) surv)
          end
      else Some (st, surv)
  end.

Definition cluster (st : store) (surv : list nat) : option (store * list nat) :=
  cluster_loop (S (length surv)) st surv.

(** ** SelectAt *)

(** The first loop, for one source: distance, freshness and the estimate at
    the selection instant ... *)
Definition refresh (now : f64) (opts : SelectOptions) (s : SourceState) : SourceState :=
  let s := s <| Distance := RootDistance s now |> in
  let s := s <| stale := Valid s && fgt (fsub now (Updated s)) (freshnessDeadline (Poll s)) |> in
  let s := s <| Current := Offset s |> in
  let s := match AppliedSince opts with
           | Some applied =>
               if Valid s then s <| Current := fsub (Current s) (applied (At s) now) |> else s
           | None => s
           end in
  if PPS (Opts s) then s <| DisagreesWith := ""%string |> <| Disagreement := fzero |> else s.

(** ... then candidacy and the timing-loop check. *)
Definition prepare (now : f64) (opts : SelectOptions) (s0 : SourceState)
  : SourceState * bool * list Event :=
  let s := refresh now opts s0 in
  let '(ok, st) := candidate s in
  let '(s, ok, st, events) :=
    if ok && timingLoop s (LocalRefIDs opts) then
      if negb (inLoop s)
      then (s <| inLoop := true |>, false, StatusInvalid, [source_event EventTimingLoop (Name s)])
      else (s, false, StatusInvalid, [])
    else if inLoop s
      then (s <| inLoop := false |>, ok, st, [source_event EventTimingLoopCleared (Name s)])
      else (s, ok, st, []) in
  let s := s <| Status := st |> in
  let s := if ok && PPS (Opts s) then s <| Status := StatusUnqualified |> else s in
  (s, ok, events).

Definition prepared (now : f64) (opts : SelectOptions) (sources : store)
  : list (SourceState * bool * list Event) := prepare now opts <$> sources.

Definition prep_ok (p : SourceState * bool * list Event) : bool := snd (fst p).
Definition prep_src (p : SourceState * bool * list Event) : SourceState := fst (fst p).

(** Indices of the accepted sources, PPS or not. *)
Definition accepted (ps : list (SourceState * bool * list Event)) (pps : bool) : list nat :=
  filter (fun i => match ps !! i with
                   | Some p => prep_ok p && Bool.eqb (PPS (Opts (prep_src p))) pps
                   | None => false
                   end = true) (seq 0 (length ps)).

(** The PPS loop: each pulse source against the numbering survivors. *)
Fixpoint qualify_pps (now : f64) (st : store) (numbering pps survivors : list nat)
  : store * list nat :=
  match pps with
  | [] => (st, survivors)
  | p :: rest =>
      let '(name, delta, agrees) := ppsAgreement (src st p) (deref st numbering) now in
      let st := upd st p (fun s => s <| DisagreesWith := name |> <| Disagreement := delta |>) in
      if agrees then
        qualify_pps now (upd st p (fun s => s <| Status := StatusSurvivor |>)) numbering rest
          (survivors ++ [p])
      else
        qualify_pps now (upd st p (fun s => s <| Status := StatusFalseticker |>)) numbering rest
          survivors
  end.

Definition is_numbering (s : SourceState) : bool :=
  Numbering (Opts s) && flt (fabs (Current s)) PPSGuard.

(** The system source among the survivors: a preferred PPS, else a preferred
    source, and whether one was found. *)
Definition preferred (st : store) (survivors : list nat) : option nat :=
  match find (fun i => PPS (Opts (src st i)) && Prefer (Opts (src st i))) survivors with
  | Some i => Some i
  | None => find (fun i => Prefer (Opts (src st i))) survivors
  end.

Definition weight (s : SourceState) : f64 :=
  fdiv (of_Z 1) (fmax (Distance s) (fdiv MinDispersion (of_Z 2))).

(** Combining: the offset and jitter of the survivors [ss] for system source
    [sys]. *)
Definition combine (ss : list SourceState) (sys : SourceState) : f64 * f64 :=
  let '(sumW, sumWO) := fold_left (fun '(sumW, sumWO) s =>
      let w := weight s in (fadd sumW w, fadd sumWO (fmul w (Current s)))) ss (fzero, fzero) in
  let mean := fdiv sumWO sumW in
  let offset := if Prefer (Opts sys) then Current sys else mean in
  let spread := fold_left (fun spread s =>
      let d := fsub (Current s) offset in fadd spread (fmul (fmul (weight s) d) d)) ss fzero in
  let spread := fsqrt (fdiv spread sumW) in
  (offset, fsqrt (fadd (fmul (Jitter sys) (Jitter sys)) (fmul spread spread))).

(** The part of [SelectAt] after clustering. *)
Definition select_finish (now : f64) (minSurvivors : Z) (preferConfigured anySurvived : bool)
    (st : store) (sel : Selection) (survivors pps : list nat) : store * Selection :=
  let numbering := filter (fun i => is_numbering (src st i) = true) survivors in
  let qualified := negb (length numbering =? 0)%nat in
  let sel := sel <| PPSQualified := qualified |> in
  let '(st, survivors) :=
    if qualified then qualify_pps now st numbering pps survivors else (st, survivors) in
  let survivors := sort_stable (fun i j => flt (synch (src st i)) (synch (src st j))) survivors in
  let st := upd_all st survivors (fun s => s <| Status := StatusSurvivor |>) in
  let sel := sel <| Survivors := survivors |> in
  let st := upd_all st survivors (fun s => s <| everSurvived := true |>) in
  let fallbackEstablished := anySurvived || negb (length survivors =? 0)%nat in
  let reportPreferLost := preferConfigured && fallbackEstablished in
  match survivors with
  | [] => (st, sel <| PreferLost := reportPreferLost |>)
  | first :: _ =>
      if Z.of_nat (length survivors) <? minSurvivors
      then (st, sel <| PreferLost := reportPreferLost |>)
      else
        let pref := preferred st survivors in
        let sel := sel <| PreferLost := reportPreferLost && bool_decide (pref = None) |> in
        let sys := default first pref in
        let st := upd st sys (fun s => s <| Status := StatusSystem |>) in
        let '(offset, jitter) := combine (deref st survivors) (src st sys) in
        (st, sel <| System := Some sys |> <| sel_Offset := offset |> <| sel_Jitter := jitter |>)
  end.

(** [SelectAt]; [None] is a panic. *)
Definition SelectAt (sources : store) (now : f64) (minSurvivors : Z) (opts : SelectOptions)
  : option (store * Selection) :=
  let ps := prepared now opts sources in
  let preferConfigured := existsb (fun s => Prefer (Opts s) && negb (NoSelect (Opts s))) sources in
  let anySurvived := existsb everSurvived sources in
  let st := prep_src <$> ps in
  let sel := zeroSelection <| sel_Events := concat (snd <$> ps) |> in
  let cands := accepted ps false in
  let pps := accepted ps true in
  let '(st, survivors, sel) := intersect st cands sel in
  match cluster st survivors with
  | None => None
  | Some (st, survivors) =>
      Some (select_finish now minSurvivors preferConfigured anySurvived st sel survivors pps)
  end.

(** [Select]: no context. *)
Definition Select (sources : store) (now : f64) (minSurvivors : Z) : option (store * Selection) :=
  SelectAt sources now minSurvivors (mkSelectOptions [] None).

(** ** majorityLeap *)

(** A fresh, leap-capable survivor with a known indication. *)
Definition votes_leap (now : f64) (s : SourceState) : bool :=
  let age := fsub now (LeapUpdated s) in
  negb (PPS (Opts s) || LeapIncapable (Opts s) || negb (LeapKnown s) || (LeapUnsync <=? LiveLeap s)
        || negb (fge age fzero && fle age (fmul (of_Z 2) (Log2Seconds (Poll s))))).

Definition majorityLeap (surv : list SourceState) (now : f64) : Z :=
  let voters := filter (fun s => votes_leap now s = true) surv in
  let votes i := length (filter (fun s => LiveLeap s = i) voters) in
  let majority i := (length voters <? votes i * 2)%nat in
  if majority LeapNone then LeapNone
  else if majority LeapInsert then LeapInsert
  else if majority LeapDelete then LeapDelete
  else LeapUnsync.

(** ** Store lemmas *)

Lemma length_upd st i f : length (upd st i f) = length st.
Proof. apply length_alter. Qed.

Lemma length_upd_all ids st f : length (upd_all st ids f) = length st.
Proof.
  unfold upd_all. revert st. induction ids as [|i ids IH]; intros st; simpl; [done|].
  by rewrite IH, length_upd.
Qed.

Lemma src_lookup st i s : st !! i = Some s -> src st i = s.
Proof. apply nth_lookup_Some. Qed.

Lemma src_upd_eq st i f : (i < length st)%nat -> src (upd st i f) i = f (src st i).
Proof.
  intros Hi. destruct (lookup_lt_is_Some_2 st i Hi) as [s Hs].
  rewrite (src_lookup st i s Hs). apply src_lookup. unfold upd.
  rewrite list_lookup_alter, Hs. by case_decide.
Qed.

Lemma src_upd_ne st i j f : i <> j -> src (upd st i f) j = src st j.
Proof.
  intros Hne. unfold src, upd. rewrite !nth_lookup, list_lookup_alter.
  by case_decide.
Qed.

(** An update that keeps a field keeps it in every source. *)
Lemma src_upd_field {B} (g : SourceState -> B) st i j f :
  (forall s, g (f s) = g s) -> g (src (upd st i f) j) = g (src st j).
Proof.
  intros Hg. destruct (decide (i = j)) as [->|Hne]; [|by rewrite src_upd_ne].
  destruct (decide (j < length st)%nat) as [Hj|Hj]; [by rewrite src_upd_eq|].
  unfold src. rewrite !nth_overflow; [done| |]; rewrite ?length_upd; lia.
Qed.

Lemma src_upd_all_field {B} (g : SourceState -> B) ids st j f :
  (forall s, g (f s) = g s) -> g (src (upd_all st ids f) j) = g (src st j).
Proof.
  intros Hg. unfold upd_all. revert st. induction ids as [|i ids IH]; intros st; simpl; [done|].
  rewrite IH. by apply src_upd_field.
Qed.

Lemma src_upd_all_other ids st j f : j ∉ ids -> src (upd_all st ids f) j = src st j.
Proof.
  unfold upd_all. revert st. induction ids as [|i ids IH]; intros st Hj; simpl; [done|].
  apply not_elem_of_cons in Hj as [Hne Hj]. rewrite IH by done. by apply src_upd_ne.
Qed.

(** Setting a field of every listed source sets it. *)
Lemma src_upd_all_set {B} (g : SourceState -> B) (v : B) ids st j f :
  (forall s, g (f s) = v) -> j ∈ ids -> (j < length st)%nat ->
  g (src (upd_all st ids f) j) = v.
Proof.
  intros Hg. unfold upd_all. revert st. induction ids as [|i ids IH]; intros st Hj Hlen; simpl.
  - by apply elem_of_nil in Hj.
  - destruct (decide (j ∈ ids)) as [Hin|Hout].
    + apply IH; [done|]. by rewrite length_upd.
    + apply elem_of_cons in Hj as [->|]; [|done].
      fold (upd_all (upd st i f) ids f). rewrite src_upd_all_other by done.
      by rewrite src_upd_eq.
Qed.

(** ** The intersection keeps a majority *)

Definition low_edge (e : edge) : bool := e_t e =? -1.
Definition high_edge (e : edge) : bool := e_t e =? 1.

Definition numeric_edges (c : list SourceState) : Prop :=
  Forall (fun e => is_nan (e_v e) = false) (edges_of c).

Definition edge_kind (e : edge) : Prop := e_t e = -1 \/ e_t e = 0 \/ e_t e = 1.

Lemma edges_of_kinds c : Forall edge_kind (edges_of c).
Proof.
  unfold edge_kind. induction c as [|s c IH]; simpl; [constructor|].
  repeat (constructor; [simpl; lia|]). done.
Qed.

(** Where a scan from below stops, [need] more lows than highs are behind. *)
Lemma scan_low_found need es chime mids v mids' :
  Forall edge_kind es ->
  scan (-1) need es chime mids = (v, mids') -> is_nan v = false ->
  exists p e q, es = p ++ e :: q /\ v = e_v e /\
    need <= chime + zcount low_edge (p ++ [e]) - zcount high_edge (p ++ [e]).
Proof.
  intros Hk. revert chime mids. induction Hk as [|e es He Hk IH]; intros chime mids; cbn [scan].
  - intros [= <- <-] Hv. done.
  - assert (Hz : chime + -1 * e_t e = chime + zcount low_edge [e] - zcount high_edge [e]).
    { unfold edge_kind in He. simpl. unfold low_edge, high_edge.
      destruct He as [->|[->| ->]]; simpl; lia. }
    rewrite Hz. case_goal; repeat bool_step.
    + intros [= <- <-] Hv. exists [], e, es. repeat split; simpl in *; lia.
    + intros H Hv. destruct (IH _ _ H Hv) as (p & e' & q & -> & Hv' & Hn).
      exists (e :: p), e', q. repeat split; try done. simpl in *. lia.
Qed.

Lemma edge_sorted l : Forall (fun e => is_nan (e_v e) = false) l ->
  StronglySorted (not_above edge_less) (sort_stable edge_less l).
Proof.
  apply (sort_by_key_sorted e_v (fun a b => e_t a <? e_t b)); [done| |].
  - intros a b _ _ H. bool_step. apply Z.ltb_ge. lia.
  - intros a b c _ _ _ H1 H2. repeat bool_step. apply Z.ltb_ge. lia.
Qed.

Lemma edge_not_above a b : is_nan (e_v a) = false -> is_nan (e_v b) = false ->
  not_above edge_less a b -> fle (e_v a) (e_v b) = true.
Proof.
  intros Ha Hb. apply (key_less_le e_v (fun a b => e_t a <? e_t b) (fun e => is_nan (e_v e) = false)); done.
Qed.

Lemma StronglySorted_app_mid {A} (R : A -> A -> Prop) p e q :
  StronglySorted R (p ++ e :: q) -> Forall (fun x => R x e) p /\ Forall (fun x => R e x) q.
Proof.
  induction p as [|x p IH]; simpl; intros Hs; inversion Hs as [|? ? Hs' Hall]; subst.
  - split; [constructor|done].
  - destruct (IH Hs') as [Hp Hq]. split; [|done]. constructor; [|done].
    rewrite Forall_forall in Hall. apply Hall, elem_of_app. right. apply list_elem_of_here.
Qed.

(** Counting edges of one kind is counting sources. *)
Lemma zcount_low_edges (p : f64 -> bool) c :
  zcount (fun e => low_edge e && p (e_v e)) (edges_of c)
  = zcount (fun s => p (fsub (Current s) (Distance s))) c.
Proof. induction c as [|s c IH]; [done|]. unfold zcount, edges_of, low_edge in *. simpl in *. rewrite IH. done. Qed.

Lemma zcount_high_edges (p : f64 -> bool) c :
  zcount (fun e => high_edge e && p (e_v e)) (edges_of c)
  = zcount (fun s => p (fadd (Current s) (Distance s))) c.
Proof. induction c as [|s c IH]; [done|]. unfold zcount, edges_of, high_edge in *. simpl in *. rewrite IH. done. Qed.

Lemma find_interval_found fuel n es allow0 lo hi :
  0 <= allow0 -> find_interval fuel n es allow0 = Some (lo, hi) ->
  exists allow, 0 <= allow /\ 2 * allow < n /\ fgt hi lo = true /\
    fst (scan (-1) (n - allow) es 0 0) = lo.
Proof.
  revert allow0. induction fuel as [|fuel IH]; intros allow0 Ha; simpl; [done|].
  destruct (2 * allow0 <? n) eqn:E; [|done].
  destruct (scan (-1) (n - allow0) es 0 0) as [lo' m] eqn:E1.
  destruct (scan 1 (n - allow0) (reverse es) 0 m) as [hi' m'] eqn:E2.
  destruct (allow0 <? m') eqn:E3; [apply IH; lia|].
  destruct (fgt hi' lo') eqn:E4; [|apply IH; lia].
  intros [= <- <-]. exists allow0. rewrite E1. bool_step. repeat split; try lia; done.
Qed.

(** Every interval the search returns overlaps more than half of the
    candidates' correctness intervals. *)
Lemma interval_majority fuel c lo hi :
  numeric_edges c ->
  find_interval fuel (Z.of_nat (length c)) (sort_stable edge_less (edges_of c)) 0 = Some (lo, hi) ->
  Z.of_nat (length c) < 2 * zcount (overlaps lo hi) c.
Proof.
  intros Hnum H. apply find_interval_found in H as (allow & Ha & Hal & Hgt & Hlo); [|lia].
  set (es := sort_stable edge_less (edges_of c)) in *.
  assert (Hperm : es ≡ₚ edges_of c) by apply sort_stable_perm.
  assert (Hnum' : Forall (fun e => is_nan (e_v e) = false) es) by (rewrite Hperm; exact Hnum).
  destruct (scan (-1) _ es 0 0) as [v m] eqn:Hs. simpl in Hlo. subst v.
  assert (Hnl : is_nan lo = false) by (clear -Hgt; ford).
  apply scan_low_found in Hs as (p & e & q & Hes & He & Hneed);
    [|rewrite Hperm; apply edges_of_kinds|done].
  pose proof (edge_sorted (edges_of c) Hnum) as Hsort. fold es in Hsort. rewrite Hes in Hsort, Hnum'.
  apply StronglySorted_app_mid in Hsort as [Hp Hq].
  apply Forall_app in Hnum' as [Np Neq]. inversion Neq as [|? ? Ne Nq]; subst.
  assert (Hbelow : Forall (fun x => fle (e_v x) (e_v e) = true) (p ++ [e])).
  { apply Forall_app. split; [|constructor; [by apply fle_refl|constructor]].
    rewrite Forall_forall in *. intros x Hx. apply edge_not_above; auto. }
  assert (Habove : Forall (fun x => flt (e_v x) (e_v e) = false) q).
  { rewrite Forall_forall in *. intros x Hx.
    assert (fle (e_v e) (e_v x) = true) by (apply edge_not_above; auto).
    clear -H. ford. }
  assert (Hlows : zcount low_edge (p ++ [e]) <=
    zcount (fun s => fle (fsub (Current s) (Distance s)) (e_v e)) c).
  { rewrite <- (zcount_low_edges (fun x => fle x (e_v e))), <- (zcount_perm _ _ _ Hperm), Hes.
    replace (p ++ e :: q) with ((p ++ [e]) ++ q) by (by rewrite <- app_assoc).
    rewrite (zcount_app _ (p ++ [e]) q). cbv beta. pose proof (zcount_nonneg (fun x => low_edge x && fle (e_v x) (e_v e)) q).
    enough (zcount low_edge (p ++ [e]) <= zcount (fun x => low_edge x && fle (e_v x) (e_v e)) (p ++ [e])) by lia.
    apply zcount_le. eapply Forall_impl; [exact Hbelow|]. intros x -> ->. done. }
  assert (Hhighs : zcount (fun s => flt (fadd (Current s) (Distance s)) (e_v e)) c
    <= zcount high_edge (p ++ [e])).
  { rewrite <- (zcount_high_edges (fun x => flt x (e_v e))), <- (zcount_perm _ _ _ Hperm), Hes.
    replace (p ++ e :: q) with ((p ++ [e]) ++ q) by (by rewrite <- app_assoc).
    rewrite (zcount_app _ (p ++ [e]) q), (zcount_zero _ q); [|eapply Forall_impl; [exact Habove|]].
    - rewrite Z.add_0_r. apply zcount_le, Forall_forall. intros x _ Hx. by bool_step.
    - intros x Hx. simpl. rewrite Hx. by rewrite andb_false_r. }
  enough (zcount (fun s => fle (fsub (Current s) (Distance s)) (e_v e)) c
    - zcount (fun s => flt (fadd (Current s) (Distance s)) (e_v e)) c
    <= zcount (overlaps (e_v e) hi) c) by lia.
  clear -Hgt. induction c as [|s c IH]; simpl; [lia|].
  unfold overlaps at 1.
  destruct (fle (fsub (Current s) (Distance s)) (e_v e)) eqn:E1,
    (flt (fadd (Current s) (Distance s)) (e_v e)) eqn:E2; simpl; try lia; try (case_goal; lia).
  assert (fgt (fsub (Current s) (Distance s)) hi = false) as -> by (clear -E1 Hgt; ford).
  simpl. lia.
Qed.

(** ** Clustering *)

(** Jitters that cannot make the round remove "index -1". *)
Definition jitter_ok (s : SourceState) : Prop := fle (Jitter s) (of_Z (-1)) = false.

Lemma jitter_ok_forallb ss :
  forallb (fun s => negb (fle (Jitter s) (of_Z (-1)))) ss = true -> Forall jitter_ok ss.
Proof.
  rewrite forallb_forall, Forall_forall. intros H s Hs. apply list_elem_of_In in Hs.
  by apply negb_true_iff, H.
Qed.

Lemma cluster_scan_inv ss maxIdx maxSel minJit :
  cluster_scan ss = (maxIdx, maxSel, minJit) ->
  match maxIdx with Some k => (k < length ss)%nat | None => maxSel = of_Z (-1) end /\
  (minJit = finf \/ exists s, s ∈ ss /\ minJit = Jitter s /\ is_nan (Jitter s) = false).
Proof.
  pose (I := fun acc : option nat * f64 * f64 =>
    match fst (fst acc) with Some k => (k < length ss)%nat | None => snd (fst acc) = of_Z (-1) end /\
    (snd acc = finf \/ exists s, s ∈ ss /\ snd acc = Jitter s /\ is_nan (Jitter s) = false)).
  intros H. change (I (maxIdx, maxSel, minJit)). rewrite <- H. unfold cluster_scan.
  apply fold_left_inv; [|split; simpl; auto].
  intros [[mi ms] mj] [i s] Hin [H1 H2]. apply elem_of_imap_pair in Hin.
  pose proof (lookup_lt_Some _ _ _ Hin). apply list_elem_of_lookup_2 in Hin.
  unfold I. cbn [fst snd] in *.
  destruct (fgt _ ms), (flt (Jitter s) mj) eqn:E; cbn [fst snd]; split; try done; right;
    exists s; repeat split; try done; clear -E; ford.
Qed.

Lemma cluster_scan_no_panic ss maxSel minJit :
  Forall jitter_ok ss -> cluster_scan ss = (None, maxSel, minJit) -> flt maxSel minJit = true.
Proof.
  intros Hj H. apply cluster_scan_inv in H as [-> [->|(s & Hs & -> & Hn)]]; [done|].
  rewrite Forall_forall in Hj. specialize (Hj s Hs). unfold jitter_ok in Hj.
  pose proof (of_Z_not_nan (-1)). clear -Hj Hn H. ford.
Qed.

(** The fields clustering and intersection leave alone. *)
Definition set_status (v : SelectStatus) (s : SourceState) : SourceState := s <| Status := v |>.

(** The two ends of the loop: three survivors, or none farther from the others
    than the least jitter. *)
Definition cluster_done (ss : list SourceState) : Prop :=
  (length ss <= ClusterMin)%nat \/
  exists maxIdx maxSel minJit, cluster_scan ss = (maxIdx, maxSel, minJit) /\ flt maxSel minJit = true.

Lemma sublist_remove_nth {A} k (l : list A) : take k l ++ drop (S k) l `sublist_of` l.
Proof.
  rewrite <- (take_drop k l) at 3. apply sublist_app; [done|].
  replace (S k) with (k + 1)%nat by lia. rewrite <- (drop_drop l 1 k). apply sublist_drop.
Qed.

Lemma perm_remove_nth {A} k (l : list A) d :
  (k < length l)%nat -> l ≡ₚ nth k l d :: take k l ++ drop (S k) l.
Proof.
  intros Hk. destruct (lookup_lt_is_Some_2 l k Hk) as [x Hx]. rewrite (nth_lookup_Some _ _ _ _ Hx).
  rewrite <- (take_drop_middle l k x Hx) at 1. by rewrite Permutation_middle.
Qed.

Lemma cluster_loop_sub fuel st surv st' surv' :
  cluster_loop fuel st surv = Some (st', surv') -> surv' `sublist_of` surv.
Proof.
  revert st surv. induction fuel as [|fuel IH]; intros st surv; cbn [cluster_loop]; [done|].
  case_goal; [|by intros [= <- <-]]. destruct (cluster_scan _) as [[mi ms] mj].
  case_goal; [by intros [= <- <-]|]. destruct mi as [k|]; [|done]. intros H.
  etrans; [by eapply IH|]. apply sublist_remove_nth.
Qed.

Lemma cluster_loop_spec fuel st surv :
  (length surv < fuel)%nat -> Forall jitter_ok (deref st surv) ->
  exists st' surv', cluster_loop fuel st surv = Some (st', surv') /\
    surv' `sublist_of` surv /\ (ClusterMin <= length surv' \/ surv' = surv)%nat /\
    length st' = length st /\
    (forall B (g : SourceState -> B) i, (forall v s, g (set_status v s) = g s) ->
      g (src st' i) = g (src st i)) /\
    cluster_done (deref st' surv').
Proof.
  revert st surv. induction fuel as [|fuel IH]; intros st surv Hf Hj; cbn [cluster_loop]; [lia|].
  assert (length (deref st surv) = length surv) as Hld by (unfold deref; apply length_fmap).
  destruct (ClusterMin <? length surv)%nat eqn:E; bool_step.
  2:{ exists st, surv. repeat split; auto. left. lia. }
  destruct (cluster_scan (deref st surv)) as [[mi ms] mj] eqn:Es.
  destruct (flt ms mj) eqn:El; [exists st, surv; repeat split; auto; right; eauto|].
  pose proof (cluster_scan_inv _ _ _ _ Es) as [Hk _].
  destruct mi as [k|]; [|pose proof (cluster_scan_no_panic _ _ _ Hj Es); congruence].
  rewrite Hld in Hk.
  set (st1 := upd st (nth k surv 0%nat) _). set (surv1 := take k surv ++ drop (S k) surv).
  assert (Hsub : surv1 `sublist_of` surv) by apply sublist_remove_nth.
  assert (Hlen : length surv1 = (length surv - 1)%nat).
  { unfold surv1. rewrite length_app, length_take, length_drop. lia. }
  destruct (IH st1 surv1) as (st' & surv' & Hc & Hs & Hm & Hl & Hg & Hd).
  - lia.
  - unfold deref in *. rewrite Forall_fmap, Forall_forall in *. intros i Hi.
    specialize (Hj i (elem_of_sublist _ _ _ Hi Hsub)). unfold jitter_ok, compose in *.
    unfold st1. by rewrite (src_upd_field Jitter).
  - exists st', surv'. split; [done|]. split; [by etrans|]. unfold ClusterMin in *.
    split; [left; destruct Hm as [Hm| ->]; lia|]. split; [by rewrite Hl; apply length_upd|].
    split; [|done].
    intros B g i Hi. rewrite (Hg B g i Hi). apply src_upd_field. intros s. apply (Hi StatusOutlier).
Qed.

(** Who leaves is marked an outlier, and nobody else is touched. *)
Lemma cluster_loop_status fuel st surv st' surv' :
  cluster_loop fuel st surv = Some (st', surv') ->
  NoDup surv -> Forall (fun i => (i < length st)%nat) surv ->
  forall j, src st' j =
    if bool_decide (j ∈ surv /\ j ∉ surv') then set_status StatusOutlier (src st j) else src st j.
Proof.
  revert st surv. induction fuel as [|fuel IH]; intros st surv; cbn [cluster_loop]; [done|].
  assert (forall j, bool_decide (j ∈ surv /\ j ∉ surv) = false) as Hsame
    by (intros j; apply bool_decide_eq_false; tauto).
  destruct (ClusterMin <? length surv)%nat; [|intros [= <- <-] _ _ j; by rewrite Hsame].
  destruct (cluster_scan (deref st surv)) as [[mi ms] mj] eqn:Es.
  destruct (flt ms mj); [intros [= <- <-] _ _ j; by rewrite Hsame|].
  pose proof (cluster_scan_inv _ _ _ _ Es) as [Hk _]. destruct mi as [k|]; [|done].
  unfold deref in Hk. rewrite length_fmap in Hk.
  pose proof (perm_remove_nth k surv 0%nat Hk) as Hp. set (x := nth k surv 0%nat) in *.
  set (surv1 := take k surv ++ drop (S k) surv) in *. intros Hc Hnd Hr j.
  rewrite Hp in Hnd. apply NoDup_cons in Hnd as [Hx Hnd].
  assert (Hin : j ∈ surv <-> j = x \/ j ∈ surv1) by (rewrite Hp; apply elem_of_cons).
  rewrite Forall_forall in Hr.
  assert (Hr1 : forall i, i ∈ surv1 -> i ∈ surv) by (intros i Hi; rewrite Hp; by apply list_elem_of_further).
  assert (Hxl : (x < length st)%nat) by (apply Hr; rewrite Hp; apply list_elem_of_here).
  specialize (IH _ _ Hc Hnd).
  rewrite IH by (apply Forall_forall; intros i Hi; rewrite length_upd; auto).
  pose proof (cluster_loop_sub _ _ _ _ _ Hc) as Hsub.
  destruct (decide (j = x)) as [->|Hne].
  - rewrite bool_decide_eq_false_2 by tauto.
    rewrite bool_decide_eq_true_2.
    + by rewrite src_upd_eq.
    + split; [by apply Hin; left|]. intros H. apply Hx. by eapply elem_of_sublist.
  - rewrite src_upd_ne by done. f_equal. case_bool_decide; case_bool_decide; tauto.
Qed.

(** ** What selection leaves unchanged

    After the first loop, selection writes only the outcome fields of a
    source; [fixed] erases them. *)
Definition fixed (s : SourceState) : SourceState :=
  s <| Status := StatusUnreachable |> <| DisagreesWith := ""%string |>
    <| Disagreement := fzero |> <| everSurvived := false |>.

Definition same_store (st st' : store) : Prop :=
  length st' = length st /\ forall i, fixed (src st' i) = fixed (src st i).

#[export] Instance same_store_refl : Reflexive same_store.
Proof. by split. Qed.
#[export] Instance same_store_trans : Transitive same_store.
Proof. intros a b c [H1 H2] [H3 H4]. split; [congruence|]. intros i. by rewrite H4. Qed.

Lemma same_field {B} (g : SourceState -> B) st st' i :
  (forall s, g (fixed s) = g s) -> same_store st st' -> g (src st' i) = g (src st i).
Proof. intros Hg [_ H]. rewrite <- (Hg (src st' i)), H. apply Hg. Qed.

Lemma same_upd st i f : (forall s, fixed (f s) = fixed s) -> same_store st (upd st i f).
Proof. intros Hf. split; [apply length_upd|]. intros j. by apply (src_upd_field fixed). Qed.

Lemma same_upd_all st ids f : (forall s, fixed (f s) = fixed s) -> same_store st (upd_all st ids f).
Proof. intros Hf. split; [apply length_upd_all|]. intros j. by apply (src_upd_all_field fixed). Qed.

#[export] Hint Resolve same_upd same_upd_all same_store_refl : carillon.

Lemma intersect_spec st c sel st' surv sel' :
  intersect st c sel = (st', surv, sel') ->
  same_store st st' /\ surv `sublist_of` c /\
  Survivors sel' = Survivors sel /\ sel_Events sel' = sel_Events sel /\ System sel' = System sel.
Proof.
  unfold intersect. intros H. case_in H.
  { inv H. repeat split; try done. apply sublist_nil_l. }
  destruct (find_interval _ _ _ _) as [[low high]|]; injection H as <- <- <-.
  - split; [by apply same_upd_all|]. split; [|done]. apply sublist_filter.
  - split; [by apply same_upd_all|]. split; [apply sublist_nil_l|done].
Qed.

Lemma cluster_spec st surv st' surv' :
  Forall jitter_ok (deref st surv) ->
  cluster st surv = Some (st', surv') ->
  same_store st st' /\ surv' `sublist_of` surv.
Proof.
  intros Hj H. destruct (cluster_loop_spec (S (length surv)) st surv (le_n _) Hj)
    as (st1 & surv1 & Hc & Hs & _ & Hl & Hg & _).
  unfold cluster in H. rewrite Hc in H. injection H as <- <-.
  split; [|done]. split; [done|]. intros i. by apply Hg.
Qed.

(** A PPS agrees when some numbering source is within its own uncertainty. *)
Definition near (now : f64) (p n : SourceState) : bool :=
  fle (fabs (fsub (Current n) (Current p)))
    (RootDistance n now + fmax (of_Z 4 * Jitter n) ppsAgreementFloor)%f64.

Lemma ppsAgreement_near p numbering now closest name :
  snd (ppsAgreement_from p numbering now closest name) = existsb (near now p) numbering.
Proof.
  revert closest name. induction numbering as [|n rest IH]; intros closest name; [done|].
  cbn [ppsAgreement_from existsb]. unfold near at 1.
  destruct (fle _ (_ + _)%f64); [done|]. case_goal; apply IH.
Qed.

Lemma same_near now st st' p n :
  same_store st st' -> near now (src st' p) (src st' n) = near now (src st p) (src st n).
Proof.
  intros Hs. unfold near. rewrite !(same_field Current st st') by done.
  rewrite (same_field Jitter st st') by done.
  by rewrite (same_field (fun s => RootDistance s now) st st').
Qed.

Lemma qualify_pps_spec now numbering pps st survivors st' survivors' :
  qualify_pps now st numbering pps survivors = (st', survivors') ->
  same_store st st' /\
  exists q, survivors' = survivors ++ q /\ q `sublist_of` pps /\
    forall p, p ∈ q -> exists n, n ∈ numbering /\ near now (src st p) (src st n) = true.
Proof.
  revert st survivors. induction pps as [|p pps IH]; intros st survivors; cbn [qualify_pps].
  - intros [= <- <-]. split; [done|]. exists []. rewrite app_nil_r. repeat split; try done.
    intros p Hp. by apply elem_of_nil in Hp.
  - destruct (ppsAgreement (src st p) (deref st numbering) now) as [[name delta] agrees] eqn:E.
    set (st1 := upd st p _).
    assert (Hs1 : same_store st st1) by by apply same_upd.
    assert (Hs2 : forall v, same_store st (upd st1 p (fun s => s <| Status := v |>))).
    { intros v. etrans; [exact Hs1|]. by apply same_upd. }
    destruct agrees; intros H; destruct (IH _ _ H) as (Hs & q & -> & Hq & Hn).
    + split; [by etrans; [apply Hs2|]|]. exists (p :: q). rewrite <- app_assoc. split; [done|].
      split; [by apply sublist_skip|]. intros p' Hp'. apply elem_of_cons in Hp' as [->|Hp'].
      * pose proof (ppsAgreement_near (src st p) (deref st numbering) now finf ""%string) as Hx.
        unfold ppsAgreement in E. rewrite E in Hx. simpl in Hx. symmetry in Hx.
        apply existsb_exists in Hx as (s & Hin & Hnear). unfold deref in Hin.
        apply list_elem_of_In, list_elem_of_fmap in Hin as (n & -> & Hn'). eauto.
      * destruct (Hn p' Hp') as (n & Hn1 & Hn2). exists n. split; [done|].
        by rewrite <- (same_near now st _ p' n (Hs2 StatusSurvivor)).
    + split; [by etrans; [apply Hs2|]|]. exists q. split; [done|].
      split; [by apply sublist_cons|]. intros p' Hp'.
      destruct (Hn p' Hp') as (n & Hn1 & Hn2). exists n. split; [done|].
      by rewrite <- (same_near now st _ p' n (Hs2 StatusFalseticker)).
Qed.

(** [preferred] finds a preferred survivor when there is one. *)
Lemma preferred_spec st surv :
  match preferred st surv with
  | Some i => i ∈ surv /\ Prefer (Opts (src st i)) = true /\
      ((exists j, j ∈ surv /\ PPS (Opts (src st j)) = true /\ Prefer (Opts (src st j)) = true) ->
       PPS (Opts (src st i)) = true)
  | None => forall j, j ∈ surv -> Prefer (Opts (src st j)) = false
  end.
Proof.
  unfold preferred.
  destruct (find (fun i => PPS _ && _) surv) as [i|] eqn:E1.
  - apply find_some in E1 as [Hin Hb]. bool_step. by rewrite list_elem_of_In.
  - pose proof (find_none _ _ E1) as Hno.
    destruct (find (fun i => Prefer (Opts (src st i))) surv) as [i|] eqn:E2.
    + apply find_some in E2 as [Hin Hb]. rewrite list_elem_of_In. repeat split; try done.
      intros (j & Hj & Hp & Hq). apply list_elem_of_In in Hj. specialize (Hno j Hj). simpl in Hno.
      rewrite Hp, Hq in Hno. done.
    + intros j Hj. apply list_elem_of_In in Hj. apply (find_none _ _ E2 j Hj).
Qed.

(** ** Eligibility *)

(** What makes a source a candidate at [now]. *)
Record eligible (now : f64) (opts : SelectOptions) (s : SourceState) : Prop := {
  el_reach : Reach s <> 0;
  el_select : NoSelect (Opts s) = false;
  el_valid : Valid s = true;
  el_fresh : fgt (fsub now (Updated s)) (freshnessDeadline (Poll s)) = false;
  el_leap : Leap s <> LeapUnsync;
  el_stratum : Stratum s < 16;
  el_distance : fge (RootDistance s now) MaxDistance = false;
  el_loop : timingLoop s (LocalRefIDs opts) = false
}.

(** The first loop writes these fields only. *)
Lemma refresh_fields now opts s :
  let s' := refresh now opts s in
  Name s' = Name s /\ Opts s' = Opts s /\ Reach s' = Reach s /\ Valid s' = Valid s /\
  Leap s' = Leap s /\ Stratum s' = Stratum s /\ Distance s' = RootDistance s now /\
  stale s' = Valid s && fgt (fsub now (Updated s)) (freshnessDeadline (Poll s)) /\
  timingLoop s' (LocalRefIDs opts) = timingLoop s (LocalRefIDs opts) /\
  Jitter s' = Jitter s /\ Offset s' = Offset s /\ usedAt s' = usedAt s /\ At s' = At s.
Proof.
  destruct opts as [local [f|]], s as [? [? ? ? [] ?] ? ? []]; repeat split.
Qed.

Lemma prepare_src now opts s :
  let s' := prep_src (prepare now opts s) in
  fixed s' = fixed ((refresh now opts s) <| inLoop := inLoop s' |>).
Proof.
  unfold prepare, prep_src. cbn zeta. generalize (refresh now opts s). intros r.
  destruct (candidate r) as [ok st].
  destruct (ok && timingLoop r _), r as [? [? ? ? [] ?] ? ? ? ? ? ? ? ? ? ? ? ? ? ? ? ? ? ? ? ? ? ? ? ? ? ? ? [] ? ?];
    destruct ok; reflexivity.
Qed.

Lemma prepare_ok now opts s : prep_ok (prepare now opts s) = true -> eligible now opts s.
Proof.
  destruct (refresh_fields now opts s) as (_ & Ho & Hr & Hv & Hl & Hs & Hd & Hst & Ht & _).
  unfold prepare, prep_ok. cbn zeta.
  destruct (candidate (refresh now opts s)) as [ok st] eqn:Ec.
  assert (Hok : ok = true -> Reach s <> 0 /\ NoSelect (Opts s) = false /\ stale (refresh now opts s) = false /\
    Valid s = true /\ Leap s <> LeapUnsync /\ Stratum s < 16 /\ fge (RootDistance s now) MaxDistance = false).
  { unfold candidate in Ec. rewrite Hr, Ho, Hv, Hl, Hs, Hd in Ec. intros ->.
    repeat (case_in Ec; [done|]). repeat bool_step. repeat split; try done; lia. }
  intros H. destruct ok.
  - destruct (Hok eq_refl) as (H1 & H2 & H3 & H4 & H5 & H6 & H7).
    rewrite Hst, H4 in H3. rewrite Ht in H. simpl in H3.
    destruct (timingLoop s (LocalRefIDs opts)) eqn:El; cbn [andb] in H.
    + destruct (negb _); done.
    + by constructor.
  - cbn [andb] in H. destruct (inLoop _); done.
Qed.

Lemma accepted_ok ps pps i :
  i ∈ accepted ps pps -> exists p, ps !! i = Some p /\ prep_ok p = true /\ PPS (Opts (prep_src p)) = pps.
Proof.
  unfold accepted. rewrite list_elem_of_filter. intros [H _].
  destruct (ps !! i) as [p|]; [|done]. bool_step. exists p. repeat split; try done.
  by apply eqb_prop.
Qed.

Lemma accepted_eligible now opts sources pps i :
  i ∈ accepted (prepared now opts sources) pps ->
  eligible now opts (src sources i) /\ PPS (Opts (src sources i)) = pps /\ (i < length sources)%nat.
Proof.
  intros Hi. apply accepted_ok in Hi as (p & Hp & Hok & Hpps).
  unfold prepared in Hp. rewrite list_lookup_fmap in Hp.
  destruct (sources !! i) as [s|] eqn:Es; [|done]. injection Hp as <-.
  rewrite (src_lookup _ _ _ Es). split; [by apply prepare_ok|].
  split; [|by eapply lookup_lt_Some].
  rewrite <- Hpps. pose proof (prepare_src now opts s) as Hf.
  destruct (refresh_fields now opts s) as (_ & Ho & _).
  apply (f_equal Opts) in Hf. cbn in Hf. by rewrite Hf, Ho.
Qed.

(** ** The outcome *)

Lemma upd_field_in st i (f : SourceState -> SourceState) (v : SelectStatus) :
  (i < length st)%nat -> (forall s, Status (f s) = v) -> Status (src (upd st i f) i) = v.
Proof. intros Hi Hf. by rewrite src_upd_eq. Qed.

(** The preference order among survivors: a preferred PPS, else a preferred
    source, else the best ranked. *)
Definition prefers (st : store) (surv : list nat) (sys : nat) : Prop :=
  (forall j, j ∈ surv -> Prefer (Opts (src st j)) = true -> Prefer (Opts (src st sys)) = true) /\
  (forall j, j ∈ surv -> PPS (Opts (src st j)) = true -> Prefer (Opts (src st j)) = true ->
     PPS (Opts (src st sys)) = true /\ Prefer (Opts (src st sys)) = true) /\
  (Prefer (Opts (src st sys)) = false -> head surv = Some sys).

Lemma prefers_default st first surv :
  prefers st (first :: surv) (default first (preferred st (first :: surv))).
Proof.
  pose proof (preferred_spec st (first :: surv)) as H. unfold prefers.
  destruct (preferred st (first :: surv)) as [i|]; simpl.
  - destruct H as (Hi & Hp & Hq). rewrite Hp. repeat split; try done. apply Hq. eauto.
  - repeat split; try done.
    + intros j Hj Hpj. rewrite (H j Hj) in Hpj. done.
    + rewrite (H j) in H2 by done. done.
    + rewrite (H j) in H2 by done. done.
Qed.

Lemma same_prefers st st' surv sys :
  same_store st st' -> prefers st surv sys -> prefers st' surv sys.
Proof.
  intros Hs. unfold prefers. intros (H1 & H2 & H3).
  assert (Ho : forall i, Opts (src st' i) = Opts (src st i)) by (intros; by apply (same_field Opts)).
  setoid_rewrite Ho. done.
Qed.

Lemma select_finish_spec now k pc anys st sel survivors pps st' sel' :
  System sel = None -> Forall (fun i => (i < length st)%nat) (survivors ++ pps) ->
  select_finish now k pc anys st sel survivors pps = (st', sel') ->
  same_store st st' /\
  (forall i, i ∈ Survivors sel' -> i ∈ survivors \/
     i ∈ pps /\ exists n, n ∈ survivors /\ is_numbering (src st n) = true /\
                near now (src st i) (src st n) = true) /\
  match System sel' with
  | None => Survivors sel' = [] \/ Z.of_nat (length (Survivors sel')) < k
  | Some i => i ∈ Survivors sel' /\ k <= Z.of_nat (length (Survivors sel')) /\
      Status (src st' i) = StatusSystem /\ prefers st' (Survivors sel') i
  end.
Proof.
  intros Hsys Hrange. unfold select_finish.
  set (numbering := filter _ survivors).
  set (qual := negb (length numbering =? 0)%nat).
  destruct (if qual then qualify_pps now st numbering pps survivors else (st, survivors))
    as [st1 surv1] eqn:E1.
  assert (Hq : same_store st st1 /\ exists q, surv1 = survivors ++ q /\ q `sublist_of` pps /\
    forall p, p ∈ q -> exists n, n ∈ numbering /\ near now (src st p) (src st n) = true).
  { destruct qual; [by apply qualify_pps_spec in E1|]. injection E1 as <- <-. split; [done|].
    exists []. rewrite app_nil_r. repeat split; [apply sublist_nil_l|].
    intros p Hp. by apply elem_of_nil in Hp. }
  destruct Hq as (Hs1 & q & Hq & Hqs & Hqn).
  set (surv := sort_stable _ surv1).
  set (st2 := upd_all st1 surv _). set (st3 := upd_all st2 surv _).
  assert (Hs3 : same_store st st3).
  { etrans; [exact Hs1|].
    assert (Hs2 : same_store st1 st2) by (unfold st2; by apply same_upd_all).
    etrans; [exact Hs2|]. unfold st3. by apply same_upd_all. }
  assert (Hin : forall i, i ∈ surv -> i ∈ survivors \/
     i ∈ pps /\ exists n, n ∈ survivors /\ is_numbering (src st n) = true /\
                near now (src st i) (src st n) = true).
  { intros i Hi. unfold surv in Hi. rewrite elem_of_sort_stable, Hq, elem_of_app in Hi.
    destruct Hi as [Hi|Hi]; [by left|right]. split; [by eapply elem_of_sublist|].
    destruct (Hqn i Hi) as (n & Hn & Hnear). unfold numbering in Hn.
    apply list_elem_of_filter in Hn as [Hn1 Hn2]. eauto. }
  clearbody st3. destruct surv as [|first rest] eqn:Esurv.
  { intros [= <- <-]. cbn. rewrite Hsys. repeat split; try apply Hs3; auto. }
  destruct (_ <? k) eqn:Ek.
  { intros [= <- <-]. cbn -[length Z.of_nat]. rewrite Hsys. repeat split; try apply Hs3; auto.
    right. by bool_step. }
  set (sys := default first (preferred st3 (first :: rest))).
  destruct (combine _ _) as [off jit]. intros [= <- <-].
  cbn [Survivors System]. bool_step.
  assert (Hs4 : same_store st3 (upd st3 sys (fun s => s <| Status := StatusSystem |>))) by by apply same_upd.
  assert (Hsin : sys ∈ first :: rest).
  { unfold sys. pose proof (preferred_spec st3 (first :: rest)) as Hp.
    destruct (preferred st3 _) as [i|]; simpl; [apply Hp|apply list_elem_of_here]. }
  assert (Hlt : (sys < length st3)%nat).
  { destruct Hs3 as [-> _]. rewrite Forall_forall in Hrange. apply Hrange, elem_of_app.
    destruct (Hin sys Hsin) as [?|[? _]]; auto. }
  split; [by etrans|]. split; [exact Hin|]. cbn -[length Z.of_nat].
  split; [done|]. split; [done|]. split; [by apply upd_field_in|].
  apply (same_prefers st3); [done|]. apply prefers_default.
Qed.

Lemma src_prepared now opts sources i :
  (i < length sources)%nat ->
  src (prep_src <$> prepared now opts sources) i = prep_src (prepare now opts (src sources i)).
Proof.
  intros Hi. destruct (lookup_lt_is_Some_2 sources i Hi) as [s Hs].
  rewrite (src_lookup _ _ _ Hs). apply src_lookup. unfold prepared.
  by rewrite !list_lookup_fmap, Hs.
Qed.

Lemma prepare_jitter now opts s : Jitter (prep_src (prepare now opts s)) = Jitter s.
Proof.
  pose proof (prepare_src now opts s) as H. apply (f_equal Jitter) in H.
  destruct (refresh_fields now opts s) as (_ & _ & _ & _ & _ & _ & _ & _ & _ & Hj & _).
  rewrite <- Hj. exact H.
Qed.

Lemma prepared_jitter_ok now opts sources ids :
  Forall jitter_ok sources -> Forall (fun i => (i < length sources)%nat) ids ->
  Forall jitter_ok (deref (prep_src <$> prepared now opts sources) ids).
Proof.
  intros Hj Hr. unfold deref. rewrite Forall_fmap. eapply Forall_impl; [exact Hr|].
  intros i Hi. cbv beta in Hi. unfold compose, jitter_ok.
  rewrite src_prepared, prepare_jitter by done.
  destruct (lookup_lt_is_Some_2 sources i Hi) as [s Hs]. rewrite (src_lookup _ _ _ Hs).
  rewrite Forall_forall in Hj. apply (Hj s). by eapply list_elem_of_lookup_2.
Qed.

Lemma accepted_range now opts sources pps :
  Forall (fun i => (i < length sources)%nat) (accepted (prepared now opts sources) pps).
Proof. apply Forall_forall. intros i Hi. by apply accepted_eligible in Hi as (_ & _ & ?). Qed.

Lemma length_prepared now opts sources :
  length (prep_src <$> prepared now opts sources) = length sources.
Proof. unfold prepared. by rewrite !length_fmap. Qed.

(** The stages of [SelectAt] put together: it returns, with the stores of the
    intermediate steps equal up to the outcome fields. *)
Lemma SelectAt_spec sources now k opts :
  Forall jitter_ok sources ->
  exists st' sel st1 surv, SelectAt sources now k opts = Some (st', sel) /\
    let st0 := prep_src <$> prepared now opts sources in
    same_store st0 st1 /\ same_store st0 st' /\
    surv `sublist_of` accepted (prepared now opts sources) false /\
    (forall i, i ∈ Survivors sel -> i ∈ surv \/
       i ∈ accepted (prepared now opts sources) true /\
       exists n, n ∈ surv /\ is_numbering (src st1 n) = true /\ near now (src st1 i) (src st1 n) = true) /\
    match System sel with
    | None => Survivors sel = [] \/ Z.of_nat (length (Survivors sel)) < k
    | Some i => i ∈ Survivors sel /\ k <= Z.of_nat (length (Survivors sel)) /\
        Status (src st' i) = StatusSystem /\ prefers st' (Survivors sel) i
    end.
Proof.
  intros Hj. unfold SelectAt. cbn zeta.
  set (ps := prepared now opts sources). set (st0 := prep_src <$> ps).
  destruct (intersect st0 (accepted ps false) _) as [[sta surva] sela] eqn:Ei.
  pose proof (intersect_spec _ _ _ _ _ _ Ei) as (Hsa & Hsub & _ & _ & Hsys).
  assert (Hra : Forall (fun i => (i < length sources)%nat) surva).
  { apply Forall_forall. intros i Hi. pose proof (accepted_range now opts sources false) as Hr.
    rewrite Forall_forall in Hr. apply Hr. by eapply elem_of_sublist. }
  assert (Hja : Forall jitter_ok (deref sta surva)).
  { pose proof (prepared_jitter_ok now opts sources surva Hj Hra) as H.
    unfold deref in *. rewrite Forall_fmap in *. eapply Forall_impl; [exact H|].
    intros i. unfold compose, jitter_ok. by rewrite (same_field Jitter st0 sta). }
  destruct (cluster_loop_spec (S (length surva)) sta surva (le_n _) Hja) as (stc & survc & Ec & _).
  unfold cluster at 1. rewrite Ec.
  pose proof (cluster_spec _ _ _ _ Hja Ec) as [Hsc Hsubc].
  destruct (select_finish now k _ _ stc sela survc (accepted ps true)) as [st' sel] eqn:Ef.
  assert (Hlen : length stc = length sources).
  { destruct Hsc as [-> _], Hsa as [-> _]. apply length_prepared. }
  eapply select_finish_spec in Ef; [destruct Ef as (Hsf & Hin & Hm)|by rewrite Hsys|].
  2: { rewrite Hlen. apply Forall_app. split; [|apply accepted_range].
    apply Forall_forall. intros i Hi. rewrite Forall_forall in Hra. apply Hra. by eapply elem_of_sublist. }
  exists st', sel, stc, survc. split; [done|].
  assert (Hs0 : same_store st0 stc) by by etrans.
  split; [done|]. split; [by etrans|]. split; [by etrans|]. split; [exact Hin|exact Hm].
Qed.

(** Four agreeing servers, one 0.5 s away and a preferred pulse. *)
Definition example_source (name : string) (o : Options) (ms : Z) : SourceState :=
  (newSource name o) <| Reach := 1 |> <| Poll := 6 |> <| Valid := true |>
    <| Updated := of_Z 100 |> <| At := of_Z 100 |> <| Offset := lit ms 1000 |>
    <| Delay := lit 10 1000 |> <| Dispersion := lit 5 1000 |> <| Jitter := lit 1 10000 |>
    <| Stratum := 2 |> <| Current := lit ms 1000 |> <| Distance := lit 10 1000 |>
    <| LeapKnown := true |> <| LiveLeap := LeapInsert |> <| LeapUpdated := of_Z 100 |>.

Definition example_sources : store :=
  let server := mkOptions false false true false false in
  [ example_source "a" server 1; example_source "b" server 2; example_source "c" server 500;
    example_source "d" server 3; example_source "e" server 4;
    example_source "pps" (mkOptions true false false true false) 1 ].

(** Claim C21: the intersection never follows a minority.  For candidates with
    numeric interval endpoints, [intersect] either rejects every candidate as
    a falseticker, or keeps strictly more than half of them: exactly those
    whose correctness interval overlaps the reported interval, the others
    being marked falsetickers. *)
Theorem intersect_majority st c sel st' surv sel' :
  numeric_edges (deref st c) -> Forall (fun i => (i < length st)%nat) c ->
  intersect st c sel = (st', surv, sel') ->
  (surv = [] /\ forall i, i ∈ c -> Status (src st' i) = StatusFalseticker) \/
  ((length c < 2 * length surv)%nat /\
   forall i, i ∈ c -> (i ∈ surv <-> overlaps (Low sel') (High sel') (src st i) = true) /\
                      (i ∉ surv -> Status (src st' i) = StatusFalseticker)).
Proof.
  intros Hnum Hr. unfold intersect. case_goal.
  { intros [= <- <- <-]. left. split; [done|]. destruct c; [|done].
    intros i Hi. by apply elem_of_nil in Hi. }
  rewrite Forall_forall in Hr.
  destruct (find_interval _ _ _ _) as [[lo hi]|] eqn:E; intros [= <- <- <-].
  - right. split.
    + assert (Hlen : length c = length (deref st c)) by (unfold deref; by rewrite length_fmap).
      rewrite Hlen in E. apply interval_majority in E; [|done].
      unfold deref in E at 2. rewrite zcount_fmap in E.
      pose proof (zcount_filter (overlaps lo hi ∘ src st) c). unfold compose in *. lia.
    + intros i Hi. rewrite list_elem_of_filter. cbn [Low High]. split; [tauto|].
      intros Hn. apply (src_upd_all_set Status); [done| |by apply Hr].
      apply list_elem_of_filter. split; [|done]. apply not_true_is_false. tauto.
  - left. split; [done|]. intros i Hi. by apply (src_upd_all_set Status); [| |apply Hr].
Qed.

Lemma intersect_majority_witness :
  let '(_, surv, sel') := intersect example_sources [0; 1; 2; 3; 4]%nat zeroSelection in
  surv = [0; 1; 3; 4]%nat /\ (5 < 2 * length surv)%nat.
Proof.
  destruct (intersect example_sources [0; 1; 2; 3; 4]%nat zeroSelection) as [[st' surv] sel'] eqn:E.
  assert (Hs : surv = [0; 1; 3; 4]%nat).
  { replace surv with (intersect example_sources [0; 1; 2; 3; 4]%nat zeroSelection).1.2
      by (rewrite E; reflexivity). vm_compute. reflexivity. }
  split; [exact Hs|].
  destruct (intersect_majority example_sources [0; 1; 2; 3; 4]%nat zeroSelection st' surv sel')
    as [[H _]|[H _]]; [| |exact E| |exact H].
  - unfold numeric_edges. vm_compute. repeat constructor.
  - vm_compute. repeat constructor.
  - rewrite Hs in H. discriminate H.
Defined.

(** Claim C23: clustering ends and keeps a quorum.  Unless a survivor's jitter is
    at or below -1 s, the loop of [cluster] stops without a panic: three
    survivors are left, or the farthest of them is closer to the others than
    the least jitter.  What it keeps is a subsequence of its input of at least
    three sources, or the whole input; every source it drops is marked an
    outlier, and no other source is changed. *)
Theorem cluster_quorum st surv :
  Forall jitter_ok (deref st surv) -> NoDup surv -> Forall (fun i => (i < length st)%nat) surv ->
  exists st' surv', cluster st surv = Some (st', surv') /\
    surv' `sublist_of` surv /\ ((ClusterMin <= length surv')%nat \/ surv' = surv) /\
    ((length surv' <= ClusterMin)%nat \/
     exists farthest maxSel minJit,
       cluster_scan (deref st' surv') = (farthest, maxSel, minJit) /\ flt maxSel minJit = true) /\
    forall j, src st' j =
      if bool_decide (j ∈ surv /\ j ∉ surv') then (src st j) <| Status := StatusOutlier |> else src st j.
Proof.
  intros Hj Hnd Hr. destruct (cluster_loop_spec (S (length surv)) st surv (le_n _) Hj)
    as (st' & surv' & Hc & Hs & Hm & _ & _ & Hd).
  exists st', surv'. do 3 (split; [done|]).
  split; [|exact (cluster_loop_status _ _ _ _ _ Hc Hnd Hr)].
  unfold cluster_done, deref in Hd. by rewrite length_fmap in Hd.
Qed.

Lemma cluster_quorum_witness :
  exists st' surv', cluster example_sources [0; 1; 3; 4]%nat = Some (st', surv') /\
    surv' `sublist_of` [0; 1; 3; 4]%nat.
Proof.
  destruct (cluster_quorum example_sources [0; 1; 3; 4]%nat) as (st' & surv' & H & Hs & _).
  - apply jitter_ok_forallb. vm_compute. reflexivity.
  - apply (bool_decide_unpack _). vm_compute. exact I.
  - repeat (apply List.Forall_cons; [apply Nat.ltb_lt; vm_compute; reflexivity|]). constructor.
  - exists st', surv'. split; [exact H|exact Hs].
Defined.

(** Claim C20: selection is sound.  [SelectAt] returns, and when it declares a system
    source it is a survivor carrying StatusSystem, the quorum is met and it
    obeys the preference order; every survivor is reachable, not
    noselect, valid, fresh, leap-synchronized, below stratum 16, within the
    distance limit and not in a timing loop; a PPS survivor is vouched for by
    a numbering candidate inside the guard band that agrees with it. *)
Theorem select_sound sources now k opts :
  Forall jitter_ok sources ->
  exists st' sel, SelectAt sources now k opts = Some (st', sel) /\
  (forall i, i ∈ Survivors sel -> eligible now opts (src sources i)) /\
  (forall i, i ∈ Survivors sel -> PPS (Opts (src sources i)) = true ->
     exists n, PPS (Opts (src sources n)) = false /\ eligible now opts (src sources n) /\
       is_numbering (src st' n) = true /\ near now (src st' i) (src st' n) = true) /\
  (forall i, System sel = Some i -> i ∈ Survivors sel /\
     k <= Z.of_nat (length (Survivors sel)) /\ Status (src st' i) = StatusSystem /\
     prefers st' (Survivors sel) i).
Proof.
  intros Hj. destruct (SelectAt_spec sources now k opts Hj)
    as (st' & sel & st1 & surv & Heq & Hs1 & Hs' & Hsub & Hin & Hm).
  exists st', sel. split; [done|].
  assert (Hel : forall i, i ∈ surv -> eligible now opts (src sources i) /\ PPS (Opts (src sources i)) = false).
  { intros i Hi. pose proof (elem_of_sublist _ _ _ Hi Hsub) as Ha.
    by apply accepted_eligible in Ha as (? & ? & _). }
  split; [|split].
  - intros i Hi. destruct (Hin i Hi) as [H|[H _]]; [by apply Hel|].
    by apply accepted_eligible in H as (? & _).
  - intros i Hi Hp. destruct (Hin i Hi) as [H|(_ & n & Hn & Hnum & Hnear)].
    + destruct (Hel i H) as [_ Hf]. congruence.
    + destruct (Hel n Hn) as [He Hf]. exists n. repeat split; try done; try apply He.
      * rewrite (same_field is_numbering st1 st'); [done|done|].
        destruct Hs1 as [L1 F1], Hs' as [L2 F2]. split; [congruence|]. intros j. by rewrite F2, F1.
      * rewrite (same_near now st1 st'); [done|].
        destruct Hs1 as [L1 F1], Hs' as [L2 F2]. split; [congruence|]. intros j. by rewrite F2, F1.
  - intros i Hi. rewrite Hi in Hm. exact Hm.
Qed.

Lemma select_sound_witness :
  exists st' sel, SelectAt example_sources (of_Z 110) 1 (mkSelectOptions [] None) = Some (st', sel) /\
  System sel = Some 5%nat /\ Status (src st' 5) = StatusSystem.
Proof.
  destruct (select_sound example_sources (of_Z 110) 1 (mkSelectOptions [] None))
    as (st' & sel & E & _ & _ & Hsys); [apply jitter_ok_forallb; vm_compute; reflexivity|].
  exists st', sel. split; [exact E|].
  assert (H5 : System sel = Some 5%nat).
  { assert (H : Some (System sel) = System ∘ snd <$>
      SelectAt example_sources (of_Z 110) 1 (mkSelectOptions [] None)) by (rewrite E; reflexivity).
    revert H. vm_compute. congruence. }
  split; [exact H5|]. apply (Hsys 5%nat H5).
Defined.

(** A leap warning needs a majority.  [majorityLeap] returns an indication
    only when strictly more than half of the fresh, leap-capable survivors
    that know it carry that very value; without such agreement (in particular
    without any voter) it returns LeapUnsync. *)
Theorem majority_leap surv now v :
  let voters := filter (fun s => votes_leap now s = true) surv in
  majorityLeap surv now = v ->
  (v = LeapUnsync /\
   forall i, 0 <= i < 3 -> (2 * length (filter (fun s => LiveLeap s = i) voters) <= length voters)%nat) \/
  (0 <= v < 3 /\ (length voters < 2 * length (filter (fun s => LiveLeap s = v) voters))%nat).
Proof.
  intros voters. unfold majorityLeap. fold voters.
  repeat case_goal; intros <-; repeat bool_step; unfold LeapNone, LeapInsert, LeapDelete, LeapUnsync in *.
  - right. split; [lia|]. lia.
  - right. split; [lia|]. lia.
  - right. split; [lia|]. lia.
  - left. split; [done|]. intros i Hi.
    assert (i = 0 \/ i = 1 \/ i = 2) as [->|[->| ->]] by lia; lia.
Qed.

Lemma majority_leap_witness :
  majorityLeap example_sources (of_Z 110) = LeapInsert /\
  let voters := filter (fun s => votes_leap (of_Z 110) s = true) example_sources in
  (length voters < 2 * length (filter (fun s => LiveLeap s = LeapInsert) voters))%nat.
Proof.
  assert (E : majorityLeap example_sources (of_Z 110) = LeapInsert) by (vm_compute; reflexivity).
  split; [exact E|].
  destruct (majority_leap example_sources (of_Z 110) LeapInsert E) as [[H _]|[_ H]];
    [discriminate H|exact H].
Defined.
