(* ===== verification/Loop.v ===== *)
(** * internal/discipline/loop.go: the clock discipline loop

    A type-II phase-locked loop driving the kernel through a frequency word.
    Every method of [Loop] is a function from the loop state to the new state
    and its result; the actions are returned for the caller to apply. *)

From stdpp Require Import base list numbers sorting.
From Stdlib Require Import Lia ZArith.
From S2P Require Import Prelude Float64 GoTime NtpTime Measurement.

Local Open Scope Z_scope.

Definition DefaultTimeConstant : f64 := of_Z 4.
Definition spikeGate : f64 := of_Z 3.
Definition jitterAverage : f64 := of_Z 8.
Definition maxTickInterval : f64 := of_Z 2.
Definition slewLogSpan : f64 := of_Z 4096.

Definition e6 : f64 := of_Z 1000000.
Definition em6 : f64 := lit 1 1000000.
Definition em9 : f64 := lit 1 1000000000.
Definition em12 : f64 := lit 1 1000000000000.

Record LoopConfig : Type := mkLoopConfig {
  StepThreshold : f64;
  StepLimit : Z;
  Panic : f64;
  PanicAtStartup : bool;
  MaxSlewPPM : f64;
  lc_Precision : f64;
  TimeConstant : f64;
  FreqMeasure : f64
}.

#[export] Instance LoopConfig_eta : Eta LoopConfig := fun c =>
  mkLoopConfig (StepThreshold c) (StepLimit c) (Panic c) (PanicAtStartup c) (MaxSlewPPM c)
    (lc_Precision c) (TimeConstant c) (FreqMeasure c).

Inductive Action : Type :=
| ActionSetFrequency (ppm : f64)
| ActionStep (seconds : f64)
| ActionResetFilters.

Record UpdateResult : Type := mkUpdateResult {
  u_Actions : list Action;
  Stepped : bool;
  Ignored : bool;
  Deferred : bool;
  PanicRefused : bool;
  Mu : f64
}.

#[export] Instance UpdateResult_eta : Eta UpdateResult := fun u =>
  mkUpdateResult (u_Actions u) (Stepped u) (Ignored u) (Deferred u) (PanicRefused u) (Mu u).

Definition zeroResult : UpdateResult := mkUpdateResult [] false false false false fzero.

Record slewPoint : Type := mkSlewPoint { sp_at : f64; sp_cum : f64 }.

Record Loop : Type := mkLoop {
  l_cfg : LoopConfig;
  Freq : f64;
  FreqKnown : bool;
  Pending : f64;
  l_Jitter : f64;
  Updates : Z;
  Steps : Z;
  lastUpdate : f64;
  lastOffset : f64;
  tau : f64;
  applied : f64;
  appliedBase : f64;
  haveApply : bool;
  chargeFrom : f64;
  haveTick : bool;
  skipJitter : bool;
  firstTime : f64;
  firstOffset : f64;
  slewed : f64;
  slewLog : list slewPoint;
  cumSlew : f64
}.

#[export] Instance Loop_eta : Eta Loop := fun l =>
  mkLoop (l_cfg l) (Freq l) (FreqKnown l) (Pending l) (l_Jitter l) (Updates l) (Steps l)
    (lastUpdate l) (lastOffset l) (tau l) (applied l) (appliedBase l) (haveApply l)
    (chargeFrom l) (haveTick l) (skipJitter l) (firstTime l) (firstOffset l) (slewed l)
    (slewLog l) (cumSlew l).

Definition clampFreq (f : f64) : f64 := fmax (fopp MaxFrequency) (fmin MaxFrequency f).

Definition NewLoop (cfg : LoopConfig) (freq : f64) (known : bool) : Loop :=
  let cfg := if fle (TimeConstant cfg) fzero
             then cfg <| TimeConstant := DefaultTimeConstant |> else cfg in
  {| l_cfg := cfg; Freq := clampFreq freq; FreqKnown := known; Pending := fzero;
     l_Jitter := lc_Precision cfg; Updates := 0; Steps := 0; lastUpdate := fzero;
     lastOffset := fzero; tau := fmul (TimeConstant cfg) (ldexp1 6); applied := fzero;
     appliedBase := fzero; haveApply := false; chargeFrom := fzero; haveTick := false;
     skipJitter := false; firstTime := fzero; firstOffset := fzero; slewed := fzero;
     slewLog := []; cumSlew := fzero |}.

Definition stepAllowed (l : Loop) : bool :=
  if StepLimit (l_cfg l) <? 0 then true
  else if StepLimit (l_cfg l) =? 0 then false
  else Updates l <? StepLimit (l_cfg l).

(** [elapsed]: the seconds to charge, and the new accounting point. *)
Definition elapsed (l : Loop) (now : f64) : Loop * f64 :=
  let dt :=
    if haveTick l then
      let d := fsub now (chargeFrom l) in
      if flt d fzero then fzero else if fgt d maxTickInterval then maxTickInterval else d
    else fzero in
  (l <| chargeFrom := now |> <| haveTick := true |>, dt).

(** The loop that drops history older than [cut]: the first point is dropped
    while the second one is not newer than [cut]. *)
Fixpoint drop_old (cut : f64) (log : list slewPoint) : list slewPoint :=
  match log with
  | _ :: (q :: _) as rest => if fle (sp_at q) cut then drop_old cut rest else log
  | _ => log
  end.

Definition noteSlew (l : Loop) (now moved : f64) : Loop :=
  match last (slewLog l) with
  | Some p =>
      if flt now (sp_at p) then l
      else
        let cum := fadd (cumSlew l) moved in
        l <| cumSlew := cum |>
          <| slewLog := drop_old (fsub now slewLogSpan) (slewLog l ++ [mkSlewPoint now cum]) |>
  | None =>
      let cum := fadd (cumSlew l) moved in
      l <| cumSlew := cum |>
        <| slewLog := drop_old (fsub now slewLogSpan) [mkSlewPoint now cum] |>
  end.

Definition chargeApplied (l : Loop) (now : f64) : Loop :=
  let '(l, dt) := elapsed l now in
  let '(l, moved) :=
    if haveApply l && fgt dt fzero then
      let ran := fmul (fsub (applied l) (appliedBase l)) em6 in
      if negb (feq ran fzero) then
        let moved := fmul ran dt in
        let pending := fsub (Pending l) moved in
        let pending := if flt (fabs pending) em12 then fzero else pending in
        (l <| Pending := pending |> <| slewed := fadd (slewed l) moved |>, moved)
      else (l, fzero)
    else (l, fzero) in
  noteSlew l now moved.

Definition setApplied (l : Loop) (total : f64) : Loop :=
  l <| applied := total |> <| appliedBase := Freq l |> <| haveApply := true |>.

(** [step]: the phase state is reset, the frequency kept. *)
Definition step (l : Loop) (offset now : f64) : Loop * UpdateResult :=
  let l := l <| Steps := Steps l + 1 |> <| Updates := Updates l + 1 |> in
  let '(l, _) := elapsed l now in
  let l := l <| appliedBase := applied l |> <| slewLog := [] |> <| cumSlew := fzero |>
    <| Pending := fzero |> <| lastOffset := fzero |> <| lastUpdate := now |>
    <| firstTime := now |> <| firstOffset := fzero |> <| slewed := fzero |>
    <| skipJitter := true |> in
  (l, mkUpdateResult [ActionStep offset; ActionResetFilters] true false false false fzero).

(** The jitter update of an accepted offset. *)
Definition update_jitter (l : Loop) (offset : f64) : Loop :=
  let d := fmax (fabs (fsub offset (lastOffset l))) (lc_Precision (l_cfg l)) in
  if Updates l =? 0 then
    l <| l_Jitter := fmax (lc_Precision (l_cfg l)) (fdiv d (fsqrt jitterAverage)) |>
  else if skipJitter l then l <| skipJitter := false |>
  else
    let j2 := fmul (l_Jitter l) (l_Jitter l) in
    l <| l_Jitter := fsqrt (fadd j2 (fdiv (fsub (fmul d d) j2) jitterAverage)) |>.

(** The frequency update of an accepted offset. *)
Definition update_freq (l : Loop) (offset abs tau' mu now : f64) : Loop :=
  if Updates l =? 0 then
    l <| firstTime := now |> <| firstOffset := offset |> <| slewed := fzero |>
  else if negb (FreqKnown l) && fgt (FreqMeasure (l_cfg l)) fzero then
    let elapsed := fsub now (firstTime l) in
    if fge elapsed (FreqMeasure (l_cfg l)) then
      l <| Freq := clampFreq (Freq l + (offset - firstOffset l + slewed l) / elapsed * e6)%f64 |>
        <| FreqKnown := true |>
    else l
  else if fgt abs (MaxSlewPPM (l_cfg l) * em6 * tau')%f64 then l
  else
    let mu := fmin mu AllanIntercept in
    l <| Freq := clampFreq (Freq l + offset * mu / (of_Z 4 * tau' * tau') * e6)%f64 |>
      <| FreqKnown := true |>.

(** [Update]. *)
Definition Loop_Update (l : Loop) (offset : f64) (poll : Z) (now : f64) (synced mayStep : bool)
  : Loop * UpdateResult :=
  let abs := fabs offset in
  if fgt abs (Panic (l_cfg l)) then
    if negb ((Updates l =? 0) && PanicAtStartup (l_cfg l)) || negb (stepAllowed l)
    then (l, zeroResult <| PanicRefused := true |>)
    else if negb mayStep then (l, zeroResult <| Deferred := true |>)
    else step l offset now
  else if fgt abs (StepThreshold (l_cfg l)) && stepAllowed l then
    if negb mayStep then (l, zeroResult <| Deferred := true |>)
    else step l offset now
  else
    let mu := if 0 <? Updates l then fsub now (lastUpdate l) else fzero in
    let u := zeroResult <| Mu := mu |> in
    let tau' := fmul (TimeConstant (l_cfg l)) (ldexp1 poll) in
    if synced && (0 <? Updates l)
       && fgt (fabs (fsub offset (lastOffset l))) (fmul spikeGate (l_Jitter l))
       && flt mu (fmul (of_Z 2) (ldexp1 poll))
    then (l, u <| Ignored := true |>)
    else
      let l := update_jitter l offset in
      let l := update_freq l offset abs tau' mu now in
      let l := chargeApplied l now in
      (l <| Pending := offset |> <| lastOffset := offset |> <| lastUpdate := now |>
         <| tau := tau' |> <| Updates := Updates l + 1 |>, u).

(** [Tick]. *)
Definition Loop_Tick (l : Loop) (now : f64) : Loop * list Action :=
  let l := chargeApplied l now in
  if feq (Pending l) fzero then
    if negb (haveApply l) || negb (feq (applied l) (Freq l))
    then (setApplied l (Freq l), [ActionSetFrequency (Freq l)])
    else (l, [])
  else
    let adj := fdiv (Pending l) (tau l) in
    let maxSlew := fmul (MaxSlewPPM (l_cfg l)) em6 in
    let adj := fmax (fopp maxSlew) (fmin maxSlew adj) in
    let adj := if flt (fabs (Pending l)) em9 then Pending l else adj in
    let total := clampFreq (fadd (Freq l) (fmul adj e6)) in
    (setApplied l total, [ActionSetFrequency total]).

(** The binary search of [cumulativeSlew]. *)
Fixpoint bsearch (fuel : nat) (log : list slewPoint) (t : f64) (lo hi : nat) : nat * nat :=
  match fuel with
  | O => (lo, hi)
  | S fuel' =>
      if (lo + 1 <? hi)%nat then
        let mid := ((lo + hi) / 2)%nat in
        if fle (sp_at (nth mid log (mkSlewPoint fzero fzero))) t
        then bsearch fuel' log t mid hi
        else bsearch fuel' log t lo mid
      else (lo, hi)
  end.

Definition slew_at (log : list slewPoint) (i : nat) : slewPoint := nth i log (mkSlewPoint fzero fzero).

Definition cumulativeSlew (l : Loop) (t : f64) : f64 :=
  let log := slewLog l in
  if (length log =? 0)%nat then fzero
  else
    let first := slew_at log 0 in
    let last := slew_at log (length log - 1) in
    if fle t (sp_at first) then sp_cum first
    else if fge t (sp_at last) then
      if negb (haveApply l) then sp_cum last
      else (sp_cum last + (applied l - appliedBase l) * em6 * (t - sp_at last))%f64
    else
      let '(lo, hi) := bsearch (length log) log t 0 (length log - 1) in
      let a := slew_at log lo in
      let b := slew_at log hi in
      if feq (sp_at b) (sp_at a) then sp_cum b
      else (sp_cum a + (sp_cum b - sp_cum a) * (t - sp_at a) / (sp_at b - sp_at a))%f64.

Definition Loop_AppliedSince (l : Loop) (at_ now : f64) : f64 :=
  if fle now at_ then fzero
  else fsub (cumulativeSlew l now) (cumulativeSlew l at_).

Definition Loop_Applied (l : Loop) : f64 * bool := (applied l, haveApply l).

(** ** Frames *)

(** The fields accounting does not touch. *)
Definition steering (l : Loop) :=
  (l_cfg l, Freq l, FreqKnown l, (Updates l, Steps l), (applied l, appliedBase l, haveApply l),
   (lastUpdate l, lastOffset l, tau l)).

Lemma elapsed_frame l now : steering (fst (elapsed l now)) = steering l.
Proof. reflexivity. Qed.

Lemma noteSlew_frame l now moved :
  steering (noteSlew l now moved) = steering l /\ Pending (noteSlew l now moved) = Pending l.
Proof. unfold noteSlew. repeat case_goal; done. Qed.

Lemma chargeApplied_frame l now : steering (chargeApplied l now) = steering l.
Proof.
  unfold chargeApplied. destruct (elapsed l now) as [l1 dt] eqn:E.
  rewrite <- (elapsed_frame l now), E. cbn [fst]. clear E.
  destruct (haveApply l1 && fgt dt fzero); [destruct (negb _)|]; by rewrite (proj1 (noteSlew_frame _ _ _)).
Qed.

Lemma update_jitter_frame l offset : steering (update_jitter l offset) = steering l.
Proof. unfold update_jitter. repeat case_goal; done. Qed.

(** The frequency update keeps everything but the frequency and its flag. *)
Lemma update_freq_frame l offset abs tau' mu now :
  let l' := update_freq l offset abs tau' mu now in
  l_cfg l' = l_cfg l /\ Updates l' = Updates l /\ Steps l' = Steps l /\
  applied l' = applied l /\ appliedBase l' = appliedBase l /\ haveApply l' = haveApply l /\
  slewLog l' = slewLog l /\
  (Freq l' = Freq l \/ exists x, Freq l' = clampFreq x).
Proof.
  cbn zeta. unfold update_freq. repeat case_goal; repeat split; eauto.
Qed.

(** ** The slew history *)

(** The binary search keeps its bracket and closes it: with enough fuel the
    two indices are adjacent, the lower point is not after [t] and the upper
    one is. *)
Lemma bsearch_bracket fuel log t lo hi a b :
  bsearch fuel log t lo hi = (a, b) -> (hi - lo <= fuel)%nat -> (lo < hi)%nat ->
  fle (sp_at (slew_at log lo)) t = true -> fle (sp_at (slew_at log hi)) t = false ->
  b = S a /\ (lo <= a)%nat /\ (b <= hi)%nat /\
  fle (sp_at (slew_at log a)) t = true /\ fle (sp_at (slew_at log b)) t = false.
Proof.
  revert lo hi. induction fuel as [|fuel IH]; intros lo hi; cbn [bsearch].
  - lia.
  - destruct (lo + 1 <? hi)%nat eqn:E; bool_step.
    + intros H Hf Hlt Hl Hh.
      assert (lo < (lo + hi) / 2 < hi)%nat as Hm.
      { split; [apply Nat.div_le_lower_bound; lia|apply Nat.Div0.div_lt_upper_bound; lia]. }
      fold (slew_at log ((lo + hi) / 2)) in H.
      destruct (fle (sp_at (slew_at log ((lo + hi) / 2))) t) eqn:Em.
      * destruct (IH _ _ H) as (? & ? & ? & ? & ?); try done; try lia. repeat split; try done; lia.
      * destruct (IH _ _ H) as (? & ? & ? & ? & ?); try done; try lia. repeat split; try done; lia.
    + intros [= <- <-] _ Hlt Hl Hh. repeat split; try done; lia.
Qed.

(** The recorded times never decrease. *)
Definition log_ordered (log : list slewPoint) : Prop :=
  forall i p q, log !! i = Some p -> log !! S i = Some q -> flt (sp_at q) (sp_at p) = false.

Lemma drop_old_suffix cut log : exists pre, log = pre ++ drop_old cut log.
Proof.
  induction log as [|p log [pre IH]]; [by exists []|]. cbn [drop_old].
  destruct log as [|q log]; [by exists []|]. destruct (fle (sp_at q) cut); [|by exists []].
  exists (p :: pre). cbn [app]. by rewrite <- IH.
Qed.

Lemma log_ordered_suffix pre log : log_ordered (pre ++ log) -> log_ordered log.
Proof.
  intros H i p q Hp Hq. apply (H (length pre + i)%nat).
  - by rewrite lookup_app_r, Nat.add_comm, Nat.add_sub by lia.
  - rewrite lookup_app_r by lia. by replace (S (length pre + i) - length pre)%nat with (S i) by lia.
Qed.

Lemma log_ordered_snoc log x :
  log_ordered log -> (forall p, last log = Some p -> flt (sp_at x) (sp_at p) = false) ->
  log_ordered (log ++ [x]).
Proof.
  intros H Hl i p q Hp Hq. pose proof (lookup_lt_Some _ _ _ Hq) as Hi. rewrite length_app in Hi. cbn in Hi.
  rewrite lookup_app_l in Hp by lia.
  destruct (decide (S i < length log)%nat) as [Hlt|Hge].
  - rewrite lookup_app_l in Hq by lia. eauto.
  - rewrite lookup_app_r in Hq by lia. replace (S i - length log)%nat with O in Hq by lia.
    injection Hq as <-. apply Hl. rewrite last_lookup. by replace (pred (length log)) with i by lia.
Qed.

Lemma drop_old_ordered cut log : log_ordered log -> log_ordered (drop_old cut log).
Proof.
  intros H. destruct (drop_old_suffix cut log) as [pre Hp].
  apply (log_ordered_suffix pre). by rewrite <- Hp.
Qed.

Lemma noteSlew_ordered l now moved :
  log_ordered (slewLog l) -> log_ordered (slewLog (noteSlew l now moved)).
Proof.
  intros H. unfold noteSlew. destruct (last (slewLog l)) as [p|] eqn:El.
  - destruct (flt now (sp_at p)) eqn:E; [done|]. apply drop_old_ordered, log_ordered_snoc; [done|].
    intros q Hq. rewrite El in Hq. by injection Hq as <-.
  - apply drop_old_ordered. intros i p q Hp Hq. by destruct i.
Qed.

Lemma chargeApplied_ordered l now :
  log_ordered (slewLog l) -> log_ordered (slewLog (chargeApplied l now)).
Proof.
  intros H. unfold chargeApplied, elapsed. repeat case_goal; by apply noteSlew_ordered.
Qed.

(** ** What an update does *)

(** The six outcomes of [Update]. *)
Lemma Loop_Update_cases l offset poll now synced mayStep l' u :
  Loop_Update l offset poll now synced mayStep = (l', u) ->
  (l' = l /\ u_Actions u = [] /\ Stepped u = false /\
     (PanicRefused u = true \/ Deferred u = true \/ Ignored u = true)) \/
  (Stepped u = true /\ (l', u) = step l offset now /\ stepAllowed l = true /\ mayStep = true /\
     (fgt (fabs offset) (StepThreshold (l_cfg l)) = true \/
      fgt (fabs offset) (Panic (l_cfg l)) = true) /\
     (fgt (fabs offset) (Panic (l_cfg l)) = true -> Updates l = 0 /\ PanicAtStartup (l_cfg l) = true)) \/
  (u_Actions u = [] /\ Stepped u = false /\ PanicRefused u = false /\ Deferred u = false /\
     Ignored u = false /\ Pending l' = offset /\ Updates l' = Updates l + 1 /\ Steps l' = Steps l /\
     l_cfg l' = l_cfg l /\ applied l' = applied l /\ appliedBase l' = appliedBase l /\
     haveApply l' = haveApply l /\ (log_ordered (slewLog l) -> log_ordered (slewLog l')) /\
     (Freq l' = Freq l \/ exists x, Freq l' = clampFreq x)).
Proof.
  unfold Loop_Update.
  destruct (fgt (fabs offset) (Panic (l_cfg l))) eqn:Ep.
  - destruct (negb ((Updates l =? 0) && _) || _) eqn:E1; [intros [= <- <-]; left; repeat split; first [by left | by right; left | by right; right | done]|].
    repeat bool_step. destruct mayStep; intros Hres; [|injection Hres as <- <-; left; repeat split; first [by left | by right; left | by right; right | done]].
    right; left. change (step l offset now = (l', u)) in Hres. rewrite Hres. repeat split; auto.
    unfold step in Hres. injection Hres as _ <-. done.
  - destruct (fgt (fabs offset) (StepThreshold (l_cfg l)) && stepAllowed l) eqn:E1.
    + bool_step. destruct mayStep; intros Hres; [|injection Hres as <- <-; left; repeat split; first [by left | by right; left | by right; right | done]].
      right; left. change (step l offset now = (l', u)) in Hres. rewrite Hres. repeat split; auto; try congruence.
      unfold step in Hres. injection Hres as _ <-. done.
    + destruct (_ && flt _ (fmul (of_Z 2) _)); [intros [= <- <-]; left; repeat split; auto|].
      intros [= <- <-]. right; right.
      set (l2 := update_freq _ _ _ _ _ _).
      pose proof (chargeApplied_frame l2 now) as Hc. unfold steering in Hc. injection Hc as C1 C2 _ C3 C4 C5 C6 C7 _ _ _.
      destruct (update_freq_frame (update_jitter l offset) offset (fabs offset)
        (fmul (TimeConstant (l_cfg l)) (ldexp1 poll))
        (if 0 <? Updates l then fsub now (lastUpdate l) else fzero) now) as (F1 & F2 & F3 & F4 & F5 & F6 & F8 & F7).
      fold l2 in F1, F2, F3, F4, F5, F6, F7, F8.
      pose proof (update_jitter_frame l offset) as Hj. unfold steering in Hj. injection Hj as J1 J2 _ J3 J4 J5 J6 J7 _ _ _.
      cbn [u_Actions Stepped PanicRefused Deferred Ignored].
      split; [done|]. split; [done|]. split; [done|]. split; [done|]. split; [done|]. split; [done|].
      split; [change (Updates (chargeApplied l2 now) + 1 = Updates l + 1); congruence|].
      split; [change (Steps (chargeApplied l2 now) = Steps l); congruence|].
      split; [change (l_cfg (chargeApplied l2 now) = l_cfg l); congruence|].
      split; [change (applied (chargeApplied l2 now) = applied l); congruence|].
      split; [change (appliedBase (chargeApplied l2 now) = appliedBase l); congruence|].
      split; [change (haveApply (chargeApplied l2 now) = haveApply l); congruence|].
      split; [intros Ho; apply chargeApplied_ordered; rewrite F8; unfold update_jitter; by repeat case_goal|].
      change (Freq (chargeApplied l2 now) = Freq l \/ exists x, Freq (chargeApplied l2 now) = clampFreq x).
      rewrite C2. destruct F7 as [->|[x ->]]; [left; congruence|right; eauto].
Qed.

(** ** Reachable loops *)

Inductive loop_op : Type :=
| OpUpdate (offset : f64) (poll : Z) (now : f64) (synced mayStep : bool)
| OpTick (now : f64).

Definition loop_exec (l : Loop) (op : loop_op) : Loop * list Action :=
  match op with
  | OpUpdate offset poll now synced mayStep =>
      let '(l', u) := Loop_Update l offset poll now synced mayStep in (l', u_Actions u)
  | OpTick now => Loop_Tick l now
  end.

(** The loops a configuration can reach from a start frequency. *)
Inductive loop_reach (cfg : LoopConfig) : Loop -> Prop :=
| reach_new freq known : loop_reach cfg (NewLoop cfg freq known)
| reach_op l op : loop_reach cfg l -> loop_reach cfg (fst (loop_exec l op)).

(** A frequency word the kernel accepts, unless it is a NaN. *)
Definition word_ok (x : f64) : Prop :=
  is_nan x = true \/ (fle (fopp MaxFrequency) x = true /\ fle x MaxFrequency = true).

Lemma fclamp_nan lo hi x : is_nan x = true -> is_inf lo = false -> is_inf hi = false ->
  is_nan (fmax lo (fmin hi x)) = true.
Proof.
  intros Hx Hl Hh. destruct x; try done. destruct hi; try done; destruct lo; done.
Qed.

Lemma clampFreq_ok f : word_ok (clampFreq f).
Proof.
  unfold word_ok, clampFreq. destruct (is_nan f) eqn:E.
  - left. by apply fclamp_nan.
  - right. by apply fclamp_bounds.
Qed.

Lemma Loop_Tick_cases l now l' acts :
  Loop_Tick l now = (l', acts) ->
  l_cfg l' = l_cfg l /\ Freq l' = Freq l /\ Updates l' = Updates l /\ Steps l' = Steps l /\
  slewLog l' = slewLog (chargeApplied l now) /\
  (acts = [] \/ acts = [ActionSetFrequency (Freq l)] \/ exists x, acts = [ActionSetFrequency (clampFreq x)]).
Proof.
  unfold Loop_Tick. pose proof (chargeApplied_frame l now) as Hc. unfold steering in Hc.
  injection Hc as C1 C2 _ C3 C4 _ _ _ _ _ _.
  set (m := chargeApplied l now) in *. clearbody m.
  repeat case_goal; intros [= <- <-]; cbn -[clampFreq]; repeat split; try congruence; rewrite ?C2; eauto.
Qed.

(** The invariant of reachable loops. *)
Record loop_inv (cfg : LoopConfig) (l : Loop) : Prop := {
  li_limit : StepLimit (l_cfg l) = StepLimit cfg;
  li_freq : word_ok (Freq l);
  li_log : log_ordered (slewLog l);
  li_count : 0 <= Steps l <= Updates l;
  li_budget : 0 <= StepLimit cfg -> Steps l <= StepLimit cfg
}.

Lemma NewLoop_inv cfg freq known : loop_inv cfg (NewLoop cfg freq known).
Proof.
  unfold NewLoop. constructor; cbn [l_cfg Freq Steps Updates]; try lia.
  - by case_goal.
  - apply clampFreq_ok.
  - intros i p q Hp. by destruct i.
Qed.

Lemma loop_exec_inv cfg l op : loop_inv cfg l -> loop_inv cfg (fst (loop_exec l op)).
Proof.
  intros [H1 H2 H5 H3 H4]. destruct op as [offset poll now synced mayStep|now]; cbn [loop_exec].
  - destruct (Loop_Update l offset poll now synced mayStep) as [l' u] eqn:E. cbn [fst].
    destruct (Loop_Update_cases _ _ _ _ _ _ _ _ E) as [(-> & _)|[(_ & Hs & Ha & _)|H]].
    + by constructor.
    + unfold step in Hs. injection Hs as -> _.
      constructor; cbn -[Z.add Z.le]; try done; try lia; try (intros i p q Hp; by destruct i).
      intros Hn. unfold stepAllowed in Ha. rewrite H1 in Ha.
      destruct (StepLimit cfg <? 0) eqn:E1; [bool_step; lia|].
      destruct (StepLimit cfg =? 0) eqn:E2; [done|]. bool_step. specialize (H4 Hn). lia.
    + destruct H as (_ & _ & _ & _ & _ & _ & HU & HS & HC & _ & _ & _ & HL & HF).
      constructor; rewrite ?HC, ?HU, ?HS; auto; try lia.
      destruct HF as [->|[x ->]]; [done|apply clampFreq_ok].
  - destruct (Loop_Tick l now) as [l' acts] eqn:E. cbn [fst].
    destruct (Loop_Tick_cases _ _ _ _ E) as (HC & HF & HU & HS & HL & _).
    constructor; rewrite ?HC, ?HF, ?HU, ?HS, ?HL; auto using chargeApplied_ordered.
Qed.

Lemma loop_reach_inv cfg l : loop_reach cfg l -> loop_inv cfg l.
Proof. induction 1; [apply NewLoop_inv|by apply loop_exec_inv]. Qed.


(** ** Bounds *)

(** The interval charged lies between nothing and [maxTickInterval]. *)
Lemma elapsed_bounds l now :
  is_nan (snd (elapsed l now)) = true \/
  (fle fzero (snd (elapsed l now)) = true /\ fle (snd (elapsed l now)) maxTickInterval = true).
Proof.
  unfold elapsed; cbn [snd]. destruct (haveTick l); [|right; by vm_compute].
  destruct (flt _ fzero) eqn:E1; [right; by vm_compute|].
  destruct (fgt _ maxTickInterval) eqn:E2; [right; by vm_compute|].
  destruct (is_nan (fsub now (chargeFrom l))) eqn:E3; [by left|right].
  set (d := fsub now (chargeFrom l)) in *. clearbody d.
  assert (is_nan fzero = false) by done. assert (is_nan maxTickInterval = false) by done.
  rewrite !fle_nlt by done. unfold fgt in E2. by rewrite E1, E2.
Qed.

(** ** Claims *)

(** The step policy of [Update].  The clock is stepped only where
    the configuration still allows a step and the caller allows one now, for
    an offset above the step threshold or the panic threshold, and beyond the
    panic threshold only as the first update of a daemon told to accept it;
    the step asks for exactly the observed offset and a filter reset, keeps
    the frequency, clears the residual and the slew history, so that nothing
    is charged against the new time line.  A refused, deferred or ignored
    observation leaves the whole loop as it was; any other replaces the
    residual by the observed offset.  Nothing but a step issues an action. *)
Theorem loop_step_policy l offset poll now synced mayStep l' u :
  Loop_Update l offset poll now synced mayStep = (l', u) ->
  if Stepped u then
    stepAllowed l = true /\ mayStep = true /\
    (fgt (fabs offset) (StepThreshold (l_cfg l)) = true \/
     fgt (fabs offset) (Panic (l_cfg l)) = true) /\
    (fgt (fabs offset) (Panic (l_cfg l)) = true ->
     Updates l = 0 /\ PanicAtStartup (l_cfg l) = true) /\
    u_Actions u = [ActionStep offset; ActionResetFilters] /\
    Freq l' = Freq l /\ Pending l' = fzero /\ Steps l' = Steps l + 1 /\ Updates l' = Updates l + 1 /\
    (forall at_ t, Loop_AppliedSince l' at_ t = fzero)
  else
    u_Actions u = [] /\ Steps l' = Steps l /\
    (if PanicRefused u || Deferred u || Ignored u then l' = l
     else Pending l' = offset /\ Updates l' = Updates l + 1).
Proof.
  intros H. destruct (Loop_Update_cases _ _ _ _ _ _ _ _ H) as [(-> & Ha & -> & Hf)|[(Hs & Hst & H1 & H2 & H3 & H4)|Hc]].
  - split; [done|]. split; [done|]. destruct Hf as [->|[->| ->]]; by rewrite ?orb_true_r.
  - rewrite Hs. unfold step in Hst. injection Hst as -> ->.
    repeat (split; [done|]). intros at_ t. unfold Loop_AppliedSince. by destruct (fle t at_).
  - destruct Hc as (Ha & -> & -> & -> & -> & HP & HU & HS & _). done.
Qed.

(** A configuration with the defaults of the daemon: steps above 128 ms for
    the first three updates, panic above 1000 s unless at startup. *)
Definition cfg0 : LoopConfig :=
  mkLoopConfig (lit 128 1000) 3 (of_Z 1000) true (of_Z 500) em6 (of_Z 4) (of_Z 300).

Lemma loop_step_policy_witness :
  let '(l', u) := Loop_Update (NewLoop cfg0 fzero false) (of_Z 5) 6 (of_Z 100) false true in
  Stepped u = true /\ u_Actions u = [ActionStep (of_Z 5); ActionResetFilters] /\ Steps l' = 1.
Proof.
  destruct (Loop_Update _ _ _ _ _ _) as [l' u] eqn:E.
  pose proof (loop_step_policy _ _ _ _ _ _ _ _ E) as H.
  assert (Stepped u = true) as Hs by (vm_compute in E; injection E as _ <-; reflexivity).
  rewrite Hs in H. destruct H as (_ & _ & _ & _ & H1 & _ & _ & H2 & _). auto.
Defined.

(** Over any sequence of updates and ticks the number of steps never
    exceeds a non-negative step limit. *)
Theorem loop_step_budget cfg l :
  loop_reach cfg l -> 0 <= StepLimit cfg -> 0 <= Steps l <= StepLimit cfg.
Proof. intros H Hl. destruct (loop_reach_inv _ _ H). split; [lia|auto]. Qed.

Lemma loop_step_budget_witness :
  let l := fst (loop_exec (NewLoop cfg0 fzero false) (OpUpdate (of_Z 5) 6 (of_Z 100) false true)) in
  0 <= Steps l <= 3.
Proof.
  apply (loop_step_budget cfg0); [|by vm_compute].
  apply reach_op, reach_new.
Defined.

(** Every frequency word a reachable loop issues is within the 500 ppm the kernel
    accepts, or is not a number: those the engine refuses. *)
Theorem loop_word_bounded cfg l op x :
  loop_reach cfg l -> In (ActionSetFrequency x) (snd (loop_exec l op)) -> word_ok x.
Proof.
  intros Hr. pose proof (li_freq _ _ (loop_reach_inv _ _ Hr)) as Hf.
  destruct op as [offset poll now synced mayStep|now]; cbn [loop_exec].
  - destruct (Loop_Update _ _ _ _ _ _) as [l' u] eqn:E. cbn [snd].
    destruct (Loop_Update_cases _ _ _ _ _ _ _ _ E) as [(_ & -> & _)|[(_ & Hst & _)|(-> & _)]]; [done| |done].
    unfold step in Hst. injection Hst as _ ->. by intros [?|[?|[]]].
  - destruct (Loop_Tick l now) as [l' acts] eqn:E. cbn [snd].
    destruct (Loop_Tick_cases _ _ _ _ E) as (_ & _ & _ & _ & _ & [->|[->|[y ->]]]); [done| |].
    + by intros [[= <-]|[]].
    + intros [[= <-]|[]]. apply clampFreq_ok.
Qed.

Definition word_of (acts : list Action) : f64 :=
  match acts with ActionSetFrequency x :: _ => x | _ => fzero end.

(** A start frequency of 900 ppm is clamped, and the slew on top of it too. *)
Definition fast_loop : Loop :=
  fst (loop_exec (NewLoop cfg0 (of_Z 900) true) (OpUpdate (lit 1 10) 6 (of_Z 100) false false)).

Lemma loop_word_bounded_witness :
  let acts := snd (loop_exec fast_loop (OpTick (of_Z 101))) in
  acts = [ActionSetFrequency MaxFrequency] /\ word_ok (word_of acts).
Proof.
  cbv zeta.
  assert (snd (loop_exec fast_loop (OpTick (of_Z 101))) = [ActionSetFrequency MaxFrequency]) as E
    by (vm_compute; reflexivity).
  split; [exact E|].
  apply (loop_word_bounded cfg0 fast_loop (OpTick (of_Z 101))).
  - apply (reach_op cfg0 _ _ (reach_new cfg0 (of_Z 900) true)).
  - rewrite E. left. reflexivity.
Defined.

(** The phase transient [Tick] adds to the base frequency never
    exceeds the configured slew rate: with a residual of a nanosecond or more
    the word is the base plus an adjustment within plus or minus
    [MaxSlewPPM], clamped to the kernel's range. *)
Theorem tick_slew_bounded l now :
  let m := chargeApplied l now in
  let maxSlew := fmul (MaxSlewPPM (l_cfg l)) em6 in
  feq (Pending m) fzero = false -> flt (fabs (Pending m)) em9 = false ->
  is_nan (fdiv (Pending m) (tau m)) = false -> fle (fopp maxSlew) maxSlew = true ->
  exists adj, fle (fopp maxSlew) adj = true /\ fle adj maxSlew = true /\
    snd (Loop_Tick l now) = [ActionSetFrequency (clampFreq (fadd (Freq l) (fmul adj e6)))] /\
    Loop_Applied (fst (Loop_Tick l now)) = (clampFreq (fadd (Freq l) (fmul adj e6)), true).
Proof.
  cbn zeta. intros Hp H9 Hn Hm.
  pose proof (chargeApplied_frame l now) as Hc. unfold steering in Hc. injection Hc as C1 C2 _ _ _ _ _ _ _ _ _.
  unfold Loop_Tick. set (m := chargeApplied l now) in *. clearbody m. rewrite Hp, H9, C1, C2.
  set (M := fmul (MaxSlewPPM (l_cfg l)) em6) in *.
  exists (fmax (fopp M) (fmin M (fdiv (Pending m) (tau m)))).
  destruct (fclamp_bounds (fopp M) M (fdiv (Pending m) (tau m))) as [? ?]; try done.
Qed.

(** A loop with 100 ms to slew off at 500 ppm. *)
Definition pending_loop : Loop :=
  fst (loop_exec (NewLoop cfg0 (of_Z 10) true) (OpUpdate (lit 1 10) 6 (of_Z 100) false false)).

Lemma tick_slew_bounded_witness :
  exists adj, fle adj (fmul (of_Z 500) em6) = true /\
    snd (Loop_Tick pending_loop (of_Z 101)) =
      [ActionSetFrequency (clampFreq (fadd (Freq pending_loop) (fmul adj e6)))].
Proof.
  destruct (tick_slew_bounded pending_loop (of_Z 101)) as (adj & _ & H1 & H2 & _);
    [vm_compute; reflexivity|vm_compute; reflexivity|vm_compute; reflexivity|vm_compute; reflexivity|].
  exists adj. split; [exact H1|exact H2].
Defined.

(** Interpolating the slew history is exact bracketing.  For a time
    strictly inside the history the binary search of [cumulativeSlew] ends on
    two adjacent recorded points, the first not after the time and the second
    after it, and the answer is the linear interpolation between them. *)
Theorem slew_interpolates l t :
  fle t (sp_at (slew_at (slewLog l) 0)) = false ->
  fge t (sp_at (slew_at (slewLog l) (length (slewLog l) - 1))) = false ->
  is_nan t = false -> Forall (fun p => is_nan (sp_at p) = false) (slewLog l) ->
  slewLog l <> [] ->
  exists i a b, slewLog l !! i = Some a /\ slewLog l !! S i = Some b /\
    fle (sp_at a) t = true /\ flt t (sp_at b) = true /\
    cumulativeSlew l t =
      (sp_cum a + (sp_cum b - sp_cum a) * (t - sp_at a) / (sp_at b - sp_at a))%f64.
Proof.
  intros Hlo Hhi Ht Hn Hne. unfold cumulativeSlew.
  set (log := slewLog l) in *. clearbody log.
  assert (forall i, (i < length log)%nat -> log !! i = Some (slew_at log i)) as Hnth.
  { intros i Hi. unfold slew_at. rewrite nth_lookup. by destruct (lookup_lt_is_Some_2 log i Hi) as [x ->]. }
  assert (forall i, (i < length log)%nat -> is_nan (sp_at (slew_at log i)) = false) as Hnan.
  { intros i Hi. apply (Forall_lookup_1 _ _ _ _ Hn (Hnth i Hi)). }
  assert (0 < length log)%nat as Hlen by (destruct log; [done|cbn; lia]).
  destruct (length log =? 0)%nat eqn:E0; [bool_step; lia|]. rewrite Hlo, Hhi.
  assert (fle (sp_at (slew_at log 0)) t = true) as Hl.
  { pose proof (Hnan O ltac:(lia)) as H0. clear - Hlo Ht H0. ford. }
  assert (fle (sp_at (slew_at log (length log - 1))) t = false) as Hh.
  { pose proof (Hnan (length log - 1)%nat ltac:(lia)) as H0. clear - Hhi Ht H0. ford. }
  assert (0 < length log - 1)%nat as Hlt.
  { destruct (decide (length log - 1 = 0)%nat) as [E|]; [rewrite E in Hh; congruence|lia]. }
  destruct (bsearch _ _ _ _ _) as [lo hi] eqn:Eb.
  destruct (bsearch_bracket _ _ _ _ _ _ _ Eb) as (-> & _ & Hhi' & Ha & Hb); try done; try lia.
  exists lo, (slew_at log lo), (slew_at log (S lo)).
  pose proof (Hnan (S lo) ltac:(lia)) as Hn2.
  assert (feq (sp_at (slew_at log (S lo))) (sp_at (slew_at log lo)) = false) as ->.
  { clear - Ha Hb Hn2. ford. }
  split; [apply Hnth; lia|]. split; [apply Hnth; lia|]. split; [done|]. split; [|done].
  clear - Ha Hb Ht Hn2. ford.
Qed.

(** Three ticks of a slewing loop leave a history to interpolate in. *)
Definition slewing_loop : Loop :=
  fst (Loop_Tick (fst (Loop_Tick pending_loop (of_Z 101))) (of_Z 102)).

Lemma slew_interpolates_witness :
  exists i a b, slewLog slewing_loop !! i = Some a /\ slewLog slewing_loop !! S i = Some b /\
    flt (of_Z 101) (sp_at b) = true.
Proof.
  assert (forallb (fun p => negb (is_nan (sp_at p))) (slewLog slewing_loop) = true) as Hn
    by (vm_compute; reflexivity).
  assert (length (slewLog slewing_loop) = 3%nat) as Hl by (vm_compute; reflexivity).
  destruct (slew_interpolates slewing_loop (of_Z 101)) as (i & a & b & H1 & H2 & _ & H3 & _);
    [vm_compute; reflexivity|vm_compute; reflexivity|reflexivity| | |].
  - apply List.Forall_forall. intros p Hp. apply negb_true_iff. exact (proj1 (List.forallb_forall _ _) Hn p Hp).
  - intros E. rewrite E in Hl. discriminate Hl.
  - exists i, a, b. repeat split; assumption.
Defined.
