(* ===== verification/System.v ===== *)
(** * internal/discipline/system.go: the synchronization state machine

    [Sys] is the daemon's discipline state: the registered sources, the loop
    and the published system variables.  [reselect] is the heart of it: every
    measurement, tick and lifecycle event ends there.  A nil dereference or an
    index out of range is [None]. *)

From stdpp Require Import base list strings numbers gmap.
From Stdlib Require Import Lia ZArith.
From S2P Require Import Prelude Float64 GoTime NtpTime Measurement Select Loop.

Local Open Scope Z_scope.

Record Config : Type := mkConfig {
  cfgLoop : LoopConfig;
  MinSurvivors : Z;
  HoldoverMax : f64;
  SettleUpdates : Z;
  cfgLocalRefIDs : RefIDs
}.

#[export] Instance Config_eta : Eta Config := fun c =>
  mkConfig (cfgLoop c) (MinSurvivors c) (HoldoverMax c) (SettleUpdates c) (cfgLocalRefIDs c).

Record Result : Type := mkResult {
  r_Actions : list Action;
  r_Events : list Event
}.

Record SourceStatus : Type := mkSourceStatus {
  ss_Name : string;
  ss_Status : SelectStatus;
  ss_Prefer : bool;
  ss_NoSelect : bool;
  ss_Reach : Z;
  ss_Poll : Z;
  ss_Offset : f64;
  ss_Delay : f64;
  ss_Dispersion : f64;
  ss_Jitter : f64;
  ss_Distance : f64;
  ss_Stratum : Z;
  ss_RefID : RefID;
  ss_Leap : Z;
  ss_Updated : f64;
  ss_DisagreesWith : string;
  ss_Disagreement : f64
}.

Record SysStatus : Type := mkSysStatus {
  st_State : State;
  st_Stratum : Z;
  st_RefID : RefID;
  st_Leap : Z;
  st_RootDelay : f64;
  st_RootDisp : f64;
  st_Offset : f64;
  st_Frequency : f64;
  st_FreqKnown : bool;
  st_Jitter : f64;
  st_Pending : f64;
  st_SystemSource : string;
  st_PreferLost : bool;
  st_PPSQualified : bool;
  st_LastUpdate : f64;
  st_Updates : Z;
  st_Steps : Z;
  st_Sources : list SourceStatus
}.

#[export] Instance SysStatus_eta : Eta SysStatus := fun s =>
  mkSysStatus (st_State s) (st_Stratum s) (st_RefID s) (st_Leap s) (st_RootDelay s) (st_RootDisp s)
    (st_Offset s) (st_Frequency s) (st_FreqKnown s) (st_Jitter s) (st_Pending s) (st_SystemSource s)
    (st_PreferLost s) (st_PPSQualified s) (st_LastUpdate s) (st_Updates s) (st_Steps s) (st_Sources s).

Record Sys : Type := mkSys {
  cfg : Config;
  sources : gmap string SourceState;
  order : list string;
  loop : Loop;
  state : State;
  y_sinceStep : Z;
  postStepUpdates : Z;
  resyncing : bool;
  everSynced : bool;
  rootDispAt : f64;
  unsyncedReason : RefID;
  sel : Selection;
  sysName : string;
  y_lastUpdate : f64;
  haveUpdate : bool;
  y_offset : f64;
  rootDelay : f64;
  rootDisp : f64;
  stratum : Z;
  refID : RefID;
  leap : Z;
  holdoverSince : f64;
  preferLost : bool
}.

#[export] Instance Sys_eta : Eta Sys := fun s =>
  mkSys (cfg s) (sources s) (order s) (loop s) (state s) (y_sinceStep s) (postStepUpdates s)
    (resyncing s) (everSynced s) (rootDispAt s) (unsyncedReason s) (sel s) (sysName s)
    (y_lastUpdate s) (haveUpdate s) (y_offset s) (rootDelay s) (rootDisp s) (stratum s) (refID s)
    (leap s) (holdoverSince s) (preferLost s).

(** [New]. *)
Definition New (c : Config) (freq : f64) (freqKnown : bool) : Sys :=
  let c := if MinSurvivors c <? 1 then c <| MinSurvivors := 1 |> else c in
  let c := if SettleUpdates c <? 1 then c <| SettleUpdates := 1 |> else c in
  {| cfg := c; sources := ∅; order := []; loop := NewLoop (cfgLoop c) freq freqKnown;
     state := StateUnsynced; y_sinceStep := 0; postStepUpdates := 0; resyncing := false;
     everSynced := false; rootDispAt := fzero; unsyncedReason := KissINIT; sel := zeroSelection;
     sysName := ""%string; y_lastUpdate := fzero; haveUpdate := false; y_offset := fzero;
     rootDelay := fzero; rootDisp := fzero; stratum := 16; refID := KissINIT; leap := LeapUnsync;
     holdoverSince := fzero; preferLost := false |}.

(** [AddSource]. *)
Definition AddSource (s : Sys) (name : string) (o : Options) : Sys :=
  let s := match sources s !! name with Some _ => s | None => s <| order := order s ++ [name] |> end in
  s <| sources := <[name := newSource name o]> (sources s) |>.

(** [all]: the pointers in registration order, here the sources themselves;
    [None] when a name of [order] has no source. *)
Definition all (s : Sys) : option (list SourceState) := mapM (fun n => sources s !! n) (order s).

(** The sources written back under the pointers [all] returned. *)
Definition put_all (s : Sys) (st : store) : Sys :=
  s <| sources := list_to_map (zip (order s) st) ∪ sources s |>.

(** [==] on states. *)
Definition state_eqb (x y : State) : bool :=
  match x, y with
  | StateUnsynced, StateUnsynced | StateSettling, StateSettling
  | StateSynced, StateSynced | StateHoldover, StateHoldover => true
  | _, _ => false
  end.

(** [setState]. *)
Definition setState (s : Sys) (to : State) (res : Result) : Sys * Result :=
  if state_eqb (state s) to then (s, res)
  else
    let from := state s in
    let s := if state_eqb to StateSynced then s <| everSynced := true |> else s in
    (s <| state := to |>,
     mkResult (r_Actions res) (r_Events res ++ [mkEvent EventStateChange ""%string fzero from to])).

(** [settleDone]. *)
Definition settleDone (s : Sys) (offset : f64) : bool :=
  if postStepUpdates s <? 1 then false
  else if y_sinceStep s <? SettleUpdates (cfg s) then false
  else negb (stepAllowed (loop s)) || fle (fabs offset) (StepThreshold (cfgLoop (cfg s))).

(** [mayStep], with the system source and the survivors of the selection. *)
Definition mayStep (s : Sys) (system : SourceState) (survivors : list SourceState) : bool :=
  if Steps (loop s) =? 0 then true
  else if 2 <=? sinceStep system then true
  else 2 <=? Z.of_nat (length (filter (fun x => 1 <= sinceStep x) survivors)).

(** The events of a source whose status went from [was] to the one it has. *)
Definition status_events (was : SelectStatus) (s : SourceState) : list Event :=
  let now_is := Status s in
  (if bool_decide (now_is = StatusFalseticker) && negb (bool_decide (was = StatusFalseticker))
   then [value_event EventFalseticker (Name s) (Offset s)] else []) ++
  (if bool_decide (was = StatusFalseticker) && negb (bool_decide (now_is = StatusFalseticker))
      && negb (bool_decide (now_is = StatusUnreachable))
   then [value_event EventTruechimer (Name s) (Offset s)] else []) ++
  (if PPS (Opts s) then
     if bool_decide (now_is = StatusUnqualified) && negb (bool_decide (was = StatusUnqualified))
     then [source_event EventPPSUnqualified (Name s)]
     else if bool_decide (was = StatusUnqualified) && negb (bool_decide (now_is = StatusUnqualified))
             && negb (bool_decide (now_is = StatusUnreachable)) && negb (bool_decide (now_is = StatusInvalid))
             && negb (bool_decide (now_is = StatusFalseticker))
     then [source_event EventPPSQualified (Name s)] else []
   else []).

(** The prefer-lost transition. *)
Definition prefer_events (s : Sys) (sl : Selection) : list Event :=
  if Bool.eqb (PreferLost sl) (preferLost s) then []
  else [source_event (if PreferLost sl then EventPreferLost else EventPreferRegained) ""%string].

(** The branch of [reselect] without a system source. *)
Definition lose_system (s : Sys) (now : f64) (res : Result) : Sys * Result :=
  let s := s <| sysName := ""%string |> in
  match state s with
  | StateSynced => setState (s <| holdoverSince := now |>) StateHoldover res
  | StateSettling =>
      if everSynced s then setState (s <| holdoverSince := now |>) StateHoldover res
      else setState (s <| unsyncedReason := KissINIT |>) StateUnsynced res
  | _ => (s, res)
  end.

(** The branch for a system source whose sample was used already. *)
Definition nothing_new (s : Sys) (res : Result) : Sys * Result :=
  let '(s, res) :=
    if state_eqb (state s) StateHoldover then setState s StateSettling res else (s, res) in
  if state_eqb (state s) StateSettling && settleDone s (y_offset s)
  then setState s StateSynced res else (s, res).

(** The system variables from the system source. *)
Definition publish (s : Sys) (sys : SourceState) (sl : Selection) (now : f64) : Sys :=
  s <| stratum := if 15 <=? Stratum sys then 16 else Stratum sys + 1 |>
    <| refID := SourceRefID sys |>
    <| rootDelay := fadd (RootDelay sys) (Delay sys) |>
    <| rootDisp := (RootDisp sys + Dispersion sys + sel_Jitter sl)%f64 |>
    <| rootDispAt := Updated sys |>
    <| y_lastUpdate := now |>
    <| haveUpdate := true |>.

(** The [default] arm: the loop took the offset. *)
Definition loop_ran (s : Sys) (offset : f64) (res : Result) : Sys * Result :=
  let s := s <| y_offset := offset |> <| postStepUpdates := postStepUpdates s + 1 |> in
  match state s with
  | StateSynced => (s, res)
  | _ =>
      if resyncing s || settleDone s offset
      then setState (s <| resyncing := false |>) StateSynced res
      else setState s StateSettling res
  end.

(** The arm for a stepped clock. *)
Definition loop_stepped (s : Sys) (res : Result) : Sys * Result :=
  let s := s <| y_offset := fzero |> <| y_sinceStep := 0 |> <| postStepUpdates := 0 |>
    <| resyncing := false |> <| everSynced := false |> in
  setState s StateSettling res.

Definition add_event (res : Result) (e : Event) : Result :=
  mkResult (r_Actions res) (r_Events res ++ [e]).

(** The loop is run on the selection [sl], whose system source is [i] of the
    store [st]. *)
Definition run_loop (s : Sys) (st : store) (sl : Selection) (i : nat) (now : f64) (res : Result)
  : Sys * Result :=
  let st := upd st i (fun x => x <| usedAt := At x |>) in
  let s := put_all s st in
  let '(l, u) := Loop_Update (loop s) (sel_Offset sl) (Poll (src st i)) now
                   (state_eqb (state s) StateSynced)
                   (mayStep s (src st i) (deref st (Survivors sl))) in
  let s := s <| loop := l |> in
  let res := mkResult (r_Actions res ++ u_Actions u) (r_Events res) in
  if Deferred u then (s, res)
  else if PanicRefused u then
    setState (s <| unsyncedReason := KissPANC |>) StateUnsynced
      (add_event res (value_event EventPanicRefused ""%string (sel_Offset sl)))
  else if Ignored u then (s, add_event res (value_event EventPopcorn ""%string (sel_Offset sl)))
  else if Stepped u then
    let res := add_event res (value_event EventStep ""%string (sel_Offset sl)) in
    let st := invalidate <$> st in
    let '(s, res) := loop_stepped (put_all s st) res in
    (publish s (src st i) sl now, res)
  else
    let '(s, res) := loop_ran s (sel_Offset sl) res in
    (publish s (src st i) sl now, res).

(** The branch of [reselect] with a system source. *)
Definition follow_system (s : Sys) (st : store) (sl : Selection) (i : nat) (now : f64) (res : Result)
  : Sys * Result :=
  let name := Name (src st i) in
  let '(s, res) :=
    if bool_decide (name = sysName s) then (s, res)
    else (s <| sysName := name |>, add_event res (source_event EventSystemSource name)) in
  if fle (At (src st i)) (usedAt (src st i)) then nothing_new s res
  else run_loop s st sl i now res.

(** What [reselect] does with the outcome of the selection. *)
Definition take_selection (s : Sys) (before st : store) (sl : Selection) (now : f64) : Sys * Result :=
  let events := sel_Events sl
    ++ concat (zip_with (fun b a => status_events (Status b) a) before st)
    ++ prefer_events s sl in
  let s := (put_all s st) <| preferLost := PreferLost sl |> <| sel := sl |>
    <| leap := majorityLeap (deref st (Survivors sl)) now |> in
  match System sl with
  | None => lose_system s now (mkResult [] events)
  | Some i => follow_system s st sl i now (mkResult [] events)
  end.

Definition sel_options (s : Sys) : SelectOptions :=
  mkSelectOptions (cfgLocalRefIDs (cfg s)) (Some (Loop_AppliedSince (loop s))).

(** [reselect]. *)
Definition reselect (s : Sys) (now : f64) : option (Sys * Result) :=
  before ← all s;
  '(st, sl) ← SelectAt before now (MinSurvivors (cfg s)) (sel_options s);
  Some (take_selection s before st sl now).

(** [RemoveSource]. *)
Definition RemoveSource (s : Sys) (name : string) (now : f64) : option (Sys * Result) :=
  if bool_decide (is_Some (sources s !! name)) then
    let s := s <| sources := delete name (sources s) |>
      <| order := match list_find (eq name) (order s) with
                  | Some (i, _) => take i (order s) ++ drop (S i) (order s)
                  | None => order s
                  end |> in
    reselect s now
  else Some (s, mkResult [] []).

Definition invalidate_all (s : Sys) : option Sys :=
  st ← all s; Some (put_all s (invalidate <$> st)).

(** [InvalidateSources]. *)
Definition InvalidateSources (s : Sys) (now : f64) : option (Sys * Result) :=
  s ← invalidate_all s; reselect s now.

(** [Resync]. *)
Definition Resync (s : Sys) (now : f64) : option (Sys * Result) :=
  s ← invalidate_all s;
  reselect (s <| resyncing := state_eqb (state s) StateSynced || state_eqb (state s) StateHoldover |>) now.

(** [Update]. *)
Definition Update (s : Sys) (m : Measurement) : option (Sys * Result) :=
  match sources s !! m_Source m with
  | None => Some (s, mkResult [] [source_event EventUnknownSource (m_Source m)])
  | Some x =>
      let s := s <| sources := <[m_Source m := source_apply x m]> (sources s) |> in
      let s := if bool_decide (m_Source m = sysName s) && IsAcquisition m
               then s <| y_sinceStep := y_sinceStep s + 1 |> else s in
      reselect s (m_Now m)
  end.

(** [Tick]. *)
Definition Tick (s : Sys) (now : f64) : option (Sys * Result) :=
  '(s, res) ← reselect s now;
  let '(l, acts) := Loop_Tick (loop s) now in
  let s := s <| loop := l |> in
  let res := mkResult (acts ++ r_Actions res) (r_Events res) in
  Some (if state_eqb (state s) StateHoldover && fgt (fsub now (holdoverSince s)) (HoldoverMax (cfg s))
        then setState (s <| unsyncedReason := KissHOLD |>) StateUnsynced res
        else (s, res)).

Definition sourceStatus (x : SourceState) : SourceStatus :=
  {| ss_Name := Name x; ss_Status := Status x; ss_Prefer := Prefer (Opts x);
     ss_NoSelect := NoSelect (Opts x); ss_Reach := Reach x; ss_Poll := Poll x;
     ss_Offset := Offset x; ss_Delay := Delay x; ss_Dispersion := Dispersion x;
     ss_Jitter := Jitter x; ss_Distance := Distance x; ss_Stratum := Stratum x;
     ss_RefID := sRefID x; ss_Leap := Leap x; ss_Updated := Updated x;
     ss_DisagreesWith := DisagreesWith x; ss_Disagreement := Disagreement x |}.

(** [Status]. *)
Definition SystemStatus (s : Sys) (now : f64) : option SysStatus :=
  srcs ← all s;
  let l := loop s in
  let st := {| st_State := state s; st_Stratum := stratum s; st_RefID := refID s; st_Leap := leap s;
     st_RootDelay := rootDelay s;
     st_RootDisp := if haveUpdate s
       then (rootDisp s + Phi * fmax fzero (now - rootDispAt s) + fabs (Pending l))%f64 else fzero;
     st_Offset := y_offset s; st_Frequency := Freq l; st_FreqKnown := FreqKnown l;
     st_Jitter := l_Jitter l; st_Pending := Pending l; st_SystemSource := sysName s;
     st_PreferLost := preferLost s; st_PPSQualified := PPSQualified (sel s);
     st_LastUpdate := if haveUpdate s then y_lastUpdate s else fzero;
     st_Updates := Updates l; st_Steps := Steps l; st_Sources := sourceStatus <$> srcs |} in
  Some match state s with
  | StateUnsynced =>
      st <| st_Stratum := 16 |> <| st_Leap := LeapUnsync |> <| st_RootDisp := MaxDispersion |>
         <| st_RefID := unsyncedReason s |>
  | StateSettling =>
      let st := st <| st_Leap := LeapUnsync |> in
      if (0 <? Steps l) && feq (y_offset s) fzero then st <| st_RefID := KissSTEP |> else st
  | _ => st
  end.

(** ** The registry *)

(** The registered sources and their order agree. *)
Record registry_ok (order : list string) (sources : gmap string SourceState) : Prop := {
  ro_nodup : NoDup order;
  ro_dom : forall n, n ∈ order <-> is_Some (sources !! n);
  ro_name : forall n x, sources !! n = Some x -> Name x = n;
  ro_jitter : forall n x, sources !! n = Some x -> jitter_ok x
}.

Abbreviation wf s := (registry_ok (order s) (sources s)).

(** [all] returns one source per registered name. *)
Lemma all_lookup s st :
  all s = Some st -> forall i, st !! i = (order s !! i) ≫= (fun n => sources s !! n).
Proof.
  unfold all. intros H i. apply mapM_Some in H.
  destruct (order s !! i) as [n|] eqn:E; simpl.
  - destruct (Forall2_lookup_l _ _ _ _ _ H E) as (x & -> & Hx). by rewrite Hx.
  - destruct (st !! i) as [x|] eqn:Ex; [|done].
    destruct (Forall2_lookup_r _ _ _ _ _ H Ex) as (n & Hn & _). congruence.
Qed.

Lemma all_length s st : all s = Some st -> length st = length (order s).
Proof. unfold all. intros H. apply mapM_Some in H. symmetry. by eapply Forall2_length. Qed.

Lemma all_total s : wf s -> exists st, all s = Some st.
Proof.
  intros [_ Hd _ _]. change (is_Some (all s)). unfold all. apply mapM_is_Some, Forall_forall.
  intros n Hn. by apply Hd.
Qed.

Lemma all_elem s st x : all s = Some st -> x ∈ st -> exists n, n ∈ order s /\ sources s !! n = Some x.
Proof.
  intros Ha Hx. apply list_elem_of_lookup in Hx as [i Hi].
  rewrite (all_lookup _ _ Ha) in Hi. destruct (order s !! i) as [n|] eqn:E; [|done].
  exists n. split; [by eapply list_elem_of_lookup_2|done].
Qed.

Lemma all_jitter s st : wf s -> all s = Some st -> Forall jitter_ok st.
Proof.
  intros Hw Ha. apply Forall_forall. intros x Hx.
  destruct (all_elem _ _ _ Ha Hx) as (n & _ & Hn). by eapply ro_jitter.
Qed.

Lemma put_all_lookup s st n i :
  NoDup (order s) -> length st = length (order s) -> order s !! i = Some n ->
  sources (put_all s st) !! n = st !! i.
Proof.
  intros Hn Hl Hi. destruct (lookup_lt_is_Some_2 st i) as [x Hx].
  { rewrite Hl. by eapply lookup_lt_Some. }
  change (sources (put_all s st)) with (list_to_map (zip (order s) st) ∪ sources s).
  rewrite Hx. apply lookup_union_Some_l, elem_of_list_to_map_1.
  - by rewrite fst_zip by lia.
  - apply list_elem_of_lookup. exists i. by rewrite lookup_zip_with, Hi, Hx.
Qed.

Lemma put_all_other s st n : n ∉ order s -> sources (put_all s st) !! n = sources s !! n.
Proof.
  intros Hn. change (sources (put_all s st)) with (list_to_map (zip (order s) st) ∪ sources s).
  apply lookup_union_r, not_elem_of_list_to_map_1. intros Hin. apply Hn.
  apply list_elem_of_fmap in Hin as ([a b] & -> & Hab). by apply elem_of_zip_l in Hab.
Qed.

Lemma all_put_all s st :
  NoDup (order s) -> length st = length (order s) -> all (put_all s st) = Some st.
Proof.
  intros Hn Hl. unfold all. apply mapM_Some, Forall2_same_length_lookup. split; [done|].
  intros i n x Hi Hx. by rewrite (put_all_lookup s st n i Hn Hl Hi).
Qed.

(** Writing back sources with the same names and acceptable jitter keeps the
    registry. *)
Lemma put_all_wf s st0 st :
  wf s -> all s = Some st0 -> length st = length st0 ->
  (forall i, Name (src st i) = Name (src st0 i)) -> Forall jitter_ok st -> wf (put_all s st).
Proof.
  intros Hw Ha Hl Hname Hj. pose proof Hw as [Hn Hd Hna Hjo].
  pose proof (all_length _ _ Ha) as Hla. assert (Hlo : length st = length (order s)) by congruence.
  assert (Hget : forall n x, sources (put_all s st) !! n = Some x ->
    exists i, order s !! i = Some n /\ st !! i = Some x).
  { intros n x Hx. destruct (decide (n ∈ order s)) as [Hin|Hout].
    - apply list_elem_of_lookup in Hin as [i Hi]. exists i. split; [done|].
      by rewrite <- (put_all_lookup s st n i Hn Hlo Hi).
    - rewrite put_all_other in Hx by done. exfalso. apply Hout, Hd. eauto. }
  constructor; [done| | |].
  - intros n. split.
    + intros Hin. apply list_elem_of_lookup in Hin as [i Hi].
      rewrite (put_all_lookup s st n i Hn Hlo Hi). apply lookup_lt_is_Some_2.
      rewrite Hlo. by eapply lookup_lt_Some.
    + intros [x Hx]. destruct (Hget n x Hx) as (i & Hi & _). by eapply list_elem_of_lookup_2.
  - intros n x Hx. destruct (Hget n x Hx) as (i & Hi & Hxi).
    rewrite <- (src_lookup _ _ _ Hxi), Hname. pose proof (all_lookup _ _ Ha i) as Hs0.
    rewrite Hi in Hs0. simpl in Hs0. destruct (proj1 (Hd n)) as [y Hy]; [by eapply list_elem_of_lookup_2|].
    rewrite Hy in Hs0. rewrite (src_lookup _ _ _ Hs0). by apply Hna.
  - intros n x Hx. destruct (Hget n x Hx) as (i & _ & Hxi).
    rewrite Forall_forall in Hj. apply Hj. by eapply list_elem_of_lookup_2.
Qed.

(** ** The abstract state machine

    What the daemon may claim depends on seven variables.  Every move has a
    label, and [shows] ties each label to what an operation shows its caller:
    the actions it asks for, the events it reports, the count of loop updates
    and the outcome of the selection. *)
Record phase : Type := mkPhase {
  ph_state : State;
  ph_synced : bool;     (* everSynced *)
  ph_updates : Z;       (* postStepUpdates *)
  ph_have : bool;       (* haveUpdate *)
  ph_reason : RefID;    (* unsyncedReason *)
  ph_resync : bool;     (* resyncing *)
  ph_acquired : Z       (* sinceStep *)
}.

#[export] Instance phase_eta : Eta phase := fun p =>
  mkPhase (ph_state p) (ph_synced p) (ph_updates p) (ph_have p) (ph_reason p) (ph_resync p) (ph_acquired p).

Definition phase_of (s : Sys) : phase :=
  mkPhase (state s) (everSynced s) (postStepUpdates s) (haveUpdate s) (unsyncedReason s) (resyncing s) (y_sinceStep s).

Definition phase0 : phase := mkPhase StateUnsynced false 0 false KissINIT false 0.

(** What a selection led to: no system source; one with nothing for the loop;
    an offset the loop took; a step; a refused correction. *)
Inductive label : Type := LLost | LFound | LRan | LStepped | LPanic.

(** The evidence of settling: a loop update and enough acquisitions of the
    system source since the last step, and an offset there is no step for. *)
Definition settled (settle : Z) (calm : bool) (p : phase) : Prop :=
  1 <= ph_updates p /\ settle <= ph_acquired p /\ calm = true.

Definition ran (p : phase) : phase := p <| ph_updates := ph_updates p + 1 |> <| ph_have := true |>.
Definition trusted (p : phase) : phase := p <| ph_state := StateSynced |> <| ph_synced := true |>.

Inductive phase_move (settle : Z) (calm : bool) : label -> phase -> phase -> Prop :=
| mv_coast p :
    ph_state p = StateSynced \/ ph_state p = StateSettling /\ ph_synced p = true ->
    phase_move settle calm LLost p (p <| ph_state := StateHoldover |>)
| mv_lost p :
    ph_state p = StateSettling -> ph_synced p = false ->
    phase_move settle calm LLost p (p <| ph_state := StateUnsynced |> <| ph_reason := KissINIT |>)
| mv_still_lost p :
    ph_state p = StateUnsynced \/ ph_state p = StateHoldover -> phase_move settle calm LLost p p
| mv_stay p : phase_move settle calm LFound p p
| mv_back p :
    ph_state p = StateHoldover -> phase_move settle calm LFound p (p <| ph_state := StateSettling |>)
| mv_settled p :
    ph_state p = StateSettling \/ ph_state p = StateHoldover -> settled settle calm p ->
    phase_move settle calm LFound p (trusted p)
| mv_ran_synced p :
    ph_state p = StateSynced -> phase_move settle calm LRan p (ran p)
| mv_ran_settled p :
    ph_state p <> StateSynced -> ph_resync p = true \/ settled settle calm (ran p) ->
    phase_move settle calm LRan p ((trusted (ran p)) <| ph_resync := false |>)
| mv_ran_settling p :
    ph_state p <> StateSynced -> ph_resync p = false ->
    phase_move settle calm LRan p ((ran p) <| ph_state := StateSettling |>)
| mv_stepped p :
    phase_move settle calm LStepped p
      (mkPhase StateSettling false 0 true (ph_reason p) false 0)
| mv_panic p :
    phase_move settle calm LPanic p (p <| ph_state := StateUnsynced |> <| ph_reason := KissPANC |>).

(** What every phase of a run satisfies. *)
Record phase_ok (p : phase) : Prop := {
  po_trust : ph_state p = StateSynced \/ ph_state p = StateHoldover -> ph_synced p = true;
  po_fresh : ph_synced p = true -> 1 <= ph_updates p;
  po_have : ph_state p <> StateUnsynced -> ph_have p = true;
  po_count : 0 <= ph_updates p;
  po_reason : ph_reason p ∈ [KissINIT; KissHOLD; KissPANC]
}.

Lemma kiss_reasons : KissINIT ∈ [KissINIT; KissHOLD; KissPANC] /\ KissHOLD ∈ [KissINIT; KissHOLD; KissPANC] /\
  KissPANC ∈ [KissINIT; KissHOLD; KissPANC].
Proof. rewrite !elem_of_cons. tauto. Qed.

Lemma phase_move_ok settle calm l p q : phase_move settle calm l p q -> phase_ok p -> phase_ok q.
Proof.
  intros Hs [H1 H2 H3 H4 H5]. destruct kiss_reasons as (K1 & K2 & K3).
  destruct Hs as [p Hx|p Hx He|p Hx|p|p Hx|p Hx [Hu _]|p Hx|p Hx Hg|p Hx|p|p]; destruct p as [x e v h r y q]; cbn in *;
    constructor; cbn in *; try done; try lia; try tauto.
  all: try (intros _; apply H3; destruct Hx as [->|[-> _]]; done).
  all: try (intros _; apply H3; destruct Hx as [->| ->]; done).
  all: try (intros _; destruct Hx as [->|[_ ->]]; auto; fail).
  all: try (intros _; apply H3; rewrite Hx; done).
  all: try (intros He; specialize (H2 He); lia).
  all: by intros [|].
Qed.

Lemma phase0_ok : phase_ok phase0.
Proof. constructor; cbn; try done; try (by intros [|]); try lia. apply kiss_reasons. Qed.

(** Stopping at the holdover limit. *)
Definition timed_out (s : Sys) (now : f64) (p : phase) : phase :=
  if state_eqb (ph_state p) StateHoldover && fgt (fsub now (holdoverSince s)) (HoldoverMax (cfg s))
  then p <| ph_state := StateUnsynced |> <| ph_reason := KissHOLD |> else p.

Definition has_step (acts : list Action) : bool :=
  existsb (fun a => match a with ActionStep _ => true | _ => false end) acts.

Lemma has_step_spec acts : has_step acts = true <-> exists x, In (ActionStep x) acts.
Proof.
  unfold has_step. rewrite existsb_exists. split.
  - intros ([| |] & H & E); try done. eauto.
  - intros [x H]. eauto.
Qed.

(** What an operation shows of the label. *)
Definition shows (l : label) (s s' : Sys) (res : Result) : Prop :=
  has_step (r_Actions res) = (match l with LStepped => true | _ => false end) /\
  Updates (loop s') = Updates (loop s) + (match l with LStepped | LRan => 1 | _ => 0 end) /\
  match l with
  | LLost => System (sel s') = None
  | LPanic => exists ev, In ev (r_Events res) /\ Kind ev = EventPanicRefused
  | _ => is_Some (System (sel s'))
  end.

(** Nothing to step for: no step is allowed, or the offset is under the
    threshold. *)
Definition calm (s : Sys) : bool :=
  negb (stepAllowed (loop s)) || fle (fabs (y_offset s)) (StepThreshold (cfgLoop (cfg s))).

(** A selection moves the state machine. *)
Definition moved (s s' : Sys) (res : Result) : Prop :=
  exists l, phase_move (SettleUpdates (cfg s)) (calm s') l (phase_of s) (phase_of s') /\ shows l s s' res.

(** ** The operations follow the state machine *)

(** The part of the system the state machine does not touch. *)
Definition plant (s : Sys) := (cfg s, sources s, order s, loop s).

Lemma setState_actions s to res : r_Actions (snd (setState s to res)) = r_Actions res.
Proof. unfold setState. by destruct (state_eqb (state s) to). Qed.

(** Opens a system, naming the variables of the state machine: state [x],
    sinceStep [q], postStepUpdates [v], resyncing [y], everSynced [e],
    unsyncedReason [r], haveUpdate [h]. *)
Ltac open_system s :=
  destruct s as [? ? ? ? x q v y e ? r ? ? ? h ? ? ? ? ? ? ? ?].

(** The variables a branch of [reselect] moves by itself; its loop and its
    selection are set before. *)
Definition stepped_by (s s' : Sys) (l : label) : Prop :=
  phase_move (SettleUpdates (cfg s)) (calm s') l (phase_of s) (phase_of s') /\
  plant s' = plant s /\ sel s' = sel s.

Lemma lose_system_moves s now res :
  phase_ok (phase_of s) -> stepped_by s (fst (lose_system s now res)) LLost.
Proof.
  intros [Ht _ _ _ _]. open_system s. cbn in Ht. unfold lose_system, setState, stepped_by.
  destruct x; [|destruct e| |]; (split; [|done]); cbn.
  - by apply mv_still_lost; left.
  - apply mv_coast. by right.
  - by apply mv_lost.
  - rewrite Ht by auto. apply mv_coast. by left.
  - by apply mv_still_lost; right.
Qed.

Lemma settleDone_spec s offset :
  settleDone s offset =
    (1 <=? postStepUpdates s) && (SettleUpdates (cfg s) <=? y_sinceStep s)
    && (negb (stepAllowed (loop s)) || fle (fabs offset) (StepThreshold (cfgLoop (cfg s)))).
Proof.
  unfold settleDone. rewrite (Z.ltb_antisym 1), (Z.ltb_antisym (SettleUpdates (cfg s))).
  by destruct (1 <=? _), (_ <=? y_sinceStep s).
Qed.

Lemma settleDone_settled s : settleDone s (y_offset s) = true -> settled (SettleUpdates (cfg s)) (calm s) (phase_of s).
Proof. rewrite settleDone_spec. intros H. repeat bool_step. done. Qed.

Lemma nothing_new_moves s res :
  phase_ok (phase_of s) -> stepped_by s (fst (nothing_new s res)) LFound.
Proof.
  intros [Ht _ _ _ _]. pose proof (settleDone_settled s) as Hd. pose proof (settleDone_spec s (y_offset s)) as Hs.
  open_system s. cbn in Ht. unfold nothing_new, setState, stepped_by.
  destruct x; cbn -[settleDone calm] in *; try (split; [apply mv_stay|done]).
  - destruct (settleDone _ _) eqn:E; cbn -[calm]; (split; [|done]); [|apply mv_stay]. apply (mv_settled _ _ (mkPhase StateSettling e v h r y q)); [by left|]. by apply Hd.
  - rewrite settleDone_spec. cbn -[calm] in *. rewrite <- Hs. destruct (settleDone _ _); cbn -[calm]; (split; [|done]).
    + apply (mv_settled _ _ (mkPhase StateHoldover e v h r y q)); [by right|]. by apply Hd.
    + by apply (mv_back _ _ (mkPhase StateHoldover e v h r y q)).
Qed.

Lemma loop_ran_moves s offset res sys sl now :
  phase_ok (phase_of s) -> stepped_by s (publish (fst (loop_ran s offset res)) sys sl now) LRan.
Proof.
  intros [Ht _ _ _ _].
  pose proof (settleDone_settled (s <| y_offset := offset |> <| postStepUpdates := postStepUpdates s + 1 |>)) as Hd.
  open_system s. cbn in Ht. unfold loop_ran, setState, stepped_by.
  destruct x; cbn -[settleDone calm Z.add] in *.
  3: { split; [|done]. by apply (mv_ran_synced _ _ (mkPhase StateSynced e v h r y q)). }
  all: destruct y; cbn -[settleDone calm Z.add];
    [split; [|done]; apply (mv_ran_settled _ _ (mkPhase _ e v h r true q)); [done|by left]|].
  all: destruct (settleDone _ _) eqn:E; cbn -[calm Z.add]; (split; [|done]);
    [apply (mv_ran_settled _ _ (mkPhase _ e v h r false q)); [done|right; by apply Hd]
    |by apply (mv_ran_settling _ _ (mkPhase _ e v h r false q))].
Qed.

Lemma loop_stepped_moves s res sys sl now :
  stepped_by s (publish (fst (loop_stepped s res)) sys sl now) LStepped.
Proof.
  open_system s. unfold loop_stepped, setState, stepped_by.
  destruct x; (split; [apply mv_stepped|done]).
Qed.

(** ** Samples are consumed once *)

(** A source holds a sample the loop has not used. *)
Definition fresh (x : SourceState) : bool := negb (fle (At x) (usedAt x)).

(** The fields of a source that selection never writes. *)
Definition ident (x : SourceState) := (Name x, Jitter x, (At x, usedAt x)).

Lemma ident_src st st' i : ident <$> st' = ident <$> st -> ident (src st' i) = ident (src st i).
Proof.
  intros H. unfold src. rewrite !nth_lookup. apply (f_equal (lookup i)) in H.
  rewrite !list_lookup_fmap in H. destruct (st !! i), (st' !! i); cbn in *; congruence.
Qed.

Lemma ident_fresh st st' : ident <$> st' = ident <$> st -> zcount fresh st' = zcount fresh st.
Proof.
  intros H. set (p := fun k : string * f64 * (f64 * f64) => negb (fle (snd k).1 (snd k).2)).
  change fresh with (p ∘ ident). by rewrite <- !zcount_fmap, H.
Qed.

(** Selection keeps the identity of every source. *)
Lemma SelectAt_ident before now k opts st sl :
  Forall jitter_ok before -> SelectAt before now k opts = Some (st, sl) ->
  ident <$> st = ident <$> before /\ (forall i, System sl = Some i -> (i < length st)%nat).
Proof.
  intros Hj Hs. destruct (SelectAt_spec before now k opts Hj)
    as (st1 & sl1 & st2 & surv & He & _ & [Hl Hf] & Hsub & Hin & Hm).
  rewrite Hs in He. injection He as <- <-. rewrite length_prepared in Hl. split.
  - apply list_eq_same_length with (n := length before); rewrite ?length_fmap; try done.
    intros i x y Hi Hx Hy. rewrite list_lookup_fmap in Hx, Hy.
    destruct (st !! i) as [a|] eqn:Ea; [|done]. destruct (before !! i) as [b|] eqn:Eb; [|done].
    injection Hx as <-. injection Hy as <-.
    rewrite <- (src_lookup _ _ _ Ea), <- (src_lookup _ _ _ Eb).
    change (ident (fixed (src st i)) = ident (src before i)). rewrite Hf, src_prepared by done.
    rewrite prepare_src. destruct (refresh_fields now opts (src before i))
      as (H1 & _ & _ & _ & _ & _ & _ & _ & _ & H2 & _ & H3 & H4).
    unfold ident. by rewrite <- H1, <- H2, <- H3, <- H4.
  - intros i Hi. rewrite Hi in Hm. destruct Hm as (Hm & _). rewrite Hl.
    destruct (Hin i Hm) as [H|[H _]].
    + apply (elem_of_sublist _ _ _ H) in Hsub. by apply accepted_eligible in Hsub as (_ & _ & ?).
    + by apply accepted_eligible in H as (_ & _ & ?).
Qed.

Lemma zcount_alter {A} (p : A -> bool) f i (l : list A) x :
  l !! i = Some x -> p x = true -> p (f x) = false -> zcount p (alter f i l) = zcount p l - 1.
Proof.
  revert i. induction l as [|y l IH]; intros [|i] Hi Hp Hf; simpl in *; try done.
  - injection Hi as ->. change (zcount p (f x :: l) = (if p x then 1 else 0) + zcount p l - 1).
    simpl. rewrite Hp, Hf. lia.
  - change (zcount p (y :: alter f i l) = (if p y then 1 else 0) + zcount p l - 1).
    simpl. rewrite (IH i Hi Hp Hf). lia.
Qed.

Definition use (x : SourceState) : SourceState := x <| usedAt := At x |>.

Lemma use_fresh st i :
  (i < length st)%nat -> fresh (src st i) = true -> is_nan (At (src st i)) = false ->
  zcount fresh (upd st i use) = zcount fresh st - 1.
Proof.
  intros Hi Hf Hn. destruct (lookup_lt_is_Some_2 st i Hi) as [x Hx].
  rewrite (src_lookup _ _ _ Hx) in Hf, Hn. apply (zcount_alter _ _ _ _ x Hx Hf).
  unfold fresh, use. change (negb (fle (At x) (At x)) = false). by rewrite fle_refl.
Qed.

(** ** What a reselection does *)

Definition numeric_at (x : SourceState) : Prop := is_nan (At x) = false.

(** What no operation on a registered source changes but a measurement. *)
Definition who (x : SourceState) := (Name x, Jitter x, At x).

Lemma who_src (st st' : store) i : who <$> st' = who <$> st -> who (src st' i) = who (src st i).
Proof.
  intros H. unfold src. rewrite !nth_lookup. apply (f_equal (lookup i)) in H.
  rewrite !list_lookup_fmap in H. destruct (st !! i), (st' !! i); cbn in *; congruence.
Qed.

Lemma who_ident (st st' : store) : ident <$> st' = ident <$> st -> who <$> st' = who <$> st.
Proof.
  intros H. set (f := fun k : string * f64 * (f64 * f64) => (fst k, fst (snd k))).
  change who with (f ∘ ident). by rewrite !list_fmap_compose, H.
Qed.

Lemma who_upd (st : store) i f : (forall x, who (f x) = who x) -> who <$> upd st i f = who <$> st.
Proof.
  intros Hf. apply list_eq. intros j. unfold upd. rewrite !list_lookup_fmap, list_lookup_alter.
  case_decide; [subst|done]. destruct (st !! j); cbn; by rewrite ?Hf.
Qed.

Lemma who_length (st st' : store) : who <$> st' = who <$> st -> length st' = length st.
Proof. intros H. apply (f_equal length) in H. by rewrite !length_fmap in H. Qed.

Lemma who_forall (P : string * f64 * f64 -> Prop) (st st' : store) :
  who <$> st' = who <$> st -> Forall (fun x => P (who x)) st -> Forall (fun x => P (who x)) st'.
Proof.
  intros H Hf. apply (Forall_fmap who P st'). rewrite H. by apply (Forall_fmap who P st).
Qed.

(** Writing sources back, whatever else of the system changed. *)
Lemma write_back t st st' s' :
  wf t -> all t = Some st -> who <$> st' = who <$> st ->
  order s' = order t -> sources s' = sources (put_all t st') ->
  wf s' /\ all s' = Some st'.
Proof.
  intros Hw Ha Hi Ho Hs. pose proof (who_length _ _ Hi) as Hl. split.
  - rewrite Ho, Hs. change (wf (put_all t st')).
    apply (put_all_wf t st); try done.
    + intros i. pose proof (who_src _ _ i Hi) as H. by injection H.
    + apply (who_forall (fun k => fle (k.1.2) (of_Z (-1)) = false) st st' Hi).
      exact (all_jitter _ _ Hw Ha).
  - assert (all s' = all (put_all t st')) as -> by (unfold all; by rewrite Ho, Hs).
    apply all_put_all; [apply Hw|]. rewrite Hl. by apply all_length.
Qed.

Record outcome (s : Sys) (st : store) (s' : Sys) (res : Result) : Prop := {
  oc_moved : moved s s' res;
  oc_cfg : cfg s' = cfg s;
  oc_wf : wf s';
  oc_loop : loop s' = loop s \/ exists op, loop s' = fst (loop_exec (loop s) op);
  oc_store : exists st', all s' = Some st' /\ Forall numeric_at st' /\
    Updates (loop s') + zcount fresh st' <= Updates (loop s) + zcount fresh st;
  oc_step : forall x, In (ActionStep x) (r_Actions res) ->
    state s' = StateSettling /\ everSynced s' = false /\ postStepUpdates s' = 0 /\
    Pending (loop s') = fzero /\ forall n y, sources s' !! n = Some y -> Valid y = false;
  oc_words : forall x, ~ In (ActionSetFrequency x) (r_Actions res)
}.

(** Nothing but the state machine moved. *)
Lemma outcome_plant s st s' l res :
  wf s -> all s = Some st -> Forall numeric_at st -> stepped_by s s' l ->
  r_Actions res = [] -> (l = LLost /\ System (sel s) = None \/ l = LFound /\ is_Some (System (sel s))) ->
  outcome s st s' res.
Proof.
  intros Hw Ha Hn (Hm & Hpl & Hsel) Hr Hl. unfold plant in Hpl. injection Hpl as Hc Hs Ho Hlp.
  constructor; try done; [|by rewrite Ho, Hs|by left| |rewrite Hr; by intros ? []|rewrite Hr; by intros ? []].
  - exists l. split; [done|]. unfold shows. rewrite Hr, Hlp, Hsel.
    destruct Hl as [[-> Hl]|[-> Hl]]; (split; [done|]); (split; [lia|done]).
  - exists st. repeat split; [unfold all; by rewrite Ho, Hs|done|]. rewrite Hlp. lia.
Qed.

Lemma Loop_Update_updates l offset poll now synced may l' u :
  Loop_Update l offset poll now synced may = (l', u) -> Updates l' <= Updates l + 1.
Proof.
  intros H. destruct (Loop_Update_cases _ _ _ _ _ _ _ _ H) as [(-> & _)|[(_ & Hs & _)|Hc]]; [lia| |].
  - unfold step in Hs. injection Hs as -> _. cbn -[Z.add]. lia.
  - destruct Hc as (_ & _ & _ & _ & _ & _ & -> & _). lia.
Qed.

Lemma Loop_Update_acts l offset poll now synced may l' u :
  Loop_Update l offset poll now synced may = (l', u) ->
  (Stepped u = true /\ Deferred u = false /\ PanicRefused u = false /\ Ignored u = false /\
     Pending l' = fzero /\ Updates l' = Updates l + 1 /\ exists x, u_Actions u = [ActionStep x; ActionResetFilters]) \/
  u_Actions u = [] /\ Stepped u = false /\
    Updates l' = Updates l + (if PanicRefused u || Deferred u || Ignored u then 0 else 1).
Proof.
  intros H. destruct (Loop_Update_cases _ _ _ _ _ _ _ _ H) as [(-> & ? & ? & Hf)|[(_ & Hs & _)|(? & ? & H1 & H2 & H3 & _ & H4 & _)]].
  - right. split; [done|]. split; [done|]. destruct Hf as [->|[->| ->]]; rewrite ?orb_true_r; cbn; lia.
  - left. unfold step in Hs. injection Hs as -> ->. repeat split; eauto.
  - right. split; [done|]. split; [done|]. by rewrite H1, H2, H3.
Qed.

Lemma panic_moves s res :
  stepped_by s (fst (setState (s <| unsyncedReason := KissPANC |>) StateUnsynced res)) LPanic.
Proof.
  open_system s. unfold setState, stepped_by. destruct x; (split; [|done]).
  all: apply (mv_panic _ _ (mkPhase _ e v h r y q)).
Qed.

Lemma setState_events s to res : exists evs, r_Events (snd (setState s to res)) = r_Events res ++ evs.
Proof. unfold setState. destruct (state_eqb (state s) to); [exists []; by rewrite app_nil_r|eexists; reflexivity]. Qed.

Lemma loop_stepped_final s res sys sl now :
  let '(s1, res1) := loop_stepped s res in
  let s' := publish s1 sys sl now in
  state s' = StateSettling /\ everSynced s' = false /\ postStepUpdates s' = 0 /\
  r_Actions res1 = r_Actions res.
Proof. open_system s. unfold loop_stepped, setState. by destruct x. Qed.

Lemma loop_ran_actions s offset res : r_Actions (snd (loop_ran s offset res)) = r_Actions res.
Proof.
  unfold loop_ran. destruct (state _); cbn [snd]; try done; destruct (_ || _); by rewrite setState_actions.
Qed.

Lemma who_invalidate (st : store) : who <$> (invalidate <$> st) = who <$> st.
Proof. rewrite <- list_fmap_compose. by apply list_fmap_ext. Qed.

Lemma invalidate_fresh (st : store) : zcount fresh (invalidate <$> st) = zcount fresh st.
Proof. by rewrite zcount_fmap. Qed.

(** After a step every registered source is invalid. *)
Lemma sources_invalid s st n y :
  wf s -> all s = Some st -> sources (put_all s (invalidate <$> st)) !! n = Some y -> Valid y = false.
Proof.
  intros Hw Ha Hy. destruct (decide (n ∈ order s)) as [Hin|Hout].
  - apply list_elem_of_lookup in Hin as [i Hi].
    rewrite (put_all_lookup _ _ n i) in Hy; [|apply Hw| |done].
    + rewrite list_lookup_fmap in Hy. destruct (st !! i) as [x|]; [|done]. by injection Hy as <-.
    + rewrite length_fmap. by apply all_length.
  - rewrite put_all_other in Hy by done. exfalso. apply Hout, Hw. eauto.
Qed.

Lemma run_loop_outcome s st sl i now res s' res' :
  wf s -> all s = Some st -> Forall numeric_at st -> phase_ok (phase_of s) -> is_Some (System (sel s)) ->
  (i < length st)%nat -> fresh (src st i) = true -> r_Actions res = [] ->
  run_loop s st sl i now res = (s', res') -> outcome s st s' res'.
Proof.
  intros Hw Ha Hn Hp Hsys Hi Hf Hr. unfold run_loop. cbn zeta.
  change (fun x => x <| usedAt := At x |>) with use.
  set (st1 := upd st i use). set (s1 := put_all s st1).
  change (loop s1) with (loop s). change (state s1) with (state s).
  destruct (Loop_Update (loop s) _ _ _ _ _) as [l u] eqn:Eu.
  set (s2 := s1 <| loop := l |>).
  assert (Hwho : who <$> st1 = who <$> st) by by apply who_upd.
  assert (Hn1 : Forall numeric_at st1).
  { by apply (who_forall (fun k => is_nan k.2 = false) st st1 Hwho). }
  assert (Hc : Updates l + zcount fresh st1 <= Updates (loop s) + zcount fresh st).
  { pose proof (Loop_Update_updates _ _ _ _ _ _ _ _ Eu).
    assert (is_nan (At (src st i)) = false).
    { destruct (lookup_lt_is_Some_2 st i Hi) as [x Hx]. rewrite (src_lookup _ _ _ Hx).
      apply (Forall_lookup_1 _ _ _ _ Hn Hx). }
    unfold st1. rewrite use_fresh by done. lia. }
  assert (Hop : exists op, l = fst (loop_exec (loop s) op)).
  { eexists (OpUpdate _ _ _ _ _). cbn [loop_exec]. by rewrite Eu. }
  assert (Hbase : forall s3 lb res3, stepped_by s2 s3 lb -> r_Actions res3 = [] ->
    Updates l = Updates (loop s) + (match lb with LRan => 1 | _ => 0 end) ->
    (lb = LFound \/ lb = LRan \/ lb = LPanic /\ exists ev, In ev (r_Events res3) /\ Kind ev = EventPanicRefused) ->
    outcome s st s3 res3).
  { intros s3 lb res3 (Hph & Hpl & Hsel) Hra Hu Hlb. unfold plant in Hpl. injection Hpl as H1 H2 H3 H4.
    destruct (write_back s st st1 s3) as [Hw3 Ha3]; try done.
    constructor; try done; [| | |rewrite Hra; by intros ? []|rewrite Hra; by intros ? []].
    - exists lb. split; [exact Hph|]. unfold shows. rewrite Hra, H4, Hsel. change (loop s2) with l. change (sel s2) with (sel s).
      destruct Hlb as [->|[->|[-> Hev]]]; (split; [done|]); (split; [lia|done]).
    - right. by rewrite H4.
    - exists st1. repeat split; try done. by rewrite H4. }
  assert (Hp2 : phase_ok (phase_of s2)) by done.
  destruct (Loop_Update_acts _ _ _ _ _ _ _ _ Eu) as [(Hst & HD & HP & HI & Hpend & Hup & xs & Hxs)|(Hact & Hst & Hup)].
  - rewrite HD, HP, HI, Hst, Hxs, Hr. clear Hbase.
    set (st2 := invalidate <$> st1). set (s5 := put_all s2 st2).
    destruct (write_back s st st1 s2) as [Hw2 Ha2]; try done.
    destruct (write_back s2 st1 st2 s5) as [Hw5 Ha5]; try done; [apply who_invalidate|].
    set (res5 := add_event _ _).
    pose proof (loop_stepped_moves s5 res5 (src st2 i) sl now) as (Hph & Hpl & Hsel).
    pose proof (loop_stepped_final s5 res5 (src st2 i) sl now) as Hfin.
    destruct (loop_stepped s5 res5) as [s6 res6]. cbn [fst] in Hph, Hpl, Hsel. intros [= <- <-].
    destruct Hfin as (F1 & F2 & F3 & F4).
    set (s7 := publish s6 (src st2 i) sl now) in *. clearbody s7. unfold plant in Hpl. injection Hpl as H1 H2 H3 H4.
    assert (r_Actions res6 = [ActionStep xs; ActionResetFilters]) as Hr6 by exact F4.
    constructor; try done; [|by rewrite H2, H3|right; by rewrite H4| | |].
    + exists LStepped. split; [exact Hph|]. unfold shows. rewrite Hr6, H4, Hsel. split; [done|]. split; [exact Hup|exact Hsys].
    + exists st2. split; [unfold all; by rewrite H2, H3|]. split.
      * by apply (who_forall (fun k => is_nan k.2 = false) st1 st2); [apply who_invalidate|].
      * rewrite H4. unfold st2. by rewrite invalidate_fresh.
    + intros _ _. rewrite H2, H4. repeat split; try done. intros n y Hy.
      apply (sources_invalid s2 st1 n y); auto.
    + intros x. rewrite Hr6. by intros [?|[?|[]]].
  - rewrite Hst, Hact, Hr. cbn [app r_Actions].
    assert (stepped_by s2 s2 LFound) as Hstay by (split; [apply mv_stay|done]).
    destruct (Deferred u) eqn:HD.
    { intros [= <- <-]. eapply Hbase; [exact Hstay|done| |by left]. by rewrite orb_true_r in Hup. }
    destruct (PanicRefused u) eqn:HP.
    { set (res4 := add_event _ _).
      pose proof (panic_moves s2 res4) as Hmv. pose proof (setState_actions
        (s2 <| unsyncedReason := KissPANC |>) StateUnsynced res4) as Hra.
      destruct (setState_events (s2 <| unsyncedReason := KissPANC |>) StateUnsynced res4) as [evs Hev].
      destruct (setState _ _ res4) as [s4 res4']. intros [= <- <-]. cbn [fst snd] in *.
      eapply Hbase; [exact Hmv|by rewrite Hra|exact Hup|]. right. right. split; [done|]. rewrite Hev.
      eexists. split; [apply in_or_app; left; unfold res4; cbn; apply in_or_app; right; left; reflexivity|done]. }
    destruct (Ignored u) eqn:HI; [intros [= <- <-]; eapply Hbase; [exact Hstay|done|exact Hup|by left]|].
    set (res4 := mkResult _ _).
    pose proof (loop_ran_moves s2 (sel_Offset sl) res4 (src st1 i) sl now Hp2) as Hmv.
    pose proof (loop_ran_actions s2 (sel_Offset sl) res4) as Hra.
    destruct (loop_ran s2 _ res4) as [s4 res4']. cbn [fst snd] in *. intros [= <- <-].
    eapply Hbase; [exact Hmv|by rewrite Hra|exact Hup|by right; left].
Qed.

Lemma nothing_new_actions s res : r_Actions (snd (nothing_new s res)) = r_Actions res.
Proof.
  unfold nothing_new. destruct (state_eqb (state s) StateHoldover).
  - pose proof (setState_actions s StateSettling res) as H.
    destruct (setState s StateSettling res) as [s1 res1]. cbn [snd] in H.
    destruct (_ && _); [by rewrite setState_actions|done].
  - destruct (_ && _); [by rewrite setState_actions|done].
Qed.

Lemma lose_system_actions s now res : r_Actions (snd (lose_system s now res)) = r_Actions res.
Proof.
  unfold lose_system. destruct (state _); try done; [destruct (everSynced _)|]; apply setState_actions.
Qed.

Lemma outcome_base s s1 st s' res :
  plant s1 = plant s -> phase_of s1 = phase_of s -> outcome s1 st s' res -> outcome s st s' res.
Proof.
  intros Hpl Hph [(l & Hm & Hsh) O2 O3 O4 O5 O6 O7]. unfold plant in Hpl. injection Hpl as H1 H2 H3 H4.
  constructor; try done; rewrite <- ?H1, <- ?H4; try done.
  exists l. rewrite <- Hph, <- H1. split; [done|]. unfold shows in *. by rewrite <- H4.
Qed.

Lemma follow_system_outcome s st sl i now res s' res' :
  wf s -> all s = Some st -> Forall numeric_at st -> phase_ok (phase_of s) -> is_Some (System (sel s)) ->
  (i < length st)%nat -> r_Actions res = [] ->
  follow_system s st sl i now res = (s', res') -> outcome s st s' res'.
Proof.
  intros Hw Ha Hn Hp Hsys Hi Hr. unfold follow_system. cbn zeta.
  assert (Hgo : forall s1 res1, plant s1 = plant s -> phase_of s1 = phase_of s -> sel s1 = sel s -> r_Actions res1 = [] ->
    (if fle (At (src st i)) (usedAt (src st i)) then nothing_new s1 res1
     else run_loop s1 st sl i now res1) = (s', res') -> outcome s st s' res').
  { intros s1 res1 Hpl Hph Hsel Hr1 Hrun. apply (outcome_base s s1); [done..|]. unfold plant in Hpl. injection Hpl as H1 H2 H3 H4.
    assert (Hw1 : wf s1) by by rewrite H2, H3.
    assert (Ha1 : all s1 = Some st) by (unfold all; by rewrite H2, H3).
    assert (Hp1 : phase_ok (phase_of s1)) by by rewrite Hph.
    assert (Hs1 : is_Some (System (sel s1))) by by rewrite Hsel.
    destruct (fle _ _) eqn:Ef.
    - pose proof (nothing_new_moves s1 res1 Hp1) as Hmv.
      pose proof (nothing_new_actions s1 res1) as Hra. rewrite Hrun in Hmv, Hra. cbn [fst snd] in *.
      eapply outcome_plant; [done..|exact Hmv|congruence|by right].
    - eapply run_loop_outcome; [done..| |done|exact Hrun]. unfold fresh. by rewrite Ef. }
  destruct (bool_decide (Name (src st i) = sysName s)); by apply Hgo.
Qed.

Lemma take_selection_outcome s before st sl now s' res' :
  wf s -> all s = Some before -> ident <$> st = ident <$> before -> Forall numeric_at before ->
  phase_ok (phase_of s) -> (forall i, System sl = Some i -> (i < length st)%nat) ->
  take_selection s before st sl now = (s', res') -> outcome s before s' res'.
Proof.
  intros Hw Ha Hid Hn Hp Hsys. unfold take_selection. cbn zeta.
  set (events := sel_Events sl ++ _). set (s1 := (put_all s st) <| preferLost := _ |> <| sel := sl |> <| leap := _ |>).
  destruct (write_back s before st s1) as [Hw1 Ha1]; try done; [by apply who_ident|].
  assert (Hn1 : Forall numeric_at st).
  { by apply (who_forall (fun k => is_nan k.2 = false) before st); [apply who_ident|]. }
  assert (Hp1 : phase_ok (phase_of s1)) by done. change sl with (sel s1) in Hsys.
  intros H. assert (Ho : outcome s1 st s' res').
  { destruct (System sl) as [i|] eqn:Ei.
    - apply (follow_system_outcome s1 st sl i now (mkResult [] events)); [exact Hw1|exact Ha1|exact Hn1|exact Hp1|by exists i|by apply Hsys|done|exact H].
    - pose proof (lose_system_moves s1 now (mkResult [] events) Hp1) as Hmv.
      pose proof (lose_system_actions s1 now (mkResult [] events)) as Hra.
      rewrite H in Hmv, Hra. eapply outcome_plant; [done..|exact Hmv|done|by left]. }
  destruct Ho as [O1 O2 O3 O4 (st' & O5 & O6 & O7) O8 O9]. constructor; try done.
  exists st'. repeat split; try done. rewrite <- (ident_fresh _ _ Hid). exact O7.
Qed.

Lemma reselect_outcome s st now :
  wf s -> all s = Some st -> Forall numeric_at st -> phase_ok (phase_of s) ->
  exists s' res, reselect s now = Some (s', res) /\ outcome s st s' res.
Proof.
  intros Hw Ha Hn Hp. pose proof (all_jitter _ _ Hw Ha) as Hj.
  destruct (SelectAt_spec st now (MinSurvivors (cfg s)) (sel_options s) Hj) as (st' & sl & _ & _ & Hs & _).
  destruct (SelectAt_ident _ _ _ _ _ _ Hj Hs) as [Hid Hsys].
  unfold reselect. rewrite Ha. cbn. rewrite Hs. cbn.
  destruct (take_selection s st st' sl now) as [s1 res] eqn:Et.
  exists s1, res. split; [done|]. by eapply take_selection_outcome.
Qed.

(** ** Runs *)

Inductive sys_op : Type :=
| OpAddSource (name : string) (o : Options)
| OpRemoveSource (name : string) (now : f64)
| OpInvalidateSources (now : f64)
| OpResync (now : f64)
| OpMeasure (m : Measurement)
| OpSysTick (now : f64).

Definition sys_exec (s : Sys) (op : sys_op) : option (Sys * Result) :=
  match op with
  | OpAddSource name o => Some (AddSource s name o, mkResult [] [])
  | OpRemoveSource name now => RemoveSource s name now
  | OpInvalidateSources now => InvalidateSources s now
  | OpResync now => Resync s now
  | OpMeasure m => Update s m
  | OpSysTick now => Tick s now
  end.

Fixpoint sys_run (s : Sys) (ops : list sys_op) : option Sys :=
  match ops with
  | [] => Some s
  | op :: ops => '(s, _) ← sys_exec s op; sys_run s ops
  end.

(** A measurement a source may report: a valid one carries a numeric time and
    no jitter at or below -1 s. *)
Definition op_ok (op : sys_op) : Prop :=
  match op with
  | OpMeasure m => m_Valid m = true -> fle (m_Jitter m) (of_Z (-1)) = false /\ is_nan (m_At m) = false
  | _ => True
  end.

(** The samples an operation brings. *)
Definition samples (op : sys_op) : Z :=
  match op with OpMeasure m => if m_Valid m then 1 else 0 | _ => 0 end.

Definition fresh_in (m : gmap string SourceState) (n : string) : bool :=
  match m !! n with Some x => fresh x | None => false end.

Lemma zcount_agree {A} `{EqDecision A} (p q : A -> bool) (k : A) l :
  NoDup l -> (forall x, x <> k -> p x = true -> q x = true) -> zcount p l <= zcount q l + 1.
Proof.
  intros Hn Hpq. induction Hn as [|x l Hx _ IH]; simpl; [lia|].
  destruct (decide (x = k)) as [->|Hne].
  - assert (zcount p l <= zcount q l).
    { apply zcount_le, Forall_forall. intros y Hy. apply Hpq. intros ->. done. }
    destruct (p k), (q k); lia.
  - destruct (p x) eqn:E; [rewrite (Hpq x Hne E); lia|destruct (q x); lia].
Qed.

Lemma all_fresh s st : all s = Some st -> zcount fresh st = zcount (fresh_in (sources s)) (order s).
Proof.
  unfold all. generalize (order s). intros l. revert st.
  induction l as [|n l IH]; intros st; cbn [mapM].
  - intros [= <-]. done.
  - destruct (sources s !! n) as [x|] eqn:E; [|done]. cbn.
    destruct (mapM _ l) as [k|] eqn:Ek; [|done]. intros [= <-].
    simpl. rewrite (IH k eq_refl). unfold fresh_in at 2. by rewrite E.
Qed.

Definition numeric_sources (m : gmap string SourceState) : Prop :=
  forall n x, m !! n = Some x -> numeric_at x.

Lemma all_numeric s st : wf s -> all s = Some st -> Forall numeric_at st <-> numeric_sources (sources s).
Proof.
  intros Hw Ha. split.
  - intros Hf n x Hx. assert (n ∈ order s) as Hin by (apply Hw; eauto).
    apply list_elem_of_lookup in Hin as [i Hi]. pose proof (all_lookup _ _ Ha i) as Hl.
    rewrite Hi in Hl. cbn in Hl. rewrite Hx in Hl. by apply (Forall_lookup_1 _ _ _ _ Hf Hl).
  - intros Hn. apply Forall_forall. intros x Hx.
    destruct (all_elem _ _ _ Ha Hx) as (n & _ & Hnx). by eapply Hn.
Qed.

(** The invariant of a run that brought [k] samples. *)
Record sys_inv (c : Config) (k : Z) (s : Sys) : Prop := {
  si_wf : wf s;
  si_numeric : numeric_sources (sources s);
  si_phase : phase_ok (phase_of s);
  si_cfg : cfgLoop (cfg s) = cfgLoop c;
  si_loop : loop_inv (cfgLoop c) (loop s);
  si_used : Updates (loop s) + zcount (fresh_in (sources s)) (order s) <= k
}.

Lemma loop_inv_exec c l l' :
  loop_inv c l -> l' = l \/ (exists op, l' = fst (loop_exec l op)) -> loop_inv c l'.
Proof. intros H [->|[op ->]]; [done|]. by apply loop_exec_inv. Qed.

(** A step leaves nothing trusted behind; a frequency asked for is within the
    kernel's range, or not a number. *)
Definition step_post (s' : Sys) (acts : list Action) : Prop :=
  forall x, In (ActionStep x) acts ->
    state s' = StateSettling /\ everSynced s' = false /\ postStepUpdates s' = 0 /\
    forall n y, sources s' !! n = Some y -> Valid y = false.
Definition words_post (acts : list Action) : Prop := forall x, In (ActionSetFrequency x) acts -> word_ok x.

Lemma reselect_inv c k s now :
  sys_inv c k s -> exists s' res, reselect s now = Some (s', res) /\ sys_inv c k s' /\ cfg s' = cfg s /\ moved s s' res /\
    (forall x, ~ In (ActionSetFrequency x) (r_Actions res)) /\ step_post s' (r_Actions res).
Proof.
  intros [H1 H2 H3 H4 H5 H6]. destruct (all_total s H1) as [st Ha].
  destruct (reselect_outcome s st now) as (s' & res & Hr & [O1 O2 O3 O4 (st' & O5 & O6 & O7) O8 O9]); try done.
  { by apply (all_numeric s). }
  exists s', res. split; [done|]. split; [constructor|split; [|split; [|split]]]; try done.
  - by apply (all_numeric s' st').
  - destruct O1 as (l & Hm & _). by eapply phase_move_ok.
  - congruence.
  - by eapply loop_inv_exec.
  - rewrite <- (all_fresh _ _ O5). rewrite (all_fresh _ _ Ha) in O7. lia.
  - intros x Hx. destruct (O8 x Hx) as (? & ? & ? & ? & ?). done.
Qed.

Lemma New_inv c freq known : sys_inv c 0 (New c freq known).
Proof.
  constructor; try done.
  - constructor; [constructor| | |]; cbn.
    + intros n. rewrite lookup_empty. split; [intros H; by apply elem_of_nil in H|by intros []].
    + done.
    + done.
  - apply phase0_ok.
  - unfold New. by destruct (MinSurvivors c <? 1); cbn; case_goal.
  - assert (cfgLoop (cfg (New c freq known)) = cfgLoop c) as E.
    { unfold New. by destruct (MinSurvivors c <? 1); cbn; case_goal. }
    change (loop (New c freq known)) with (NewLoop (cfgLoop (cfg (New c freq known))) freq known).
    rewrite E. apply NewLoop_inv.
Qed.

(** A registry change that keeps the loop and the state machine. *)
Lemma registry_inv c k k' s s' :
  sys_inv c k s -> wf s' -> numeric_sources (sources s') ->
  phase_of s' = phase_of s -> cfg s' = cfg s -> loop s' = loop s ->
  zcount (fresh_in (sources s')) (order s') <= zcount (fresh_in (sources s)) (order s) + (k' - k) ->
  sys_inv c k' s'.
Proof.
  intros [H1 H2 H3 H4 H5 H6] Hw Hn Hp Hc Hl Hz. constructor; try done; rewrite ?Hp, ?Hc, ?Hl; try done. lia.
Qed.

Lemma newSource_jitter name o : jitter_ok (newSource name o).
Proof. reflexivity. Qed.

Lemma AddSource_inv c k s name o : sys_inv c k s -> sys_inv c k (AddSource s name o).
Proof.
  intros Hi. pose proof (si_wf _ _ _ Hi) as [Hn Hd Hna Hj]. pose proof (si_numeric _ _ _ Hi) as Hnum.
  set (m := <[name := newSource name o]> (sources s)).
  assert (Hfr : forall n, fresh_in m n = true -> fresh_in (sources s) n = true).
  { intros n. unfold fresh_in, m. destruct (decide (name = n)) as [->|Hne].
    - by rewrite lookup_insert_eq.
    - by rewrite lookup_insert_ne. }
  assert (Hnm : forall n x, m !! n = Some x -> Name x = n /\ jitter_ok x /\ numeric_at x).
  { intros n x. unfold m. destruct (decide (name = n)) as [->|Hne].
    - rewrite lookup_insert_eq. by intros [= <-].
    - rewrite lookup_insert_ne by done. intros Hx. repeat split; by eauto. }
  assert (numeric_sources m) as Hnum' by (intros n x Hx; by apply Hnm in Hx as (_ & _ & ?)).
  unfold AddSource. destruct (sources s !! name) as [x|] eqn:E.
  - apply (registry_inv c k k s); try done.
    + change (registry_ok (order s) m). constructor; [done| |intros n y Hy; by destruct (Hnm n y Hy) as (? & ? & ?)..].
      intros n. rewrite Hd. fold m. unfold m. destruct (decide (name = n)) as [->|Hne].
      * rewrite lookup_insert_eq, E. split; eauto.
      * by rewrite lookup_insert_ne.
    + change (zcount (fresh_in m) (order s) <= zcount (fresh_in (sources s)) (order s) + (k - k)).
      assert (zcount (fresh_in m) (order s) <= zcount (fresh_in (sources s)) (order s)); [|lia].
      apply zcount_le, Forall_forall. auto.
  - apply (registry_inv c k k s); try done.
    + change (registry_ok (order s ++ [name]) m). constructor; [| |intros n y Hy; by destruct (Hnm n y Hy) as (? & ? & ?)..].
      * apply NoDup_app. repeat split; [done| |apply NoDup_singleton].
        intros n Hin1 Hin2. apply list_elem_of_singleton in Hin2 as ->. apply Hd in Hin1. rewrite E in Hin1.
        by destruct Hin1.
      * intros n. rewrite elem_of_app, list_elem_of_singleton, Hd. unfold m.
        destruct (decide (name = n)) as [->|Hne]; [rewrite lookup_insert_eq; split; [eauto|by right]|].
        rewrite lookup_insert_ne by done. split; [intros [?| ->]; done|by left].
    + change (zcount (fresh_in m) (order s ++ [name]) <= zcount (fresh_in (sources s)) (order s) + (k - k)).
      rewrite zcount_app. assert (zcount (fresh_in m) [name] = 0) as ->.
      { simpl. unfold fresh_in, m. by rewrite lookup_insert_eq. }
      assert (zcount (fresh_in m) (order s) <= zcount (fresh_in (sources s)) (order s)); [|lia].
      apply zcount_le, Forall_forall. auto.
Qed.

(** Removing a name from the order. *)
Definition without (name : string) (l : list string) : list string :=
  match list_find (eq name) l with
  | Some (i, _) => take i l ++ drop (S i) l
  | None => l
  end.

Lemma without_spec name l :
  NoDup l -> NoDup (without name l) /\ (forall n, n ∈ without name l <-> n ∈ l /\ n <> name) /\
  forall p, zcount p (without name l) <= zcount p l.
Proof.
  intros Hn. unfold without. destruct (list_find (eq name) l) as [[i x]|] eqn:E.
  - apply list_find_Some in E as (Hi & <- & _).
    assert (Hl : l = take i l ++ name :: drop (S i) l) by by rewrite take_drop_middle.
    set (a := take i l) in *. set (b := drop (S i) l) in *. clearbody a b. subst l. clear Hi.
    apply NoDup_app in Hn as (Ha & Hab & Hnb). apply NoDup_cons in Hnb as [Hnb Hb]. split; [|split].
    + apply NoDup_app. repeat split; try done. intros n Hn1 Hn2. apply (Hab n Hn1). by apply elem_of_cons; right.
    + intros n. rewrite !elem_of_app, elem_of_cons. split.
      * intros [H|H]; split; try tauto; intros ->; [|done]. apply (Hab name H). apply list_elem_of_here.
      * tauto.
    + intros p. rewrite !zcount_app. simpl. destruct (p name); lia.
  - apply list_find_None in E. rewrite Forall_forall in E. split; [done|]. split; [|done].
    intros n. split; [|tauto]. intros H. split; [done|]. intros ->. by apply (E name H).
Qed.

Definition removed (s : Sys) (name : string) : Sys :=
  s <| sources := delete name (sources s) |> <| order := without name (order s) |>.

Lemma removed_inv c k s name : sys_inv c k s -> sys_inv c k (removed s name).
Proof.
  intros Hi. pose proof (si_wf _ _ _ Hi) as [Hn Hd Hna Hj]. pose proof (si_numeric _ _ _ Hi) as Hnum.
  destruct (without_spec name (order s) Hn) as (Hn' & Hin & Hz).
  apply (registry_inv c k k s); try done.
  - change (registry_ok (without name (order s)) (delete name (sources s))). constructor; [done| | |].
    + intros n. rewrite Hin, Hd. destruct (decide (name = n)) as [->|Hne].
      * rewrite lookup_delete_eq. split; [tauto|by intros []].
      * rewrite lookup_delete_ne by done. split; [tauto|]. intros H. split; [done|congruence].
    + intros n x Hx. apply lookup_delete_Some in Hx as [_ Hx]. eauto.
    + intros n x Hx. apply lookup_delete_Some in Hx as [_ Hx]. eauto.
  - intros n x Hx. change (delete name (sources s) !! n = Some x) in Hx.
    apply lookup_delete_Some in Hx as [_ Hx]. eauto.
  - change (zcount (fresh_in (delete name (sources s))) (without name (order s)) <=
            zcount (fresh_in (sources s)) (order s) + (k - k)).
    assert (zcount (fresh_in (delete name (sources s))) (without name (order s)) <=
            zcount (fresh_in (sources s)) (without name (order s))).
    { apply zcount_le, Forall_forall. intros n Hn0. apply Hin in Hn0 as [_ Hne].
      unfold fresh_in. by rewrite lookup_delete_ne by congruence. }
    pose proof (Hz (fresh_in (sources s))). lia.
Qed.

Lemma invalidate_all_inv c k s :
  sys_inv c k s -> exists s', invalidate_all s = Some s' /\ sys_inv c k s' /\ phase_of s' = phase_of s /\
    cfg s' = cfg s /\ loop s' = loop s /\ state s' = state s.
Proof.
  intros Hi. destruct (all_total s (si_wf _ _ _ Hi)) as [st Ha]. unfold invalidate_all. rewrite Ha. cbn.
  exists (put_all s (invalidate <$> st)). split; [done|]. split; [|done].
  destruct (write_back s st (invalidate <$> st) (put_all s (invalidate <$> st))) as [Hw Ha'];
    try done; [apply Hi|apply who_invalidate|].
  apply (registry_inv c k k s); try done.
  - apply (all_numeric _ _ Hw Ha').
    apply (who_forall (fun k => is_nan k.2 = false) st); [apply who_invalidate|].
    apply (all_numeric s); [apply Hi|done|apply Hi].
  - rewrite <- (all_fresh _ _ Ha), <- (all_fresh _ _ Ha'), invalidate_fresh. lia.
Qed.

(** A measurement keeps the source's name; without a valid sample it keeps its
    jitter and its sample too. *)
Lemma source_apply_fields x m :
  Name (source_apply x m) = Name x /\ usedAt (source_apply x m) = usedAt x /\
  if m_Valid m then Jitter (source_apply x m) = m_Jitter m /\ At (source_apply x m) = m_At m
  else Jitter (source_apply x m) = Jitter x /\ At (source_apply x m) = At x.
Proof.
  assert (forall y, Name (apply_leap y m) = Name y /\ usedAt (apply_leap y m) = usedAt y /\
    Jitter (apply_leap y m) = Jitter y /\ At (apply_leap y m) = At y) as Hl.
  { intros y. unfold apply_leap. repeat case_goal; done. }
  unfold source_apply. set (y := if m_Invalidate m then _ else _).
  assert (Name y = Name x /\ usedAt y = usedAt x /\ Jitter y = Jitter x /\ At y = At x) as (Y1 & Y2 & Y3 & Y4)
    by (unfold y; by case_goal).
  clearbody y. destruct (Hl y) as (L1 & L2 & L3 & L4).
  destruct (apply_leap y m). cbn in *. subst. destruct (m_Valid m); cbn; auto.
Qed.

Definition measured (s : Sys) (x : SourceState) (m : Measurement) : Sys :=
  s <| sources := <[m_Source m := source_apply x m]> (sources s) |>.

Lemma measured_inv c k s x m :
  sys_inv c k s -> sources s !! m_Source m = Some x -> op_ok (OpMeasure m) ->
  sys_inv c (k + samples (OpMeasure m)) (measured s x m).
Proof.
  intros Hi Hx Hok. pose proof (si_wf _ _ _ Hi) as [Hn Hd Hna Hj]. pose proof (si_numeric _ _ _ Hi) as Hnum.
  destruct (source_apply_fields x m) as (F1 & F2 & F3).
  set (y := source_apply x m) in *. set (sm := <[m_Source m := y]> (sources s)).
  assert (Hy : Name y = m_Source m /\ jitter_ok y /\ numeric_at y).
  { split; [rewrite F1; eauto|]. unfold jitter_ok, numeric_at. cbn in Hok. destruct (m_Valid m).
    - destruct F3 as [-> ->]. auto.
    - destruct F3 as [-> ->]. split; [eapply Hj|eapply Hnum]; eauto. }
  assert (Hnm : forall n z, sm !! n = Some z -> Name z = n /\ jitter_ok z /\ numeric_at z).
  { intros n z. unfold sm. destruct (decide (m_Source m = n)) as [<-|Hne].
    - rewrite lookup_insert_eq. by intros [= <-].
    - rewrite lookup_insert_ne by done. intros Hz. repeat split; by eauto. }
  apply (registry_inv c k _ s); try done.
  - change (registry_ok (order s) sm). constructor; [done| |intros n z Hz; by destruct (Hnm n z Hz) as (? & ? & ?)..].
    intros n. rewrite Hd. unfold sm. destruct (decide (m_Source m = n)) as [<-|Hne].
    + rewrite lookup_insert_eq, Hx. split; eauto.
    + by rewrite lookup_insert_ne.
  - intros n z Hz. by destruct (Hnm n z Hz) as (? & ? & ?).
  - change (zcount (fresh_in sm) (order s) <=
      zcount (fresh_in (sources s)) (order s) + (k + (if m_Valid m then 1 else 0) - k)).
    destruct (m_Valid m).
    + assert (zcount (fresh_in sm) (order s) <= zcount (fresh_in (sources s)) (order s) + 1); [|lia].
      apply (zcount_agree _ _ (m_Source m)); [done|]. intros n Hne. unfold fresh_in, sm.
      by rewrite lookup_insert_ne by congruence.
    + assert (zcount (fresh_in sm) (order s) <= zcount (fresh_in (sources s)) (order s)); [|lia].
      apply zcount_le, Forall_forall. intros n _. unfold fresh_in, sm.
      destruct (decide (m_Source m = n)) as [<-|Hne]; [|by rewrite lookup_insert_ne].
      rewrite lookup_insert_eq, Hx. destruct F3 as [_ F3]. unfold fresh. by rewrite F2, F3.
Qed.

(** The tail of [Tick]. *)
Definition tick_tail (s : Sys) (res : Result) (now : f64) : Sys * Result :=
  let '(l, acts) := Loop_Tick (loop s) now in
  let s := s <| loop := l |> in
  let res := mkResult (acts ++ r_Actions res) (r_Events res) in
  if state_eqb (state s) StateHoldover && fgt (fsub now (holdoverSince s)) (HoldoverMax (cfg s))
  then setState (s <| unsyncedReason := KissHOLD |>) StateUnsynced res
  else (s, res).

Lemma Loop_Tick_no_step l now x : ~ In (ActionStep x) (snd (Loop_Tick l now)).
Proof.
  destruct (Loop_Tick l now) as [l' acts] eqn:E.
  destruct (Loop_Tick_cases _ _ _ _ E) as (_ & _ & _ & _ & _ & [->|[->|[y ->]]]); cbn; [tauto| |];
    by intros [H|[]].
Qed.

Lemma state_eqb_eq x y : state_eqb x y = true -> x = y.
Proof. by destruct x, y. Qed.

(** What an operation does before and after its selection: an acquisition of
    the system source is counted, a resynchronization is noted when there is a
    state to keep, and a tick ends a holdover that has lasted too long. *)
Definition begun (s : Sys) (op : sys_op) (p : phase) : phase :=
  match op with
  | OpMeasure m =>
      if bool_decide (m_Source m = sysName s) && IsAcquisition m then p <| ph_acquired := ph_acquired p + 1 |> else p
  | OpResync _ => p <| ph_resync := state_eqb (ph_state p) StateSynced || state_eqb (ph_state p) StateHoldover |>
  | _ => p
  end.

Definition ended (s' : Sys) (op : sys_op) (p : phase) : phase :=
  match op with OpSysTick now => timed_out s' now p | _ => p end.

(** Whether the operation selects at all. *)
Definition reselects (s : Sys) (op : sys_op) : bool :=
  match op with
  | OpAddSource _ _ => false
  | OpRemoveSource name _ => bool_decide (is_Some (sources s !! name))
  | OpMeasure m => bool_decide (is_Some (sources s !! m_Source m))
  | _ => true
  end.

Definition op_moves (s : Sys) (op : sys_op) (s' : Sys) (res : Result) : Prop :=
  if reselects s op then
    exists l p, phase_move (SettleUpdates (cfg s)) (calm s') l (begun s op (phase_of s)) p /\
      phase_of s' = ended s' op p /\ shows l s s' res
  else phase_of s' = phase_of s /\ loop s' = loop s /\ r_Actions res = [].

(** What an operation leaves behind. *)
Definition op_post (c : Config) (k : Z) (s : Sys) (op : sys_op) (s' : Sys) (res : Result) : Prop :=
  sys_inv c k s' /\ (op_moves s op s' res /\ words_post (r_Actions res)) /\ step_post s' (r_Actions res).

Lemma timed_out_ok s now p : phase_ok p -> phase_ok (timed_out s now p).
Proof.
  intros [H1 H2 H3 H4 H5]. unfold timed_out. case_goal; [|by constructor].
  destruct p. constructor; cbn in *; try done; [by intros [|]|apply kiss_reasons].
Qed.

Lemma Loop_Tick_words l now x : word_ok (Freq l) -> In (ActionSetFrequency x) (snd (Loop_Tick l now)) -> word_ok x.
Proof.
  intros Hf. destruct (Loop_Tick l now) as [l' acts] eqn:E. cbn [snd].
  destruct (Loop_Tick_cases _ _ _ _ E) as (_ & _ & _ & _ & _ & [->|[->|[y ->]]]); [done| |]; intros [[= <-]|[]]; [done|apply clampFreq_ok].
Qed.

Lemma tick_post c k s now s1 res s' res' :
  reselect s now = Some (s1, res) -> sys_inv c k s1 -> moved s s1 res ->
  (forall x, ~ In (ActionSetFrequency x) (r_Actions res)) -> step_post s1 (r_Actions res) ->
  tick_tail s1 res now = (s', res') -> op_post c k s (OpSysTick now) s' res'.
Proof.
  intros Hre Hi (lb & Hm & Hsh) Hw Hs. unfold tick_tail.
  destruct (Loop_Tick (loop s1) now) as [l acts] eqn:El. cbn zeta.
  pose proof (Loop_Tick_cases _ _ _ _ El) as (HC & _ & HU & _).
  pose proof (Loop_Tick_no_step (loop s1) now) as Hns. rewrite El in Hns. cbn [snd] in Hns.
  pose proof (Loop_Tick_words (loop s1) now) as Hwd. rewrite El in Hwd. cbn [snd] in Hwd.
  set (s2 := s1 <| loop := l |>).
  set (res2 := mkResult (acts ++ r_Actions res) (r_Events res)).
  assert (forall s3 res3, plant s3 = plant s2 -> holdoverSince s3 = holdoverSince s1 -> sel s3 = sel s1 -> y_offset s3 = y_offset s1 ->
    phase_of s3 = timed_out s1 now (phase_of s1) -> r_Actions res3 = r_Actions res2 ->
    (exists evs, r_Events res3 = r_Events res ++ evs) ->
    (state s3 = state s1 \/ state s1 = StateHoldover) -> op_post c k s (OpSysTick now) s3 res3) as Hpost.
  { intros s3 res3 Hpl Hh Hsel Hoff Hph Hra [evs Hev] Hst. unfold plant in Hpl. injection Hpl as P1 P2 P3 P4.
    split; [|split; [split|]].
    - destruct Hi as [H1 H2 H3 H4 H5 H6]. constructor; rewrite ?P1, ?P2, ?P3, ?P4; try done.
      + rewrite Hph. by apply timed_out_ok.
      + change (loop_inv (cfgLoop c) l). eapply loop_inv_exec; [exact H5|]. right. exists (OpTick now).
        cbn [loop_exec]. by rewrite El.
      + change (Updates l + zcount (fresh_in (sources s1)) (order s1) <= k). by rewrite HU.
    - cbn [op_moves reselects]. exists lb, (phase_of s1).
      assert (calm s3 = calm s1) as ->.
      { unfold calm, stepAllowed. rewrite P4, P1, Hoff. change (loop s2) with l. change (cfg s2) with (cfg s1). by rewrite HC, HU. }
      split; [exact Hm|]. split.
      + rewrite Hph. cbn [ended]. unfold timed_out. by rewrite P1, Hh.
      + unfold shows in *. rewrite Hra, Hev, P4, Hsel. change (loop s2) with l. rewrite HU. unfold res2. cbn [r_Actions].
        destruct Hsh as (S1 & S2 & S3). split; [|split; [done|]].
        * destruct (has_step (acts ++ r_Actions res)) eqn:E.
          -- apply has_step_spec in E as [x Hx]. apply in_app_or in Hx as [Hx|Hx]; [by apply Hns in Hx|].
             rewrite <- S1. symmetry. apply has_step_spec. eauto.
          -- destruct (has_step (r_Actions res)) eqn:E2; [|done]. apply has_step_spec in E2 as [x Hx].
             assert (has_step (acts ++ r_Actions res) = true) as E3; [|congruence].
             apply has_step_spec. exists x. apply in_or_app. by right.
        * destruct lb; try done. destruct S3 as (ev & Hin & Hk). exists ev. split; [|done]. apply in_or_app. by left.
    - intros x. rewrite Hra. unfold res2. cbn [r_Actions]. intros Hx. apply in_app_or in Hx as [Hx|Hx]; [|by apply Hw in Hx].
      apply Hwd; [apply (li_freq _ _ (si_loop _ _ _ Hi))|done].
    - intros x. rewrite Hra. unfold res2. cbn [r_Actions]. intros Hx. apply in_app_or in Hx as [Hx|Hx]; [by apply Hns in Hx|].
      destruct (Hs x Hx) as (A1 & A2 & A3 & A4). rewrite P2.
      destruct Hst as [->|Hst]; [|congruence].
      assert (phase_of s3 = phase_of s1) as Hph2.
      { rewrite Hph. unfold timed_out. change (ph_state (phase_of s1)) with (state s1). by rewrite A1. }
      injection Hph2 as _ -> -> _ _ _ _. auto. }
  change (state s2) with (state s1). change (holdoverSince s2) with (holdoverSince s1). change (cfg s2) with (cfg s1).
  unfold timed_out in Hpost. change (ph_state (phase_of s1)) with (state s1) in Hpost.
  destruct (state_eqb (state s1) StateHoldover && _) eqn:E.
  - bool_step. apply state_eqb_eq in H.
    unfold setState. change (state (s2 <| unsyncedReason := KissHOLD |>)) with (state s1). rewrite H.
    cbn [state_eqb]. intros [= <- <-]. apply Hpost; try done; [by eexists|by right].
  - intros [= <- <-]. apply Hpost; try done; [exists []; by rewrite app_nil_r|by left].
Qed.

Lemma resyncing_inv c k s v : sys_inv c k s -> sys_inv c k (s <| resyncing := v |>).
Proof.
  intros [H1 H2 [P1 P2 P3 P4 P5] H4 H5 H6]. constructor; [exact H1|exact H2| |exact H4|exact H5|exact H6].
  constructor; [exact P1|exact P2|exact P3|exact P4|exact P5].
Qed.

Lemma acquired_inv c k s v : sys_inv c k s -> sys_inv c k (s <| y_sinceStep := v |>).
Proof.
  intros [H1 H2 [P1 P2 P3 P4 P5] H4 H5 H6]. constructor; [exact H1|exact H2| |exact H4|exact H5|exact H6].
  constructor; [exact P1|exact P2|exact P3|exact P4|exact P5].
Qed.

(** Every operation keeps the invariant, and never fails. *)
Lemma sys_exec_inv c k s op :
  sys_inv c k s -> op_ok op ->
  exists s' res, sys_exec s op = Some (s', res) /\ op_post c (k + samples op) s op s' res.
Proof.
  intros Hi Hok.
  assert (Hid : forall k' s0 evs, sys_inv c k' s0 -> phase_of s0 = phase_of s -> loop s0 = loop s ->
    reselects s op = false -> op_post c k' s op s0 (mkResult [] evs)).
  { intros k' s0 evs H1 H2 H3 H4. split; [done|]. split; [split|]; [|by intros ? []|by intros ? []].
    unfold op_moves. by rewrite H4. }
  assert (Hre : forall k' s0 now, sys_inv c k' s0 -> phase_of s0 = begun s op (phase_of s) -> cfg s0 = cfg s -> loop s0 = loop s ->
    reselects s op = true -> (forall t p, ended t op p = p) ->
    exists s' res, reselect s0 now = Some (s', res) /\ op_post c k' s op s' res).
  { intros k' s0 now H1 H2 H3 H4 H5 H6.
    destruct (reselect_inv c k' s0 now H1) as (s' & res & Hr & Hp1 & Hp2 & (l & Hm & Hsh) & Hp3 & Hp4).
    exists s', res. split; [done|]. split; [done|]. split; [split|done]; [|intros x Hx; by apply Hp3 in Hx].
    unfold op_moves. rewrite H5. exists l, (phase_of s'). rewrite H6, <- H2, <- H3. split; [done|]. split; [done|].
    unfold shows in *. by rewrite <- H4. }
  destruct op as [name o|name now|now|now|m|now]; cbn [sys_exec samples]; rewrite ?Z.add_0_r.
  - eexists _, _. split; [done|]. apply Hid; [by apply AddSource_inv| | |done];
      unfold AddSource; by destruct (sources s !! name).
  - unfold RemoveSource. destruct (bool_decide _) eqn:E.
    + by apply (Hre k (removed s name)); [apply removed_inv| | | | |].
    + eexists _, _. split; [done|]. by apply Hid.
  - unfold InvalidateSources. destruct (invalidate_all_inv _ _ _ Hi) as (s1 & -> & H1 & H2 & H3 & H4 & _).
    by apply Hre.
  - unfold Resync. destruct (invalidate_all_inv _ _ _ Hi) as (s1 & -> & H1 & H2 & H3 & H4 & H5). cbn [mbind option_bind].
    set (s2 := s1 <| resyncing := _ |>). apply (Hre k s2); try done; [by apply resyncing_inv|].
    unfold s2, begun. rewrite <- H2. by destruct s1.
  - unfold Update. destruct (sources s !! m_Source m) as [x|] eqn:Ex.
    + pose proof (measured_inv c k s x m Hi Ex Hok) as Hm. cbn [samples] in Hm.
      fold (measured s x m). assert (reselects s (OpMeasure m) = true) as Hrs by (cbn [reselects]; rewrite Ex; apply bool_decide_eq_true; eauto).
      cbn [begun] in Hre. change (sysName (measured s x m)) with (sysName s).
      case_goal; apply Hre; try done. by apply acquired_inv.
    + eexists _, _. split; [done|]. apply Hid; try done.
      * destruct Hi. constructor; try done. case_goal; lia.
      * cbn [reselects]. by rewrite Ex.
  - unfold Tick. destruct (reselect_inv c k s now Hi) as (s1 & res & Hr & Hp1 & _ & Hp2 & Hp3 & Hp4). rewrite Hr. cbn [mbind option_bind].
    destruct (tick_tail s1 res now) as [s2 res2] eqn:Et. exists s2, res2. split.
    + unfold tick_tail in Et. destruct (Loop_Tick (loop s1) now) as [l acts]. f_equal. exact Et.
    + by eapply tick_post.
Qed.

Fixpoint total_samples (ops : list sys_op) : Z :=
  match ops with [] => 0 | op :: ops => samples op + total_samples ops end.

Lemma sys_run_inv c k s ops :
  sys_inv c k s -> Forall op_ok ops ->
  exists s', sys_run s ops = Some s' /\ sys_inv c (k + total_samples ops) s'.
Proof.
  intros Hi Hok. revert k s Hi. induction Hok as [|op ops Hop _ IH]; intros k s Hi; cbn [sys_run total_samples].
  - exists s. by rewrite Z.add_0_r.
  - destruct (sys_exec_inv c k s op Hi Hop) as (s1 & res & -> & Hi1 & _). cbn [mbind option_bind].
    rewrite Z.add_assoc. by apply IH.
Qed.

Lemma run_inv c freq known ops s :
  Forall op_ok ops -> sys_run (New c freq known) ops = Some s -> sys_inv c (total_samples ops) s.
Proof.
  intros Hok Hr. destruct (sys_run_inv c 0 _ ops (New_inv c freq known) Hok) as (s' & Hs & Hi).
  rewrite Hr in Hs. injection Hs as <-. exact Hi.
Qed.

(** A run: one server 5 s ahead, stepped to, then followed, then lost. *)
Definition example_cfg : Config := mkConfig cfg0 1 (of_Z 3600) 1 [].

Definition example_measurement (now : Z) (offset : f64) : Measurement :=
  mkMeasurement "a" (of_Z now) 255 6 0 true true true LeapNone (of_Z now) false (of_Z now) offset
    (lit 10 1000) (lit 1 1000) (lit 1 10000) LeapNone 2 [127; 0; 0; 9] (lit 1 1000) (lit 1 1000) (-20)
    zeroTime [127; 0; 0; 8].

Definition example_start : list sys_op :=
  [OpAddSource "a" (mkOptions false false true false false)].
Definition example_step : sys_op := OpMeasure (example_measurement 10 (of_Z 5)).
Definition example_synced : list sys_op :=
  example_start ++ [example_step; OpSysTick (of_Z 11); OpMeasure (example_measurement 20 (lit 1 1000));
    OpSysTick (of_Z 21); OpMeasure (example_measurement 84 (lit 1 1000)); OpSysTick (of_Z 85)].

Definition example_state (ops : list sys_op) : Sys :=
  default (New example_cfg fzero false) (sys_run (New example_cfg fzero false) ops).

Definition op_okb (op : sys_op) : bool :=
  match op with
  | OpMeasure m => negb (m_Valid m) || negb (fle (m_Jitter m) (of_Z (-1))) && negb (is_nan (m_At m))
  | _ => true
  end.

Lemma op_okb_ok ops : forallb op_okb ops = true -> Forall op_ok ops.
Proof.
  intros H. apply List.Forall_forall. intros op Hop.
  pose proof (proj1 (List.forallb_forall _ _) H op Hop) as Hb. destruct op; try done.
  cbn [op_ok op_okb] in *. intros Hv. rewrite Hv in Hb. cbn [negb orb] in Hb. repeat bool_step. auto.
Qed.

Lemma example_run ops :
  is_Some (sys_run (New example_cfg fzero false) ops) ->
  sys_run (New example_cfg fzero false) ops = Some (example_state ops).
Proof. intros [s Hs]. unfold example_state. by rewrite Hs. Qed.

(** ** Claims *)

(** No observation is integrated twice.  Any sequence of
    registrations, removals, invalidations, resyncs, measurements and ticks
    runs to completion (no nil source, no index out of range), and the loop
    has run at most once per valid measurement received: ticks, reselections
    and switching between sources never replay a sample. *)
Theorem samples_used_once c freq known ops :
  Forall op_ok ops ->
  exists s, sys_run (New c freq known) ops = Some s /\ Updates (loop s) <= total_samples ops.
Proof.
  intros Hok. destruct (sys_run_inv c 0 _ ops (New_inv c freq known) Hok) as (s & Hs & Hi).
  exists s. split; [done|]. pose proof (si_used _ _ _ Hi).
  pose proof (zcount_nonneg (fresh_in (sources s)) (order s)). lia.
Qed.

Lemma samples_used_once_witness :
  exists s, sys_run (New example_cfg fzero false) example_synced = Some s /\ Updates (loop s) <= 3.
Proof.
  destruct (samples_used_once example_cfg fzero false example_synced) as (s & H1 & H2).
  - apply op_okb_ok. vm_compute. reflexivity.
  - exists s. split; [exact H1|exact H2].
Defined.

(** Claim C14: the daemon's synchronization state refines the abstract state
    machine.  In a reachable system an operation that selects makes exactly one
    labelled move of [phase_move] (after noting an acquisition or a
    resynchronization, and before a tick ends an expired holdover), and the
    label is what the caller sees: a step asked for, a loop update counted, a
    refused correction reported, a system source there or not.  An operation
    that does not select moves nothing. *)
Theorem system_refines_phases c freq known ops s op :
  Forall op_ok ops -> sys_run (New c freq known) ops = Some s -> op_ok op ->
  exists s' res, sys_exec s op = Some (s', res) /\
    if reselects s op then
      exists l p, phase_move (SettleUpdates (cfg s)) (calm s') l (begun s op (phase_of s)) p /\
        phase_of s' = ended s' op p /\
        has_step (r_Actions res) = (match l with LStepped => true | _ => false end) /\
        Updates (loop s') = Updates (loop s) + (match l with LStepped | LRan => 1 | _ => 0 end) /\
        match l with
        | LLost => System (sel s') = None
        | LPanic => exists ev, In ev (r_Events res) /\ Kind ev = EventPanicRefused
        | _ => is_Some (System (sel s'))
        end
    else phase_of s' = phase_of s /\ loop s' = loop s /\ r_Actions res = [].
Proof.
  intros Hok Hr Hop. pose proof (run_inv _ _ _ _ _ Hok Hr) as Hi.
  destruct (sys_exec_inv _ _ _ _ Hi Hop) as (s' & res & Hs & _ & [Hm _] & _). exists s', res. split; [done|exact Hm].
Qed.

(** The step of the example is such a move. *)
Lemma system_refines_phases_witness :
  exists s' res l p, sys_exec (example_state example_start) example_step = Some (s', res) /\
    phase_move 1 (calm s') l (phase_of (example_state example_start)) p /\ phase_of s' = p /\ l = LStepped.
Proof.
  destruct (system_refines_phases example_cfg fzero false example_start (example_state example_start) example_step)
    as (s' & res & E & H).
  - apply op_okb_ok. vm_compute. reflexivity.
  - apply example_run. vm_compute. eauto.
  - intros _. split; vm_compute; reflexivity.
  - assert (reselects (example_state example_start) example_step = true) as Hs by (vm_compute; reflexivity).
    rewrite Hs in H. destruct H as (l & p & Hm & Hp & Hst & _). exists s', res, l, p. split; [exact E|].
    assert (begun (example_state example_start) example_step (phase_of (example_state example_start)) =
      phase_of (example_state example_start)) as Hb by (vm_compute; reflexivity).
    assert (SettleUpdates (cfg (example_state example_start)) = 1) as Hc by (vm_compute; reflexivity).
    rewrite Hb, Hc in Hm. split; [exact Hm|]. split; [exact Hp|].
    assert (has_step ∘ r_Actions ∘ snd <$> sys_exec (example_state example_start) example_step = Some true) as Hx
      by (vm_compute; reflexivity).
    rewrite E in Hx. injection Hx as Hx. rewrite Hx in Hst. destruct l; try discriminate Hst. reflexivity.
Defined.

(** What the results of a run show since the last operation that asked for a
    step: the updates the loop has taken, and whether the daemon has been
    synchronized. *)
Record evidence : Type := mkEvidence { ev_updates : Z; ev_synced : bool }.

Definition observe (s s' : Sys) (res : Result) (v : evidence) : evidence :=
  if has_step (r_Actions res) then mkEvidence 0 false
  else mkEvidence (ev_updates v + (Updates (loop s') - Updates (loop s))) (ev_synced v || state_eqb (state s') StateSynced).

Fixpoint sys_observe (s : Sys) (v : evidence) (ops : list sys_op) : option (Sys * evidence) :=
  match ops with
  | [] => Some (s, v)
  | op :: ops => '(s', res) ← sys_exec s op; sys_observe s' (observe s s' res v) ops
  end.

Lemma phase_move_evidence settle calm l p q :
  phase_ok p -> phase_move settle calm l p q ->
  ph_updates q = (match l with LStepped => 0 | LRan => ph_updates p + 1 | _ => ph_updates p end) /\
  ph_synced q = (match l with LStepped => false | _ => ph_synced p || state_eqb (ph_state q) StateSynced end).
Proof.
  intros [Ht _ _ _ _] Hm.
  destruct Hm as [p Hx|p Hx He|p Hx|p|p Hx|p Hx Hg|p Hx|p Hx Hg|p Hx|p|p]; destruct p as [x e v h r y q]; cbn in *;
    rewrite ?orb_false_r, ?orb_true_r; (split; [done|]); try done.
  - destruct Hx as [-> | ->]; by rewrite orb_false_r.
  - destruct x; rewrite ?orb_false_r, ?orb_true_r; auto.
  - rewrite Hx. by rewrite orb_true_r, Ht by auto.
Qed.

Lemma begun_same s op p :
  ph_updates (begun s op p) = ph_updates p /\ ph_synced (begun s op p) = ph_synced p /\ (phase_ok p -> phase_ok (begun s op p)).
Proof.
  unfold begun. destruct op; try done; [|case_goal]; (split; [done|]); (split; [done|]); try done;
    (intros [P1 P2 P3 P4 P5]; constructor; [exact P1|exact P2|exact P3|exact P4|exact P5]).
Qed.

Lemma ended_same s op p :
  ph_updates (ended s op p) = ph_updates p /\ ph_synced (ended s op p) = ph_synced p /\
  state_eqb (ph_state (ended s op p)) StateSynced = state_eqb (ph_state p) StateSynced.
Proof.
  destruct op; try done. cbn [ended]. unfold timed_out. case_goal; [|done]. repeat bool_step.
  match goal with H : state_eqb _ _ = true |- _ => apply state_eqb_eq in H; rewrite H end. done.
Qed.

Lemma op_observed c k s op s' res v :
  sys_inv c k s -> op_moves s op s' res -> postStepUpdates s = ev_updates v -> everSynced s = ev_synced v ->
  postStepUpdates s' = ev_updates (observe s s' res v) /\ everSynced s' = ev_synced (observe s s' res v).
Proof.
  intros Hi Hm Hu He. unfold op_moves in Hm. destruct (reselects s op).
  - destruct Hm as (l & p & Hm & Hp & S1 & S2 & _). destruct (begun_same s op (phase_of s)) as (B1 & B2 & B3).
    destruct (phase_move_evidence _ _ _ _ _ (B3 (si_phase _ _ _ Hi)) Hm) as [M1 M2].
    destruct (ended_same s' op p) as (E1 & E2 & E3). rewrite <- Hp in E1, E2, E3. cbn in B1, B2, E1, E2, E3.
    unfold observe. rewrite S1, S2. rewrite B1 in M1. rewrite B2, <- E3 in M2.
    destruct l; cbn [ev_updates ev_synced]; (split; [rewrite E1, M1; lia|]); rewrite E2, M2; congruence.
  - destruct Hm as (H1 & H2 & H3). unfold observe. rewrite H2, H3. cbn. injection H1 as P1 P2 P3 _ _ _ _.
    split; [lia|]. rewrite P1, P2, He.
    destruct (state_eqb (state s) StateSynced) eqn:E; [|by rewrite orb_false_r].
    apply state_eqb_eq in E. rewrite <- He. pose proof (po_trust _ (si_phase _ _ _ Hi)) as Ht. cbn in Ht.
    by rewrite Ht by auto.
Qed.

Lemma run_observed c k s v ops :
  sys_inv c k s -> Forall op_ok ops -> postStepUpdates s = ev_updates v -> everSynced s = ev_synced v ->
  exists s' v', sys_observe s v ops = Some (s', v') /\ sys_run s ops = Some s' /\
    sys_inv c (k + total_samples ops) s' /\ postStepUpdates s' = ev_updates v' /\ everSynced s' = ev_synced v'.
Proof.
  intros Hi Hok. revert k s v Hi. induction Hok as [|op ops Hop _ IH]; intros k s v Hi Hu He; cbn [sys_run sys_observe total_samples].
  - exists s, v. by rewrite Z.add_0_r.
  - destruct (sys_exec_inv c k s op Hi Hop) as (s1 & res & -> & Hi1 & [Hm _] & _). cbn [mbind option_bind].
    destruct (op_observed _ _ _ _ _ _ _ Hi Hm Hu He) as [H1 H2]. rewrite Z.add_assoc. by apply IH.
Qed.

(** Claim C13: the daemon serves time as synchronized (SYNCED or HOLDOVER) only
    on evidence since the last step.  In any run, whenever it is in one of
    these states, since the last operation that asked for a step (or since the
    start) the loop has taken at least one ordinary update, and some operation
    has left the daemon SYNCED; the daemon's own counters are exactly these
    observations. *)
Theorem trust_needs_settling c freq known ops :
  Forall op_ok ops ->
  exists s v, sys_run (New c freq known) ops = Some s /\
    sys_observe (New c freq known) (mkEvidence 0 false) ops = Some (s, v) /\
    postStepUpdates s = ev_updates v /\ everSynced s = ev_synced v /\
    (state s = StateSynced \/ state s = StateHoldover ->
     1 <= ev_updates v /\ ev_synced v = true /\ haveUpdate s = true).
Proof.
  intros Hok. destruct (run_observed c 0 (New c freq known) (mkEvidence 0 false) ops) as (s & v & Ho & Hr & Hi & Hu & He);
    [apply New_inv|done|done|done|].
  exists s, v. do 4 (split; [done|]). intros Hs. destruct (si_phase _ _ _ Hi) as [H1 H2 H3 _ _]. cbn in *.
  specialize (H1 Hs). rewrite <- Hu, <- He. split; [auto|]. split; [done|]. apply H3. by destruct Hs as [-> | ->].
Qed.

Lemma trust_needs_settling_witness :
  exists s v, sys_observe (New example_cfg fzero false) (mkEvidence 0 false) example_synced = Some (s, v) /\
    state s = StateSynced /\ 1 <= ev_updates v /\ ev_synced v = true.
Proof.
  destruct (trust_needs_settling example_cfg fzero false example_synced) as (s & v & Hr & Ho & _ & _ & H).
  - apply op_okb_ok. vm_compute. reflexivity.
  - assert (state s = StateSynced) as E.
    { assert (state <$> sys_run (New example_cfg fzero false) example_synced = Some StateSynced) as Hs
        by (vm_compute; reflexivity).
      rewrite Hr in Hs. injection Hs as Hs. exact Hs. }
    exists s, v. split; [exact Ho|]. split; [exact E|]. destruct (H (or_introl E)) as (H1 & H2 & _). split; [exact H1|exact H2].
Defined.

(** A step withdraws all trust.  Whenever an operation of a reachable
    system steps the clock, the system is left SETTLING with its
    synchronization revoked and its evidence counters at zero, and every
    source's estimate is invalidated. *)
Theorem step_withdraws_trust c freq known ops s op s' res x :
  Forall op_ok ops -> sys_run (New c freq known) ops = Some s -> op_ok op ->
  sys_exec s op = Some (s', res) -> In (ActionStep x) (r_Actions res) ->
  state s' = StateSettling /\ everSynced s' = false /\ postStepUpdates s' = 0 /\
  forall n y, sources s' !! n = Some y -> Valid y = false.
Proof.
  intros Hok Hr Hop Hs Hx. pose proof (run_inv _ _ _ _ _ Hok Hr) as Hi.
  destruct (sys_exec_inv _ _ _ _ Hi Hop) as (s1 & res1 & Hs1 & _ & _ & Hp).
  rewrite Hs in Hs1. injection Hs1 as <- <-. exact (Hp x Hx).
Qed.

Lemma step_withdraws_trust_witness :
  exists s' res, sys_exec (example_state example_start) example_step = Some (s', res) /\
    In (ActionStep (of_Z 5)) (r_Actions res) /\ state s' = StateSettling.
Proof.
  destruct (sys_exec (example_state example_start) example_step) as [[s' res]|] eqn:E.
  2: { assert (is_Some (sys_exec (example_state example_start) example_step)) as [? H]
         by (vm_compute; eauto). rewrite E in H. discriminate H. }
  exists s', res. split; [reflexivity|].
  assert (In (ActionStep (of_Z 5)) (r_Actions res)) as Hin.
  { assert (r_Actions ∘ snd <$> sys_exec (example_state example_start) example_step =
            Some [ActionStep (of_Z 5); ActionResetFilters]) as H by (vm_compute; reflexivity).
    rewrite E in H. injection H as H. rewrite H. left. reflexivity. }
  split; [exact Hin|].
  apply (step_withdraws_trust example_cfg fzero false example_start (example_state example_start)
           example_step s' res (of_Z 5)); try assumption.
  - apply op_okb_ok. vm_compute. reflexivity.
  - apply example_run. vm_compute. eauto.
  - intros _. split; vm_compute; reflexivity.
Defined.

(** The status never overstates.  In a reachable system [Status]
    returns; while UNSYNCED it reports stratum 16, leap indicator 3, the
    maximum dispersion and one of the three reason codes, and while SETTLING
    leap indicator 3 as well. *)
Theorem status_honest c freq known ops s now :
  Forall op_ok ops -> sys_run (New c freq known) ops = Some s ->
  exists st, SystemStatus s now = Some st /\ st_State st = state s /\
    (state s = StateUnsynced -> st_Stratum st = 16 /\ st_Leap st = LeapUnsync /\
       st_RootDisp st = MaxDispersion /\ st_RefID st ∈ [KissINIT; KissHOLD; KissPANC]) /\
    (state s = StateSettling -> st_Leap st = LeapUnsync).
Proof.
  intros Hok Hr. pose proof (run_inv _ _ _ _ _ Hok Hr) as Hi.
  destruct (all_total s (si_wf _ _ _ Hi)) as [srcs Ha].
  pose proof (po_reason _ (si_phase _ _ _ Hi)) as Hre. cbn in Hre.
  unfold SystemStatus. rewrite Ha. cbn [mbind option_bind]. eexists. split; [reflexivity|].
  destruct (state s) eqn:E; [|destruct (_ && _)|..]; repeat split; cbn; try done; by rewrite E.
Qed.

Lemma status_honest_witness :
  exists st, SystemStatus (example_state example_start) (of_Z 5) = Some st /\ st_Stratum st = 16 /\
    st_Leap st = LeapUnsync.
Proof.
  destruct (status_honest example_cfg fzero false example_start (example_state example_start) (of_Z 5))
    as (st & H1 & _ & H2 & _).
  - apply op_okb_ok. vm_compute. reflexivity.
  - apply example_run. vm_compute. eauto.
  - exists st. destruct H2 as (H2 & H3 & _); [vm_compute; reflexivity|]. auto.
Defined.

(** Holdover is bounded.  After a tick the system is in HOLDOVER only
    if the configured time since its sources were lost has not passed. *)
Theorem holdover_expires s now s' res :
  Tick s now = Some (s', res) -> state s' = StateHoldover ->
  fgt (fsub now (holdoverSince s')) (HoldoverMax (cfg s')) = false.
Proof.
  unfold Tick. destruct (reselect s now) as [[s1 res1]|]; [|done]. cbn [mbind option_bind].
  destruct (Loop_Tick (loop s1) now) as [l acts].
  set (s2 := s1 <| loop := l |>).
  destruct (state_eqb (state s2) StateHoldover && _) eqn:E.
  - bool_step. apply state_eqb_eq in H. unfold setState.
    change (state (s2 <| unsyncedReason := KissHOLD |>)) with (state s2). rewrite H. by intros [= <- _].
  - intros [= <- _] Hh. rewrite Hh in E. by destruct (fgt _ _).
Qed.

Lemma holdover_expires_witness :
  exists s' res, Tick (example_state example_synced) (of_Z 2000) = Some (s', res) /\
    state s' = StateHoldover /\ fgt (fsub (of_Z 2000) (holdoverSince s')) (HoldoverMax (cfg s')) = false.
Proof.
  destruct (Tick (example_state example_synced) (of_Z 2000)) as [[s' res]|] eqn:E.
  2: { assert (is_Some (Tick (example_state example_synced) (of_Z 2000))) as [? H]
         by (vm_compute; eauto). rewrite E in H. discriminate H. }
  exists s', res. split; [reflexivity|].
  assert (state s' = StateHoldover) as Hs.
  { assert (state ∘ fst <$> Tick (example_state example_synced) (of_Z 2000) = Some StateHoldover) as H
      by (vm_compute; reflexivity). rewrite E in H. injection H as H. exact H. }
  split; [exact Hs|]. exact (holdover_expires _ _ _ _ E Hs).
Defined.
