(* ===== verification/Netip.v ===== *)
(** * net/netip: addresses and prefixes, as the server uses them

    An address is invalid, IPv4 or IPv6 with an optional zone; the numeric
    value is the big-endian reading of its bytes. *)

From stdpp Require Import base list strings numbers countable.
From Stdlib Require Import Lia ZArith.
From S2P Require Import Prelude.

Local Open Scope Z_scope.

Inductive Addr : Type :=
| AddrInvalid
| Addr4 (a : Z)
| Addr6 (a : Z) (zone : string).

#[export] Instance Addr_eq_dec : EqDecision Addr.
Proof. solve_decision. Defined.

#[export] Instance Addr_countable : Countable Addr.
Proof.
  refine (inj_countable'
    (fun x => match x with AddrInvalid => inl () | Addr4 a => inr (inl a) | Addr6 a z => inr (inr (a, z)) end)
    (fun x => match x with inl _ => AddrInvalid | inr (inl a) => Addr4 a | inr (inr (a, z)) => Addr6 a z end) _).
  by intros [].
Defined.

Definition IsValid (x : Addr) : bool := match x with AddrInvalid => false | _ => true end.
Definition Is4 (x : Addr) : bool := match x with Addr4 _ => true | _ => false end.
Definition Is6 (x : Addr) : bool := match x with Addr6 _ _ => true | _ => false end.

Definition BitLen (x : Addr) : Z :=
  match x with AddrInvalid => 0 | Addr4 _ => 32 | Addr6 _ _ => 128 end.

Definition addr_bits (x : Addr) : Z :=
  match x with AddrInvalid => 0 | Addr4 a => a | Addr6 a _ => a end.

(** [::ffff:0:0/96] becomes IPv4, and loses its zone. *)
Definition Unmap (x : Addr) : Addr :=
  match x with
  | Addr6 a _ => if Z.shiftr a 32 =? 65535 then Addr4 (Z.land a (2 ^ 32 - 1)) else x
  | _ => x
  end.

Definition IsUnspecified (x : Addr) : bool :=
  bool_decide (x = Addr4 0) || bool_decide (x = Addr6 0 "").

Definition IsMulticast (x : Addr) : bool :=
  match x with
  | AddrInvalid => false
  | Addr4 a => Z.shiftr a 28 =? 14
  | Addr6 a _ => Z.shiftr a 120 =? 255
  end.

Definition IsLinkLocalMulticast (x : Addr) : bool :=
  match x with
  | AddrInvalid => false
  | Addr4 a => Z.shiftr a 8 =? 14680064
  | Addr6 a _ => Z.land (Z.shiftr a 112) 65295 =? 65282
  end.

Definition IsInterfaceLocalMulticast (x : Addr) : bool :=
  match x with
  | Addr6 a _ => negb (Z.shiftr a 32 =? 65535) && (Z.land (Z.shiftr a 112) 65295 =? 65281)
  | _ => false
  end.

(** The top byte of an IPv4 address, [As4()[0]]. *)
Definition As4_first (x : Addr) : Z := Z.shiftr (addr_bits x) 24.

(** A prefix; its bits are -1 when it is invalid. *)
Record Prefix : Type := mkPrefix { p_addr : Addr; p_bits : Z }.

#[export] Instance Prefix_eq_dec : EqDecision Prefix.
Proof. solve_decision. Defined.

Definition hasZone (x : Addr) : bool :=
  match x with Addr6 _ z => negb (bool_decide (z = ""%string)) | _ => false end.

Definition prefix_valid (p : Prefix) : bool :=
  IsValid (p_addr p) && (0 <=? p_bits p) && (p_bits p <=? BitLen (p_addr p)) && negb (hasZone (p_addr p)).

(** The value with all but the first [b] of [w] bits cleared. *)
Definition mask_bits (w b a : Z) : Z := Z.shiftl (Z.shiftr a (w - b)) (w - b).

(** [Addr.Prefix]: [None] is an error. *)
Definition addr_prefix (x : Addr) (b : Z) : option Prefix :=
  if negb (IsValid x) || (b <? 0) || (BitLen x <? b) then None
  else Some (mkPrefix match x with
    | AddrInvalid => AddrInvalid
    | Addr4 a => Addr4 (mask_bits 32 b a)
    | Addr6 a _ => Addr6 (mask_bits 128 b a) ""
    end b).

(** [Prefix.Masked]: an invalid prefix masks to the invalid prefix. *)
Definition Masked (p : Prefix) : Prefix :=
  default (mkPrefix AddrInvalid (-1)) (addr_prefix (p_addr p) (p_bits p)).

(** [Prefix.Contains]. *)
Definition Contains (p : Prefix) (x : Addr) : bool :=
  if negb (prefix_valid p) || hasZone x then false
  else if (BitLen x =? 0) || negb (BitLen (p_addr p) =? BitLen x) then false
  else Z.shiftr (Z.lxor (addr_bits x) (addr_bits (p_addr p))) (BitLen x - p_bits p) =? 0.

Record AddrPort : Type := mkAddrPort { ap_addr : Addr; ap_port : Z }.

#[export] Instance AddrPort_eq_dec : EqDecision AddrPort.
Proof. solve_decision. Defined.

(** ** Masking *)

(** An address is within its own prefix. *)
Lemma mask_contains w b a : 0 <= b <= w -> Z.shiftr (Z.lxor a (mask_bits w b a)) (w - b) = 0.
Proof.
  intros H. unfold mask_bits. apply Z.bits_inj'. intros n Hn. rewrite Z.bits_0.
  rewrite Z.shiftr_spec, Z.lxor_spec, Z.shiftl_spec, Z.shiftr_spec by lia.
  replace (n + (w - b) - (w - b) + (w - b)) with (n + (w - b)) by lia. apply xorb_nilpotent.
Qed.

(** Prefix membership compares the leading bits. *)
Lemma prefix_same_bits w b x y :
  0 <= b <= w -> Z.shiftr (Z.lxor x y) (w - b) = 0 <-> mask_bits w b x = mask_bits w b y.
Proof.
  intros H. unfold mask_bits. split; intros E.
  - f_equal. rewrite Z.shiftr_lxor in E. by apply Z.lxor_eq in E.
  - rewrite Z.shiftr_lxor. apply (f_equal (fun z => Z.shiftr z (w - b))) in E.
    rewrite !Z.shiftr_shiftl_l, Z.sub_diag, !Z.shiftl_0_r in E by lia. rewrite E. apply Z.lxor_nilpotent.
Qed.
