(* ===== verification/RateLimit.v ===== *)
(** * internal/server/ratelimit.go: the bounded token-bucket table

    The table is a map of buckets and a recency list.  The code's list holds
    pointers to the buckets of the map; here it holds their keys, most
    recently used first. *)

From stdpp Require Import base list strings numbers gmap.
From Stdlib Require Import Lia ZArith.
From S2P Require Import Prelude Float64 GoTime Netip.

Local Open Scope Z_scope.

Definition DefaultMaxClients : Z := 65536.
Definition clientIdleExpiry : duration := 60 * Second.
Definition kodInterval : duration := 4 * Second.
Definition DefaultRateLimitV6Prefix : Z := 64.

(** The budgets a single address can draw on. *)
Inductive keyspace : Type :=
| spaceService
| spaceCrypto.

#[export] Instance keyspace_eq_dec : EqDecision keyspace.
Proof. solve_decision. Defined.
#[export] Instance keyspace_countable : Countable keyspace.
Proof.
  refine (inj_countable' (fun x => match x with spaceService => true | spaceCrypto => false end)
    (fun x : bool => if x then spaceService else spaceCrypto) _). by intros [].
Defined.

Record bucketKey : Type := mkBucketKey {
  bk_addr : Addr;
  bk_keyID : Z;
  bk_space : keyspace
}.

#[export] Instance bucketKey_eq_dec : EqDecision bucketKey.
Proof. solve_decision. Defined.
#[export] Instance bucketKey_countable : Countable bucketKey.
Proof.
  refine (inj_countable' (fun k => (bk_addr k, bk_keyID k, bk_space k))
    (fun k => mkBucketKey k.1.1 k.1.2 k.2) _). by intros [].
Defined.

Record clientBucket : Type := mkClientBucket {
  tokens : f64;
  updated : time;
  lastSeen : time;
  lastKoD : time
}.

#[export] Instance clientBucket_eta : Eta clientBucket := fun b =>
  mkClientBucket (tokens b) (updated b) (lastSeen b) (lastKoD b).

Record rateLimiter : Type := mkRateLimiter {
  rate : f64;
  burst : f64;
  maxClients : Z;
  v6Prefix : Z;
  clients : gmap bucketKey clientBucket;
  lru : list bucketKey
}.

#[export] Instance rateLimiter_eta : Eta rateLimiter := fun l =>
  mkRateLimiter (rate l) (burst l) (maxClients l) (v6Prefix l) (clients l) (lru l).

Definition newRateLimiter (rate burst : f64) (maxClients v6Prefix : Z) : rateLimiter :=
  let maxClients := if maxClients <=? 0 then DefaultMaxClients else maxClients in
  let v6Prefix := if (v6Prefix <=? 0) || (128 <? v6Prefix) then DefaultRateLimitV6Prefix else v6Prefix in
  mkRateLimiter rate burst maxClients v6Prefix ∅ [].

Definition spaceKey (l : rateLimiter) (addr : Addr) (keyID : Z) (space : keyspace) : bucketKey :=
  let addr := Unmap addr in
  let addr :=
    if Is6 addr && (v6Prefix l <? 128) then
      match addr_prefix addr (v6Prefix l) with Some p => p_addr p | None => addr end
    else addr in
  mkBucketKey addr keyID space.

(** [key] and [cryptoKey]. *)
Definition key (l : rateLimiter) (addr : Addr) (keyID : Z) : bucketKey := spaceKey l addr keyID spaceService.
Definition cryptoKey (l : rateLimiter) (addr : Addr) : bucketKey := spaceKey l addr 0 spaceCrypto.

Definition size (l : rateLimiter) : Z := Z.of_nat (base.size (clients l)).

(** [remove]. *)
Definition remove (l : rateLimiter) (k : bucketKey) : rateLimiter :=
  l <| clients := delete k (clients l) |> <| lru := filter (fun x => x <> k) (lru l) |>.

(** [expire]: from the least recently used end, while idle too long; the
    recursion is on the reversed list. *)
Fixpoint expire_from (l : rateLimiter) (now : time) (back : list bucketKey) : rateLimiter :=
  match back with
  | [] => l
  | k :: back =>
      match clients l !! k with
      | Some b => if Sub now (lastSeen b) <=? clientIdleExpiry then l
                  else expire_from (remove l k) now back
      | None => l
      end
  end.

Definition expire (l : rateLimiter) (now : time) : rateLimiter := expire_from l now (reverse (lru l)).

(** [evictOldest]. *)
Definition evictOldest (l : rateLimiter) : rateLimiter :=
  match last (lru l) with Some k => remove l k | None => l end.

(** The bucket a packet finds, refilled or new, now at the front. *)
Definition touch (l : rateLimiter) (k : bucketKey) (now : time) : rateLimiter * clientBucket :=
  match clients l !! k with
  | None =>
      let l := if maxClients l <=? size l then evictOldest l else l in
      let b := mkClientBucket (burst l) now now zeroTime in
      (l <| clients := <[k := b]> (clients l) |> <| lru := k :: lru l |>, b)
  | Some b =>
      let elapsed := Seconds (Sub now (updated b)) in
      let b := if fgt elapsed fzero
               then b <| tokens := fmin_builtin (burst l) (fadd (tokens b) (fmul elapsed (rate l))) |>
               else b in
      let b := b <| updated := now |> <| lastSeen := now |> in
      (l <| clients := <[k := b]> (clients l) |>
         <| lru := k :: filter (fun x => x <> k) (lru l) |>, b)
  end.

Definition store_bucket (l : rateLimiter) (k : bucketKey) (b : clientBucket) : rateLimiter :=
  l <| clients := <[k := b]> (clients l) |>.

(** [allow]: the new table, whether the packet may be served, and whether a
    RATE kiss is due. *)
Definition allow (l : rateLimiter) (k : bucketKey) (now : time) : rateLimiter * bool * bool :=
  let l := expire l now in
  let '(l, b) := touch l k now in
  if fge (tokens b) (of_Z 1) then
    (store_bucket l k (b <| tokens := fsub (tokens b) (of_Z 1) |>), true, false)
  else if IsZero (lastKoD b) || (kodInterval <=? Sub now (lastKoD b)) then
    (store_bucket l k (b <| lastKoD := now |>), false, true)
  else (l, false, false).

(** ** The table's invariant *)

(** The map and the list hold the same keys, and no more than allowed. *)
Record lim_ok (l : rateLimiter) : Prop := {
  lo_nodup : NoDup (lru l);
  lo_same : forall k, k ∈ lru l <-> is_Some (clients l !! k);
  lo_max : 1 <= maxClients l;
  lo_size : size l <= maxClients l
}.

Lemma size_lru l : NoDup (lru l) -> (forall k, k ∈ lru l <-> is_Some (clients l !! k)) ->
  size l = Z.of_nat (length (lru l)).
Proof.
  intros Hn Hs. unfold size. f_equal. rewrite <- size_dom.
  rewrite <- (size_list_to_set (C := gset bucketKey) (lru l)) by done. f_equal.
  apply set_eq. intros k. by rewrite elem_of_dom, elem_of_list_to_set, Hs.
Qed.

Lemma remove_ok l k : lim_ok l -> lim_ok (remove l k).
Proof.
  intros [H1 H2 H3 H4].
  assert (NoDup (lru (remove l k))) as Hn by (apply NoDup_filter; done).
  assert (forall x, x ∈ lru (remove l k) <-> is_Some (clients (remove l k) !! x)) as Hs.
  { intros x. cbn. rewrite list_elem_of_filter, H2. destruct (decide (k = x)) as [->|Hne].
    - rewrite lookup_delete_eq. split; [tauto|by intros []].
    - rewrite lookup_delete_ne by done. split; [tauto|]. intros H. split; [congruence|done]. }
  constructor; try done. rewrite size_lru by done. rewrite size_lru in H4 by done.
  change (maxClients (remove l k)) with (maxClients l).
  change (lru (remove l k)) with (filter (fun x => x <> k) (lru l)).
  pose proof (length_filter (fun x => x <> k) (lru l)). lia.
Qed.

(** What a removal keeps. *)
Lemma remove_lookup l k x : x <> k -> clients (remove l k) !! x = clients l !! x.
Proof. intros H. cbn. by rewrite lookup_delete_ne. Qed.

Lemma expire_from_ok l now back : lim_ok l -> lim_ok (expire_from l now back).
Proof.
  revert l. induction back as [|k back IH]; intros l Hl; cbn [expire_from]; [done|].
  destruct (clients l !! k) as [b|]; [|done]. case_goal; [done|]. by apply IH, remove_ok.
Qed.

(** Expiry removes only clients idle for longer than the limit. *)
Lemma expire_from_lookup l now back k b :
  clients l !! k = Some b -> Sub now (lastSeen b) <= clientIdleExpiry ->
  clients (expire_from l now back) !! k = Some b.
Proof.
  revert l. induction back as [|x back IH]; intros l Hk Hb; cbn [expire_from]; [done|].
  destruct (clients l !! x) as [c|] eqn:Ex; [|done]. case_goal; [done|]. bool_step.
  apply IH; [|done]. rewrite remove_lookup; [done|]. intros ->. rewrite Hk in Ex. injection Ex as <-. lia.
Qed.

Lemma expire_from_sub l now back k b :
  clients (expire_from l now back) !! k = Some b -> clients l !! k = Some b.
Proof.
  revert l. induction back as [|x back IH]; intros l; cbn [expire_from]; [done|].
  destruct (clients l !! x) as [c|]; [|done]. case_goal; [done|]. intros H. apply IH in H.
  cbn in H. by apply lookup_delete_Some in H as [_ H].
Qed.

Lemma expire_from_config l now back :
  let l' := expire_from l now back in
  rate l' = rate l /\ burst l' = burst l /\ maxClients l' = maxClients l /\ v6Prefix l' = v6Prefix l /\
  size l' <= size l.
Proof.
  cbn zeta. revert l. induction back as [|x back IH]; intros l; cbn [expire_from]; [repeat split; lia|].
  destruct (clients l !! x) as [c|]; [|repeat split; lia]. case_goal; [repeat split; lia|].
  destruct (IH (remove l x)) as (H1 & H2 & H3 & H4 & H5). repeat split; try done.
  assert (size (remove l x) <= size l); [|lia]. unfold size.
  change (clients (remove l x)) with (delete x (clients l)).
  rewrite map_size_delete. destruct (clients l !! x); unfold id; lia.
Qed.

Lemma evictOldest_ok l : lim_ok l -> lim_ok (evictOldest l).
Proof. intros H. unfold evictOldest. case_goal; [by apply remove_ok|done]. Qed.

(** Eviction makes room in a table that holds anything. *)
Lemma evictOldest_size l : lim_ok l -> maxClients l <= size l -> size (evictOldest l) < maxClients l.
Proof.
  intros [H1 H2 H3 H4] Hf. rewrite size_lru in Hf by done.
  unfold evictOldest. destruct (last (lru l)) as [k|] eqn:E.
  - assert (is_Some (clients l !! k)) as [b Hb].
    { apply H2. apply last_Some in E as [pre ->]. apply elem_of_app. right. apply list_elem_of_here. }
    rewrite <- size_lru in Hf by done. unfold size in *.
    change (clients (remove l k)) with (delete k (clients l)). rewrite map_size_delete, Hb.
    assert (base.size (clients l) <> 0%nat) by (apply (map_size_ne_0_lookup_2 _ k); eauto). lia.
  - apply last_None in E. rewrite E in Hf. cbn in Hf. lia.
Qed.

(** Inserting under a key, at the front of the list. *)
Lemma insert_front_ok l k b xs :
  lim_ok l -> (clients l !! k = None -> size l < maxClients l) ->
  xs = filter (fun x => x <> k) (lru l) ->
  lim_ok (l <| clients := <[k := b]> (clients l) |> <| lru := k :: xs |>).
Proof.
  intros [H1 H2 H3 H4] Hroom ->.
  assert (forall x, x ∈ k :: filter (fun x => x <> k) (lru l) <-> is_Some (<[k := b]> (clients l) !! x)) as Hs.
  { intros x. rewrite elem_of_cons, list_elem_of_filter, H2. destruct (decide (k = x)) as [->|Hne].
    - rewrite lookup_insert_eq. split; [eauto|by left].
    - rewrite lookup_insert_ne by done. split; [by intros [?|[_ ?]]|]. intros H. right. split; [congruence|done]. }
  constructor; try done.
  - apply NoDup_cons. split; [|by apply NoDup_filter]. rewrite list_elem_of_filter. tauto.
  - change (Z.of_nat (base.size (<[k := b]> (clients l))) <= maxClients l). rewrite map_size_insert.
    change (Z.of_nat (base.size (clients l)) <= maxClients l) in H4.
    destruct (clients l !! k) eqn:E; [exact H4|]. specialize (Hroom eq_refl). unfold size in Hroom. lia.
Qed.

Lemma filter_absent (k : bucketKey) (l : list bucketKey) : k ∉ l -> filter (fun x => x <> k) l = l.
Proof.
  induction l as [|x l IH]; intros Hk; [done|]. apply not_elem_of_cons in Hk as [Hne Hk].
  rewrite filter_cons_True by congruence. by rewrite IH.
Qed.

(** The table [touch] inserts a new bucket into has room for it. *)
Lemma evict_room l k :
  lim_ok l -> clients l !! k = None ->
  let l1 := if maxClients l <=? size l then evictOldest l else l in
  lim_ok l1 /\ clients l1 !! k = None /\ size l1 < maxClients l1.
Proof.
  intros Hl Hk. cbn zeta. destruct (maxClients l <=? size l) eqn:E; bool_step; [|done].
  pose proof (evictOldest_size l Hl E) as Hs. split; [by apply evictOldest_ok|].
  unfold evictOldest in *. destruct (last (lru l)); split; try done.
  cbn. by apply lookup_delete_None; right.
Qed.

Lemma touch_ok l k now l' b : lim_ok l -> touch l k now = (l', b) -> lim_ok l' /\ clients l' !! k = Some b.
Proof.
  intros Hl. unfold touch. destruct (clients l !! k) as [b0|] eqn:Ek.
  - intros [= <- <-]. split; [|apply lookup_insert_eq]. apply insert_front_ok; [done| |done].
    rewrite Ek. done.
  - destruct (evict_room l k Hl Ek) as (H1 & H2 & H3). revert H1 H2 H3.
    generalize (if maxClients l <=? size l then evictOldest l else l). intros l1 H1 H2 H3.
    intros [= <- <-]. split; [|apply lookup_insert_eq].
    apply insert_front_ok; [done|done|]. rewrite filter_absent; [done|].
    intros Hin. apply H1 in Hin. rewrite H2 in Hin. by destruct Hin.
Qed.

Lemma store_bucket_ok l k b b0 : lim_ok l -> clients l !! k = Some b0 -> lim_ok (store_bucket l k b).
Proof.
  intros [H1 H2 H3 H4] Hk. constructor; try done.
  - intros x. rewrite H2. change (clients (store_bucket l k b)) with (<[k := b]> (clients l)).
    destruct (decide (k = x)) as [->|Hne]; [rewrite Hk, lookup_insert_eq; split; eauto|].
    by rewrite lookup_insert_ne.
  - change (Z.of_nat (base.size (<[k := b]> (clients l))) <= maxClients l). rewrite map_size_insert, Hk. exact H4.
Qed.

Lemma allow_ok l k now : lim_ok l -> lim_ok (fst (fst (allow l k now))).
Proof.
  intros Hl. unfold allow. pose proof (expire_from_ok l now (reverse (lru l)) Hl) as He.
  fold (expire l now) in He. destruct (touch (expire l now) k now) as [l' b] eqn:Et.
  destruct (touch_ok _ _ _ _ _ He Et) as [H1 H2].
  repeat case_goal; cbn [fst]; eauto using store_bucket_ok.
Qed.

Lemma newRateLimiter_ok r b m v : lim_ok (newRateLimiter r b m v).
Proof.
  constructor; cbn.
  - constructor.
  - intros k. rewrite lookup_empty. split; [intros H; by apply elem_of_nil in H|by intros []].
  - unfold DefaultMaxClients. case_goal; crush.
  - unfold size. cbn. rewrite map_size_empty. unfold DefaultMaxClients. case_goal; crush.
Qed.

(** A packet's bucket draws on no other bucket. *)
Lemma touch_other l k now l' b x bx :
  lim_ok l -> touch l k now = (l', b) -> x <> k -> clients l !! x = Some bx ->
  (is_Some (clients l !! k) \/ size l < maxClients l) -> clients l' !! x = Some bx.
Proof.
  intros Hl Ht Hx Hb Hroom. unfold touch in Ht. destruct (clients l !! k) as [b0|] eqn:Ek.
  - injection Ht as <- _. cbn. by rewrite lookup_insert_ne by congruence.
  - destruct (maxClients l <=? size l) eqn:E; bool_step.
    + destruct Hroom as [[]|]; [done|lia].
    + injection Ht as <- _. cbn. by rewrite lookup_insert_ne by congruence.
Qed.

(** ** Runs *)

Fixpoint allow_run (l : rateLimiter) (reqs : list (bucketKey * time)) : rateLimiter :=
  match reqs with
  | [] => l
  | (k, now) :: reqs => allow_run (fst (fst (allow l k now))) reqs
  end.

Lemma allow_run_ok l reqs : lim_ok l -> lim_ok (allow_run l reqs).
Proof.
  revert l. induction reqs as [|[k now] reqs IH]; intros l Hl; cbn [allow_run]; [done|].
  by apply IH, allow_ok.
Qed.

Lemma allow_run_max l reqs : maxClients (allow_run l reqs) = maxClients l.
Proof.
  revert l. induction reqs as [|[k now] reqs IH]; intros l; cbn [allow_run]; [done|]. rewrite IH.
  unfold allow. pose proof (expire_from_config l now (reverse (lru l))) as (_ & _ & H & _).
  fold (expire l now) in H. rewrite <- H. generalize (expire l now). intros m.
  assert (maxClients (fst (touch m k now)) = maxClients m) as E.
  { unfold touch, evictOldest. repeat case_goal; done. }
  destruct (touch m k now) as [m' b]. cbn [fst] in E. rewrite <- E.
  repeat case_goal; done.
Qed.

(** ** Claims *)

(** The rate-limit table is bounded whatever arrives.  After any
    sequence of packets from any addresses at any times it tracks at most
    [maxClients] buckets (65536 when none is configured), and its recency
    list holds exactly the tracked keys, each once. *)
Theorem limiter_bounded r b m v reqs :
  let l := allow_run (newRateLimiter r b m v) reqs in
  size l <= (if m <=? 0 then 65536 else m) /\ NoDup (lru l) /\
  forall k, k ∈ lru l <-> is_Some (clients l !! k).
Proof.
  cbn zeta. pose proof (allow_run_ok _ reqs (newRateLimiter_ok r b m v)) as [H1 H2 H3 H4].
  rewrite allow_run_max in H4. done.
Qed.

(** Budgets are isolated.  A packet drawn on one bucket leaves every
    other client's bucket exactly as it was, unless that client has been idle
    for more than a minute or a new client arrives at a full table; so a
    flood of bad MACs on an address's crypto budget spends no token of the
    same address's service budget or of an authenticated peer's. *)
Theorem limiter_isolated l k now x bx :
  lim_ok l -> x <> k -> clients l !! x = Some bx -> Sub now (lastSeen bx) <= clientIdleExpiry ->
  (is_Some (clients (expire l now) !! k) \/ size (expire l now) < maxClients l) ->
  clients (fst (fst (allow l k now))) !! x = Some bx.
Proof.
  intros Hl Hx Hb Hi Hroom. pose proof (expire_from_ok l now (reverse (lru l)) Hl) as He.
  pose proof (expire_from_lookup l now (reverse (lru l)) x bx Hb Hi) as Hb'.
  pose proof (expire_from_config l now (reverse (lru l))) as (_ & _ & Hm & _).
  fold (expire l now) in He, Hb', Hm. rewrite <- Hm in Hroom. unfold allow.
  destruct (touch (expire l now) k now) as [l' b] eqn:Et.
  pose proof (touch_other _ _ _ _ _ _ _ He Et Hx Hb' Hroom) as Hl'.
  repeat case_goal; cbn; rewrite ?lookup_insert_ne by congruence; done.
Qed.

(** An address with a spent crypto budget and a full service budget. *)
Definition example_addr : Addr := Addr4 3221225985.
Definition example_limiter : rateLimiter := newRateLimiter (of_Z 1) (of_Z 2) 8 64.
Definition at_second (n : Z) : time := n * Second.

Lemma limiter_isolated_witness :
  let l := allow_run example_limiter [(key example_limiter example_addr 7, at_second 100)] in
  let k := cryptoKey example_limiter example_addr in
  clients (fst (fst (allow l k (at_second 101)))) !! key example_limiter example_addr 7
    = clients l !! key example_limiter example_addr 7.
Proof.
  cbv zeta. set (l := allow_run _ _). set (x := key example_limiter example_addr 7).
  destruct (clients l !! x) as [bx|] eqn:E; [|vm_compute in E; discriminate E].
  apply (limiter_isolated l (cryptoKey example_limiter example_addr) (at_second 101) x bx).
  - apply allow_run_ok, newRateLimiter_ok.
  - intros H. vm_compute in H. discriminate H.
  - exact E.
  - assert (lastSeen bx = at_second 100) as ->.
    { assert (lastSeen <$> clients l !! x = Some (at_second 100)) as H by (vm_compute; reflexivity).
      rewrite E in H. injection H as H. exact H. }
    vm_compute. discriminate.
  - right. vm_compute. reflexivity.
Defined.

(** RATE kisses are spaced.  A kiss is sent only for a refused
    packet, is recorded as sent now, and follows the previous kiss to the same
    tracked client by at least four seconds. *)
Theorem kod_spaced l k now l' allowed :
  lim_ok l -> allow l k now = (l', allowed, true) ->
  allowed = false /\
  (exists b', clients l' !! k = Some b' /\ lastKoD b' = now) /\
  forall b, clients (expire l now) !! k = Some b ->
    IsZero (lastKoD b) = true \/ kodInterval <= Sub now (lastKoD b).
Proof.
  intros Hl. unfold allow. destruct (touch (expire l now) k now) as [l1 b] eqn:Et.
  assert (forall b0, clients (expire l now) !! k = Some b0 -> lastKoD b0 = lastKoD b) as Hsame.
  { intros b0 Hb0. unfold touch in Et. rewrite Hb0 in Et. injection Et as _ <-. by case_goal. }
  case_goal; [done|]. destruct (IsZero (lastKoD b) || _) eqn:E; [|done].
  intros [= <- <-]. split; [done|]. split.
  - exists (b <| lastKoD := now |>). split; [apply lookup_insert_eq|done].
  - intros b0 Hb0. rewrite (Hsame b0 Hb0). apply orb_true_iff in E as [E|E]; [by left|right].
    by bool_step.
Qed.

Lemma kod_spaced_witness :
  let l := allow_run example_limiter (repeat (key example_limiter example_addr 0, at_second 100) 2) in
  exists l', allow l (key example_limiter example_addr 0) (at_second 100) = (l', false, true) /\
    exists b', clients l' !! key example_limiter example_addr 0 = Some b' /\ lastKoD b' = at_second 100.
Proof.
  cbv zeta. set (l := allow_run _ _). set (k := key _ _ _).
  destruct (allow l k (at_second 100)) as [[l' al] sk] eqn:E.
  assert (al = false /\ sk = true) as [Ha Hs].
  { assert ((snd (fst (allow l k (at_second 100))), snd (allow l k (at_second 100))) = (false, true)) as H
      by (vm_compute; reflexivity). rewrite E in H. injection H as H1 H2. auto. }
  rewrite Ha, Hs in E |- *. exists l'. split; [reflexivity|].
  destruct (kod_spaced l k (at_second 100) l' false) as (_ & H & _); [|exact E|exact H].
  apply allow_run_ok, newRateLimiter_ok.
Defined.
