(* ===== verification/GoStrings.v ===== *)
(** * strings, strconv, encoding/hex and bufio, as the parsers use them

    A string is the list of its bytes.  White space and case are ASCII: for a
    string with bytes from 128 up, the library also splits at the non-ASCII
    space characters, which these definitions do not. *)

From stdpp Require Import base list numbers.
From Stdlib Require Import Lia ZArith.
From S2P Require Import Prelude.

Local Open Scope Z_scope.

Abbreviation str := (list Z).

(** [unicode.IsSpace] on ASCII: tab, newline, vertical tab, form feed,
    carriage return, space. *)
Definition is_space (c : Z) : bool := ((9 <=? c) && (c <=? 13)) || (c =? 32).

Definition is_digit (c : Z) : bool := (48 <=? c) && (c <=? 57).

Fixpoint trim_left (s : str) : str :=
  match s with
  | c :: r => if is_space c then trim_left r else s
  | [] => []
  end.

(** [strings.TrimSpace]. *)
Definition TrimSpace (s : str) : str := reverse (trim_left (reverse (trim_left s))).

(** The field being read, in reverse, and those after it. *)
Fixpoint fields_from (cur : str) (s : str) : list str :=
  match s with
  | [] => match cur with [] => [] | _ => [reverse cur] end
  | c :: r =>
      if is_space c
      then match cur with [] => fields_from [] r | _ => reverse cur :: fields_from [] r end
      else fields_from (c :: cur) r
  end.

(** [strings.Fields]. *)
Definition Fields (s : str) : list str := fields_from [] s.

(** [strings.HasPrefix]. *)
Definition HasPrefix (s p : str) : bool := bool_decide (take (length p) s = p).

(** [s[:i]] for the first [i] where byte [c] occurs; [s] when it does not. *)
Fixpoint cut_at (c : Z) (s : str) : str :=
  match s with
  | [] => []
  | x :: r => if x =? c then [] else x :: cut_at c r
  end.

(** The value of a digit string. *)
Definition digits_value (s : str) : Z := fold_left (fun v c => v * 10 + (c - 48)) s 0.

(** [strconv.ParseUint(s, 10, bits)]: [None] is an error. *)
Definition ParseUint (bits : Z) (s : str) : option Z :=
  if (length s =? 0)%nat || negb (forallb is_digit s) then None
  else let v := digits_value s in if v <? 2 ^ bits then Some v else None.

(** [strconv.Atoi]: an optional sign, then digits, within int64. *)
Definition Atoi (s : str) : option Z :=
  let '(neg, body) :=
    match s with
    | 45 :: r => (true, r)
    | 43 :: r => (false, r)
    | _ => (false, s)
    end in
  if (length body =? 0)%nat || negb (forallb is_digit body) then None
  else
    let v := if neg then - digits_value body else digits_value body in
    if (- 2 ^ 63 <=? v) && (v <? 2 ^ 63) then Some v else None.

Definition lower (c : Z) : Z := if (65 <=? c) && (c <=? 90) then c + 32 else c.

(** [strings.EqualFold]. *)
Definition EqualFold (a b : str) : bool := bool_decide (lower <$> a = lower <$> b).

Definition hex_digit (c : Z) : option Z :=
  if is_digit c then Some (c - 48)
  else if (97 <=? c) && (c <=? 102) then Some (c - 87)
  else if (65 <=? c) && (c <=? 70) then Some (c - 55)
  else None.

(** [hex.DecodeString]. *)
Fixpoint hex_decode (s : str) : option (list Z) :=
  match s with
  | [] => Some []
  | a :: b :: r =>
      x ← hex_digit a; y ← hex_digit b; l ← hex_decode r; Some (x * 16 + y :: l)
  | [_] => None
  end.

(** [hex.EncodeToString]. *)
Definition hex_char (v : Z) : Z := if v <? 10 then 48 + v else 87 + v.
Definition hex_encode (b : list Z) : str := b ≫= (fun x => [hex_char (x / 16); hex_char (x mod 16)]).

(** The longest line a scanner with a 64 KiB buffer returns. *)
Definition maxLine : Z := 65535.

Definition drop_cr (l : str) : str :=
  match reverse l with 13 :: r => reverse r | _ => l end.

(** [bufio.ScanLines] over the input: the lines, and whether the scanner
    stopped at one that is too long; [n] bytes of the current line are read,
    in reverse in [cur]. *)
Fixpoint lines_from (cur : str) (n : Z) (s : str) : list str * bool :=
  match s with
  | [] => (match cur with [] => [] | _ => [drop_cr (reverse cur)] end, false)
  | c :: r =>
      if c =? 10 then let '(ls, e) := lines_from [] 0 r in (drop_cr (reverse cur) :: ls, e)
      else if maxLine <=? n then ([], true)
      else lines_from (c :: cur) (n + 1) r
  end.

Definition scan_lines (s : str) : list str * bool := lines_from [] 0 s.

(** ** Facts *)

Lemma hex_decode_length s l : hex_decode s = Some l -> (length s = 2 * length l)%nat /\ Forall is_byte l.
Proof.
  revert l. induction s as [s IH] using (induction_ltof1 _ (@length Z)). unfold ltof in IH.
  destruct s as [|a [|b r]]; intros l; cbn [hex_decode].
  - intros [= <-]. by split.
  - done.
  - destruct (hex_digit a) as [x|] eqn:Ea; [|done]. destruct (hex_digit b) as [y|] eqn:Eb; [|done]. cbn.
    destruct (hex_decode r) as [k|] eqn:Er; [|done]. intros [= <-].
    destruct (IH r ltac:(cbn; lia) k Er) as [H1 H2]. split; [cbn; lia|]. constructor; [|done].
    assert (forall c v, hex_digit c = Some v -> 0 <= v < 16) as Hd.
    { intros c v. unfold hex_digit, is_digit. repeat case_goal; intros [= <-]; repeat bool_step; lia. }
    apply Hd in Ea, Eb. unfold is_byte. lia.
Qed.

Lemma ParseUint_range bits s v : ParseUint bits s = Some v -> 0 <= v < 2 ^ bits.
Proof.
  unfold ParseUint. case_goal; [done|]. cbn zeta. case_goal; [|done]. intros [= <-]. repeat bool_step.
  split; [|done]. unfold digits_value.
  apply (fold_left_inv (fun v => 0 <= v)); [|lia]. intros acc c Hc Hacc.
  match goal with H : forallb is_digit s = true |- _ => rename H into Hd end.
  apply list_elem_of_In in Hc. pose proof (proj1 (List.forallb_forall _ _) Hd c Hc) as Hx.
  unfold is_digit in Hx. repeat bool_step. lia.
Qed.
