(* ===== verification/NetipParse.v ===== *)
(** * net/netip: parsing addresses, prefixes and endpoints

    The text forms the configuration is written in, following the library's
    [ParseAddr], [ParsePrefix] and [ParseAddrPort]; none is an error. *)

From stdpp Require Import base list strings numbers.
From Stdlib Require Import Lia ZArith.
From S2P Require Import Prelude GoStrings Netip.

Local Open Scope Z_scope.

(** The bytes of a string, and back. *)
Definition str_of (s : string) : str := (fun a => Z.of_N (Ascii.N_of_ascii a)) <$> String.list_ascii_of_string s.
Definition string_of (s : str) : string := String.string_of_list_ascii ((fun c => Ascii.ascii_of_N (Z.to_N c)) <$> s).

(** [strings.IndexByte] and [strings.LastIndexByte], as the text on both sides. *)
Fixpoint cut_byte (c : Z) (s : str) : option (str * str) :=
  match s with
  | [] => None
  | x :: s => if x =? c then Some ([], s) else match cut_byte c s with Some (a, b) => Some (x :: a, b) | None => None end
  end.

Fixpoint cut_last (c : Z) (s : str) : option (str * str) :=
  match s with
  | [] => None
  | x :: s =>
      match cut_last c s with
      | Some (a, b) => Some (x :: a, b)
      | None => if x =? c then Some ([], s) else None
      end
  end.

(** ** IPv4 *)

(** [parseIPv4Fields]: the fields so far, the number of digits of the field,
    its value, and whether the last character was a dot or there was none. *)
Fixpoint ipv4_fields (fields : list Z) (digLen val : Z) (atStart : bool) (s : str) : option (list Z) :=
  match s with
  | [] => if (length fields <? 3)%nat || atStart then None else Some (fields ++ [val])
  | c :: s =>
      if is_digit c then
        if (digLen =? 1) && (val =? 0) then None
        else let val := val * 10 + (c - 48) in if 255 <? val then None else ipv4_fields fields (digLen + 1) val false s
      else if c =? 46 then
        if atStart || (length s =? 0)%nat || (length fields =? 3)%nat then None else ipv4_fields (fields ++ [val]) 0 0 true s
      else None
  end.

Definition be_bytes (b : list Z) : Z := fold_left (fun acc x => acc * 256 + x) b 0.

Definition parseIPv4 (s : str) : option Addr :=
  match ipv4_fields [] 0 0 true s with Some b => Some (Addr4 (be_bytes b)) | None => None end.

(** ** IPv6 *)

(** The hexadecimal group at the head of the text: its value and digits. *)
Fixpoint hex_group (acc : Z) (off : nat) (s : str) : option (Z * nat * str) :=
  match s with
  | [] => Some (acc, off, s)
  | c :: r =>
      match hex_digit c with
      | None => Some (acc, off, s)
      | Some d => if (3 <? off)%nat then None else hex_group (acc * 16 + d) (S off) r
      end
  end.

(** The loop over the groups: the bytes, the place of the ellipsis, and the
    text left; [fuel] bounds the groups. *)
Fixpoint ipv6_groups (fuel : nat) (ip : list Z) (ellipsis : option nat) (s : str) : option (list Z * option nat * str) :=
  match fuel with
  | O => Some (ip, ellipsis, s)
  | S fuel =>
      match hex_group 0 0 s with
      | None => None
      | Some (acc, off, rest) =>
          if (off =? 0)%nat then None
          else
            match rest with
            | 46 :: _ =>
                if (match ellipsis with None => negb (length ip =? 12)%nat | Some _ => false end) || (12 <? length ip)%nat then None
                else match ipv4_fields [] 0 0 true s with Some b => Some (ip ++ b, ellipsis, []) | None => None end
            | [] => Some (ip ++ [acc / 256; acc mod 256], ellipsis, [])
            | 58 :: [] => None
            | 58 :: 58 :: rest =>
                match ellipsis with
                | Some _ => None
                | None =>
                    let ip := ip ++ [acc / 256; acc mod 256] in
                    match rest with [] => Some (ip, Some (length ip), []) | _ => ipv6_groups fuel ip (Some (length ip)) rest end
                end
            | 58 :: rest => ipv6_groups fuel (ip ++ [acc / 256; acc mod 256]) ellipsis rest
            | _ => None
            end
      end
  end.

(** The ellipsis filled in. *)
Definition expand_ellipsis (ip : list Z) (ellipsis : option nat) : option (list Z) :=
  if (length ip <? 16)%nat then
    match ellipsis with
    | None => None
    | Some k => Some (take k ip ++ replicate (16 - length ip) 0 ++ drop k ip)
    end
  else match ellipsis with Some _ => None | None => Some ip end.

Definition parseIPv6 (s : str) : option Addr :=
  let parts := match cut_byte 37 s with Some (a, z) => if (length z =? 0)%nat then None else Some (a, z) | None => Some (s, []) end in
  '(s, zone) ← parts;
  match s with
  | 58 :: 58 :: [] => Some (Addr6 0 (string_of zone))
  | _ =>
      let '(ellipsis, s) := match s with 58 :: 58 :: r => (Some O, r) | _ => (None, s) end in
      '(ip, ellipsis, rest) ← ipv6_groups 8 [] ellipsis s;
      if negb (length rest =? 0)%nat then None
      else match expand_ellipsis ip ellipsis with Some b => Some (Addr6 (be_bytes b) (string_of zone)) | None => None end
  end.

(** [ParseAddr]: the first dot, colon or percent sign decides. *)
Definition ParseAddr (s : str) : option Addr :=
  match List.find (fun c => (c =? 46) || (c =? 58) || (c =? 37)) s with
  | Some 46 => parseIPv4 s
  | Some 58 => parseIPv6 s
  | _ => None
  end.

(** ** Prefixes and endpoints *)

Definition ParsePrefix (s : str) : option Prefix :=
  '(a, bits) ← cut_last 47 s;
  ip ← ParseAddr a;
  if hasZone ip then None
  else if match bits with c :: _ :: _ => (c <? 49) || (57 <? c) | _ => false end then None
  else
    n ← Atoi bits;
    if (n <? 0) || (BitLen ip <? n) then None else Some (mkPrefix ip n).

Definition ParseAddrPort (s : str) : option AddrPort :=
  '(ip, port) ← cut_last 58 s;
  if (length ip =? 0)%nat || (length port =? 0)%nat then None
  else
    let '(bracketed, ip) := match ip with
                            | 91 :: r => (true, match reverse r with 93 :: r' => Some (reverse r') | _ => None end)
                            | _ => (false, Some ip)
                            end in
    ip ← ip;
    n ← ParseUint 16 port;
    a ← ParseAddr ip;
    if ((bracketed : bool) && Is4 a) || (negb bracketed && Is6 a) then None else Some (mkAddrPort a n).

(** [Addr.Is4In6]. *)
Definition Is4In6 (x : Addr) : bool := match x with Addr6 a _ => Z.shiftr a 32 =? 65535 | _ => false end.

Example parse_prefixes :
  (ParsePrefix ∘ str_of) <$> ["10.0.0.0/8"; "2001:db8::/32"; "::1/128"; "fe80::1%em0/64"; "1.2.3.04/8"; "1.2.3.4/033"; "::ffff:1.2.3.4/100"; "1:2:3:4:5:6:7::/64"; "1.2.3.4/33"]%string =
  [Some (mkPrefix (Addr4 167772160) 8); Some (mkPrefix (Addr6 42540766411282592856903984951653826560 "") 32); Some (mkPrefix (Addr6 1 "") 128); None; None; None;
   Some (mkPrefix (Addr6 281470698652420 "") 100); Some (mkPrefix (Addr6 5192455318486707404433266433261568 "") 64); None].
Proof. vm_compute. reflexivity. Qed.

Example parse_endpoints :
  (ParseAddrPort ∘ str_of) <$> ["0.0.0.0:123"; "[::]:123"; "::1:123"; "[1.2.3.4]:5"; "1.2.3.4:"; "[fe80::1%em0]:123"; ":123"]%string =
  [Some (mkAddrPort (Addr4 0) 123); Some (mkAddrPort (Addr6 0 "") 123); None; None; None; Some (mkAddrPort (Addr6 338288524927261089654018896841347694593 "em0") 123); None].
Proof. vm_compute. reflexivity. Qed.
