(* ===== verification/Auth.v ===== *)
(** * internal/ntp/auth/cmac.go: AES-CMAC message authentication

    [crypto/aes] is modelled as the class [BlockCipher] with AES-128 as its
    instance; CMAC and the key operations are written against the class.
    Bytes are integers in [0, 256); [None] is a panic. *)

From stdpp Require Import base list numbers.
From Stdlib Require Import Lia ZArith.
From S2P Require Import Prelude Float64 GoTime NtpTime NtpPacket.

Local Open Scope Z_scope.

Definition KeySize : nat := 16.
Definition BlockSize : nat := 16.
Definition cmacRb : Z := 135.

(** ** The block cipher *)

(** A block cipher on 16-byte blocks under a 16-byte key. *)
Class BlockCipher := {
  Encrypt : list Z -> list Z -> list Z;
  Encrypt_length : forall key b,
    length key = KeySize -> length b = BlockSize -> length (Encrypt key b) = BlockSize;
  Encrypt_bytes : forall key b,
    Forall is_byte key -> Forall is_byte b -> Forall is_byte (Encrypt key b)
}.

(** *** AES-128 (FIPS 197) *)

(** Multiplication by x in GF(2^8). *)
Definition xtime (a : Z) : Z :=
  let b := Z.land (Z.shiftl a 1) 255 in
  if Z.testbit a 7 then Z.lxor b 27 else b.

Fixpoint gmul_bits (n : nat) (a b : Z) : Z :=
  match n with
  | O => 0
  | S n => Z.lxor (if Z.odd b then a else 0) (gmul_bits n (xtime a) (Z.shiftr b 1))
  end.

Definition gmul (a b : Z) : Z := gmul_bits 8 a b.

(** The inverse, a^254. *)
Definition ginv (a : Z) : Z :=
  let a2 := gmul a a in let a4 := gmul a2 a2 in let a8 := gmul a4 a4 in
  let a16 := gmul a8 a8 in let a32 := gmul a16 a16 in let a64 := gmul a32 a32 in
  let a128 := gmul a64 a64 in
  gmul a128 (gmul a64 (gmul a32 (gmul a16 (gmul a8 (gmul a4 a2))))).

Definition rotl8 (a : Z) (n : Z) : Z := Z.land (Z.lor (Z.shiftl a n) (Z.shiftr a (8 - n))) 255.

Definition sbox_byte (a : Z) : Z :=
  let i := ginv a in
  Z.lxor (Z.lxor (Z.lxor (Z.lxor i (rotl8 i 1)) (Z.lxor (rotl8 i 2) (rotl8 i 3))) (rotl8 i 4)) 99.

Definition sbox : list Z :=
  Eval vm_compute in (sbox_byte ∘ Z.of_nat) <$> seq 0 256.

Definition sub_byte (a : Z) : Z := nth (Z.to_nat a) sbox 0.
Definition xor_bytes (a b : list Z) : list Z := zip_with Z.lxor a b.

(** The round keys as words of four bytes, in reverse order. *)
Definition key_step (i : nat) (rcon : Z) (ws : list (list Z)) : list (list Z) :=
  let prev := nth 0 ws [] in
  let back := nth 3 ws [] in
  let temp :=
    if (i mod 4 =? 0)%nat then
      match prev with
      | [a; b; c; d] => [Z.lxor (sub_byte b) rcon; sub_byte c; sub_byte d; sub_byte a]
      | _ => prev
      end
    else prev in
  xor_bytes back temp :: ws.

Fixpoint expand_key (n i : nat) (rcon : Z) (ws : list (list Z)) : list (list Z) :=
  match n with
  | O => ws
  | S n => expand_key n (S i) (if (i mod 4 =? 0)%nat then xtime rcon else rcon) (key_step i rcon ws)
  end.

Definition round_keys (key : list Z) : list (list Z) :=
  let w i := slice (4 * i) (4 * i + 4) key in
  reverse (expand_key 40 4 1 [w 3%nat; w 2%nat; w 1%nat; w 0%nat]).

Definition round_key (rks : list (list Z)) (r : nat) : list Z :=
  concat (slice (4 * r) (4 * r + 4) rks).

Definition shift_rows (s : list Z) : list Z :=
  (fun i : nat => nth ((i + 4 * (i mod 4)) mod 16)%nat s 0) <$> seq 0 16.

Definition mix_column (c : list Z) : list Z :=
  let at_ (i : nat) := nth (i mod 4)%nat c 0 in
  (fun i : nat => Z.lxor (Z.lxor (gmul 2 (at_ i)) (gmul 3 (at_ (i + 1)%nat)))
                         (Z.lxor (at_ (i + 2)%nat) (at_ (i + 3)%nat))) <$> seq 0 4.

Definition mix_columns (s : list Z) : list Z :=
  concat ((fun i => mix_column (slice (4 * i) (4 * i + 4) s)) <$> seq 0 4).

Definition aes_round (rks : list (list Z)) (s : list Z) (r : nat) : list Z :=
  xor_bytes (mix_columns (shift_rows (sub_byte <$> s))) (round_key rks r).

(** [block.Encrypt] of a cipher made with a 16-byte key. *)
Definition aes128 (key b : list Z) : list Z :=
  let rks := round_keys key in
  let s := fold_left (aes_round rks) (seq 1 9) (xor_bytes b (round_key rks 0)) in
  xor_bytes (shift_rows (sub_byte <$> s)) (round_key rks 10).

Definition words (ws : list (list Z)) : Prop := Forall (fun w => length w = 4%nat) ws.

Lemma length_xor_bytes a b : length b = length a -> length (xor_bytes a b) = length a.
Proof. intros H. unfold xor_bytes. rewrite length_zip_with. lia. Qed.

Lemma nth_word ws i : words ws -> (i < length ws)%nat -> length (nth i ws []) = 4%nat.
Proof.
  intros Hw Hi. destruct (lookup_lt_is_Some_2 ws i Hi) as [w Hx].
  rewrite (nth_lookup_Some ws i [] w Hx). by apply (Forall_lookup_1 _ _ _ _ Hw Hx).
Qed.

Lemma key_step_words i rcon ws :
  words ws -> (4 <= length ws)%nat -> words (key_step i rcon ws) /\ length (key_step i rcon ws) = S (length ws).
Proof.
  intros Hw Hl. unfold key_step. split; [|done]. constructor; [|done].
  pose proof (nth_word ws 0 Hw ltac:(lia)) as H0. pose proof (nth_word ws 3 Hw ltac:(lia)) as H3.
  rewrite length_xor_bytes; [done|]. rewrite H3. destruct (_ =? 0)%nat; [|done].
  clear - H0. by destruct (nth 0 ws []) as [|a [|b [|c [|d [|]]]]].
Qed.

Lemma expand_key_words n i rcon ws :
  words ws -> (4 <= length ws)%nat ->
  words (expand_key n i rcon ws) /\ length (expand_key n i rcon ws) = (n + length ws)%nat.
Proof.
  revert i rcon ws. induction n as [|n IH]; intros i rcon ws Hw Hl; cbn [expand_key]; [done|].
  destruct (key_step_words i rcon ws Hw Hl) as [H1 H2].
  destruct (IH (S i) (if (i mod 4 =? 0)%nat then xtime rcon else rcon) _ H1) as [H3 H4]; [lia|].
  split; [done|]. lia.
Qed.

Lemma length_round_key key r :
  length key = KeySize -> (r <= 10)%nat -> length (round_key (round_keys key) r) = 16%nat.
Proof.
  intros Hk Hr. unfold KeySize in Hk. unfold round_key, round_keys.
  set (ws := expand_key _ _ _ _).
  assert (words ws /\ length ws = 44%nat) as [Hw Hl].
  { apply expand_key_words; [|cbn; lia]. repeat constructor; rewrite length_slice; lia. }
  clearbody ws. clear Hk.
  assert (Forall (fun w => length w = 4%nat) (slice (4 * r) (4 * r + 4) (reverse ws))) as Hs
    by (apply slice_Forall, Forall_reverse; exact Hw).
  assert (length (slice (4 * r) (4 * r + 4) (reverse ws)) = 4%nat) as H4
    by (rewrite length_slice; rewrite ?length_reverse; lia).
  revert Hs H4. generalize (slice (4 * r) (4 * r + 4) (reverse ws)). clear. intros l Hs H4.
  destruct l as [|a [|b [|c [|d [|]]]]]; try done.
  rewrite !List.Forall_cons_iff in Hs. destruct Hs as (? & ? & ? & ? & _).
  cbv beta in *. cbn [concat]. rewrite !length_app. cbn [length]. lia.
Qed.

Lemma length_shift_rows s : length (shift_rows s) = 16%nat.
Proof. reflexivity. Qed.

Lemma length_mix_columns s : length (mix_columns s) = 16%nat.
Proof. reflexivity. Qed.

(** Bytes stay bytes. *)
Lemma byte_land a : is_byte (Z.land a 255).
Proof.
  unfold is_byte. change 255 with (Z.ones 8). rewrite Z.land_ones by lia. apply Z.mod_pos_bound. lia.
Qed.

Lemma byte_lxor a b : is_byte a -> is_byte b -> is_byte (Z.lxor a b).
Proof.
  intros Ha Hb. unfold is_byte in *.
  assert (Z.land (Z.lxor a b) 255 = Z.lxor a b) as <-; [|apply byte_land].
  assert (forall x, 0 <= x < 256 -> Z.land x 255 = x) as Hs.
  { intros x Hx. change 255 with (Z.ones 8). rewrite Z.land_ones by lia. by apply Z.mod_small. }
  rewrite <- (Hs a Ha) at 2. rewrite <- (Hs b Hb) at 2. apply Z.bits_inj'. intros n _.
  rewrite !Z.land_spec, !Z.lxor_spec, !Z.land_spec. by destruct (Z.testbit a n), (Z.testbit b n), (Z.testbit 255 n).
Qed.

Lemma xor_bytes_bytes a b : Forall is_byte a -> Forall is_byte b -> Forall is_byte (xor_bytes a b).
Proof.
  intros Ha. revert b. induction Ha as [|x a Hx _ IH]; intros b Hb; [constructor|].
  destruct Hb as [|y b Hy Hb]; [constructor|]. constructor; [by apply byte_lxor|]. by apply IH.
Qed.

Lemma byte_xtime a : is_byte (xtime a).
Proof.
  unfold xtime. destruct (Z.testbit a 7); [|apply byte_land].
  apply byte_lxor; [apply byte_land|unfold is_byte; lia].
Qed.

Lemma nth_Forall_default {A} (P : A -> Prop) l i d : Forall P l -> P d -> P (nth i l d).
Proof. intros Hl Hd. revert i. induction Hl; intros [|i]; cbn; auto. Qed.

Lemma byte_sub a : is_byte (sub_byte a).
Proof.
  unfold sub_byte. apply nth_Forall_default; [|unfold is_byte; lia].
  assert (forallb (fun b => (0 <=? b) && (b <? 256)) sbox = true) as Hs by (vm_compute; reflexivity).
  rewrite List.Forall_forall. intros x Hx. pose proof (proj1 (List.forallb_forall _ _) Hs x Hx) as Hb.
  cbv beta in Hb. apply andb_prop in Hb as [H1 H2]. unfold is_byte. lia.
Qed.

Create HintDb bytes.
#[export] Hint Resolve byte_lxor xor_bytes_bytes byte_xtime byte_sub slice_Forall : bytes.

Definition byte_words (ws : list (list Z)) : Prop := Forall (Forall is_byte) ws.

Lemma expand_key_bytes n i rcon ws :
  is_byte rcon -> byte_words ws -> byte_words (expand_key n i rcon ws).
Proof.
  revert i rcon ws. induction n as [|n IH]; intros i rcon ws Hr Hw; cbn [expand_key]; [done|].
  apply IH; [destruct (_ =? 0)%nat; auto with bytes|]. unfold key_step. constructor; [|done].
  assert (forall j, Forall is_byte (nth j ws [])) as Hn by (intros j; by apply nth_Forall_default).
  apply xor_bytes_bytes; [apply Hn|]. specialize (Hn 0%nat). destruct (_ =? 0)%nat; [|done].
  destruct (nth 0 ws []) as [|a [|b [|c [|d [|]]]]]; try done.
  repeat (apply List.Forall_cons; [auto with bytes|]). constructor.
Qed.

Lemma round_key_bytes key r : Forall is_byte key -> Forall is_byte (round_key (round_keys key) r).
Proof.
  intros Hk. unfold round_key, round_keys.
  assert (byte_words (slice (4 * r) (4 * r + 4) (reverse (expand_key 40 4 1
    [slice (4 * 3) (4 * 3 + 4) key; slice (4 * 2) (4 * 2 + 4) key;
     slice (4 * 1) (4 * 1 + 4) key; slice (4 * 0) (4 * 0 + 4) key])))) as Hw.
  { apply slice_Forall, Forall_reverse, expand_key_bytes; [unfold is_byte; lia|].
    repeat constructor; by apply slice_Forall. }
  revert Hw. generalize (slice (4 * r) (4 * r + 4) (reverse (expand_key 40 4 1
    [slice (4 * 3) (4 * 3 + 4) key; slice (4 * 2) (4 * 2 + 4) key;
     slice (4 * 1) (4 * 1 + 4) key; slice (4 * 0) (4 * 0 + 4) key]))).
  intros ws. induction 1 as [|w ws Hw _ IH]; [constructor|]. cbn [concat]. by apply Forall_app.
Qed.

Lemma shift_rows_bytes s : Forall is_byte s -> Forall is_byte (shift_rows s).
Proof.
  intros Hs. unfold shift_rows. apply Forall_fmap, Forall_true. intros i. cbn [compose].
  apply nth_Forall_default; [done|unfold is_byte; lia].
Qed.

#[export] Instance AES : BlockCipher.
Proof.
  refine {| Encrypt := aes128 |}.
  - intros key b Hk Hb. unfold aes128, BlockSize.
    rewrite length_xor_bytes; [apply length_shift_rows|].
    rewrite length_shift_rows. by apply length_round_key.
  - intros key b Hk _. unfold aes128. apply xor_bytes_bytes; [|by apply round_key_bytes].
    apply shift_rows_bytes, Forall_fmap, Forall_true. intros x. apply byte_sub.
Defined.

(** FIPS 197, appendix B. *)
Example aes128_fips197 :
  aes128 [43; 126; 21; 22; 40; 174; 210; 166; 171; 247; 21; 136; 9; 207; 79; 60]
         [50; 67; 246; 168; 136; 90; 48; 141; 49; 49; 152; 162; 224; 55; 7; 52]
  = [57; 37; 132; 29; 2; 220; 9; 251; 220; 17; 133; 151; 25; 106; 11; 50].
Proof. vm_compute. reflexivity. Qed.

(** ** CMAC (RFC 4493) *)

(** The loop of [shiftLeftAndCondition]: the shifted bytes and the carry out
    of the first one. *)
Fixpoint shift_left (l : list Z) : list Z * Z :=
  match l with
  | [] => ([], 0)
  | b :: rest =>
      let '(out, carry) := shift_left rest in
      (Z.lor (u8 (Z.shiftl b 1)) carry :: out, Z.shiftr b 7)
  end.

Definition shiftLeftAndCondition (l : list Z) : list Z :=
  let out := fst (shift_left l) in
  if negb (Z.land (nth 0 l 0) 128 =? 0)
  then take 15 out ++ [Z.lxor (nth 15 out 0) cmacRb]
  else out.

Definition xorInto (dst src : list Z) : list Z := xor_bytes dst src.

Definition zero_block : list Z := replicate BlockSize 0.

(** [copy] into a zeroed 16-byte block. *)
Definition copy_block (src : list Z) : list Z := take BlockSize (src ++ zero_block).

Section Cmac.
Context `{BlockCipher}.

(** The chaining loop over the first [n] blocks, from block [i]. *)
Fixpoint cmac_blocks (key msg : list Z) (n i : nat) (x : list Z) : list Z :=
  match n with
  | O => x
  | S n =>
      let y := copy_block (slice (i * 16) ((i + 1) * 16) msg) in
      cmac_blocks key msg n (S i) (Encrypt key (xorInto y x))
  end.

Definition CMAC (key msg : list Z) : option (list Z) :=
  if negb (length key =? KeySize)%nat then None
  else
    let l := Encrypt key zero_block in
    let k1 := shiftLeftAndCondition l in
    let k2 := shiftLeftAndCondition k1 in
    let n := ((length msg + 15) / 16)%nat in
    let complete := negb (n =? 0)%nat && (length msg mod 16 =? 0)%nat in
    let n := if (n =? 0)%nat then 1%nat else n in
    let last := copy_block (drop ((n - 1) * 16) msg) in
    let last :=
      if complete then xorInto last k1
      else xorInto (<[(length msg - (n - 1) * 16)%nat := 128]> last) k2 in
    let x := cmac_blocks key msg (n - 1) 0 zero_block in
    Some (Encrypt key (xorInto last x)).

Record Key : Type := mkKey { ID : Z; Secret : list Z }.

(** [Append]. *)
Definition Key_Append (k : Key) (pkt : list Z) : option (list Z) :=
  digest ← CMAC (Secret k) pkt;
  Some (pkt ++ be_encode 4 (ID k) ++ digest).

(** [Verify]. *)
Definition Key_Verify (k : Key) (pkt : list Z) (mac : option MAC) : option bool :=
  match mac with
  | None => Some false
  | Some m =>
      if IsCryptoNAK m || negb (KeyID m =? ID k) || negb (length (Digest m) =? 16)%nat then Some false
      else
        want ← CMAC (Secret k) pkt;
        Some (bool_decide (want = Digest m))
  end.

End Cmac.

(** RFC 4493, section 4: the four examples. *)
Definition rfc4493_key : list Z := [43; 126; 21; 22; 40; 174; 210; 166; 171; 247; 21; 136; 9; 207; 79; 60].
Definition rfc4493_msg : list Z :=
  [107; 193; 190; 226; 46; 64; 159; 150; 233; 61; 126; 17; 115; 147; 23; 42;
   174; 45; 138; 87; 30; 3; 172; 156; 158; 183; 111; 172; 69; 175; 142; 81;
   48; 200; 28; 70; 163; 92; 228; 17; 229; 251; 193; 25; 26; 10; 82; 239;
   246; 159; 36; 69; 223; 79; 155; 23; 173; 43; 65; 123; 230; 108; 55; 16].

Example cmac_rfc4493 :
  CMAC rfc4493_key [] = Some [187; 29; 105; 41; 233; 89; 55; 40; 127; 163; 125; 18; 155; 117; 103; 70] /\
  CMAC rfc4493_key (take 16 rfc4493_msg)
    = Some [7; 10; 22; 180; 107; 77; 65; 68; 247; 155; 221; 157; 208; 74; 40; 124] /\
  CMAC rfc4493_key (take 40 rfc4493_msg)
    = Some [223; 166; 103; 71; 222; 154; 230; 48; 48; 202; 50; 97; 20; 151; 200; 39] /\
  CMAC rfc4493_key rfc4493_msg
    = Some [81; 240; 190; 191; 126; 59; 157; 146; 252; 73; 116; 23; 121; 54; 60; 254].
Proof. vm_compute. done. Qed.

(** ** The subkeys *)

Lemma be_decode_cons b l : be_decode (b :: l) = b * 256 ^ Z.of_nat (length l) + be_decode l.
Proof.
  induction l as [|c l IH] using rev_ind; [cbn; lia|].
  rewrite (app_comm_cons l [c] b), !be_decode_app, IH, length_app. cbn [length].
  rewrite Nat2Z.inj_add, Z.pow_add_r by lia. change (256 ^ Z.of_nat 1) with 256. lia.
Qed.

(** A shifted byte with the carry in its low bit. *)
Lemma shift_byte b c : 0 <= b < 256 -> 0 <= c < 2 ->
  Z.lor (u8 (Z.shiftl b 1)) c = (2 * b) mod 256 + c.
Proof.
  intros Hb Hc. unfold wrapu. rewrite Z.shiftl_mul_pow2 by lia. change (2 ^ 1) with 2.
  change (2 ^ 8) with 256. rewrite (Z.mul_comm b 2).
  assert (Z.land ((2 * b) mod 256) c = 0) as Hl.
  { change 256 with (2 * 128). rewrite Z.mul_mod_distr_l by lia.
    assert (c = 0 \/ c = 1) as [-> | ->] by lia; [apply Z.land_0_r|].
    change 1 with (Z.ones 1) at 1. rewrite Z.land_ones by lia. change (2 ^ 1) with 2.
    rewrite Z.mul_comm. apply Z.mod_mul. lia. }
  rewrite <- Z.lxor_lor by done. symmetry. by apply Z.add_nocarry_lxor.
Qed.

Lemma shift_left_spec l : Forall is_byte l ->
  let '(out, c) := shift_left l in
  length out = length l /\ Forall is_byte out /\ 0 <= c < 2 /\
  2 * be_decode l = c * 256 ^ Z.of_nat (length l) + be_decode out /\
  (forall b r, l = b :: r -> c = b / 128).
Proof.
  induction 1 as [|b l Hb Hl IH]; cbn [shift_left]; [repeat split; try done; lia|].
  destruct (shift_left l) as [out c]. destruct IH as (H1 & H2 & H3 & H4 & _).
  unfold is_byte in Hb. rewrite shift_byte by done.
  assert (Z.shiftr b 7 = b / 128) as Hs by (rewrite Z.shiftr_div_pow2 by lia; done). rewrite Hs.
  pose proof (Z.div_mod b 128 ltac:(lia)) as Hdm. pose proof (Z.mod_pos_bound b 128 ltac:(lia)) as Hmb.
  assert ((2 * b) mod 256 = 2 * (b mod 128)) as Hm.
  { change 256 with (2 * 128). apply Z.mul_mod_distr_l; lia. }
  repeat split.
  - cbn. by rewrite H1.
  - constructor; [unfold is_byte; lia|done].
  - apply Z.div_pos; lia.
  - apply Z.div_lt_upper_bound; lia.
  - rewrite !be_decode_cons, H1. cbn [length]. rewrite Nat2Z.inj_succ, Z.pow_succ_r by lia.
    rewrite Hm. nia.
  - by intros ? ? [= <- <-].
Qed.

Lemma lxor_low hi o k : 0 <= o < 256 -> 0 <= k < 256 ->
  hi * 256 + Z.lxor o k = Z.lxor (hi * 256 + o) k.
Proof.
  intros Ho Hk.
  assert (Hx : forall x, 0 <= x < 256 -> hi * 256 + x = Z.lxor (Z.shiftl hi 8) x).
  { intros x Hx. rewrite Z.shiftl_mul_pow2 by lia. change (2 ^ 8) with 256.
    apply Z.add_nocarry_lxor. apply Z.bits_inj'. intros n Hn. rewrite Z.bits_0, Z.land_spec.
    change 256 with (2 ^ 8). rewrite <- Z.shiftl_mul_pow2 by lia. rewrite Z.shiftl_spec by lia.
    destruct (Z.ltb_spec n 8).
    - by rewrite Z.testbit_neg_r by lia.
    - rewrite (Z.bits_above_log2 x n); [by rewrite andb_false_r|lia|].
      destruct (Z.eq_dec x 0) as [->|]; [cbn; lia|].
      apply Z.log2_lt_pow2; [lia|]. eapply Z.lt_le_trans; [|apply (Z.pow_le_mono_r 2 8 n); lia]. lia. }
  rewrite (Hx o Ho), Z.lxor_assoc. apply Hx.
  split; [apply Z.lxor_nonneg; lia|].
  destruct (Z.eq_dec (Z.lxor o k) 0) as [->|Hne]; [lia|].
  assert (0 <= Z.lxor o k) by (apply Z.lxor_nonneg; lia).
  change 256 with (2 ^ 8). apply Z.log2_lt_pow2; [lia|].
  pose proof (Z.log2_lxor o k ltac:(lia) ltac:(lia)).
  assert (Z.log2 o <= 7) by (change 7 with (Z.log2 255); apply Z.log2_le_mono; lia).
  assert (Z.log2 k <= 7) by (change 7 with (Z.log2 255); apply Z.log2_le_mono; lia). lia.
Qed.

(** The subkey derivation is multiplication by x in GF(2^128).  Read
    as big-endian numbers, [shiftLeftAndCondition] doubles its argument modulo
    2^128 and folds the lost bit back in as the constant 0x87, and its result
    is again sixteen bytes. *)
Theorem subkey_doubling l :
  length l = 16%nat -> Forall is_byte l ->
  be_decode (shiftLeftAndCondition l) =
    Z.lxor ((2 * be_decode l) mod 2 ^ 128) (if 2 ^ 127 <=? be_decode l then 135 else 0) /\
  length (shiftLeftAndCondition l) = 16%nat.
Proof.
  intros Hlen Hb. pose proof (shift_left_spec l Hb) as Hs. unfold shiftLeftAndCondition.
  destruct (shift_left l) as [out c]. destruct Hs as (H1 & H2 & H3 & H4 & H5). cbn [fst].
  pose proof (be_decode_range out H2) as Hr. rewrite H1, Hlen in Hr. change (256 ^ Z.of_nat 16) with (2 ^ 128) in Hr.
  rewrite Hlen in H4. change (256 ^ Z.of_nat 16) with (2 ^ 128) in H4.
  assert ((2 * be_decode l) mod 2 ^ 128 = be_decode out) as ->.
  { rewrite H4, Z.add_comm, Z_mod_plus_full. by apply Z.mod_small. }
  destruct l as [|b r]; [done|]. specialize (H5 b r eq_refl).
  assert (is_byte b) as Hbb by (by inv Hb). unfold is_byte in Hbb.
  assert (negb (Z.land (nth 0 (b :: r) 0) 128 =? 0) = (2 ^ 127 <=? be_decode (b :: r))) as ->.
  { cbn [nth]. assert (Z.land b 128 = 128 * c) as ->.
    { rewrite H5.
      assert (forall k : nat, (k < 256)%nat -> Z.land (Z.of_nat k) 128 = 128 * (Z.of_nat k / 128)) as Hk.
      { intros k Hk. apply Z.eqb_eq.
        assert (forallb (fun k => Z.land (Z.of_nat k) 128 =? 128 * (Z.of_nat k / 128)) (seq 0 256) = true) as Hall
          by (vm_compute; reflexivity).
        apply (proj1 (List.forallb_forall _ _) Hall). apply List.in_seq. lia. }
      specialize (Hk (Z.to_nat b) ltac:(lia)). rewrite Z2Nat.id in Hk by lia. exact Hk. }
    assert (c = 0 \/ c = 1) as [-> | ->] by lia; symmetry; [apply Z.leb_gt|apply Z.leb_le]; lia. }
  destruct (2 ^ 127 <=? _); [|by rewrite Z.lxor_0_r, H1].
  cbn [length] in Hlen, H1. assert (length out = 16%nat) as Ho by lia.
  assert (out = take 15 out ++ [nth 15 out 0]) as E.
  { do 16 (destruct out as [|? out]; [done|]). by destruct out. }
  assert (is_byte (nth 15 out 0)) as Hx.
  { rewrite E in H2. apply Forall_app in H2 as [_ H2]. by inv H2. }
  split; [|rewrite length_app, length_take, Ho; done].
  rewrite E at 3. rewrite !be_decode_app. apply lxor_low; [exact Hx|unfold cmacRb; lia].
Qed.

Lemma subkey_bytes l : Forall is_byte l -> Forall is_byte (shiftLeftAndCondition l).
Proof.
  intros Hb. pose proof (shift_left_spec l Hb) as Hs. unfold shiftLeftAndCondition.
  destruct (shift_left l) as [out c]. destruct Hs as (_ & H2 & _). cbn [fst].
  destruct (negb _); [|done]. apply Forall_app. split; [by apply Forall_take|].
  constructor; [|constructor]. apply byte_lxor; [|unfold is_byte, cmacRb; lia].
  apply nth_Forall_default; [done|unfold is_byte; lia].
Qed.

Lemma subkey_doubling_witness :
  let l := replicate 15 0 ++ [1] in
  let m := 128 :: replicate 15 0 in
  be_decode (shiftLeftAndCondition l) = 2 /\ be_decode (shiftLeftAndCondition m) = 135.
Proof.
  cbv zeta. split.
  - destruct (subkey_doubling (replicate 15 0 ++ [1])) as [H _]; [reflexivity|vm_compute; repeat constructor; discriminate|].
    rewrite H. vm_compute. reflexivity.
  - destruct (subkey_doubling (128 :: replicate 15 0)) as [H _]; [reflexivity|vm_compute; repeat constructor; discriminate|].
    rewrite H. vm_compute. reflexivity.
Defined.

Section Reference.
Context `{BlockCipher}.

(** The algorithm of RFC 4493 as a stream: a message longer than a block is
    chained block by block, the last block is masked with K1 when it is whole
    and padded and masked with K2 otherwise. *)
Fixpoint cmac_stream (fuel : nat) (key k1 k2 x msg : list Z) : list Z :=
  match fuel with
  | O => x
  | S fuel =>
      if (length msg <=? 16)%nat then
        let last :=
          if (length msg =? 16)%nat then xor_bytes msg k1
          else xor_bytes (msg ++ 128 :: replicate (15 - length msg) 0) k2 in
        Encrypt key (xor_bytes last x)
      else cmac_stream fuel key k1 k2 (Encrypt key (xor_bytes (take 16 msg) x)) (drop 16 msg)
  end.

(** The subkeys of section 2.3, from the field: multiplication by x in
    GF(2^128) modulo x^128 + x^7 + x^2 + x + 1, on a block read as a big-endian
    number. *)
Definition gf_double (b : list Z) : list Z :=
  let v := 2 * be_decode b in
  be_encode 16 (if v <? 2 ^ 128 then v else Z.lxor v (2 ^ 128 + 2 ^ 7 + 2 ^ 2 + 2 + 1)).

Definition cmac_reference (key msg : list Z) : list Z :=
  let k1 := gf_double (Encrypt key zero_block) in
  cmac_stream (S (length msg)) key k1 (gf_double k1) zero_block msg.

(** The code's subkey derivation is the doubling of the field. *)
Lemma subkey_gf_double b : length b = 16%nat -> Forall is_byte b ->
  shiftLeftAndCondition b = gf_double b /\ length (shiftLeftAndCondition b) = 16%nat /\
  Forall is_byte (shiftLeftAndCondition b).
Proof.
  intros Hl Hb. destruct (subkey_doubling b Hl Hb) as [Hd Hl']. pose proof (subkey_bytes b Hb) as Hb'.
  split; [|done]. rewrite <- (be_encode_decode _ Hb'), Hl', Hd. unfold gf_double.
  pose proof (be_decode_range b Hb) as Hr. rewrite Hl in Hr. change (256 ^ Z.of_nat 16) with (2 ^ 128) in Hr.
  f_equal. destruct (Z.leb_spec (2 ^ 127) (be_decode b)) as [Hhi|Hlo].
  - rewrite (proj2 (Z.ltb_ge _ _)) by lia.
    set (w := (2 * be_decode b) mod 2 ^ 128).
    assert (2 * be_decode b = w + 1 * 2 ^ 128) as ->.
    { unfold w. rewrite (Z.mod_eq (2 * be_decode b)) by lia.
      assert (2 * be_decode b / 2 ^ 128 = 1) as ->; [|lia]. symmetry. apply (Z.div_unique _ _ _ (2 * be_decode b - 2 ^ 128)); lia. }
    assert (0 <= w < 2 ^ 128) as Hw by (apply Z.mod_pos_bound; lia).
    rewrite Z.mul_1_l, Z.add_nocarry_lxor.
    + change (2 ^ 128 + 2 ^ 7 + 2 ^ 2 + 2 + 1) with (Z.lxor (2 ^ 128) 135).
      rewrite Z.lxor_assoc, <- (Z.lxor_assoc (2 ^ 128)), Z.lxor_nilpotent. by rewrite Z.lxor_0_l.
    + apply Z.bits_inj'. intros n Hn. rewrite Z.land_spec, Z.bits_0, Z.pow2_bits_eqb by lia.
      destruct (Z.eqb_spec 128 n) as [<-|]; [|apply andb_false_r].
      rewrite <- (Z.mod_small w (2 ^ 128)), Z.mod_pow2_bits_high by lia. done.
  - rewrite (proj2 (Z.ltb_lt _ _)) by lia. by rewrite Z.mod_small, Z.lxor_0_r by lia.
Qed.

Lemma copy_block_whole l : length l = 16%nat -> copy_block l = l.
Proof. intros Hl. unfold copy_block, BlockSize. by apply take_app_length'. Qed.

Lemma copy_block_short l : (length l <= 16)%nat -> copy_block l = l ++ replicate (16 - length l) 0.
Proof.
  intros Hl. unfold copy_block, zero_block, BlockSize. rewrite take_app_ge by lia.
  by rewrite take_replicate, Nat.min_l by lia.
Qed.

(** The padded last block. *)
Lemma pad_block l : (length l < 16)%nat ->
  <[length l := 128]> (copy_block l) = l ++ 128 :: replicate (15 - length l) 0.
Proof.
  intros Hl. rewrite copy_block_short by lia.
  replace (16 - length l)%nat with (S (15 - length l)) by lia. cbn [replicate].
  rewrite <- (Nat.add_0_r (length l)) at 1. by rewrite insert_app_r.
Qed.

(** The index loop followed by the last block is the stream. *)
Lemma cmac_blocks_stream key k1 k2 msg n i x fuel :
  (16 * (i + n) < length msg \/ 16 * (i + n) = length msg /\ length msg = 0)%nat ->
  (length msg <= 16 * (i + n + 1))%nat -> (n < fuel)%nat ->
  let last := drop (16 * (i + n)) msg in
  Encrypt key (xorInto
    (if (length last =? 16)%nat then xorInto (copy_block last) k1
     else xorInto (<[length last := 128]> (copy_block last)) k2)
    (cmac_blocks key msg n i x))
  = cmac_stream fuel key k1 k2 x (drop (16 * i) msg).
Proof.
  revert i x fuel. induction n as [|n IH]; intros i x fuel Hlo Hhi Hf; destruct fuel as [|fuel]; try lia;
    cbn [cmac_blocks cmac_stream].
  - rewrite Nat.add_0_r in *. cbn zeta.
    assert (length (drop (16 * i) msg) <= 16)%nat as Hl by (rewrite length_drop; lia).
    destruct (length (drop (16 * i) msg) <=? 16)%nat eqn:E; [|bool_step; lia].
    destruct (length (drop (16 * i) msg) =? 16)%nat eqn:E16; repeat bool_step; unfold xorInto.
    + by rewrite copy_block_whole.
    + by rewrite pad_block by lia.
  - assert (16 < length (drop (16 * i) msg))%nat as Hl by (rewrite length_drop; lia).
    destruct (length (drop (16 * i) msg) <=? 16)%nat eqn:E; [bool_step; lia|].
    specialize (IH (S i) (Encrypt key (xorInto (copy_block (slice (i * 16) ((i + 1) * 16) msg)) x)) fuel).
    replace (i + S n)%nat with (S i + n)%nat in * by lia. rewrite IH by lia.
    f_equal.
    + f_equal. unfold xorInto. f_equal. unfold slice.
      replace ((i + 1) * 16 - i * 16)%nat with 16%nat by lia. replace (i * 16)%nat with (16 * i)%nat by lia.
      apply copy_block_whole. rewrite length_take. lia.
    + rewrite drop_drop. f_equal. lia.
Qed.

(** Claim C24: [CMAC] is the RFC 4493 algorithm.  For a 16-byte key it returns,
    and the block-indexed loop computes the streaming definition, on messages
    of every length (empty, a whole number of blocks, or not), with the subkeys
    got by doubling, in the field of 2^128 elements, the number that the
    encrypted zero block spells. *)
Theorem cmac_is_rfc4493 key msg :
  length key = KeySize -> Forall is_byte key -> CMAC key msg = Some (cmac_reference key msg).
Proof.
  intros Hk Hkb. unfold CMAC, cmac_reference. rewrite Hk, Nat.eqb_refl. cbn [negb]. f_equal.
  assert (length (Encrypt key zero_block) = 16%nat) as Hl0 by by apply Encrypt_length.
  assert (Forall is_byte (Encrypt key zero_block)) as Hb0.
  { apply Encrypt_bytes; [done|]. by apply Forall_replicate. }
  destruct (subkey_gf_double _ Hl0 Hb0) as (Ek1 & Hl1 & Hb1).
  destruct (subkey_gf_double _ Hl1 Hb1) as (Ek2 & _). rewrite <- Ek1, <- Ek2.
  set (k1 := shiftLeftAndCondition (Encrypt key zero_block)). set (k2 := shiftLeftAndCondition k1).
  set (n := ((length msg + 15) / 16)%nat).
  assert (16 * n <= length msg + 15 < 16 * n + 16)%nat as Hn.
  { unfold n. pose proof (Nat.div_mod_eq (length msg + 15) 16).
    pose proof (Nat.mod_upper_bound (length msg + 15) 16). lia. }
  set (m := (if (n =? 0)%nat then 1 else n)%nat).
  assert (n <> 0 /\ m = n \/ n = 0 /\ m = 1 /\ length msg = 0)%nat as Hm.
  { unfold m. destruct (Nat.eqb_spec n 0); [right|left]; repeat split; try done; lia. }
  pose proof (cmac_blocks_stream key k1 k2 msg (m - 1) 0 zero_block (S (length msg))
    ltac:(lia) ltac:(lia) ltac:(lia)) as Hst.
  rewrite Nat.mul_0_r, drop_0 in Hst. rewrite <- Hst. clear Hst.
  replace ((m - 1) * 16)%nat with (16 * (m - 1))%nat by lia. cbn [Nat.add]. rewrite length_drop.
  replace (length msg - (m - 1) * 16)%nat with (length msg - 16 * (m - 1))%nat by lia.
  assert (negb (n =? 0)%nat && (length msg mod 16 =? 0)%nat = (length msg - 16 * (m - 1) =? 16)%nat) as ->; [|done].
  destruct Hm as [[Hn0 ->]|(-> & -> & ->)]; [|done].
  destruct (Nat.eqb_spec n 0); [done|]. cbn [negb andb].
  pose proof (Nat.div_mod_eq (length msg) 16). pose proof (Nat.mod_upper_bound (length msg) 16 ltac:(lia)).
  destruct (Nat.eqb_spec (length msg mod 16) 0), (Nat.eqb_spec (length msg - 16 * (n - 1)) 16); lia.
Qed.

End Reference.

Lemma cmac_is_rfc4493_witness :
  CMAC rfc4493_key (take 40 rfc4493_msg) = Some (cmac_reference rfc4493_key (take 40 rfc4493_msg)).
Proof.
  apply (cmac_is_rfc4493 (H := AES)); [reflexivity|]. unfold rfc4493_key, is_byte. repeat constructor; lia.
Defined.

(** ** Signing and verifying *)

Lemma length_shift_left l : length (fst (shift_left l)) = length l.
Proof. induction l as [|b l IH]; [done|]. cbn. destruct (shift_left l). cbn in *. by rewrite IH. Qed.

Lemma length_subkey l : length l = 16%nat -> length (shiftLeftAndCondition l) = 16%nat.
Proof.
  intros Hl. unfold shiftLeftAndCondition. pose proof (length_shift_left l).
  destruct (negb _); [|lia]. rewrite length_app, length_take. cbn [length]. lia.
Qed.

Section Keys.
Context `{BlockCipher}.

Lemma length_copy_block l : length (copy_block l) = 16%nat.
Proof. unfold copy_block, zero_block, BlockSize. rewrite length_take, length_app, length_replicate. lia. Qed.

Lemma length_cmac_blocks key msg n i x :
  length key = KeySize -> length x = 16%nat -> length (cmac_blocks key msg n i x) = 16%nat.
Proof.
  intros Hk. revert i x. induction n as [|n IH]; intros i x Hx; cbn [cmac_blocks]; [done|].
  apply IH, Encrypt_length; [done|]. unfold xorInto, BlockSize. rewrite length_xor_bytes; by rewrite length_copy_block.
Qed.

(** A digest is one block. *)
Lemma CMAC_length key msg d : CMAC key msg = Some d -> length d = 16%nat.
Proof.
  unfold CMAC. destruct (length key =? KeySize)%nat eqn:E; [|done]. apply Nat.eqb_eq in E. cbn [negb].
  assert (length (Encrypt key zero_block) = 16%nat) as He by by apply Encrypt_length.
  pose proof (length_subkey _ He) as H1. pose proof (length_subkey _ H1) as H2.
  intros [= <-]. apply Encrypt_length; [done|]. unfold xorInto, BlockSize.
  assert (forall n, length (cmac_blocks key msg n 0 zero_block) = 16%nat) as Hx
    by (intros n; by apply length_cmac_blocks).
  assert (forall a k, length a = 16%nat -> length k = 16%nat -> length (xor_bytes a k) = 16%nat) as Hxor
    by (intros a k Ha Hb; rewrite length_xor_bytes; congruence).
  apply Hxor; [|apply Hx]. case_goal; apply Hxor; rewrite ?length_insert, ?length_copy_block; done.
Qed.

Lemma CMAC_some key msg : length key = KeySize -> exists d, CMAC key msg = Some d.
Proof. intros Hk. unfold CMAC. rewrite Hk, Nat.eqb_refl. cbn [negb]. eauto. Qed.

Lemma verify_append_iff k pkt m :
  length (Secret k) = KeySize ->
  (Key_Verify k pkt (Some m) = Some true <->
   KeyID m = ID k /\ Key_Append k pkt = Some (pkt ++ be_encode 4 (KeyID m) ++ Digest m)).
Proof.
  intros Hs. destruct (CMAC_some (Secret k) pkt Hs) as [d Hd]. pose proof (CMAC_length _ _ _ Hd) as Hl.
  unfold Key_Verify, Key_Append, IsCryptoNAK. rewrite Hd. cbn [mbind option_bind]. split.
  - destruct (_ || _) eqn:E; [done|]. repeat bool_step. intros [= Hb]. apply bool_decide_eq_true in Hb as <-.
    by rewrite H2.
  - intros [Hid Ha]. injection Ha as Ha. rewrite Hid in Ha. apply app_inv_head in Ha.
    apply (app_inv_head (be_encode 4 (ID k))) in Ha as <-. rewrite Hid, Z.eqb_refl, Hl. cbn. rewrite andb_false_r. cbn.
    by rewrite bool_decide_true.
Qed.

(** The only MAC a key accepts for some bytes is the one it would
    append to them: [Verify] answers true exactly for a trailer with the key's
    own id whose digest is the CMAC of the bytes; it never panics on a 16-byte
    secret. *)
Theorem verify_iff_append k pkt m :
  length (Secret k) = KeySize ->
  (Key_Verify k pkt (Some m) = Some true <->
   KeyID m = ID k /\ Key_Append k pkt = Some (pkt ++ be_encode 4 (KeyID m) ++ Digest m)).
Proof. apply verify_append_iff. Qed.

(** A signed packet authenticates.  What a 16-byte key appends to a
    marshalled header with any well-formed extension fields decodes to the
    same packet with the MAC located right after the fields, and verifies
    under that key over exactly the bytes before it. *)
Theorem signed_packet_verifies k p fs :
  length (Secret k) = KeySize -> in_u 32 (ID k) -> packet_ok p -> 1 <= pVersion p <= 4 ->
  Forall ext_field fs ->
  exists b mac off, Key_Append k (Marshal p ++ concat fs) = Some b /\
    Decode b = Ok (p, Some mac, off) /\ take off b = Marshal p ++ concat fs /\
    length b = (length (Marshal p ++ concat fs) + MACSizeCMAC)%nat /\
    Key_Verify k (take off b) (Some mac) = Some true.
Proof.
  intros Hs Hid Hp Hv Hfs. destruct (CMAC_some (Secret k) (Marshal p ++ concat fs) Hs) as [d Hd].
  pose proof (CMAC_length _ _ _ Hd) as Hl. pose proof (length_Marshal p Hp) as Hm.
  exists ((Marshal p ++ concat fs) ++ be_encode 4 (ID k) ++ d), (mkMAC (ID k) d), (HeaderSize + length (concat fs))%nat.
  assert (Key_Append k (Marshal p ++ concat fs) = Some ((Marshal p ++ concat fs) ++ be_encode 4 (ID k) ++ d)) as Ha.
  { unfold Key_Append. by rewrite Hd. }
  assert (take (HeaderSize + length (concat fs)) ((Marshal p ++ concat fs) ++ be_encode 4 (ID k) ++ d)
          = Marshal p ++ concat fs) as Ht.
  { apply take_app_length'. by rewrite length_app, Hm. }
  split; [done|]. split; [|split; [done|split]].
  - rewrite <- (app_assoc (Marshal p)). apply decode_marshalled; auto.
  - rewrite !length_app, length_be_encode, Hl. unfold MACSizeCMAC. lia.
  - rewrite Ht. by apply verify_append_iff.
Qed.

End Keys.

Definition example_key : Key := mkKey 9 rfc4493_key.
Definition example_packet : Packet := mkPacket 0 4 3 0 6 (-20) 0 0 zeroRefID 0 0 0 77.

Lemma example_packet_ok : packet_ok example_packet.
Proof. constructor; vm_compute; repeat split; try congruence; repeat constructor; congruence. Qed.

Lemma verify_iff_append_witness :
  Key_Verify example_key [] (Some (mkMAC 9 [187; 29; 105; 41; 233; 89; 55; 40; 127; 163; 125; 18; 155; 117; 103; 70]))
  = Some true.
Proof.
  apply (verify_iff_append (H := AES) example_key []); [reflexivity|].
  split; [reflexivity|]. vm_compute. reflexivity.
Defined.

Lemma signed_packet_verifies_witness :
  exists b mac off, Key_Append example_key (Marshal example_packet ++ concat []) = Some b /\
    Decode b = Ok (example_packet, Some mac, off) /\ Key_Verify example_key (take off b) (Some mac) = Some true.
Proof.
  destruct (signed_packet_verifies (H := AES) example_key example_packet []) as (b & mac & off & H1 & H2 & _ & _ & H3).
  - reflexivity.
  - vm_compute. split; congruence.
  - apply example_packet_ok.
  - vm_compute. split; congruence.
  - constructor.
  - exists b, mac, off. auto.
Defined.
