(* ===== verification/Keys.v ===== *)
(** * internal/ntp/auth/keys.go: the key ring *)

From stdpp Require Import base list numbers gmap.
From Stdlib Require Import Lia ZArith.
From S2P Require Import Prelude GoStrings NtpPacket Auth.

Local Open Scope Z_scope.

(** The key ring: a map from key id to key. *)
Definition Keys : Type := gmap Z Key.

(** "AES128CMAC". *)
Definition keyType : str := [65; 69; 83; 49; 50; 56; 67; 77; 65; 67].

(** The errors of [ParseKeys], with the line they are reported for. *)
Inductive KeysError : Type :=
| ErrFields (line : Z) (got : nat)
| ErrNotInteger (line : Z)
| ErrIDRange (line : Z) (id : Z)
| ErrDuplicate (line : Z) (id : Z)
| ErrKeyType (line : Z)
| ErrKeyLength (line : Z) (got : nat)
| ErrHex (line : Z)
| ErrRead.

(** One line of the file. *)
Definition parse_key_line (keys : Keys) (lineNo : Z) (line : str) : result KeysError Keys :=
  match Fields (cut_at 35 line) with
  | [] => Ok keys
  | [f0; f1; f2] =>
      match ParseUint 32 f0 with
      | None => Err (ErrNotInteger lineNo)
      | Some id =>
          if (id <? 1) || (65535 <? id) then Err (ErrIDRange lineNo id)
          else if bool_decide (is_Some (keys !! id)) then Err (ErrDuplicate lineNo id)
          else if negb (EqualFold f1 keyType) then Err (ErrKeyType lineNo)
          else if negb (length f2 =? 2 * KeySize)%nat then Err (ErrKeyLength lineNo (length f2))
          else
            match hex_decode f2 with
            | None => Err (ErrHex lineNo)
            | Some secret => Ok (<[id := mkKey id secret]> keys)
            end
      end
  | fs => Err (ErrFields lineNo (length fs))
  end.

Fixpoint parse_lines (keys : Keys) (lineNo : Z) (lines : list str) : result KeysError Keys :=
  match lines with
  | [] => Ok keys
  | line :: rest =>
      try keys' <- parse_key_line keys (lineNo + 1) line; parse_lines keys' (lineNo + 1) rest
  end.

(** [ParseKeys] of the reader's bytes. *)
Definition ParseKeys (input : str) : result KeysError Keys :=
  let '(lines, tooLong) := scan_lines input in
  try keys <- parse_lines ∅ 0 lines;
  if tooLong then Err ErrRead else Ok keys.

(** ** The ring *)

(** What the rest of the daemon relies on: ids in range and 16-byte secrets. *)
Definition ring_ok (keys : Keys) : Prop :=
  forall id k, keys !! id = Some k ->
    ID k = id /\ 1 <= id <= 65535 /\ length (Secret k) = KeySize /\ Forall is_byte (Secret k).

Lemma ring_ok_empty : ring_ok ∅.
Proof. intros id k Hk. unfold Keys in Hk. by rewrite lookup_empty in Hk. Qed.

Lemma parse_key_line_ok keys n line keys' :
  ring_ok keys -> parse_key_line keys n line = Ok keys' -> ring_ok keys' /\ (forall id k, keys !! id = Some k -> keys' !! id = Some k).
Proof.
  intros Hr. unfold ring_ok, parse_key_line, Keys in *.
  destruct (Fields (cut_at 35 line)) as [|f0 [|f1 [|f2 [|]]]]; try done; [by intros [= <-]|].
  destruct (ParseUint 32 f0) as [id|]; [|done].
  destruct ((id <? 1) || (65535 <? id)) eqn:E1; [done|].
  destruct (bool_decide _) eqn:E2; [done|]. apply bool_decide_eq_false in E2.
  destruct (negb (EqualFold f1 keyType)); [done|].
  destruct (negb (length f2 =? 2 * KeySize)%nat) eqn:E3; [done|].
  destruct (hex_decode f2) as [secret|] eqn:E4; [|done]. intros [= <-]. repeat bool_step.
  destruct (hex_decode_length _ _ E4) as [H1 H2]. split.
  - intros i k. destruct (decide (id = i)) as [->|Hne].
    + rewrite lookup_insert_eq. intros [= <-]. cbn. unfold KeySize in *. repeat split; try lia. done.
    + rewrite lookup_insert_ne by done. apply Hr.
  - intros i k Hk. rewrite lookup_insert_ne; [done|]. intros ->. apply E2. eauto.
Qed.

Lemma parse_lines_ok keys n lines keys' :
  ring_ok keys -> parse_lines keys n lines = Ok keys' ->
  ring_ok keys' /\ (forall id k, keys !! id = Some k -> keys' !! id = Some k).
Proof.
  revert keys n. induction lines as [|line lines IH]; intros keys n Hr; cbn [parse_lines].
  - by intros [= <-].
  - destruct (parse_key_line keys (n + 1) line) as [k1|e] eqn:E; cbn; [|done].
    destruct (parse_key_line_ok _ _ _ _ Hr E) as [H1 H2]. intros H.
    destruct (IH _ _ H1 H) as [H3 H4]. split; [done|]. eauto.
Qed.

(** A loaded key ring is well formed, whatever the file holds: every
    entry is stored under its own id, between 1 and 65535, with a secret of
    exactly sixteen bytes; so signing and verifying with any of its keys
    never reaches the panic on a bad key length. *)
Theorem parsed_ring_ok input keys :
  ParseKeys input = Ok keys ->
  forall id k, keys !! id = Some k ->
    ID k = id /\ 1 <= id <= 65535 /\ Forall is_byte (Secret k) /\
    (forall pkt, exists b, Key_Append k pkt = Some b) /\
    (forall pkt mac, exists r, Key_Verify k pkt mac = Some r).
Proof.
  unfold ParseKeys. destruct (scan_lines input) as [lines tooLong].
  destruct (parse_lines ∅ 0 lines) as [ks|e] eqn:E; cbn; [|done].
  destruct tooLong; [done|]. intros [= <-] id k Hk.
  destruct (parse_lines_ok _ _ _ _ ring_ok_empty E) as [Hr _].
  destruct (Hr id k Hk) as (H1 & H2 & H3 & H4). repeat split; try done; try lia.
  - intros pkt. unfold Key_Append. destruct (CMAC_some (Secret k) pkt H3) as [d ->]. eauto.
  - intros pkt [m|]; cbn [Key_Verify]; [|eauto]. case_goal; [eauto|].
    destruct (CMAC_some (Secret k) pkt H3) as [d ->]. eauto.
Qed.

(** "7 aes128cmac 000102030405060708090a0b0c0d0e0f # comment". *)
Definition example_file : str :=
  [55; 32; 97; 101; 115; 49; 50; 56; 99; 109; 97; 99; 9; 48; 48; 48; 49; 48; 50; 48; 51; 48; 52; 48; 53; 48; 54;
   48; 55; 48; 56; 48; 57; 48; 97; 48; 98; 48; 99; 48; 100; 48; 101; 48; 102; 32; 35; 32; 120; 10].

Lemma parsed_ring_ok_witness :
  exists keys k, ParseKeys example_file = Ok keys /\ keys !! 7 = Some k /\ ID k = 7 /\
    exists b, Key_Append k [] = Some b.
Proof.
  destruct (ParseKeys example_file) as [keys|e] eqn:E; [|vm_compute in E; discriminate E].
  assert (is_Some (keys !! 7)) as [k Hk].
  { assert (match ParseKeys example_file with Ok ks => bool_decide (is_Some (ks !! 7)) | Err _ => false end = true) as H
      by (vm_compute; reflexivity). rewrite E in H. by apply bool_decide_eq_true in H. }
  exists keys, k. split; [reflexivity|]. split; [exact Hk|].
  destruct (parsed_ring_ok example_file keys E 7 k Hk) as (H1 & _ & _ & H2 & _).
  split; [exact H1|]. exact (H2 []).
Defined.
