(* ===== verification/Sha256.v ===== *)
(** * crypto/sha256: the digest of a leap-seconds file (FIPS 180-4) *)

From stdpp Require Import base list numbers.
From Stdlib Require Import Lia ZArith.
From S2P Require Import Prelude.

Local Open Scope Z_scope.

Definition add32 (a b : Z) : Z := (a + b) mod 2 ^ 32.
Definition rotr32 (x n : Z) : Z := Z.lor (Z.shiftr x n) (Z.shiftl x (32 - n) mod 2 ^ 32).

Definition small_sigma (a b c x : Z) : Z := Z.lxor (Z.lxor (rotr32 x a) (rotr32 x b)) (Z.shiftr x c).
Definition big_sigma (a b c x : Z) : Z := Z.lxor (Z.lxor (rotr32 x a) (rotr32 x b)) (rotr32 x c).
Definition not32 (x : Z) : Z := 2 ^ 32 - 1 - x.
Definition choose (x y z : Z) : Z := Z.lxor (Z.land x y) (Z.land (not32 x) z).
Definition maj (x y z : Z) : Z := Z.lxor (Z.lxor (Z.land x y) (Z.land x z)) (Z.land y z).

Definition K256 : list Z :=
  [1116352408; 1899447441; 3049323471; 3921009573; 961987163; 1508970993; 2453635748; 2870763221;
   3624381080; 310598401; 607225278; 1426881987; 1925078388; 2162078206; 2614888103; 3248222580;
   3835390401; 4022224774; 264347078; 604807628; 770255983; 1249150122; 1555081692; 1996064986;
   2554220882; 2821834349; 2952996808; 3210313671; 3336571891; 3584528711; 113926993; 338241895;
   666307205; 773529912; 1294757372; 1396182291; 1695183700; 1986661051; 2177026350; 2456956037;
   2730485921; 2820302411; 3259730800; 3345764771; 3516065817; 3600352804; 4094571909; 275423344;
   430227734; 506948616; 659060556; 883997877; 958139571; 1322822218; 1537002063; 1747873779;
   1955562222; 2024104815; 2227730452; 2361852424; 2428436474; 2756734187; 3204031479; 3329325298].

Definition H256 : list Z :=
  [1779033703; 3144134277; 1013904242; 2773480762; 1359893119; 2600822924; 528734635; 1541459225].

(** The message schedule, in reverse. *)
Fixpoint schedule (n : nat) (ws : list Z) : list Z :=
  match n with
  | O => ws
  | S n =>
      let w i := nth (i - 1)%nat ws 0 in
      let t := add32 (add32 (small_sigma 17 19 10 (w 2%nat)) (w 7%nat))
                     (add32 (small_sigma 7 18 3 (w 15%nat)) (w 16%nat)) in
      schedule n (t :: ws)
  end.

Definition compress_step (st : list Z) (kw : Z * Z) : list Z :=
  match st with
  | [a; b; c; d; e; f; g; h] =>
      let t1 := add32 (add32 (add32 h (big_sigma 6 11 25 e)) (choose e f g)) (add32 kw.1 kw.2) in
      let t2 := add32 (big_sigma 2 13 22 a) (maj a b c) in
      [add32 t1 t2; a; b; c; add32 d t1; e; f; g]
  | _ => st
  end.

Definition compress (h : list Z) (block : list Z) : list Z :=
  let ws := (fun i => be_decode (slice (4 * i) (4 * i + 4) block)) <$> seq 0 16 in
  let ws := reverse (schedule 48 (reverse ws)) in
  zip_with add32 h (fold_left compress_step (zip K256 ws) h).

Fixpoint compress_all (fuel : nat) (h msg : list Z) : list Z :=
  match fuel with
  | O => h
  | S fuel => if (length msg =? 0)%nat then h else compress_all fuel (compress h (take 64 msg)) (drop 64 msg)
  end.

Definition sha_pad (msg : list Z) : list Z :=
  let n := length msg in
  msg ++ 128 :: replicate ((119 - n mod 64) mod 64) 0 ++ be_encode 8 (8 * Z.of_nat n).

(** [sha256.Sum256]. *)
Definition Sum256 (msg : list Z) : list Z :=
  let p := sha_pad msg in concat (be_encode 4 <$> compress_all (length p) H256 p).

(** FIPS 180-4: "abc". *)
Example sha256_abc :
  Sum256 [97; 98; 99] =
  [186; 120; 22; 191; 143; 1; 207; 234; 65; 65; 64; 222; 93; 174; 34; 35;
   176; 3; 97; 163; 150; 23; 122; 156; 180; 16; 255; 97; 242; 0; 21; 173].
Proof. vm_compute. reflexivity. Qed.


Lemma length_compress h b : length h = 8%nat -> length (compress h b) = 8%nat.
Proof.
  intros Hh. unfold compress. rewrite length_zip_with.
  assert (forall l st, length st = 8%nat -> length (fold_left compress_step l st) = 8%nat) as Hf.
  { induction l as [|kw l IH]; intros st Hst; cbn [fold_left]; [done|]. apply IH.
    do 8 (destruct st as [|? st]; [done|]). destruct st; done. }
  rewrite Hf by done. lia.
Qed.

Lemma length_Sum256 msg : length (Sum256 msg) = 32%nat.
Proof.
  unfold Sum256.
  assert (forall n h m, length h = 8%nat -> length (compress_all n h m) = 8%nat) as Hc.
  { induction n as [|n IH]; intros h m Hh; cbn [compress_all]; [done|]. case_goal; [done|].
    by apply IH, length_compress. }
  specialize (Hc (length (sha_pad msg)) H256 (sha_pad msg) eq_refl).
  destruct (compress_all _ _ _) as [|a [|b [|c [|d [|e [|f [|g [|h [|]]]]]]]]]; try done.
Qed.

(** A message whose padding needs a second block. *)
Example sha256_two_blocks :
  Sum256 (replicate 56 97) =
  [179; 84; 57; 164; 172; 111; 9; 72; 182; 214; 249; 227; 198; 175; 15; 95;
   89; 12; 226; 15; 27; 222; 112; 144; 239; 121; 112; 104; 110; 198; 115; 138].
Proof. vm_compute. reflexivity. Qed.
