(* ===== verification/GoDate.v ===== *)
(** * time: the UTC calendar of an instant *)

From stdpp Require Import base list numbers.
From Stdlib Require Import Lia ZArith.
From S2P Require Import Prelude Float64 GoTime.

Local Open Scope Z_scope.

(** The proleptic Gregorian date of a day counted from 1970-01-01, as year,
    month (1 to 12) and day of the month. *)
Definition civil (days : Z) : Z * Z * Z :=
  let z := days + 719468 in
  let era := z / 146097 in
  let doe := z - era * 146097 in
  let yoe := (doe - doe / 1460 + doe / 36524 - doe / 146096) / 365 in
  let doy := doe - (365 * yoe + yoe / 4 - yoe / 100) in
  let mp := (5 * doy + 2) / 153 in
  let d := doy - (153 * mp + 2) / 5 + 1 in
  let m := if mp <? 10 then mp + 3 else mp - 9 in
  (yoe + era * 400 + (if m <=? 2 then 1 else 0), m, d).

Definition unixDay (t : time) : Z := Unix t / 86400.
Definition secondOfDay (t : time) : Z := Unix t mod 86400.

Definition Year (t : time) : Z := (civil (unixDay t)).1.1.
Definition Month (t : time) : Z := (civil (unixDay t)).1.2.
Definition Day (t : time) : Z := (civil (unixDay t)).2.
Definition HourOf (t : time) : Z := secondOfDay t / 3600.
Definition MinuteOf (t : time) : Z := secondOfDay t mod 3600 / 60.
Definition SecondOf (t : time) : Z := secondOfDay t mod 60.

(** 2016-12-31T23:59:60 began the year of the last leap second so far. *)
Example civil_2017 : civil 17167 = (2017, 1, 1) /\ civil 0 = (1970, 1, 1) /\ civil 11016 = (2000, 2, 29).
Proof. vm_compute. done. Qed.

(** Midnight is a whole number of days. *)
Lemma midnight_day t :
  HourOf t = 0 -> MinuteOf t = 0 -> SecondOf t = 0 -> Unix t = 86400 * unixDay t.
Proof.
  unfold HourOf, MinuteOf, SecondOf, secondOfDay, unixDay. intros H1 H2 H3.
  pose proof (Z.div_mod (Unix t) 86400 ltac:(lia)). pose proof (Z.mod_pos_bound (Unix t) 86400 ltac:(lia)).
  set (s := Unix t mod 86400) in *. clearbody s.
  pose proof (Z.div_mod s 3600 ltac:(lia)) as H4. pose proof (Z.div_mod s 60 ltac:(lia)) as H5.
  rewrite H1, Z.mul_0_r, Z.add_0_l in H4. rewrite <- H4 in H2. rewrite H2, H3 in H5. lia.
Qed.
