(* ===== verification/GoText.v ===== *)
(** * strconv, strings and time: the text of numbers and instants

    Decimal numbers, [strings.Join], the layouts [RFC3339Nano] and [DateOnly]
    of an instant in UTC, and the day a [DateOnly] text names. *)

From stdpp Require Import base list numbers.
From Stdlib Require Import Lia ZArith.
From S2P Require Import Prelude Float64 GoTime GoStrings GoDate.

Local Open Scope Z_scope.

(** ** Numbers *)

(** The digits of [n] in front of [acc]; the fuel is at least their number. *)
Fixpoint digits (fuel : nat) (n : Z) (acc : str) : str :=
  match fuel with
  | O => acc
  | S fuel => let acc := 48 + n mod 10 :: acc in if n <? 10 then acc else digits fuel (n / 10) acc
  end.

Definition FormatUint (n : Z) : str := digits (S (Z.to_nat (Z.log2 n))) n [].
Definition FormatInt (n : Z) : str := if n <? 0 then 45 :: FormatUint (- n) else FormatUint n.

(** A number padded with zeros to a width. *)
Definition padded (width : nat) (n : Z) : str :=
  let s := FormatUint (Z.abs n) in (if n <? 0 then [45] else []) ++ replicate (width - length s) 48 ++ s.

(** [strings.Join]. *)
Fixpoint Join (sep : Z) (l : list str) : str :=
  match l with
  | [] => []
  | [s] => s
  | s :: l => s ++ sep :: Join sep l
  end.

(** ** Instants *)

(** [t.UTC().Format(time.DateOnly)]. *)
Definition DateOnly (t : time) : str := padded 4 (Year t) ++ 45 :: padded 2 (Month t) ++ 45 :: padded 2 (Day t).

Fixpoint drop_zeros (s : str) : str := match s with 48 :: r => drop_zeros r | _ => s end.

(** The fraction of a second without trailing zeros, or nothing. *)
Definition fraction_text (ns : Z) : str := if ns =? 0 then [] else 46 :: reverse (drop_zeros (reverse (padded 9 ns))).

(** [t.UTC().Format(time.RFC3339Nano)]. *)
Definition RFC3339Nano (t : time) : str :=
  DateOnly t ++ 84 :: padded 2 (HourOf t) ++ 58 :: padded 2 (MinuteOf t) ++ 58 :: padded 2 (SecondOf t) ++ fraction_text (nanos t) ++ [90].

(** ** The day of a date *)

(** The inverse of [civil]. *)
Definition days_of (y m d : Z) : Z :=
  let y := if m <=? 2 then y - 1 else y in
  let era := y / 400 in
  let yoe := y - era * 400 in
  let doy := (153 * (if 2 <? m then m - 3 else m + 9) + 2) / 5 + d - 1 in
  era * 146097 + (yoe * 365 + yoe / 4 - yoe / 100 + doy) - 719468.

Definition leap_year (y : Z) : bool := (y mod 4 =? 0) && (negb (y mod 100 =? 0) || (y mod 400 =? 0)).
Definition days_in (y m : Z) : Z :=
  if m =? 2 then (if leap_year y then 29 else 28) else if (m =? 4) || (m =? 6) || (m =? 9) || (m =? 11) then 30 else 31.

Definition number_of (s : str) : option Z :=
  if forallb is_digit s then Some (fold_left (fun n c => 10 * n + (c - 48)) s 0) else None.

(** [time.Parse(time.DateOnly, y + "-" + m + "-" + d)] of texts of 4, 2 and 2
    bytes: the day counted from 1970-01-01. *)
Definition parse_date (y m d : str) : option Z :=
  yy ← number_of y; mm ← number_of m; dd ← number_of d;
  if (1 <=? mm) && (mm <=? 12) && (1 <=? dd) && (dd <=? days_in yy mm) then Some (days_of yy mm dd) else None.

(** ** Lemmas *)

Lemma digits_digits fuel : forall n acc, Forall (fun c => 48 <= c <= 57) acc -> Forall (fun c => 48 <= c <= 57) (digits fuel n acc).
Proof.
  induction fuel as [|fuel IH]; intros n acc Ha; cbn [digits]; [done|]. pose proof (Z.mod_pos_bound n 10 ltac:(lia)).
  assert (Forall (fun c => 48 <= c <= 57) (48 + n mod 10 :: acc)) as Hc by (constructor; [lia|done]). case_goal; [done|]. by apply IH.
Qed.

(** None of a text's bytes is the tab or ends a line. *)
Definition plain (s : str) : Prop := Forall (fun c => c <> 9 /\ c <> 10) s.

Lemma plain_app a b : plain (a ++ b) <-> plain a /\ plain b.
Proof. apply Forall_app. Qed.

Lemma plain_cons c s : plain (c :: s) <-> (c <> 9 /\ c <> 10) /\ plain s.
Proof. unfold plain. by rewrite List.Forall_cons_iff. Qed.

Lemma plain_FormatUint n : plain (FormatUint n).
Proof.
  unfold plain, FormatUint. pose proof (digits_digits (S (Z.to_nat (Z.log2 n))) n [] (List.Forall_nil _)) as H. revert H. apply Forall_impl. intros c Hc. cbn in Hc. lia.
Qed.

Lemma plain_FormatInt n : plain (FormatInt n).
Proof. unfold FormatInt. case_goal; bool_step; [apply plain_cons; split; [lia|]|]; apply plain_FormatUint. Qed.

Lemma plain_padded w n : plain (padded w n).
Proof.
  unfold padded. apply plain_app. split; [case_goal; [|constructor]; apply plain_cons; split; [lia|constructor]|]. apply plain_app. split; [|apply plain_FormatUint].
  apply Forall_replicate. lia.
Qed.

Lemma plain_DateOnly t : plain (DateOnly t).
Proof. unfold DateOnly. rewrite !plain_app, !plain_cons, !plain_app, !plain_cons. split; [apply plain_padded|]. split; [lia|]. split; [apply plain_padded|]. split; [lia|apply plain_padded]. Qed.

Lemma plain_drop_zeros s : plain s -> plain (drop_zeros s).
Proof. induction 1 as [|c s Hc Hs IH]; [constructor|]. cbn. repeat case_goal; try done; by constructor. Qed.

Lemma plain_fraction ns : plain (fraction_text ns).
Proof.
  unfold fraction_text. case_goal; [constructor|]. apply plain_cons. split; [lia|]. unfold plain. rewrite Forall_reverse. apply plain_drop_zeros.
  unfold plain. rewrite Forall_reverse. apply plain_padded.
Qed.

Lemma plain_RFC3339Nano t : plain (RFC3339Nano t).
Proof.
  unfold RFC3339Nano. repeat (rewrite plain_app || rewrite plain_cons). repeat split; try lia; try apply plain_padded; try apply plain_fraction; try apply plain_DateOnly.
  constructor.
Qed.

(** The year of the 400-year cycle and the day of that year, for a day of the
    cycle. *)
Lemma year_of_cycle doe : 0 <= doe < 146097 ->
  let yoe := (doe - doe / 1460 + doe / 36524 - doe / 146096) / 365 in
  0 <= yoe < 400 /\ 0 <= doe - (365 * yoe + yoe / 4 - yoe / 100) <= 366.
Proof. intros H. cbv zeta. Z.to_euclidean_division_equations. lia. Qed.

(** The calendar round trip, for every day. *)
Lemma days_of_civil n : let '(y, m, d) := civil n in days_of y m d = n.
Proof.
  unfold civil. cbv zeta. set (e := (n + 719468) / 146097). set (doe := n + 719468 - e * 146097).
  assert (0 <= doe < 146097) as Hd by (subst doe e; pose proof (Z.div_mod (n + 719468) 146097); pose proof (Z.mod_pos_bound (n + 719468) 146097); lia).
  pose proof (year_of_cycle doe Hd) as H. cbv zeta in H. set (yoe := (doe - doe / 1460 + doe / 36524 - doe / 146096) / 365) in *. clearbody yoe.
  set (doy := doe - (365 * yoe + yoe / 4 - yoe / 100)) in *. destruct H as [Hy Hdoy]. assert (0 <= (5 * doy + 2) / 153 <= 11) as Hm by (Z.to_euclidean_division_equations; lia).
  set (mp := (5 * doy + 2) / 153) in *. clearbody mp. unfold days_of. cbv zeta.
  set (m := if mp <? 10 then mp + 3 else mp - 9).
  assert ((if 2 <? m then m - 3 else m + 9) = mp /\ forall y : Z, (if m <=? 2 then y + (if m <=? 2 then 1 else 0) - 1 else y + (if m <=? 2 then 1 else 0)) = y) as [M1 M2].
  { subst m. split; [|intros y]; destruct (Z.ltb_spec mp 10); repeat case_goal; bool_step; lia. }
  rewrite M1, M2. replace ((yoe + e * 400) / 400) with e by (rewrite Z.div_add by lia; rewrite Z.div_small by lia; lia).
  replace (yoe + e * 400 - e * 400) with yoe by lia. subst doy doe. lia.
Qed.

Lemma civil_positive n : let '(y, m, d) := civil n in 1 <= m <= 12 /\ 1 <= d <= 32.
Proof.
  unfold civil. cbv zeta. set (e := (n + 719468) / 146097). set (doe := n + 719468 - e * 146097).
  assert (0 <= doe < 146097) as Hd by (subst doe e; pose proof (Z.div_mod (n + 719468) 146097); pose proof (Z.mod_pos_bound (n + 719468) 146097); lia).
  pose proof (year_of_cycle doe Hd) as H. cbv zeta in H. set (yoe := (doe - doe / 1460 + doe / 36524 - doe / 146096) / 365) in *. clearbody yoe.
  set (doy := doe - (365 * yoe + yoe / 4 - yoe / 100)) in *. destruct H as [_ H]. clearbody doy. split; [case_goal; bool_step|]; Z.to_euclidean_division_equations; lia.
Qed.

Lemma digits_padded w n : 0 <= n -> Forall (fun c => 48 <= c <= 57) (padded w n).
Proof.
  intros Hn. unfold padded. replace (n <? 0) with false by (symmetry; by apply Z.ltb_ge). apply Forall_app. split; [constructor|]. apply Forall_app.
  split; [apply Forall_replicate; lia|apply digits_digits; constructor].
Qed.

(** What follows the last dash of a text is determined by the text. *)
Lemma cut_dash a a' b b' : Forall (fun c => 48 <= c <= 57) b -> Forall (fun c => 48 <= c <= 57) b' -> a ++ 45 :: b = a' ++ 45 :: b' -> a = a' /\ b = b'.
Proof.
  intros Hb Hb' E. apply (f_equal reverse) in E. rewrite !reverse_app, !reverse_cons, <- !(assoc_L (++)) in E. cbn [app] in E.
  rewrite <- Forall_reverse in Hb, Hb'. revert E Hb Hb'. rewrite <- (reverse_involutive b) at 3. rewrite <- (reverse_involutive b') at 3.
  generalize (reverse b) (reverse b'). intros l. induction l as [|x l IH]; intros [|x' l'] E Hl Hl'; cbn [app] in E.
  - assert (reverse a = reverse a') as E1 by congruence. by apply (inj reverse) in E1.
  - exfalso. assert (x' = 45) as -> by congruence. apply List.Forall_cons_iff in Hl' as [? _]. lia.
  - exfalso. assert (x = 45) as -> by congruence. apply List.Forall_cons_iff in Hl as [? _]. lia.
  - apply List.Forall_cons_iff in Hl as [_ Hl], Hl' as [_ Hl']. assert (x = x') as -> by congruence. assert (l ++ 45 :: reverse a = l' ++ 45 :: reverse a') as E1 by congruence.
    destruct (IH l' E1 Hl Hl') as [-> E2]. split; [done|]. rewrite !reverse_cons. by rewrite E2.
Qed.

Lemma DateOnly_inj t u : DateOnly t = DateOnly u -> padded 4 (Year t) = padded 4 (Year u) /\ padded 2 (Month t) = padded 2 (Month u) /\ padded 2 (Day t) = padded 2 (Day u).
Proof.
  unfold DateOnly, Year, Month, Day. pose proof (civil_positive (unixDay t)) as Ht. pose proof (civil_positive (unixDay u)) as Hu.
  destruct (civil (unixDay t)) as [[y m] d], (civil (unixDay u)) as [[y' m'] d']. cbn [fst snd]. intros E.
  replace (padded 4 y ++ 45 :: padded 2 m ++ 45 :: padded 2 d) with ((padded 4 y ++ 45 :: padded 2 m) ++ 45 :: padded 2 d) in E by (by rewrite <- (assoc_L (++))).
  replace (padded 4 y' ++ 45 :: padded 2 m' ++ 45 :: padded 2 d') with ((padded 4 y' ++ 45 :: padded 2 m') ++ 45 :: padded 2 d') in E by (by rewrite <- (assoc_L (++))).
  apply cut_dash in E as [E1 E2]; [|apply digits_padded; lia..]. apply cut_dash in E1 as [E0 E1]; [|apply digits_padded; lia..]. done.
Qed.

Example text_examples :
  FormatUint 0 = [48] /\ FormatUint 1024 = [49; 48; 50; 52] /\ FormatInt (-7) = [45; 55] /\ padded 4 70 = [48; 48; 55; 48] /\
  parse_date [50; 48; 50; 54] [48; 49] [48; 49] = Some 20454 /\ parse_date [50; 48; 50; 54] [48; 50] [50; 57] = None.
Proof. vm_compute. done. Qed.
