(* ===== verification/LeapTable.v ===== *)
(** * internal/leap/leap.go and object.go: the leap-second table

    [Parse] reads leap-seconds.list, [Indicator], [Crossed] and [Next] query
    it, and [CheckUpdate] decides whether a new table may replace the old. *)

From stdpp Require Import base list numbers.
From Stdlib Require Import Lia ZArith.
From S2P Require Import Prelude Float64 GoTime GoDate GoStrings NtpTime Sha256.

Local Open Scope Z_scope.

Definition ntpUnixEpoch : Z := 2208988800.

Record Transition : Type := mkTransition { tr_At : time; tr_Leap : Z }.

#[export] Instance Transition_eq_dec : EqDecision Transition.
Proof. solve_decision. Defined.

Record Table : Type := mkTable {
  Expiry : time;
  t_Updated : time;
  Transitions : list Transition;
  Baseline : time;
  t_Offset : Z
}.

#[export] Instance Table_eta : Eta Table := fun t =>
  mkTable (Expiry t) (t_Updated t) (Transitions t) (Baseline t) (t_Offset t).

Definition zeroTable : Table := mkTable zeroTime zeroTime [] zeroTime 0.

(** 9999-12-31T23:59:59Z in seconds since 1900. *)
Definition maxDate : Z := 255611289599.

(** [Date]: [None] is an error. *)
Definition Date (seconds : Z) : option time :=
  if (seconds =? 0) || (maxDate <? seconds) then None
  else Some (unixTime (seconds - ntpUnixEpoch) 0).

Definition dateSeconds (t : time) : Z := u64 (Unix t + ntpUnixEpoch).

Definition parseNTPSeconds (raw : str) : option time :=
  seconds ← ParseUint 64 raw; Date seconds.

Record leap_record : Type := mkLeapRecord { r_at : time; r_offset : Z; r_line : Z }.

Inductive ParseError : Type :=
| ErrStampMalformed (line : Z)
| ErrStamp (line : Z)
| ErrDuplicateExpiry (line : Z)
| ErrDuplicateUpdate (line : Z)
| ErrRecordMalformed (line : Z)
| ErrRecordFields (line : Z)
| ErrRecordTime (line : Z)
| ErrOffset (line : Z)
| ErrNotMidnight (line : Z)
| ErrReadTable
| ErrNoExpiry
| ErrTooFew
| ErrExpiryFinal
| ErrExpiryUpdate
| ErrNotIncreasing (line : Z)
| ErrDelta (line delta : Z).

(** "#@", "#$" and "#". *)
Definition hash_at : str := [35; 64].
Definition hash_dollar : str := [35; 36].
Definition hash : str := [35].

Definition leap_midnight (at_ : time) : bool :=
  (HourOf at_ =? 0) && (MinuteOf at_ =? 0) && (SecondOf at_ =? 0) && (Day at_ =? 1)
  && ((Month at_ =? 1) || (Month at_ =? 7)).

(** The "#@" and "#$" lines. *)
Definition parse_stamp (table : Table) (lineNo : Z) (line : str) : result ParseError Table :=
  match Fields line with
  | [f0; f1] =>
      if negb (bool_decide (f0 = hash_at) || bool_decide (f0 = hash_dollar)) then Err (ErrStampMalformed lineNo)
      else
        match parseNTPSeconds f1 with
        | None => Err (ErrStamp lineNo)
        | Some stamp =>
            if bool_decide (f0 = hash_at) then
              if negb (IsZero (Expiry table)) then Err (ErrDuplicateExpiry lineNo)
              else Ok (table <| Expiry := stamp |>)
            else if negb (IsZero (t_Updated table)) then Err (ErrDuplicateUpdate lineNo)
            else Ok (table <| t_Updated := stamp |>)
        end
  | _ => Err (ErrStampMalformed lineNo)
  end.

(** A data record. *)
Definition parse_record (lineNo : Z) (line : str) : result ParseError leap_record :=
  match Fields line with
  | f0 :: f1 :: rest =>
      if match rest with f2 :: _ => negb (HasPrefix f2 hash) | [] => false end
      then Err (ErrRecordFields lineNo)
      else
        match parseNTPSeconds f0 with
        | None => Err (ErrRecordTime lineNo)
        | Some at_ =>
            match Atoi f1 with
            | None => Err (ErrOffset lineNo)
            | Some offset =>
                if (offset <? 1) || (255 <? offset) then Err (ErrOffset lineNo)
                else if negb (leap_midnight at_) then Err (ErrNotMidnight lineNo)
                else Ok (mkLeapRecord at_ offset lineNo)
            end
        end
  | _ => Err (ErrRecordMalformed lineNo)
  end.

(** The loop over the lines. *)
Fixpoint parse_table_lines (table : Table) (records : list leap_record) (lineNo : Z) (lines : list str)
  : result ParseError (Table * list leap_record) :=
  match lines with
  | [] => Ok (table, records)
  | raw :: rest =>
      let line := TrimSpace raw in
      match line with
      | [] => parse_table_lines table records (lineNo + 1) rest
      | _ =>
          if HasPrefix line hash_at || HasPrefix line hash_dollar then
            try table' <- parse_stamp table lineNo line; parse_table_lines table' records (lineNo + 1) rest
          else if HasPrefix line hash then parse_table_lines table records (lineNo + 1) rest
          else
            try r <- parse_record lineNo line;
            parse_table_lines table (records ++ [r]) (lineNo + 1) rest
      end
  end.

(** The transitions between consecutive records. *)
Fixpoint transitions_of (prev : leap_record) (records : list leap_record) : result ParseError (list Transition) :=
  match records with
  | [] => Ok []
  | cur :: rest =>
      if negb (After (r_at cur) (r_at prev)) then Err (ErrNotIncreasing (r_line cur))
      else
        let delta := r_offset cur - r_offset prev in
        if (delta =? 1) || (delta =? -1) then
          try ts <- transitions_of cur rest;
          Ok (mkTransition (r_at cur) (if delta =? 1 then LeapInsert else LeapDelete) :: ts)
        else Err (ErrDelta (r_line cur) delta)
  end.

(** The checks after the last line. *)
Definition finish_table (table : Table) (records : list leap_record) : result ParseError Table :=
  if IsZero (Expiry table) then Err ErrNoExpiry
  else
    match records with
    | first :: (_ :: _) as rest =>
        if negb (After (Expiry table) (r_at (List.last records first))) then Err ErrExpiryFinal
        else if negb (IsZero (t_Updated table)) && negb (After (Expiry table) (t_Updated table))
        then Err ErrExpiryUpdate
        else
          try ts <- transitions_of first rest;
          Ok (table <| Baseline := r_at first |> <| t_Offset := r_offset first |> <| Transitions := ts |>)
    | _ => Err ErrTooFew
    end.

(** [Parse] of the reader's bytes. *)
Definition Parse (input : str) : result ParseError Table :=
  let '(lines, tooLong) := scan_lines input in
  try (table, records) <- parse_table_lines zeroTable [] 1 lines;
  if tooLong then Err ErrReadTable else finish_table table records.

(** [Indicator]; [None] is a nil table. *)
Fixpoint indicator_of (ts : list Transition) (now : time) : Z :=
  match ts with
  | [] => LeapNone
  | tr :: rest =>
      let start := Add (tr_At tr) (- 24 * Hour) in
      if negb (Before now start) && Before now (tr_At tr) then tr_Leap tr else indicator_of rest now
  end.

Definition Indicator (t : option Table) (now : time) : Z :=
  match t with None => LeapNone | Some t => indicator_of (Transitions t) now end.

(** [Crossed]. *)
Definition Crossed (t : option Table) (before after : time) : bool :=
  match t with
  | None => false
  | Some t =>
      if IsZero before || negb (After after before) then false
      else existsb (fun tr => After (tr_At tr) before && negb (After (tr_At tr) after)) (Transitions t)
  end.

(** [Next]. *)
Definition NextTransition (t : option Table) (now : time) : option Transition :=
  match t with None => None | Some t => List.find (fun tr => After (tr_At tr) now) (Transitions t) end.

(** ** object.go *)

Definition MaxFileSize : Z := 65536.

Record Manifest : Type := mkManifest {
  mf_Updated : Z;
  mf_Expires : Z;
  mf_Digest : list Z;
  mf_Size : Z
}.

#[export] Instance Manifest_eq_dec : EqDecision Manifest.
Proof. solve_decision. Defined.

Definition zeroDigest : list Z := replicate 32 0.
Definition zeroManifest : Manifest := mkManifest 0 0 zeroDigest 0.

(** [Manifest.Validate], true without an error. *)
Definition manifest_valid (m : Manifest) : bool :=
  match Date (mf_Updated m), Date (mf_Expires m) with
  | Some u, Some e =>
      negb (negb (After e u) || (mf_Size m =? 0) || (MaxFileSize <? mf_Size m)
            || bool_decide (mf_Digest m = zeroDigest))
  | _, _ => false
  end.

Record Object : Type := mkObject {
  ob_manifest : Manifest;
  ob_table : Table;
  ob_data : list Z
}.

(** The bounded reasons of [Rejection]. *)
Inductive Reason : Type :=
| ReasonSize
| ReasonParse
| ReasonMetadata
| ReasonTimeUnknown
| ReasonExpired
| ReasonDate
| ReasonRollback
| ReasonConflict
| ReasonHistory
| ReasonFraming
| ReasonAuth
| ReasonRate
| ReasonIO.

#[export] Instance Reason_eq_dec : EqDecision Reason.
Proof. solve_decision. Defined.

(** [NewObject]. *)
Definition NewObject (data : list Z) : result Reason Object :=
  if (length data =? 0)%nat || (MaxFileSize <? Z.of_nat (length data)) then Err ReasonSize
  else
    match Parse data with
    | Err _ => Err ReasonParse
    | Ok t =>
        if IsZero (t_Updated t) then Err ReasonMetadata
        else Ok (mkObject (mkManifest (dateSeconds (t_Updated t)) (dateSeconds (Expiry t)) (Sum256 data)
                            (u32 (Z.of_nat (length data)))) t data)
    end.

(** [ReadObject]: at most one byte more than the bound is read. *)
Definition ReadObject (input : list Z) : result Reason Object :=
  NewObject (take (Z.to_nat (MaxFileSize + 1)) input).

(** The transitions up to the cutoff. *)
Fixpoint past (cutoff : time) (ts : list Transition) : list Transition :=
  match ts with
  | [] => []
  | tr :: rest => if negb (After (tr_At tr) cutoff) then tr :: past cutoff rest else []
  end.

(** [CheckUpdate]: [None] accepts. *)
Definition CheckUpdate (old next : option Object) (now : time) : option Reason :=
  match next with
  | None => Some ReasonMetadata
  | Some next =>
      if IsZero now then Some ReasonTimeUnknown
      else
        let n := ob_table next in
        if negb (Before now (Expiry n)) then Some ReasonExpired
        else if Before now (Baseline n) || After (t_Updated n) (Add now (5 * Minute))
                || After (Expiry n) (Add now (400 * 24 * Hour)) then Some ReasonDate
        else
          match old with
          | None => None
          | Some old =>
              let o := ob_table old in
              if bool_decide (ob_manifest next = ob_manifest old) then None
              else if Before (t_Updated n) (t_Updated o) || Before (Expiry n) (Expiry o) then Some ReasonRollback
              else if Equal (t_Updated n) (t_Updated o) && Equal (Expiry n) (Expiry o) then Some ReasonConflict
              else if negb (Equal (Baseline n) (Baseline o)) || negb (t_Offset n =? t_Offset o) then Some ReasonHistory
              else if Equal (t_Updated n) (t_Updated o) && negb (bool_decide (Transitions n = Transitions o))
              then Some ReasonHistory
              else
                let cutoff := if negb (Before now (Expiry o)) then Add (Expiry o) (-1) else now in
                if negb (bool_decide (past cutoff (Transitions o) = past cutoff (Transitions n)))
                then Some ReasonHistory else None
          end
  end.

(** ** Well-formed tables *)

(** Times strictly increase after [from]. *)
Fixpoint increasing (from : time) (ts : list time) : Prop :=
  match ts with
  | [] => True
  | t :: rest => from < t /\ increasing t rest
  end.

Record table_ok (t : Table) : Prop := {
  to_order : increasing (Baseline t) (tr_At <$> Transitions t);
  to_midnight : forall tr, tr ∈ Transitions t -> leap_midnight (tr_At tr) = true /\ tr_At tr mod Second = 0;
  to_leap : forall tr, tr ∈ Transitions t -> tr_Leap tr = LeapInsert \/ tr_Leap tr = LeapDelete;
  to_expiry : forall tr, tr ∈ Transitions t -> tr_At tr < Expiry t;
  to_some : Transitions t <> [];
  to_updated : IsZero (t_Updated t) = true \/ t_Updated t < Expiry t
}.

Lemma Date_spec n t : Date n = Some t -> t = (n - ntpUnixEpoch) * Second /\ n <> 0 /\ n <= maxDate.
Proof. unfold Date, unixTime. case_goal; [done|]. intros [= <-]. repeat bool_step. lia. Qed.

Lemma parseNTPSeconds_whole raw t : parseNTPSeconds raw = Some t -> t mod Second = 0.
Proof.
  unfold parseNTPSeconds. destruct (ParseUint 64 raw) as [n|]; cbn; [|done]. intros H.
  apply Date_spec in H as [-> _]. apply Z.mod_mul. done.
Qed.

Definition record_ok (r : leap_record) : Prop :=
  leap_midnight (r_at r) = true /\ r_at r mod Second = 0 /\ 1 <= r_offset r <= 255.

Lemma parse_record_ok n line r : parse_record n line = Ok r -> record_ok r.
Proof.
  unfold parse_record. destruct (Fields line) as [|f0 [|f1 rest]]; try done.
  case_goal; [done|]. destruct (parseNTPSeconds f0) as [at_|] eqn:Et; [|done].
  destruct (Atoi f1) as [off|]; [|done]. case_goal; [done|]. case_goal; [done|]. intros [= <-]. repeat bool_step.
  unfold record_ok. cbn. apply parseNTPSeconds_whole in Et. repeat split; try done; lia.
Qed.

Lemma parse_stamp_frame table n line t' :
  parse_stamp table n line = Ok t' -> Transitions t' = Transitions table.
Proof. unfold parse_stamp. repeat case_goal; try done; by intros [= <-]. Qed.

Lemma parse_table_lines_ok table records n lines t' rs :
  Forall record_ok records -> parse_table_lines table records n lines = Ok (t', rs) -> Forall record_ok rs.
Proof.
  revert table records n. induction lines as [|raw lines IH]; intros table records n Hr; cbn [parse_table_lines].
  - by intros [= _ <-].
  - destruct (TrimSpace raw) as [|c line] eqn:El; [by apply IH|].
    destruct (HasPrefix _ hash_at || _).
    + destruct (parse_stamp table n (c :: line)); cbn; [by apply IH|done].
    + destruct (HasPrefix _ hash); [by apply IH|].
      destruct (parse_record n (c :: line)) as [r|] eqn:Er; cbn; [|done].
      apply IH. apply Forall_app. split; [done|]. constructor; [|done]. by eapply parse_record_ok.
Qed.

(** The transitions of increasing records are those of the records but the
    first. *)
Lemma transitions_of_ok prev records ts :
  Forall record_ok records -> transitions_of prev records = Ok ts ->
  increasing (r_at prev) (tr_At <$> ts) /\ tr_At <$> ts = r_at <$> records /\
  Forall (fun tr => tr_Leap tr = LeapInsert \/ tr_Leap tr = LeapDelete) ts.
Proof.
  revert prev ts. induction records as [|cur rest IH]; intros prev ts Hr; cbn [transitions_of].
  - by intros [= <-].
  - case_goal; [done|]. apply List.Forall_cons_iff in Hr as [_ Hr]. repeat bool_step.
    destruct ((_ =? 1) || _); [|done].
    destruct (transitions_of cur rest) as [ts'|e] eqn:E; cbn; [|done]. intros [= <-].
    destruct (IH cur ts' Hr E) as (H1 & H2 & H3). unfold After in *. repeat bool_step.
    split; [by split|]. split; [cbn; by rewrite H2|]. constructor; [|done]. cbn. case_goal; auto.
Qed.

Lemma increasing_after from l x : increasing from l -> x ∈ l -> from < x.
Proof.
  revert from. induction l as [|y l IH]; intros from Hi Ht; [by apply elem_of_nil in Ht|].
  destruct Hi as [H1 H2]. apply elem_of_cons in Ht as [->|Ht]; [done|]. specialize (IH _ H2 Ht). lia.
Qed.

(** In an increasing list the last time is the latest. *)
Lemma increasing_last from l x d : increasing from l -> x ∈ l -> x <= List.last l d.
Proof.
  revert from x. induction l as [|y l IH]; intros from x Hi Ht; [by apply elem_of_nil in Ht|].
  destruct Hi as [H1 H2]. destruct l as [|z l].
  - apply elem_of_cons in Ht as [->|Ht]; [done|by apply elem_of_nil in Ht].
  - change (x <= List.last (z :: l) d). apply elem_of_cons in Ht as [->|Ht]; [|by apply (IH y x)].
    pose proof (IH y z H2 (list_elem_of_here z l)). destruct H2 as [H2 _]. lia.
Qed.

Lemma last_fmap_at (l : list leap_record) d : r_at (List.last l d) = List.last (r_at <$> l) (r_at d).
Proof. induction l as [|x [|y l] IH]; [done..|]. exact IH. Qed.

Lemma finish_table_ok table records t :
  Forall record_ok records -> finish_table table records = Ok t -> table_ok t.
Proof.
  intros Hr. unfold finish_table. destruct (IsZero (Expiry table)); [done|].
  destruct records as [|first [|second rest]]; [done..|].
  case_goal; [done|]. case_goal; [done|].
  destruct (transitions_of first (second :: rest)) as [ts|e] eqn:E; cbn; [|done]. intros [= <-].
  apply List.Forall_cons_iff in Hr as [_ Hr].
  destruct (transitions_of_ok _ _ _ Hr E) as (H1 & H2 & H3).
  rewrite Forall_forall in H3. rewrite List.Forall_forall in Hr.
  assert (forall tr, tr ∈ ts -> exists r, In r (second :: rest) /\ r_at r = tr_At tr) as Hrec.
  { intros tr Ht. assert (tr_At tr ∈ r_at <$> second :: rest) as Hin by (rewrite <- H2; by apply list_elem_of_fmap_2).
    apply list_elem_of_fmap in Hin as (r & -> & Hin). exists r. split; [by apply list_elem_of_In|done]. }
  repeat bool_step. unfold After in *. constructor; cbn.
  - done.
  - intros tr Ht. destruct (Hrec tr Ht) as (r & Hin & <-). destruct (Hr r Hin) as (? & ? & _). done.
  - intros tr Ht. by apply H3, list_elem_of_In.
  - intros tr Ht. rewrite last_fmap_at in *. repeat bool_step.
    assert (tr_At tr <= List.last (r_at <$> second :: rest) (r_at first)); [|cbn in *; lia].
    rewrite <- H2. eapply increasing_last; [exact H1|]. by apply list_elem_of_fmap_2.
  - intros ->. done.
  - match goal with H : _ && _ = false |- _ => apply andb_false_iff in H as [H|H] end;
      [left; by apply negb_false_iff|right]. repeat bool_step. lia.
Qed.

Lemma Parse_ok input t : Parse input = Ok t -> table_ok t.
Proof.
  unfold Parse. destruct (scan_lines input) as [lines tooLong].
  destruct (parse_table_lines zeroTable [] 1 lines) as [[table records]|e] eqn:E; cbn; [|done].
  destruct tooLong; [done|]. apply finish_table_ok. by eapply parse_table_lines_ok; [|exact E].
Qed.

(** ** Queries *)

Definition day_ns : Z := 86400 * Second.

Lemma midnight_multiple a : leap_midnight a = true -> a mod Second = 0 -> exists k, a = k * day_ns.
Proof.
  unfold leap_midnight. intros H Hs. repeat bool_step.
  assert (Unix a = 86400 * unixDay a) as Hu by by apply midnight_day.
  exists (unixDay a). unfold day_ns, Unix in *.
  pose proof (Z.div_mod a Second ltac:(done)) as Hd. rewrite Hs, Hu in Hd. lia.
Qed.

(** [now] is within the day before the transition. *)
Definition warning (now : time) (tr : Transition) : Prop := tr_At tr - day_ns <= now < tr_At tr.

Lemma indicator_of_none ts now : (forall tr, tr ∈ ts -> ~ warning now tr) -> indicator_of ts now = LeapNone.
Proof.
  induction ts as [|tr ts IH]; intros H; cbn [indicator_of]; [done|].
  destruct (negb _ && _) eqn:E; [|apply IH; intros x Hx; apply H; by apply elem_of_cons; right].
  exfalso. apply (H tr (list_elem_of_here tr ts)). repeat bool_step. unfold Before, Add in *. repeat bool_step.
  unfold warning, day_ns. unfold Hour, Minute in *. lia.
Qed.

Lemma indicator_of_some ts now tr :
  (forall x, x ∈ ts -> exists k, tr_At x = k * day_ns) ->
  (forall x y, x ∈ ts -> y ∈ ts -> tr_At x = tr_At y -> x = y) ->
  tr ∈ ts -> warning now tr -> indicator_of ts now = tr_Leap tr.
Proof.
  induction ts as [|x ts IH]; intros Hm Hu Ht Hw; [by apply elem_of_nil in Ht|]. cbn [indicator_of].
  destruct (negb _ && _) eqn:E.
  - f_equal. apply Hu; [apply list_elem_of_here|done|]. repeat bool_step. unfold Before, Add in *. repeat bool_step.
    destruct (Hm x (list_elem_of_here x ts)) as [i Hi]. destruct (Hm tr Ht) as [j Hj].
    unfold warning, day_ns in *. unfold Hour, Minute, Second in *. nia.
  - apply elem_of_cons in Ht as [->|Ht].
    + exfalso. apply andb_false_iff in E. unfold Before, Add in E. unfold warning, day_ns in Hw.
      unfold Hour, Minute in *. destruct E as [E|E]; repeat bool_step; lia.
    + apply IH; try done; intros; [apply Hm|apply Hu]; try (by apply elem_of_cons; right); done.
Qed.

Lemma increasing_unique from ts :
  increasing from (tr_At <$> ts) -> forall x y, x ∈ ts -> y ∈ ts -> tr_At x = tr_At y -> x = y.
Proof.
  revert from. induction ts as [|z ts IH]; intros from Hi x y Hx Hy E; [by apply elem_of_nil in Hx|].
  destruct Hi as [_ Hi].
  assert (forall w, w ∈ ts -> tr_At z < tr_At w) as Hz.
  { intros w Hw. apply (increasing_after _ _ _ Hi). by apply list_elem_of_fmap_2. }
  apply elem_of_cons in Hx as [->|Hx]; apply elem_of_cons in Hy as [->|Hy]; try done.
  - specialize (Hz y Hy). lia.
  - specialize (Hz x Hx). lia.
  - by apply (IH (tr_At z)).
Qed.

(** The first transition after [now] is the earliest. *)
Lemma find_next from ts now tr :
  increasing from (tr_At <$> ts) -> List.find (fun tr => After (tr_At tr) now) ts = Some tr ->
  forall x, x ∈ ts -> now < tr_At x -> tr_At tr <= tr_At x.
Proof.
  revert from. induction ts as [|z ts IH]; intros from Hi; cbn [List.find]; [done|].
  destruct Hi as [_ Hi]. destruct (After (tr_At z) now) eqn:E.
  - intros [= <-] x Hx Hn. apply elem_of_cons in Hx as [->|Hx]; [done|].
    pose proof (increasing_after _ _ (tr_At x) Hi ltac:(by apply list_elem_of_fmap_2)). lia.
  - intros Hf x Hx Hn. apply elem_of_cons in Hx as [->|Hx]; [unfold After in E; bool_step; lia|].
    by apply (IH (tr_At z)).
Qed.

(** The records effective up to a time. *)
Lemma past_elem from cutoff ts tr :
  increasing from (tr_At <$> ts) -> tr ∈ past cutoff ts <-> tr ∈ ts /\ tr_At tr <= cutoff.
Proof.
  revert from. induction ts as [|z ts IH]; intros from Hi; cbn [past].
  - split; [intros H|intros [H _]]; by apply elem_of_nil in H.
  - destruct Hi as [_ Hi]. destruct (After (tr_At z) cutoff) eqn:E; cbn [negb]; unfold After in E; bool_step.
    + split; [intros H; by apply elem_of_nil in H|]. intros [Hx Hle].
      apply elem_of_cons in Hx as [->|Hx]; [lia|].
      pose proof (increasing_after _ _ (tr_At tr) Hi ltac:(by apply list_elem_of_fmap_2)). lia.
    + rewrite !elem_of_cons, (IH _ Hi). split; [intros [->|[? ?]]; auto|]. intros [[->|?] ?]; auto.
Qed.

Lemma past_past x cutoff ts : x <= cutoff -> past x (past cutoff ts) = past x ts.
Proof.
  intros Hx. induction ts as [|z ts IH]; cbn [past]; [done|].
  destruct (After (tr_At z) cutoff) eqn:E; cbn [negb past].
  - destruct (After (tr_At z) x) eqn:E2; cbn [negb]; [done|]. unfold After in *. repeat bool_step. lia.
  - by rewrite IH.
Qed.

(** TAI minus UTC at a time, according to a table. *)
Definition tai_utc (t : Table) (x : time) : Z :=
  fold_left (fun n tr => if tr_Leap tr =? LeapInsert then n + 1 else n - 1) (past x (Transitions t)) (t_Offset t).

(** ** The records of a file *)

(** What a line of the file says, read without any of the parser's checks: a
    line that is neither blank nor a comment gives a time and an offset. *)
Definition line_record (raw : str) : option (time * Z) :=
  let line := TrimSpace raw in
  if bool_decide (line = []) || HasPrefix line hash then None
  else
    match Fields line with
    | f0 :: f1 :: _ => at_ ← parseNTPSeconds f0; k ← Atoi f1; Some (at_, k)
    | _ => None
    end.

Definition file_records (input : str) : list (time * Z) := omap line_record (scan_lines input).1.

(** The offset in force at a time: that of the last record not after it. *)
Fixpoint offset_at (k : Z) (records : list (time * Z)) (x : time) : Z :=
  match records with
  | [] => k
  | (at_, k') :: rest => if at_ <=? x then offset_at k' rest x else k
  end.

(** Consecutive records go forward in time and one second up or down. *)
Fixpoint one_second_steps (prev : time * Z) (records : list (time * Z)) : Prop :=
  match records with
  | [] => True
  | (at_, k) :: rest => prev.1 < at_ /\ Z.abs (k - prev.2) = 1 /\ one_second_steps (at_, k) rest
  end.

Definition record_pair (r : leap_record) : time * Z := (r_at r, r_offset r).

Lemma prefix_hash line : HasPrefix line hash_at || HasPrefix line hash_dollar = true -> HasPrefix line hash = true.
Proof.
  unfold HasPrefix, hash_at, hash_dollar, hash. intros H. apply bool_decide_eq_true.
  apply orb_prop in H as [H|H]; apply bool_decide_eq_true in H; destruct line as [|a line]; try discriminate;
    cbn [length] in *; rewrite !firstn_cons in *; injection H as ->; done.
Qed.

Lemma parse_record_pair n line r : parse_record n line = Ok r ->
  exists f0 f1 rest, Fields line = f0 :: f1 :: rest /\ parseNTPSeconds f0 = Some (r_at r) /\ Atoi f1 = Some (r_offset r).
Proof.
  unfold parse_record. destruct (Fields line) as [|f0 [|f1 rest]]; try done.
  case_goal; [done|]. destruct (parseNTPSeconds f0) as [at_|] eqn:Et; [|done].
  destruct (Atoi f1) as [off|] eqn:Eo; [|done]. case_goal; [done|]. case_goal; [done|]. intros [= <-].
  by exists f0, f1, rest.
Qed.

Lemma parse_table_lines_records table records n lines t' rs :
  parse_table_lines table records n lines = Ok (t', rs) ->
  record_pair <$> rs = (record_pair <$> records) ++ omap line_record lines.
Proof.
  revert table records n. induction lines as [|raw lines IH]; intros table records n; cbn [parse_table_lines].
  - intros [= _ <-]. by rewrite app_nil_r.
  - cbn [omap list_omap]. destruct (TrimSpace raw) as [|c line] eqn:El.
    + intros H. replace (line_record raw) with (@None (time * Z)) by (unfold line_record; by rewrite El). eauto.
    + destruct (HasPrefix _ hash_at || _) eqn:E1.
      { apply prefix_hash in E1.
        replace (line_record raw) with (@None (time * Z)) by (unfold line_record; by rewrite El, E1).
        destruct (parse_stamp table n (c :: line)); cbn; [eauto|done]. }
      destruct (HasPrefix _ hash) eqn:E2.
      { intros H. replace (line_record raw) with (@None (time * Z)) by (unfold line_record; by rewrite El, E2). eauto. }
      destruct (parse_record n (c :: line)) as [r|] eqn:Er; cbn; [|done]. intros H. apply IH in H.
      destruct (parse_record_pair _ _ _ Er) as (f0 & f1 & rest & Hf & H0 & H1).
      replace (line_record raw) with (Some (record_pair r)).
      * rewrite H, fmap_app, <- app_assoc. done.
      * unfold line_record. rewrite El, E2, Hf, H0. cbn. by rewrite H1.
Qed.

(** The transitions add up to the offsets of the records. *)
Lemma transitions_of_offsets prev records ts :
  transitions_of prev records = Ok ts ->
  one_second_steps (record_pair prev) (record_pair <$> records) /\ tr_At <$> ts = r_at <$> records /\
  forall x, fold_left (fun n tr => if tr_Leap tr =? LeapInsert then n + 1 else n - 1) (past x ts) (r_offset prev)
            = offset_at (r_offset prev) (record_pair <$> records) x.
Proof.
  revert prev ts. induction records as [|cur rest IH]; intros prev ts; cbn [transitions_of].
  - by intros [= <-].
  - case_goal; [done|]. repeat bool_step. destruct ((_ =? 1) || _) eqn:Ed; [|done].
    destruct (transitions_of cur rest) as [ts'|e] eqn:E; cbn [result_bind]; [|done]. intros [= <-].
    destruct (IH cur ts' E) as (H1 & H2 & H3). unfold After in *. repeat bool_step.
    assert (r_offset cur - r_offset prev = 1 \/ r_offset cur - r_offset prev = -1) as Hd.
    { apply orb_prop in Ed as [Ed|Ed]; bool_step; auto. }
    split; [cbn; split; [done|split; [lia|exact H1]]|]. split; [cbn; by rewrite H2|]. intros x.
    cbn [past fmap list_fmap offset_at record_pair tr_At]. unfold After.
    destruct (Z.leb_spec (r_at cur) x) as [Hx|Hx].
    + rewrite (proj2 (Z.ltb_ge _ _)) by lia. cbn [negb fold_left tr_Leap]. rewrite <- H3. f_equal.
      destruct Hd as [Hd|Hd]; rewrite Hd; cbn; lia.
    + rewrite (proj2 (Z.ltb_lt _ _)) by lia. done.
Qed.

Lemma Parse_records input t : Parse input = Ok t ->
  exists first rest, file_records input = first :: rest /\ rest <> [] /\
    Baseline t = first.1 /\ t_Offset t = first.2 /\ tr_At <$> Transitions t = fst <$> rest /\
    one_second_steps first rest /\ forall x, tai_utc t x = offset_at first.2 rest x.
Proof.
  unfold Parse, file_records. destruct (scan_lines input) as [lines tooLong]. cbn [fst].
  destruct (parse_table_lines zeroTable [] 1 lines) as [[table records]|e] eqn:E; cbn; [|done].
  apply parse_table_lines_records in E. cbn in E. rewrite <- E. destruct tooLong; [done|].
  unfold finish_table. destruct (IsZero (Expiry table)); [done|].
  destruct records as [|first [|second rest]]; [done..|].
  case_goal; [done|]. case_goal; [done|].
  destruct (transitions_of first (second :: rest)) as [ts|e] eqn:Et; cbn [result_bind]; [|done]. intros [= <-].
  destruct (transitions_of_offsets _ _ _ Et) as (H1 & H2 & H3).
  exists (record_pair first), (record_pair <$> second :: rest).
  split; [done|]. split; [done|]. split; [done|]. split; [done|].
  split; [rewrite <- list_fmap_compose; exact H2|]. split; [exact H1|]. exact H3.
Qed.

(** ** Claims *)

(** Claim C25: an accepted table says what its file says.  Whatever the file
    holds, the table has a transition, its transitions increase strictly after
    the baseline, each at midnight UTC on the first of January or July, and the
    expiry is after all of them and after the update date.  The file's records
    are exactly the baseline and the transitions; consecutive offsets differ by
    one second, and TAI minus UTC computed from the table is at any time the
    offset of the last record not after it. *)
Theorem parsed_table_ok input t : Parse input = Ok t ->
  table_ok t /\
  exists first rest, file_records input = first :: rest /\ rest <> [] /\
    Baseline t = first.1 /\ t_Offset t = first.2 /\ tr_At <$> Transitions t = fst <$> rest /\
    one_second_steps first rest /\ forall x, tai_utc t x = offset_at first.2 rest x.
Proof. intros H. split; [by eapply Parse_ok|by apply Parse_records]. Qed.

(** "#$ 3676924800", "#@ 3928521600", two records of 2015 and 2017. *)
Definition example_table_file : str :=
  [35; 36; 32; 51; 54; 55; 54; 57; 50; 52; 56; 48; 48; 10;
   35; 64; 32; 51; 57; 50; 56; 53; 50; 49; 54; 48; 48; 10;
   51; 54; 52; 52; 54; 57; 55; 54; 48; 48; 32; 51; 54; 32; 35; 32; 49; 10;
   51; 54; 57; 50; 50; 49; 55; 54; 48; 48; 9; 51; 55; 10].

Definition example_table : Table :=
  match Parse example_table_file with Ok t => t | Err _ => zeroTable end.

Lemma example_parses : Parse example_table_file = Ok example_table.
Proof. vm_compute. reflexivity. Qed.

Lemma parsed_table_ok_witness :
  exists t, Parse example_table_file = Ok t /\ table_ok t /\
    tai_utc t (unixTime 1483228799 0) = 36 /\ tai_utc t (unixTime 1483228800 0) = 37.
Proof.
  exists example_table. split; [exact example_parses|].
  destruct (parsed_table_ok example_table_file example_table example_parses) as (H & first & rest & Hf & _ & _ & _ & _ & _ & Hx).
  split; [exact H|]. rewrite !Hx.
  replace (file_records example_table_file) with [(1435708800 * Second, 36); (1483228800 * Second, 37)] in Hf
    by (vm_compute; reflexivity).
  injection Hf as <- <-. vm_compute. split; reflexivity.
Defined.

(** The leap indicator is exactly the day before a transition.  For a
    well-formed table [Indicator] is the transition's own leap value
    throughout the 24 hours that end at it, and none at any other time. *)
Theorem indicator_exact t now :
  table_ok t ->
  (forall tr, tr ∈ Transitions t -> warning now tr -> Indicator (Some t) now = tr_Leap tr) /\
  ((forall tr, tr ∈ Transitions t -> ~ warning now tr) -> Indicator (Some t) now = LeapNone).
Proof.
  intros [H1 H2 _ _ _ _]. split.
  - intros tr Ht Hw. apply indicator_of_some; try done.
    + intros x Hx. destruct (H2 x Hx). by apply midnight_multiple.
    + by eapply increasing_unique.
  - apply indicator_of_none.
Qed.

Lemma indicator_exact_witness :
  Indicator (Some example_table) (unixTime 1483228799 0) = LeapInsert.
Proof.
  destruct (indicator_exact example_table (unixTime 1483228799 0)) as [H _].
  - apply (Parse_ok example_table_file). exact example_parses.
  - rewrite (H (mkTransition (unixTime 1483228800 0) LeapInsert)).
    + reflexivity.
    + vm_compute. left.
    + vm_compute. split; congruence.
Defined.

(** Crossing a transition and waiting for the next one agree.  Moving
    forward from a known time crosses a leap exactly when the next transition
    strictly after the start is not after the end; and cutting the interval
    in two counts each transition once. *)
Theorem crossed_next t a b c :
  table_ok t -> IsZero a = false -> IsZero b = false -> a < b < c ->
  (Crossed (Some t) a b = true <->
   exists tr, NextTransition (Some t) a = Some tr /\ tr_At tr <= b) /\
  Crossed (Some t) a c = Crossed (Some t) a b || Crossed (Some t) b c.
Proof.
  intros [Ho _ _ _ _ _] Ha Hb Hc.
  assert (forall x y, IsZero x = false -> x < y -> Crossed (Some t) x y = true <->
    exists tr, tr ∈ Transitions t /\ x < tr_At tr <= y) as Hcr.
  { intros x y Hx Hxy. unfold Crossed. rewrite Hx. unfold After at 1.
    assert ((x <? y) = true) as -> by (apply Z.ltb_lt; lia). cbn [negb orb].
    rewrite existsb_exists. split; intros (tr & Htr & H); exists tr; rewrite list_elem_of_In in *;
      unfold After in *; (split; [done|]).
    - repeat bool_step. lia.
    - apply andb_true_iff. split; [apply Z.ltb_lt|apply negb_true_iff, Z.ltb_ge]; lia. }
  split.
  - rewrite Hcr by (done || lia). unfold NextTransition. split.
    + intros (tr & Ht & Hr). destruct (List.find _ _) as [n|] eqn:E.
      * exists n. split; [done|]. pose proof (find_next _ _ _ _ Ho E tr Ht ltac:(lia)). lia.
      * pose proof (List.find_none _ _ E tr) as Hn. rewrite <- list_elem_of_In in Hn. specialize (Hn Ht).
        unfold After in Hn. cbn in Hn. bool_step. lia.
    + intros (n & E & Hle). apply List.find_some in E as [Hin E]. exists n. unfold After in E. bool_step.
      split; [by apply list_elem_of_In|lia].
  - apply eq_true_iff_eq. rewrite orb_true_iff, !Hcr by (done || lia). split.
    + intros (tr & Ht & Hr). destruct (Z_le_gt_dec (tr_At tr) b); [left|right]; exists tr; split; (done || lia).
    + intros [(tr & Ht & Hr)|(tr & Ht & Hr)]; exists tr; split; (done || lia).
Qed.

Lemma crossed_next_witness :
  Crossed (Some example_table) (unixTime 1483228790 0) (unixTime 1483228805 0)
  = Crossed (Some example_table) (unixTime 1483228790 0) (unixTime 1483228800 0)
    || Crossed (Some example_table) (unixTime 1483228800 0) (unixTime 1483228805 0) /\
  exists tr, NextTransition (Some example_table) (unixTime 1483228790 0) = Some tr.
Proof.
  destruct (crossed_next example_table (unixTime 1483228790 0) (unixTime 1483228800 0) (unixTime 1483228805 0))
    as [H1 H2]; [|reflexivity|reflexivity|vm_compute; split; reflexivity|].
  - apply (Parse_ok example_table_file). exact example_parses.
  - split; [exact H2|]. destruct (proj1 H1) as (tr & Ht & _); [vm_compute; reflexivity|].
    exists tr. exact Ht.
Defined.

(** Claim C26: an accepted update never rewrites history.  When [CheckUpdate]
    accepts a table over an old one (equal manifests naming equal bytes), the
    dates do not go back, the new table covers the present, and TAI-UTC is
    unchanged at every time up to the present (or up to the old table's
    expiry, if that has passed). *)
Theorem update_keeps_history old next now :
  table_ok (ob_table old) -> table_ok (ob_table next) ->
  (ob_manifest next = ob_manifest old -> ob_table next = ob_table old) ->
  CheckUpdate (Some old) (Some next) now = None ->
  t_Updated (ob_table old) <= t_Updated (ob_table next) /\
  Expiry (ob_table old) <= Expiry (ob_table next) /\ now < Expiry (ob_table next) /\
  forall x, x <= now -> x < Expiry (ob_table old) ->
    tai_utc (ob_table next) x = tai_utc (ob_table old) x /\
    forall y, Crossed (Some (ob_table next)) y x = Crossed (Some (ob_table old)) y x.
Proof.
  intros Ho Hn Hsame. unfold CheckUpdate. case_goal; [done|]. cbn zeta.
  destruct (negb (Before now (Expiry (ob_table next)))) eqn:Ee; [done|]. case_goal; [done|].
  repeat bool_step. unfold Before in Ee. bool_step.
  case_goal; [match goal with H : bool_decide _ = true |- _ => apply bool_decide_eq_true in H; apply Hsame in H; rewrite H in * end;
    intros _; repeat split; first [lia|done]|].
  case_goal; [done|]. case_goal; [done|]. case_goal; [done|]. case_goal; [done|].
  set (cutoff := if negb (Before now (Expiry (ob_table old))) then Add (Expiry (ob_table old)) (-1) else now).
  case_goal; [done|]. intros _. repeat bool_step.
  unfold Before, Equal in *. repeat bool_step.
  match goal with H : past _ _ = past _ _ |- _ => rename H into Hp end.
  match goal with H : t_Offset _ = t_Offset _ |- _ => rename H into Hoff end.
  split; [lia|]. split; [lia|]. split; [lia|]. intros x Hx1 Hx2.
  assert (x <= cutoff) as Hx.
  { unfold cutoff, Add. destruct (now <? Expiry (ob_table old)) eqn:E; cbn [negb]; [done|lia]. }
  assert (past x (Transitions (ob_table next)) = past x (Transitions (ob_table old))) as Hpx.
  { rewrite <- (past_past x cutoff (Transitions (ob_table next))) by done.
    rewrite <- Hp. by apply past_past. }
  split.
  - unfold tai_utc. by rewrite Hpx, Hoff.
  - intros y. unfold Crossed. destruct (IsZero y || _); [done|].
    apply eq_true_iff_eq. rewrite !existsb_exists.
    assert (forall tr, tr_At tr <= x -> tr ∈ Transitions (ob_table next) <-> tr ∈ Transitions (ob_table old)) as Hsm.
    { intros tr Hle.
      pose proof (past_elem _ x _ tr (to_order _ Hn)) as P1. pose proof (past_elem _ x _ tr (to_order _ Ho)) as P2.
      rewrite Hpx in P1. tauto. }
    split; intros (tr & Htr & Hc); exists tr; rewrite <- list_elem_of_In in *; (split; [|done]);
      apply andb_true_iff in Hc as [_ Hc]; unfold After in Hc; repeat bool_step; by apply Hsm.
Qed.

(** The same table, its expiry renewed by six months. *)
Definition example_renewed_file : str :=
  [35; 36; 32; 51; 54; 55; 54; 57; 50; 52; 56; 48; 48; 10;
   35; 64; 32; 51; 57; 52; 52; 51; 51; 50; 56; 48; 48; 10;
   51; 54; 52; 52; 54; 57; 55; 54; 48; 48; 32; 51; 54; 32; 35; 32; 49; 10;
   51; 54; 57; 50; 50; 49; 55; 54; 48; 48; 9; 51; 55; 10].

Definition object_of (file : str) : Object :=
  match NewObject file with Ok o => o | Err _ => mkObject zeroManifest zeroTable [] end.

Lemma object_of_table file : ob_table (object_of file) <> zeroTable -> table_ok (ob_table (object_of file)).
Proof.
  unfold object_of, NewObject. case_goal; [done|]. destruct (Parse file) as [t|e] eqn:E; [|done].
  case_goal; [done|]. intros _. by apply (Parse_ok file).
Qed.

Lemma update_keeps_history_witness :
  let old := object_of example_table_file in
  let next := object_of example_renewed_file in
  CheckUpdate (Some old) (Some next) (unixTime 1717200000 0) = None /\
  tai_utc (ob_table next) (unixTime 1700000000 0) = tai_utc (ob_table old) (unixTime 1700000000 0) /\
  tai_utc (ob_table old) (unixTime 1700000000 0) = 37.
Proof.
  cbv zeta. set (old := object_of example_table_file). set (next := object_of example_renewed_file).
  assert (CheckUpdate (Some old) (Some next) (unixTime 1717200000 0) = None) as Hc by (vm_compute; reflexivity).
  split; [exact Hc|]. split; [|vm_compute; reflexivity].
  destruct (update_keeps_history old next (unixTime 1717200000 0)) as (_ & _ & _ & H).
  - apply object_of_table. intros E. vm_compute in E. discriminate E.
  - apply object_of_table. intros E. vm_compute in E. discriminate E.
  - intros E. exfalso. vm_compute in E. discriminate E.
  - exact Hc.
  - apply (H (unixTime 1700000000 0)); vm_compute; [discriminate|reflexivity].
Defined.
