(* ===== verification/LeapWire.v ===== *)
(** * internal/leap/wire.go: the CLPS extension field

    A leap table is fetched over NTP in 256-byte chunks: a probe is answered
    with the manifest, a GET with the chunk at its offset. *)

From stdpp Require Import base list numbers.
From Stdlib Require Import Lia ZArith.
From S2P Require Import Prelude Float64 GoTime NtpTime NtpPacket LeapTable.

Local Open Scope Z_scope.

Definition ExtensionType : Z := 62724.
Definition WireVersion : Z := 1.
Definition FieldSize : nat := 88.
Definition ChunkSize : nat := 256.
Definition MaxFieldSize : nat := FieldSize + ChunkSize.

Definition Probe : Z := 1.
Definition ManifestReply : Z := 2.
Definition Get : Z := 3.
Definition DataOp : Z := 4.
Definition OK : Z := 0.
Definition NoTable : Z := 1.
Definition NotFound : Z := 2.

Inductive WireError : Type :=
| Unsupported
| Rejected (r : Reason)
| NotARequest.

Record Message : Type := mkMessage {
  Operation : Z;
  mResult : Z;
  MsgID : list Z;
  mManifest : Manifest;
  mOffset : Z;
  mCount : Z;
  mData : list Z
}.

Definition zeroID : list Z := replicate 16 0.

(** [validate]: true without an error; the error is always "framing". *)
Definition validate (m : Message) : bool :=
  let mf := mManifest m in
  let empty := bool_decide (mf = zeroManifest) in
  let n := Z.of_nat (length (mData m)) in
  let chunk := Z.of_nat ChunkSize in
  if bool_decide (MsgID m = zeroID) then false
  else if negb empty && negb (manifest_valid mf) then false
  else if Operation m =? Probe then
    negb (negb (mResult m =? OK) || negb (mOffset m =? 0) || negb (mCount m =? 0) || negb (n =? 0))
  else if Operation m =? ManifestReply then
    negb (negb (mOffset m =? 0) || negb (mCount m =? 0) || negb (n =? 0)
          || (negb (mResult m =? OK) && negb (mResult m =? NoTable))
          || negb (Bool.eqb (mResult m =? NoTable) empty))
  else if Operation m =? Get then
    negb (negb (mResult m =? OK) || empty || (mf_Size mf <=? mOffset m) || negb (mOffset m mod chunk =? 0)
          || negb (mCount m =? chunk) || negb (n =? 0))
  else if Operation m =? DataOp then
    if empty || (mf_Size mf <=? mOffset m) || negb (mOffset m mod chunk =? 0) then false
    else if mResult m =? NotFound then negb (negb (mCount m =? 0) || negb (n =? 0))
    else negb (negb (mResult m =? OK) || negb (mCount m =? n)
               || negb (mCount m =? Z.min chunk (mf_Size mf - mOffset m)))
  else false.

(** [(n + 3) &^ 3]. *)
Definition round4 (n : nat) : nat := (n + 3) / 4 * 4.

Definition field_length (m : Message) : nat :=
  if Operation m =? Get then MaxFieldSize else (FieldSize + round4 (length (mData m)))%nat.

(** "CLPS". *)
Definition magic : list Z := [67; 76; 80; 83].

(** The bytes of a field: 88 fixed ones, the data, zeros up to its length. *)
Definition encode_field (m : Message) : list Z :=
  let mf := mManifest m in
  be_encode 2 ExtensionType ++ be_encode 2 (Z.of_nat (field_length m)) ++ magic
  ++ [WireVersion; Operation m] ++ be_encode 2 (mResult m) ++ MsgID m
  ++ be_encode 8 (mf_Updated mf) ++ be_encode 8 (mf_Expires mf) ++ mf_Digest mf
  ++ be_encode 4 (mf_Size mf) ++ be_encode 4 (mOffset m) ++ be_encode 2 (mCount m) ++ [0; 0]
  ++ mData m ++ replicate (field_length m - FieldSize - length (mData m)) 0.

(** [Message.AppendTo]. *)
Definition Message_AppendTo (m : Message) (dst : list Z) : result WireError (list Z) :=
  if validate m then Ok (dst ++ encode_field m) else Err (Rejected ReasonFraming).

Definition allZero (b : list Z) : bool := forallb (fun v => v =? 0) b.

(** The fixed part of a field. *)
Definition decode_fixed (b : list Z) : Message :=
  mkMessage (byte_at b 9) (be_at b 10 12) (slice 12 28 b)
    (mkManifest (be_at b 28 36) (be_at b 36 44) (slice 44 76 b) (be_at b 76 80))
    (be_at b 80 84) (be_at b 84 86) [].

Definition with_data (m : Message) (d : list Z) : Message :=
  mkMessage (Operation m) (mResult m) (MsgID m) (mManifest m) (mOffset m) (mCount m) d.

(** A field of our type, version and magic. *)
Definition decode_field (b : list Z) : result WireError Message :=
  let n := length b in
  let m := decode_fixed b in
  if negb (be_at b 86 88 =? 0) then Err (Rejected ReasonFraming)
  else
    let dataLen := if Operation m =? DataOp then Z.to_nat (mCount m) else O in
    let expected := if Operation m =? DataOp then (FieldSize + round4 dataLen)%nat else FieldSize in
    let expected := if Operation m =? Get then MaxFieldSize else expected in
    if negb (expected =? n)%nat || (n - FieldSize <? dataLen)%nat then Err (Rejected ReasonFraming)
    else
      let m := with_data m (slice FieldSize (FieldSize + dataLen) b) in
      if negb (allZero (drop (FieldSize + dataLen) b)) then Err (Rejected ReasonFraming)
      else if validate m then Ok m else Err (Rejected ReasonFraming).

(** The loop of [DecodeFields]; [fuel] bounds the number of fields. *)
Fixpoint decode_loop (fuel : nat) (fields : list Z) (found : option Message) (seen unsupported : bool)
  : result WireError (option Message) :=
  match fuel with
  | O => Err (Rejected ReasonFraming)
  | S fuel =>
      if (length fields =? 0)%nat then (if unsupported then Err Unsupported else Ok found)
      else if (length fields <? 4)%nat then Err (Rejected ReasonFraming)
      else
        let n := Z.to_nat (be_at fields 2 4) in
        if (n <? 16)%nat || negb (n mod 4 =? 0)%nat || (length fields <? n)%nat
        then Err (Rejected ReasonFraming)
        else
          let b := take n fields in
          let rest := drop n fields in
          if negb (be_at b 0 2 =? ExtensionType) then decode_loop fuel rest found seen unsupported
          else if seen then Err (Rejected ReasonFraming)
          else if (n <? FieldSize)%nat || (MaxFieldSize <? n)%nat then Err (Rejected ReasonFraming)
          else if negb (bool_decide (slice 4 8 b = magic)) || negb (byte_at b 8 =? WireVersion)
          then decode_loop fuel rest found true true
          else
            try m <- decode_field b;
            decode_loop fuel rest (Some m) true unsupported
  end.

(** [DecodeFields]. *)
Definition DecodeFields (fields : list Z) : result WireError (option Message) :=
  decode_loop (S (length fields)) fields None false false.

(** [Reply]. *)
Definition Reply (req : option Message) (object : option Object) : result WireError Message :=
  match req with
  | None => Err NotARequest
  | Some req =>
      if negb (validate req) then Err (Rejected ReasonFraming)
      else if Operation req =? Probe then
        Ok match object with
           | None => mkMessage ManifestReply NoTable (MsgID req) zeroManifest 0 0 []
           | Some o => mkMessage ManifestReply OK (MsgID req) (ob_manifest o) 0 0 []
           end
      else if Operation req =? Get then
        let none := mkMessage DataOp NotFound (MsgID req) (mManifest req) (mOffset req) 0 [] in
        Ok match object with
           | None => none
           | Some o =>
               if negb (bool_decide (ob_manifest o = mManifest req)) then none
               else
                 let count := Z.min (Z.of_nat ChunkSize) (mf_Size (mManifest req) - mOffset req) in
                 let from := Z.to_nat (mOffset req) in
                 mkMessage DataOp OK (MsgID req) (mManifest req) (mOffset req) count
                   (slice from (from + Z.to_nat count) (ob_data o))
           end
      else Err NotARequest
  end.

(** ** Round trip *)

(** Field widths of the Go types. *)
Record message_ok (m : Message) : Prop := {
  mo_op : in_u 8 (Operation m);
  mo_result : in_u 16 (mResult m);
  mo_id : length (MsgID m) = 16%nat;
  mo_updated : in_u 64 (mf_Updated (mManifest m));
  mo_expires : in_u 64 (mf_Expires (mManifest m));
  mo_digest : length (mf_Digest (mManifest m)) = 32%nat;
  mo_size : in_u 32 (mf_Size (mManifest m));
  mo_offset : in_u 32 (mOffset m);
  mo_count : in_u 16 (mCount m)
}.

(** What a valid message looks like on the wire. *)
Lemma validate_shape m :
  validate m = true ->
  (length (mData m) <= 256)%nat /\ (Operation m = Get -> mData m = []) /\
  (Operation m <> DataOp -> mData m = []) /\
  (Operation m = DataOp -> mCount m = Z.of_nat (length (mData m))).
Proof.
  unfold validate. unfold Probe, ManifestReply, Get, DataOp, ChunkSize. intros H.
  assert (forall l : list Z, Z.of_nat (length l) = 0 -> l = []) as Hnil by (intros []; [done|cbn; lia]).
  case_in H; [done|]. case_in H; [done|].
  case_in H; [|case_in H; [|case_in H; [|case_in H; [|done]]]]; repeat bool_step.
  1-3: match goal with E : Z.of_nat (length _) = 0 |- _ => apply Hnil in E; rewrite E end;
    repeat split; cbn; try lia; congruence.
  case_in H; [done|]. case_in H; repeat bool_step.
  - match goal with E : Z.of_nat (length _) = 0 |- _ => apply Hnil in E; rewrite E end.
    repeat split; cbn; try lia; congruence.
  - repeat split; try lia; congruence.
Qed.

Lemma round4_ge n : (n <= round4 n /\ round4 n < n + 4 /\ round4 n mod 4 = 0)%nat.
Proof.
  unfold round4. pose proof (Nat.div_mod_eq (n + 3) 4). pose proof (Nat.mod_upper_bound (n + 3) 4).
  rewrite Nat.Div0.mod_mul. lia.
Qed.

Lemma field_length_bounds m :
  validate m = true ->
  (FieldSize + length (mData m) <= field_length m <= MaxFieldSize)%nat /\ (field_length m mod 4 = 0)%nat.
Proof.
  intros Hv. destruct (validate_shape m Hv) as (H1 & H2 & _). unfold field_length, MaxFieldSize, FieldSize, ChunkSize.
  destruct (Operation m =? Get) eqn:E; bool_step.
  - rewrite (H2 E). cbn. repeat split; lia.
  - destruct (round4_ge (length (mData m))) as (H3 & H4 & H5). repeat split; try lia.
    + assert (round4 (length (mData m)) <= 256)%nat; [|lia]. unfold round4 in *.
      pose proof (Nat.Div0.div_le_mono (length (mData m) + 3) (256 + 3) 4 ltac:(lia)) as Hd.
      change ((256 + 3) / 4)%nat with 64%nat in Hd. lia.
    + rewrite Nat.Div0.add_mod, H5. done.
Qed.

(** Reads of a field at its fixed offsets, given the lengths of its parts. *)
Ltac wire_read M3 M6 :=
  unfold be_at;
  repeat (rewrite slice_app_r by (rewrite ?length_be_encode, ?M3, ?M6; cbn [length magic]; lia);
          rewrite ?length_be_encode, ?M3, ?M6; cbn [length magic Nat.sub]);
  rewrite slice_app_l by (rewrite ?length_be_encode, ?M3, ?M6; cbn [length magic]; lia).

Lemma be_read n v w : in_u w v -> w = 8 * Z.of_nat n -> be_decode (be_encode n v) = v.
Proof. intros Hv Hw. rewrite be_decode_encode. by apply (in_u_mod w). Qed.

Lemma encode_field_reads m :
  message_ok m ->
  let b := encode_field m in
  be_at b 0 2 = ExtensionType /\ be_at b 2 4 = Z.of_nat (field_length m) mod 65536 /\
  slice 4 8 b = magic /\ byte_at b 8 = WireVersion /\ decode_fixed b = with_data m [] /\ be_at b 86 88 = 0.
Proof.
  intros [M1 M2 M3 M4 M5 M6 M7 M8 M9]. cbn zeta. unfold encode_field, decode_fixed, with_data.
  assert (mManifest m = mkManifest (mf_Updated (mManifest m)) (mf_Expires (mManifest m))
            (mf_Digest (mManifest m)) (mf_Size (mManifest m))) as Em by by destruct (mManifest m).
  split; [wire_read M3 M6; reflexivity|].
  split; [wire_read M3 M6; apply be_decode_encode|].
  split; [wire_read M3 M6; reflexivity|].
  split; [reflexivity|]. split; [|wire_read M3 M6; reflexivity].
  rewrite Em. cbn [mf_Updated mf_Expires mf_Digest mf_Size]. f_equal.
  - wire_read M3 M6. by apply (be_read 2 _ 16).
  - wire_read M3 M6. done.
  - f_equal.
    + wire_read M3 M6. by apply (be_read 8 _ 64).
    + wire_read M3 M6. by apply (be_read 8 _ 64).
    + wire_read M3 M6. done.
    + wire_read M3 M6. by apply (be_read 4 _ 32).
  - wire_read M3 M6. by apply (be_read 4 _ 32).
  - wire_read M3 M6. by apply (be_read 2 _ 16).
Qed.

Lemma length_encode_field' m :
  length (MsgID m) = 16%nat -> length (mf_Digest (mManifest m)) = 32%nat -> validate m = true ->
  length (encode_field m) = field_length m.
Proof.
  intros M3 M6 Hv. destruct (field_length_bounds m Hv) as [[H1 _] _].
  unfold encode_field. rewrite !length_app, !length_be_encode, length_replicate, M3, M6. cbn [length magic].
  unfold FieldSize in *. lia.
Qed.

Lemma length_encode_field m : message_ok m -> validate m = true -> length (encode_field m) = field_length m.
Proof. intros [_ _ M3 _ _ M6 _ _ _]. by apply length_encode_field'. Qed.

Lemma decode_field_encode m : message_ok m -> validate m = true -> decode_field (encode_field m) = Ok m.
Proof.
  intros Hm Hv. destruct (encode_field_reads m Hm) as (_ & _ & _ & _ & Hd & Hr).
  destruct (validate_shape m Hv) as (V1 & V2 & V3 & V4).
  pose proof (length_encode_field m Hm Hv) as Hl.
  unfold decode_field. rewrite Hr, Hd, Hl. cbn [negb Operation with_data mCount].
  change (0 =? 0) with true. cbn [negb].
  set (dl := if Operation m =? DataOp then Z.to_nat (mCount m) else O).
  assert (dl = length (mData m)) as Hdl.
  { unfold dl. destruct (Operation m =? DataOp) eqn:E; bool_step; [rewrite (V4 E); lia|by rewrite V3]. }
  assert ((if Operation m =? Get then MaxFieldSize
           else if Operation m =? DataOp then (FieldSize + round4 dl)%nat else FieldSize) = field_length m) as ->.
  { unfold field_length. destruct (Operation m =? Get); [done|]. rewrite Hdl.
    destruct (Operation m =? DataOp) eqn:E; bool_step; [done|]. rewrite V3 by done. cbn. done. }
  rewrite Nat.eqb_refl, Hdl. destruct (field_length_bounds m Hv) as [[H1 _] _].
  assert ((field_length m - FieldSize <? length (mData m))%nat = false) as -> by (apply Nat.ltb_ge; lia).
  cbn [negb orb].
  assert (drop FieldSize (encode_field m) =
    mData m ++ replicate (field_length m - FieldSize - length (mData m)) 0) as Hdrop.
  { destruct Hm as [_ _ M3 _ _ M6 _ _ _]. unfold encode_field. rewrite !app_assoc. rewrite <- (app_assoc _ (mData m)).
    apply drop_app_length'. rewrite !length_app, !length_be_encode, M3, M6. done. }
  assert (slice FieldSize (FieldSize + length (mData m)) (encode_field m) = mData m) as ->.
  { unfold slice. rewrite Hdrop, Nat.add_comm, Nat.add_sub. by apply take_app_length'. }
  assert (drop (FieldSize + length (mData m)) (encode_field m)
    = replicate (field_length m - FieldSize - length (mData m)) 0) as ->.
  { rewrite <- drop_drop, Hdrop. by apply drop_app_length'. }
  assert (allZero (replicate (field_length m - FieldSize - length (mData m)) 0) = true) as ->.
  { apply forallb_forall. intros x Hx. apply list_elem_of_In, elem_of_replicate in Hx as [-> _]. done. }
  cbn [negb]. assert (with_data (with_data m []) (mData m) = m) as -> by by destruct m. by rewrite Hv.
Qed.

(** A field of another type. *)
Definition foreign (f : list Z) : Prop := ext_field f /\ be_at f 0 2 <> ExtensionType.

(** One step of the loop over a well-formed field. *)
Lemma decode_loop_step fuel f rest found seen unsup :
  ext_field f ->
  decode_loop (S fuel) (f ++ rest) found seen unsup =
    if negb (be_at f 0 2 =? ExtensionType) then decode_loop fuel rest found seen unsup
    else if seen then Err (Rejected ReasonFraming)
    else if (length f <? FieldSize)%nat || (MaxFieldSize <? length f)%nat then Err (Rejected ReasonFraming)
    else if negb (bool_decide (slice 4 8 f = magic)) || negb (byte_at f 8 =? WireVersion)
    then decode_loop fuel rest found true true
    else try m <- decode_field f; decode_loop fuel rest (Some m) true unsup.
Proof.
  intros (H1 & H2 & H3 & H4). cbn [decode_loop]. rewrite length_app.
  destruct (length f + length rest =? 0)%nat eqn:E0; [bool_step; lia|].
  destruct (length f + length rest <? 4)%nat eqn:E1; [bool_step; lia|].
  assert (be_at (f ++ rest) 2 4 = Z.of_nat (length f)) as Hn.
  { rewrite <- H4. apply (be_at_mid [] f rest 2 4). lia. }
  rewrite Hn, Nat2Z.id.
  assert ((length f mod 4)%nat = 0%nat) as Hm.
  { apply Nat2Z.inj. rewrite Nat2Z.inj_mod. exact H2. }
  rewrite Hm. destruct (length f <? 16)%nat eqn:E2; [bool_step; lia|].
  destruct (length f + length rest <? length f)%nat eqn:E3; [bool_step; lia|].
  cbn [Nat.eqb negb orb]. by rewrite take_app_length, drop_app_length.
Qed.

Lemma decode_loop_foreign fs fuel rest found seen unsup :
  Forall foreign fs ->
  decode_loop (length fs + fuel) (concat fs ++ rest) found seen unsup = decode_loop fuel rest found seen unsup.
Proof.
  induction 1 as [|f fs [Hf Ht] _ IH]; [done|]. cbn [length concat Nat.add]. rewrite <- app_assoc.
  rewrite decode_loop_step by done. destruct (be_at f 0 2 =? ExtensionType) eqn:E; [bool_step; done|].
  cbn [negb]. apply IH.
Qed.

(** More fuel changes nothing. *)
Lemma decode_loop_fuel n k fields found seen unsup :
  (length fields < n)%nat -> (n <= k)%nat ->
  decode_loop n fields found seen unsup = decode_loop k fields found seen unsup.
Proof.
  revert k fields found seen unsup. induction n as [|n IH]; intros k fields found seen unsup Hn Hk; [lia|].
  destruct k as [|k]; [lia|]. cbn [decode_loop].
  destruct (length fields =? 0)%nat; [done|]. destruct (length fields <? 4)%nat; [done|].
  destruct (_ || (length fields <? _)%nat) eqn:E; [done|]. repeat bool_step.
  assert (length (drop (Z.to_nat (be_at fields 2 4)) fields) < n)%nat by (rewrite length_drop; lia).
  case_goal; [by apply IH; lia|]. case_goal; [done|]. case_goal; [done|]. case_goal; [by apply IH; lia|].
  destruct (decode_field _); [|done]. by apply IH; lia.
Qed.

Lemma encode_field_ext m : message_ok m -> validate m = true -> ext_field (encode_field m).
Proof.
  intros Hm Hv. pose proof (length_encode_field m Hm Hv) as Hl.
  destruct (field_length_bounds m Hv) as [[H1 H2] H3]. destruct (encode_field_reads m Hm) as (_ & Hn & _).
  unfold ext_field, MaxFieldSize, FieldSize, ChunkSize in *. rewrite Hl, Hn. repeat split; try lia.
  - apply Nat2Z.inj_iff in H3. rewrite Nat2Z.inj_mod in H3. exact H3.
  - apply Z.mod_small. lia.
Qed.

(** The CLPS field survives the wire.  A valid message encodes, and
    the field decodes back to that very message between any well-formed
    extension fields of other types. *)
Theorem clps_roundtrip m pre post :
  message_ok m -> validate m = true -> Forall foreign pre -> Forall foreign post ->
  exists b, Message_AppendTo m (concat pre) = Ok (concat pre ++ b) /\
    length b = field_length m /\ DecodeFields (concat pre ++ b ++ concat post) = Ok (Some m).
Proof.
  intros Hm Hv Hpre Hpost. exists (encode_field m). unfold Message_AppendTo. rewrite Hv.
  split; [done|]. split; [by apply length_encode_field|].
  assert (forall fs, Forall foreign fs -> (length fs <= length (concat fs))%nat) as Hlen.
  { intros fs Hfs. apply ext_fields_length. induction Hfs as [|f fs [Hf _] _ IH]; by constructor. }
  pose proof (Hlen _ Hpre) as L1. pose proof (Hlen _ Hpost) as L2.
  pose proof (length_encode_field m Hm Hv) as Hl. destruct (field_length_bounds m Hv) as [[B1 B2] _].
  unfold DecodeFields.
  set (big := (length pre + S (length post + 1) + S (length (concat pre ++ encode_field m ++ concat post)))%nat).
  rewrite (decode_loop_fuel _ big) by lia.
  replace big with (length pre + S (length post + S (S (length (concat pre ++ encode_field m ++ concat post)))))%nat
    by (unfold big; lia).
  generalize (S (length (concat pre ++ encode_field m ++ concat post))). intros fuel.
  rewrite decode_loop_foreign by done. rewrite decode_loop_step by by apply encode_field_ext.
  destruct (encode_field_reads m Hm) as (R1 & _ & R3 & R4 & _). rewrite R1, R3, R4, Hl.
  rewrite Z.eqb_refl. cbn [negb]. destruct (_ || _) eqn:E.
  { apply orb_true_iff in E as [E|E]; repeat bool_step; lia. }
  rewrite bool_decide_true by done. cbn [negb orb]. rewrite Z.eqb_refl. cbn [negb].
  rewrite decode_field_encode by done. cbn [result_bind].
  rewrite <- (app_nil_r (concat post)). rewrite decode_loop_foreign by done. done.
Qed.

Definition example_message : Message :=
  mkMessage Get OK (replicate 16 7) (mkManifest 3676924800 3928521600 (replicate 32 9) 600) 256 256 [].

Lemma clps_roundtrip_witness :
  exists b, Message_AppendTo example_message [] = Ok b /\ length b = 344%nat /\
    DecodeFields (b ++ concat [[1; 2; 0; 16] ++ replicate 12 0]) = Ok (Some example_message).
Proof.
  destruct (clps_roundtrip example_message [] [[1; 2; 0; 16] ++ replicate 12 0]) as (b & H1 & H2 & H3).
  - constructor; vm_compute; repeat split; congruence.
  - vm_compute. reflexivity.
  - constructor.
  - constructor; [|constructor]. split; [|vm_compute; congruence].
    unfold ext_field. vm_compute. repeat split; lia.
  - exists b. auto.
Defined.

(** ** What a decoder accepts *)

Lemma decode_field_valid b m : decode_field b = Ok m -> validate m = true.
Proof.
  unfold decode_field. cbn zeta. intros H. destruct (negb (be_at b 86 88 =? 0)); [done|].
  destruct (negb _ || _) in H; [done|]. destruct (negb (allZero _)) in H; [done|].
  destruct (validate _) eqn:E in H; [|done]. by injection H as <-.
Qed.

Lemma decode_loop_valid fuel fields found seen unsup m :
  (forall x, found = Some x -> validate x = true) ->
  decode_loop fuel fields found seen unsup = Ok (Some m) -> validate m = true.
Proof.
  revert fields found seen unsup. induction fuel as [|fuel IH]; intros fields found seen unsup Hf; cbn [decode_loop]; [done|].
  case_goal; [case_goal; [done|]; intros [= ->]; eauto|]. case_goal; [done|]. case_goal; [done|].
  case_goal; [by apply IH|]. case_goal; [done|]. case_goal; [done|]. case_goal; [by apply IH|].
  destruct (decode_field _) as [x|] eqn:E; cbn [result_bind]; [|done]. apply IH.
  intros y [= <-]. by eapply decode_field_valid.
Qed.

Lemma decode_field_bounds b m :
  Forall is_byte b -> (FieldSize <= length b)%nat -> decode_field b = Ok m ->
  validate m = true /\ field_length m = length b /\ length (MsgID m) = 16%nat /\
  length (mf_Digest (mManifest m)) = 32%nat /\ 0 <= mOffset m.
Proof.
  intros Hb Hl Hd. pose proof (decode_field_valid b m Hd) as Hv. split; [done|].
  revert Hd. unfold decode_field. cbn zeta.
  set (dl := if Operation (decode_fixed b) =? DataOp then Z.to_nat (mCount (decode_fixed b)) else O).
  case_goal; [done|]. destruct (negb (_ =? _)%nat || (length b - FieldSize <? dl)%nat) eqn:E; [done|].
  apply orb_false_iff in E as [E1 E2]. apply Nat.ltb_ge in E2. apply negb_false_iff, Nat.eqb_eq in E1.
  assert (length (slice FieldSize (FieldSize + dl) b) = dl) as Hs by (rewrite length_slice; lia).
  set (data := slice FieldSize (FieldSize + dl) b) in *. clearbody data.
  case_goal; [done|]. case_goal; [|done]. intros [= <-].
  split; [|split; [|split]].
  - rewrite <- E1. unfold field_length, with_data. cbn [Operation mData]. rewrite Hs.
    destruct (Operation (decode_fixed b) =? Get); [done|]. unfold dl. by destruct (_ =? DataOp).
  - apply length_slice. unfold FieldSize in Hl. lia.
  - apply length_slice. unfold FieldSize in Hl. lia.
  - apply be_decode_range. by apply slice_Forall.
Qed.

(** The message [DecodeFields] finds fits the region it was found in. *)
Lemma decode_loop_bounds fuel fields found seen unsup m :
  Forall is_byte fields ->
  decode_loop fuel fields found seen unsup = Ok (Some m) ->
  found = Some m \/
  validate m = true /\ (field_length m <= length fields)%nat /\ length (MsgID m) = 16%nat /\
  length (mf_Digest (mManifest m)) = 32%nat /\ 0 <= mOffset m.
Proof.
  revert fields found seen unsup. induction fuel as [|fuel IH]; intros fields found seen unsup Hb; cbn [decode_loop]; [done|].
  case_goal; [case_goal; [done|]; intros [= ->]; by left|]. case_goal; [done|].
  set (n := Z.to_nat (be_at fields 2 4)). case_goal; [done|]. repeat bool_step.
  assert (Forall is_byte (drop n fields) /\ Forall is_byte (take n fields)) as [Hbd Hbt].
  { split; [by apply Forall_drop|by apply Forall_take]. }
  assert (forall found' seen' unsup', decode_loop fuel (drop n fields) found' seen' unsup' = Ok (Some m) ->
    found' = Some m \/
    validate m = true /\ (field_length m <= length fields)%nat /\ length (MsgID m) = 16%nat /\
    length (mf_Digest (mManifest m)) = 32%nat /\ 0 <= mOffset m) as Hrec.
  { intros f' s' u' E. destruct (IH _ _ _ _ Hbd E) as [->|(? & Hl & ?)]; [by left|right].
    rewrite length_drop in Hl. repeat split; (tauto || lia). }
  case_goal; [apply Hrec|]. case_goal; [done|]. case_goal; [done|]. case_goal; [apply Hrec|].
  destruct (decode_field _) as [x|] eqn:E; cbn [result_bind]; [|done].
  intros Hd. destruct (Hrec _ _ _ Hd) as [[= ->]|]; [|by right]. right.
  repeat bool_step.
  assert (length (take n fields) = n) as Hn by (rewrite length_take; lia).
  destruct (decode_field_bounds _ _ Hbt ltac:(lia) E) as (? & Hl & ?). rewrite Hn in Hl.
  split; [done|]. split; [lia|]. tauto.
Qed.

(** ** Replies *)

(** A table object as [NewObject] makes them; its digest is not all zeros. *)
Record object_ok (o : Object) : Prop := {
  oo_valid : manifest_valid (ob_manifest o) = true;
  oo_size : mf_Size (ob_manifest o) = Z.of_nat (length (ob_data o))
}.

Lemma manifest_valid_nonzero m : manifest_valid m = true -> m <> zeroManifest /\ 0 < mf_Size m \/ mf_Size m < 0.
Proof.
  intros H. unfold manifest_valid in H.
  destruct (Date (mf_Updated m)) eqn:E1; [|done]. destruct (Date (mf_Expires m)); [|done]. repeat bool_step.
  destruct (Z.lt_trichotomy (mf_Size m) 0) as [|[|]]; [by right|lia|left]. split; [|done]. intros ->. done.
Qed.

Lemma object_nonzero o : object_ok o -> ob_manifest o <> zeroManifest.
Proof. intros [H1 H2]. destruct (manifest_valid_nonzero _ H1) as [[? _]|?]; [done|lia]. Qed.

Definition reply_ok (req r : Message) : Prop :=
  validate r = true /\ (field_length r <= field_length req)%nat /\ MsgID r = MsgID req.

(** The size of a valid request of each kind. *)
Lemma request_length m : Operation m = Probe -> validate m = true -> field_length m = FieldSize.
Proof.
  intros Ho Hv. destruct (validate_shape m Hv) as (_ & _ & H & _). unfold field_length. rewrite Ho.
  cbn [Z.eqb Probe Get]. rewrite H by (rewrite Ho; done). done.
Qed.

(** A reply carrying the manifest, or none. *)
Lemma manifest_reply_valid id o :
  id <> zeroID -> (forall x, o = Some x -> object_ok x) ->
  validate match o with
           | None => mkMessage ManifestReply NoTable id zeroManifest 0 0 []
           | Some x => mkMessage ManifestReply OK id (ob_manifest x) 0 0 []
           end = true.
Proof.
  intros Hid Ho. unfold validate. destruct o as [x|]; cbn [MsgID mManifest Operation mResult mOffset mCount mData length].
  - rewrite !bool_decide_false by (done || by apply object_nonzero, Ho).
    by rewrite (oo_valid _ (Ho x eq_refl)).
  - by rewrite bool_decide_false, bool_decide_true.
Qed.

(** What a valid GET guarantees. *)
Lemma get_valid m : Operation m = Get -> validate m = true ->
  MsgID m <> zeroID /\ mManifest m <> zeroManifest /\ manifest_valid (mManifest m) = true /\
  mOffset m < mf_Size (mManifest m) /\ mOffset m mod 256 = 0 /\ field_length m = MaxFieldSize.
Proof.
  intros Eg Hv. unfold validate in Hv. rewrite Eg in Hv.
  change (Get =? Probe) with false in Hv. change (Get =? ManifestReply) with false in Hv.
  change (Get =? Get) with true in Hv. change (Z.of_nat ChunkSize) with 256 in Hv. cbv zeta iota in Hv.
  destruct (bool_decide (MsgID m = zeroID)) eqn:E1; [done|]. apply bool_decide_eq_false in E1.
  destruct (bool_decide (mManifest m = zeroManifest)) eqn:E2.
  { cbn [negb andb] in Hv. rewrite orb_true_r in Hv. done. }
  apply bool_decide_eq_false in E2. destruct (manifest_valid (mManifest m)); [|done]. cbn [negb andb] in Hv.
  repeat bool_step. repeat split; try done. unfold field_length. by rewrite Eg.
Qed.

Lemma data_reply_length m : Operation m = DataOp -> (length (mData m) <= 256)%nat -> (field_length m <= MaxFieldSize)%nat.
Proof.
  intros Ho Hl. unfold field_length. rewrite Ho. change (DataOp =? Get) with false. cbv iota.
  unfold MaxFieldSize, ChunkSize, round4.
  pose proof (Nat.Div0.div_le_mono (length (mData m) + 3) (256 + 3) 4 ltac:(lia)) as Hd.
  change ((256 + 3) / 4)%nat with 64%nat in Hd. lia.
Qed.

Lemma Reply_ok req o r :
  0 <= mOffset req -> (forall x, o = Some x -> object_ok x) -> Reply (Some req) o = Ok r -> reply_ok req r.
Proof.
  intros Hoff Ho. unfold Reply. destruct (validate req) eqn:Hv; cbn [negb]; [|done].
  destruct (Operation req =? Probe) eqn:Ep; bool_step.
  { intros [= <-]. unfold reply_ok. rewrite (request_length req Ep Hv).
    assert (MsgID req <> zeroID) as Hid.
    { intros E. unfold validate in Hv. by rewrite bool_decide_true in Hv. }
    split; [by apply manifest_reply_valid|]. destruct o; split; try done; cbn; lia. }
  destruct (Operation req =? Get) eqn:Eg; [|done]. bool_step. intros [= <-].
  destruct (get_valid req Eg Hv) as (G1 & G2 & G3 & G4 & G5 & G6). unfold reply_ok. rewrite G6.
  assert (forall res cnt d, (res = NotFound /\ cnt = 0 /\ d = [] \/
      res = OK /\ cnt = Z.of_nat (length d) /\ cnt = Z.min 256 (mf_Size (mManifest req) - mOffset req)) ->
    let m := mkMessage DataOp res (MsgID req) (mManifest req) (mOffset req) cnt d in
    validate m = true /\ (field_length m <= MaxFieldSize)%nat /\ MsgID m = MsgID req) as Hdata.
  { intros res cnt d Hd. cbn zeta. split; [|split; [|done]].
    - unfold validate. cbn [MsgID mManifest Operation mResult mOffset mCount mData].
      rewrite !bool_decide_false by done. rewrite G3. change (Z.of_nat ChunkSize) with 256. rewrite G5.
      assert ((mf_Size (mManifest req) <=? mOffset req) = false) as -> by (apply Z.leb_gt; lia).
      destruct Hd as [(-> & -> & ->)|(-> & H1 & H2)]; [done|].
      cbn [negb andb orb Z.eqb DataOp Probe ManifestReply Get NotFound OK Pos.eqb].
      rewrite <- H1, <- H2, Z.eqb_refl. done.
    - apply data_reply_length; [done|]. cbn [mData]. destruct Hd as [(_ & _ & ->)|(_ & H1 & H2)]; [cbn; lia|lia]. }
  destruct o as [x|]; [|apply (Hdata NotFound 0 []); auto].
  destruct (negb (bool_decide _)) eqn:Em; [apply (Hdata NotFound 0 []); auto|].
  apply Hdata. right. bool_step. apply bool_decide_eq_true in Em. pose proof (oo_size _ (Ho x eq_refl)) as Hs.
  rewrite Em in Hs. change (Z.of_nat ChunkSize) with 256. split; [done|]. split; [|done].
  rewrite length_slice by lia. lia.
Qed.

(** The leap exchange cannot amplify and never answers with an
    unencodable message.  Whatever field the decoder accepts, a reply to it is
    itself valid, repeats the request's id, and its field is no longer than
    the request's. *)
Theorem clps_reply_bounded fields req object r :
  DecodeFields fields = Ok (Some req) -> 0 <= mOffset req ->
  (forall o, object = Some o -> object_ok o) -> Reply (Some req) object = Ok r ->
  validate req = true /\ validate r = true /\ MsgID r = MsgID req /\
  (field_length r <= field_length req)%nat.
Proof.
  intros Hd Hoff Ho Hr. destruct (Reply_ok req object r Hoff Ho Hr) as (H1 & H2 & H3).
  repeat split; try done. by eapply decode_loop_valid; [|exact Hd].
Qed.

(** The object of the example table. *)
Definition example_object : Object := object_of example_table_file.

Lemma example_object_ok : object_ok example_object.
Proof. constructor; vm_compute; reflexivity. Qed.

Definition get_request (id : list Z) (o : Object) (i : nat) : Message :=
  mkMessage Get OK id (ob_manifest o) (Z.of_nat (ChunkSize * i)) (Z.of_nat ChunkSize) [].

Lemma clps_reply_bounded_witness :
  let req := get_request (replicate 16 7) example_object 0 in
  exists r, Reply (Some req) (Some example_object) = Ok r /\ validate r = true /\
    (field_length r <= field_length req)%nat /\ mData r = ob_data example_object.
Proof.
  cbv zeta. set (req := get_request _ _ _).
  destruct (Reply (Some req) (Some example_object)) as [r|e] eqn:E; [|vm_compute in E; discriminate E].
  exists r. split; [reflexivity|].
  destruct (clps_reply_bounded (encode_field req) req (Some example_object) r) as (_ & H1 & _ & H2).
  - vm_compute. reflexivity.
  - vm_compute. discriminate.
  - intros o Ho. change (object_ok (default o (Some o))). rewrite <- Ho. exact example_object_ok.
  - exact E.
  - split; [exact H1|]. split; [exact H2|].
    assert (match Reply (Some req) (Some example_object) with Ok x => mData x | Err _ => [] end = ob_data example_object) as H
      by (vm_compute; reflexivity). rewrite E in H. exact H.
Defined.

(** ** A whole transfer *)

Definition chunks (o : Object) : nat := ((length (ob_data o) + 255) / 256)%nat.

(** The chunk at index [i]. *)
Definition chunk (o : Object) (i : nat) : list Z := slice (256 * i) (256 * i + 256) (ob_data o).

Lemma concat_chunks {A} (l : list A) n i :
  (length l <= 256 * (i + n))%nat ->
  concat ((fun j => slice (256 * j) (256 * j + 256) l) <$> seq i n) = drop (256 * i) l.
Proof.
  revert i. induction n as [|n IH]; intros i Hl; cbn [seq fmap list_fmap concat].
  - rewrite drop_ge by lia. done.
  - change (list_fmap _ _ _ (seq (S i) n)) with ((fun j => slice (256 * j) (256 * j + 256) l) <$> seq (S i) n).
    rewrite IH by lia. unfold slice. replace (256 * i + 256 - 256 * i)%nat with 256%nat by lia.
    rewrite <- (take_drop 256 (drop (256 * i) l)) at 2. f_equal. rewrite drop_drop. f_equal. lia.
Qed.

Lemma get_reply id o i :
  object_ok o -> id <> zeroID -> (256 * i < length (ob_data o))%nat ->
  exists r, Reply (Some (get_request id o i)) (Some o) = Ok r /\ mData r = chunk o i.
Proof.
  intros Ho Hid Hi. pose proof (oo_size _ Ho) as Hs. unfold get_request, Reply.
  assert (validate (get_request id o i) = true) as Hv.
  { unfold validate, get_request. cbn [MsgID mManifest Operation mResult mOffset mCount mData length].
    rewrite !bool_decide_false by (done || by apply object_nonzero). rewrite (oo_valid _ Ho), Hs.
    unfold ChunkSize. rewrite Nat2Z.inj_mul, Z.mul_comm, Z.mod_mul by lia.
    cbn [Z.eqb Get Probe ManifestReply OK Pos.eqb negb andb orb].
    destruct (Z.of_nat (length (ob_data o)) <=? _) eqn:E; [bool_step; lia|]. rewrite Z.eqb_refl. done. }
  unfold get_request in Hv. rewrite Hv. cbn [negb Operation Z.eqb Get Probe Pos.eqb]. rewrite bool_decide_true by done.
  cbn [negb mManifest mOffset]. eexists. split; [reflexivity|]. cbn [mData]. rewrite Nat2Z.id, Hs. unfold chunk, ChunkSize.
  destruct (Z.min_spec (Z.of_nat 256) (Z.of_nat (length (ob_data o)) - Z.of_nat (256 * i))) as [[_ ->]|[Hle ->]].
  - by rewrite Nat2Z.id.
  - rewrite <- Nat2Z.inj_sub, Nat2Z.id by lia. unfold slice.
    rewrite !(Nat.add_comm (256 * i)), !Nat.add_sub.
    rewrite !take_ge by (rewrite length_drop; lia). done.
Qed.

(** A client that asks for every chunk in turn gets exactly the
    bytes of the object: each GET below the size is answered, and the answers'
    data concatenate to the file. *)
Theorem transfer_complete id o :
  object_ok o -> id <> zeroID ->
  (forall i, (i < chunks o)%nat -> exists r,
     Reply (Some (get_request id o i)) (Some o) = Ok r /\ mData r = chunk o i) /\
  concat (chunk o <$> seq 0 (chunks o)) = ob_data o.
Proof.
  intros Ho Hid.
  assert (length (ob_data o) <= 256 * chunks o < length (ob_data o) + 256)%nat as Hc.
  { unfold chunks. pose proof (Nat.div_mod_eq (length (ob_data o) + 255) 256).
    pose proof (Nat.mod_upper_bound (length (ob_data o) + 255) 256). lia. }
  split; [intros i Hi; apply get_reply; (done || lia)|].
  unfold chunk. rewrite (concat_chunks (ob_data o) (chunks o) 0) by lia. by rewrite Nat.mul_0_r, drop_0.
Qed.

Lemma transfer_complete_witness :
  concat (chunk example_object <$> seq 0 (chunks example_object)) = ob_data example_object /\
  exists r, Reply (Some (get_request (replicate 16 7) example_object 0)) (Some example_object) = Ok r.
Proof.
  destruct (transfer_complete (replicate 16 7) example_object) as [H1 H2].
  - apply example_object_ok.
  - discriminate.
  - split; [exact H2|]. destruct (H1 0%nat) as (r & Hr & _); [vm_compute; lia|]. exists r. exact Hr.
Defined.
