(* ===== verification/Distributor.v ===== *)
(** * internal/leap/distributor.go: the export budgets

    The budget is a compare-and-swap loop shared by every listener; its steps
    are interleaved here as the scheduler may interleave them.  [Respond] is
    the listener's call. *)

From stdpp Require Import base list numbers gmap.
From Stdlib Require Import Lia ZArith.
From S2P Require Import Prelude Float64 GoTime NtpTime NtpPacket LeapTable LeapWire.

Local Open Scope Z_scope.

(** ** budget *)

(** Where a call of [allow] is: about to load, about to swap, or returned. *)
Inductive call : Type :=
| Loading (tries : nat)
| Swapping (tries : nat) (old next : Z)
| Returned (allowed : bool).

Section Budget.
Variables interval burst : Z.

(** The virtual finish time a request would reach. *)
Definition budget_next (old now : Z) : Z := i64 (Z.max old now + interval).

(** One atomic step of a call made at [now], on the shared finish time. *)
Definition call_step (end_ now : Z) (c : call) : Z * call :=
  match c with
  | Loading tries =>
      if (tries <? 8)%nat then
        let next := budget_next end_ now in
        if i64 (burst * interval) <? i64 (next - now) then (end_, Returned false)
        else (end_, Swapping tries end_ next)
      else (end_, Returned false)
  | Swapping tries old next =>
      if end_ =? old then (next, Returned true) else (end_, Loading (S tries))
  | Returned b => (end_, Returned b)
  end.

(** [allow] run without interference. *)
Definition budget_allow (end_ now : Z) : Z * bool :=
  let '(e, c) := call_step end_ now (Loading 0) in
  let '(e, c) := call_step e now c in
  (e, match c with Returned true => true | _ => false end).

(** Calls in flight, each with the time it was made at; a schedule names the
    call that moves next. *)
Definition calls : Type := list (Z * call).

Definition sched_step (s : Z * calls) (i : nat) : Z * calls :=
  match s.2 !! i with
  | None => s
  | Some (now, c) =>
      let '(e, c') := call_step s.1 now c in
      (e, <[i := (now, c')]> s.2)
  end.

Definition sched_run (end_ : Z) (cs : calls) (schedule : list nat) : Z * calls :=
  fold_left sched_step schedule (end_, cs).

Definition allowed (cs : calls) : Z :=
  zcount (fun p => match snd p with Returned true => true | _ => false end) cs.

End Budget.

(** ** Distributor *)

Record Distributor : Type := mkDistributor {
  d_keys : gmap Z Z;           (* each key's budget *)
  d_global : Z;
  d_epoch : time;
  d_current : option Object;   (* what current() returns *)
  d_counts : option (Z * Z)    (* rate limited, served *)
}.

#[export] Instance Distributor_eta : Eta Distributor := fun d =>
  mkDistributor (d_keys d) (d_global d) (d_epoch d) (d_current d) (d_counts d).

Definition NewDistributor (keys : list Z) (epoch : time) (current : option Object) (counts : option (Z * Z))
  : Distributor :=
  mkDistributor (list_to_map ((fun id => (id, 0)) <$> filter (fun id => id <> 0) keys)) 0 epoch current counts.

(** [Authorized]; [None] is a nil distributor. *)
Definition Authorized (d : option Distributor) (id : Z) : bool :=
  match d with None => false | Some d => bool_decide (is_Some (d_keys d !! id)) end.

(** The object served at a wall-clock time: none outside its coverage. *)
Definition served_object (d : Distributor) (wall : time) : option Object :=
  match d_current d with
  | None => None
  | Some o =>
      if negb (Before wall (Expiry (ob_table o))) || Before wall (Baseline (ob_table o)) then None else Some o
  end.

Definition count_limited (d : Distributor) : Distributor :=
  d <| d_counts := match d_counts d with Some (l, s) => Some (u64 (l + 1), s) | None => None end |>.
Definition count_served (d : Distributor) : Distributor :=
  d <| d_counts := match d_counts d with Some (l, s) => Some (l, u64 (s + 1)) | None => None end |>.

(** [Respond]. *)
Definition Respond (d : Distributor) (req : option Message) (id : Z) (wall mono : time)
  : Distributor * result WireError Message :=
  match d_keys d !! id with
  | None => (d, Err (Rejected ReasonAuth))
  | Some kend =>
      let now := Sub mono (d_epoch d) in
      if now <? 0 then (count_limited d, Err (Rejected ReasonRate))
      else
        let '(kend, ok) := budget_allow (4 * Second) 2 kend now in
        let d := d <| d_keys := <[id := kend]> (d_keys d) |> in
        if negb ok then (count_limited d, Err (Rejected ReasonRate))
        else
          let '(gend, ok) := budget_allow (Second / 32) 32 (d_global d) now in
          let d := d <| d_global := gend |> in
          if negb ok then (count_limited d, Err (Rejected ReasonRate))
          else
            match Reply req (served_object d wall) with
            | Ok r => (count_served d, Ok r)
            | Err e => (d, Err e)
            end
  end.

(** ** The bound *)

Section Bound.
Variables interval burst : Z.
Hypothesis Hi : 0 < interval < 2 ^ 60.
Hypothesis Hb : 0 <= burst * interval < 2 ^ 60.

(** Times and finish times stay away from the ends of int64. *)
Definition sane (x : Z) : Prop := - 2 ^ 61 <= x < 2 ^ 61.

Lemma i64_sane x : - 2 ^ 63 <= x < 2 ^ 63 -> i64 x = x.
Proof. intros H. apply wraps_id; [lia|]. exact H. Qed.

(** What holds of every call while requests arrive between [t0] and [t1]. *)
Definition call_ok (t0 t1 : Z) (p : Z * call) : Prop :=
  t0 <= fst p <= t1 /\
  match snd p with
  | Swapping _ old next =>
      next = Z.max old (fst p) + interval /\ next <= fst p + burst * interval
  | _ => True
  end.

(** Every success moved the finish time one interval on, and never past the
    burst. *)
Definition sched_ok (t0 t1 : Z) (s : Z * calls) : Prop :=
  Forall (call_ok t0 t1) s.2 /\
  (0 < allowed s.2 -> t0 + allowed s.2 * interval <= s.1 /\ s.1 <= t1 + burst * interval) /\
  sane s.1.

Lemma zcount_insert {A} (p : A -> bool) (l : list A) i x y :
  l !! i = Some x -> zcount p (<[i := y]> l) = zcount p l - (if p x then 1 else 0) + (if p y then 1 else 0).
Proof.
  revert i. induction l as [|z l IH]; intros [|i] Hx; cbn in Hx; try done.
  - injection Hx as ->. change (zcount p (y :: l) = zcount p (x :: l) - (if p x then 1 else 0) + (if p y then 1 else 0)).
    cbn [zcount foldr]. lia.
  - specialize (IH i Hx). change (zcount p (z :: <[i := y]> l) = zcount p (z :: l) - (if p x then 1 else 0) + (if p y then 1 else 0)).
    cbn [zcount foldr] in *. unfold zcount in IH. lia.
Qed.

Lemma sched_step_ok t0 t1 s i :
  - 2 ^ 60 <= t0 -> t1 < 2 ^ 60 -> sched_ok t0 t1 s -> sched_ok t0 t1 (sched_step interval burst s i).
Proof.
  intros Ht0 Ht1 (Hc & Ha & Hs). unfold sched_step. destruct s as [end_ cs]. cbn [fst snd] in *.
  destruct (cs !! i) as [[now c]|] eqn:Ei; [|done].
  pose proof (Forall_lookup_1 _ _ _ _ Hc Ei) as [Hn Hsw]. cbn [fst snd] in Hn, Hsw.
  assert (forall e' c', call_step interval burst end_ now c = (e', c') -> sched_ok t0 t1 (e', <[i := (now, c')]> cs)) as Hgo.
  2: { destruct (call_step interval burst end_ now c) as [e' c'] eqn:E. by apply Hgo. }
  intros e' c' E. unfold sched_ok. cbn [fst snd]. unfold allowed. rewrite (zcount_insert _ _ _ _ (now, c') Ei).
  fold (allowed cs). cbn [snd].
  assert (Forall (call_ok t0 t1) (<[i := (now, c')]> cs) <-> call_ok t0 t1 (now, c') ) as Hins.
  { split.
    - intros H. apply (Forall_lookup_1 _ _ i (now, c') H). apply list_lookup_insert_eq. by eapply lookup_lt_Some.
    - intros H. by apply Forall_insert. }
  rewrite Hins. clear Hins. unfold sane in *.
  destruct c as [tries|tries old next|b]; cbn [call_step] in E.
  - assert (budget_next interval end_ now = Z.max end_ now + interval) as Hnx
      by (unfold budget_next; apply i64_sane; lia).
    rewrite Hnx in E. rewrite !i64_sane in E by lia.
    destruct (tries <? 8)%nat; [destruct (_ <? _) eqn:El in E|]; injection E as <- <-; repeat bool_step;
      rewrite Z.sub_0_r, Z.add_0_r; (split; [split; cbn; [lia|]; try done; lia|]; split; [done|lia]).
  - destruct (end_ =? old) eqn:Eo; injection E as <- <-; repeat bool_step.
    + subst old. destruct Hsw as [-> Hle].
      split; [by split|]. split; [|lia]. intros _. pose proof (zcount_nonneg (fun p => match snd p with Returned true => true | _ => false end) cs) as Hz.
      fold (allowed cs) in Hz. destruct (decide (0 < allowed cs)) as [Hp|Hp]; [destruct (Ha Hp)|]; split; nia || lia.
    + rewrite Z.sub_0_r, Z.add_0_r. split; [by split|]. split; [done|lia].
  - injection E as <- <-.
    destruct b; [replace (allowed cs - 1 + 1) with (allowed cs) by lia|rewrite Z.sub_0_r, Z.add_0_r];
      (split; [by split|]; split; [done|lia]).
Qed.

End Bound.

(** Claim C27: the export budget holds under any interleaving.  However the
    calls of concurrent listeners are scheduled, if all of them are made
    between [t0] and [t1], then at most [burst] plus one per [interval]
    elapsed are allowed. *)
Theorem budget_bound interval burst t0 t1 end_ cs schedule :
  0 < interval < 2 ^ 60 -> 0 <= burst * interval < 2 ^ 60 -> - 2 ^ 60 <= t0 <= t1 -> t1 < 2 ^ 60 ->
  - 2 ^ 60 <= end_ < 2 ^ 60 ->
  Forall (fun p => t0 <= fst p <= t1 /\ snd p = Loading 0) cs ->
  allowed (snd (sched_run interval burst end_ cs schedule)) * interval <= burst * interval + (t1 - t0).
Proof.
  intros Hi Hb H0 H1 He Hc.
  assert (allowed cs = 0) as Hz.
  { apply zcount_zero. eapply List.Forall_impl; [|exact Hc]. intros [now c] [_ E]. cbn in E. by rewrite E. }
  assert (sched_ok interval burst t0 t1 (sched_run interval burst end_ cs schedule)) as (_ & Ha & _).
  { unfold sched_run. apply fold_left_inv.
    - intros s i _ Hs. apply sched_step_ok; (done || lia).
    - split; [|split].
      + eapply List.Forall_impl; [|exact Hc]. intros [now c] [Hn E]. cbn in *. subst c. by split.
      + cbn [snd]. rewrite Hz. lia.
      + unfold sane. cbn. lia. }
  destruct (decide (0 < allowed (snd (sched_run interval burst end_ cs schedule)))) as [Hp|Hp].
  - destruct (Ha Hp). lia.
  - pose proof (zcount_nonneg (fun p : Z * call => match snd p with Returned true => true | _ => false end)
      (snd (sched_run interval burst end_ cs schedule))) as Hn. fold (allowed (snd (sched_run interval burst end_ cs schedule))) in Hn.
    nia.
Qed.

(** Three listeners at once on a budget of two: one is refused. *)
Lemma budget_bound_witness :
  let cs := repeat (1000, Loading 0) 3 in
  allowed (snd (sched_run (4 * Second) 2 0 cs [0; 1; 2; 0; 1; 2; 1; 2; 1; 2; 2; 2]%nat)) * (4 * Second)
  <= 2 * (4 * Second) + (1000 - 1000).
Proof.
  apply (budget_bound (4 * Second) 2 1000 1000 0); try (vm_compute; split; congruence); try (vm_compute; congruence).
  repeat constructor; cbn; lia.
Defined.

(** ** Exports over time *)

(** One request to the distributor: what [current] returned for it, the
    message, the key it came under, and the two clocks. *)
Record export : Type := mkExport {
  x_current : option Object;
  x_req : option Message;
  x_key : Z;
  x_wall : time;
  x_mono : time
}.

Definition export_step (d : Distributor) (x : export) : Distributor * result WireError Message :=
  Respond (d <| d_current := x_current x |>) (x_req x) (x_key x) (x_wall x) (x_mono x).

Fixpoint export_run (d : Distributor) (xs : list export)
  : Distributor * list (export * result WireError Message) :=
  match xs with
  | [] => (d, [])
  | x :: rest =>
      let '(d1, r) := export_step d x in
      let '(d2, rs) := export_run d1 rest in
      (d2, (x, r) :: rs)
  end.

Definition is_ok {E A} (r : result E A) : bool := match r with Ok _ => true | Err _ => false end.

Definition answered (rs : list (export * result WireError Message)) : Z :=
  zcount (fun p => is_ok p.2) rs.
Definition answered_key (id : Z) (rs : list (export * result WireError Message)) : Z :=
  zcount (fun p => (x_key p.1 =? id) && is_ok p.2) rs.

(** What an answer may say: the manifest or a chunk of the current object,
    which covers the wall-clock time; or, without one, no data. *)
Definition answer_true (x : export) (m : Message) : Prop :=
  (mResult m = OK ->
     exists o req, x_current x = Some o /\ x_req x = Some req /\ MsgID m = MsgID req /\
       Baseline (ob_table o) <= x_wall x < Expiry (ob_table o) /\ mManifest m = ob_manifest o /\
       (Operation req = Probe /\ Operation m = ManifestReply /\ mData m = [] \/
        Operation req = Get /\ Operation m = DataOp /\ mManifest req = ob_manifest o /\
        mData m = slice (Z.to_nat (mOffset req)) (Z.to_nat (mOffset req) + Z.to_nat (mCount m)) (ob_data o))) /\
  (mResult m <> OK -> mData m = [] /\
     (mResult m = NoTable -> mManifest m = zeroManifest /\
        forall o, x_current x = Some o -> ~ (Baseline (ob_table o) <= x_wall x < Expiry (ob_table o)))).

Lemma served_covers d wall o : served_object d wall = Some o ->
  d_current d = Some o /\ Baseline (ob_table o) <= wall < Expiry (ob_table o).
Proof.
  unfold served_object. destruct (d_current d) as [x|]; [|done]. case_goal; [done|]. intros [= ->].
  repeat bool_step. unfold Before in *. repeat bool_step. split; [done|lia].
Qed.

Lemma served_none d wall o : served_object d wall = None -> d_current d = Some o ->
  ~ (Baseline (ob_table o) <= wall < Expiry (ob_table o)).
Proof.
  unfold served_object. intros H E. rewrite E in H. destruct (_ || _) eqn:C in H; [|done].
  apply orb_prop in C as [C|C]; repeat bool_step; unfold Before in *; repeat bool_step; lia.
Qed.

Lemma Reply_true d x m :
  d_current d = x_current x -> Reply (x_req x) (served_object d (x_wall x)) = Ok m -> answer_true x m.
Proof.
  intros Hc. unfold Reply. destruct (x_req x) as [req|] eqn:Er; [|done].
  destruct (validate req); [|done]. cbn [negb].
  assert (forall o, served_object d (x_wall x) = Some o ->
    x_current x = Some o /\ Baseline (ob_table o) <= x_wall x < Expiry (ob_table o)) as Hs
    by (intros o Ho; rewrite <- Hc; by apply served_covers).
  destruct (Operation req =? Probe) eqn:Ep; [|destruct (Operation req =? Get) eqn:Eg; [|done]];
    repeat bool_step; intros [= <-]; unfold answer_true;
    destruct (served_object d (x_wall x)) as [o|] eqn:Eo; cbn.
  - destruct (Hs o eq_refl) as [H1 H2]. split; [|done]. intros _. exists o, req. do 5 (split; [done|]). left. done.
  - split; [done|]. intros _. split; [done|]. intros _. split; [done|]. intros o Ho.
    apply (served_none d); [done|congruence].
  - destruct (Hs o eq_refl) as [H1 H2]. case_bool_decide as Em; cbn; [|split; done].
    split; [|done]. intros _. exists o, req. do 4 (split; [done|]). split; [congruence|]. right. done.
  - split; done.
Qed.

(** The budget read as a count: what has been answered between [t0] and [t1]
    pushed the finish time that many intervals on. *)
Definition spent (interval burst t0 t1 n end_ : Z) : Prop :=
  sane end_ /\ 0 <= n /\ (0 < n -> t0 + n * interval <= end_ /\ end_ <= t1 + burst * interval).

Lemma key_interval : 0 < 4 * Second < 2 ^ 60. Proof. unfold Second. lia. Qed.
Lemma key_burst : 0 <= 2 * (4 * Second) < 2 ^ 60. Proof. unfold Second. lia. Qed.
Lemma all_interval : 0 < Second / 32 < 2 ^ 60. Proof. vm_compute. done. Qed.
Lemma all_burst : 0 <= 32 * (Second / 32) < 2 ^ 60. Proof. vm_compute. split; [discriminate|done]. Qed.

Lemma allow_spent interval burst t0 t1 n end_ now e' ok :
  0 < interval < 2 ^ 60 -> 0 <= burst * interval < 2 ^ 60 -> - 2 ^ 60 <= t0 -> t1 < 2 ^ 60 -> t0 <= now <= t1 ->
  spent interval burst t0 t1 n end_ -> budget_allow interval burst end_ now = (e', ok) ->
  spent interval burst t0 t1 (if ok then n + 1 else n) e'.
Proof.
  intros Hi Hb H0 H1 Hn (Hs & Hn0 & Hsp). unfold budget_allow, sane in *. cbn [call_step].
  assert (budget_next interval end_ now = Z.max end_ now + interval) as -> by (unfold budget_next; apply i64_sane; lia).
  change (0 <? 8)%nat with true. cbn iota. rewrite !i64_sane by lia.
  destruct (_ <? _) eqn:El; cbn [call_step]; [intros [= <- <-]; exact (conj Hs (conj Hn0 Hsp))|].
  rewrite Z.eqb_refl. intros [= <- <-]. bool_step. unfold spent, sane. split; [lia|]. split; [lia|]. intros _.
  destruct (decide (0 < n)) as [Hp|Hp]; [destruct (Hsp Hp); lia|]. assert (n = 0) as -> by lia. lia.
Qed.

Lemma spent_less interval burst t0 t1 n end_ :
  0 < interval -> 0 <= n -> spent interval burst t0 t1 (n + 1) end_ -> spent interval burst t0 t1 n end_.
Proof. intros Hi Hn (H1 & H2 & H3). split; [done|]. split; [done|]. intros Hp. destruct H3; [lia|]. split; nia. Qed.

Lemma spent_bound interval burst t0 t1 n end_ :
  0 <= burst * interval -> t0 <= t1 -> 0 <= interval -> spent interval burst t0 t1 n end_ ->
  n * interval <= burst * interval + (t1 - t0).
Proof. intros Hb Ht Hi (_ & H0 & H). destruct (decide (0 < n)) as [Hp|Hp]; [destruct (H Hp); lia|nia]. Qed.

Section Exports.
Variables t0 t1 epoch : Z.
Hypothesis H0 : - 2 ^ 60 <= t0.
Hypothesis H1 : t1 < 2 ^ 60.

(** The budgets against what has been answered so far. *)
Record charged (d : Distributor) (rs : list (export * result WireError Message)) : Prop := {
  ch_epoch : d_epoch d = epoch;
  ch_key : forall id e, d_keys d !! id = Some e -> spent (4 * Second) 2 t0 t1 (answered_key id rs) e;
  ch_none : forall id, d_keys d !! id = None -> answered_key id rs = 0;
  ch_global : spent (Second / 32) 32 t0 t1 (answered rs) (d_global d)
}.

Lemma answered_snoc rs x r : answered (rs ++ [(x, r)]) = answered rs + (if is_ok r then 1 else 0).
Proof. unfold answered. rewrite zcount_app. unfold zcount at 2. cbn. by rewrite Z.add_0_r. Qed.

Lemma answered_key_snoc id rs x r :
  answered_key id (rs ++ [(x, r)]) = answered_key id rs + (if (x_key x =? id) && is_ok r then 1 else 0).
Proof. unfold answered_key. rewrite zcount_app. unfold zcount at 2. cbn. by rewrite Z.add_0_r. Qed.

(** An answer: its key is configured, its budgets are charged and it tells the
    truth. *)
Lemma export_step_charged d rs x d' r :
  charged d rs -> t0 <= x_mono x - epoch <= t1 -> export_step d x = (d', r) ->
  charged d' (rs ++ [(x, r)]) /\ dom (d_keys d') = dom (d_keys d) /\
  (Authorized (Some d) (x_key x) = false -> r = Err (Rejected ReasonAuth)) /\
  forall m, r = Ok m -> Authorized (Some d) (x_key x) = true /\ epoch <= x_mono x /\ answer_true x m.
Proof.
  intros [Ce Ck Cn Cg] Hx. unfold export_step, Respond, Authorized.
  set (d1 := d <| d_current := x_current x |>). change (d_keys d1) with (d_keys d).
  assert (forall n, 0 <= n -> n + 0 = n) as Hz by lia.
  assert (forall e d2, d_epoch d2 = epoch -> d_keys d2 = d_keys d -> d_global d2 = d_global d ->
    charged d2 (rs ++ [(x, Err e)])) as Hsame.
  { intros e d2 E1 E2 E3. split; [done| | |].
    - intros id k. rewrite E2, answered_key_snoc, andb_false_r, Z.add_0_r. apply Ck.
    - intros id. rewrite E2, answered_key_snoc, andb_false_r, Z.add_0_r. apply Cn.
    - rewrite E3, answered_snoc. cbn. rewrite Z.add_0_r. exact Cg. }
  destruct (d_keys d !! x_key x) as [kend|] eqn:Ek.
  2:{ intros [= <- <-]. split; [by apply Hsame|]. split; [done|]. split; [done|]. done. }
  rewrite bool_decide_true by eauto.
  assert (Sub (x_mono x) (d_epoch d1) = x_mono x - epoch) as ->.
  { change (d_epoch d1) with (d_epoch d). rewrite Ce. unfold Sub. lia. }
  destruct (_ <? 0) eqn:E0.
  { intros [= <- <-]. split; [by apply Hsame|]. split; [done|]. split; [done|]. intros m Hm. discriminate Hm. }
  bool_step. destruct (budget_allow (4 * Second) 2 kend _) as [k2 ok1] eqn:E1.
  pose proof (allow_spent _ _ _ _ _ _ _ _ _ key_interval key_burst H0 H1 Hx (Ck _ _ Ek) E1) as Hk.
  pose proof (proj1 (proj2 (Ck _ _ Ek))) as Hkn.
  set (d2 := d1 <| d_keys := <[x_key x := k2]> (d_keys d) |>).
  assert (dom (d_keys d2) = dom (d_keys d)) as Hdom.
  { cbn. rewrite dom_insert_L. apply elem_of_dom_2 in Ek. set_solver. }
  assert (forall d3 r3, d_epoch d3 = epoch -> d_keys d3 = d_keys d2 ->
    (is_ok r3 = true -> ok1 = true) -> spent (Second / 32) 32 t0 t1 (answered rs + (if is_ok r3 then 1 else 0)) (d_global d3) ->
    charged d3 (rs ++ [(x, r3)])) as Hnew.
  { intros d3 r3 E2 E3 Ho Hg. split; [done| | |].
    - intros id k. rewrite E3, answered_key_snoc. unfold d2. cbn [d_keys set].
      destruct (Z.eqb_spec (x_key x) id) as [<-|Hne].
      + rewrite lookup_insert_eq. intros [= <-]. cbn [andb].
        destruct (is_ok r3); [by rewrite Ho in Hk|]. rewrite Z.add_0_r. destruct ok1; [|done].
        apply spent_less; [apply key_interval|done|exact Hk].
      + rewrite lookup_insert_ne by done. cbn [andb]. rewrite Z.add_0_r. apply Ck.
    - intros id. rewrite E3, answered_key_snoc. unfold d2. cbn [d_keys set].
      destruct (Z.eqb_spec (x_key x) id) as [<-|Hne]; [by rewrite lookup_insert_eq|].
      rewrite lookup_insert_ne by done. cbn [andb]. rewrite Z.add_0_r. apply Cn.
    - by rewrite answered_snoc. }
  pose proof (proj1 (proj2 Cg)) as Hgn.
  destruct ok1; cbn [negb].
  2:{ intros [= <- <-]. split; [|split; [done|split; [done|intros m Hm; discriminate Hm]]].
      apply Hnew; try done. cbn. rewrite Z.add_0_r. exact Cg. }
  change (d_global d2) with (d_global d).
  destruct (budget_allow (Second / 32) 32 (d_global d) _) as [g2 ok2] eqn:E2.
  pose proof (allow_spent _ _ _ _ _ _ _ _ _ all_interval all_burst H0 H1 Hx Cg E2) as Hg.
  set (d3 := d2 <| d_global := g2 |>). destruct ok2; cbn [negb].
  2:{ intros [= <- <-]. split; [|split; [done|split; [done|intros m Hm; discriminate Hm]]].
      apply Hnew; try done. cbn. rewrite Z.add_0_r. exact Hg. }
  destruct (Reply (x_req x) (served_object d3 (x_wall x))) as [m|e] eqn:Er; intros [= <- <-].
  - split; [by apply Hnew|]. split; [done|]. split; [done|]. intros m' [= <-].
    split; [done|]. split; [lia|]. by apply (Reply_true d3).
  - split; [|split; [done|split; [done|intros m Hm; discriminate Hm]]]. apply Hnew; try done. cbn [is_ok]. rewrite Z.add_0_r. by apply spent_less; [apply all_interval| |].
Qed.

Lemma export_run_charged d rs xs d' rs' :
  charged d rs -> Forall (fun x => t0 <= x_mono x - epoch <= t1) xs -> export_run d xs = (d', rs') ->
  charged d' (rs ++ rs') /\ dom (d_keys d') = dom (d_keys d) /\
  Forall (fun '(x, r) => (x_key x ∉ dom (d_keys d) -> r = Err (Rejected ReasonAuth)) /\
    forall m, r = Ok m -> x_key x ∈ dom (d_keys d) /\ epoch <= x_mono x /\ answer_true x m) rs'.
Proof.
  revert d rs rs'. induction xs as [|x xs IH]; intros d rs rs' Hc Hx; cbn [export_run].
  { intros [= <- <-]. rewrite app_nil_r. done. }
  apply List.Forall_cons_iff in Hx as [Hx Hxs].
  destruct (export_step d x) as [d1 r] eqn:E1. destruct (export_run d1 xs) as [d2 rs2] eqn:E2. intros [= <- <-].
  destruct (export_step_charged _ _ _ _ _ Hc Hx E1) as (Hc1 & Hd & Hn & Hok).
  destruct (IH _ _ _ Hc1 Hxs E2) as (Hc2 & Hd2 & HF). rewrite <- app_assoc in Hc2.
  split; [exact Hc2|]. split; [congruence|]. unfold Authorized in *. constructor.
  - split.
    + intros Hout. apply Hn, bool_decide_eq_false. by rewrite <- elem_of_dom.
    + intros m Hm. destruct (Hok m Hm) as (Ha & He & Ht). apply bool_decide_eq_true in Ha.
      split; [by apply elem_of_dom|done].
  - eapply Forall_impl; [exact HF|]. intros [y s]. rewrite Hd. done.
Qed.

End Exports.

(** Claim C28: leap data is exported only to authorized keys, at a bounded rate
    and only while it is valid.  Over any sequence of requests whose monotonic
    times lie between [t0] and [t1], whatever tables are installed meanwhile: a
    request under another key is refused and answers nothing; an answer that
    carries a manifest or data is about the object current at that request, whose
    table covers the wall-clock time (not before its baseline, not at or after
    its expiry), and its bytes are those of that object at the offset asked
    for; an answer that says there is no table is given only outside that
    coverage; at most two answers plus one for each four seconds elapsed go to
    one key, and at most 32 plus 32 a second to all. *)
Theorem respond_authorized d xs d' rs t0 t1 :
  - 2 ^ 60 <= t0 <= t1 -> t1 < 2 ^ 60 ->
  - 2 ^ 60 <= d_global d < 2 ^ 60 -> map_Forall (fun _ e => - 2 ^ 60 <= e < 2 ^ 60) (d_keys d) ->
  Forall (fun x => t0 <= x_mono x - d_epoch d <= t1) xs ->
  export_run d xs = (d', rs) ->
  Forall (fun '(x, r) => (x_key x ∉ dom (d_keys d) -> r = Err (Rejected ReasonAuth)) /\
    forall m, r = Ok m -> x_key x ∈ dom (d_keys d) /\ d_epoch d <= x_mono x /\ answer_true x m) rs /\
  (forall id, answered_key id rs * (4 * Second) <= 2 * (4 * Second) + (t1 - t0)) /\
  answered rs * (Second / 32) <= Second + (t1 - t0).
Proof.
  intros Ht Ht1 Hg Hk Hx E.
  assert (charged t0 t1 (d_epoch d) d []) as Hc.
  { split; [done| |done|].
    - intros id e He. specialize (Hk id e He). cbv beta in Hk. unfold spent, sane. cbn. lia.
    - unfold spent, sane. cbn. lia. }
  destruct (export_run_charged t0 t1 (d_epoch d) ltac:(lia) Ht1 _ _ _ _ _ Hc Hx E) as ([Ce Ck Cn Cg] & Hd & HF).
  cbn [app] in *. split; [exact HF|]. split.
  - intros id. destruct (d_keys d' !! id) as [e|] eqn:Ee.
    + apply (spent_bound _ 2 t0 t1 _ e); [apply key_burst|lia|unfold Second; lia|by apply Ck].
    + rewrite (Cn id Ee). unfold Second. lia.
  - change Second with (32 * (Second / 32)) at 2. apply (spent_bound _ 32 t0 t1 _ (d_global d')); [apply all_burst|lia|apply Z.lt_le_incl, all_interval|done].
Qed.

Definition example_distributor : Distributor := NewDistributor [7] 0 (Some example_object) None.

(** Three requests at once, one of them under another key. *)
Definition example_exports : list export :=
  (fun id => mkExport (Some example_object) (Some (get_request (replicate 16 7) example_object 0)) id
     (unixTime 1717200000 0) (10 * Second)) <$> [7; 8; 7].

Lemma respond_authorized_witness :
  exists d' rs, export_run example_distributor example_exports = (d', rs) /\
    is_ok <$> rs.*2 = [true; false; true] /\
    Forall (fun '(x, r) => forall m, r = Ok m -> answer_true x m) rs /\
    answered_key 7 rs * (4 * Second) <= 2 * (4 * Second) + (10 * Second - 10 * Second).
Proof.
  destruct (export_run example_distributor example_exports) as [d' rs] eqn:E.
  destruct (respond_authorized example_distributor example_exports d' rs (10 * Second) (10 * Second)) as (H1 & H2 & _).
  - vm_compute. split; discriminate.
  - vm_compute. reflexivity.
  - vm_compute. split; [discriminate|reflexivity].
  - assert (d_keys example_distributor = {[7 := 0]}) as -> by reflexivity. apply map_Forall_singleton. lia.
  - apply Forall_fmap, Forall_true. intros id. cbn [compose x_mono].
    change (d_epoch example_distributor) with 0. lia.
  - exact E.
  - exists d', rs. split; [reflexivity|]. split; [|split; [|exact (H2 7)]].
    + replace rs with (snd (export_run example_distributor example_exports)) by (rewrite E; reflexivity).
      vm_compute. reflexivity.
    + eapply List.Forall_impl; [|exact H1]. intros [x r] [_ H] m Hm. apply (H m Hm).
Defined.
