(* ===== verification/ServerStats.v ===== *)
(** * internal/server/stats.go: the listener counters

    One set of monotonic counters per address family, shared by every
    listener; [CounterSnapshot] is what status consumers read.  The atomics of
    [eventTime] are modelled twice: as the sequential [event_store] a single
    listener performs, and as a step function interleaved by a schedule. *)

From stdpp Require Import base list numbers.
From Stdlib Require Import Lia ZArith.
From S2P Require Import Prelude Float64 GoTime Netip NtpPacket.

Local Open Scope Z_scope.

Definition modeCount : nat := 8.
Definition versionCount : nat := Z.to_nat Version + 1.

(** ** Event times *)

Record eventTime : Type := mkEventTime { ev_seq : Z; ev_ns : Z }.

(** [t.UnixNano()], undefined outside int64: it wraps. *)
Definition UnixNano (t : time) : Z := i64 t.

Definition atomicTime (ns : Z) : time := if ns =? 0 then zeroTime else ns.
Definition event_load (e : eventTime) : time := atomicTime (ev_ns e).

(** A call of [store]: before [seq.Add], at [seq.Load], at [ns.Load], at the
    compare-and-swap with the value it loaded, returned. *)
Inductive store_pc : Type :=
| StAdd
| StCheck (next : Z)
| StLoad (next : Z)
| StSwap (next old : Z)
| StDone.

(** One atomic operation of a call storing [t]. *)
Definition store_step (e : eventTime) (t : time) (pc : store_pc) : eventTime * store_pc :=
  match pc with
  | StAdd => let next := u64 (ev_seq e + 1) in (mkEventTime next (ev_ns e), StCheck next)
  | StCheck next => (e, if ev_seq e =? next then StLoad next else StDone)
  | StLoad next => (e, StSwap next (ev_ns e))
  | StSwap next old =>
      if ev_ns e =? old then (mkEventTime (ev_seq e) (UnixNano t), StDone) else (e, StCheck next)
  | StDone => (e, StDone)
  end.

(** The calls in flight, each with the time it stores, run by a schedule of
    call indices. *)
Definition stores : Type := list (time * store_pc).

Definition store_sched (s : eventTime * stores) (i : nat) : eventTime * stores :=
  let '(e, cs) := s in
  match cs !! i with
  | None => s
  | Some (t, pc) => let '(e', pc') := store_step e t pc in (e', <[i := (t, pc')]> cs)
  end.

Definition store_run (e : eventTime) (cs : stores) (schedule : list nat) : eventTime * stores :=
  fold_left store_sched schedule (e, cs).

(** A call that nothing interrupts. *)
Definition event_store (e : eventTime) (t : time) : eventTime :=
  mkEventTime (u64 (ev_seq e + 1)) (UnixNano t).

(** ** Counters *)

Record counters : Type := mkCounters {
  served : Z;
  unsynced : Z;
  kod : Z;
  denied : Z;
  martian : Z;
  rateLimited : Z;
  badAuth : Z;
  badVersion : Z;
  nonClient : Z;
  malformed : Z;
  oversize : Z;
  missingKernelTS : Z;
  kernelDrops : Z;
  clients : Z;                 (* int64 *)
  modes : list Z;
  versions : list Z;
  lastRequest : eventTime;
  lastServed : eventTime
}.

#[export] Instance counters_eta : Eta counters := fun c =>
  mkCounters (served c) (unsynced c) (kod c) (denied c) (martian c) (rateLimited c) (badAuth c)
    (badVersion c) (nonClient c) (malformed c) (oversize c) (missingKernelTS c) (kernelDrops c)
    (clients c) (modes c) (versions c) (lastRequest c) (lastServed c).

Definition zeroCounters : counters :=
  mkCounters 0 0 0 0 0 0 0 0 0 0 0 0 0 0 (replicate modeCount 0) (replicate versionCount 0)
    (mkEventTime 0 0) (mkEventTime 0 0).

Record Stats : Type := mkStats { v4 : counters; v6 : counters }.

#[export] Instance Stats_eta : Eta Stats := fun s => mkStats (v4 s) (v6 s).

(** [family] returns a pointer into the statistics: the counters to read and
    where to write them back. *)
Definition family (s : Stats) (addr : Addr) : counters := if Is4 (Unmap addr) then v4 s else v6 s.
Definition put_family (s : Stats) (addr : Addr) (c : counters) : Stats :=
  if Is4 (Unmap addr) then s <| v4 := c |> else s <| v6 := c |>.

(** [x.Add(1)] on an [atomic.Uint64]. *)
Definition incr (x : Z) : Z := u64 (x + 1).

Definition incr_at (i : nat) (l : list Z) : list Z := alter incr i l.

(** ** Snapshots *)

Record CounterSnapshot : Type := mkCounterSnapshot {
  Served : Z;
  Unsynced : Z;
  KoD : Z;
  Denied : Z;
  Martian : Z;
  RateLimited : Z;
  BadAuth : Z;
  BadVersion : Z;
  NonClient : Z;
  Malformed : Z;
  Oversize : Z;
  NoKernelTS : Z;
  KernelDrops : Z;
  Clients : Z;
  Modes : list Z;
  Versions : list Z;
  LastRequest : time;
  LastServed : time
}.

Record StatsSnapshot : Type := mkStatsSnapshot {
  Total : CounterSnapshot;
  IPv4 : CounterSnapshot;
  IPv6 : CounterSnapshot
}.

Definition Dropped (c : CounterSnapshot) : Z :=
  u64 (Denied c + Martian c + RateLimited c + BadAuth c + BadVersion c + NonClient c + Malformed c + Oversize c).

Definition Requests (c : CounterSnapshot) : Z := u64 (Served c + Dropped c).

Definition snapshot (c : counters) : CounterSnapshot :=
  {| Served := served c;
     Unsynced := unsynced c;
     KoD := kod c;
     Denied := denied c;
     Martian := martian c;
     RateLimited := rateLimited c;
     BadAuth := badAuth c;
     BadVersion := badVersion c;
     NonClient := nonClient c;
     Malformed := malformed c;
     Oversize := oversize c;
     NoKernelTS := missingKernelTS c;
     KernelDrops := kernelDrops c;
     Clients := clients c;
     LastRequest := event_load (lastRequest c);
     LastServed := event_load (lastServed c);
     Modes := modes c;
     Versions := versions c |}.

Definition later (a b : time) : time := if After b a then b else a.

Definition addu (x y : Z) : Z := u64 (x + y).

Definition sumCounters (a b : CounterSnapshot) : CounterSnapshot :=
  {| Served := addu (Served a) (Served b);
     Unsynced := addu (Unsynced a) (Unsynced b);
     KoD := addu (KoD a) (KoD b);
     Denied := addu (Denied a) (Denied b);
     Martian := addu (Martian a) (Martian b);
     RateLimited := addu (RateLimited a) (RateLimited b);
     BadAuth := addu (BadAuth a) (BadAuth b);
     BadVersion := addu (BadVersion a) (BadVersion b);
     NonClient := addu (NonClient a) (NonClient b);
     Malformed := addu (Malformed a) (Malformed b);
     Oversize := addu (Oversize a) (Oversize b);
     NoKernelTS := addu (NoKernelTS a) (NoKernelTS b);
     KernelDrops := addu (KernelDrops a) (KernelDrops b);
     Clients := i64 (Clients a + Clients b);
     LastRequest := later (LastRequest a) (LastRequest b);
     LastServed := later (LastServed a) (LastServed b);
     Modes := zip_with addu (Modes a) (Modes b);
     Versions := zip_with addu (Versions a) (Versions b) |}.

Definition Snapshot (s : Stats) : StatsSnapshot :=
  mkStatsSnapshot (sumCounters (snapshot (v4 s)) (snapshot (v6 s))) (snapshot (v4 s)) (snapshot (v6 s)).

(** ** Accounting *)

Lemma addu_mod x y : addu (u64 x) (u64 y) = u64 (x + y).
Proof. unfold addu, wrapu. rewrite <- Zplus_mod. reflexivity. Qed.

Lemma u64_add_l x y : u64 (u64 x + y) = u64 (x + y).
Proof. unfold wrapu. apply Zplus_mod_idemp_l. Qed.

Lemma u64_add_r x y : u64 (x + u64 y) = u64 (x + y).
Proof. unfold wrapu. apply Zplus_mod_idemp_r. Qed.

(** The sum of the outcome counters, unreduced. *)
Definition outcomes (c : CounterSnapshot) : Z :=
  Served c + Denied c + Martian c + RateLimited c + BadAuth c + BadVersion c + NonClient c + Malformed c
  + Oversize c.

Lemma Requests_outcomes c : Requests c = u64 (outcomes c).
Proof. unfold Requests, Dropped, outcomes. rewrite u64_add_r. f_equal. lia. Qed.

Lemma addu_wraps x y : exists k, addu x y = x + y + k * 2 ^ 64.
Proof. exists (- ((x + y) / 2 ^ 64)). unfold addu, wrapu. rewrite Z.mod_eq by lia. lia. Qed.

Lemma u64_shift k x y : x = y + k * 2 ^ 64 -> u64 x = u64 y.
Proof. intros ->. apply Z_mod_plus_full. Qed.

(** The total accounts for the datagrams of both families. *)
Lemma requests_total s :
  Requests (Total (Snapshot s)) = addu (Requests (IPv4 (Snapshot s))) (Requests (IPv6 (Snapshot s))).
Proof.
  rewrite !Requests_outcomes, addu_mod. unfold outcomes, Snapshot, sumCounters. cbn.
  destruct (addu_wraps (served (v4 s)) (served (v6 s))) as [k1 ->].
  destruct (addu_wraps (denied (v4 s)) (denied (v6 s))) as [k2 ->].
  destruct (addu_wraps (martian (v4 s)) (martian (v6 s))) as [k3 ->].
  destruct (addu_wraps (rateLimited (v4 s)) (rateLimited (v6 s))) as [k4 ->].
  destruct (addu_wraps (badAuth (v4 s)) (badAuth (v6 s))) as [k5 ->].
  destruct (addu_wraps (badVersion (v4 s)) (badVersion (v6 s))) as [k6 ->].
  destruct (addu_wraps (nonClient (v4 s)) (nonClient (v6 s))) as [k7 ->].
  destruct (addu_wraps (malformed (v4 s)) (malformed (v6 s))) as [k8 ->].
  destruct (addu_wraps (oversize (v4 s)) (oversize (v6 s))) as [k9 ->].
  apply (u64_shift (k1 + k2 + k3 + k4 + k5 + k6 + k7 + k8 + k9)). lia.
Qed.

(** ** Event times *)

(** [event_store] is what an uninterrupted call does, in four steps. *)
Lemma event_store_uninterrupted e t :
  store_run e [(t, StAdd)] [0; 0; 0; 0]%nat = (event_store e t, [(t, StDone)]).
Proof.
  unfold store_run, event_store. cbn. rewrite Z.eqb_refl. cbn. by rewrite Z.eqb_refl.
Qed.

(** Listeners whose calls do not overlap leave the last event's time. *)
Lemma event_store_last e ts t :
  in_s 64 t -> t <> 0 -> event_load (fold_left event_store (ts ++ [t]) e) = t.
Proof.
  intros Hr Hn. rewrite fold_left_app. cbn. unfold event_load, event_store, atomicTime, UnixNano. cbn.
  rewrite wraps_id by (done || lia). by rewrite (proj2 (Z.eqb_neq t 0)).
Qed.

(** The check of the sequence number and the swap are separate operations:
    an event that passed the check before a newer one arrived overwrites it.
    The event stored last has sequence number 2, the value left is that of
    event 1, and both calls have returned. *)
Theorem event_time_overwritten :
  exists schedule e cs,
    store_run (mkEventTime 0 0) [(100, StAdd); (200, StAdd)] schedule = (e, cs) /\
    cs = [(100, StDone); (200, StDone)] /\
    firstn 3 schedule = [0; 0; 1]%nat /\ ev_seq e = 2 /\ event_load e = 100.
Proof.
  exists [0; 0; 1; 1; 1; 1; 0; 0]%nat. eexists _, _. split; [vm_compute; reflexivity|]. done.
Qed.
