(* ===== verification/Responder.v ===== *)
(** * internal/server/responder.go, martian.go: the request handler

    [Handle] takes a datagram through decoding, the mode and martian checks,
    the access lists, authentication, the rate limiter and the leap extension
    to a response or a drop, counting what it did.  The early returns of the
    method are the [Return] outcome of a stage; a panic is [None].

    The handler's own state is its rate limiter and its last contribution to
    the client gauge; the counters and the leap distributor are shared by every
    listener and are passed beside it. *)

From stdpp Require Import base list gmap numbers sorting.
From Stdlib Require Import Lia ZArith.
From S2P Require Import Prelude Float64 GoTime NtpTime NtpPacket Netip RateLimit Auth Keys LeapTable LeapWire Distributor ServerStats.

Local Open Scope Z_scope.

(** ** martian.go *)

Definition v4Broadcast : Addr := Addr4 4294967295.

Definition martianSource (from : AddrPort) : bool :=
  let addr := Unmap (ap_addr from) in
  if negb (IsValid addr) then true
  else if ap_port from =? 0 then true
  else if IsUnspecified addr || IsMulticast addr || IsLinkLocalMulticast addr || IsInterfaceLocalMulticast addr
  then true
  else if bool_decide (addr = v4Broadcast) then true
  else Is4 addr && (As4_first addr =? 0).

Definition martianDestination (dst : Addr) : bool :=
  let dst := Unmap dst in
  if negb (IsValid dst) then false
  else IsUnspecified dst || IsMulticast dst || bool_decide (dst = v4Broadcast).

(** ** The handler *)

Definition defaultMinPoll : Z := 6.
Definition maxRateLimit : f64 := of_Z 1000000000.

Record SystemStatus : Type := mkSystemStatus {
  st_Synced : bool;
  st_Leap : Z;
  st_Stratum : Z;
  st_Precision : Z;
  st_RootDelay : f64;
  st_RootDispersion : f64;
  st_ReferenceID : RefID;
  st_ReferenceTime : time
}.

Record keyRule : Type := mkKeyRule { kr_prefix : Prefix; kr_keyID : Z }.

(** [RequireKey] lists the entries of the map in the order it is iterated;
    [hasStatus] and [hasNow] say that the providers are not nil. *)
Record Config : Type := mkConfig {
  cfg_Allow : list Prefix;
  cfg_Deny : list Prefix;
  cfg_RequireKey : list (Prefix * Z);
  cfg_Keys : Keys;
  cfg_RateLimitPPS : f64;
  cfg_RateBurst : f64;
  cfg_MaxClients : Z;
  cfg_RateLimitV6Prefix : Z;
  cfg_KoD : bool;
  cfg_MinPoll : Z;
  cfg_hasStatus : bool;
  cfg_hasNow : bool
}.

Record Handler : Type := mkHandler {
  h_allow : list Prefix;
  h_deny : list Prefix;
  h_requireKey : list keyRule;
  h_keys : Keys;
  h_limiter : rateLimiter;
  h_kod : bool;
  h_minPoll : Z;
  h_publishedClients : Z
}.

#[export] Instance Handler_eta : Eta Handler := fun h =>
  mkHandler (h_allow h) (h_deny h) (h_requireKey h) (h_keys h) (h_limiter h) (h_kod h) (h_minPoll h)
    (h_publishedClients h).

Inductive ConfigError : Type :=
| ErrNoAllow
| ErrRate
| ErrBurst
| ErrMaxClients
| ErrNilStatus
| ErrNilClock.

Definition maskedPrefixes (ps : list Prefix) : list Prefix := Masked <$> ps.

(** The comparator of the rule sort: longer prefixes first. *)
Definition rule_less (a b : keyRule) : bool := p_bits (kr_prefix b) <? p_bits (kr_prefix a).

Definition config_errors (cfg : Config) : list ConfigError :=
  (if (length (cfg_Allow cfg) =? 0)%nat then [ErrNoAllow] else [])
  ++ (if negb (fgt (cfg_RateLimitPPS cfg) fzero && fle (cfg_RateLimitPPS cfg) maxRateLimit) then [ErrRate] else [])
  ++ (if negb (fge (cfg_RateBurst cfg) (of_Z 1) && fle (cfg_RateBurst cfg) maxRateLimit) then [ErrBurst] else [])
  ++ (if cfg_MaxClients cfg <? 0 then [ErrMaxClients] else [])
  ++ (if negb (cfg_hasStatus cfg) then [ErrNilStatus] else [])
  ++ (if negb (cfg_hasNow cfg) then [ErrNilClock] else []).

(** [NewHandler]: a handler, or every error of the configuration. *)
Definition NewHandler (cfg : Config) : result (list ConfigError) Handler :=
  match config_errors cfg with
  | [] =>
      let minPoll := if cfg_MinPoll cfg =? 0 then defaultMinPoll else cfg_MinPoll cfg in
      let maxClients := if cfg_MaxClients cfg =? 0 then DefaultMaxClients else cfg_MaxClients cfg in
      Ok {| h_allow := maskedPrefixes (cfg_Allow cfg);
            h_deny := maskedPrefixes (cfg_Deny cfg);
            h_requireKey :=
              sort_stable rule_less ((fun e => mkKeyRule (Masked (fst e)) (snd e)) <$> cfg_RequireKey cfg);
            h_keys := cfg_Keys cfg;
            h_limiter := newRateLimiter (cfg_RateLimitPPS cfg) (cfg_RateBurst cfg) maxClients
                           (cfg_RateLimitV6Prefix cfg);
            h_kod := cfg_KoD cfg;
            h_minPoll := minPoll;
            h_publishedClients := 0 |}
  | errs => Err errs
  end.

Definition isClientRequest (p : Packet) : bool :=
  (Mode p =? ModeClient) || ((Mode p =? ModeReserved) && (pVersion p =? 1)).

Fixpoint matches (prefixes : list Prefix) (addr : Addr) : bool :=
  match prefixes with
  | [] => false
  | p :: rest => if Contains p addr then true else matches rest addr
  end.

Definition permitted (h : Handler) (addr : Addr) : bool :=
  if matches (h_deny h) addr then false else matches (h_allow h) addr.

Fixpoint required_of (rules : list keyRule) (addr : Addr) : Z :=
  match rules with
  | [] => 0
  | r :: rest => if Contains (kr_prefix r) addr then kr_keyID r else required_of rest addr
  end.

Definition requiredKey (h : Handler) (addr : Addr) : Z := required_of (h_requireKey h) addr.

Definition keyIDOf (k : option Key) : Z := match k with None => 0 | Some k => ID k end.

(** What the providers return during one call: the engine's status, and the
    two readings of the clock (for the leap distributor and for the transmit
    timestamp). *)
Record Env : Type := mkEnv { e_status : SystemStatus; e_leapNow : time; e_sendNow : time }.

Section Responder.
Context `{BlockCipher}.

(** [verify]: the key and whether the trailer is acceptable. *)
Definition verify (h : Handler) (request : list Z) (macOffset : nat) (mac : option MAC)
  : option (option Key * bool) :=
  match mac with
  | None => Some (None, true)
  | Some m =>
      if IsCryptoNAK m then Some (None, true)
      else
        match h_keys h !! KeyID m with
        | None => Some (None, false)
        | Some key =>
            ok ← Key_Verify key (take macOffset request) mac;
            Some (if ok : bool then (Some key, true) else (None, false))
        end
  end.

(** The header of a reply, before the transmit timestamp is written. *)
Definition reply_packet (h : Handler) (req : Packet) (receive : time) (st : SystemStatus) (refID : RefID)
  (special : bool) : Packet :=
  let kiss := bool_decide (refID = KissRATE) in
  {| Leap := if special then LeapUnsync else st_Leap st;
     pVersion := pVersion req;
     Mode := ModeServer;
     Stratum := if special then (if kiss then 0 else 16) else st_Stratum st;
     Poll := if special && kiss then h_minPoll h else Poll req;
     Precision := st_Precision st;
     RootDelay := if special then 0 else ShortFromSeconds (st_RootDelay st);
     RootDispersion :=
       if special then (if kiss then 0 else ShortFromSeconds (of_Z 16))
       else ShortFromSeconds (st_RootDispersion st);
     ReferenceID := refID;
     ReferenceTime := if special then 0 else FromTime (st_ReferenceTime st);
     OriginTime := TransmitTime req;
     ReceiveTime := FromTime receive;
     TransmitTime := 0 |}.

(** [PutUint64(out[40:48], v)]. *)
Definition put_transmit (out : list Z) (v : Z) : list Z := take 40 out ++ be_encode 8 v ++ drop 48 out.

(** [reply]: the inner [None] is a nil response. *)
Definition reply (env : Env) (h : Handler) (req : Packet) (receive : time) (st : SystemStatus) (refID : RefID)
  (key : option Key) (special : bool) (extension : option Message) : option (option (list Z)) :=
  let out := Marshal (reply_packet h req receive st refID special) in
  let framed := match extension with None => Ok out | Some m => Message_AppendTo m out end in
  match framed with
  | Err _ => Some None
  | Ok out =>
      let out := put_transmit out (FromTime (e_sendNow env)) in
      match key with
      | None => Some (Some out)
      | Some k => signed ← Key_Append k out; Some (Some signed)
      end
  end.

Definition status_refid (st : SystemStatus) : RefID :=
  if negb (st_Synced st) && bool_decide (st_ReferenceID st = zeroRefID) then KissINIT else st_ReferenceID st.

Definition cryptoNAK (env : Env) (h : Handler) (req : Packet) (request : list Z) (mac : option MAC) (receive : time)
  : option (option (list Z)) :=
  match mac with
  | None => Some None
  | Some m =>
      if IsCryptoNAK m || (length request <? HeaderSize + CryptoNAKSize)%nat then Some None
      else
        let st := e_status env in
        out ← reply env h req receive st (status_refid st) None (negb (st_Synced st)) None;
        Some (match out with None => None | Some out => Some (out ++ be_encode 4 0) end)
  end.

End Responder.

(** ** One datagram *)

(** The handler with the state it shares with the other listeners. *)
Record Server : Type := mkServer {
  sv_h : Handler;
  sv_stats : Stats;
  sv_leap : option Distributor
}.

#[export] Instance Server_eta : Eta Server := fun s => mkServer (sv_h s) (sv_stats s) (sv_leap s).

(** A stage returns from [Handle] with a response, or goes on. *)
Inductive exit (A : Type) : Type :=
| Return (response : option (list Z))
| Continue (a : A).
Arguments Return {A} _.
Arguments Continue {A} _.

Abbreviation stage A := (option (Server * exit A)).

Definition stage_bind {A B} (m : stage A) (k : Server -> A -> stage B) : stage B :=
  match m with
  | None => None
  | Some (s, Return r) => Some (s, Return r)
  | Some (s, Continue a) => k s a
  end.

(** Changes to the counters of the client's family. *)
Definition count (addr : Addr) (f : counters -> counters) (s : Server) : Server :=
  s <| sv_stats := put_family (sv_stats s) addr (f (family (sv_stats s) addr)) |>.

Definition publishClients (addr : Addr) (s : Server) : Server :=
  let h := sv_h s in
  let n := size (h_limiter h) in
  let delta := n - h_publishedClients h in
  if negb (delta =? 0) then
    (count addr (fun c => c <| clients := i64 (clients c + delta) |>) s) <| sv_h := h <| h_publishedClients := n |> |>
  else s.

(** [h.limiter.allow]. *)
Definition limit (k : bucketKey) (now : time) (s : Server) : Server * bool * bool :=
  let '(l, allowed, sendKoD) := allow (h_limiter (sv_h s)) k now in
  (s <| sv_h := (sv_h s) <| h_limiter := l |> |>, allowed, sendKoD).

(** Decoding and the checks that need no state. *)
Definition screen (s : Server) (request : list Z) (client : AddrPort) : stage (Packet * option MAC * nat) :=
  let addr := Unmap (ap_addr client) in
  match Decode request with
  | Err (ErrVersion _) => Some (count addr (fun c => c <| badVersion := incr (badVersion c) |>) s, Return None)
  | Err _ => Some (count addr (fun c => c <| malformed := incr (malformed c) |>) s, Return None)
  | Ok (pkt, mac, macOffset) =>
      if negb (isClientRequest pkt) then
        Some (count addr (fun c => (c <| nonClient := incr (nonClient c) |>)
                <| modes := incr_at (Z.to_nat (Z.land (Mode pkt) 7)) (modes c) |>) s, Return None)
      else if martianSource client then
        Some (count addr (fun c => c <| martian := incr (martian c) |>) s, Return None)
      else if negb (permitted (sv_h s) addr) then
        Some (count addr (fun c => c <| denied := incr (denied c) |>) s, Return None)
      else Some (s, Continue (pkt, mac, macOffset))
  end.

Section Handle.
Context `{BlockCipher}.

(** Authentication: the key the reply is signed with, if any. *)
Definition authenticate (env : Env) (s : Server) (request : list Z) (addr : Addr) (receive mono : time)
  (pkt : Packet) (mac : option MAC) (macOffset : nat) : stage (option Key) :=
  let required := requiredKey (sv_h s) addr in
  let bad := count addr (fun c => c <| badAuth := incr (badAuth c) |>) in
  if (required =? 0) && negb (bool_decide (is_Some mac)) then Some (s, Continue None)
  else
    let '(s, allowed) :=
      if required =? 0 then
        let '(s, allowed, _) := limit (cryptoKey (h_limiter (sv_h s)) addr) mono s in (s, allowed)
      else (s, true) in
    if negb allowed then
      Some (publishClients addr (count addr (fun c => c <| rateLimited := incr (rateLimited c) |>) s), Return None)
    else
      '(replyKey, ok) ← verify (sv_h s) request macOffset mac;
      if negb ok then
        let s := bad s in
        let '(s, allowed) :=
          if negb (required =? 0) then
            let '(s, allowed, _) := limit (cryptoKey (h_limiter (sv_h s)) addr) mono s in (s, allowed)
          else (s, true) in
        if negb allowed then Some (s, Return None)
        else r ← cryptoNAK env (sv_h s) pkt request mac receive; Some (s, Return r)
      else if negb (required =? 0)
              && match replyKey with None => true | Some k => negb (ID k =? required) end
      then Some (bad s, Return None)
      else Some (s, Continue replyKey).

(** The service bucket of the verified identity. *)
Definition service_limit (env : Env) (s : Server) (addr : Addr) (receive mono : time) (pkt : Packet) (replyKey : option Key)
  : stage unit :=
  let '(s, allowed, sendKoD) := limit (key (h_limiter (sv_h s)) addr (keyIDOf replyKey)) mono s in
  let s := publishClients addr s in
  if negb allowed then
    let s := count addr (fun c => c <| rateLimited := incr (rateLimited c) |>) s in
    if negb (h_kod (sv_h s)) || negb sendKoD then Some (s, Return None)
    else
      let s := count addr (fun c => c <| kod := incr (kod c) |>) s in
      r ← reply env (sv_h s) pkt receive (e_status env) KissRATE replyKey true None;
      Some (s, Return r)
  else Some (s, Continue tt).

(** The leap extension an authorized client asked for. *)
Definition extend (env : Env) (s : Server) (request : list Z) (addr : Addr) (mono : time) (pkt : Packet)
  (macOffset : nat) (replyKey : option Key) : stage (option Message) :=
  let malformed_ := count addr (fun c => c <| malformed := incr (malformed c) |>) in
  match replyKey, sv_leap s with
  | Some k, Some d =>
      if (pVersion pkt =? 4) && (Mode pkt =? ModeClient) && Authorized (Some d) (ID k) then
        match DecodeFields (slice HeaderSize macOffset request) with
        | Err Unsupported => Some (s, Continue None)
        | Err _ => Some (malformed_ s, Return None)
        | Ok None => Some (s, Continue None)
        | Ok (Some m) =>
            let '(d', r) := Respond d (Some m) (ID k) (e_leapNow env) mono in
            let s := s <| sv_leap := Some d' |> in
            match r with
            | Ok m' => Some (s, Continue (Some m'))
            | Err (Rejected ReasonRate) =>
                Some (count addr (fun c => c <| rateLimited := incr (rateLimited c) |>) s, Return None)
            | Err _ => Some (malformed_ s, Return None)
            end
        end
      else Some (s, Continue None)
  | _, _ => Some (s, Continue None)
  end.

(** The answer. *)
Definition answer (env : Env) (s : Server) (addr : Addr) (receive : time) (pkt : Packet) (replyKey : option Key)
  (extension : option Message) : option (Server * option (list Z)) :=
  let s := count addr (fun c => (c <| versions := incr_at (Z.to_nat (pVersion pkt)) (versions c) |>)
             <| lastRequest := event_store (lastRequest c) receive |>) s in
  let st := e_status env in
  response ← reply env (sv_h s) pkt receive st (status_refid st) replyKey (negb (st_Synced st)) extension;
  Some (match response with
        | None => s
        | Some _ =>
            let s := count addr (fun c => (c <| served := incr (served c) |>)
                       <| lastServed := event_store (lastServed c) receive |>) s in
            if negb (st_Synced st) then count addr (fun c => c <| unsynced := incr (unsynced c) |>) s else s
        end, response).

(** [Handle]. *)
Definition Handle (env : Env) (s : Server) (request : list Z) (client : AddrPort) (receive mono : time)
  : option (Server * option (list Z)) :=
  let addr := Unmap (ap_addr client) in
  let body :=
    stage_bind (screen s request client) (fun s '(pkt, mac, macOffset) =>
    stage_bind (authenticate env s request addr receive mono pkt mac macOffset) (fun s replyKey =>
    stage_bind (service_limit env s addr receive mono pkt replyKey) (fun s _ =>
    stage_bind (extend env s request addr mono pkt macOffset replyKey) (fun s extension =>
    '(s, response) ← answer env s addr receive pkt replyKey extension;
    Some (s, @Return unit response))))) in
  '(s, x) ← body;
  match x with Return r => Some (s, r) | Continue _ => None end.

End Handle.

(** ** Accounting

    [acct addr n s s']: the outcome counters of [addr]'s family grew by [n]
    between the two states, the other family's counters are untouched, and the
    client gauge moved exactly with this handler's contribution to it. *)

Definition other_family (s : Stats) (addr : Addr) : counters := if Is4 (Unmap addr) then v6 s else v4 s.

Definition requests (addr : Addr) (s : Server) : Z := Requests (snapshot (family (sv_stats s) addr)).

(** The client gauge of both families, less this handler's contribution. *)
Definition gauge (s : Server) : Z :=
  u64 (clients (v4 (sv_stats s)) + clients (v6 (sv_stats s)) - h_publishedClients (sv_h s)).

Definition acct (addr : Addr) (n : Z) (s s' : Server) : Prop :=
  requests addr s' = u64 (requests addr s + n) /\
  other_family (sv_stats s') addr = other_family (sv_stats s) addr /\
  gauge s' = gauge s.

Lemma requests_u64 addr s : u64 (requests addr s) = requests addr s.
Proof. unfold requests, Requests. apply wrapu_id, wrapu_range. lia. Qed.

Lemma acct_refl addr s s' :
  sv_stats s' = sv_stats s -> h_publishedClients (sv_h s') = h_publishedClients (sv_h s) -> acct addr 0 s s'.
Proof.
  intros E Eh. unfold acct, requests, gauge. rewrite E, Eh, Z.add_0_r.
  split; [symmetry; apply requests_u64|done].
Qed.

Lemma acct_trans addr n m s1 s2 s3 : acct addr n s1 s2 -> acct addr m s2 s3 -> acct addr (n + m) s1 s3.
Proof.
  intros (H1 & H2 & H5) (H3 & H4 & H6). split; [|split; congruence]. rewrite H3, H1, u64_add_l. f_equal. lia.
Qed.

Lemma family_put s addr c : family (put_family s addr c) addr = c.
Proof. unfold family, put_family. by destruct (Is4 _). Qed.

Lemma other_put s addr c : other_family (put_family s addr c) addr = other_family s addr.
Proof. unfold other_family, put_family. by destruct (Is4 _). Qed.

(** A counter update that adds [n] to the outcomes. *)
Definition adds (n : Z) (f : counters -> counters) : Prop :=
  forall c, u64 (outcomes (snapshot (f c))) = u64 (outcomes (snapshot c) + n) /\ clients (f c) = clients c.

Lemma gauge_put s addr c :
  clients (v4 (put_family s addr c)) + clients (v6 (put_family s addr c))
  = clients (v4 s) + clients (v6 s) + (clients c - clients (family s addr)).
Proof. unfold put_family, family. destruct (Is4 _); cbn; lia. Qed.

Lemma count_acct addr n f s : adds n f -> acct addr n s (count addr f s).
Proof.
  intros Hf. unfold acct, requests, count.
  change (sv_stats (s <| sv_stats := put_family (sv_stats s) addr (f (family (sv_stats s) addr)) |>))
    with (put_family (sv_stats s) addr (f (family (sv_stats s) addr))).
  destruct (Hf (family (sv_stats s) addr)) as [H1 H2].
  rewrite family_put, other_put, !Requests_outcomes, H1. split; [by rewrite u64_add_l|]. split; [done|].
  unfold gauge. cbn [sv_stats sv_h set]. rewrite gauge_put, H2. f_equal. lia.
Qed.

Lemma incr_wraps x : exists k, incr x = x + 1 + k * 2 ^ 64.
Proof. apply (addu_wraps x 1). Qed.

(** Incrementing one outcome counter, or none. *)
Ltac adds_tac :=
  let c := fresh "c" in
  intros c; split; [|reflexivity]; unfold outcomes, snapshot; cbn;
  match goal with |- context [incr ?x] =>
    let k := fresh in let E := fresh in
    destruct (incr_wraps x) as [k E]; rewrite E; clear E; apply (u64_shift k); lia
  end.

Lemma adds_outcome :
  adds 1 (fun c => c <| badVersion := incr (badVersion c) |>) /\
  adds 1 (fun c => c <| malformed := incr (malformed c) |>) /\
  (forall i, adds 1 (fun c => (c <| nonClient := incr (nonClient c) |>) <| modes := incr_at i (modes c) |>)) /\
  adds 1 (fun c => c <| martian := incr (martian c) |>) /\
  adds 1 (fun c => c <| denied := incr (denied c) |>) /\
  adds 1 (fun c => c <| badAuth := incr (badAuth c) |>) /\
  adds 1 (fun c => c <| rateLimited := incr (rateLimited c) |>) /\
  adds 1 (fun c => c <| oversize := incr (oversize c) |>) /\
  (forall t, adds 1 (fun c => (c <| served := incr (served c) |>) <| lastServed := event_store (lastServed c) t |>)).
Proof. repeat apply conj; intros; adds_tac. Qed.

Lemma adds_none :
  adds 0 (fun c => c <| kod := incr (kod c) |>) /\
  adds 0 (fun c => c <| unsynced := incr (unsynced c) |>) /\
  adds 0 (fun c => c <| missingKernelTS := incr (missingKernelTS c) |>) /\
  (forall n, adds 0 (fun c => c <| kernelDrops := u64 (kernelDrops c + n) |>)) /\
  (forall i t, adds 0 (fun c => (c <| versions := incr_at i (versions c) |>)
                        <| lastRequest := event_store (lastRequest c) t |>)).
Proof.
  repeat apply conj; intros; intros c; (split; [|reflexivity]); unfold outcomes, snapshot; cbn; f_equal; lia.
Qed.

(** ** Replies *)

(** The ranges of the status fields on the wire; a reference id is an array of
    four bytes. *)
Record status_ok (st : SystemStatus) : Prop := {
  so_leap : 0 <= st_Leap st < 4;
  so_stratum : in_u 8 (st_Stratum st);
  so_precision : in_s 8 (st_Precision st);
  so_refid : length (st_ReferenceID st) = 4%nat;
  so_refid_bytes : Forall is_byte (st_ReferenceID st)
}.

Record object_served (o : Object) : Prop := {
  os_ok : object_ok o;
  os_digest : length (mf_Digest (ob_manifest o)) = 32%nat
}.

(** What the constructor and the key loader establish and [Handle] keeps. *)
Record server_ok (s : Server) : Prop := {
  sv_ring : ring_ok (h_keys (sv_h s));
  sv_minPoll : in_s 8 (h_minPoll (sv_h s));
  sv_limiter : lim_ok (h_limiter (sv_h s));
  sv_object : forall d o, sv_leap s = Some d -> d_current d = Some o -> object_served o
}.

(** The fixed part of the server: what no request changes. *)
Definition same_config (s s' : Server) : Prop :=
  h_allow (sv_h s') = h_allow (sv_h s) /\ h_deny (sv_h s') = h_deny (sv_h s) /\
  h_requireKey (sv_h s') = h_requireKey (sv_h s) /\ h_keys (sv_h s') = h_keys (sv_h s) /\
  h_kod (sv_h s') = h_kod (sv_h s) /\ h_minPoll (sv_h s') = h_minPoll (sv_h s).

Lemma same_config_refl s : same_config s s.
Proof. by repeat split. Qed.

Lemma same_config_trans s1 s2 s3 : same_config s1 s2 -> same_config s2 s3 -> same_config s1 s3.
Proof. unfold same_config. intros (? & ? & ? & ? & ? & ?) (? & ? & ? & ? & ? & ?). repeat split; congruence. Qed.

(** The header as it is sent. *)
Definition sent_packet (env : Env) (h : Handler) (req : Packet) (receive : time) (st : SystemStatus) (refID : RefID)
  (special : bool) : Packet :=
  (reply_packet h req receive st refID special) <| TransmitTime := FromTime (e_sendNow env) |>.

Definition extension_bytes (e : option Message) : list Z :=
  match e with None => [] | Some m => encode_field m end.

Lemma put_transmit_Marshal p rest v :
  length (ReferenceID p) = 4%nat ->
  put_transmit (Marshal p ++ rest) v = Marshal (p <| TransmitTime := v |>) ++ rest.
Proof.
  intros Hr. unfold put_transmit.
  rewrite (drop_app_length' (Marshal p) rest) by (by rewrite length_Marshal_refid).
  rewrite app_assoc. f_equal. unfold Marshal. cbn [Leap pVersion Mode Stratum Poll Precision RootDelay RootDispersion
    ReferenceID ReferenceTime OriginTime ReceiveTime TransmitTime set].
  rewrite !app_assoc. rewrite <- (app_assoc _ (be_encode 8 (TransmitTime p)) rest).
  rewrite (take_app_length' _ (be_encode 8 (TransmitTime p) ++ rest)); [done|].
  rewrite !length_app, !length_be_encode, Hr. done.
Qed.

Lemma status_refid_ok st : status_ok st -> length (status_refid st) = 4%nat /\ Forall is_byte (status_refid st).
Proof.
  intros [_ _ _ H1 H2]. unfold status_refid. destruct (_ && _); [|done].
  split; [done|]. repeat constructor; cbn; lia.
Qed.

Lemma KissRATE_ok : length KissRATE = 4%nat /\ Forall is_byte KissRATE.
Proof. split; [done|]. repeat constructor; cbn; lia. Qed.

(** A reply is decodable: every field is in range. *)
Lemma sent_packet_ok env h req receive st refID special :
  status_ok st -> packet_ok req -> in_s 8 (h_minPoll h) -> length refID = 4%nat -> Forall is_byte refID ->
  packet_ok (sent_packet env h req receive st refID special).
Proof.
  intros [S1 S2 S3 S4 S5] [P1 P2 P3 P4 P5 P6 P7 P8 P9 P10 P11 P12 P13] Hm Hl Hb.
  assert (in_u 32 0 /\ in_u 64 0 /\ in_u 8 0 /\ in_u 8 16) as (Z1 & Z2 & Z3 & Z4) by (unfold in_u; lia).
  pose proof FromTime_range. pose proof ShortFromSeconds_range.
  unfold sent_packet, reply_packet.
  constructor; cbn [Leap pVersion Mode Stratum Poll Precision RootDelay RootDispersion
    ReferenceID ReferenceTime OriginTime ReceiveTime TransmitTime set]; auto;
    repeat case_goal; auto; unfold LeapUnsync, ModeServer; lia.
Qed.

Section ReplySpec.
Context `{BlockCipher}.

Lemma Key_Append_spec k b out : Key_Append k b = Some out -> length out = (length b + 20)%nat.
Proof.
  unfold Key_Append. destruct (CMAC (Secret k) b) as [d|] eqn:E; [|done]. cbn [mbind option_bind].
  intros [= <-]. rewrite length_app. cbn [length]. rewrite (CMAC_length _ _ _ E). lia.
Qed.

(** What [reply] sends. *)
Lemma reply_spec env h req receive st refID key special ext r :
  length refID = 4%nat ->
  reply env h req receive st refID key special ext = Some r ->
  match r with
  | None => exists m, ext = Some m /\ validate m = false
  | Some out =>
      let body := Marshal (sent_packet env h req receive st refID special) ++ extension_bytes ext in
      match key with None => out = body | Some k => Key_Append k body = Some out end
  end.
Proof.
  intros Hr. unfold reply, sent_packet.
  set (p := reply_packet h req receive st refID special).
  assert (length (ReferenceID p) = 4%nat) as Hp by exact Hr. clearbody p.
  assert (forall rest, put_transmit (Marshal p ++ rest) (FromTime (e_sendNow env))
    = Marshal (p <| TransmitTime := FromTime (e_sendNow env) |>) ++ rest) as Hput
    by (intros; by apply put_transmit_Marshal).
  destruct ext as [m|]; cbn [extension_bytes].
  - unfold Message_AppendTo. destruct (validate m) eqn:Hv; [|intros [= <-]; eauto].
    rewrite Hput. destruct key as [k|]; [|intros [= <-]; done].
    destruct (Key_Append k _) as [x|] eqn:E; [|done]. cbn. by intros [= <-].
  - rewrite <- (app_nil_r (Marshal p)), Hput. destruct key as [k|]; [|intros [= <-]; done].
    destruct (Key_Append k _) as [x|] eqn:E; [|done]. cbn. by intros [= <-].
Qed.

Lemma reply_total env h req receive st refID key special ext :
  (forall k, key = Some k -> length (Secret k) = KeySize) ->
  exists r, reply env h req receive st refID key special ext = Some r.
Proof.
  intros Hk. unfold reply. case_goal; [|by eexists]. destruct key as [k|]; [|by eexists].
  unfold Key_Append. destruct (CMAC_some (Secret k) (put_transmit a (FromTime (e_sendNow env))) (Hk k eq_refl)) as [d ->].
  by eexists.
Qed.

(** The length of a reply. *)
Lemma reply_length env h req receive st refID key special ext out :
  length refID = 4%nat ->
  reply env h req receive st refID key special ext = Some (Some out) ->
  length out = (48 + length (extension_bytes ext) + match key with None => 0 | Some _ => 20 end)%nat.
Proof.
  intros Hr Hs. apply reply_spec in Hs; [|done]. cbn zeta in Hs.
  assert (length (Marshal (sent_packet env h req receive st refID special)) = 48%nat) as Hl
    by (apply length_Marshal_refid; exact Hr).
  destruct key as [k|].
  - apply Key_Append_spec in Hs. rewrite Hs, length_app, Hl. lia.
  - rewrite Hs, length_app, Hl. lia.
Qed.

(** [verify]: never panics on a loaded ring, and a key it returns is in the
    ring, is the one the trailer names, and accepts the trailer. *)
Lemma verify_spec h request off mac :
  ring_ok (h_keys h) ->
  exists k ok, verify h request off mac = Some (k, ok) /\
    (ok = false -> k = None /\ exists m, mac = Some m /\ IsCryptoNAK m = false) /\
    (forall key, k = Some key -> ok = true /\ length (Secret key) = KeySize /\
       exists m, mac = Some m /\ h_keys h !! KeyID m = Some key /\ KeyID m = ID key /\
         length (Digest m) = 16%nat /\ Key_Verify key (take off request) mac = Some true).
Proof.
  intros Hr. unfold verify. destruct mac as [m|]; [|by exists None, true].
  destruct (IsCryptoNAK m) eqn:En; [by exists None, true|].
  destruct (h_keys h !! KeyID m) as [key|] eqn:Ek; [|exists None, false; repeat split; eauto; done].
  destruct (Hr _ _ Ek) as (Hid & _ & Hlen & _).
  destruct (Key_Verify key (take off request) (Some m)) as [b|] eqn:Ev.
  - cbn. exists (if b then Some key else None), b. destruct b; (split; [done|]); (split; [by eauto|]);
      intros key' [= <-]. split; [done|]. split; [done|]. exists m. repeat split; try done.
    unfold Key_Verify in Ev. destruct (_ || _) eqn:E; [done|]. by repeat bool_step.
  - exfalso. unfold Key_Verify in Ev. case_in Ev; [done|].
    destruct (CMAC_some (Secret key) (take off request) Hlen) as [d Hd]. rewrite Hd in Ev. done.
Qed.

End ReplySpec.

(** ** The stages *)

Lemma count_ok addr f s : server_ok s -> server_ok (count addr f s).
Proof. intros [? ? ? ?]. by constructor. Qed.

Lemma count_config addr f s : same_config s (count addr f s).
Proof. by repeat split. Qed.

Lemma limit_spec k now s s' a b :
  limit k now s = (s', a, b) -> server_ok s ->
  server_ok s' /\ same_config s s' /\ (forall addr, acct addr 0 s s') /\ sv_leap s' = sv_leap s.
Proof.
  unfold limit. intros E [H1 H2 H3 H4].
  pose proof (allow_ok (h_limiter (sv_h s)) k now H3) as Ha.
  destruct (allow (h_limiter (sv_h s)) k now) as [[l a'] b']. injection E as <- <- <-.
  cbn [fst] in Ha. split; [by constructor|]. split; [by repeat split|].
  split; [|done]. intros addr. by apply acct_refl.
Qed.

Lemma publish_spec addr s :
  server_ok s -> server_ok (publishClients addr s) /\ same_config s (publishClients addr s) /\
  acct addr 0 s (publishClients addr s) /\ sv_leap (publishClients addr s) = sv_leap s.
Proof.
  intros [H1 H2 H3 H4]. unfold publishClients. case_goal.
  - split; [by constructor|]. split; [by repeat split|]. split; [|done].
    unfold acct, requests, gauge, count. cbn [sv_stats sv_h set h_publishedClients].
    rewrite family_put, other_put, gauge_put. cbn [clients set]. split; [|split; [done|]].
    + rewrite Z.add_0_r. symmetry. apply (requests_u64 addr s).
    + set (c := clients (family (sv_stats s) addr)). set (n := size (h_limiter (sv_h s))).
      unfold wraps. rewrite Z.mod_eq by lia. eapply (u64_shift (- ((c + (n - h_publishedClients (sv_h s)) + 2 ^ (64 - 1)) / 2 ^ 64))).
      lia.
  - split; [by constructor|]. split; [by repeat split|]. split; [by apply acct_refl|done].
Qed.

(** What a stage guarantees whichever way it goes. *)
Definition staged {A} (addr : Addr) (s s' : Server) (x : exit A) : Prop :=
  server_ok s' /\ same_config s s' /\ acct addr (match x with Return _ => 1 | Continue _ => 0 end) s s'.

Lemma staged_count {A} addr f s r :
  server_ok s -> adds 1 f -> @staged A addr s (count addr f s) (Return r).
Proof. intros Hs Hf. split; [by apply count_ok|]. split; [apply count_config|by apply count_acct]. Qed.

Lemma staged_trans {A B} addr s1 s2 s3 a (x : exit B) :
  @staged A addr s1 s2 (Continue a) -> staged addr s2 s3 x -> staged addr s1 s3 x.
Proof.
  intros (_ & C1 & A1) (O2 & C2 & A2). split; [done|]. split; [by eapply same_config_trans|].
  by apply (acct_trans addr 0 _ s1 s2 s3).
Qed.

(** The first stage lets through decodable client requests from permitted,
    possible addresses, and changes nothing for those. *)
Lemma screen_spec s request client :
  server_ok s ->
  exists s' x, screen s request client = Some (s', x) /\ staged (Unmap (ap_addr client)) s s' x /\
    match x with
    | Return r => r = None
    | Continue (pkt, mac, off) =>
        s' = s /\ Decode request = Ok (pkt, mac, off) /\ isClientRequest pkt = true /\
        martianSource client = false /\ permitted (sv_h s) (Unmap (ap_addr client)) = true
    end.
Proof.
  intros Hs. pose proof adds_outcome as (A1 & A2 & A3 & A4 & A5 & _). unfold screen.
  destruct (Decode request) as [[[pkt mac] off]|e].
  - destruct (isClientRequest pkt) eqn:E1; cbn [negb].
    2: { eexists _, _. split; [done|]. split; [|done]. apply staged_count; [done|apply A3]. }
    destruct (martianSource client) eqn:E2.
    { eexists _, _. split; [done|]. split; [|done]. by apply staged_count. }
    destruct (permitted _ _) eqn:E3; cbn [negb].
    + eexists _, _. split; [done|]. split; [|done].
      split; [done|]. split; [apply same_config_refl|by apply acct_refl].
    + eexists _, _. split; [done|]. split; [|done]. by apply staged_count.
  - destruct e; eexists _, _; (split; [done|]); (split; [|done]); by apply staged_count.
Qed.

Section Stages.
Context `{BlockCipher}.

Lemma verify_config h h' request off mac :
  h_keys h' = h_keys h -> verify h' request off mac = verify h request off mac.
Proof. intros E. unfold verify. by rewrite E. Qed.

Lemma reply_config env h h' req receive st refID key special ext :
  h_minPoll h' = h_minPoll h ->
  reply env h' req receive st refID key special ext = reply env h req receive st refID key special ext.
Proof. intros E. unfold reply, reply_packet. by rewrite E. Qed.

Lemma cryptoNAK_total env h req request mac receive : exists r, cryptoNAK env h req request mac receive = Some r.
Proof.
  unfold cryptoNAK. destruct mac as [m|]; [|by eexists]. case_goal; [by eexists|].
  destruct (reply_total env h req receive (e_status env) (status_refid (e_status env)) None
    (negb (st_Synced (e_status env))) None) as [r ->]; [done|]. by eexists.
Qed.

Lemma cryptoNAK_config env h h' req request mac receive :
  h_minPoll h' = h_minPoll h -> cryptoNAK env h' req request mac receive = cryptoNAK env h req request mac receive.
Proof.
  intros E. unfold cryptoNAK. destruct mac; [|done]. case_goal; [done|].
  by rewrite (reply_config env h h').
Qed.

(** Spending a token, or not. *)
Lemma limit_if_spec (c : bool) k now s s' a :
  server_ok s ->
  (if c then let '(s1, a1, _) := limit k now s in (s1, a1) else (s, true)) = (s', a) ->
  server_ok s' /\ same_config s s' /\ (forall addr, acct addr 0 s s') /\ sv_leap s' = sv_leap s.
Proof.
  intros Hs. destruct c.
  - destruct (limit k now s) as [[s1 a1] b1] eqn:E. intros [= <- <-]. by eapply limit_spec.
  - intros [= <- <-]. split; [done|]. split; [apply same_config_refl|]. split; [|done]. intros. by apply acct_refl.
Qed.

(** Authentication: only a trailer that failed draws a crypto-NAK; a key that
    is handed on was verified, and is the required one where one is. *)
Lemma authenticate_spec env s request addr receive mono pkt mac off :
  server_ok s ->
  exists s' x, authenticate env s request addr receive mono pkt mac off = Some (s', x) /\
    staged addr s s' x /\ sv_leap s' = sv_leap s /\
    match x with
    | Return r => forall out, r = Some out ->
        cryptoNAK env (sv_h s) pkt request mac receive = Some (Some out) /\
        verify (sv_h s) request off mac = Some (None, false)
    | Continue replyKey =>
        verify (sv_h s) request off mac = Some (replyKey, true) /\
        (requiredKey (sv_h s) addr <> 0 -> exists k, replyKey = Some k /\ ID k = requiredKey (sv_h s) addr)
    end.
Proof.
  intros Hs. pose proof adds_outcome as (_ & _ & _ & _ & _ & Abad & Arate & _). unfold authenticate.
  set (required := requiredKey (sv_h s) addr).
  destruct ((required =? 0) && negb (bool_decide (is_Some mac))) eqn:E0.
  { repeat bool_step. eexists _, _. split; [done|].
    split; [|split; [done|split; [destruct mac as [m|]; [exfalso; eauto|done]|congruence]]].
    split; [done|]. split; [apply same_config_refl|by apply acct_refl]. }
  destruct (if required =? 0 then _ else _) as [s1 a1] eqn:E1.
  apply limit_if_spec in E1 as (O1 & C1 & S1 & L1); [|done].
  pose proof (S1 addr) as A1.
  destruct a1; cbn [negb].
  2: { eexists _, _. split; [done|].
       destruct (publish_spec addr (count addr (fun c => c <| rateLimited := incr (rateLimited c) |>) s1)
         (count_ok _ _ _ O1)) as (O2 & C2 & A2 & L2).
       split; [|split; [by rewrite L2|done]]. split; [done|].
       split; [by eapply same_config_trans; [|exact C2]|].
       refine (acct_trans addr 0 1 s s1 _ A1 _).
       by refine (acct_trans addr 1 0 s1 _ _ (count_acct addr 1 _ s1 Arate) A2). }
  pose proof C1 as (_ & _ & _ & C1d & _ & C1f).
  destruct (verify_spec (sv_h s1) request off mac (sv_ring _ O1)) as (k & ok & Ev & Hbad & Hkey).
  rewrite Ev. cbn [mbind option_bind]. rewrite (verify_config (sv_h s)) in Ev by done.
  destruct ok; cbn [negb].
  2: { destruct (Hbad eq_refl) as [-> _].
       set (s2 := count addr (fun c => c <| badAuth := incr (badAuth c) |>) s1).
       destruct (if negb (required =? 0) then _ else _) as [s3 a3] eqn:E3.
       apply limit_if_spec in E3 as (O3 & C3 & S3 & L3); [|by apply count_ok].
       assert (@staged (option Key) addr s s3 (Return None)) as Hst.
       { split; [done|]. split; [by eapply same_config_trans; [|exact C3]|].
         refine (acct_trans addr 0 1 s s1 _ A1 _).
         refine (acct_trans addr 1 0 s1 s2 _ (count_acct addr 1 _ s1 Abad) _). by apply S3. }
       assert (sv_leap s3 = sv_leap s) as Hl by (rewrite L3; exact L1).
       destruct a3; cbn [negb]; [|eexists _, (Return None); by split].
       destruct (cryptoNAK_total env (sv_h s3) pkt request mac receive) as [r Er]. rewrite Er. cbn [mbind option_bind].
       eexists _, _. split; [done|]. split; [exact Hst|]. split; [done|]. intros out ->. split; [|done].
       rewrite <- Er. symmetry. apply cryptoNAK_config. destruct C3 as (_ & _ & _ & _ & _ & ->). exact C1f. }
  case_goal.
  - eexists _, _. split; [done|]. split; [|by split].
    apply (staged_trans addr s s1 _ tt); [by split|by apply staged_count].
  - eexists _, _. split; [done|]. split; [by split|]. split; [done|]. split.
    + exact Ev.
    + intros Hne. destruct k as [k|].
      * exists k. split; [done|]. fold required. apply andb_false_iff in Heqb as [Hb|Hb]; repeat bool_step; [congruence|done].
      * apply andb_false_iff in Heqb as [Hb|Hb]; repeat bool_step; [congruence|done].
Qed.

(** The service bucket: a refused request is answered at most with a RATE kiss. *)
Lemma service_limit_spec env s addr receive mono pkt replyKey :
  server_ok s -> (forall k, replyKey = Some k -> length (Secret k) = KeySize) ->
  exists s' x, service_limit env s addr receive mono pkt replyKey = Some (s', x) /\
    staged addr s s' x /\ sv_leap s' = sv_leap s /\
    match x with
    | Return r => forall out, r = Some out ->
        h_kod (sv_h s) = true /\
        reply env (sv_h s) pkt receive (e_status env) KissRATE replyKey true None = Some (Some out)
    | Continue _ => True
    end.
Proof.
  intros Hs Hk. pose proof adds_outcome as (_ & _ & _ & _ & _ & _ & Arate & _).
  pose proof adds_none as (Akod & _). unfold service_limit.
  destruct (limit _ _ s) as [[s1 allowed] sendKoD] eqn:E1.
  apply limit_spec in E1 as (O1 & C1 & S1 & L1); [|done].
  destruct (publish_spec addr s1 O1) as (O2 & C2 & A2 & L2). set (s2 := publishClients addr s1) in *.
  assert (staged addr s s2 (Continue tt)) as Hst.
  { split; [done|]. split; [by eapply same_config_trans|].
    by apply (acct_trans addr 0 0 s s1). }
  assert (sv_leap s2 = sv_leap s) as Hl by congruence.
  destruct allowed; cbn [negb]; [by eexists _, _|].
  set (s3 := count addr (fun c => c <| rateLimited := incr (rateLimited c) |>) s2).
  assert (@staged unit addr s s3 (Return None)) as Hst3.
  { apply (staged_trans addr s s2 _ tt); [done|by apply staged_count]. }
  destruct Hst as (_ & (_ & _ & _ & _ & Ckod & Cmp) & _).
  change (h_kod (sv_h s3)) with (h_kod (sv_h s2)). rewrite Ckod.
  destruct (h_kod (sv_h s)); cbn [negb orb]; [|by eexists _, (Return None)].
  destruct sendKoD; cbn [negb orb]; [|by eexists _, (Return None)].
  set (s4 := count addr (fun c => c <| kod := incr (kod c) |>) s3).
  destruct (reply_total env (sv_h s4) pkt receive (e_status env) KissRATE replyKey true None Hk) as [r Er].
  rewrite Er. cbn [mbind option_bind]. eexists _, (Return r). split; [done|].
  split; [|split; [done|]].
  - destruct Hst3 as (O3 & C3 & A3). split; [by apply count_ok|].
    split; [eapply same_config_trans; [exact C3|apply count_config]|].
    by apply (acct_trans addr 1 0 s s3); [|apply count_acct].
  - intros out ->. split; [done|]. rewrite <- Er. symmetry. by apply reply_config.
Qed.

Lemma Respond_current d req id wall mono d' r :
  Respond d req id wall mono = (d', r) -> d_current d' = d_current d.
Proof.
  unfold Respond. destruct (d_keys d !! id) as [kend|]; [|by intros [= <- _]].
  case_goal; [by intros [= <- _]|]. destruct (budget_allow _ _ kend _) as [k2 o1].
  destruct o1; cbn [negb]; [|by intros [= <- _]].
  destruct (budget_allow _ _ (d_global _) _) as [g2 o2]. destruct o2; cbn [negb]; [|by intros [= <- _]].
  destruct (Reply _ _); by intros [= <- _].
Qed.

Lemma Respond_reply d req id wall mono d' m :
  Respond d req id wall mono = (d', Ok m) -> Reply req (served_object d wall) = Ok m.
Proof.
  unfold Respond. destruct (d_keys d !! id) as [kend|]; [|done].
  case_goal; [done|]. destruct (budget_allow _ _ kend _) as [k2 o1].
  destruct o1; cbn [negb]; [|done].
  destruct (budget_allow _ _ (d_global _) _) as [g2 o2]. destruct o2; cbn [negb]; [|done].
  change (served_object _ wall) with (served_object d wall).
  by destruct (Reply _ (served_object d wall)); intros [= _ <-].
Qed.

(** A reply's id and digest come from the request or the object. *)
Lemma Reply_lengths req o r :
  Reply (Some req) o = Ok r -> length (MsgID req) = 16%nat -> length (mf_Digest (mManifest req)) = 32%nat ->
  (forall x, o = Some x -> length (mf_Digest (ob_manifest x)) = 32%nat) ->
  length (MsgID r) = 16%nat /\ length (mf_Digest (mManifest r)) = 32%nat.
Proof.
  unfold Reply. intros H1 H2 H3 H4. destruct (negb (validate req)); [done|].
  destruct (Operation req =? Probe).
  - destruct o as [x|]; injection H1 as <-; (split; [exact H2|]); [exact (H4 x eq_refl)|done].
  - destruct (Operation req =? Get); [|done].
    destruct o as [x|]; [destruct (negb (bool_decide _)) in H1|]; injection H1 as <-; by split.
Qed.

(** The leap extension is a valid field no longer than the request's own. *)
Lemma extend_spec env s request addr mono pkt off replyKey :
  server_ok s -> Forall is_byte request -> (HeaderSize <= off <= length request)%nat ->
  exists s' x, extend env s request addr mono pkt off replyKey = Some (s', x) /\
    staged addr s s' x /\ sv_h s' = sv_h s /\
    match x with
    | Return r => r = None
    | Continue ext => forall m, ext = Some m ->
        validate m = true /\ replyKey <> None /\ (length (encode_field m) <= off - HeaderSize)%nat
    end.
Proof.
  intros Hs Hb Hoff. pose proof adds_outcome as (_ & Amal & _ & _ & _ & _ & Arate & _). unfold extend.
  assert (staged addr s s (Continue (@None Message))) as Hid.
  { split; [done|]. split; [apply same_config_refl|by apply acct_refl]. }
  destruct replyKey as [k|]; [|by eexists _, _]. destruct (sv_leap s) as [d|] eqn:El; [|by eexists _, _].
  case_goal; [|by eexists _, _].
  destruct (DecodeFields (slice HeaderSize off request)) as [[m|]|e] eqn:Ed.
  3: { destruct e; [by eexists _, _| |]; (eexists _, _; split; [done|]; split; [by apply staged_count|done]). }
  2: by eexists _, _.
  destruct (decode_loop_bounds _ _ _ _ _ _ (slice_Forall _ _ _ _ Hb) Ed) as [?|(V & Hlen & Hi & Hg & Ho)]; [done|].
  rewrite length_slice in Hlen by lia.
  destruct (Respond d (Some m) (ID k) (e_leapNow env) mono) as [d' r] eqn:Er.
  pose proof (Respond_current _ _ _ _ _ _ _ Er) as Hcur.
  set (s1 := s <| sv_leap := Some d' |>).
  assert (forall x o, sv_leap s = Some x -> d_current x = Some o -> object_served o) as Hobj by apply Hs.
  assert (forall A (a : A), staged addr s s1 (Continue a)) as Hs1.
  { intros A a. split; [|split; [by repeat split|by apply acct_refl]].
    destruct Hs as [R1 R2 R3 R4]. constructor; try done. cbn. intros d1 o [= <-]. rewrite Hcur. by apply R4. }
  destruct r as [m'|e].
  - eexists _, _. split; [done|]. split; [apply Hs1|]. split; [done|]. intros ? [= <-].
    apply Respond_reply in Er.
    assert (forall x, served_object d (e_leapNow env) = Some x -> object_served x) as Hso.
    { intros x. unfold served_object. destruct (d_current d) as [o|] eqn:Ec; [|done]. case_goal; [done|].
      intros [= <-]. by eapply Hobj. }
    destruct (Reply_ok m _ m' Ho (fun x Hx => os_ok _ (Hso x Hx)) Er) as (Hv & Hfl & _).
    destruct (Reply_lengths _ _ _ Er Hi Hg (fun x Hx => os_digest _ (Hso x Hx))) as [L1 L2].
    split; [done|]. split; [done|]. rewrite (length_encode_field' m' L1 L2 Hv). lia.
  - destruct e as [|rr|]; [| destruct rr |]; (eexists _, _; split; [done|]; split;
      [apply (staged_trans addr s s1 _ tt); [apply Hs1|]; apply staged_count; [apply (Hs1 _ tt)|done]|done]).
Qed.

(** With an encodable extension, or none, the answer is always sent and counted. *)
Lemma answer_spec env s addr receive pkt replyKey ext :
  server_ok s -> status_ok (e_status env) -> (forall k, replyKey = Some k -> length (Secret k) = KeySize) ->
  (forall m, ext = Some m -> validate m = true) ->
  exists s' out, answer env s addr receive pkt replyKey ext = Some (s', Some out) /\
    staged addr s s' (@Return unit (Some out)) /\
    reply env (sv_h s) pkt receive (e_status env) (status_refid (e_status env)) replyKey
      (negb (st_Synced (e_status env))) ext = Some (Some out).
Proof.
  intros Hs Hst Hk Hext. pose proof adds_outcome as (_ & _ & _ & _ & _ & _ & _ & _ & Aserved).
  pose proof adds_none as (_ & Aunsync & _ & _ & Areq). unfold answer. cbn zeta.
  set (s1 := count addr _ s).
  assert (server_ok s1 /\ same_config s s1 /\ acct addr 0 s s1) as (O1 & C1 & A1).
  { split; [by apply count_ok|]. split; [apply count_config|]. apply count_acct, Areq. }
  rewrite (reply_config env (sv_h s) (sv_h s1)) by done.
  destruct (reply_total env (sv_h s) pkt receive (e_status env) (status_refid (e_status env)) replyKey
    (negb (st_Synced (e_status env))) ext Hk) as [r Er].
  destruct r as [out|].
  2: { apply reply_spec in Er; [|by apply status_refid_ok]. destruct Er as (m & -> & Hv).
       by rewrite (Hext m eq_refl) in Hv. }
  rewrite Er. cbn [mbind option_bind].
  set (s2 := count addr (fun c => (c <| served := incr (served c) |>)
               <| lastServed := event_store (lastServed c) receive |>) s1).
  assert (acct addr 1 s s2) as A2.
  { apply (acct_trans addr 0 1 s s1 s2); [exact A1|]. apply (count_acct addr 1), Aserved. }
  assert (server_ok s2 /\ same_config s s2) as [O2 C2] by (split; [by apply count_ok|exact C1]).
  eexists _, out. split; [done|]. split; [|done].
  destruct (st_Synced (e_status env)); cbn [negb].
  - by split.
  - split; [by apply count_ok|]. split; [exact C2|]. apply (acct_trans addr 1 0 s s2); [done|].
    by apply count_acct.
Qed.

(** What a response can be: a crypto-NAK for a trailer that failed, a RATE
    kiss, or the time, the last two signed with the verified key if there is
    one. *)
Inductive response (env : Env) (h : Handler) (request : list Z) (pkt : Packet) (mac : option MAC) (off : nat)
  (required : Z) (receive : time) (out : list Z) : Prop :=
| ResponseNAK :
    verify h request off mac = Some (None, false) ->
    cryptoNAK env h pkt request mac receive = Some (Some out) ->
    response env h request pkt mac off required receive out
| ResponseKiss (key : option Key) :
    verify h request off mac = Some (key, true) ->
    (required <> 0 -> exists k, key = Some k /\ ID k = required) ->
    h_kod h = true ->
    reply env h pkt receive (e_status env) KissRATE key true None = Some (Some out) ->
    response env h request pkt mac off required receive out
| ResponseTime (key : option Key) (ext : option Message) :
    verify h request off mac = Some (key, true) ->
    (required <> 0 -> exists k, key = Some k /\ ID k = required) ->
    (forall m, ext = Some m -> validate m = true /\ key <> None /\ (length (encode_field m) <= off - HeaderSize)%nat) ->
    reply env h pkt receive (e_status env) (status_refid (e_status env)) key
      (negb (st_Synced (e_status env))) ext = Some (Some out) ->
    response env h request pkt mac off required receive out.

(** [Handle] returns, counts one outcome, and answers only a request that
    passed every check. *)
Lemma Handle_spec env s request client receive mono :
  server_ok s -> status_ok (e_status env) -> Forall is_byte request ->
  let addr := Unmap (ap_addr client) in
  exists s' r, Handle env s request client receive mono = Some (s', r) /\
    server_ok s' /\ same_config s s' /\ acct addr 1 s s' /\
    (forall out, r = Some out -> exists pkt mac off,
       Decode request = Ok (pkt, mac, off) /\ isClientRequest pkt = true /\ martianSource client = false /\
       permitted (sv_h s) addr = true /\
       response env (sv_h s) request pkt mac off (requiredKey (sv_h s) addr) receive out).
Proof.
  intros Hs Hst Hb addr. unfold Handle. fold addr.
  destruct (screen_spec s request client Hs) as (s1 & x1 & E1 & G1 & P1). fold addr in G1, P1.
  rewrite E1. destruct x1 as [r|[[pkt mac] off]]; cbn [stage_bind mbind option_bind].
  { destruct G1 as (O1 & C1 & A1). subst r. by eexists s1, None. }
  destruct P1 as (-> & Hd & Hc & Hm & Hp).
  destruct (Decode_accepts request pkt mac off Hb Hd) as (_ & _ & _ & Hoff & _).
  destruct (authenticate_spec env s request addr receive mono pkt mac off Hs) as (s2 & x2 & E2 & G2 & L2 & P2).
  rewrite E2. destruct x2 as [r|key]; cbn [stage_bind mbind option_bind].
  { destruct G2 as (O2 & C2 & A2). eexists s2, r. split; [done|]. repeat (split; [done|]).
    intros out ->. destruct (P2 out eq_refl) as [N1 N2]. exists pkt, mac, off. repeat (split; [done|]).
    by apply ResponseNAK. }
  destruct P2 as [Pk Pr].
  assert (forall k, key = Some k -> length (Secret k) = KeySize) as Hlen.
  { intros k ->.
    destruct (verify_spec (sv_h s) request off mac (sv_ring _ Hs)) as (k' & ok & Ev & _ & Hk).
    rewrite Pk in Ev. injection Ev as <- <-. apply (Hk k eq_refl). }
  pose proof G2 as (O2 & C2 & A2).
  assert (h_kod (sv_h s2) = h_kod (sv_h s) /\ h_minPoll (sv_h s2) = h_minPoll (sv_h s)) as [K2 M2] by apply C2.
  destruct (service_limit_spec env s2 addr receive mono pkt key O2 Hlen) as (s3 & x3 & E3 & G3 & L3 & P3).
  rewrite E3. pose proof (staged_trans _ _ _ _ _ _ G2 G3) as G3'.
  destruct x3 as [r|[]]; cbn [stage_bind mbind option_bind].
  { destruct G3' as (O3 & C3 & A3). eexists s3, r. split; [done|]. repeat (split; [done|]).
    intros out ->. destruct (P3 out eq_refl) as [N1 N2]. exists pkt, mac, off. repeat (split; [done|]).
    apply (ResponseKiss _ _ _ _ _ _ _ _ _ key); try done; [congruence|].
    by rewrite <- (reply_config env (sv_h s) (sv_h s2)). }
  pose proof G3 as (O3 & C3 & A3).
  assert (h_minPoll (sv_h s3) = h_minPoll (sv_h s2)) as M3 by apply C3.
  destruct (extend_spec env s3 request addr mono pkt off key O3 Hb Hoff) as (s4 & x4 & E4 & G4 & H4 & P4).
  rewrite E4. pose proof (staged_trans _ _ _ _ _ _ G3' G4) as G4'.
  destruct x4 as [r|ext]; cbn [stage_bind mbind option_bind].
  { subst r. destruct G4' as (? & ? & ?). by eexists s4, None. }
  destruct G4 as (O4 & _).
  destruct (answer_spec env s4 addr receive pkt key ext O4 Hst Hlen (fun m Hm => proj1 (P4 m Hm)))
    as (s5 & out & E5 & G5 & R5).
  rewrite E5. cbn [mbind option_bind].
  destruct (staged_trans _ _ _ _ _ _ G4' G5) as (O5 & C5 & A5).
  eexists s5, (Some out). split; [done|]. repeat (split; [done|]).
  intros ? [= <-]. exists pkt, mac, off. repeat (split; [done|]).
  apply (ResponseTime _ _ _ _ _ _ _ _ _ key ext); try done.
  by rewrite <- (reply_config env (sv_h s) (sv_h s4)) by (rewrite H4; congruence).
Qed.

(** A response is no longer than what provoked it. *)
Lemma response_length env h request pkt mac off required receive out :
  ring_ok (h_keys h) -> status_ok (e_status env) -> Forall is_byte request ->
  Decode request = Ok (pkt, mac, off) ->
  response env h request pkt mac off required receive out -> (length out <= length request)%nat.
Proof.
  intros Hr Hst Hb Hd Hresp. destruct (Decode_accepts request pkt mac off Hb Hd) as (_ & _ & _ & Hoff & Hmac).
  unfold HeaderSize in *.
  assert (forall k, verify h request off mac = Some (Some k, true) -> (off + 20 <= length request)%nat) as Hsigned.
  { intros k Ev. destruct (verify_spec h request off mac Hr) as (k' & ok & Ev' & _ & Hk).
    rewrite Ev in Ev'. injection Ev' as <- <-. destruct (Hk k eq_refl) as (_ & _ & m & -> & _ & _ & Hl & _).
    destruct Hmac as [Hm _]. apply (f_equal length) in Hm.
    rewrite length_drop, length_app, length_be_encode, Hl in Hm. lia. }
  pose proof (proj1 (status_refid_ok _ Hst)) as Href.
  destruct Hresp as [_ Hn|key Hk _ _ Hs|key ext Hk _ He Hs].
  - unfold cryptoNAK in Hn. destruct mac as [m|]; [|done]. case_in Hn; [done|].
    destruct (reply env h pkt receive _ _ None _ None) as [[o|]|] eqn:E; [|done|done]. cbn in Hn.
    injection Hn as <-. apply reply_length in E; [|done]. cbn [extension_bytes length] in E.
    rewrite length_app. cbn [length be_encode]. unfold HeaderSize, CryptoNAKSize, cryptoNAKSize in *.
    repeat bool_step. cbn [length app]. lia.
  - apply reply_length in Hs; [|apply KissRATE_ok]. cbn [extension_bytes length] in Hs.
    destruct key as [k|]; [specialize (Hsigned k Hk)|]; lia.
  - apply reply_length in Hs; [|done]. destruct ext as [m|]; cbn [extension_bytes length] in Hs.
    + destruct (He m eq_refl) as (_ & Hnn & Hle). destruct key as [k|]; [|done].
      specialize (Hsigned k Hk). unfold HeaderSize in Hle. lia.
    + destruct key as [k|]; [specialize (Hsigned k Hk)|]; lia.
Qed.

End Stages.

(** ** The handler's guarantees *)

(** Claim C34: the server is not an amplifier and cannot be crashed.  For any
    datagram from any address, with a loaded key ring, [Handle] returns (no
    panic), keeps the server's invariant and its configuration, and any
    response is no longer than the request that provoked it. *)
Theorem server_safe env s request client receive mono :
  server_ok s -> status_ok (e_status env) -> Forall is_byte request ->
  exists s' r, Handle env s request client receive mono = Some (s', r) /\
    server_ok s' /\ same_config s s' /\
    (forall out, r = Some out -> (length out <= length request)%nat).
Proof.
  intros Hs Hst Hb. destruct (Handle_spec env s request client receive mono Hs Hst Hb) as (s' & r & E & O & C & _ & R).
  exists s', r. repeat (split; [done|]). intros out ->. destruct (R out eq_refl) as (pkt & mac & off & Hd & _ & _ & _ & Hr).
  by eapply response_length; [apply (sv_ring _ Hs)| | |exact Hd|exact Hr].
Qed.

(** One outcome in one family is one more request in the total. *)
Lemma acct_total addr n s s' :
  acct addr n s s' ->
  Requests (Total (Snapshot (sv_stats s'))) = u64 (Requests (Total (Snapshot (sv_stats s))) + n).
Proof.
  intros (H1 & H2 & _). rewrite !requests_total. unfold requests, family, other_family in *.
  unfold addu. rewrite u64_add_l. unfold Snapshot. cbn [IPv4 IPv6].
  destruct (Is4 (Unmap addr)); rewrite H1, H2; [rewrite u64_add_l|rewrite u64_add_r]; f_equal; lia.
Qed.

(** Claim C35: who is answered.  A response is sent only to a decodable client
    request (mode 3, or mode 0 of version 1: never the control and private
    modes 6 and 7) from an address that can receive it and that the access
    lists permit.  Where the configuration requires a key for the address, the
    response is either signed with that key, whose MAC on the request
    verified, or the 52-byte crypto-NAK for a trailer that failed to. *)
Theorem server_access env s request client receive mono s' out :
  server_ok s -> status_ok (e_status env) -> Forall is_byte request ->
  Handle env s request client receive mono = Some (s', Some out) ->
  let addr := Unmap (ap_addr client) in
  martianSource client = false /\ matches (h_deny (sv_h s)) addr = false /\ matches (h_allow (sv_h s)) addr = true /\
  exists pkt mac off, Decode request = Ok (pkt, mac, off) /\
    Mode pkt <> ModeControl /\ Mode pkt <> ModePrivate /\ isClientRequest pkt = true /\
    (requiredKey (sv_h s) addr <> 0 ->
       (exists k body, ID k = requiredKey (sv_h s) addr /\ h_keys (sv_h s) !! ID k = Some k /\
          Key_Verify k (take off request) mac = Some true /\ Key_Append k body = Some out) \/
       (length out = 52%nat /\ mac <> None /\ verify (sv_h s) request off mac = Some (None, false))).
Proof.
  intros Hs Hst Hb E addr.
  destruct (Handle_spec env s request client receive mono Hs Hst Hb) as (s1 & r & E1 & _ & _ & _ & R).
  rewrite E in E1. injection E1 as <- <-. destruct (R out eq_refl) as (pkt & mac & off & Hd & Hc & Hm & Hp & Hr).
  fold addr in Hp, Hr. split; [done|]. unfold permitted in Hp.
  destruct (matches (h_deny (sv_h s)) addr) eqn:Edeny; [done|]. split; [done|]. split; [done|].
  exists pkt, mac, off. split; [done|].
  assert (Mode pkt = 3 \/ Mode pkt = 0) as Hmode.
  { unfold isClientRequest in Hc. apply orb_true_iff in Hc as [Hc|Hc]; repeat bool_step; auto. }
  split; [unfold ModeControl; lia|]. split; [unfold ModePrivate; lia|]. split; [done|]. intros Hreq.
  assert (forall key refID special ext, length refID = 4%nat ->
    verify (sv_h s) request off mac = Some (key, true) ->
    (requiredKey (sv_h s) addr <> 0 -> exists k, key = Some k /\ ID k = requiredKey (sv_h s) addr) ->
    reply env (sv_h s) pkt receive (e_status env) refID key special ext = Some (Some out) ->
    exists k body, ID k = requiredKey (sv_h s) addr /\ h_keys (sv_h s) !! ID k = Some k /\
      Key_Verify k (take off request) mac = Some true /\ Key_Append k body = Some out) as Hsigned.
  { intros key refID special ext Hl Hk Hr' Hs'. destruct (Hr' Hreq) as (k & -> & Hid).
    destruct (verify_spec (sv_h s) request off mac (sv_ring _ Hs)) as (k' & ok & Ev & _ & Hkk).
    rewrite Hk in Ev. injection Ev as <- <-.
    destruct (Hkk k eq_refl) as (_ & _ & m & _ & Hin & Hkid & _ & Hv).
    apply reply_spec in Hs'; [|done]. exists k. eexists. split; [done|]. split; [by rewrite <- Hkid|]. by split. }
  pose proof (proj1 (status_refid_ok _ Hst)) as Href.
  destruct Hr as [Hv Hn|key Hk Hrq _ Hrep|key ext Hk Hrq _ Hrep].
  - right. unfold cryptoNAK in Hn. destruct mac as [m|]; [|done]. case_in Hn; [done|].
    destruct (reply env (sv_h s) pkt receive _ _ None _ None) as [[o|]|] eqn:Er; [|done|done]. cbn in Hn.
    injection Hn as <-. apply reply_length in Er; [|done]. cbn [extension_bytes length] in Er.
    rewrite length_app. cbn [length]. split; [lia|done].
  - left. by eapply Hsigned; [apply KissRATE_ok| | |].
  - left. by eapply Hsigned.
Qed.

(** What an answer says.  The header of any response decodes to a
    server packet of the request's version that echoes the request's transmit
    timestamp as its origin and carries the receive time and the time of
    sending; a server that is not synchronized never says otherwise: its
    answer, and any RATE kiss, has the unsynchronized leap indicator, and a
    stratum of 16 or 0. *)
Theorem server_reply env s request client receive mono s' out pkt mac off :
  server_ok s -> status_ok (e_status env) -> Forall is_byte request ->
  Handle env s request client receive mono = Some (s', Some out) ->
  Decode request = Ok (pkt, mac, off) ->
  let p := decode_header out in
  Mode p = ModeServer /\ pVersion p = pVersion pkt /\ OriginTime p = TransmitTime pkt /\
  ReceiveTime p = FromTime receive /\ TransmitTime p = FromTime (e_sendNow env) /\
  (st_Synced (e_status env) = false -> Leap p = LeapUnsync /\ (Stratum p = 16 \/ Stratum p = 0)) /\
  (Leap p <> LeapUnsync ->
     Leap p = st_Leap (e_status env) /\ Stratum p = st_Stratum (e_status env) /\
     ReferenceID p = st_ReferenceID (e_status env) /\ st_Synced (e_status env) = true).
Proof.
  intros Hs Hst Hb E Hd p.
  destruct (Handle_spec env s request client receive mono Hs Hst Hb) as (s1 & r & E1 & _ & _ & _ & R).
  rewrite E in E1. injection E1 as <- <-. destruct (R out eq_refl) as (pkt' & mac' & off' & Hd' & _ & _ & _ & Hr).
  rewrite Hd in Hd'. injection Hd' as <- <- <-.
  destruct (Decode_accepts request pkt mac off Hb Hd) as (_ & Hok & _).
  destruct (status_refid_ok _ Hst) as [Hl1 Hb1]. destruct KissRATE_ok as [Hl2 Hb2].
  assert (forall refID special key ext o rest, length refID = 4%nat -> Forall is_byte refID ->
    reply env (sv_h s) pkt receive (e_status env) refID key special ext = Some (Some o) ->
    decode_header (o ++ rest) = sent_packet env (sv_h s) pkt receive (e_status env) refID special) as Hhdr.
  { intros refID special key ext o rest Hl Hbs Hrep. apply reply_spec in Hrep; [|done]. cbn zeta in Hrep.
    pose proof (sent_packet_ok env (sv_h s) pkt receive _ refID special Hst Hok (sv_minPoll _ Hs) Hl Hbs) as Hp.
    destruct key as [k|].
    - unfold Key_Append in Hrep. destruct (CMAC _ _) as [d|]; [|done]. cbn [mbind option_bind] in Hrep.
      assert (o = (Marshal (sent_packet env (sv_h s) pkt receive (e_status env) refID special) ++ extension_bytes ext)
        ++ be_encode 4 (ID k) ++ d) as -> by congruence.
      rewrite <- !app_assoc. by apply decode_header_Marshal.
    - rewrite Hrep, <- app_assoc. by apply decode_header_Marshal. }
  assert (exists refID special, p = sent_packet env (sv_h s) pkt receive (e_status env) refID special /\
    (refID = KissRATE /\ special = true \/
     refID = status_refid (e_status env) /\ special = negb (st_Synced (e_status env)))) as (refID & special & -> & Hcase).
  { destruct Hr as [_ Hn|key _ _ _ Hrep|key ext _ _ _ Hrep].
    - unfold cryptoNAK in Hn. destruct mac as [m|]; [|done]. case_in Hn; [done|].
      destruct (reply env (sv_h s) pkt receive _ _ None _ None) as [[o|]|] eqn:Er; [|done|done].
      cbn [mbind option_bind] in Hn. assert (out = o ++ be_encode 4 0) as Eo by congruence.
      eexists _, _. split; [|right; done]. unfold p. rewrite Eo. by eapply Hhdr.
    - eexists _, _. split; [|left; done]. unfold p. rewrite <- (app_nil_r out). by eapply Hhdr.
    - eexists _, _. split; [|right; done]. unfold p. rewrite <- (app_nil_r out). by eapply Hhdr. }
  repeat (split; [done|]). split.
  - intros Hsync. rewrite Hsync in Hcase. unfold sent_packet, reply_packet.
    cbn [Leap Stratum set]. destruct Hcase as [[-> ->]|[-> ->]]; (split; [done|]); cbn [negb]; case_goal; auto.
  - unfold sent_packet, reply_packet. cbn [Leap Stratum ReferenceID set].
    destruct Hcase as [[-> ->]|[-> ->]]; [done|]. unfold status_refid.
    destruct (st_Synced (e_status env)); [done|done].
Qed.

(** ** Construction *)

(** A handler the constructor accepts satisfies the invariant. *)
Lemma NewHandler_ok cfg h stats leap :
  NewHandler cfg = Ok h -> ring_ok (cfg_Keys cfg) -> in_s 8 (cfg_MinPoll cfg) ->
  (forall d o, leap = Some d -> d_current d = Some o -> object_served o) ->
  server_ok (mkServer h stats leap).
Proof.
  unfold NewHandler. destruct (config_errors cfg); [|done]. intros [= <-] Hr Hp Ho.
  constructor; cbn; try done; [|apply newRateLimiter_ok].
  case_goal; [unfold in_s, defaultMinPoll; lia|done].
Qed.

Definition rule_of (e : Prefix * Z) : keyRule := mkKeyRule (Masked (fst e)) (snd e).

Lemma required_of_sorted rules addr :
  StronglySorted (not_above rule_less) rules ->
  match required_of rules addr with
  | 0 => (forall r, r ∈ rules -> Contains (kr_prefix r) addr = false) \/
         (exists r, r ∈ rules /\ Contains (kr_prefix r) addr = true /\ kr_keyID r = 0)
  | id => exists r, r ∈ rules /\ Contains (kr_prefix r) addr = true /\ kr_keyID r = id /\
      forall r', r' ∈ rules -> Contains (kr_prefix r') addr = true ->
        p_bits (kr_prefix r') <= p_bits (kr_prefix r)
  end.
Proof.
  intros Hs. induction Hs as [|r rules Hs IH Hr]; cbn [required_of].
  - left. intros r Hr. by apply not_elem_of_nil in Hr.
  - destruct (Contains (kr_prefix r) addr) eqn:E.
    + assert (forall r', r' ∈ r :: rules -> Contains (kr_prefix r') addr = true ->
        p_bits (kr_prefix r') <= p_bits (kr_prefix r)) as Hmax.
      { intros r' Hin _. apply elem_of_cons in Hin as [->|Hin]; [done|].
        rewrite Forall_forall in Hr. specialize (Hr r' Hin). unfold not_above, rule_less in Hr.
        by apply Z.ltb_ge in Hr. }
      destruct (kr_keyID r) eqn:Ek; [right|..]; exists r; repeat split; (done || by left).
    + destruct (required_of rules addr) eqn:Eq.
      * destruct IH as [IH|(r' & Hin & ?)].
        -- left. intros r' Hin. apply elem_of_cons in Hin as [->|Hin]; [done|by apply IH].
        -- right. exists r'. split; [by right|done].
      * destruct IH as (r' & Hin & Hc & Hi & Hmax). exists r'. repeat split; try done; [by right|].
        intros r'' Hin' Hc'. apply elem_of_cons in Hin' as [->|Hin']; [congruence|by apply Hmax].
      * destruct IH as (r' & Hin & Hc & Hi & Hmax). exists r'. repeat split; try done; [by right|].
        intros r'' Hin' Hc'. apply elem_of_cons in Hin' as [->|Hin']; [congruence|by apply Hmax].
Qed.

(** The most specific rule that matches decides, whatever order the map was
    iterated in. *)
Lemma required_key_specific cfg h addr :
  NewHandler cfg = Ok h -> requiredKey h addr <> 0 ->
  exists e, e ∈ cfg_RequireKey cfg /\ Contains (Masked (fst e)) addr = true /\ snd e = requiredKey h addr /\
    forall e', e' ∈ cfg_RequireKey cfg -> Contains (Masked (fst e')) addr = true ->
      p_bits (Masked (fst e')) <= p_bits (Masked (fst e)).
Proof.
  unfold NewHandler. destruct (config_errors cfg); [|done]. intros [= <-]. unfold requiredKey.
  cbn [h_requireKey]. set (rules := sort_stable _ _).
  assert (StronglySorted (not_above rule_less) rules) as Hs.
  { apply (sort_stable_sorted rule_less (fun _ => True)).
    - intros x y _ _. unfold rule_less. rewrite Z.ltb_lt, Z.ltb_ge. lia.
    - intros x y z _ _ _. unfold rule_less. rewrite !Z.ltb_ge. lia.
    - by apply Forall_true. }
  pose proof (required_of_sorted rules addr Hs) as H. intros Hne.
  assert (forall r, r ∈ rules <-> r ∈ rule_of <$> cfg_RequireKey cfg) as Hin.
  { intros r. unfold rules. apply elem_of_sort_stable. }
  assert (exists r, r ∈ rules /\ Contains (kr_prefix r) addr = true /\ kr_keyID r = required_of rules addr /\
      forall r', r' ∈ rules -> Contains (kr_prefix r') addr = true ->
        p_bits (kr_prefix r') <= p_bits (kr_prefix r)) as (r & Hr & Hc & Hi & Hmax).
  { destruct (required_of rules addr); [done|exact H|exact H]. }
  apply Hin in Hr. apply list_elem_of_fmap in Hr as (e & -> & He). exists e. repeat split; try done.
  intros e' He' Hc'. apply (Hmax (rule_of e')); [|done]. apply Hin, list_elem_of_fmap. eauto.
Qed.

(** ** An example server *)

Definition example_config : Config := {|
  cfg_Allow := [mkPrefix (Addr4 0) 0];
  cfg_Deny := [mkPrefix (Addr4 167772160) 8];
  cfg_RequireKey := [(mkPrefix (Addr4 3221225984) 24, 9)];
  cfg_Keys := {[ 9 := example_key ]};
  cfg_RateLimitPPS := of_Z 1; cfg_RateBurst := of_Z 8; cfg_MaxClients := 0;
  cfg_RateLimitV6Prefix := 64; cfg_KoD := true; cfg_MinPoll := 0;
  cfg_hasStatus := true; cfg_hasNow := true |}.

Definition example_handler : Handler :=
  match NewHandler example_config with
  | Ok h => h
  | Err _ => mkHandler [] [] [] ∅ (newRateLimiter (of_Z 1) (of_Z 1) 1 64) false 0 0
  end.

Definition example_server : Server :=
  mkServer example_handler (mkStats zeroCounters zeroCounters) (Some example_distributor).

Lemma example_distributor_object d o :
  Some example_distributor = Some d -> d_current d = Some o -> object_served o.
Proof.
  intros Hd Ho. apply (inj Some) in Hd as <-.
  assert (Some example_object = Some o) as E by exact Ho. apply (inj Some) in E as <-.
  split; [apply example_object_ok|vm_compute; reflexivity].
Qed.

Lemma example_server_ok : server_ok example_server.
Proof.
  apply (NewHandler_ok example_config).
  - vm_compute. reflexivity.
  - intros id k. cbn [cfg_Keys example_config]. unfold Keys. rewrite lookup_singleton_Some. intros [<- <-].
    repeat split; try done. repeat constructor; cbn; lia.
  - unfold in_s. cbn. lia.
  - apply example_distributor_object.
Qed.

Definition example_status : SystemStatus :=
  mkSystemStatus true 0 2 (-20) (lit 1 100) (lit 1 50) [192; 0; 2; 1] (unixTime 1717200000 0).
Definition example_env : Env := mkEnv example_status (unixTime 1717200100 0) (unixTime 1717200101 0).

Lemma example_status_ok : status_ok example_status.
Proof. constructor; cbn; unfold in_u, in_s; [lia|lia|lia|done|]. repeat constructor; cbn; lia. Qed.

(** A request signed with key 9, from a host that must use it. *)
Definition example_request : list Z := default [] (Key_Append example_key (Marshal example_packet)).
Definition example_client : AddrPort := mkAddrPort (Addr4 3221225985) 123.

Lemma example_request_bytes : Forall is_byte example_request.
Proof. vm_compute. repeat constructor; discriminate. Qed.

(** Evaluation of the example. *)
Example example_answered :
  match Handle example_env example_server example_request example_client (unixTime 1717200100 5) 0 with
  | Some (s, Some out) =>
      (length out =? 68)%nat && (served (v4 (sv_stats s)) =? 1) && (clients (v4 (sv_stats s)) =? 1)
  | _ => false
  end = true.
Proof. vm_compute. reflexivity. Qed.

Lemma example_response :
  exists s' out, Handle example_env example_server example_request example_client (unixTime 1717200100 5) 0
    = Some (s', Some out).
Proof.
  pose proof example_answered as H.
  destruct (Handle example_env example_server example_request example_client (unixTime 1717200100 5) 0)
    as [[s [out|]]|]; [eauto|discriminate H|discriminate H].
Qed.

Lemma example_decodes : exists pkt mac off, Decode example_request = Ok (pkt, mac, off) /\ TransmitTime pkt = 77.
Proof. vm_compute. eauto. Qed.

Lemma server_safe_witness :
  exists s' r, Handle example_env example_server example_request example_client (unixTime 1717200100 5) 0
    = Some (s', r) /\ server_ok s' /\ same_config example_server s' /\
    (forall out, r = Some out -> (length out <= length example_request)%nat).
Proof.
  apply (server_safe example_env example_server example_request);
    [apply example_server_ok|apply example_status_ok|apply example_request_bytes].
Defined.

Lemma server_access_witness :
  exists s' out, Handle example_env example_server example_request example_client (unixTime 1717200100 5) 0
    = Some (s', Some out) /\ martianSource example_client = false /\
    matches (h_deny (sv_h example_server)) (Unmap (ap_addr example_client)) = false.
Proof.
  destruct example_response as (s' & out & E). exists s', out. split; [exact E|].
  destruct (server_access example_env example_server example_request example_client (unixTime 1717200100 5) 0 s' out
    example_server_ok example_status_ok example_request_bytes E) as (H1 & H2 & _).
  split; [exact H1|exact H2].
Defined.

Lemma server_reply_witness :
  exists s' out, Handle example_env example_server example_request example_client (unixTime 1717200100 5) 0
    = Some (s', Some out) /\ OriginTime (decode_header out) = 77 /\ Mode (decode_header out) = ModeServer.
Proof.
  destruct example_response as (s' & out & E). destruct example_decodes as (pkt & mac & off & Hd & Ht).
  exists s', out. split; [exact E|].
  destruct (server_reply example_env example_server example_request example_client (unixTime 1717200100 5) 0 s' out
    pkt mac off example_server_ok example_status_ok example_request_bytes E Hd) as (H1 & _ & H2 & _).
  split; [rewrite H2; exact Ht|exact H1].
Defined.
