(* ===== verification/Listener.v ===== *)
(** * internal/server/listener.go, broadcast.go: the UDP listeners

    The body of the receive loop of one listener, the cache of the host's
    directed broadcast addresses, the kernel's drop counter, and the receive
    buffer negotiation.  What the socket layer reports about a datagram (its
    flags and parsed control messages) is the [delivery] record; the system
    calls themselves are not modelled.  A [Service] is the set of listeners,
    which share the statistics and the leap distributor. *)

From stdpp Require Import base list gmap numbers.
From Stdlib Require Import Lia ZArith.
From S2P Require Import Prelude Float64 GoTime NtpTime NtpPacket Netip RateLimit Keys Auth LeapTable LeapWire Distributor ServerStats Responder.

Local Open Scope Z_scope.

Definition MaxPacketSize : nat := 1500.

(** ** Directed broadcast addresses *)

Definition broadcastRefresh : duration := Minute.

(** An interface address: a network with its address and mask bytes, or
    something else. *)
Inductive IfAddr : Type :=
| IPNet (ip mask : list Z)
| OtherAddr.

(** [IP.To4]: the 4-byte form, or none. *)
Definition To4 (ip : list Z) : option (list Z) :=
  if (length ip =? 4)%nat then Some ip
  else if (length ip =? 16)%nat && forallb (fun b => b =? 0) (take 10 ip)
          && (nth 10 ip 0 =? 255) && (nth 11 ip 0 =? 255)
  then Some (drop 12 ip) else None.

(** The leading ones of a byte that is a run of ones then zeros, or none. *)
Definition byte_ones (b : Z) : option Z :=
  match List.find (fun k => b =? 256 - 2 ^ (8 - k)) [0; 1; 2; 3; 4; 5; 6; 7; 8] with
  | Some k => Some k
  | None => None
  end.

(** [Mask.Size]: the ones of a canonical mask and its width; (0, 0) otherwise. *)
Fixpoint mask_ones (m : list Z) : option Z :=
  match m with
  | [] => Some 0
  | b :: rest =>
      if b =? 255 then n ← mask_ones rest; Some (8 + n)
      else if forallb (fun x => x =? 0) rest then byte_ones b else None
  end.

Definition mask_size (m : list Z) : Z * Z :=
  match mask_ones m with Some n => (n, 8 * Z.of_nat (length m)) | None => (0, 0) end.

(** The broadcast address of one interface address, if it has one. *)
Definition broadcast_of (a : IfAddr) : option Addr :=
  match a with
  | OtherAddr => None
  | IPNet ip mask =>
      match To4 ip with
      | None => None
      | Some ip4 =>
          if negb (length mask =? 4)%nat then None
          else
            let '(ones, bits) := mask_size mask in
            if negb (bits =? 32) || (31 <=? ones) then None
            else Some (Addr4 (be_decode (zip_with (fun i m => Z.lor i (255 - m)) ip4 mask)))
      end
  end.

Record localBroadcasts : Type := mkLocalBroadcasts {
  lb_addrs : gset Addr;
  lb_refreshed : time;
  lb_haveOnce : bool
}.

Definition newLocalBroadcasts : localBroadcasts := mkLocalBroadcasts ∅ zeroTime false.

(** [isBroadcast]; [enumerate] is what the interface lookup would return, read
    only when the cache is stale. *)
Definition isBroadcast (b : localBroadcasts) (enumerate : option (list IfAddr)) (dst : Addr) (now : time)
  : localBroadcasts * bool * bool :=
  let dst := Unmap dst in
  if negb (Is4 dst) then (b, false, true)
  else if lb_haveOnce b && (Sub now (lb_refreshed b) <? broadcastRefresh)
  then (b, bool_decide (dst ∈ lb_addrs b), true)
  else
    match enumerate with
    | None => if lb_haveOnce b then (b, bool_decide (dst ∈ lb_addrs b), true) else (b, false, false)
    | Some addrs =>
        let set := list_to_set (omap broadcast_of addrs) in
        (mkLocalBroadcasts set now true, bool_decide (dst ∈ set), true)
    end.

(** ** The receive buffer *)

Definition minRecvBuffer : Z := 65536.

(** What the kernel says to a size: granted, refused for capacity (ENOBUFS or
    EINVAL), or another error. *)
Inductive SetResult : Type := Granted | Refused | OtherError.

(** The loop of [setReadBuffer]: the sizes tried, in order, and whether the
    last was granted. *)
Fixpoint set_read_buffer (fuel : nat) (kernel : Z -> SetResult) (size : Z) : option (list Z * bool) :=
  match fuel with
  | O => None
  | S fuel =>
      let size := if size <? minRecvBuffer then minRecvBuffer else size in
      match kernel size with
      | Granted => Some ([size], true)
      | OtherError => Some ([size], false)
      | Refused =>
          if size =? minRecvBuffer then Some ([size], false)
          else '(tried, ok) ← set_read_buffer fuel kernel (Z.quot size 2); Some (size :: tried, ok)
      end
  end.

Definition setReadBuffer (kernel : Z -> SetResult) (want : Z) : option (list Z * bool) :=
  set_read_buffer (Z.to_nat (Z.log2 want) + 2) kernel want.

(** ** The receive loop *)

(** What one read of the socket reports. *)
Record delivery : Type := mkDelivery {
  dl_data : list Z;              (* buf[:n] *)
  dl_from : AddrPort;
  dl_truncated : bool;           (* MSG_TRUNC *)
  dl_martianFlags : bool;        (* martianReceiveFlags *)
  dl_timestamp : option time;    (* sockts.Parse *)
  dl_overflow : option Z;        (* parseOverflow, a uint32 *)
  dl_dst : Addr;                 (* destination *)
  dl_martianDst : bool;
  dl_interfaces : option (list IfAddr)
}.

Record udpListener : Type := mkListener {
  l_overflow : Z;
  l_haveOverflow : bool;
  l_broadcasts : localBroadcasts
}.

#[export] Instance udpListener_eta : Eta udpListener := fun l =>
  mkListener (l_overflow l) (l_haveOverflow l) (l_broadcasts l).

Definition overflowDelta (previous : Z) (seen : bool) (current : Z) : Z :=
  if seen then u32 (current - previous) else current.

(** [recordOverflow]. *)
Definition recordOverflow (addr : Addr) (overflow : option Z) (l : udpListener) (s : Server) : udpListener * Server :=
  match overflow with
  | None => (l, s)
  | Some got =>
      let delta := overflowDelta (l_overflow l) (l_haveOverflow l) got in
      let s := if negb (delta =? 0)
               then count addr (fun c => c <| kernelDrops := u64 (kernelDrops c + delta) |>) s else s in
      ((l <| l_overflow := got |>) <| l_haveOverflow := true |>, s)
  end.

Section Serve.
Context `{BlockCipher}.

(** The body of the loop of [serve], after a successful read; [now] is the
    handler's clock and [mono] the monotonic readings. *)
Definition serve_one (env : Env) (now mono : time) (d : delivery) (l : udpListener) (s : Server)
  : option (udpListener * Server * option (list Z)) :=
  let addr := ap_addr (dl_from d) in
  let '(l, s) := recordOverflow addr (dl_overflow d) l s in
  let isMartian := count addr (fun c => c <| martian := incr (martian c) |>) in
  if dl_truncated d || (MaxPacketSize <? length (dl_data d))%nat then
    Some (l, count addr (fun c => c <| oversize := incr (oversize c) |>) s, None)
  else if dl_martianFlags d then Some (l, isMartian s, None)
  else
    let '(received, s) :=
      match dl_timestamp d with
      | Some ts => (ts, s)
      | None => (now, count addr (fun c => c <| missingKernelTS := incr (missingKernelTS c) |>) s)
      end in
    if dl_martianDst d || martianDestination (dl_dst d) then Some (l, isMartian s, None)
    else
      let '(b, bcast, known) := isBroadcast (l_broadcasts l) (dl_interfaces d) (dl_dst d) mono in
      let l := l <| l_broadcasts := b |> in
      if bcast : bool then Some (l, isMartian s, None)
      else
        '(s, response) ← Handle env s (dl_data d) (dl_from d) received mono;
        Some (l, s, response).

End Serve.

(** The listeners of the service and what they share. *)
Record Service : Type := mkService {
  svc_listeners : list (Handler * udpListener);
  svc_stats : Stats;
  svc_leap : option Distributor
}.

(** A datagram on listener [i]: the listener's goroutine runs the body. *)
Record event : Type := mkEvent {
  ev_listener : nat;
  ev_env : Env;
  ev_now : time;
  ev_mono : time;
  ev_delivery : delivery
}.

Definition service_step (v : Service) (e : event) : option (Service * option (list Z)) :=
  match svc_listeners v !! ev_listener e with
  | None => Some (v, None)
  | Some (h, l) =>
      '(l', s', response) ← serve_one (ev_env e) (ev_now e) (ev_mono e) (ev_delivery e) l
                               (mkServer h (svc_stats v) (svc_leap v));
      Some (mkService (<[ev_listener e := (sv_h s', l')]> (svc_listeners v)) (sv_stats s') (sv_leap s'), response)
  end.

Definition service_run (v : Service) (es : list event) : option Service :=
  fold_left (fun o e => v ← o; fst <$> service_step v e) es (Some v).

(** ** One datagram *)

Lemma Unmap_idem a : Unmap (Unmap a) = Unmap a.
Proof. destruct a as [| |a z]; [done..|]. cbn. destruct (Z.shiftr a 32 =? 65535) eqn:E; cbn; [done|by rewrite E]. Qed.

Lemma acct_unmap addr n s s' : acct (Unmap addr) n s s' -> acct addr n s s'.
Proof. unfold acct, requests, family, other_family. by rewrite Unmap_idem. Qed.

Lemma recordOverflow_spec addr o l s l' s' :
  recordOverflow addr o l s = (l', s') -> server_ok s ->
  server_ok s' /\ same_config s s' /\ acct addr 0 s s'.
Proof.
  intros E Hs. pose proof adds_none as (_ & _ & _ & Adrop & _). unfold recordOverflow in E.
  assert (server_ok s /\ same_config s s /\ acct addr 0 s s) as Hid
    by (split; [done|]; split; [apply same_config_refl|by apply acct_refl]).
  destruct o as [got|]; injection E as _ <-; [|done]. case_goal; [|done].
  split; [by apply count_ok|]. split; [apply count_config|apply count_acct, Adrop].
Qed.

(** What happens to any datagram: one outcome is counted in the family it came
    from, and an answer is no longer than it. *)
Lemma serve_one_spec env now mono d l s :
  server_ok s -> status_ok (e_status env) -> Forall is_byte (dl_data d) ->
  exists l' s' r, serve_one env now mono d l s = Some (l', s', r) /\
    server_ok s' /\ same_config s s' /\ acct (ap_addr (dl_from d)) 1 s s' /\
    (forall out, r = Some out -> (length out <= length (dl_data d))%nat /\
       dl_truncated d = false /\ dl_martianFlags d = false /\ dl_martianDst d = false /\
       martianDestination (dl_dst d) = false /\
       (Is4 (Unmap (dl_dst d)) = true -> lb_haveOnce (l_broadcasts l') = true -> Unmap (dl_dst d) ∉ lb_addrs (l_broadcasts l'))).
Proof.
  intros Hs Hst Hb. pose proof adds_outcome as (_ & _ & _ & Amart & _ & _ & _ & Aover & _).
  pose proof adds_none as (_ & _ & Ats & _). unfold serve_one. set (addr := ap_addr (dl_from d)).
  destruct (recordOverflow addr (dl_overflow d) l s) as [l1 s1] eqn:E1.
  apply recordOverflow_spec in E1 as (O1 & C1 & A1); [|done].
  assert (forall s2 f, server_ok s2 /\ same_config s s2 /\ acct addr 0 s s2 -> adds 1 f ->
    server_ok (count addr f s2) /\ same_config s (count addr f s2) /\ acct addr 1 s (count addr f s2)) as Hcount.
  { intros s2 f (O2 & C2 & A2) Hf. split; [by apply count_ok|]. split; [exact C2|].
    by apply (acct_trans addr 0 1 s s2); [|apply count_acct]. }
  destruct (dl_truncated d || _) eqn:Et; [eexists l1, _, None; split; [done|];
    destruct (Hcount s1 _ (conj O1 (conj C1 A1)) Aover) as (? & ? & ?); done|].
  destruct (dl_martianFlags d) eqn:Ef; [eexists l1, _, None; split; [done|];
    destruct (Hcount s1 _ (conj O1 (conj C1 A1)) Amart) as (? & ? & ?); done|].
  destruct (match dl_timestamp d with Some ts => _ | None => _ end) as [received s2] eqn:E2.
  assert (server_ok s2 /\ same_config s s2 /\ acct addr 0 s s2) as S2.
  { destruct (dl_timestamp d); injection E2 as <- <-; [done|]. split; [by apply count_ok|].
    split; [exact C1|]. by apply (acct_trans addr 0 0 s s1); [|apply count_acct]. }
  destruct (dl_martianDst d || martianDestination (dl_dst d)) eqn:Ed; [eexists l1, _, None; split; [done|];
    destruct (Hcount s2 _ S2 Amart) as (? & ? & ?); done|].
  destruct (isBroadcast _ _ _ _) as [[b bcast] known] eqn:E3. destruct bcast; [eexists _, _, None; split; [done|];
    destruct (Hcount s2 _ S2 Amart) as (? & ? & ?); done|].
  destruct S2 as (O2 & C2 & A2).
  destruct (Handle_spec env s2 (dl_data d) (dl_from d) received mono O2 Hst Hb) as (s3 & r & E4 & O3 & C3 & A3 & R).
  rewrite E4. cbn [mbind option_bind]. eexists _, s3, r. split; [done|]. split; [done|].
  split; [by eapply same_config_trans|].
  split; [by apply (acct_trans addr 0 1 s s2); [|apply acct_unmap]|].
  intros out ->. destruct (R out eq_refl) as (pkt & mac & off & Hd & _ & _ & _ & Hr). repeat bool_step.
  split; [by eapply response_length; [apply (sv_ring _ O2)| | |exact Hd|exact Hr]|].
  repeat (split; [done|]). cbn [l_broadcasts set]. intros H4 Hh. unfold isBroadcast in E3.
  rewrite H4 in E3. cbn [negb] in E3.
  destruct (lb_haveOnce (l_broadcasts l1) && _); [injection E3 as <- E3; by bool_step|].
  destruct (dl_interfaces d) as [addrs|]; [injection E3 as <- E3; by bool_step|].
  destruct (lb_haveOnce (l_broadcasts l1)) eqn:Eh; injection E3 as <-; [by bool_step|congruence].
Qed.

(** ** The service *)

Definition service_ok (v : Service) : Prop :=
  forall i h l, svc_listeners v !! i = Some (h, l) -> server_ok (mkServer h (svc_stats v) (svc_leap v)).

(** The listeners' contributions to the client gauge. *)
Definition published (ls : list (Handler * udpListener)) : Z :=
  foldr (fun p acc => h_publishedClients (fst p) + acc) 0 ls.

(** The gauge of both families is the sum of what the listeners published. *)
Definition gauge_ok (v : Service) : Prop :=
  u64 (clients (v4 (svc_stats v)) + clients (v6 (svc_stats v))) = u64 (published (svc_listeners v)).

Definition event_ok (v : Service) (e : event) : Prop :=
  (ev_listener e < length (svc_listeners v))%nat /\ status_ok (e_status (ev_env e)) /\
  Forall is_byte (dl_data (ev_delivery e)).

Lemma published_insert ls i h l h' l' :
  ls !! i = Some (h, l) ->
  published (<[i := (h', l')]> ls) = published ls - h_publishedClients h + h_publishedClients h'.
Proof.
  revert i. induction ls as [|p ls IH]; intros [|i] E; cbn in E; try done.
  - injection E as ->. unfold published. cbn [insert list_insert foldr fst]. lia.
  - specialize (IH i E).
    change (h_publishedClients (fst p) + published (<[i := (h', l')]> ls)
      = h_publishedClients (fst p) + published ls - h_publishedClients h + h_publishedClients h'). lia.
Qed.

Lemma service_step_spec v e :
  service_ok v -> event_ok v e ->
  exists v' r, service_step v e = Some (v', r) /\ service_ok v' /\
    length (svc_listeners v') = length (svc_listeners v) /\
    Requests (Total (Snapshot (svc_stats v'))) = u64 (Requests (Total (Snapshot (svc_stats v))) + 1) /\
    (gauge_ok v -> gauge_ok v') /\
    (forall out, r = Some out -> (length out <= length (dl_data (ev_delivery e)))%nat).
Proof.
  intros Hv (Hi & Hst & Hb). unfold service_step.
  destruct (lookup_lt_is_Some_2 _ _ Hi) as [[h l] El]. rewrite El.
  set (s := mkServer h (svc_stats v) (svc_leap v)).
  destruct (serve_one_spec (ev_env e) (ev_now e) (ev_mono e) (ev_delivery e) l s (Hv _ _ _ El) Hst Hb)
    as (l' & s' & r & E & O & C & A & R).
  rewrite E. cbn [mbind option_bind]. eexists _, r. split; [done|].
  split; [|split; [apply length_insert|split; [exact (acct_total _ _ _ _ A)|split]]].
  - intros j h2 l2. cbn [svc_listeners svc_stats svc_leap]. intros Ej.
    apply list_lookup_insert_Some in Ej as [(_ & Ej & _)|[_ Ej]].
    + injection Ej as <- <-. destruct O as [R1 R2 R3 R4]. by constructor.
    + destruct (Hv _ _ _ Ej) as [R1 R2 R3 _]. destruct O as [_ _ _ R4]. by constructor.
  - unfold gauge_ok. cbn [svc_listeners svc_stats]. rewrite (published_insert _ _ _ _ _ _ El). intros Hg.
    destruct A as (_ & _ & Ag). unfold gauge in Ag. cbn [sv_stats sv_h s] in Ag.
    unfold wrapu in *.
    apply (f_equal (fun z => (z + h_publishedClients (sv_h s')) mod 2 ^ 64)) in Ag.
    rewrite !Zplus_mod_idemp_l in Ag.
    match type of Ag with ?a mod _ = _ => replace a with (clients (v4 (sv_stats s')) + clients (v6 (sv_stats s'))) in Ag by lia end.
    rewrite Ag, <- Z.add_sub_swap, <- Z.add_sub_assoc, Zplus_mod, Hg, <- Zplus_mod. f_equal. lia.
  - intros out ->. apply (R out eq_refl).
Qed.

(** Every datagram is accounted for exactly once.  Whatever the
    sockets deliver, to however many listeners and in whatever order, no
    listener panics, and afterwards the sum of the outcome counters of both
    families (answered plus every reason for a drop) has grown by exactly the
    number of datagrams read, modulo the counters' 2^64; the client gauge
    stays the sum of the listeners' contributions. *)
Theorem service_accounts v es :
  service_ok v -> Forall (event_ok v) es -> gauge_ok v ->
  exists v', service_run v es = Some v' /\ service_ok v' /\ gauge_ok v' /\
    Requests (Total (Snapshot (svc_stats v')))
    = u64 (Requests (Total (Snapshot (svc_stats v))) + Z.of_nat (length es)).
Proof.
  unfold service_run. intros Hv Hes. revert v Hv Hes. induction es as [|e es IH]; intros v Hv Hes Hg.
  - exists v. repeat (split; [done|]). rewrite Z.add_0_r. symmetry. apply wrapu_id. unfold Requests. apply wrapu_range. lia.
  - apply List.Forall_cons_iff in Hes as [He Hes].
    destruct (service_step_spec v e Hv He) as (v1 & r & E & O & L & A & G & _).
    destruct (IH v1 O) as (v' & E' & O' & G' & R').
    { eapply List.Forall_impl; [|exact Hes]. unfold event_ok. intros x. by rewrite L. }
    { by apply G. }
    exists v'. cbn [fold_left mbind option_bind]. rewrite E. cbn [fmap option_fmap option_map fst].
    repeat (split; [done|]). rewrite R', A, u64_add_l. f_equal. cbn [length]. lia.
Qed.

(** Two listeners; a request, an oversized datagram and one from another
    family. *)
Definition example_delivery (data : list Z) (from : AddrPort) (dst : Addr) : delivery :=
  mkDelivery data from false false None (Some 3) dst false (Some [IPNet [192; 0; 2; 7] [255; 255; 255; 0]]).

Definition example_service : Service :=
  mkService [(example_handler, mkListener 0 false newLocalBroadcasts);
             (example_handler, mkListener 0 false newLocalBroadcasts)]
    (mkStats zeroCounters zeroCounters) (Some example_distributor).

Definition example_events : list event :=
  [mkEvent 0 example_env 0 0 (example_delivery example_request example_client (Addr4 3221225991));
   mkEvent 1 example_env 0 0 (example_delivery (replicate 1501 0) example_client (Addr4 3221225991));
   mkEvent 1 example_env 0 0 (example_delivery [1; 2; 3] (mkAddrPort (Addr6 1 String.EmptyString) 123) AddrInvalid);
   mkEvent 0 example_env 0 1 (example_delivery example_request example_client (Addr4 3221226239))].

Example example_broadcast_dropped :
  broadcast_of (IPNet [192; 0; 2; 7] [255; 255; 255; 0]) = Some (Addr4 3221226239).
Proof. reflexivity. Qed.

Lemma example_service_ok : service_ok example_service.
Proof.
  intros i h l E. assert (h = example_handler) as ->.
  { assert (Forall (fun p => fst p = example_handler) (svc_listeners example_service)) as HF by by repeat constructor.
    exact (Forall_lookup_1 _ _ _ _ HF E). }
  exact example_server_ok.
Qed.

Lemma service_accounts_witness :
  exists v', service_run example_service example_events = Some v' /\ service_ok v' /\ gauge_ok v' /\
    Requests (Total (Snapshot (svc_stats v'))) = u64 (Requests (Total (Snapshot (svc_stats example_service))) + 4).
Proof.
  apply (service_accounts example_service example_events); [exact example_service_ok| |reflexivity].
  repeat apply List.Forall_cons; [..|apply List.Forall_nil]; (split; [cbn; lia|]; split; [exact example_status_ok|]).
  - exact example_request_bytes.
  - apply Forall_replicate. unfold is_byte. lia.
  - repeat constructor; cbn; lia.
  - exact example_request_bytes.
Defined.

(** ** The receive buffer *)

(** Halving reaches the floor within the fuel, and every size but the last was
    refused for capacity. *)
Lemma set_read_buffer_spec kernel fuel size :
  size < 2 ^ (Z.of_nat fuel + 15) -> (0 < fuel)%nat ->
  exists tried ok, set_read_buffer fuel kernel size = Some (tried, ok) /\
    exists front final, tried = front ++ [final] /\ minRecvBuffer <= final /\
      Forall (fun x => minRecvBuffer < x /\ kernel x = Refused) front /\
      head tried = Some (Z.max size minRecvBuffer) /\
      (ok = true <-> kernel final = Granted) /\
      (kernel final = Refused -> final = minRecvBuffer).
Proof.
  revert size. induction fuel as [|fuel IH]; intros size Hs Hf; [lia|]. cbn [set_read_buffer].
  set (sz := if size <? minRecvBuffer then minRecvBuffer else size).
  assert (sz = Z.max size minRecvBuffer) as Hz by (unfold sz; case_goal; bool_step; lia).
  rewrite <- Hz. clearbody sz.
  destruct (kernel sz) eqn:Ek.
  - exists [sz], true. split; [done|]. exists [], sz. repeat split; (done || lia || congruence || constructor).
  - destruct (sz =? minRecvBuffer) eqn:Em; bool_step.
    + exists [sz], false. split; [done|]. exists [], sz. repeat split; (done || lia || congruence || constructor).
    + unfold minRecvBuffer in *.
      assert (Z.quot sz 2 < 2 ^ (Z.of_nat fuel + 15)) as Hlt.
      { rewrite Z.quot_div_nonneg by lia. apply Z.div_lt_upper_bound; [lia|].
        replace (Z.of_nat (S fuel) + 15) with (Z.of_nat fuel + 15 + 1) in Hs by lia.
        rewrite Z.pow_add_r in Hs by lia. lia. }
      destruct fuel as [|fuel].
      { change (2 ^ (Z.of_nat 1 + 15)) with 65536 in Hs. lia. }
      destruct (IH (Z.quot sz 2) Hlt ltac:(lia)) as (tried & ok & E & front & final & -> & H1 & H2 & H3 & H4 & H5).
      rewrite E. cbn [mbind option_bind]. eexists _, ok. split; [done|].
      exists (sz :: front), final. repeat split; try done; try apply H4.
      constructor; [split; [lia|done]|done].
  - exists [sz], false. split; [done|]. exists [], sz. repeat split; (done || lia || congruence || constructor).
Qed.

(** The receive buffer negotiation terminates and asks for the floor
    before giving up.  For any kernel, the requests end; each one but the last
    was refused for capacity and was above the floor; the outcome is that of
    the last; and if the last was refused for capacity too, it was the
    documented minimum, so a size the kernel grants at the floor is never
    missed. *)
Theorem read_buffer_terminates kernel want :
  0 < want ->
  exists tried ok, setReadBuffer kernel want = Some (tried, ok) /\
    exists front final, tried = front ++ [final] /\ minRecvBuffer <= final /\
      Forall (fun x => minRecvBuffer < x /\ kernel x = Refused) front /\
      head tried = Some (Z.max want minRecvBuffer) /\
      (ok = true <-> kernel final = Granted) /\
      (kernel final = Refused -> final = minRecvBuffer).
Proof.
  intros Hw. apply set_read_buffer_spec; [|lia].
  apply Z.lt_le_trans with (2 ^ Z.succ (Z.log2 want)); [by apply Z.log2_spec|].
  apply Z.pow_le_mono_r; [lia|]. pose proof (Z.log2_nonneg want). lia.
Qed.

(** 100000 bytes where the kernel stops at 65536. *)
Lemma read_buffer_terminates_witness :
  exists tried ok, setReadBuffer (fun x => if x <=? 65536 then Granted else Refused) 100000 = Some (tried, ok) /\
    tried = [100000; 65536] /\ ok = true.
Proof.
  destruct (read_buffer_terminates (fun x => if x <=? 65536 then Granted else Refused) 100000 ltac:(lia))
    as (tried & ok & E & _).
  exists tried, ok. split; [exact E|]. vm_compute in E. injection E as <- <-. split; reflexivity.
Defined.

(** The 32-bit drop counter wraps; a difference of readings is what was
    dropped between them. *)
Lemma overflowDelta_wraps previous n :
  in_u 32 previous -> in_u 32 n -> overflowDelta previous true (u32 (previous + n)) = n.
Proof.
  intros Hp Hn. unfold overflowDelta. unfold wrapu. rewrite Zminus_mod_idemp_l.
  replace (previous + n - previous) with n by lia. by apply wrapu_id.
Qed.
