(* ===== verification/Md5.v ===== *)
(** * crypto/md5 and RefIDFromAddr of internal/ntp/time.go

    The reference identifier of an IPv6 peer is the head of the MD5 digest of
    its address (RFC 5905, section 7.3); MD5 is RFC 1321. *)

From stdpp Require Import base list numbers strings.
From Stdlib Require Import Lia ZArith.
From S2P Require Import Prelude Float64 GoTime NtpTime Netip.

Local Open Scope Z_scope.

Definition md5_K : list Z :=
  [3614090360; 3905402710; 606105819; 3250441966; 4118548399; 1200080426; 2821735955; 4249261313;
   1770035416; 2336552879; 4294925233; 2304563134; 1804603682; 4254626195; 2792965006; 1236535329;
   4129170786; 3225465664; 643717713; 3921069994; 3593408605; 38016083; 3634488961; 3889429448;
   568446438; 3275163606; 4107603335; 1163531501; 2850285829; 4243563512; 1735328473; 2368359562;
   4294588738; 2272392833; 1839030562; 4259657740; 2763975236; 1272893353; 4139469664; 3200236656;
   681279174; 3936430074; 3572445317; 76029189; 3654602809; 3873151461; 530742520; 3299628645;
   4096336452; 1126891415; 2878612391; 4237533241; 1700485571; 2399980690; 4293915773; 2240044497;
   1873313359; 4264355552; 2734768916; 1309151649; 4149444226; 3174756917; 718787259; 3951481745].

Definition md5_shift (i : nat) : Z :=
  nth (4 * (i / 16) + i mod 4)%nat [7; 12; 17; 22; 5; 9; 14; 20; 4; 11; 16; 23; 6; 10; 15; 21] 0.

Definition m32 (x : Z) : Z := x mod 2 ^ 32.
Definition neg32 (x : Z) : Z := 2 ^ 32 - 1 - x.
Definition rotl32 (x n : Z) : Z := Z.lor (m32 (Z.shiftl x n)) (Z.shiftr x (32 - n)).

(** A little-endian word and its bytes. *)
Definition le_word (l : list Z) : Z := be_decode (reverse l).
Definition le_bytes (n : nat) (v : Z) : list Z := reverse (be_encode n v).

(** The mixing function and the message index of step [i]. *)
Definition md5_mix (i : nat) (b c d : Z) : Z * nat :=
  match (i / 16)%nat with
  | 0%nat => (Z.lor (Z.land b c) (Z.land (neg32 b) d), i)
  | 1%nat => (Z.lor (Z.land d b) (Z.land (neg32 d) c), ((5 * i + 1) mod 16)%nat)
  | 2%nat => (Z.lxor (Z.lxor b c) d, ((3 * i + 5) mod 16)%nat)
  | _ => (Z.lxor c (Z.lor b (neg32 d)), ((7 * i) mod 16)%nat)
  end.

Definition md5_step (ws : list Z) (st : Z * Z * Z * Z) (i : nat) : Z * Z * Z * Z :=
  let '(a, b, c, d) := st in
  let '(f, g) := md5_mix i b c d in
  let f := m32 (f + a + nth i md5_K 0 + nth g ws 0) in
  (d, m32 (b + rotl32 f (md5_shift i)), b, c).

Definition md5_block (st : Z * Z * Z * Z) (block : list Z) : Z * Z * Z * Z :=
  let ws := (fun i => le_word (slice (4 * i) (4 * i + 4) block)) <$> seq 0 16 in
  let '(a0, b0, c0, d0) := st in
  let '(a, b, c, d) := fold_left (md5_step ws) (seq 0 64) st in
  (m32 (a0 + a), m32 (b0 + b), m32 (c0 + c), m32 (d0 + d)).

Definition md5_pad (msg : list Z) : list Z :=
  let n := length msg in
  msg ++ 128 :: replicate ((119 - n mod 64) mod 64) 0 ++ le_bytes 8 (8 * Z.of_nat n).

Definition md5_init : Z * Z * Z * Z := (1732584193, 4023233417, 2562383102, 271733878).

(** [md5.Sum]. *)
Definition md5_Sum (msg : list Z) : list Z :=
  let p := md5_pad msg in
  let blocks := (fun i => slice (64 * i) (64 * i + 64) p) <$> seq 0 (length p / 64) in
  let '(a, b, c, d) := fold_left md5_block blocks md5_init in
  le_bytes 4 a ++ le_bytes 4 b ++ le_bytes 4 c ++ le_bytes 4 d.

(** RFC 1321: "abc". *)
Example md5_abc :
  md5_Sum [97; 98; 99] = [144; 1; 80; 152; 60; 210; 79; 176; 214; 150; 63; 125; 40; 225; 127; 114].
Proof. vm_compute. reflexivity. Qed.

(** RFC 1321: "12345678901234567890..." spans two blocks. *)
Example md5_two_blocks :
  md5_Sum (concat (repeat [49; 50; 51; 52; 53; 54; 55; 56; 57; 48] 8))
  = [87; 237; 244; 162; 43; 227; 201; 85; 172; 73; 218; 46; 33; 7; 182; 122].
Proof. vm_compute. reflexivity. Qed.

(** [AsSlice] of an address. *)
Definition AsSlice (x : Addr) : list Z :=
  match x with
  | AddrInvalid => []
  | Addr4 a => be_encode 4 a
  | Addr6 a _ => be_encode 16 a
  end.

Definition RefIDFromAddr (x : Addr) : RefID :=
  let x := Unmap x in
  if Is4 x then AsSlice x else take 4 (md5_Sum (AsSlice x)).

Lemma length_le_bytes n v : length (le_bytes n v) = n.
Proof. unfold le_bytes. by rewrite length_reverse, length_be_encode. Qed.

(** A reference id is four bytes whatever the address. *)
Lemma RefIDFromAddr_length x : length (RefIDFromAddr x) = 4%nat.
Proof.
  unfold RefIDFromAddr. destruct (Unmap x) as [|a|a z]; cbn [Is4 AsSlice]; [reflexivity|apply length_be_encode|].
  unfold md5_Sum. destruct (fold_left _ _ _) as [[[p q] r] s].
  rewrite length_take, !length_app, !length_le_bytes. reflexivity.
Qed.
