(* ===== verification/Exchange.v ===== *)
(** * internal/source/ntp.go (exchange, Query), poll.go: one client/server exchange

    [exchange] builds a request with a random nonce in its transmit timestamp,
    sends it on a connected socket and reads datagrams until one answers it.
    The socket is an input: whether it opened, what the write returned, the
    datagrams read in order with their times, and the error that ended the
    reads.  Every check on a reply is the code's, in its order. *)

From stdpp Require Import base list numbers strings.
From Stdlib Require Import Lia ZArith.
From S2P Require Import Prelude Float64 GoTime NtpTime NtpPacket Measurement Netip Auth.

Local Open Scope Z_scope.

(** ** poll.go *)

Definition clampPoll (poll min max : Z) : Z :=
  if poll <? min then min else if max <? poll then max else poll.

(** [adaptPoll]; the exponent is an int8. *)
Definition adaptPoll (poll : Z) (offset jitter : f64) (min max : Z) : Z :=
  let offset := if flt offset fzero then fopp offset else offset in
  let poll := if flt offset (fmul (of_Z 4) jitter) then i8 (poll + 1) else i8 (poll - 1) in
  clampPoll poll min max.

Definition pollJitter : f64 := lit 5 100.

(** [time.Duration(x)] of a float of nanoseconds. *)
Definition duration_of (x : f64) : duration := i64 (ftrunc x).

(** [pollInterval]; [r] is the random number in [0, 1). *)
Definition pollInterval (r : f64) (poll floorPoll : Z) : duration :=
  let base := Log2Seconds poll in
  let jitter := fadd (of_Z 1) (fmul (fsub (fmul r (of_Z 2)) (of_Z 1)) pollJitter) in
  let d := duration_of (fmul (fmul base jitter) (of_Z Second)) in
  if 0 <? floorPoll then
    let floor := duration_of (fmul (Log2Seconds floorPoll) (of_Z Second)) in
    if d <? floor then floor else d
  else d.

Definition maxRemoteBackoffPoll : Z := 13.

Definition clampPrecision (p : Z) : Z := if 0 <? p then 0 else if p <? -30 then -30 else p.

Definition sameEndpoint (a b : AddrPort) : bool :=
  (ap_port a =? ap_port b) && bool_decide (Unmap (ap_addr a) = Unmap (ap_addr b)).

(** ** exchange *)

Definition maxDelay : f64 := of_Z 16.
Definition maxRootDistance : f64 := lit 3 2.
Definition maxFutureRefTime : f64 := of_Z 1.

(** Why a reply is unusable. *)
Inductive BogusReason : Type :=
| BogusMode
| BogusKissCode
| BogusStratum
| BogusUnsync
| BogusZeroTimestamp
| BogusDelay
| BogusRootDistance
| BogusReferenceTime.

Inductive ExchangeError : Type :=
| ErrResolve
| ErrNonce
| ErrSocket
| ErrTimeout
| ErrBadAuth
| ErrUnreachable
| ErrNetworkUnreachable
| ErrSend
| ErrReceive
| ErrCancelled
| ErrBogus (reason : BogusReason)
| ErrKiss (code : list Z) (pkt : Packet) (authenticated : bool).

(** The configuration of an exchange; [x_precision] is the local clock's. *)
Record exchangeParams : Type := mkExchangeParams {
  x_addr : AddrPort;
  x_key : option Key;
  x_poll : Z;
  x_kernelTS : bool;
  x_precision : Z
}.

Record exchangeResult : Type := mkExchangeResult {
  Sent : bool;
  xPacket : Packet;
  xMAC : option MAC;
  Authenticated : bool;
  T1 : time;
  T4 : time;
  KernelTS : bool;
  xOffset : f64;
  xDelay : f64
}.

#[export] Instance exchangeResult_eta : Eta exchangeResult := fun r =>
  mkExchangeResult (Sent r) (xPacket r) (xMAC r) (Authenticated r) (T1 r) (T4 r) (KernelTS r) (xOffset r) (xDelay r).

Definition zeroPacket : Packet := mkPacket 0 0 0 0 0 0 0 0 zeroRefID 0 0 0 0.
Definition zeroResult : exchangeResult :=
  mkExchangeResult false zeroPacket None false zeroTime zeroTime false fzero fzero.

(** What the write returned. *)
Inductive write_result : Type := WriteOk | WriteRefused | WriteUnreachable | WriteFailed.

(** The error that ended the reads. *)
Inductive read_error : Type := ReadTimeout | ReadRefused | ReadUnreachable | ReadFailed | ReadCancelled.

Definition read_failure (e : read_error) : ExchangeError :=
  match e with
  | ReadTimeout => ErrTimeout
  | ReadRefused => ErrUnreachable
  | ReadUnreachable => ErrNetworkUnreachable
  | ReadFailed => ErrReceive
  | ReadCancelled => ErrCancelled
  end.

(** One datagram read: its source, bytes, the clock after the read, and the
    kernel's timestamp if there was one. *)
Record rx : Type := mkRx { rx_from : AddrPort; rx_data : list Z; rx_now : time; rx_kernel : option time }.

(** The socket during the exchange. *)
Record socket : Type := mkSocket {
  so_nonce : option (list Z);       (* the random bytes, or a failure *)
  so_opened : bool;                 (* dialled and its deadline set *)
  so_t1 : time;
  so_write : write_result;
  so_reads : list rx;
  so_end : read_error               (* what the last read returned *)
}.

(** The request for a nonce. *)
Definition request_packet (p : exchangeParams) (nonce : list Z) : Packet :=
  mkPacket 0 Version ModeClient 0 (x_poll p) (x_precision p) 0 0 zeroRefID 0 0 0 (be_decode nonce).

Section Exchange.
Context `{BlockCipher}.

(** The bytes sent; [None] is a panic of the CMAC on a bad key length. *)
Definition request_bytes (p : exchangeParams) (nonce : list Z) : option (list Z) :=
  let buf := Marshal (request_packet p nonce) in
  match x_key p with None => Some buf | Some k => Key_Append k buf end.

(** The plausibility checks on an authenticated time reply. *)
Definition judge (p : exchangeParams) (t1 t4 : time) (pkt : Packet) : result BogusReason (f64 * f64) :=
  if 15 <? Stratum pkt then Err BogusStratum
  else if Leap pkt =? LeapUnsync then Err BogusUnsync
  else if TimeIsZero (TransmitTime pkt) || TimeIsZero (ReceiveTime pkt) then Err BogusZeroTimestamp
  else
    let t1n := FromTime t1 in
    let t4n := FromTime t4 in
    let delay := fsub (TimeSub t4n t1n) (TimeSub (TransmitTime pkt) (ReceiveTime pkt)) in
    let tolerance := fadd (Log2Seconds (x_precision p)) (Log2Seconds (clampPrecision (Precision pkt))) in
    if flt delay (fopp tolerance) || fge delay maxDelay then Err BogusDelay
    else
      let delay := if flt delay fzero then fzero else delay in
      let rd := fadd (fdiv (ShortSeconds (RootDelay pkt)) (of_Z 2)) (ShortSeconds (RootDispersion pkt)) in
      if fge rd maxRootDistance then Err BogusRootDistance
      else if fgt (TimeSub (ReferenceTime pkt) (TransmitTime pkt)) maxFutureRefTime then Err BogusReferenceTime
      else
        Ok (fdiv (fadd (TimeSub (ReceiveTime pkt) t1n) (TimeSub (TransmitTime pkt) t4n)) (of_Z 2), delay).

(** A datagram that answers our request: the outcome of the exchange. *)
Definition accept (p : exchangeParams) (t1 : time) (data : list Z) (t4 : time) (kernel : bool)
  (pkt : Packet) (mac : option MAC) (macOff : nat) : option (exchangeResult * option ExchangeError) :=
  let res := mkExchangeResult true pkt mac false t1 t4 kernel fzero fzero in
  if negb (Mode pkt =? ModeServer) then Some (res, Some (ErrBogus BogusMode))
  else
    verified ← match x_key p with
               | None => Some true
               | Some k =>
                   match mac with
                   | None => Some false
                   | Some m => if IsCryptoNAK m then Some false else Key_Verify k (take macOff data) mac
                   end
               end;
    if negb verified then Some (res, Some ErrBadAuth)
    else
      let authenticated := bool_decide (is_Some (x_key p)) in
      let res := res <| Authenticated := authenticated |> in
      if IsKiss pkt then
        match KissCode pkt with
        | [] => Some (res, Some (ErrBogus BogusKissCode))
        | code => Some (res, Some (ErrKiss code pkt authenticated))
        end
      else
        match judge p t1 t4 pkt with
        | Err reason => Some (res, Some (ErrBogus reason))
        | Ok (offset, delay) => Some ((res <| xOffset := offset |>) <| xDelay := delay |>, None)
        end.

(** The receive loop: datagrams that do not answer the request are ignored. *)
Fixpoint receive_loop (p : exchangeParams) (t1 : time) (nonce : Z) (reads : list rx) (last : ExchangeError)
  : option (exchangeResult * option ExchangeError) :=
  match reads with
  | [] => Some (zeroResult <| Sent := true |> <| T1 := t1 |>, Some last)
  | r :: rest =>
      let '(t4, kernel) :=
        match rx_kernel r with
        | Some kt => if x_kernelTS p then (kt, true) else (rx_now r, false)
        | None => (rx_now r, false)
        end in
      if negb (sameEndpoint (rx_from r) (x_addr p)) then receive_loop p t1 nonce rest last
      else
        match Decode (rx_data r) with
        | Err _ => receive_loop p t1 nonce rest last
        | Ok (pkt, mac, macOff) =>
            if negb (OriginTime pkt =? nonce) then receive_loop p t1 nonce rest last
            else accept p t1 (rx_data r) t4 kernel pkt mac macOff
        end
  end.

(** [exchange]: the result, and the error if any. *)
Definition exchange (p : exchangeParams) (s : socket) : option (exchangeResult * option ExchangeError) :=
  match so_nonce s with
  | None => Some (zeroResult, Some ErrNonce)
  | Some nonce =>
      _ ← request_bytes p nonce;
      if negb (so_opened s) then Some (zeroResult, Some ErrSocket)
      else
        match so_write s with
        | WriteRefused => Some (zeroResult, Some ErrUnreachable)
        | WriteUnreachable => Some (zeroResult, Some ErrNetworkUnreachable)
        | WriteFailed => Some (zeroResult, Some ErrSend)
        | WriteOk => receive_loop p (so_t1 s) (be_decode nonce) (so_reads s) (read_failure (so_end s))
        end
  end.

End Exchange.

(** ** Query *)

Record QueryResult : Type := mkQueryResult {
  q_Server : AddrPort;
  q_Offset : f64;
  q_Delay : f64;
  q_Packet : Packet;
  q_T1 : time; q_T2 : time; q_T3 : time; q_T4 : time;
  q_KernelTS : bool;
  q_Authenticated : bool
}.

Definition emptyQuery (addr : AddrPort) : QueryResult :=
  mkQueryResult addr fzero fzero zeroPacket zeroTime zeroTime zeroTime zeroTime false false.

(** [Query] of the first address the name resolved to; [precision] is the local
    clock's. *)
Definition Query `{BlockCipher} (addrs : option (list AddrPort)) (key : option Key) (precision : Z) (s : socket)
  : option (QueryResult * option ExchangeError) :=
  match addrs with
  | None => Some (emptyQuery (mkAddrPort AddrInvalid 0), Some ErrResolve)
  | Some [] => None
  | Some (addr :: _) =>
      '(res, err) ← exchange (mkExchangeParams addr key 6 true precision) s;
      match err with
      | Some e => Some (emptyQuery addr, Some e)
      | None =>
          Some (mkQueryResult addr (xOffset res) (xDelay res) (xPacket res) (T1 res)
                  (TimeTime (ReceiveTime (xPacket res)) (T1 res)) (TimeTime (TransmitTime (xPacket res)) (T1 res))
                  (T4 res) (KernelTS res) (Authenticated res), None)
      end
  end.

(** ** What an exchange accepts *)

(** A datagram that answers the request with nonce [nonce]. *)
Definition answers (p : exchangeParams) (nonce : Z) (r : rx) : bool :=
  sameEndpoint (rx_from r) (x_addr p) &&
  match Decode (rx_data r) with Ok (pkt, _, _) => OriginTime pkt =? nonce | Err _ => false end.

Section Sound.
Context `{BlockCipher}.

(** Nothing but the first answer matters: datagrams that are not one, however
    many and wherever they arrive, change nothing. *)
Lemma receive_loop_answers p t1 nonce reads last :
  receive_loop p t1 nonce reads last
  = receive_loop p t1 nonce (take 1 (List.filter (answers p nonce) reads)) last.
Proof.
  induction reads as [|r reads IH]; [done|]. cbn [receive_loop List.filter]. unfold answers at 1.
  destruct (match rx_kernel r with Some _ => _ | None => _ end) as [t4 kernel] eqn:Ek.
  destruct (sameEndpoint (rx_from r) (x_addr p)) eqn:E1; cbn [negb andb]; [|exact IH].
  destruct (Decode (rx_data r)) as [[[pkt mac] off]|e] eqn:E2; [|exact IH].
  destruct (OriginTime pkt =? nonce) eqn:E3; cbn [negb]; [|exact IH].
  cbn [take receive_loop]. by rewrite Ek, E1, E2, E3.
Qed.

Lemma receive_loop_ok p t1 nonce reads last res :
  receive_loop p t1 nonce reads last = Some (res, None) ->
  exists r pkt mac off t4 kernel, r ∈ reads /\ sameEndpoint (rx_from r) (x_addr p) = true /\
    Decode (rx_data r) = Ok (pkt, mac, off) /\ OriginTime pkt = nonce /\
    (kernel = true -> rx_kernel r = Some t4 /\ x_kernelTS p = true) /\ (kernel = false -> t4 = rx_now r) /\
    accept p t1 (rx_data r) t4 kernel pkt mac off = Some (res, None).
Proof.
  induction reads as [|r reads IH]; [done|]. cbn [receive_loop].
  destruct (match rx_kernel r with Some _ => _ | None => _ end) as [t4 kernel] eqn:Ek.
  assert (receive_loop p t1 nonce reads last = Some (res, None) ->
    exists r' pkt mac off t4 kernel, r' ∈ r :: reads /\ sameEndpoint (rx_from r') (x_addr p) = true /\
    Decode (rx_data r') = Ok (pkt, mac, off) /\ OriginTime pkt = nonce /\
    (kernel = true -> rx_kernel r' = Some t4 /\ x_kernelTS p = true) /\ (kernel = false -> t4 = rx_now r') /\
    accept p t1 (rx_data r') t4 kernel pkt mac off = Some (res, None)) as Hrest.
  { intros E. destruct (IH E) as (r' & pkt & mac & off & t & k & Hin & ?). exists r', pkt, mac, off, t, k.
    split; [by right|done]. }
  destruct (sameEndpoint _ _) eqn:E1; cbn [negb]; [|exact Hrest].
  destruct (Decode (rx_data r)) as [[[pkt mac] off]|e] eqn:E2; [|exact Hrest].
  destruct (OriginTime pkt =? nonce) eqn:E3; cbn [negb]; [|exact Hrest]. bool_step.
  intros Ha. exists r, pkt, mac, off, t4, kernel. split; [by left|]. repeat (split; [done|]).
  split; [|split; [|done]].
  - intros ->. destruct (rx_kernel r) as [kt|]; [|done]. destruct (x_kernelTS p); [|done]. by injection Ek as <-.
  - intros ->. destruct (rx_kernel r) as [kt|]; [destruct (x_kernelTS p); [done|]|]; by injection Ek as <-.
Qed.

Lemma Ok_pair_inj {E A B} (a c : A) (b d : B) : @Ok E _ (a, b) = Ok (c, d) -> c = a /\ d = b.
Proof. intros H1. by inversion H1. Qed.

(** The measured delay is a number between zero and the maximum. *)
Lemma judge_ok p t1 t4 pkt o d :
  judge p t1 t4 pkt = Ok (o, d) ->
  Stratum pkt <= 15 /\ Leap pkt <> LeapUnsync /\ TransmitTime pkt <> 0 /\ ReceiveTime pkt <> 0 /\
  o = fdiv (fadd (TimeSub (ReceiveTime pkt) (FromTime t1)) (TimeSub (TransmitTime pkt) (FromTime t4))) (of_Z 2) /\
  flt d fzero = false /\ fge d maxDelay = false /\
  fge (fadd (fdiv (ShortSeconds (RootDelay pkt)) (of_Z 2)) (ShortSeconds (RootDispersion pkt))) maxRootDistance = false /\
  fgt (TimeSub (ReferenceTime pkt) (TransmitTime pkt)) maxFutureRefTime = false.
Proof.
  unfold judge. destruct (15 <? Stratum pkt) eqn:E1; [done|]. destruct (Leap pkt =? LeapUnsync) eqn:E2; [done|].
  destruct (TimeIsZero _ || _) eqn:E3; [done|]. unfold TimeIsZero in E3.
  destruct (flt _ (fopp _) || _) eqn:E4; [done|]. destruct (fge (fadd _ _) maxRootDistance) eqn:E5; [done|].
  destruct (fgt _ maxFutureRefTime) eqn:E6; [done|]. intros Ho. apply Ok_pair_inj in Ho as [-> ->]. repeat bool_step.
  repeat (split; [done|]). split; [|split; [|done]]; match goal with |- context [if ?b then _ else _] => destruct b eqn:Ed end; done.
Qed.

Lemma accept_ok p t1 data t4 kernel pkt mac off res :
  accept p t1 data t4 kernel pkt mac off = Some (res, None) ->
  Mode pkt = ModeServer /\ xPacket res = pkt /\ T1 res = t1 /\ T4 res = t4 /\ KernelTS res = kernel /\
  Authenticated res = bool_decide (is_Some (x_key p)) /\
  (forall k, x_key p = Some k -> Key_Verify k (take off data) mac = Some true) /\
  Stratum pkt <> 0 /\ judge p t1 t4 pkt = Ok (xOffset res, xDelay res).
Proof.
  unfold accept. destruct (Mode pkt =? ModeServer) eqn:E1; cbn [negb]; [|done]. bool_step.
  destruct (x_key p) as [k|] eqn:Ek; cbn [mbind option_bind].
  - destruct mac as [m|]; cbn [mbind option_bind]; [|done]. destruct (IsCryptoNAK m); cbn [mbind option_bind]; [done|].
    destruct (Key_Verify k (take off data) (Some m)) as [v|] eqn:Ev; cbn [mbind option_bind]; [|done].
    destruct v; cbn [negb]; [|done]. destruct (IsKiss pkt) eqn:Eks; [by destruct (KissCode pkt)|].
    destruct (judge p t1 t4 pkt) as [[o d]|] eqn:Ej; [|done]. intros [= <-].
    repeat (split; [done|]). split; [by intros ? [= <-]|]. split; [by apply Z.eqb_neq|done].
  - destruct (IsKiss pkt) eqn:Eks; cbn [negb]; [by destruct (KissCode pkt)|].
    destruct (judge p t1 t4 pkt) as [[o d]|] eqn:Ej; [|done]. intros [= <-].
    repeat (split; [done|]). split; [by apply Z.eqb_neq|done].
Qed.

(** A kiss comes from an answer too, and is marked authenticated only if its
    MAC verified. *)
Lemma receive_loop_kiss p t1 nonce reads last res code pkt auth :
  receive_loop p t1 nonce reads (read_failure last) = Some (res, Some (ErrKiss code pkt auth)) ->
  exists r mac off, r ∈ reads /\ Decode (rx_data r) = Ok (pkt, mac, off) /\
    sameEndpoint (rx_from r) (x_addr p) = true /\ OriginTime pkt = nonce /\
    auth = bool_decide (is_Some (x_key p)) /\
    (forall k, x_key p = Some k -> Key_Verify k (take off (rx_data r)) mac = Some true).
Proof.
  induction reads as [|r reads IH]; [by destruct last|]. cbn [receive_loop].
  destruct (match rx_kernel r with Some _ => _ | None => _ end) as [t4 kernel] eqn:Ek.
  assert (receive_loop p t1 nonce reads (read_failure last) = Some (res, Some (ErrKiss code pkt auth)) ->
    exists r' mac off, r' ∈ r :: reads /\ Decode (rx_data r') = Ok (pkt, mac, off) /\
    sameEndpoint (rx_from r') (x_addr p) = true /\ OriginTime pkt = nonce /\
    auth = bool_decide (is_Some (x_key p)) /\
    (forall k, x_key p = Some k -> Key_Verify k (take off (rx_data r')) mac = Some true)) as Hrest.
  { intros E. destruct (IH E) as (r' & mac & off & Hin & ?). exists r', mac, off. split; [by right|done]. }
  destruct (sameEndpoint _ _) eqn:E1; cbn [negb]; [|exact Hrest].
  destruct (Decode (rx_data r)) as [[[pkt' mac] off]|e] eqn:E2; [|exact Hrest].
  destruct (OriginTime pkt' =? nonce) eqn:E3; cbn [negb]; [|exact Hrest]. bool_step.
  unfold accept. destruct (Mode pkt' =? ModeServer); cbn [negb]; [|done].
  destruct (x_key p) as [k|] eqn:Ekey; cbn [mbind option_bind].
  - destruct mac as [m|]; cbn [mbind option_bind]; [|done]. destruct (IsCryptoNAK m); cbn [mbind option_bind]; [done|].
    destruct (Key_Verify k (take off (rx_data r)) (Some m)) as [v|] eqn:Ev; cbn [mbind option_bind]; [|done].
    destruct v; cbn [negb]; [|done]. destruct (IsKiss pkt').
    + destruct (KissCode pkt'); [done|]. intros [= <- <- <- <-]. exists r, (Some m), off.
      split; [by left|]. repeat (split; [done|]). by intros ? [= <-].
    + destruct (judge _ _ _ _) as [[o d]|]; done.
  - destruct (IsKiss pkt'); cbn [negb].
    + destruct (KissCode pkt'); [done|]. intros [= <- <- <- <-]. exists r, mac, off.
      split; [by left|]. by repeat (split; [done|]).
    + destruct (judge _ _ _ _) as [[o d]|]; done.
Qed.

Lemma exchange_kiss p s res code pkt auth :
  exchange p s = Some (res, Some (ErrKiss code pkt auth)) ->
  exists r mac off, r ∈ so_reads s /\ Decode (rx_data r) = Ok (pkt, mac, off) /\
    sameEndpoint (rx_from r) (x_addr p) = true /\
    auth = bool_decide (is_Some (x_key p)) /\
    (forall k, x_key p = Some k -> Key_Verify k (take off (rx_data r)) mac = Some true).
Proof.
  unfold exchange. destruct (so_nonce s) as [nonce|]; [|done].
  destruct (request_bytes p nonce); [|done]. cbn [mbind option_bind]. destruct (negb (so_opened s)); [done|].
  destruct (so_write s); try done. intros E.
  apply receive_loop_kiss in E as (r & mac & off & ? & ? & ? & _ & ? & ?). by exists r, mac, off.
Qed.

(** The exchange returns: with a 16-byte key it cannot panic. *)
Lemma exchange_total p s :
  (forall k, x_key p = Some k -> length (Secret k) = KeySize) -> exists r, exchange p s = Some r.
Proof.
  intros Hk. unfold exchange. destruct (so_nonce s) as [nonce|]; [|by eexists].
  assert (exists b, request_bytes p nonce = Some b) as [b ->].
  { unfold request_bytes. destruct (x_key p) as [k|]; [|by eexists]. unfold Key_Append.
    destruct (CMAC_some (Secret k) (Marshal (request_packet p nonce)) (Hk k eq_refl)) as [d ->]. by eexists. }
  cbn [mbind option_bind]. destruct (negb (so_opened s)); [by eexists|]. destruct (so_write s); try (by eexists).
  rewrite receive_loop_answers. destruct (take 1 _) as [|r rest] eqn:Et; [by eexists|].
  assert (r ∈ List.filter (answers p (be_decode nonce)) (so_reads s)) as Hin.
  { destruct (List.filter _ _) as [|r' l]; [done|]. cbn in Et. injection Et as <- _. by left. }
  apply list_elem_of_In, filter_In in Hin as [_ Ha]. unfold answers in Ha. bool_step.
  cbn [receive_loop]. destruct (match rx_kernel r with Some _ => _ | None => _ end) as [t4 kernel].
  match goal with Hs : sameEndpoint _ _ = true |- _ => rewrite Hs end. cbn [negb].
  destruct (Decode (rx_data r)) as [[[pkt mac] off]|]; [|done].
  match goal with Ho : (OriginTime pkt =? _) = true |- _ => rewrite Ho end. cbn [negb].
  unfold accept. destruct (negb (Mode pkt =? ModeServer)); [by eexists|].
  assert (exists v, match x_key p with
    | None => Some true
    | Some k => match mac with
                | None => Some false
                | Some m => if IsCryptoNAK m then Some false else Key_Verify k (take off (rx_data r)) mac
                end
    end = Some v) as [v ->].
  { destruct (x_key p) as [k|]; [|by eexists]. destruct mac as [m|]; [|by eexists].
    destruct (IsCryptoNAK m) eqn:En; [by eexists|]. unfold Key_Verify. case_goal; [by eexists|].
    destruct (CMAC_some (Secret k) (take off (rx_data r)) (Hk k eq_refl)) as [d ->]. by eexists. }
  cbn [mbind option_bind]. destruct v; cbn [negb]; [|by eexists]. destruct (IsKiss pkt).
  - destruct (KissCode pkt); by eexists.
  - destruct (judge _ _ _ _) as [[o d]|]; by eexists.
Qed.

End Sound.

(** Claim C29: what a successful exchange proves.  The exchange never panics
    with a 16-byte key.  A result comes from a datagram of the server's own
    endpoint that decodes, is a server-mode packet and echoes the random nonce
    of the request; if the association has a key, its MAC verified under it;
    the server claims a stratum up to 15 other than 0 and to be synchronized;
    the delay is not negative and not 16 s or more.  Datagrams that do not echo the nonce from
    that endpoint, however many, change the outcome in no way. *)
Theorem exchange_sound p s :
  (forall k, x_key p = Some k -> length (Secret k) = KeySize) ->
  exists r, exchange p s = Some r /\
    (forall junk nonce, so_nonce s = Some nonce ->
       List.filter (answers p (be_decode nonce)) junk = List.filter (answers p (be_decode nonce)) (so_reads s) ->
       exchange p (mkSocket (so_nonce s) (so_opened s) (so_t1 s) (so_write s) junk (so_end s)) = Some r) /\
    (forall res, r = (res, None) ->
       exists nonce x mac off, so_nonce s = Some nonce /\ x ∈ so_reads s /\
         sameEndpoint (rx_from x) (x_addr p) = true /\ Decode (rx_data x) = Ok (xPacket res, mac, off) /\
         OriginTime (xPacket res) = be_decode nonce /\ Mode (xPacket res) = ModeServer /\
         (forall k, x_key p = Some k -> Key_Verify k (take off (rx_data x)) mac = Some true) /\
         Stratum (xPacket res) <> 0 /\ Stratum (xPacket res) <= 15 /\ Leap (xPacket res) <> LeapUnsync /\
         flt (xDelay res) fzero = false /\ fge (xDelay res) maxDelay = false /\
         xOffset res = fdiv (fadd (TimeSub (ReceiveTime (xPacket res)) (FromTime (T1 res)))
                                  (TimeSub (TransmitTime (xPacket res)) (FromTime (T4 res)))) (of_Z 2)).
Proof.
  intros Hk. destruct (exchange_total p s Hk) as [r Er]. exists r. split; [done|]. split.
  - intros junk nonce Hn Hf. rewrite <- Er. unfold exchange.
    cbn [so_nonce so_opened so_t1 so_write so_reads so_end]. rewrite Hn.
    destruct (request_bytes p nonce); [|done]. cbn [mbind option_bind]. destruct (negb (so_opened s)); [done|].
    destruct (so_write s); try done. rewrite receive_loop_answers, (receive_loop_answers p _ _ (so_reads s)).
    by rewrite Hf.
  - intros res ->. unfold exchange in Er. destruct (so_nonce s) as [nonce|]; [|done].
    destruct (request_bytes p nonce); [|done]. cbn [mbind option_bind] in Er. destruct (negb (so_opened s)); [done|].
    destruct (so_write s); try done. apply receive_loop_ok in Er as (x & pkt & mac & off & t4 & kernel & Hin & He & Hd & Ho & _ & _ & Ha).
    apply accept_ok in Ha as (Hm & <- & <- & <- & _ & _ & Hv & Hs & Hj).
    apply judge_ok in Hj as (J1 & J2 & _ & _ & J5 & J6 & J7 & _).
    by exists nonce, x, mac, off.
Qed.

(** A signed exchange with two forged datagrams before the reply. *)
Definition example_server_addr : AddrPort := mkAddrPort (Addr4 3221225985) 123.
Definition example_params : exchangeParams := mkExchangeParams example_server_addr (Some example_key) 6 true (-20).
Definition example_t1 : time := unixTime 1717200000 0.
Definition example_reply : list Z :=
  default [] (Key_Append example_key (Marshal (mkPacket 0 4 4 2 6 (-20) 0 0 [192; 0; 2; 9]
    (FromTime example_t1) 77 (FromTime (example_t1 + 5000000)) (FromTime (example_t1 + 6000000))))).
Definition example_socket : socket :=
  mkSocket (Some [0; 0; 0; 0; 0; 0; 0; 77]) true example_t1 WriteOk
    [mkRx example_server_addr [1; 2; 3] 0 None;
     mkRx (mkAddrPort (Addr4 3221225986) 123) example_reply (example_t1 + 10000000) None;
     mkRx example_server_addr example_reply (example_t1 + 10000000) (Some (example_t1 + 9000000))] ReadTimeout.

Lemma example_exchange : exists res, exchange example_params example_socket = Some (res, None) /\ KernelTS res = true.
Proof. vm_compute. eauto. Qed.

Lemma exchange_sound_witness :
  exists res nonce, exchange example_params example_socket = Some (res, None) /\
    so_nonce example_socket = Some nonce /\ OriginTime (xPacket res) = be_decode nonce /\
    Leap (xPacket res) <> LeapUnsync.
Proof.
  destruct example_exchange as (res & E & _).
  destruct (exchange_sound example_params example_socket) as (r & Er & _ & Hr); [by intros k [= <-]|].
  rewrite E in Er. apply (inj Some) in Er. subst r.
  destruct (Hr res eq_refl) as (nonce & x & mac & off & H1 & _ & _ & _ & H2 & _ & _ & _ & _ & H3 & _).
  exists res, nonce. repeat (split; [assumption|]). exact H3.
Defined.
