(* ===== verification/NtpSource.v ===== *)
(** * internal/source/ntp.go, source.go: the NTP client source

    The poller of one server: name resolution and address rotation, the
    exchange and what each outcome does to reachability and the poll interval,
    kiss-o'-death handling, the clock filter with the metadata of each
    observation, and the measurement emitted after every poll. *)

From stdpp Require Import base list numbers strings.
From Stdlib Require Import Lia ZArith.
From S2P Require Import Prelude Float64 GoTime NtpTime NtpPacket Measurement Filter Netip Auth Md5 Exchange.

Local Open Scope Z_scope.

(** ** Epochs *)

Definition FirstEpoch : Z := 2.
Definition StableEpoch (g : Z) : bool := negb (g =? 0) && (g mod 2 =? 0).

(** ** State *)

Definition resolveAfterTimeouts : Z := 8.
Definition burstCount : nat := 4.
Definition unreachableBackoff : Z := 10.
Definition logEvery : Z := 10.

(** What the last poll's trouble was, for status output. *)
Inductive LastError : Type :=
| NoError
| LookupError
| ExchangeFailed (e : ExchangeError)
| KissCodeError (code : list Z).

Record Info : Type := mkInfo {
  i_Resolved : AddrPort;
  i_Reach : Z;
  i_Poll : Z;
  i_Denied : bool;
  i_Offset : f64; i_Delay : f64; i_Dispersion : f64; i_Jitter : f64;
  i_Stratum : Z;
  i_RefID : RefID;
  i_Leap : Z;
  i_LastRx : time;
  i_LastError : LastError;
  i_Sent : Z; i_Received : Z; i_Timeouts : Z; i_Bogus : Z; i_BadAuth : Z; i_Kiss : Z; i_NoKernelTS : Z; i_Stale : Z
}.

#[export] Instance Info_eta : Eta Info := fun i =>
  mkInfo (i_Resolved i) (i_Reach i) (i_Poll i) (i_Denied i) (i_Offset i) (i_Delay i) (i_Dispersion i) (i_Jitter i)
    (i_Stratum i) (i_RefID i) (i_Leap i) (i_LastRx i) (i_LastError i) (i_Sent i) (i_Received i) (i_Timeouts i)
    (i_Bogus i) (i_BadAuth i) (i_Kiss i) (i_NoKernelTS i) (i_Stale i).

Record NTPConfig : Type := mkNTPConfig {
  c_Name : string;
  c_Address : string;
  c_Host : string;
  c_Port : Z;
  c_Key : option Key;
  c_IBurst : bool;
  c_PollMin : Z;
  c_PollMax : Z;
  c_Timeout : duration;
  c_NoKernelTimestamps : bool
}.

#[export] Instance NTPConfig_eta : Eta NTPConfig := fun c =>
  mkNTPConfig (c_Name c) (c_Address c) (c_Host c) (c_Port c) (c_Key c) (c_IBurst c) (c_PollMin c) (c_PollMax c)
    (c_Timeout c) (c_NoKernelTimestamps c).

(** What one exchange said about the server. *)
Record stageMeta : Type := mkStageMeta {
  sm_at : f64;
  sm_stratum : Z;
  sm_refID : RefID;
  sm_rootDelay : f64;
  sm_rootDisp : f64;
  sm_precision : Z;
  sm_leap : Z;
  sm_refTime : time
}.

Record NTP : Type := mkNTP {
  n_cfg : NTPConfig;
  n_precision : Z;              (* of the local clock *)
  n_filter : Filter;
  n_resetRequested : bool;
  n_info : Info;
  n_addr : AddrPort;
  n_addrs : list AddrPort;
  n_addrIndex : nat;
  n_haveAddr : bool;
  n_resolveFailing : bool;
  n_reach : Z;                  (* uint8 *)
  n_poll : Z;                   (* int8 *)
  n_consecutiveTimeouts : Z;
  n_consecutiveMisses : Z;
  n_consecutiveErrs : Z;
  n_denied : bool;
  n_kodMinPoll : Z;
  n_effPollMax : Z;
  n_kissedRate : bool;
  n_meta : list stageMeta;
  n_metaNext : nat;
  n_lastStratum : Z;
  n_haveStratum : bool;
  n_liveLeap : Z;
  n_liveLeapAt : f64;
  n_badAuthSeen : Z;
  n_bogusSeen : Z;
  n_staleSeen : Z
}.

#[export] Instance NTP_eta : Eta NTP := fun n =>
  mkNTP (n_cfg n) (n_precision n) (n_filter n) (n_resetRequested n) (n_info n) (n_addr n) (n_addrs n)
    (n_addrIndex n) (n_haveAddr n) (n_resolveFailing n) (n_reach n) (n_poll n) (n_consecutiveTimeouts n)
    (n_consecutiveMisses n) (n_consecutiveErrs n) (n_denied n) (n_kodMinPoll n) (n_effPollMax n) (n_kissedRate n)
    (n_meta n) (n_metaNext n) (n_lastStratum n) (n_haveStratum n) (n_liveLeap n) (n_liveLeapAt n)
    (n_badAuthSeen n) (n_bogusSeen n) (n_staleSeen n).

Definition noAddr : AddrPort := mkAddrPort AddrInvalid 0.

Inductive NewError : Type :=
| ErrHostEmpty
| ErrPortZero
| ErrPollRange
| ErrKeyLength
| ErrNoClock.

(** [NewNTP]; the clock is its precision, or nil. *)
Definition NewNTP (cfg : NTPConfig) (clk : option Z) : result NewError NTP :=
  let cfg := if bool_decide (c_Name cfg = ""%string) then cfg <| c_Name := c_Address cfg |> else cfg in
  if bool_decide (c_Host cfg = ""%string) then Err ErrHostEmpty
  else if c_Port cfg =? 0 then Err ErrPortZero
  else
    let cfg := if c_PollMin cfg =? 0 then cfg <| c_PollMin := 6 |> else cfg in
    let cfg := if c_PollMax cfg =? 0 then cfg <| c_PollMax := 10 |> else cfg in
    if (c_PollMin cfg <? MinPoll) || (MaxPoll <? c_PollMax cfg) || (c_PollMax cfg <? c_PollMin cfg)
    then Err ErrPollRange
    else
      let cfg := if c_Timeout cfg <=? 0 then cfg <| c_Timeout := 2 * Second |> else cfg in
      if match c_Key cfg with None => false | Some k => negb (length (Secret k) =? 16)%nat end then Err ErrKeyLength
      else
        match clk with
        | None => Err ErrNoClock
        | Some precision =>
            Ok (mkNTP cfg precision (NewFilter (Log2Seconds precision)) false
                  (mkInfo noAddr 0 (c_PollMin cfg) false fzero fzero fzero fzero 0 zeroRefID 0 zeroTime NoError
                     0 0 0 0 0 0 0 0)
                  noAddr [] 0 false false 0 (c_PollMin cfg) 0 0 0 false 0 (c_PollMax cfg) false [] 0 0 false 0 fzero
                  0 0 0)
        end.

Definition updateInfo (n : NTP) (f : Info -> Info) : NTP := n <| n_info := f (n_info n) |>.

(** [Reset], which another goroutine calls: the next usable reply clears the
    filter. *)
Definition Reset (n : NTP) : NTP := n <| n_resetRequested := true |>.

(** ** Addresses *)

Definition resetEndpointState (n : NTP) : NTP :=
  n <| n_kodMinPoll := 0 |> <| n_effPollMax := c_PollMax (n_cfg n) |> <| n_poll := c_PollMin (n_cfg n) |>
    <| n_kissedRate := false |> <| n_meta := [] |> <| n_metaNext := 0%nat |> <| n_haveStratum := false |>
    <| n_filter := Filter_Reset (n_filter n) |>.

Definition useAddr (n : NTP) (addr : AddrPort) : NTP :=
  if n_haveAddr n && bool_decide (addr = n_addr n) then n
  else
    let n := n <| n_addr := addr |> <| n_haveAddr := true |> in
    updateInfo (resetEndpointState n) (fun i => i <| i_Resolved := addr |>).

(** The index of an address in a list, from [i]. *)
Fixpoint index_from (i : nat) (a : AddrPort) (l : list AddrPort) : option nat :=
  match l with
  | [] => None
  | b :: rest => if bool_decide (b = a) then Some i else index_from (S i) a rest
  end.

(** [setAddrs]; [None] is the index panic of an empty answer. *)
Definition setAddrs (n : NTP) (addrs : list AddrPort) : option NTP :=
  let n := n <| n_addrs := addrs |> in
  match addrs with
  | [] => None
  | first :: _ =>
      if negb (n_haveAddr n) then Some (useAddr n first)
      else
        match index_from 0 (n_addr n) addrs with
        | Some i => Some (n <| n_addrIndex := i |>)
        | None => Some (useAddr n first)
        end
  end.

Definition rotateAddr (n : NTP) : NTP :=
  if (length (n_addrs n) <? 2)%nat then n
  else
    let i := ((n_addrIndex n + 1) mod length (n_addrs n))%nat in
    let n := n <| n_addrIndex := i |> in
    useAddr n (nth i (n_addrs n) noAddr).

(** [resolve]; [literal] is the host parsed as an address and [answer] what the
    resolver returned for it otherwise. *)
Definition resolve (literal : option Addr) (answer : option (list Addr)) (port : Z) : option (list AddrPort) :=
  match literal with
  | Some a => Some [mkAddrPort (Unmap a) port]
  | None =>
      addrs ← answer;
      if (length addrs =? 0)%nat then None else Some ((fun a => mkAddrPort (Unmap a) port) <$> addrs)
  end.

(** [ensureResolved]; [lookup] is the resolver's answer, [cancelled] whether
    the context is done after it failed. *)
Definition ensureResolved (n : NTP) (lookup : option (list AddrPort)) (cancelled : bool) : option (NTP * bool) :=
  if n_haveAddr n && (n_consecutiveTimeouts n <? resolveAfterTimeouts) then Some (n, true)
  else
    let endpointFailed := n_haveAddr n && (resolveAfterTimeouts <=? n_consecutiveTimeouts n) in
    match lookup with
    | None =>
        if cancelled then Some (n, false)
        else
          let n := n <| n_resolveFailing := true |> in
          let n := updateInfo n (fun i => i <| i_LastError := LookupError |>) in
          let n := if endpointFailed then rotateAddr n else n in
          Some (n, n_haveAddr n)
    | Some addrs =>
        n ← setAddrs (n <| n_resolveFailing := false |>) addrs;
        let n := if endpointFailed then rotateAddr n else n in
        let n := n <| n_consecutiveTimeouts := 0 |> in
        Some (updateInfo n (fun i => i <| i_Resolved := n_addr n |>), true)
    end.

(** ** Metadata of the observations *)

Definition noteMeta (n : NTP) (m : stageMeta) : NTP :=
  if (length (n_meta n) <? FilterStages)%nat then n <| n_meta := n_meta n ++ [m] |>
  else n <| n_meta := <[n_metaNext n := m]> (n_meta n) |>
         <| n_metaNext := ((n_metaNext n + 1) mod FilterStages)%nat |>.

Definition metaAt (n : NTP) (t : f64) : option stageMeta := List.find (fun m => feq (sm_at m) t) (n_meta n).

(** ** Outcomes of a poll *)

(** [n.reach<<1 | 1] and [n.reach << 1] on a uint8. *)
Definition reach_hit (r : Z) : Z := Z.lor (u8 (Z.shiftl r 1)) 1.
Definition reach_miss (r : Z) : Z := u8 (Z.shiftl r 1).

Definition pollFloor (n : NTP) : Z :=
  if c_PollMin (n_cfg n) <? n_kodMinPoll n then n_kodMinPoll n else c_PollMin (n_cfg n).

Definition show_state (n : NTP) : NTP :=
  updateInfo n (fun i => i <| i_Reach := n_reach n |> <| i_Poll := n_poll n |>).

Definition shouldLogErr (n : NTP) : NTP * bool :=
  let e := u64 (n_consecutiveErrs n + 1) in
  (n <| n_consecutiveErrs := e |>, (e =? 1) || (e mod logEvery =? 0)).

Definition miss (n : NTP) : NTP :=
  let n := n <| n_reach := reach_miss (n_reach n) |> <| n_consecutiveMisses := n_consecutiveMisses n + 1 |> in
  let n :=
    if (n_reach n =? 0) && (unreachableBackoff <=? n_consecutiveMisses n) && (n_poll n <? n_effPollMax n)
    then n <| n_poll := i8 (n_poll n + 1) |> else n in
  show_state n.

Definition discardStale (n : NTP) : NTP :=
  let n := n <| n_reach := reach_hit (n_reach n) |> <| n_consecutiveTimeouts := 0 |>
             <| n_consecutiveMisses := 0 |> <| n_consecutiveErrs := 0 |>
             <| n_staleSeen := u64 (n_staleSeen n + 1) |> in
  show_state (updateInfo n (fun i => i <| i_Stale := u64 (i_Stale i + 1) |>)).

Definition code_RATE : list Z := [82; 65; 84; 69].
Definition code_DENY : list Z := [68; 69; 78; 89].
Definition code_RSTR : list Z := [82; 83; 84; 82].

(** The poll a RATE kiss settles on, and the association's new maximum. *)
Definition rate_demand (n : NTP) (pkt : Packet) : Z * Z :=
  let want := i8 (n_poll n + 1) in
  let want := if want <? Poll pkt then Poll pkt else want in
  let remoteCap := if maxRemoteBackoffPoll <? c_PollMax (n_cfg n) then c_PollMax (n_cfg n) else maxRemoteBackoffPoll in
  let want := if remoteCap <? want then remoteCap else want in
  let eff := if n_effPollMax n <? want then want else n_effPollMax n in
  (clampPoll want (c_PollMin (n_cfg n)) eff, eff).

Definition handleKiss (n : NTP) (code : list Z) (pkt : Packet) (authenticated : bool) : NTP :=
  let n := updateInfo n (fun i => i <| i_Kiss := u64 (i_Kiss i + 1) |> <| i_LastError := KissCodeError code |>) in
  if bool_decide (code = code_RATE) then
    let '(want, eff) := rate_demand n pkt in
    let n := n <| n_effPollMax := eff |> in
    let n := if n_kodMinPoll n <? want then n <| n_kodMinPoll := want |> else n in
    miss (n <| n_poll := want |> <| n_kissedRate := true |>)
  else if bool_decide (code = code_DENY) || bool_decide (code = code_RSTR) then
    if authenticated then
      let n := (miss (n <| n_denied := true |>)) <| n_reach := 0 |> in
      updateInfo n (fun i => i <| i_Denied := true |> <| i_Reach := 0 |>)
    else miss n
  else miss n.

Record sample : Type := mkSample { sa_res : exchangeResult; sa_f : Output; sa_meta : stageMeta }.

Definition meta_of (res : exchangeResult) (at_ : f64) : stageMeta :=
  let pkt := xPacket res in
  mkStageMeta at_ (Stratum pkt) (ReferenceID pkt) (ShortSeconds (RootDelay pkt)) (ShortSeconds (RootDispersion pkt))
    (Precision pkt) (Leap pkt) (TimeTime (ReferenceTime pkt) (T1 res)).

(** The local dispersion of a reply. *)
Definition reply_disp (n : NTP) (res : exchangeResult) : f64 :=
  fadd (fadd (Log2Seconds (n_precision n)) (Log2Seconds (clampPrecision (Precision (xPacket res)))))
       (fmul Phi (Seconds (Sub (T4 res) (T1 res)))).

(** The part of [hit] before the sample enters the filter. *)
Definition prime (n : NTP) (res : exchangeResult) : NTP :=
  let wasUnreachable := n_reach n =? 0 in
  let n := n <| n_reach := reach_hit (n_reach n) |> <| n_consecutiveTimeouts := 0 |>
             <| n_consecutiveMisses := 0 |> <| n_consecutiveErrs := 0 |> in
  let n := if wasUnreachable then n <| n_poll := pollFloor n |> else n in
  let n := if n_resetRequested n then n <| n_filter := Filter_Reset (n_filter n) |> else n in
  let n := n <| n_resetRequested := false |> in
  let n :=
    if n_haveStratum n && negb (Stratum (xPacket res) =? n_lastStratum n)
    then n <| n_filter := Filter_Reset (n_filter n) |> <| n_meta := [] |> <| n_metaNext := 0%nat |>
    else n in
  n <| n_lastStratum := Stratum (xPacket res) |> <| n_haveStratum := true |>.

(** [hit]; [at_] is the monotonic clock. *)
Definition hit (n : NTP) (res : exchangeResult) (at_ : f64) : NTP * option sample :=
  let pkt := xPacket res in
  let disp := reply_disp n res in
  let n := prime n res in
  let n := n <| n_liveLeap := Leap pkt |> <| n_liveLeapAt := at_ |> in
  let n := noteMeta n (meta_of res at_) in
  let '(f', f, updated) := Filter_Add (n_filter n) (xOffset res) (xDelay res) disp at_ in
  let n := n <| n_filter := f' |> in
  let n := updateInfo n (fun i =>
    let i := i <| i_Received := u64 (i_Received i + 1) |> <| i_LastRx := T4 res |> <| i_LastError := NoError |>
               <| i_Stratum := Stratum pkt |> <| i_RefID := ReferenceID pkt |> <| i_Leap := Leap pkt |> in
    let i := if KernelTS res then i else i <| i_NoKernelTS := u64 (i_NoKernelTS i + 1) |> in
    if updated : bool
    then i <| i_Offset := o_Offset f |> <| i_Delay := o_Delay f |> <| i_Dispersion := o_Dispersion f |>
           <| i_Jitter := o_Jitter f |>
    else i) in
  if negb updated then (show_state n, None)
  else
    let n := n <| n_poll := adaptPoll (n_poll n) (o_Offset f) (o_Jitter f) (pollFloor n) (n_effPollMax n) |> in
    let n := show_state n in
    let meta := match metaAt n (o_At f) with
                | Some m => m
                | None => meta_of res (o_At f)
                end in
    (n, Some (mkSample res f meta)).

(** [emit]: the measurement of the poll that just completed; [now] is the
    monotonic clock. *)
Definition emit (n : NTP) (now : f64) (s : option sample) (gen : Z) (acquired : bool) : Measurement :=
  let base := mkMeasurement (c_Name (n_cfg n)) now (n_reach n) (n_poll n) gen false acquired acquired
    (n_liveLeap n) (n_liveLeapAt n) false fzero fzero fzero fzero fzero 0 0 zeroRefID fzero fzero 0 zeroTime zeroRefID in
  match s with
  | None => base
  | Some s =>
      let f := sa_f s in
      let m := sa_meta s in
      mkMeasurement (c_Name (n_cfg n)) now (n_reach n) (n_poll n) gen true acquired acquired
        (n_liveLeap n) (n_liveLeapAt n) false (o_At f) (o_Offset f) (o_Delay f) (o_Dispersion f) (o_Jitter f)
        (sm_leap m) (sm_stratum m) (sm_refID m) (sm_rootDelay m) (sm_rootDisp m) (sm_precision m) (sm_refTime m)
        (RefIDFromAddr (ap_addr (n_addr n)))
  end.

(** ** A poll *)

Definition count_error (f : Info -> Info) (e : ExchangeError) (n : NTP) : NTP :=
  updateInfo n (fun i => f i <| i_LastError := ExchangeFailed e |>).

(** An endpoint failure: a timeout, or an ICMP error. *)
Definition endpoint_failed (e : ExchangeError) (n : NTP) : NTP :=
  let n := n <| n_consecutiveTimeouts := n_consecutiveTimeouts n + 1 |> in
  miss (count_error (fun i => i <| i_Timeouts := u64 (i_Timeouts i + 1) |>) e n).

(** What an error of the exchange does; [None] when the context is done. *)
Definition failed (n : NTP) (e : ExchangeError) : NTP :=
  match e with
  | ErrTimeout | ErrUnreachable | ErrNetworkUnreachable => endpoint_failed e n
  | ErrBadAuth =>
      let n := n <| n_badAuthSeen := u64 (n_badAuthSeen n + 1) |> in
      miss (count_error (fun i => i <| i_BadAuth := u64 (i_BadAuth i + 1) |>) e n)
  | ErrKiss code pkt authenticated => handleKiss n code pkt authenticated
  | ErrBogus _ =>
      let n := n <| n_bogusSeen := u64 (n_bogusSeen n + 1) |> in
      miss (count_error (fun i => i <| i_Bogus := u64 (i_Bogus i + 1) |>) e n)
  | _ => miss (count_error (fun i => i) e (fst (shouldLogErr n)))
  end.

(** The readings of one poll: the epoch before and after, the epoch when the
    measurement is emitted without a sample, the monotonic clock, whether the
    context was done, and whether the engine called [Reset] since the last
    poll's reply. *)
Record poll_env : Type := mkPollEnv {
  pe_gen : Z;
  pe_genAfter : Z;
  pe_genEmit : Z;
  pe_at : f64;
  pe_now : f64;
  pe_cancelled : bool;
  pe_reset : bool
}.

Section Poll.
Context `{BlockCipher}.

(** [pollOnce]: the state and the measurement; no measurement when the
    context is done.  [None] is a panic. *)
Definition pollOnce (n : NTP) (s : socket) (pe : poll_env) : option (NTP * option Measurement) :=
  '(res, err) ← exchange (mkExchangeParams (n_addr n) (c_Key (n_cfg n)) (n_poll n)
                  (negb (c_NoKernelTimestamps (n_cfg n))) (n_precision n)) s;
  let n := if Sent res then updateInfo n (fun i => i <| i_Sent := u64 (i_Sent i + 1) |>) else n in
  let n := if pe_reset pe then Reset n else n in
  match err with
  | None =>
      let now := pe_genAfter pe in
      if negb (now =? pe_gen pe) || (negb (now =? 0) && negb (StableEpoch now)) then
        let n := discardStale n in
        Some (n, Some (emit n (pe_now pe) None (pe_genEmit pe) false))
      else
        let '(n, sm) := hit n res (pe_at pe) in
        let gen := match sm with None => pe_genEmit pe | Some _ => pe_gen pe end in
        Some (n, Some (emit n (pe_now pe) sm gen true))
  | Some e =>
      if pe_cancelled pe then Some (n, None)
      else
        let n := failed n e in
        Some (n, Some (emit n (pe_now pe) None (pe_genEmit pe) false))
  end.

(** One turn of the loop of [Run], with its polls in order; a burst is
    abandoned once the server denied us or asked us to slow down. *)
Fixpoint burst (k : nat) (n : NTP) (polls : list (socket * poll_env)) : option (NTP * list Measurement) :=
  match k, polls with
  | S k, (s, pe) :: rest =>
      if n_denied n || n_kissedRate n then Some (n, [])
      else
        '(n, m) ← pollOnce n s pe;
        match m with
        | None => Some (n, [])
        | Some m => '(n, ms) ← burst k n rest; Some (n, m :: ms)
        end
  | _, _ => Some (n, [])
  end.

Record turn : Type := mkTurn {
  tu_lookup : option (list AddrPort);
  tu_cancelled : bool;
  tu_polls : list (socket * poll_env);
  tu_miss : poll_env
}.

Definition run_turn (n : NTP) (t : turn) : option (NTP * list Measurement) :=
  if n_denied n then Some (n, [])
  else
    '(n, resolved) ← ensureResolved n (tu_lookup t) (tu_cancelled t);
    if negb resolved then
      if tu_cancelled t then Some (n, [])
      else
        let n := miss n in
        Some (n, [emit n (pe_now (tu_miss t)) None (pe_genEmit (tu_miss t)) false])
    else if c_IBurst (n_cfg n) && (n_reach n =? 0) then
      burst burstCount (n <| n_kissedRate := false |>) (tu_polls t)
    else
      match tu_polls t with
      | [] => Some (n, [])
      | (s, pe) :: _ =>
          '(n, m) ← pollOnce n s pe;
          Some (n, match m with None => [] | Some m => [m] end)
      end.


End Poll.

(** ** The poll policy *)

(** The poll exponent stays between the floor (the configured minimum and any
    RATE demand) and the association's maximum, which a remote demand can
    raise to 13 at most. *)
Record poll_ok (n : NTP) : Prop := {
  po_cfg : MinPoll <= c_PollMin (n_cfg n) <= c_PollMax (n_cfg n) /\ c_PollMax (n_cfg n) <= MaxPoll;
  po_eff : c_PollMax (n_cfg n) <= n_effPollMax n <= Z.max maxRemoteBackoffPoll (c_PollMax (n_cfg n));
  po_kod : 0 <= n_kodMinPoll n <= n_effPollMax n;
  po_poll : pollFloor n <= n_poll n <= n_effPollMax n
}.

(** The fields the policy is about. *)
Definition same_policy (n n' : NTP) : Prop :=
  n_cfg n' = n_cfg n /\ n_effPollMax n' = n_effPollMax n /\ n_kodMinPoll n' = n_kodMinPoll n /\ n_poll n' = n_poll n.

Lemma same_policy_ok n n' : same_policy n n' -> poll_ok n -> poll_ok n'.
Proof.
  intros (H1 & H2 & H3 & H4) [P1 P2 P3 P4]. unfold pollFloor in P4.
  constructor; unfold pollFloor; rewrite ?H1, ?H2, ?H3, ?H4; done.
Qed.

Lemma pollFloor_max n : pollFloor n = Z.max (c_PollMin (n_cfg n)) (n_kodMinPoll n).
Proof. unfold pollFloor. case_goal; bool_step; lia. Qed.

(** What an operation does to the demand: it keeps the peer, and does not
    lower what that peer asked for. *)
Definition keeps_demand (n n' : NTP) : Prop :=
  n_cfg n' = n_cfg n /\ n_addr n' = n_addr n /\ n_haveAddr n' = n_haveAddr n /\ n_kodMinPoll n <= n_kodMinPoll n' /\
  n_addrs n' = n_addrs n /\ n_addrIndex n' = n_addrIndex n.

(** Reading a field after updates of other fields. *)
Ltac fields :=
  cbn [n_cfg n_precision n_filter n_resetRequested n_info n_addr n_addrs n_addrIndex n_haveAddr n_resolveFailing n_reach n_poll n_consecutiveTimeouts n_consecutiveMisses n_consecutiveErrs n_denied n_kodMinPoll n_effPollMax n_kissedRate n_meta n_metaNext n_lastStratum n_haveStratum n_liveLeap n_liveLeapAt n_badAuthSeen n_bogusSeen n_staleSeen set].

Ltac fields_all :=
  cbn [n_cfg n_precision n_filter n_resetRequested n_info n_addr n_addrs n_addrIndex n_haveAddr n_resolveFailing n_reach n_poll n_consecutiveTimeouts n_consecutiveMisses n_consecutiveErrs n_denied n_kodMinPoll n_effPollMax n_kissedRate n_meta n_metaNext n_lastStratum n_haveStratum n_liveLeap n_liveLeapAt n_badAuthSeen n_bogusSeen n_staleSeen set] in *.

(** Goals about fields an operation does not touch. *)
Ltac frame_field :=
  lazymatch goal with
  | |- _ = _ =>
      repeat match goal with n : NTP |- _ => destruct n end; fields_all; first [reflexivity | assumption | congruence]
  | |- _ => fields; first [lia | assumption]
  end.

Ltac frame :=
  repeat match goal with H : _ /\ _ |- _ => destruct H end;
  repeat lazymatch goal with
  | |- same_policy _ _ => unfold same_policy
  | |- keeps_demand _ _ => unfold keeps_demand
  end;
  unfold show_state, resetEndpointState, updateInfo; repeat apply conj; frame_field.

Ltac policy := unfold MinPoll, MaxPoll, maxRemoteBackoffPoll in *; rewrite ?pollFloor_max in *; repeat apply conj; fields; lia.

Lemma i8_small x : -128 <= x < 128 -> i8 x = x.
Proof. intros H. apply wraps_id; [lia|]. unfold in_s. cbn. lia. Qed.

Lemma keeps_demand_trans n1 n2 n3 : keeps_demand n1 n2 -> keeps_demand n2 n3 -> keeps_demand n1 n3.
Proof. intros (? & ? & ? & ? & ? & ?) (? & ? & ? & ? & ? & ?). repeat split; (congruence || lia). Qed.

Lemma reset_poll_ok n : poll_ok n -> poll_ok (resetEndpointState n).
Proof.
  intros [P1 P2 P3 P4]. unfold resetEndpointState. constructor; rewrite ?pollFloor_max in *; fields; policy.
Qed.

Lemma useAddr_poll_ok n a : poll_ok n -> poll_ok (useAddr n a).
Proof.
  intros Hp. unfold useAddr. case_goal; [done|].
  apply (same_policy_ok (resetEndpointState (n <| n_addr := a |> <| n_haveAddr := true |>))); [frame|].
  apply reset_poll_ok. apply (same_policy_ok n); [frame|done].
Qed.

Lemma miss_poll_ok n : poll_ok n -> poll_ok (miss n).
Proof.
  intros Hp. unfold miss.
  match goal with |- poll_ok (show_state (if ?b then ?x else ?y)) => set (c := b); set (n1 := y) end.
  assert (poll_ok n1) as P1 by (apply (same_policy_ok n); [unfold n1; frame|done]).
  assert (c = true -> n_poll n1 < n_effPollMax n1) as Hc.
  { unfold c. intros E. apply andb_true_iff in E as [_ E]. by apply Z.ltb_lt in E. }
  clearbody c n1. destruct c; [|apply (same_policy_ok n1); [frame|done]].
  apply (same_policy_ok (n1 <| n_poll := i8 (n_poll n1 + 1) |>)); [frame|].
  specialize (Hc eq_refl). destruct P1 as [Q1 Q2 Q3 Q4].
  assert (i8 (n_poll n1 + 1) = n_poll n1 + 1) as E.
  { apply i8_small. unfold MinPoll, MaxPoll, maxRemoteBackoffPoll in *. rewrite pollFloor_max in Q4. lia. }
  constructor; rewrite ?pollFloor_max in *; fields; rewrite ?E; lia.
Qed.

Lemma miss_keeps n : keeps_demand n (miss n).
Proof. unfold miss. case_goal; frame. Qed.

Lemma miss_effect n : n_effPollMax (miss n) = n_effPollMax n /\ n_denied (miss n) = n_denied n.
Proof. unfold miss. case_goal; frame. Qed.

Lemma if_max a b : (if a <? b then b else a) = Z.max a b.
Proof. case_goal; bool_step; lia. Qed.

Lemma if_min a b : (if a <? b then a else b) = Z.min a b.
Proof. case_goal; bool_step; lia. Qed.

(** The demand is at least one step beyond the current poll, unless capped. *)
Lemma rate_demand_spec n pkt want eff :
  poll_ok n -> in_s 8 (Poll pkt) -> rate_demand n pkt = (want, eff) ->
  n_effPollMax n <= eff <= Z.max maxRemoteBackoffPoll (c_PollMax (n_cfg n)) /\
  want <= eff /\ pollFloor n <= want /\
  want = Z.max (c_PollMin (n_cfg n)) (Z.min (Z.max maxRemoteBackoffPoll (c_PollMax (n_cfg n)))
           (Z.max (n_poll n + 1) (Poll pkt))).
Proof.
  intros [P1 P2 P3 P4] Hp. unfold rate_demand. rewrite i8_small by policy. cbv zeta.
  rewrite !if_max, !if_min. unfold clampPoll. intros E. apply pair_equal_spec in E as [<- <-].
  unfold maxRemoteBackoffPoll, MinPoll, MaxPoll in *. rewrite pollFloor_max in *.
  repeat (case_goal; bool_step); lia.
Qed.

Lemma handleKiss_poll_ok n code pkt auth :
  poll_ok n -> in_s 8 (Poll pkt) -> poll_ok (handleKiss n code pkt auth) /\ keeps_demand n (handleKiss n code pkt auth).
Proof.
  intros Hp Hr. unfold handleKiss.
  set (n0 := updateInfo n _). assert (poll_ok n0) as P0 by (apply (same_policy_ok n); [unfold n0; frame|done]).
  assert (keeps_demand n n0) as K0 by (unfold n0; frame).
  clearbody n0.
  case_goal; [|case_goal; [case_goal|]].
  - destruct (rate_demand n0 pkt) as [want eff] eqn:E.
    destruct (rate_demand_spec n0 pkt want eff P0 Hr E) as (R1 & R2 & R3 & _). destruct P0 as [Q1 Q2 Q3 Q4].
    split.
    + apply miss_poll_ok. fields. case_goal; bool_step; constructor; rewrite ?pollFloor_max in *; fields; policy.
    + eapply keeps_demand_trans; [exact K0|]. eapply keeps_demand_trans; [|apply miss_keeps].
      fields. case_goal; bool_step; frame.
  - set (n1 := miss _). assert (poll_ok n1) as P1 by (apply miss_poll_ok; apply (same_policy_ok n0); [frame|done]).
    split; [apply (same_policy_ok n1); [clearbody n1; frame|done]|]. eapply keeps_demand_trans; [exact K0|].
    pose proof (miss_keeps (n0 <| n_denied := true |>)) as (M1 & M2 & M3 & M4). fold n1 in M1, M2, M3, M4.
    revert M1 M2 M3 M4. clearbody n1. fields. intros. frame.
  - split; [by apply miss_poll_ok|]. eapply keeps_demand_trans; [exact K0|apply miss_keeps].
  - split; [by apply miss_poll_ok|]. eapply keeps_demand_trans; [exact K0|apply miss_keeps].
Qed.

Lemma adaptPoll_range poll offset jitter lo hi : lo <= hi -> lo <= adaptPoll poll offset jitter lo hi <= hi.
Proof. intros H. unfold adaptPoll, clampPoll. repeat (case_goal; bool_step); lia. Qed.

Lemma prime_policy n res :
  poll_ok n -> poll_ok (prime n res) /\ keeps_demand n (prime n res) /\ n_denied (prime n res) = n_denied n.
Proof.
  intros [P1 P2 P3 P4]. unfold prime.
  set (n1 := n <| n_reach := _ |> <| n_consecutiveTimeouts := 0 |> <| n_consecutiveMisses := 0 |> <| n_consecutiveErrs := 0 |>).
  assert (poll_ok (if n_reach n =? 0 then n1 <| n_poll := pollFloor n1 |> else n1) /\
    keeps_demand n (if n_reach n =? 0 then n1 <| n_poll := pollFloor n1 |> else n1) /\
    n_denied (if n_reach n =? 0 then n1 <| n_poll := pollFloor n1 |> else n1) = n_denied n) as (H1 & H2 & H3).
  { subst n1. case_goal; (split; [constructor; rewrite ?pollFloor_max in *; fields; policy|split; frame]). }
  revert H1 H2 H3. generalize (if n_reach n =? 0 then n1 <| n_poll := pollFloor n1 |> else n1) as n2. intros n2 H1 H2 H3.
  repeat match goal with |- context [if ?b then _ else _] => destruct b end;
    (split; [apply (same_policy_ok n2); [frame|done]|]); destruct H2 as (? & ? & ? & ?); frame.
Qed.

Lemma noteMeta_policy n m : same_policy n (noteMeta n m) /\ keeps_demand n (noteMeta n m) /\ n_denied (noteMeta n m) = n_denied n.
Proof. unfold noteMeta. case_goal; frame. Qed.

Lemma hit_policy n res at_ n' s :
  poll_ok n -> hit n res at_ = (n', s) -> poll_ok n' /\ keeps_demand n n' /\ n_denied n' = n_denied n.
Proof.
  intros Hp. unfold hit. destruct (prime_policy n res Hp) as (P1 & K1 & D1). set (n1 := prime n res) in *.
  set (n2 := n1 <| n_liveLeap := _ |> <| n_liveLeapAt := at_ |>).
  destruct (noteMeta_policy n2 (meta_of res at_)) as (P3 & K3 & D3). set (n3 := noteMeta n2 (meta_of res at_)) in *.
  assert (poll_ok n3) as P3' 
    by (apply (same_policy_ok n2); [done|apply (same_policy_ok n1); [unfold n2; frame|done]]).
  assert (keeps_demand n n3) as K3'.
  { eapply keeps_demand_trans; [exact K1|]. eapply keeps_demand_trans; [|exact K3]. unfold n2. frame. }
  assert (n_denied n3 = n_denied n) as D3' by (rewrite D3; unfold n2; frame).
  clearbody n3. clear - P3' K3' D3'. destruct (Filter_Add _ _ _ _ _) as [[f' f] updated]. destruct updated; cbn [negb].
  - intros E. apply pair_equal_spec in E as [<- _]. destruct P3' as [Q1 Q2 Q3 Q4].
    destruct K3' as (K1 & K2 & K3 & K4). split; [|frame].
    unfold show_state, updateInfo. constructor; rewrite ?pollFloor_max in *; fields; try assumption.
    apply adaptPoll_range. lia.
  - intros E. apply pair_equal_spec in E as [<- _]. split; [apply (same_policy_ok n3); [frame|done]|].
    destruct K3' as (K1 & K2 & K3 & K4). frame.
Qed.

Lemma discardStale_policy n :
  same_policy n (discardStale n) /\ keeps_demand n (discardStale n) /\ n_denied (discardStale n) = n_denied n.
Proof. unfold discardStale. frame. Qed.

(** The kiss a failure carries has an int8 poll. *)
Definition error_ok (e : ExchangeError) : Prop :=
  match e with ErrKiss _ pkt _ => in_s 8 (Poll pkt) | _ => True end.

Lemma failed_policy n e :
  poll_ok n -> error_ok e -> poll_ok (failed n e) /\ keeps_demand n (failed n e).
Proof.
  intros Hp He.
  assert (forall n1, same_policy n n1 -> keeps_demand n n1 -> poll_ok (miss n1) /\ keeps_demand n (miss n1)) as Hmiss.
  { intros n1 H1 H2. split; [apply miss_poll_ok; by apply (same_policy_ok n)|].
    eapply keeps_demand_trans; [exact H2|apply miss_keeps]. }
  unfold failed, endpoint_failed, count_error, shouldLogErr. cbn [fst].
  destruct e; try (apply Hmiss; frame). by apply handleKiss_poll_ok.
Qed.

(** ** Addresses *)

(** The index names the address in use once there is a choice. *)
Definition idx_ok (n : NTP) : Prop :=
  (n_haveAddr n = false -> n_addrIndex n = 0%nat) /\
  (n_haveAddr n = true -> (2 <= length (n_addrs n))%nat -> n_addrs n !! n_addrIndex n = Some (n_addr n)).

Lemma useAddr_spec n a :
  n_addr (useAddr n a) = a /\ n_haveAddr (useAddr n a) = true /\ n_addrs (useAddr n a) = n_addrs n /\
  n_addrIndex (useAddr n a) = n_addrIndex n /\ (n_cfg (useAddr n a) = n_cfg n /\ n_denied (useAddr n a) = n_denied n) /\
  (n_haveAddr n = true -> a = n_addr n -> useAddr n a = n) /\
  (n_haveAddr n = false \/ a <> n_addr n ->
     contents (n_filter (useAddr n a)) = [] /\ n_poll (useAddr n a) = c_PollMin (n_cfg n) /\
     n_kodMinPoll (useAddr n a) = 0 /\ n_effPollMax (useAddr n a) = c_PollMax (n_cfg n)).
Proof.
  unfold useAddr. destruct (n_haveAddr n && bool_decide (a = n_addr n)) eqn:E.
  - repeat bool_step. subst a. repeat (split; [done|]). intros [?|?]; congruence.
  - unfold updateInfo, resetEndpointState. destruct n. fields_all. repeat (split; [first [reflexivity|split; reflexivity]|]). split.
    + intros -> ->. rewrite bool_decide_true in E by done. done.
    + intros _. repeat apply conj; reflexivity.
Qed.

Lemma index_from_spec i a l :
  match index_from i a l with
  | Some j => (i <= j)%nat /\ l !! (j - i)%nat = Some a
  | None => a ∉ l
  end.
Proof.
  revert i. induction l as [|b l IH]; intros i; cbn [index_from]; [apply not_elem_of_nil|].
  case_bool_decide as E.
  - subst. rewrite Nat.sub_diag. done.
  - specialize (IH (S i)). destruct (index_from (S i) a l) as [j|].
    + destruct IH as [Hj Hl]. split; [lia|]. replace (j - i)%nat with (S (j - S i)) by lia. done.
    + intros Hin. apply elem_of_cons in Hin as [->|]; done.
Qed.

Lemma rotateAddr_spec n :
  n_haveAddr n = true -> idx_ok (rotateAddr n) /\ n_haveAddr (rotateAddr n) = true /\
  (n_cfg (rotateAddr n) = n_cfg n /\ n_denied (rotateAddr n) = n_denied n) /\
  n_addrs (rotateAddr n) = n_addrs n /\
  (n_addr (rotateAddr n) = n_addr n -> same_policy n (rotateAddr n)) /\
  ((2 <= length (n_addrs n))%nat -> n_addrIndex (rotateAddr n) = ((n_addrIndex n + 1) mod length (n_addrs n))%nat /\
     n_addrs n !! n_addrIndex (rotateAddr n) = Some (n_addr (rotateAddr n))).
Proof.
  intros Hh. unfold rotateAddr. destruct (length (n_addrs n) <? 2)%nat eqn:E; bool_step.
  - split; [split; [congruence|intros; lia]|]. split; [done|]. split; [by split|]. split; [done|].
    split; [intros _; by repeat split|lia].
  - cbv zeta. set (i := ((n_addrIndex n + 1) mod length (n_addrs n))%nat).
    set (n1 := n <| n_addrIndex := i |>).
    assert (n_addrs n1 = n_addrs n /\ n_addrIndex n1 = i /\ n_haveAddr n1 = true /\ (n_cfg n1 = n_cfg n /\ n_denied n1 = n_denied n) /\
      n_addr n1 = n_addr n /\ same_policy n n1) as (A1 & A2 & A3 & A4 & A5 & A6)
      by (unfold n1; repeat apply conj; first [reflexivity|exact Hh|repeat split]).
    clearbody n1. rewrite A1. set (a := nth i (n_addrs n) noAddr).
    assert (n_addrs n !! i = Some a) as Hi.
    { destruct (lookup_lt_is_Some_2 (n_addrs n) i) as [x Hx].
      - unfold i. apply Nat.mod_upper_bound. lia.
      - unfold a. by rewrite (nth_lookup_Some _ _ _ _ Hx). }
    destruct (useAddr_spec n1 a) as (U1 & U2 & U3 & U4 & U5 & U6 & _).
    split; [|split; [done|split; [split; destruct U5, A4; congruence|split; [congruence|split]]]].
    + split; [congruence|]. intros _ _. by rewrite U3, U4, U1, A1, A2.
    + rewrite U1. intros Ha. rewrite (U6 A3) by congruence. done.
    + intros _. by rewrite U4, A2, U1.
Qed.

Lemma rotateAddr_poll_ok n : poll_ok n -> poll_ok (rotateAddr n).
Proof.
  intros Hp. unfold rotateAddr. case_goal; [done|]. apply useAddr_poll_ok.
  apply (same_policy_ok n); [by repeat split|done].
Qed.

(** Adopting an answer list. *)
Lemma setAddrs_spec n addrs :
  poll_ok n -> addrs <> [] ->
  exists n', setAddrs n addrs = Some n' /\ poll_ok n' /\ n_haveAddr n' = true /\ n_addrs n' = addrs /\
    (n_cfg n' = n_cfg n /\ n_denied n' = n_denied n) /\
    (n_haveAddr n = true -> n_addr n' = n_addr n -> same_policy n n' /\ addrs !! n_addrIndex n' = Some (n_addr n)) /\
    (n_haveAddr n = true -> n_addr n' <> n_addr n -> n_addr n ∉ addrs) /\
    (n_haveAddr n = false -> n_addrIndex n' = n_addrIndex n /\ head addrs = Some (n_addr n')).
Proof.
  intros Hp Hne. unfold setAddrs. set (n1 := n <| n_addrs := addrs |>).
  assert (poll_ok n1 /\ n_addrs n1 = addrs /\ n_haveAddr n1 = n_haveAddr n /\ n_addr n1 = n_addr n /\
    (n_cfg n1 = n_cfg n /\ n_denied n1 = n_denied n) /\ same_policy n n1 /\ n_addrIndex n1 = n_addrIndex n)
    as (P1 & A1 & A2 & A3 & A4 & A5 & A6).
  { split; [apply (same_policy_ok n); [by repeat split|done]|]. by repeat split. }
  clearbody n1. cbv zeta. destruct addrs as [|first rest]; [done|]. rewrite A2.
  assert (forall nn, nn = useAddr n1 first -> poll_ok nn /\ n_haveAddr nn = true /\ n_addrs nn = first :: rest /\
    (n_cfg nn = n_cfg n /\ n_denied nn = n_denied n) /\ n_addr nn = first /\ n_addrIndex nn = n_addrIndex n) as Huse.
  { intros nn ->. destruct (useAddr_spec n1 first) as (U1 & U2 & U3 & U4 & [U5 U6] & _). destruct A4.
    split; [by apply useAddr_poll_ok|]. repeat split; congruence. }
  destruct (n_haveAddr n) eqn:Eh; cbn [negb].
  2: { destruct (Huse _ eq_refl) as (H1 & H2 & H3 & H4 & H5 & H6). eexists. split; [done|].
       split; [done|]. split; [done|]. split; [done|]. split; [done|]. split; [done|]. split; [done|].
       intros _. split; [done|]. rewrite H5. reflexivity. }
  rewrite A3. pose proof (index_from_spec 0 (n_addr n) (first :: rest)) as Hix.
  destruct (index_from 0 (n_addr n) (first :: rest)) as [i|].
  - destruct Hix as [_ Hi]. rewrite Nat.sub_0_r in Hi. eexists. split; [done|].
    split; [apply (same_policy_ok n1); [by repeat split|done]|].
    destruct A4, A5 as (? & ? & ? & ?).
    split; [done|]. split; [done|]. split; [by split|]. split; [|split; [by intros _ []|done]].
    intros _ _. split; [by repeat split|exact Hi].
  - destruct (Huse _ eq_refl) as (H1 & H2 & H3 & H4 & H5 & H6). eexists. split; [done|].
    repeat (split; [done|]). split; [|split; [done|done]].
    intros _ E. exfalso. apply Hix. rewrite <- E, H5. by left.
Qed.

(** Resolution: the association's policy survives unless the peer changes. *)
Lemma ensureResolved_spec n lookup cancelled :
  poll_ok n -> idx_ok n -> lookup <> Some [] ->
  exists n' ok, ensureResolved n lookup cancelled = Some (n', ok) /\ poll_ok n' /\ idx_ok n' /\
    (n_cfg n' = n_cfg n /\ n_denied n' = n_denied n) /\
    (n_haveAddr n = true -> n_haveAddr n' = true) /\
    (n_haveAddr n = true -> n_addr n' = n_addr n -> n_kodMinPoll n' = n_kodMinPoll n) /\
    (n_haveAddr n = true -> resolveAfterTimeouts <= n_consecutiveTimeouts n -> cancelled = false ->
       forall addrs, lookup = Some addrs \/ lookup = None /\ addrs = n_addrs n ->
       NoDup addrs -> (2 <= length addrs)%nat ->
       n_addr n' <> n_addr n /\ n_addr n' ∈ addrs).
Proof.
  intros Hp Hi Hl. unfold ensureResolved.
  destruct (n_haveAddr n && (n_consecutiveTimeouts n <? resolveAfterTimeouts)) eqn:E0.
  { repeat bool_step. exists n, true. repeat (split; [done|]). intros _ ? _. lia. }
  assert (forall nn, n_haveAddr nn = true -> n_addrs nn !! n_addrIndex nn = Some (n_addr nn) ->
    NoDup (n_addrs nn) -> (2 <= length (n_addrs nn))%nat ->
    n_addr (rotateAddr nn) <> n_addr nn /\ n_addr (rotateAddr nn) ∈ n_addrs nn) as Hleave.
  { intros nn Hh Hx Hnd Hlen. destruct (rotateAddr_spec nn Hh) as (_ & _ & _ & _ & _ & R).
    destruct (R Hlen) as [R1 R2]. split; [|by eapply list_elem_of_lookup_2].
    intros E. rewrite E in R2. pose proof (NoDup_lookup _ _ _ _ Hnd R2 Hx) as Ei. rewrite R1 in Ei.
    pose proof (lookup_lt_Some _ _ _ Hx) as Hlt.
    destruct (decide (n_addrIndex nn + 1 = length (n_addrs nn))%nat) as [Ee|Ee].
    - rewrite Ee, Nat.Div0.mod_same in Ei. lia.
    - rewrite Nat.mod_small in Ei; lia. }
  destruct lookup as [addrs|].
  - set (n0 := n <| n_resolveFailing := false |>).
    assert (n_haveAddr n0 = n_haveAddr n /\ n_addr n0 = n_addr n /\ (n_cfg n0 = n_cfg n /\ n_denied n0 = n_denied n) /\
      same_policy n n0 /\ n_addrIndex n0 = n_addrIndex n) as (Z1 & Z2 & Z3 & Z4 & Z5) by by repeat split.
    assert (poll_ok n0) as P0 by by apply (same_policy_ok n).
    clearbody n0.
    destruct (setAddrs_spec n0 addrs P0 ltac:(congruence)) as (n1 & E1 & P1 & H1 & A1 & C1 & S1 & S2 & S3).
    rewrite E1. cbn [mbind option_bind]. rewrite Z1, Z2 in *.
    set (failed_ := n_haveAddr n && (resolveAfterTimeouts <=? n_consecutiveTimeouts n)).
    set (n2 := if failed_ then rotateAddr n1 else n1).
    destruct (rotateAddr_spec n1 H1) as (R1 & R2 & R3 & R4 & R5 & R6).
    assert (poll_ok n2) as P2 by (unfold n2; destruct failed_; [by apply rotateAddr_poll_ok|done]).
    assert (n_haveAddr n2 = true) as H2 by (unfold n2; by destruct failed_).
    assert (n_addrs n2 = addrs) as A2 by (unfold n2; destruct failed_; congruence).
    assert (n_cfg n2 = n_cfg n /\ n_denied n2 = n_denied n) as C2.
    { destruct C1, R3, Z3. unfold n2; destruct failed_; split; congruence. }
    assert ((2 <= length addrs)%nat -> addrs !! n_addrIndex n2 = Some (n_addr n2)) as X2.
    { intros Hlen. unfold n2. destruct failed_ eqn:Ef.
      - rewrite <- A1. apply R6. by rewrite A1.
      - destruct (n_haveAddr n) eqn:Eh.
        + cbn [andb] in E0, Ef. subst failed_. cbn [andb] in Ef. bool_step. bool_step. lia.
        + destruct (S3 eq_refl) as [S3a S3b]. rewrite S3a, Z5, (proj1 Hi Eh). by destruct addrs. }
    assert (n_haveAddr n = true -> n_addr n2 = n_addr n -> n_kodMinPoll n2 = n_kodMinPoll n) as K2.
    { intros Hh Ha. destruct (decide (n_addr n1 = n_addr n)) as [E|E].
      - destruct (S1 Hh E) as [(_ & _ & S1a & _) _]. destruct Z4 as (_ & _ & Z4 & _).
        unfold n2 in *. destruct failed_; [|congruence].
        destruct R5 as (_ & _ & R5 & _); [congruence|]. congruence.
      - exfalso. specialize (S2 Hh E). unfold n2 in *. destruct failed_; [|congruence].
        destruct (decide (2 <= length addrs)%nat) as [Hlen|Hlen].
        + apply S2. rewrite <- Ha. rewrite A1 in R6. destruct (R6 Hlen) as [_ R6b]. by eapply list_elem_of_lookup_2.
        + apply E. rewrite <- Ha. unfold rotateAddr. rewrite A1.
          destruct (length addrs <? 2)%nat eqn:El; [done|]. bool_step. lia. }
    eexists _, true. split; [done|]. unfold updateInfo.
    split; [apply (same_policy_ok n2); [clearbody n2; frame|done]|].
    split; [|split; [exact C2|split; [intros _; exact H2|split; [exact K2|]]]].
    + split; [intros E; exfalso; clear - E H2; clearbody n2; destruct n2; fields_all; congruence|].
      intros _. clear - X2 A2. clearbody n2. destruct n2. fields_all. by subst.
    + intros Hh Ht _ addrs' [[= <-]|[? _]] Hnd Hlen; [|done].
      assert (failed_ = true) as Ef by (unfold failed_; rewrite Hh; by apply Z.leb_le).
      change (n_addr n2 <> n_addr n /\ n_addr n2 ∈ addrs). unfold n2. rewrite Ef. rewrite A1 in R6.
      destruct (R6 Hlen) as [R6a R6b]. split; [|by eapply list_elem_of_lookup_2].
      destruct (decide (n_addr n1 = n_addr n)) as [E|E].
      * destruct (S1 Hh E) as [_ S1b]. rewrite <- E. apply Hleave; rewrite ?A1; try done. by rewrite E.
      * intros E'. apply (S2 Hh E). rewrite <- E'. by eapply list_elem_of_lookup_2.
  - destruct cancelled; [eexists n, false; repeat (split; [done|]); done|].
    set (n1 := updateInfo (n <| n_resolveFailing := true |>) _).
    assert (n_haveAddr n1 = n_haveAddr n /\ n_addr n1 = n_addr n /\ (n_cfg n1 = n_cfg n /\ n_denied n1 = n_denied n) /\
      same_policy n n1 /\ n_addrIndex n1 = n_addrIndex n /\ n_addrs n1 = n_addrs n) as (Z1 & Z2 & Z3 & Z4 & Z5 & Z6)
      by by repeat split.
    assert (poll_ok n1) as P1 by by apply (same_policy_ok n).
    assert (idx_ok n1) as I1 by (unfold idx_ok; rewrite Z1, Z2, Z5, Z6; exact Hi).
    clearbody n1. destruct (n_haveAddr n) eqn:Eh; cbn [andb].
    2: { eexists _, _. split; [done|]. repeat (split; [done|]). done. }
    cbn [andb] in E0. bool_step.
    assert ((resolveAfterTimeouts <=? n_consecutiveTimeouts n) = true) as -> by by apply Z.leb_le.
    destruct (rotateAddr_spec n1 Z1) as (R1 & R2 & R3 & R4 & R5 & R6).
    eexists _, _. split; [done|]. split; [by apply rotateAddr_poll_ok|]. split; [done|].
    split; [destruct R3, Z3; split; congruence|]. split; [done|]. split.
    + intros _ Ha. destruct R5 as (_ & _ & -> & _); [congruence|]. by destruct Z4 as (_ & _ & -> & _).
    + intros _ _ _ addrs [?|[_ ->]] Hnd Hlen; [done|]. rewrite <- Z2, <- Z6. apply Hleave; rewrite ?Z6; try done.
      rewrite Z5, Z2. by apply Hi.
Qed.

(** ** A poll and a turn *)

(** The resolver returns an error or at least one address. *)
Lemma resolve_nonempty literal answer port : resolve literal answer port <> Some [].
Proof.
  unfold resolve. destruct literal; [done|]. destruct answer as [l|]; [|done]. cbn [mbind option_bind].
  case_goal; [done|]. by destruct l.
Qed.

(** What a turn relies on: bytes from the socket, and an answer of [resolve]. *)
Definition socket_ok (s : socket) : Prop := Forall (fun r => Forall is_byte (rx_data r)) (so_reads s).
Definition turn_ok (t : turn) : Prop := tu_lookup t <> Some [] /\ Forall (fun p => socket_ok (fst p)) (tu_polls t).

Definition key_ok (n : NTP) : Prop := forall k, c_Key (n_cfg n) = Some k -> length (Secret k) = KeySize.

Record source_ok (n : NTP) : Prop := {
  so_poll : poll_ok n;
  so_idx : idx_ok n;
  so_key : key_ok n
}.

Lemma source_ok_keeps n n' : keeps_demand n n' -> poll_ok n' -> source_ok n -> source_ok n'.
Proof.
  intros (K1 & K2 & K3 & K4 & K5 & K6) Hp [_ Hi Hk]. constructor; [done| |].
  - unfold idx_ok. by rewrite K2, K3, K5, K6.
  - unfold key_ok. by rewrite K1.
Qed.

Lemma keeps_demand_refl n : keeps_demand n n.
Proof. by repeat split. Qed.

Section Turn.
Context `{BlockCipher}.

Lemma exchange_error_ok p s res e :
  socket_ok s -> exchange p s = Some (res, Some e) -> error_ok e.
Proof.
  intros Hs. destruct e as [| | | | | | | | | | |code pkt auth]; try done. intros E.
  apply exchange_kiss in E as (r & mac & off & Hin & Hd & _).
  pose proof (proj1 (Forall_forall _ _) Hs _ Hin) as Hb. cbn beta in Hb.
  apply Decode_accepts in Hd as (_ & Hok & _); [|done]. apply Hok.
Qed.

Lemma pollOnce_policy n s pe :
  source_ok n -> socket_ok s ->
  exists n' m, pollOnce n s pe = Some (n', m) /\ source_ok n' /\ keeps_demand n n'.
Proof.
  intros Hn Hs. unfold pollOnce. set (p := mkExchangeParams _ _ _ _ _).
  destruct (exchange_total p s) as [[res err] E]; [exact (so_key n Hn)|]. rewrite E. cbn [mbind option_bind]. cbv zeta.
  set (n1 := if pe_reset pe then _ else _).
  assert (poll_ok n1 /\ keeps_demand n n1) as [P1 K1].
  { unfold n1, Reset. destruct (pe_reset pe), (Sent res); (split; [apply (same_policy_ok n); [frame|apply Hn]|frame]). }
  clearbody n1.
  assert (forall n' (m : option Measurement), poll_ok n' -> keeps_demand n1 n' ->
    exists n'' m', Some (n', m) = Some (n'', m') /\ source_ok n'' /\ keeps_demand n n'') as Hfin.
  { intros n' m Hp Hk. pose proof (keeps_demand_trans _ _ _ K1 Hk) as K. exists n', m. split; [done|].
    split; [by apply (source_ok_keeps n)|done]. }
  destruct err as [e|].
  - apply exchange_error_ok in E; [|done]. destruct (failed_policy n1 e P1 E) as [P2 K2].
    destruct (pe_cancelled pe); [by apply Hfin; [|apply keeps_demand_refl]|by apply Hfin].
  - destruct (_ || _).
    + destruct (discardStale_policy n1) as (P2 & K2 & _). apply Hfin; [by apply (same_policy_ok n1)|done].
    + destruct (hit n1 res (pe_at pe)) as [n2 sm] eqn:Eh. apply hit_policy in Eh as (P2 & K2 & _); [|done].
      by apply Hfin.
Qed.

Lemma burst_policy k n polls :
  source_ok n -> Forall (fun p => socket_ok (fst p)) polls ->
  exists n' ms, burst k n polls = Some (n', ms) /\ source_ok n' /\ keeps_demand n n'.
Proof.
  revert n polls. induction k as [|k IH]; intros n polls Hn Hp; cbn [burst].
  { exists n, []. split; [done|]. split; [done|apply keeps_demand_refl]. }
  destruct polls as [|[s pe] rest]; [exists n, []; split; [done|]; split; [done|apply keeps_demand_refl]|].
  apply Forall_cons_1 in Hp as [Hs Hrest].
  destruct (n_denied n || n_kissedRate n); [exists n, []; split; [done|]; split; [done|apply keeps_demand_refl]|].
  destruct (pollOnce_policy n s pe Hn Hs) as (n1 & m & -> & H1 & K1). cbn [mbind option_bind].
  destruct m as [m|]; [|by exists n1, []].
  destruct (IH n1 rest H1 Hrest) as (n2 & ms & -> & H2 & K2). cbn [mbind option_bind].
  exists n2, (m :: ms). split; [done|]. split; [done|]. by eapply keeps_demand_trans.
Qed.

(** A turn cannot panic, keeps the policy, and keeps a demand while the peer
    stays the same. *)
Lemma run_turn_policy n t :
  source_ok n -> turn_ok t ->
  exists n' ms, run_turn n t = Some (n', ms) /\ source_ok n' /\
    n_cfg n' = n_cfg n /\
    (n_haveAddr n = true -> n_haveAddr n' = true /\ (n_addr n' = n_addr n -> n_kodMinPoll n <= n_kodMinPoll n')).
Proof.
  intros Hn [Hl Hp]. unfold run_turn. destruct (n_denied n); [by exists n, []|].
  destruct (ensureResolved_spec n (tu_lookup t) (tu_cancelled t) (so_poll n Hn) (so_idx n Hn) Hl)
    as (n1 & ok & -> & P1 & I1 & [C1 _] & A1 & D1 & _). cbn [mbind option_bind].
  assert (source_ok n1) as H1.
  { constructor; [done|done|]. unfold key_ok. rewrite C1. apply Hn. }
  assert (forall n' (ms : list Measurement), source_ok n' -> keeps_demand n1 n' -> exists n'' ms', Some (n', ms) = Some (n'', ms') /\
    source_ok n'' /\ n_cfg n'' = n_cfg n /\
    (n_haveAddr n = true -> n_haveAddr n'' = true /\ (n_addr n'' = n_addr n -> n_kodMinPoll n <= n_kodMinPoll n''))) as Hfin.
  { intros n' ms Hn' (K1 & K2 & K3 & K4 & _). exists n', ms. split; [done|]. split; [done|]. split; [congruence|].
    intros Hh. split; [rewrite K3; auto|]. intros Ea. rewrite K2 in Ea. rewrite <- D1; auto. }
  destruct ok; cbn [negb].
  - destruct (c_IBurst (n_cfg n1) && (n_reach n1 =? 0)).
    + destruct (burst_policy burstCount (n1 <| n_kissedRate := false |>) (tu_polls t)) as (n2 & ms & -> & H2 & K2);
        [apply (source_ok_keeps n1); [frame|apply (same_policy_ok n1); [frame|done]|done]|done|].
      apply Hfin; [done|]. eapply keeps_demand_trans; [|exact K2]. frame.
    + destruct (tu_polls t) as [|[s pe] rest]; [by apply Hfin; [|apply keeps_demand_refl]|].
      apply Forall_cons_1 in Hp as [Hs _].
      destruct (pollOnce_policy n1 s pe H1 Hs) as (n2 & m & -> & H2 & K2). cbn [mbind option_bind]. by apply Hfin.
  - destruct (tu_cancelled t); [by apply Hfin; [|apply keeps_demand_refl]|].
    pose proof (miss_keeps n1) as K. pose proof (miss_poll_ok n1 P1) as P.
    apply Hfin; [by apply (source_ok_keeps n1)|done].
Qed.

End Turn.

Lemma NewNTP_ok cfg clk n : NewNTP cfg clk = Ok n -> source_ok n /\ n_kodMinPoll n = 0.
Proof.
  unfold NewNTP. cbv zeta. set (cfg1 := if bool_decide _ then _ else cfg).
  destruct (bool_decide (c_Host cfg1 = _)); [done|]. destruct (c_Port cfg1 =? 0); [done|].
  set (cfg2 := if c_PollMin cfg1 =? 0 then _ else _). set (cfg3 := if c_PollMax cfg2 =? 0 then _ else _).
  destruct (_ || _ || _) eqn:E1; [done|]. set (cfg4 := if c_Timeout cfg3 <=? 0 then _ else _).
  destruct (match c_Key cfg4 with None => _ | Some _ => _ end) eqn:E2; [done|].
  destruct clk as [precision|]; [|done]. intros [= <-]. fields.
  assert (c_PollMin cfg4 = c_PollMin cfg3 /\ c_PollMax cfg4 = c_PollMax cfg3) as [M1 M2].
  { unfold cfg4. by destruct (c_Timeout cfg3 <=? 0). }
  clearbody cfg4. repeat bool_step. split; [|done]. constructor.
  - constructor; rewrite ?pollFloor_max; fields; unfold MinPoll, MaxPoll, maxRemoteBackoffPoll in *; lia.
  - split; [done|]. done.
  - intros k Hk. fields_all. rewrite Hk in E2. by apply negb_false_iff, Nat.eqb_eq in E2.
Qed.

(** The turns of [Run] one after the other, with the measurements of each. *)
Fixpoint run_turns `{BlockCipher} (n : NTP) (ts : list turn) : option (NTP * list (list Measurement)) :=
  match ts with
  | [] => Some (n, [])
  | t :: rest => '(n, ms) ← run_turn n t; '(n, mss) ← run_turns n rest; Some (n, ms :: mss)
  end.

Lemma run_turns_policy `{BlockCipher} ts n :
  source_ok n -> Forall turn_ok ts -> exists n' mss, run_turns n ts = Some (n', mss) /\ source_ok n'.
Proof.
  revert n. induction ts as [|t ts IH]; intros n Hn Ht; cbn [run_turns]; [by exists n, []|].
  apply Forall_cons_1 in Ht as [Ht Hts].
  destruct (run_turn_policy n t Hn Ht) as (n1 & ms & -> & H1 & _). cbn [mbind option_bind].
  destruct (IH n1 H1 Hts) as (n2 & mss & -> & H2). cbn [mbind option_bind]. by exists n2, (ms :: mss).
Qed.



(** ** Moving off a failed endpoint *)

(** Nothing of the previous peer is left. *)
Definition fresh (n : NTP) : Prop :=
  contents (n_filter n) = [] /\ n_meta n = [] /\ n_poll n = c_PollMin (n_cfg n) /\ n_kodMinPoll n = 0 /\
  n_effPollMax n = c_PollMax (n_cfg n).

Lemma useAddr_fresh n a : n_haveAddr n = false \/ a <> n_addr n -> fresh (useAddr n a).
Proof.
  intros Hc. unfold useAddr.
  destruct (n_haveAddr n && bool_decide (a = n_addr n)) eqn:E; [exfalso; repeat bool_step; by destruct Hc; congruence|].
  unfold updateInfo, resetEndpointState, fresh. destruct n. fields_all. repeat apply conj; reflexivity.
Qed.

Lemma rotateAddr_fresh n :
  n_haveAddr n = true -> fresh n \/ n_addr (rotateAddr n) <> n_addr n -> fresh (rotateAddr n).
Proof.
  intros Hh Hc. unfold rotateAddr in *. destruct (length (n_addrs n) <? 2)%nat; [by destruct Hc|]. cbv zeta in *.
  set (i := ((n_addrIndex n + 1) mod length (n_addrs n))%nat) in *. set (n1 := n <| n_addrIndex := i |>) in *.
  assert (n_haveAddr n1 = true /\ n_addr n1 = n_addr n /\ (fresh n -> fresh n1)) as (A1 & A2 & A3).
  { unfold n1, fresh. split; [done|]. split; [done|]. done. }
  clearbody n1. set (a := nth i (n_addrs n1) noAddr) in *. clearbody a.
  destruct (decide (a = n_addr n1)) as [E|E]; [|by apply useAddr_fresh; right].
  destruct (useAddr_spec n1 a) as (_ & _ & _ & _ & _ & U & _). rewrite (U A1 E) in *.
  destruct Hc as [Hc|Hc]; [by apply A3|]. by destruct Hc.
Qed.

Lemma setAddrs_fresh n addrs n' :
  n_haveAddr n = true -> setAddrs n addrs = Some n' -> n_addr n' <> n_addr n -> fresh n'.
Proof.
  intros Hh. unfold setAddrs. set (n1 := n <| n_addrs := addrs |>).
  assert (n_haveAddr n1 = true /\ n_addr n1 = n_addr n) as [A1 A2] by done. clearbody n1. cbv zeta.
  destruct addrs as [|a rest]; [done|]. rewrite A1. cbn [negb].
  destruct (index_from 0 (n_addr n1) (a :: rest)) as [i|]; intros E Ha; apply (inj Some) in E; subst n'.
  - destruct Ha. exact A2.
  - apply useAddr_fresh. right. intros E. apply Ha.
    destruct (useAddr_spec n1 a) as (U & _). by rewrite U, E.
Qed.

Lemma setAddrs_have n addrs n' : setAddrs n addrs = Some n' -> n_haveAddr n' = true.
Proof.
  unfold setAddrs. set (n1 := n <| n_addrs := addrs |>). clearbody n1. cbv zeta.
  destruct addrs as [|a rest]; [done|]. destruct (useAddr_spec n1 a) as (_ & U & _).
  destruct (n_haveAddr n1) eqn:Eh; cbn [negb]; [destruct (index_from 0 (n_addr n1) (a :: rest))|];
    intros E; apply (inj Some) in E; subst n'; done.
Qed.

Lemma ensureResolved_fresh n lookup cancelled n' ok :
  n_haveAddr n = true -> ensureResolved n lookup cancelled = Some (n', ok) -> n_addr n' <> n_addr n -> fresh n'.
Proof.
  intros Hh. unfold ensureResolved. destruct (n_haveAddr n && (n_consecutiveTimeouts n <? resolveAfterTimeouts)).
  { intros E Ha. apply (inj Some), pair_equal_spec in E as [<- _]. done. }
  destruct lookup as [addrs|].
  - set (n0 := n <| n_resolveFailing := false |>).
    assert (n_haveAddr n0 = true /\ n_addr n0 = n_addr n) as [Z1 Z2] by done. clearbody n0.
    destruct (setAddrs n0 addrs) as [n1|] eqn:E1; [|done]. cbn [mbind option_bind].
    pose proof (setAddrs_fresh n0 addrs n1 Z1 E1) as F1.
    pose proof (setAddrs_have _ _ _ E1) as H1.
    set (n2 := if n_haveAddr n && _ then rotateAddr n1 else n1). intros E Ha.
    apply (inj Some), pair_equal_spec in E as [<- _].
    assert (n_addr n2 <> n_addr n) as Ha2 by (unfold updateInfo in Ha; clearbody n2; destruct n2; exact Ha).
    assert (fresh n2) as F2.
    { unfold n2 in *. rewrite Z2 in F1. destruct (_ && _); [|by apply F1]. apply rotateAddr_fresh; [done|].
      destruct (decide (n_addr n1 = n_addr n)) as [E|E]; [right; congruence|left; by apply F1]. }
    clearbody n2. unfold updateInfo, fresh in *. destruct n2. exact F2.
  - destruct cancelled; [intros E Ha; apply (inj Some), pair_equal_spec in E as [<- _]; done|].
    set (n1 := updateInfo _ _). assert (n_haveAddr n1 = true /\ n_addr n1 = n_addr n) as [Z1 Z2] by done. clearbody n1.
    cbv zeta. intros E Ha. apply (inj Some), pair_equal_spec in E as [<- _].
    destruct (_ && _); [|done]. apply rotateAddr_fresh; [done|]. right. by rewrite Z2.
Qed.

(** A failed endpoint is left.  In any state a source reaches, once
    eight polls in a row have failed at the endpoint in use and the name has at
    least two distinct addresses (from a fresh answer, or the held ones when the
    resolver fails), resolution ends at another of those addresses, and nothing
    of the failed peer survives: not its clock filter samples, not its poll
    interval, not the minimum it demanded. *)
Theorem failed_endpoint_left `{BlockCipher} cfg clk n0 ts n mss lookup addrs :
  NewNTP cfg clk = Ok n0 -> Forall turn_ok ts -> run_turns n0 ts = Some (n, mss) ->
  n_haveAddr n = true -> resolveAfterTimeouts <= n_consecutiveTimeouts n ->
  lookup = Some addrs \/ lookup = None /\ addrs = n_addrs n ->
  NoDup addrs -> (2 <= length addrs)%nat ->
  exists n', ensureResolved n lookup false = Some (n', true) /\
    n_addr n' <> n_addr n /\ n_addr n' ∈ addrs /\
    contents (n_filter n') = [] /\ n_poll n' = c_PollMin (n_cfg n) /\ n_kodMinPoll n' = 0 /\
    n_effPollMax n' = c_PollMax (n_cfg n).
Proof.
  intros Hn Hts E Hh Ht Hl Hnd Hlen. apply NewNTP_ok in Hn as [Hn _].
  destruct (run_turns_policy ts n0 Hn Hts) as (n1 & mss1 & E1 & [Hp Hi _]). rewrite E in E1.
  apply (inj Some), pair_equal_spec in E1 as [<- _].
  assert (lookup <> Some []) as Hne by (destruct Hl as [->|[-> _]]; [intros [= ->]; cbn in Hlen; lia|done]).
  destruct (ensureResolved_spec n lookup false Hp Hi Hne) as (n' & ok & E' & _ & _ & [C _] & A & _ & L).
  destruct (L Hh Ht eq_refl addrs Hl Hnd Hlen) as [L1 L2].
  assert (ok = true) as ->.
  { revert E'. unfold ensureResolved. rewrite Hh. destruct (_ <? _) eqn:Ec; bool_step; [lia|]. cbn [andb].
    destruct lookup as [l|].
    - destruct (setAddrs _ l) as [n2|]; [|done]. cbn [mbind option_bind]. intros E2.
      by apply (inj Some), pair_equal_spec in E2 as [_ <-].
    - cbv zeta. intros E2. apply (inj Some), pair_equal_spec in E2 as [E2 <-]. rewrite E2. by apply A. }
  destruct (ensureResolved_fresh n lookup false n' true Hh E' L1) as (F1 & _ & F2 & F3 & F4).
  rewrite C in *. by exists n'.
Qed.

(** ** Denial and stale exchanges *)

Lemma failed_denied n e :
  n_denied n = false -> n_denied (failed n e) = true ->
  exists code pkt, e = ErrKiss code pkt true /\ (code = code_DENY \/ code = code_RSTR).
Proof.
  intros Hd. assert (forall n1, n_denied n1 = n_denied n -> n_denied (miss n1) = true -> False) as Hmiss.
  { intros n1 H1. destruct (miss_effect n1) as [_ ->]. congruence. }
  unfold failed, endpoint_failed, count_error, shouldLogErr. cbn [fst].
  destruct e as [| | | | | | | | | | |code pkt auth];
    try (intros Hc; apply Hmiss in Hc; [done|frame]).
  unfold handleKiss. set (n0 := updateInfo n _).
  assert (n_denied n0 = n_denied n) as H0 by (unfold n0; frame). clearbody n0.
  destruct (bool_decide (code = code_RATE)).
  - destruct (rate_demand n0 pkt) as [want eff]. intros Hc. apply Hmiss in Hc; [done|]. case_goal; frame.
  - destruct (bool_decide (code = code_DENY) || _) eqn:Ec; [|intros Hc; apply Hmiss in Hc; done].
    destruct auth; [|intros Hc; apply Hmiss in Hc; done].
    intros _. exists code, pkt. split; [done|]. apply orb_true_iff in Ec as [Ec|Ec]; apply bool_decide_eq_true in Ec; auto.
Qed.

(** What a usable reply leaves alone. *)
Lemma hit_frame n res at_ n' sm :
  hit n res at_ = (n', sm) -> n_denied n' = n_denied n /\ n_cfg n' = n_cfg n /\ n_addr n' = n_addr n.
Proof.
  unfold hit. set (n1 := prime n res).
  assert (n_denied n1 = n_denied n /\ n_cfg n1 = n_cfg n /\ n_addr n1 = n_addr n) as F1.
  { unfold n1, prime. fields. repeat match goal with |- context [if ?b then _ else _] => destruct b end; frame. }
  clearbody n1. set (n2 := n1 <| n_liveLeap := _ |> <| n_liveLeapAt := at_ |>).
  destruct (noteMeta_policy n2 (meta_of res at_)) as (_ & (K1 & K2 & _) & D3).
  set (n3 := noteMeta n2 (meta_of res at_)) in *.
  assert (n_denied n3 = n_denied n /\ n_cfg n3 = n_cfg n /\ n_addr n3 = n_addr n) as F3.
  { rewrite D3, K1, K2. unfold n2. clear - F1. frame. }
  clearbody n3. clear - F3. destruct (Filter_Add _ _ _ _ _) as [[f' f] updated]. destruct updated; cbn [negb];
    intros E; apply pair_equal_spec in E as [<- _]; frame.
Qed.

(** A failure touches neither the filter nor the metadata. *)
Definition same_samples (n n' : NTP) : Prop :=
  n_filter n' = n_filter n /\ n_meta n' = n_meta n /\ n_metaNext n' = n_metaNext n.

Lemma miss_frame n : same_samples n (miss n).
Proof. unfold miss, same_samples. case_goal; frame. Qed.

Lemma failed_frame n e : same_samples n (failed n e).
Proof.
  assert (forall n1, same_samples n n1 -> same_samples n (miss n1)) as Hmiss.
  { intros n1 (H1 & H2 & H3). destruct (miss_frame n1) as (M1 & M2 & M3). repeat split; congruence. }
  unfold failed, endpoint_failed, count_error, shouldLogErr. cbn [fst].
  destruct e as [| | | | | | | | | | |code pkt auth]; try (apply Hmiss; unfold same_samples; frame).
  unfold handleKiss. set (n0 := updateInfo n _).
  assert (same_samples n n0) as H1 by (unfold n0, same_samples; frame). clearbody n0.
  case_goal; [destruct (rate_demand n0 pkt) as [want eff]; apply Hmiss; unfold same_samples in *; case_goal; frame|].
  case_goal; [|by apply Hmiss]. case_goal; [|by apply Hmiss].
  set (n1 := miss _). assert (same_samples n n1) as H2 by (apply Hmiss; unfold same_samples in *; frame).
  clearbody n1. unfold same_samples in *. frame.
Qed.

Section Deny.
Context `{BlockCipher}.

(** Only an authenticated server can stop the polling.  If a poll
    makes the source denied, then the association has a key and the datagram
    that did it came from the server's endpoint, its MAC verified under that
    key, and its kiss code is DENY or RSTR; from then on a turn sends nothing
    and changes nothing.  Without a key no datagram can do it. *)
Theorem deny_needs_authentication n s pe n' m :
  n_denied n = false -> pollOnce n s pe = Some (n', m) -> n_denied n' = true ->
  (exists k r pkt mac off, c_Key (n_cfg n) = Some k /\ r ∈ so_reads s /\
     sameEndpoint (rx_from r) (n_addr n) = true /\ Decode (rx_data r) = Ok (pkt, mac, off) /\
     Key_Verify k (take off (rx_data r)) mac = Some true) /\
  forall t, run_turn n' t = Some (n', []).
Proof.
  intros Hd E Hd'. split; [|intros t; unfold run_turn; by rewrite Hd'].
  revert E. unfold pollOnce. set (p := mkExchangeParams _ _ _ _ _).
  destruct (exchange p s) as [[res err]|] eqn:Ex; [|done]. cbn [mbind option_bind]. cbv zeta.
  set (n1 := if pe_reset pe then _ else _).
  assert (n_denied n1 = false) as H1 by (unfold n1, Reset; destruct (pe_reset pe), (Sent res); frame).
  clearbody n1. destruct err as [e|].
  - destruct (pe_cancelled pe); intros E; apply (inj Some), pair_equal_spec in E as [<- _]; [congruence|].
    apply failed_denied in Hd' as (code & pkt & -> & _); [|done].
    apply exchange_kiss in Ex as (r & mac & off & Hin & Hdec & Hs & Ha & Hv). cbn [x_key x_addr p] in Ha, Hv, Hs.
    symmetry in Ha. apply bool_decide_eq_true in Ha as [k Hk]. by exists k, r, pkt, mac, off; eauto 10.
  - destruct (_ || _).
    + intros E. apply (inj Some), pair_equal_spec in E as [<- _].
      destruct (discardStale_policy n1) as (_ & _ & ED). rewrite ED in Hd'. congruence.
    + destruct (hit n1 res (pe_at pe)) as [n2 sm] eqn:Eh. intros E. apply (inj Some), pair_equal_spec in E as [<- _].
      destruct (hit_frame _ _ _ _ _ Eh) as [D _]. congruence.
Qed.

(** Claim C33: a sample that straddles a clock step is never used.  A poll's
    measurement claims an acquisition, or a valid offset, only if the epoch
    read before the request and the one read after the reply are the same and
    no discontinuity was executing (the epoch is zero, when epochs are not in
    use, or even), and a valid offset is stamped with that epoch.  In every
    other case the clock filter and its metadata are untouched. *)
Theorem stale_exchange_discarded n s pe n' m :
  pollOnce n s pe = Some (n', Some m) ->
  (m_Valid m = true -> m_Acquired m = true /\ m_Generation m = pe_gen pe) /\
  (m_Acquired m = true -> pe_genAfter pe = pe_gen pe /\ (pe_gen pe = 0 \/ pe_gen pe mod 2 = 0)) /\
  (m_Acquired m = false -> n_filter n' = n_filter n /\ n_meta n' = n_meta n).
Proof.
  unfold pollOnce. set (p := mkExchangeParams _ _ _ _ _).
  destruct (exchange p s) as [[res err]|]; [|done]. cbn [mbind option_bind]. cbv zeta.
  set (n1 := if pe_reset pe then _ else _).
  assert (n_filter n1 = n_filter n /\ n_meta n1 = n_meta n) as [H1 H2]
    by (unfold n1, Reset; destruct (pe_reset pe), (Sent res); frame).
  clearbody n1. destruct err as [e|].
  - destruct (pe_cancelled pe); intros E; apply (inj Some), pair_equal_spec in E as [<- E]; [done|].
    apply (inj Some) in E. subst m. destruct (failed_frame n1 e) as (F1 & F2 & _). split; [done|]. split; [done|].
    intros _. by rewrite F1, F2.
  - destruct (_ || _) eqn:Eg.
    + intros E. apply (inj Some), pair_equal_spec in E as [<- E]. apply (inj Some) in E. subst m.
      split; [done|]. split; [done|]. intros _. unfold discardStale. clear - H1 H2. frame.
    + destruct (hit n1 res (pe_at pe)) as [n2 sm]. intros E. apply (inj Some), pair_equal_spec in E as [<- E].
      apply (inj Some) in E. apply orb_false_iff in Eg as [Eg1 Eg2]. apply negb_false_iff, Z.eqb_eq in Eg1.
      assert (pe_gen pe = 0 \/ pe_gen pe mod 2 = 0) as Heven.
      { rewrite <- Eg1. unfold StableEpoch in Eg2. destruct (pe_genAfter pe =? 0) eqn:Ez; [left; by apply Z.eqb_eq|].
        right. cbn in Eg2. by apply negb_false_iff, Z.eqb_eq in Eg2. }
      destruct sm as [sm|]; subst m; unfold emit; cbn [m_Valid m_Acquired m_Generation];
        (split; [by auto|split; [by auto|done]]).
Qed.

End Deny.

(** ** Examples *)

Definition example_cfg : NTPConfig :=
  mkNTPConfig "a"%string "ntp.example.net"%string "ntp.example.net"%string 123 (Some example_key) false 6 10 0 false.
Definition example_source : NTP := match NewNTP example_cfg (Some (-20)) with Ok n => n | Err _ => mkNTP example_cfg 0 (NewFilter fzero) false
  (mkInfo noAddr 0 0 false fzero fzero fzero fzero 0 zeroRefID 0 zeroTime NoError 0 0 0 0 0 0 0 0) noAddr [] 0 false false 0 0 0 0 0 false 0 0 false [] 0 0 false 0 fzero 0 0 0 end.
Definition example_env (at_ : f64) : poll_env := mkPollEnv 2 2 2 at_ at_ false true.
Definition example_turn (s : socket) : turn :=
  mkTurn (Some [example_server_addr; mkAddrPort (Addr4 3221225986) 123]) false [(s, example_env (of_Z 10))] (example_env (of_Z 10)).

(** A kiss from the server, signed. *)
Definition example_kiss (code : list Z) : socket :=
  mkSocket (Some [0; 0; 0; 0; 0; 0; 0; 77]) true example_t1 WriteOk
    [mkRx example_server_addr (default [] (Key_Append example_key (Marshal (mkPacket 3 4 4 0 12 (-20) 0 0 code 0 77 0 0))))
       (example_t1 + 10000000) None] ReadTimeout.
Definition example_dead : socket := mkSocket (Some [0; 0; 0; 0; 0; 0; 0; 77]) true example_t1 WriteOk [] ReadTimeout.

Lemma example_NewNTP : NewNTP example_cfg (Some (-20)) = Ok example_source.
Proof. reflexivity. Qed.

Lemma example_turn_ok s : socket_ok s -> turn_ok (example_turn s).
Proof. intros Hs. by repeat constructor. Qed.




(** Eight polls without an answer. *)
Lemma example_silent : exists n mss, run_turns example_source (replicate 8 (example_turn example_dead)) = Some (n, mss) /\
  n_haveAddr n = true /\ n_consecutiveTimeouts n = 8 /\ n_addr n = example_server_addr.
Proof. eexists _, _. split; [vm_compute; reflexivity|]. repeat split; reflexivity. Qed.

Lemma failed_endpoint_left_witness :
  exists n mss n', run_turns example_source (replicate 8 (example_turn example_dead)) = Some (n, mss) /\
    ensureResolved n (tu_lookup (example_turn example_dead)) false = Some (n', true) /\ n_addr n' <> example_server_addr.
Proof.
  destruct example_silent as (n & mss & E & Hh & Ht & Ha).
  destruct (failed_endpoint_left example_cfg (Some (-20)) example_source (replicate 8 (example_turn example_dead)) n mss
    (tu_lookup (example_turn example_dead)) [example_server_addr; mkAddrPort (Addr4 3221225986) 123] example_NewNTP)
    as (n' & E' & Hne & _).
  - apply Forall_replicate. apply example_turn_ok. constructor.
  - exact E.
  - exact Hh.
  - rewrite Ht. unfold resolveAfterTimeouts. lia.
  - by left.
  - by apply (bool_decide_eq_true_1 _).
  - cbn. lia.
  - exists n, mss, n'. split; [exact E|]. split; [exact E'|]. by rewrite <- Ha.
Defined.

(** The source once its name is resolved. *)
Definition example_resolved : NTP := useAddr example_source example_server_addr.

Lemma example_denied : exists n' m, pollOnce example_resolved (example_kiss code_DENY) (example_env (of_Z 10)) = Some (n', m) /\
  n_denied n' = true.
Proof. eexists _, _. split; [vm_compute; reflexivity|reflexivity]. Qed.

Lemma deny_needs_authentication_witness :
  exists n' m, pollOnce example_resolved (example_kiss code_DENY) (example_env (of_Z 10)) = Some (n', m) /\
    n_denied n' = true /\ forall t, run_turn n' t = Some (n', []).
Proof.
  destruct example_denied as (n' & m & E & Hd). exists n', m. split; [exact E|]. split; [exact Hd|].
  destruct (deny_needs_authentication example_resolved (example_kiss code_DENY) (example_env (of_Z 10)) n' m) as [_ Ht];
    [reflexivity|exact E|exact Hd|exact Ht].
Defined.

Lemma example_hit : exists n' m, pollOnce example_resolved example_socket (example_env (of_Z 10)) = Some (n', Some m) /\
  m_Valid m = true.
Proof. eexists _, _. split; [vm_compute; reflexivity|reflexivity]. Qed.

Lemma stale_exchange_discarded_witness :
  exists n' m, pollOnce example_resolved example_socket (example_env (of_Z 10)) = Some (n', Some m) /\
    m_Valid m = true /\ m_Generation m = 2.
Proof.
  destruct example_hit as (n' & m & E & Hv). exists n', m. split; [exact E|]. split; [exact Hv|].
  destruct (stale_exchange_discarded _ _ _ _ _ E) as [H1 _]. by apply H1.
Defined.
