(* ===== verification/SourceMeta.v ===== *)
(** * internal/source/ntp.go: observations and their metadata

    A measurement carries the offset the clock filter chose, which may be
    several polls old, and what the server said about itself.  The metadata
    ring of the source is the same depth as the filter's register; this file
    proves that the two always describe the same exchange. *)

From stdpp Require Import base list numbers strings sorting.
From Stdlib Require Import Lia ZArith.
From S2P Require Import Prelude Float64 GoTime NtpTime NtpPacket Measurement Filter Netip Auth Md5 Exchange NtpSource.

Local Open Scope Z_scope.

(** ** The metadata ring *)

(** An exchange that entered the filter, and when. *)
Definition observation : Type := exchangeResult * f64.
Definition obs_meta (h : observation) : stageMeta := meta_of (fst h) (snd h).
Definition obs_core (h : observation) : f64 * f64 * f64 := (xOffset (fst h), xDelay (fst h), snd h).

(** The ring from its oldest entry to its newest. *)
Definition meta_order (n : NTP) : list stageMeta := drop (n_metaNext n) (n_meta n) ++ take (n_metaNext n) (n_meta n).

Record meta_ok (n : NTP) : Prop := {
  mo_len : (length (n_meta n) <= FilterStages)%nat;
  mo_next : (n_metaNext n < FilterStages)%nat;
  mo_fill : (length (n_meta n) < FilterStages)%nat -> n_metaNext n = 0%nat
}.

Lemma elem_of_meta_order n m : m ∈ meta_order n <-> m ∈ n_meta n.
Proof. unfold meta_order. by rewrite Permutation_app_comm, take_drop. Qed.

(** One more entry, the oldest evicted. *)
Lemma noteMeta_order n m :
  meta_ok n -> meta_ok (noteMeta n m) /\ meta_order (noteMeta n m) = last_n FilterStages (meta_order n ++ [m]).
Proof.
  intros [Hl Hx Hf]. unfold noteMeta, meta_order. destruct (length (n_meta n) <? FilterStages)%nat eqn:E; bool_step.
  - pose proof (Hf E) as Hz. split; [constructor|]; fields.
    + rewrite length_app, Nat.add_1_r. exact E.
    + done.
    + by intros _.
    + rewrite Hz, !drop_0, !take_0, !app_nil_r. unfold last_n. rewrite length_app. cbn [length].
      replace (length (n_meta n) + 1 - FilterStages)%nat with 0%nat by lia. by rewrite drop_0.
  - assert (length (n_meta n) = FilterStages) as Hlen by lia. unfold FilterStages in *. split; [constructor|]; fields.
    + by rewrite length_insert, Hlen.
    + by apply Nat.mod_upper_bound.
    + rewrite length_insert. unfold FilterStages. lia.
    + set (k := n_metaNext n) in *. clearbody k. set (l := n_meta n) in *. clearbody l. clear - Hlen Hx.
      rewrite insert_take_drop by lia. unfold last_n. rewrite !length_app, length_drop, length_take, Hlen.
      replace (8 - k + k `min` 8 + length [m] - 8)%nat with 1%nat by (cbn; lia).
      destruct (decide (k = 7%nat)) as [->|Hk].
      * cbn [Nat.add Nat.modulo]. destruct l as [|l0 [|l1 [|l2 [|l3 [|l4 [|l5 [|l6 [|l7 [|]]]]]]]]]; try done.
      * rewrite Nat.mod_small by lia. destruct l as [|l0 [|l1 [|l2 [|l3 [|l4 [|l5 [|l6 [|l7 [|]]]]]]]]]; try done.
        destruct k as [|[|[|[|[|[|[|k]]]]]]]; try reflexivity. lia.
Qed.

(** ** The pairing *)

(** [hs] are the observations the ring holds, oldest first; the register holds
    the newest of them. *)
Record paired (n : NTP) (hs : list observation) : Prop := {
  pa_filter : filter_ok (n_filter n);
  pa_ring : meta_ok n;
  pa_meta : meta_order n = obs_meta <$> hs;
  pa_contents : exists k, contents (n_filter n) = obs_core <$> drop k hs;
  pa_times : StronglySorted (fun a b => flt (snd a) (snd b) = true) hs
}.

Lemma paired_same n n' hs :
  n_filter n' = n_filter n -> n_meta n' = n_meta n -> n_metaNext n' = n_metaNext n -> paired n hs -> paired n' hs.
Proof.
  intros H1 H2 H3 [P1 [R1 R2 R3] P3 P4 P5]. constructor; unfold meta_order; rewrite ?H1, ?H2, ?H3; try done.
  constructor; by rewrite ?H2, ?H3.
Qed.

(** Forgetting the register, or both. *)
Lemma paired_reset_filter n n' hs :
  n_filter n' = Filter_Reset (n_filter n) -> n_meta n' = n_meta n -> n_metaNext n' = n_metaNext n ->
  paired n hs -> paired n' hs.
Proof.
  intros H1 H2 H3 [P1 [R1 R2 R3] P3 P4 P5]. constructor; unfold meta_order; rewrite ?H1, ?H2, ?H3; try done.
  - apply NewFilter_ok.
  - constructor; by rewrite ?H2, ?H3.
  - exists (length hs). by rewrite drop_all.
Qed.

Lemma paired_empty n : n_meta n = [] -> n_metaNext n = 0%nat -> contents (n_filter n) = [] -> filter_ok (n_filter n) -> paired n [].
Proof.
  intros H1 H2 H3 H4. constructor; [done| | |by exists 0%nat|constructor].
  - constructor; rewrite ?H1, ?H2; unfold FilterStages; cbn; lia || done.
  - unfold meta_order. by rewrite H1, H2.
Qed.

Lemma last_n_fmap {A B} (f : A -> B) k l : last_n k (f <$> l) = f <$> last_n k l.
Proof. unfold last_n. by rewrite length_fmap, fmap_drop. Qed.

(** The newest of a suffix are a suffix of the newest. *)
Lemma last_n_drop {A} k j (l : list A) : exists j', last_n k (drop j l) = drop j' (last_n k l).
Proof.
  exists (j - (length l - k))%nat. unfold last_n. rewrite length_drop, !drop_drop. f_equal. lia.
Qed.

Lemma StronglySorted_drop {A} (R : A -> A -> Prop) k (l : list A) : StronglySorted R l -> StronglySorted R (drop k l).
Proof.
  revert k. induction l as [|x l IH]; intros [|k] Hs; try done. apply IH. by inversion Hs.
Qed.

Lemma StronglySorted_snoc {A} (R : A -> A -> Prop) (l : list A) x :
  StronglySorted R l -> Forall (fun y => R y x) l -> StronglySorted R (l ++ [x]).
Proof.
  induction l as [|y l IH]; intros Hs Hf; cbn; [by repeat constructor|].
  apply Forall_cons_1 in Hf as [Hy Hf]. apply StronglySorted_inv in Hs as [Hs Hall].
  constructor; [by apply IH|]. apply Forall_app. split; [done|by repeat constructor].
Qed.

(** Observations at different times are told apart by their time. *)
Lemma sorted_time_inj (hs : list observation) a b :
  StronglySorted (fun a b => flt (snd a) (snd b) = true) hs -> a ∈ hs -> b ∈ hs ->
  feq (snd a) (snd b) = true -> a = b.
Proof.
  induction hs as [|h hs IH]; intros Hs Ha Hb E; [by apply not_elem_of_nil in Ha|].
  apply StronglySorted_inv in Hs as [Hs Hall]. rewrite Forall_forall in Hall.
  apply elem_of_cons in Ha as [->|Ha]; apply elem_of_cons in Hb as [->|Hb].
  - done.
  - specialize (Hall _ Hb). exfalso. ford.
  - specialize (Hall _ Ha). exfalso. ford.
  - by apply IH.
Qed.

(** The metadata found is the observation's own. *)
Lemma metaAt_paired n hs h :
  paired n hs -> h ∈ hs -> is_nan (snd h) = false -> metaAt n (snd h) = Some (obs_meta h).
Proof.
  intros [_ _ Hm _ Ht] Hin Hn. unfold metaAt.
  assert (obs_meta h ∈ n_meta n) as Hmem.
  { rewrite <- elem_of_meta_order, Hm. by apply list_elem_of_fmap_2. }
  destruct (List.find (fun m => feq (sm_at m) (snd h)) (n_meta n)) as [m|] eqn:Ef.
  - apply find_some in Ef as [Hi He]. apply list_elem_of_In in Hi. rewrite <- elem_of_meta_order, Hm in Hi.
    apply list_elem_of_fmap in Hi as (h' & -> & Hh'). by rewrite (sorted_time_inj hs h' h Ht Hh' Hin He).
  - exfalso. eapply find_none in Ef; [|by apply list_elem_of_In]. cbn in Ef. revert Ef Hn. ford.
Qed.

(** Adding an observation to ring and register. *)
Lemma paired_add n n' hs h disp f' f updated :
  paired n hs -> Forall (fun a => flt (snd a) (snd h) = true) hs ->
  Filter_Add (n_filter n) (xOffset (fst h)) (xDelay (fst h)) disp (snd h) = (f', f, updated) ->
  n_filter n' = f' -> n_meta n' = n_meta (noteMeta n (obs_meta h)) -> n_metaNext n' = n_metaNext (noteMeta n (obs_meta h)) ->
  paired n' (last_n FilterStages (hs ++ [h])) /\
  (updated = true -> exists a, a ∈ last_n FilterStages (hs ++ [h]) /\ out_core f = obs_core a).
Proof.
  intros [P1 P2 P3 [k P4] P5] Hlt E H1 H2 H3. destruct (noteMeta_order n (obs_meta h) P2) as [[R1 R2 R3] Ho].
  pose proof (Filter_Add_ok _ _ _ _ _ _ _ _ P1 E) as Hok.
  pose proof (Filter_Add_contents _ _ _ _ _ _ _ _ P1 E) as Hc.
  assert (exists j, contents f' = obs_core <$> drop j (last_n FilterStages (hs ++ [h]))) as [j Hj].
  { rewrite Hc, P4.
    change [(xOffset (fst h), xDelay (fst h), snd h)] with (obs_core <$> [h]). rewrite <- fmap_app, last_n_fmap.
    destruct (decide (k <= length hs)%nat) as [Hk|Hk].
    - rewrite <- (drop_app_le hs [h] k Hk).
      destruct (last_n_drop FilterStages k (hs ++ [h])) as [j ->]. by exists j.
    - assert (drop k hs ++ [h] = drop (length hs) (hs ++ [h])) as ->
        by (rewrite (drop_ge hs) by lia; by rewrite drop_app_length).
      destruct (last_n_drop FilterStages (length hs) (hs ++ [h])) as [j ->]. by exists j. }
  split.
  - constructor; unfold meta_order; rewrite ?H1, ?H2, ?H3.
    + done.
    + constructor; by rewrite ?H2, ?H3.
    + unfold meta_order in Ho. rewrite Ho. fold (meta_order n). rewrite P3.
      change [obs_meta h] with (obs_meta <$> [h]). by rewrite <- fmap_app, last_n_fmap.
    + by exists j.
    + apply StronglySorted_drop. by apply StronglySorted_snoc.
  - intros ->. destruct (Filter_Add_out _ _ _ _ _ _ _ _ P1 E) as [[? _]|(r & rest & _ & Hi & Hco & _)]; [done|].
    pose proof (stage_at_contents _ _ (shift_in_ok _ _ _ _ _ P1) Hi) as Hin.
    rewrite shift_in_contents, <- Hc, <- Hco, Hj in Hin by done.
    apply list_elem_of_fmap in Hin as (a & Ha & Hin). exists a. split; [|done].
    rewrite <- (take_drop j). apply elem_of_app. by right.
Qed.

(** ** The operations *)

(** The observations stay paired, or all of them are forgotten. *)
Definition keeps_pairs (n n' : NTP) : Prop := forall hs, paired n hs -> paired n' hs \/ paired n' [].

Lemma keeps_pairs_trans n1 n2 n3 : keeps_pairs n1 n2 -> keeps_pairs n2 n3 -> keeps_pairs n1 n3.
Proof. intros H1 H2 hs Hp. destruct (H1 hs Hp) as [H|H]; [by apply H2|]. destruct (H2 [] H); auto. Qed.

Lemma keeps_pairs_same n n' : same_samples n n' -> keeps_pairs n n'.
Proof. intros (H1 & H2 & H3) hs Hp. left. by apply (paired_same n). Qed.

Ltac same_samples := apply keeps_pairs_same; unfold same_samples, show_state, updateInfo; frame.

Lemma reset_pairs n : keeps_pairs n (resetEndpointState n).
Proof.
  intros hs Hp. right. unfold resetEndpointState. apply paired_empty; fields; try done. apply NewFilter_ok.
Qed.

Lemma useAddr_pairs n a : keeps_pairs n (useAddr n a).
Proof.
  unfold useAddr. case_goal; [by apply keeps_pairs_same|].
  apply (keeps_pairs_trans n (n <| n_addr := a |> <| n_haveAddr := true |>)); [same_samples|].
  eapply keeps_pairs_trans; [apply reset_pairs|]. same_samples.
Qed.

Lemma rotateAddr_pairs n : keeps_pairs n (rotateAddr n).
Proof.
  unfold rotateAddr. case_goal; [by apply keeps_pairs_same|].
  eapply keeps_pairs_trans; [|apply useAddr_pairs]. same_samples.
Qed.

Lemma setAddrs_pairs n addrs n' : setAddrs n addrs = Some n' -> keeps_pairs n n'.
Proof.
  unfold setAddrs. set (n1 := n <| n_addrs := addrs |>).
  assert (keeps_pairs n n1) as H1 by (unfold n1; same_samples). clearbody n1. cbv zeta.
  destruct addrs as [|a rest]; [done|].
  assert (keeps_pairs n (useAddr n1 a)) as H2 by (eapply keeps_pairs_trans; [exact H1|apply useAddr_pairs]).
  case_goal; [intros E; apply (inj Some) in E; by subst|].
  destruct (index_from 0 (n_addr n1) (a :: rest)) as [i|]; intros E; apply (inj Some) in E; subst n'; [|done].
  eapply keeps_pairs_trans; [exact H1|]. same_samples.
Qed.

Lemma ensureResolved_pairs n lookup cancelled n' ok : ensureResolved n lookup cancelled = Some (n', ok) -> keeps_pairs n n'.
Proof.
  unfold ensureResolved. case_goal.
  { intros E. apply (inj Some), pair_equal_spec in E as [<- _]. by apply keeps_pairs_same. }
  destruct lookup as [addrs|].
  - destruct (setAddrs _ addrs) as [n1|] eqn:E1; [|done]. cbn [mbind option_bind]. apply setAddrs_pairs in E1.
    assert (keeps_pairs n n1) as H1 by (eapply keeps_pairs_trans; [|exact E1]; same_samples). clear E1.
    intros E. apply (inj Some), pair_equal_spec in E as [<- _].
    set (n2 := if _ : bool then rotateAddr n1 else n1).
    assert (keeps_pairs n n2) as H2
      by (unfold n2; case_goal; [eapply keeps_pairs_trans; [exact H1|apply rotateAddr_pairs]|done]).
    clearbody n2. eapply keeps_pairs_trans; [exact H2|same_samples].
  - case_goal; intros E; apply (inj Some), pair_equal_spec in E as [<- _]; [by apply keeps_pairs_same|].
    match goal with |- keeps_pairs n (if _ then rotateAddr ?x else _) => set (n1 := x) end.
    assert (keeps_pairs n n1) as H1 by (unfold n1; same_samples). clearbody n1.
    case_goal; [|done]. eapply keeps_pairs_trans; [exact H1|apply rotateAddr_pairs].
Qed.

Lemma prime_pairs n res : keeps_pairs n (prime n res).
Proof.
  unfold prime. set (n1 := n <| n_reach := _ |> <| n_consecutiveTimeouts := 0 |> <| n_consecutiveMisses := 0 |> <| n_consecutiveErrs := 0 |>).
  set (n2 := if n_reach n =? 0 then n1 <| n_poll := pollFloor n1 |> else n1).
  assert (keeps_pairs n n2) as H2 by (unfold n2, n1; case_goal; same_samples). clearbody n2. clear n1.
  set (n3 := if n_resetRequested n2 then n2 <| n_filter := Filter_Reset (n_filter n2) |> else n2).
  assert (keeps_pairs n2 n3) as H3.
  { unfold n3. case_goal; [|by apply keeps_pairs_same]. intros hs Hp. left.
    by apply (paired_reset_filter n2). }
  clearbody n3. eapply keeps_pairs_trans; [exact H2|]. eapply keeps_pairs_trans; [exact H3|]. clear.
  case_goal; [|same_samples]. intros hs Hp. right. apply paired_empty; fields; try done. apply NewFilter_ok.
Qed.

(** A usable reply: whatever estimate it releases belongs, offset and metadata,
    to one observation. *)
Lemma hit_pairs n hs res at_ n' sm :
  paired n hs -> Forall (fun h => flt (snd h) at_ = true) hs -> is_nan at_ = false -> hit n res at_ = (n', sm) ->
  exists hs', paired n' hs' /\ (forall h, h ∈ hs' -> h ∈ hs \/ h = (res, at_)) /\
    forall s, sm = Some s -> exists h, h ∈ hs' /\ sa_meta s = obs_meta h /\ out_core (sa_f s) = obs_core h.
Proof.
  intros Hp Hlt Hn. unfold hit. set (n1 := prime n res).
  assert (exists hs1, paired n1 hs1 /\ forall h, h ∈ hs1 -> h ∈ hs) as (hs1 & H1 & S1).
  { destruct (prime_pairs n res hs Hp); [by exists hs|]. exists []. split; [done|]. intros h Hh.
    by apply not_elem_of_nil in Hh. }
  clearbody n1. set (n2 := n1 <| n_liveLeap := _ |> <| n_liveLeapAt := at_ |>).
  assert (paired n2 hs1) as H2 by (apply (paired_same n1); try done; unfold n2; frame). clearbody n2.
  set (h := (res, at_) : observation).
  assert (Forall (fun a => flt (snd a) (snd h) = true) hs1) as Hlt1.
  { rewrite Forall_forall in *. intros a Ha. by apply Hlt, S1. }
  set (n3 := noteMeta n2 (meta_of res at_)).
  assert (n_filter n3 = n_filter n2) as F3 by (unfold n3, noteMeta; case_goal; frame).
  rewrite F3. destruct (Filter_Add (n_filter n2) (xOffset res) (xDelay res) (reply_disp n res) at_)
    as [[f' f] updated] eqn:Ea.
  assert (forall n4, n_filter n4 = f' -> n_meta n4 = n_meta n3 -> n_metaNext n4 = n_metaNext n3 ->
    paired n4 (last_n FilterStages (hs1 ++ [h])) /\
    (updated = true -> exists a, a ∈ last_n FilterStages (hs1 ++ [h]) /\ out_core f = obs_core a)) as Hadd.
  { intros n4 Hf Hm Hx. by apply (paired_add n2 n4 hs1 h (reply_disp n res) f' f updated). }
  assert (forall a, a ∈ last_n FilterStages (hs1 ++ [h]) -> a ∈ hs \/ a = h) as Hsub.
  { intros a Ha. unfold last_n in Ha.
    assert (a ∈ hs1 ++ [h]) as Ha' by (rewrite <- (take_drop (length (hs1 ++ [h]) - FilterStages)); apply elem_of_app; by right).
    apply elem_of_app in Ha' as [Ha'|Ha']; [left; auto|right]. by apply list_elem_of_singleton in Ha'. }
  clearbody n3. fields.
  match goal with |- context [show_state (?x <| n_poll := ?y |>)] => set (np := y); set (n4 := x) end.
  assert (n_filter n4 = f' /\ n_meta n4 = n_meta n3 /\ n_metaNext n4 = n_metaNext n3) as (G1 & G2 & G3)
    by (unfold n4; frame).
  clearbody n4 np. destruct updated; cbn [negb]; intros E; apply pair_equal_spec in E as [<- <-].
  - set (n5 := show_state (n4 <| n_poll := np |>)).
    assert (n_filter n5 = f' /\ n_meta n5 = n_meta n3 /\ n_metaNext n5 = n_metaNext n3) as (L1 & L2 & L3)
      by (unfold n5; frame).
    clearbody n5. destruct (Hadd n5 L1 L2 L3) as [P5 Ho]. destruct (Ho eq_refl) as (a & Ha & Hc).
    exists (last_n FilterStages (hs1 ++ [h])). split; [done|]. split; [done|]. intros s [= <-]. exists a. split; [done|].
    split; [|done]. cbn [sa_meta].
    assert (o_At f = snd a) as Hat by (unfold out_core, obs_core in Hc; congruence).
    assert (is_nan (snd a) = false) as Hna.
    { destruct (Hsub a Ha) as [Hin| ->]; [|done]. rewrite Forall_forall in Hlt. specialize (Hlt a Hin). ford. }
    by rewrite Hat, (metaAt_paired n5 _ a P5 Ha Hna).
  - set (n5 := show_state n4).
    assert (n_filter n5 = f' /\ n_meta n5 = n_meta n3 /\ n_metaNext n5 = n_metaNext n3) as (L1 & L2 & L3)
      by (unfold n5; frame).
    clearbody n5. destruct (Hadd n5 L1 L2 L3) as [P5 _].
    exists (last_n FilterStages (hs1 ++ [h])). by split.
Qed.

(** ** The measurements of a run *)

Abbreviation poll_times ps := ((fun p : socket * poll_env => pe_at (snd p)) <$> ps).

Section Run.
Context `{BlockCipher}.
(** All the polls of the run. *)
Context (all : list (socket * poll_env)).

(** The observation is an exchange of one of those polls. *)
Definition exchanged (h : observation) : Prop :=
  exists s pe p, (s, pe) ∈ all /\ exchange p s = Some (fst h, None) /\ snd h = pe_at pe.

(** Every datum of the measurement is from this one observation. *)
Definition describes (m : Measurement) (h : observation) : Prop :=
  let pkt := xPacket (fst h) in
  m_At m = snd h /\ m_Offset m = xOffset (fst h) /\ m_Delay m = xDelay (fst h) /\
  m_Leap m = Leap pkt /\ m_Stratum m = Stratum pkt /\ m_RefID m = ReferenceID pkt /\
  m_RootDelay m = ShortSeconds (RootDelay pkt) /\ m_RootDisp m = ShortSeconds (RootDispersion pkt) /\
  m_Precision m = Precision pkt /\ m_RefTime m = TimeTime (ReferenceTime pkt) (T1 (fst h)).

Definition one_exchange (m : Measurement) : Prop :=
  m_Valid m = true -> exists h, exchanged h /\ describes m h.

(** Before the polls at [rest]: everything remembered is older. *)
Definition remembers (n : NTP) (rest : list f64) : Prop :=
  exists hs, paired n hs /\ Forall exchanged hs /\ Forall (fun h => Forall (fun t => flt (snd h) t = true) rest) hs.

Lemma remembers_keeps n n' rest : keeps_pairs n n' -> remembers n rest -> remembers n' rest.
Proof. intros Hk (hs & Hp & He & Ht). destruct (Hk hs Hp); [by exists hs|by exists []]. Qed.

Lemma remembers_app n l rest : remembers n (l ++ rest) -> remembers n rest.
Proof.
  intros (hs & Hp & He & Ht). exists hs. split; [done|]. split; [done|].
  eapply Forall_impl; [exact Ht|]. cbn beta. intros h Hh. by apply Forall_app in Hh as [_ ?].
Qed.

Lemma emit_none n now gen acq : one_exchange (emit n now None gen acq).
Proof. done. Qed.

Lemma pollOnce_remembers n s pe rest n' m :
  remembers n (pe_at pe :: rest) -> (s, pe) ∈ all -> is_nan (pe_at pe) = false ->
  Forall (fun t => flt (pe_at pe) t = true) rest ->
  pollOnce n s pe = Some (n', m) -> remembers n' rest /\ forall m0, m = Some m0 -> one_exchange m0.
Proof.
  intros Hr Hin Hn Hlt. unfold pollOnce. set (p := mkExchangeParams _ _ _ _ _).
  destruct (exchange p s) as [[res err]|] eqn:Ex; [|done]. cbn [mbind option_bind]. cbv zeta.
  set (n1 := if pe_reset pe then _ else _).
  assert (keeps_pairs n n1) as K1 by (unfold n1, Reset; destruct (pe_reset pe), (Sent res); same_samples).
  clearbody n1. apply (remembers_keeps _ _ _ K1) in Hr. clear K1.
  destruct err as [e|].
  - destruct (pe_cancelled pe); intros E; apply (inj Some), pair_equal_spec in E as [<- <-].
    + split; [by apply (remembers_app n1 [pe_at pe])|done].
    + split; [|by intros m0 [= <-]]. apply (remembers_app _ [pe_at pe]).
      eapply remembers_keeps; [|exact Hr]. apply keeps_pairs_same, failed_frame.
  - destruct (_ || _).
    + intros E. apply (inj Some), pair_equal_spec in E as [<- <-]. split; [|by intros m0 [= <-]].
      apply (remembers_app _ [pe_at pe]). eapply remembers_keeps; [|exact Hr]. unfold discardStale. same_samples.
    + destruct (hit n1 res (pe_at pe)) as [n2 sm] eqn:Eh. intros E. apply (inj Some), pair_equal_spec in E as [<- <-].
      destruct Hr as (hs & Hp & He & Ht).
      destruct (hit_pairs n1 hs res (pe_at pe) n2 sm Hp) as (hs' & Hp' & Hs' & Ho); [|done|exact Eh|].
      { eapply Forall_impl; [exact Ht|]. cbn beta. intros h Hh. by apply Forall_cons_1 in Hh as [? _]. }
      assert (Forall exchanged hs') as He'.
      { apply Forall_forall. intros h Hh. destruct (Hs' h Hh) as [Hh'| ->].
        - by eapply Forall_forall in He.
        - by exists s, pe, p. }
      split.
      * exists hs'. split; [done|]. split; [done|]. apply Forall_forall. intros h Hh. destruct (Hs' h Hh) as [Hh'| ->]; [|done].
        eapply Forall_forall in Ht; [|exact Hh']. by apply Forall_cons_1 in Ht as [_ ?].
      * intros m0 [= <-]. destruct sm as [sm|]; [|apply emit_none]. intros _.
        destruct (Ho sm eq_refl) as (h & Hh & Hm & Hc). exists h. split; [by eapply Forall_forall in He'|].
        unfold out_core, obs_core in Hc. apply pair_equal_spec in Hc as [Hc C3]. apply pair_equal_spec in Hc as [C1 C2].
        unfold describes, emit. cbn [m_At m_Offset m_Delay m_Leap m_Stratum m_RefID m_RootDelay m_RootDisp m_Precision m_RefTime].
        rewrite Hm, C1, C2, C3. done.
Qed.

Lemma burst_remembers k n polls rest n' ms :
  remembers n (poll_times polls ++ rest) -> Forall (fun p => p ∈ all) polls ->
  StronglySorted (fun a b => flt a b = true) (poll_times polls ++ rest) ->
  Forall (fun t => is_nan t = false) (poll_times polls) ->
  burst k n polls = Some (n', ms) -> remembers n' rest /\ Forall one_exchange ms.
Proof.
  revert n polls ms. induction k as [|k IH]; intros n polls ms Hr Hin Hs Hn; cbn [burst].
  { intros E. apply (inj Some), pair_equal_spec in E as [<- <-]. split; [by eapply remembers_app|constructor]. }
  destruct polls as [|[s pe] polls].
  { intros E. apply (inj Some), pair_equal_spec in E as [<- <-]. split; [done|constructor]. }
  cbn [fmap list_fmap snd app] in *. destruct (n_denied n || n_kissedRate n).
  { intros E. apply (inj Some), pair_equal_spec in E as [<- <-]. split; [|constructor].
    by apply (remembers_app n (pe_at pe :: poll_times polls)). }
  apply Forall_cons_1 in Hin as [Hp Hin]. apply Forall_cons_1 in Hn as [Hne Hn]. apply StronglySorted_inv in Hs as [Hs Hall].
  destruct (pollOnce n s pe) as [[n1 m]|] eqn:E1; [|done]. cbn [mbind option_bind].
  destruct (pollOnce_remembers _ _ _ _ _ _ Hr Hp Hne Hall E1) as [Hr1 Hm]. destruct m as [m|].
  - destruct (burst k n1 polls) as [[n2 ms2]|] eqn:E2; [|done]. cbn [mbind option_bind].
    intros E. apply (inj Some), pair_equal_spec in E as [<- <-].
    destruct (IH n1 polls ms2 Hr1 Hin Hs Hn E2) as [Hr2 Hms]. split; [done|]. constructor; [by apply Hm|done].
  - intros E. apply (inj Some), pair_equal_spec in E as [<- <-]. split; [by eapply remembers_app|constructor].
Qed.

Lemma run_turn_remembers n t rest n' ms :
  remembers n (poll_times (tu_polls t) ++ rest) -> Forall (fun p => p ∈ all) (tu_polls t) ->
  StronglySorted (fun a b => flt a b = true) (poll_times (tu_polls t) ++ rest) ->
  Forall (fun t => is_nan t = false) (poll_times (tu_polls t)) ->
  run_turn n t = Some (n', ms) -> remembers n' rest /\ Forall one_exchange ms.
Proof.
  intros Hr Hin Hs Hn. unfold run_turn.
  assert (forall nn (l : list Measurement), Some (nn, l) = Some (n', ms) -> remembers nn rest -> Forall one_exchange l ->
    remembers n' rest /\ Forall one_exchange ms) as Hfin.
  { intros nn l E. by apply (inj Some), pair_equal_spec in E as [-> ->]. }
  destruct (n_denied n); [intros E; eapply Hfin; [exact E|by eapply remembers_app|constructor]|].
  destruct (ensureResolved n (tu_lookup t) (tu_cancelled t)) as [[n1 ok]|] eqn:E1; [|done]. cbn [mbind option_bind].
  apply ensureResolved_pairs in E1. apply (remembers_keeps _ _ _ E1) in Hr. clear E1.
  destruct ok; cbn [negb].
  - destruct (c_IBurst (n_cfg n1) && (n_reach n1 =? 0)).
    + apply burst_remembers; try done. eapply remembers_keeps; [|exact Hr]. same_samples.
    + destruct (tu_polls t) as [|[s pe] polls]; [intros E; eapply Hfin; [exact E|done|constructor]|].
      cbn [fmap list_fmap snd app] in *. destruct (pollOnce n1 s pe) as [[n2 m]|] eqn:E2; [|done]. cbn [mbind option_bind].
      apply Forall_cons_1 in Hin as [Hp Hin]. apply Forall_cons_1 in Hn as [Hne Hn]. apply StronglySorted_inv in Hs as [Hs Hall].
      destruct (pollOnce_remembers _ _ _ _ _ _ Hr Hp Hne Hall E2) as [Hr2 Hm].
      intros E. eapply Hfin; [exact E|by eapply remembers_app|].
      destruct m as [m|]; [|constructor]. constructor; [by apply Hm|constructor].
  - apply remembers_app in Hr. destruct (tu_cancelled t); [intros E; eapply Hfin; [exact E|done|constructor]|].
    intros E. eapply Hfin; [exact E| |repeat constructor; apply emit_none].
    eapply remembers_keeps; [|exact Hr]. apply keeps_pairs_same, miss_frame.
Qed.

Lemma run_turns_remembers ts n n' mss :
  remembers n (poll_times (ts ≫= tu_polls)) -> Forall (fun p => p ∈ all) (ts ≫= tu_polls) ->
  StronglySorted (fun a b => flt a b = true) (poll_times (ts ≫= tu_polls)) ->
  Forall (fun t => is_nan t = false) (poll_times (ts ≫= tu_polls)) ->
  run_turns n ts = Some (n', mss) -> Forall (Forall one_exchange) mss.
Proof.
  revert n mss. induction ts as [|t ts IH]; intros n mss Hr Hin Hs Hn; cbn [run_turns].
  { intros E. apply (inj Some), pair_equal_spec in E as [_ <-]. constructor. }
  destruct (run_turn n t) as [[n1 ms]|] eqn:E1; [|done]. cbn [mbind option_bind].
  destruct (run_turns n1 ts) as [[n2 mss2]|] eqn:E2; [|done]. cbn [mbind option_bind].
  intros E. apply (inj Some), pair_equal_spec in E as [-> <-].
  rewrite bind_cons, fmap_app in *. apply Forall_app in Hin as [Hin1 Hin2]. apply Forall_app in Hn as [Hn1 Hn2].
  destruct (run_turn_remembers _ _ _ _ _ Hr Hin1 Hs Hn1 E1) as [Hr1 Hm]. constructor; [done|].
  eapply IH; [exact Hr1|done| |done|exact E2].
  rewrite <- (drop_app_length (poll_times (tu_polls t)) (poll_times (ts ≫= tu_polls))). by apply StronglySorted_drop.
Qed.

End Run.

(** Claim C31: a measurement describes one exchange.  Over any run of a source
    from [NewNTP], with a monotonic clock that moves between polls, every valid
    measurement it emits has its time, offset, delay, leap indicator, stratum,
    reference identifier, root delay and dispersion, precision and reference
    time all from the same reply: an exchange of one of the run's polls that
    succeeded, even when the filter chose one several polls old, across filter
    resets, changes of stratum and changes of peer. *)
Theorem measurement_of_one_exchange `{BlockCipher} cfg clk n0 ts n mss :
  NewNTP cfg clk = Ok n0 ->
  StronglySorted (fun a b => flt a b = true) (poll_times (ts ≫= tu_polls)) ->
  Forall (fun t => is_nan t = false) (poll_times (ts ≫= tu_polls)) ->
  run_turns n0 ts = Some (n, mss) ->
  forall ms m, ms ∈ mss -> m ∈ ms -> m_Valid m = true ->
  exists s pe p res, (s, pe) ∈ ts ≫= tu_polls /\ exchange p s = Some (res, None) /\ describes m (res, pe_at pe).
Proof.
  intros Hn Hs Ht E ms m Hms Hm Hv.
  assert (remembers (ts ≫= tu_polls) n0 (poll_times (ts ≫= tu_polls))) as H0.
  { exists []. split; [|split; constructor]. revert Hn. unfold NewNTP. cbv zeta.
    repeat (case_goal; [done|]). destruct clk; [|done]. intros [= <-]. apply paired_empty; try done. apply NewFilter_ok. }
  assert (Forall (fun p => p ∈ ts ≫= tu_polls) (ts ≫= tu_polls)) as Hall by by apply Forall_forall.
  pose proof (run_turns_remembers _ ts n0 n mss H0 Hall Hs Ht E) as Hok.
  rewrite Forall_forall in Hok. specialize (Hok ms Hms). rewrite Forall_forall in Hok.
  destruct (Hok m Hm Hv) as (h & (s & pe & p & Hin & Hx & He) & Hd). exists s, pe, p, (fst h).
  rewrite <- He, <- surjective_pairing. done.
Qed.

Lemma example_source_run : exists n mss m, run_turns example_source [example_turn example_socket] = Some (n, mss) /\
  mss = [[m]] /\ m_Valid m = true.
Proof. eexists _, _, _. split; [vm_compute; reflexivity|]. split; reflexivity. Qed.

Lemma measurement_of_one_exchange_witness :
  exists n m p res, run_turns example_source [example_turn example_socket] = Some (n, [[m]]) /\
    exchange p example_socket = Some (res, None) /\ m_Offset m = xOffset res /\ m_Stratum m = Stratum (xPacket res).
Proof.
  destruct example_source_run as (n & mss & m & E & -> & Hv).
  destruct (measurement_of_one_exchange example_cfg (Some (-20)) example_source [example_turn example_socket] n [[m]]
    example_NewNTP) with (ms := [m]) (m := m) as (s & pe & p & res & Hin & Hx & Hd).
  - repeat constructor.
  - repeat constructor.
  - exact E.
  - by left.
  - by left.
  - exact Hv.
  - exists n, m, p, res. split; [exact E|]. unfold example_turn in Hin.
    cbn [mbind list_bind tu_polls app] in Hin. apply list_elem_of_singleton in Hin. apply pair_equal_spec in Hin as [-> _].
    split; [exact Hx|]. destruct Hd as (_ & H1 & _ & _ & H2 & _). split; [exact H1|exact H2].
Defined.
