(* ===== verification/Interop.v ===== *)
(** * The client of internal/source against the server of internal/server

    The two sides of the protocol in this repository, composed: what the
    server answers to a request the client built, and what the client makes of
    that answer. *)

From stdpp Require Import base list gmap numbers.
From Stdlib Require Import Lia ZArith.
From S2P Require Import Prelude Float64 GoTime NtpTime NtpPacket Netip Auth Keys LeapTable LeapWire Distributor Responder Exchange.

Local Open Scope Z_scope.

(** ** Packets with an optional MAC *)

(** A header alone decodes to itself, with no MAC. *)
Lemma Decode_header_only p : packet_ok p -> 1 <= pVersion p <= 4 -> Decode (Marshal p) = Ok (p, None, HeaderSize).
Proof.
  intros Hp Hv. pose proof (length_Marshal p Hp) as Hm. unfold Decode. rewrite Hm.
  assert ((HeaderSize <? HeaderSize)%nat = false) as -> by done.
  assert (decode_header (Marshal p) = p) as -> by (rewrite <- (app_nil_r (Marshal p)); by apply decode_header_Marshal).
  cbv zeta.
  assert ((pVersion p =? 0) || (Version <? pVersion p) = false) as ->.
  { apply orb_false_iff. unfold Version. split; [apply Z.eqb_neq|apply Z.ltb_ge]; lia. }
  assert (forall f, skip_extensions f (Marshal p) HeaderSize = Some (Ok HeaderSize)) as ->
    by (intros [|f]; cbn [skip_extensions]; rewrite Hm, Nat.sub_diag; reflexivity).
  unfold decode_trailer. rewrite Hm, Nat.sub_diag. reflexivity.
Qed.

Section Wire.
Context `{BlockCipher}.

(** What an optional key appends to a marshalled header. *)
Definition sealed (key : option Key) (p : Packet) (out : list Z) : Prop :=
  match key with None => out = Marshal p | Some k => Key_Append k (Marshal p) = Some out end.

(** A sealed packet decodes to itself, and its MAC verifies. *)
Lemma sealed_decodes key p out :
  packet_ok p -> 1 <= pVersion p <= 4 ->
  (forall k, key = Some k -> length (Secret k) = KeySize /\ in_u 32 (ID k)) ->
  sealed key p out ->
  exists mac, Decode out = Ok (p, mac, HeaderSize) /\
    match key with
    | None => mac = None
    | Some k => exists m, mac = Some m /\ KeyID m = ID k /\ IsCryptoNAK m = false /\
                  Key_Verify k (take HeaderSize out) mac = Some true
    end.
Proof.
  intros Hp Hv Hk Hs. destruct key as [k|]; cbn [sealed] in Hs.
  2: { subst out. exists None. split; [by apply Decode_header_only|done]. }
  destruct (Hk k eq_refl) as [Hlen Hid]. pose proof Hs as Hs'. unfold Key_Append in Hs'.
  destruct (CMAC (Secret k) (Marshal p)) as [d|] eqn:Ed; [|done]. cbn [mbind option_bind] in Hs'.
  apply (inj Some) in Hs'. pose proof (CMAC_length _ _ _ Ed) as Hd.
  set (m := mkMAC (ID k) d).
  assert (Decode out = Ok (p, Some m, HeaderSize)) as Hdec.
  { pose proof (decode_marshalled p [] (ID k) d Hp Hv (List.Forall_nil _) Hid (or_introl Hd)) as E.
    cbn [concat app length] in E. rewrite Nat.add_0_r in E. rewrite <- Hs'. exact E. }
  assert (take HeaderSize out = Marshal p) as Ht.
  { rewrite <- Hs', take_app_le by (rewrite length_Marshal by done; lia).
    apply take_ge. rewrite length_Marshal by done. lia. }
  exists (Some m). split; [done|]. exists m. split; [done|]. split; [done|]. split; [|].
  - unfold IsCryptoNAK. subst m. cbn [KeyID Digest]. rewrite Hd. by rewrite andb_false_r.
  - rewrite Ht. apply verify_append_iff; [done|]. split; [done|]. rewrite Hs. subst m. cbn [KeyID Digest]. by rewrite Hs'.
Qed.

(** ** The client's request *)

(** The parameters the client polls with. *)
Record params_ok (p : exchangeParams) (nonce : list Z) : Prop := {
  pk_poll : in_s 8 (x_poll p);
  pk_precision : in_s 8 (x_precision p);
  pk_nonce : length nonce = 8%nat /\ Forall is_byte nonce
}.

Lemma request_packet_ok p nonce : params_ok p nonce -> packet_ok (request_packet p nonce).
Proof.
  intros [H1 H2 [H3 H4]]. pose proof (be_decode_range nonce H4) as Hr. rewrite H3 in Hr.
  constructor; cbn [request_packet Leap pVersion Mode Stratum Poll Precision RootDelay RootDispersion ReferenceID
    ReferenceTime OriginTime ReceiveTime TransmitTime]; unfold in_u, Version, ModeClient; try done; try lia.
  split; [done|]. repeat constructor; cbn; lia.
Qed.

(** What the server sends back to it. *)
Lemma server_answers p nonce request s env client receive mono s' out :
  params_ok p nonce -> request_bytes p nonce = Some request -> Forall is_byte request ->
  server_ok s -> status_ok (e_status env) ->
  (forall k, x_key p = Some k -> h_keys (sv_h s) !! ID k = Some k) ->
  Handle env s request client receive mono = Some (s', Some out) ->
  exists refID special, sealed (x_key p) (sent_packet env (sv_h s) (request_packet p nonce) receive (e_status env) refID special) out /\
    length refID = 4%nat /\ Forall is_byte refID /\ (special = false -> st_Synced (e_status env) = true).
Proof.
  intros Hp Hreq Hb Hs Hst Hkey E.
  pose proof (request_packet_ok p nonce Hp) as Hpk. set (rp := request_packet p nonce) in *.
  assert (forall k, x_key p = Some k -> length (Secret k) = KeySize /\ in_u 32 (ID k)) as Hk.
  { intros k Hk. destruct (sv_ring _ Hs _ _ (Hkey k Hk)) as (_ & H1 & H2 & _). split; [done|]. unfold in_u. lia. }
  assert (sealed (x_key p) rp request) as Hsealed.
  { unfold request_bytes in Hreq. cbv zeta in Hreq. fold rp in Hreq. unfold sealed.
    destruct (x_key p); [done|]. by apply (inj Some) in Hreq. }
  destruct (sealed_decodes (x_key p) rp request Hpk ltac:(cbn; unfold Version; lia) Hk Hsealed) as (mac & Hd & Hm).
  assert (verify (sv_h s) request HeaderSize mac = Some (x_key p, true)) as Hv.
  { unfold verify. destruct (x_key p) as [k|] eqn:Ek; [|by subst mac].
    destruct Hm as (m & -> & Hid & Hnak & Hver). rewrite Hnak, Hid, (Hkey k eq_refl), Hver. reflexivity. }
  destruct (Handle_spec env s request client receive mono Hs Hst Hb) as (s1 & r & E1 & _ & _ & _ & R).
  rewrite E in E1. apply (inj Some), pair_equal_spec in E1 as [_ <-].
  destruct (R out eq_refl) as (pkt & mac' & off & Hd' & _ & _ & _ & Hr). rewrite Hd in Hd'. injection Hd' as <- <- <-.
  destruct (status_refid_ok _ Hst) as [Hl1 Hb1]. destruct KissRATE_ok as [Hl2 Hb2].
  destruct Hr as [Hv' _|key Hv' _ _ Hrep|key ext Hv' _ Hext Hrep]; rewrite Hv in Hv'.
  - exfalso. congruence.
  - assert (key = x_key p) as -> by congruence. apply reply_spec in Hrep; [|done]. cbv zeta in Hrep.
    cbn [extension_bytes] in Hrep. rewrite app_nil_r in Hrep. by exists KissRATE, true.
  - assert (key = x_key p) as -> by congruence.
    assert (ext = None) as ->.
    { destruct ext as [m|]; [|done]. exfalso. destruct (Hext m eq_refl) as (_ & _ & Hlen). rewrite Nat.sub_diag in Hlen.
      unfold encode_field in Hlen. rewrite !length_app, length_be_encode in Hlen. lia. }
    apply reply_spec in Hrep; [|done]. cbv zeta in Hrep. cbn [extension_bytes] in Hrep. rewrite app_nil_r in Hrep.
    exists (status_refid (e_status env)), (negb (st_Synced (e_status env))). split; [done|]. split; [done|]. split; [done|].
    by destruct (st_Synced (e_status env)).
Qed.

End Wire.

Lemma sameEndpoint_refl a : sameEndpoint a a = true.
Proof. unfold sameEndpoint. by rewrite Z.eqb_refl, bool_decide_true. Qed.

(** What the client can make of an answer that authenticated. *)
Definition agreed (p : exchangeParams) (env : Env) (t1 t4 receive : time) (res : exchangeResult)
  (err : option ExchangeError) : Prop :=
  match err with
  | None => st_Synced (e_status env) = true /\
      xOffset res = fdiv (fadd (TimeSub (FromTime receive) (FromTime t1))
                               (TimeSub (FromTime (e_sendNow env)) (FromTime t4))) (of_Z 2)
  | Some (ErrKiss _ _ authenticated) => authenticated = bool_decide (is_Some (x_key p))
  | Some (ErrBogus reason) => reason <> BogusMode
  | Some _ => False
  end.

(** Claim C30: the client and the server agree.  Whatever the server answers to
    a request the client built, the client accepts as the answer to that
    request: it decodes, is a server packet, echoes the nonce, and, when both
    hold the same key, its MAC verifies, so it is never a crypto-NAK, a timeout
    or an authentication failure.  If a time results, the server was
    synchronized, and the offset is computed from the client's send and receive
    times and the server's own receive and transmit times. *)
Theorem client_server_agree `{BlockCipher} p nonce request s env client receive mono s' out t1 t4 last :
  params_ok p nonce -> request_bytes p nonce = Some request -> Forall is_byte request ->
  server_ok s -> status_ok (e_status env) ->
  (forall k, x_key p = Some k -> h_keys (sv_h s) !! ID k = Some k) ->
  Handle env s request client receive mono = Some (s', Some out) ->
  exists res err,
    exchange p (mkSocket (Some nonce) true t1 WriteOk [mkRx (x_addr p) out t4 None] last) = Some (res, err) /\
    Mode (xPacket res) = ModeServer /\ OriginTime (xPacket res) = be_decode nonce /\
    ReceiveTime (xPacket res) = FromTime receive /\ TransmitTime (xPacket res) = FromTime (e_sendNow env) /\
    Authenticated res = bool_decide (is_Some (x_key p)) /\
    agreed p env t1 t4 receive res err.
Proof.
  intros Hp Hreq Hb Hs Hst Hkey E.
  destruct (server_answers p nonce request s env client receive mono s' out Hp Hreq Hb Hs Hst Hkey E)
    as (refID & special & Hsealed & Hl & Hbr & Hsp).
  pose proof (sent_packet_ok env (sv_h s) _ receive _ refID special Hst (request_packet_ok p nonce Hp) (sv_minPoll _ Hs) Hl Hbr) as Hok.
  set (sp := sent_packet env (sv_h s) (request_packet p nonce) receive (e_status env) refID special) in *.
  assert (pVersion sp = 4 /\ Mode sp = ModeServer /\ OriginTime sp = be_decode nonce /\ ReceiveTime sp = FromTime receive /\
    TransmitTime sp = FromTime (e_sendNow env) /\ (special = true -> Leap sp = LeapUnsync)) as (S1 & S2 & S3 & S4 & S5 & S6).
  { repeat (split; [done|]). intros ->. done. }
  assert (forall k, x_key p = Some k -> length (Secret k) = KeySize /\ in_u 32 (ID k)) as Hk.
  { intros k Hk. destruct (sv_ring _ Hs _ _ (Hkey k Hk)) as (_ & H1 & H2 & _). split; [done|]. unfold in_u. lia. }
  clearbody sp.
  destruct (sealed_decodes (x_key p) sp out Hok ltac:(lia) Hk Hsealed) as (mac & Hd & Hm).
  unfold exchange. cbn [so_nonce so_opened so_write so_reads so_t1 so_end]. rewrite Hreq. cbn [mbind option_bind negb receive_loop].
  cbn [rx_kernel rx_from rx_data rx_now]. rewrite sameEndpoint_refl, Hd, S3, Z.eqb_refl. cbn [negb].
  unfold accept. rewrite S2, Z.eqb_refl. cbn [negb].
  assert (match x_key p with
    | None => Some true
    | Some k => match mac with
                | None => Some false
                | Some m => if IsCryptoNAK m then Some false else Key_Verify k (take HeaderSize out) mac
                end
    end = Some true) as ->.
  { destruct (x_key p) as [k|]; [|done]. destruct Hm as (m & -> & _ & -> & Hv). exact Hv. }
  cbn [mbind option_bind negb]. destruct (IsKiss sp).
  - destruct (KissCode sp) as [|c code]; eexists _, _; (split; [reflexivity|]); repeat (split; [done|]); done.
  - destruct (judge p t1 t4 sp) as [[o d]|reason] eqn:Ej; eexists _, _; (split; [reflexivity|]);
      repeat (split; [done|]); cbn [agreed].
    + apply judge_ok in Ej as (_ & Hleap & _ & _ & Ho & _). split.
      * apply Hsp. destruct special; [by destruct Hleap; apply S6|done].
      * cbn [xOffset set]. by rewrite Ho, S4, S5.
    + revert Ej. unfold judge. cbv zeta. repeat (case_goal; [by intros [= <-]|]). done.
Qed.

(** ** An example *)

Definition interop_params : exchangeParams := mkExchangeParams (mkAddrPort (Addr4 3221225994) 123) (Some example_key) 6 true (-20).
Definition interop_nonce : list Z := [1; 2; 3; 4; 5; 6; 7; 8].
Definition interop_request : list Z := default [] (request_bytes interop_params interop_nonce).
Definition interop_t1 : time := unixTime 1717200100 0.

Lemma interop_request_bytes : request_bytes interop_params interop_nonce = Some interop_request /\ Forall is_byte interop_request.
Proof. split; [vm_compute; reflexivity|]. vm_compute. repeat constructor; discriminate. Qed.

Lemma interop_answer :
  exists s' out, Handle example_env example_server interop_request example_client (unixTime 1717200100 5) 0
    = Some (s', Some out).
Proof.
  assert (match Handle example_env example_server interop_request example_client (unixTime 1717200100 5) 0 with
    | Some (s, Some out) => (length out =? 68)%nat | _ => false end = true) as Ha by (vm_compute; reflexivity).
  destruct (Handle example_env example_server interop_request example_client (unixTime 1717200100 5) 0)
    as [[s [out|]]|]; [eauto|discriminate Ha|discriminate Ha].
Qed.

Lemma client_server_agree_witness :
  exists s' out res err,
    Handle example_env example_server interop_request example_client (unixTime 1717200100 5) 0 = Some (s', Some out) /\
    exchange interop_params (mkSocket (Some interop_nonce) true interop_t1 WriteOk
      [mkRx (x_addr interop_params) out (interop_t1 + 2000000000) None] ReadTimeout) = Some (res, err) /\
    Authenticated res = true /\ OriginTime (xPacket res) = 72623859790382856.
Proof.
  destruct interop_answer as (s' & out & E). destruct interop_request_bytes as [Hr Hb].
  destruct (client_server_agree interop_params interop_nonce interop_request example_server example_env example_client
    (unixTime 1717200100 5) 0 s' out interop_t1 (interop_t1 + 2000000000) ReadTimeout) as (res & err & Ex & _ & Ho & _ & _ & Ha & _).
  - constructor; [unfold in_s; cbn; lia|unfold in_s; cbn; lia|]. split; [reflexivity|]. repeat constructor; cbn; lia.
  - exact Hr.
  - exact Hb.
  - exact example_server_ok.
  - exact example_status_ok.
  - intros k Hk. apply (inj Some) in Hk as <-. reflexivity.
  - exact E.
  - exists s', out, res, err. split; [exact E|]. split; [exact Ex|]. split; [exact Ha|]. rewrite Ho. reflexivity.
Defined.
