(* ===== verification/Refclock.v ===== *)
(** * internal/refclock: what the two local reference clocks share

    The status snapshot, the reach register, and the robust statistics of a
    window: median and median absolute deviation. *)

From stdpp Require Import base list numbers strings.
From Stdlib Require Import Lia ZArith.
From S2P Require Import Prelude Float64 GoTime NtpTime Measurement Select.

Local Open Scope Z_scope.

(** ** Status *)

Record RefclockInfo : Type := mkRefclockInfo {
  r_Sequence : Z;
  r_WindowSamples : nat;
  r_WindowJitter : f64;
  r_IntervalJitter : f64;
  r_Stable : bool;
  r_LastPulse : time;
  r_LastOffset : f64;
  r_LastInterval : f64;
  r_FixKnown : bool;
  r_FixValid : bool;
  r_FixQuality : Z;
  r_Satellites : Z;
  r_Sentence : list Z;
  r_LastSentence : time;
  r_MeasuredLag : f64;
  r_LagSamples : nat;
  r_Samples : Z; r_Timeouts : Z; r_Gaps : Z; r_Glitches : Z; r_Spikes : Z
}.

#[export] Instance RefclockInfo_eta : Eta RefclockInfo := fun r =>
  mkRefclockInfo (r_Sequence r) (r_WindowSamples r) (r_WindowJitter r) (r_IntervalJitter r) (r_Stable r) (r_LastPulse r)
    (r_LastOffset r) (r_LastInterval r) (r_FixKnown r) (r_FixValid r) (r_FixQuality r) (r_Satellites r) (r_Sentence r)
    (r_LastSentence r) (r_MeasuredLag r) (r_LagSamples r) (r_Samples r) (r_Timeouts r) (r_Gaps r) (r_Glitches r) (r_Spikes r).

Definition zeroRefclockInfo : RefclockInfo :=
  mkRefclockInfo 0 0 fzero fzero false zeroTime fzero fzero false false 0 0 [] zeroTime fzero 0 0 0 0 0 0.

(** The part of [source.Info] a reference clock writes. *)
Record ClockInfo : Type := mkClockInfo {
  k_Reach : Z;
  k_Poll : Z;
  k_Offset : f64; k_Delay : f64; k_Dispersion : f64; k_Jitter : f64;
  k_Stratum : Z;
  k_RefID : RefID;
  k_Leap : Z;
  k_LastRx : time;
  k_LastError : string;
  k_Received : Z; k_Timeouts : Z; k_Bogus : Z; k_Stale : Z;
  k_Refclock : RefclockInfo
}.

#[export] Instance ClockInfo_eta : Eta ClockInfo := fun i =>
  mkClockInfo (k_Reach i) (k_Poll i) (k_Offset i) (k_Delay i) (k_Dispersion i) (k_Jitter i) (k_Stratum i) (k_RefID i)
    (k_Leap i) (k_LastRx i) (k_LastError i) (k_Received i) (k_Timeouts i) (k_Bogus i) (k_Stale i) (k_Refclock i).

Definition initialInfo (poll : Z) : ClockInfo :=
  mkClockInfo 0 poll fzero fzero fzero fzero 0 zeroRefID 0 zeroTime ""%string 0 0 0 0 zeroRefclockInfo.

(** An update of the nested record. *)
Definition on_refclock (f : RefclockInfo -> RefclockInfo) (i : ClockInfo) : ClockInfo :=
  i <| k_Refclock := f (k_Refclock i) |>.

(** ** The reach register *)

Definition reachBits : Z := 8.

(** [shiftReach]; the register is a uint8. *)
Definition shiftReach (reach n : Z) : Z := if reachBits <=? n then 0 else u8 (Z.shiftl reach n).

(** ** Robust statistics *)

(** The order of [slices.Sort] on floats: a NaN precedes every number. *)
Definition float_less (a b : f64) : bool := flt a b || (is_nan a && negb (is_nan b)).
Definition sort_floats (l : list f64) : list f64 := sort_stable float_less l.

(** [middle] of a sorted slice; the slices it is applied to are not empty. *)
Definition middle (v : list f64) : f64 :=
  let n := length v in
  if (n mod 2 =? 1)%nat then nth (n / 2) v fzero
  else fdiv (fadd (nth (n / 2 - 1) v fzero) (nth (n / 2) v fzero)) (of_Z 2).

Definition medianMAD (values : list f64) : f64 * f64 :=
  if (length values =? 0)%nat then (fzero, fzero)
  else
    let median := middle (sort_floats values) in
    (median, middle (sort_floats ((fun x => fabs (fsub x median)) <$> values))).

(** [1.4826]. *)
Definition madScale : f64 := lit 14826 10000.

Definition finite (v : f64) : bool := negb (is_nan v) && negb (is_inf v).

(** [append], or shift by one and replace the last when full. *)
Definition append_bounded {A} (max : nat) (l : list A) (x : A) : list A :=
  if (length l =? max)%nat then drop 1 l ++ [x] else l ++ [x].

Lemma append_bounded_length {A} max (l : list A) x :
  (0 < max)%nat -> (length l <= max)%nat ->
  (1 <= length (append_bounded max l x) <= max)%nat /\
  (length (append_bounded max l x) <= S (length l))%nat /\ (length l <= length (append_bounded max l x))%nat.
Proof.
  intros H1 H2. unfold append_bounded. case_goal; bool_step; rewrite length_app, ?length_drop; cbn [length]; lia.
Qed.

(** ** What the selector holds *)

(** A measurement's effect on whether the selector has an estimate. *)
Definition view (held : bool) (m : Measurement) : bool :=
  if m_Valid m then true else if m_Invalidate m then false else held.

Lemma source_apply_view st m : Valid (source_apply st m) = view (Valid st) m.
Proof.
  unfold source_apply, view, apply_leap. destruct st. destruct (m_Valid m); cbn [negb]; [reflexivity|].
  destruct (m_Invalidate m); cbn [Select.Valid set]; repeat case_goal; reflexivity.
Qed.

Lemma source_apply_views st ms : Valid (fold_left source_apply ms st) = fold_left view ms (Valid st).
Proof. revert st. induction ms as [|m ms IH]; intros st; [done|]. cbn [fold_left]. by rewrite IH, source_apply_view. Qed.

(** ** Facts *)

Lemma shiftReach_range reach n : 0 <= shiftReach reach n < 256.
Proof. unfold shiftReach. case_goal; [lia|]. apply (wrapu_range 8). lia. Qed.
