(* ===== verification/Pps.v ===== *)
(** * internal/refclock/pps.go: the PPS reference clock

    Kernel-timestamped pulse edges pass a sequence, an interval and a spike
    check into a window of offsets; when a poll's worth of slots has passed the
    median of the window's tail is reported.  One iteration of [Run] is
    [run_step]: the fetch, the clock and epoch readings and the calls of
    [Reset] are its inputs. *)

From stdpp Require Import base list numbers strings.
From Stdlib Require Import Lia ZArith.
From S2P Require Import Prelude Float64 GoTime NtpTime Measurement Refclock NtpSource.

Local Open Scope Z_scope.

(** ** Configuration *)

Definition defaultPPSPollMin : Z := 4.
Definition defaultPPSPollMax : Z := 7.
Definition defaultLockJitter : f64 := lit 200 1000000.
Definition maxPulseIntervalSkew : duration := 100 * 1000000.
Definition spikeFloor : f64 := lit 1 1000000.
Definition defaultMaxSlewPPM : f64 := of_Z 500.
Definition spikeFitMin : nat := 4.
Definition spikeFitMax : nat := 8.
Definition spikeSlewPulses : f64 := of_Z 8.
Definition maxSequenceGap : Z := 3600.
Definition spikeResetAfter : Z := 4.

(** [pps.Edge]. *)
Definition Assert : Z := 1.
Definition Clear : Z := 2.

Record PPSConfig : Type := mkPPSConfig {
  pc_Name : string;
  pc_Type : string;
  pc_Device : string;
  pc_Edge : Z;
  pc_Offset : f64;
  pc_LockJitter : f64;
  pc_PollMin : Z;
  pc_PollMax : Z;
  pc_MaxSlewPPM : f64
}.

#[export] Instance PPSConfig_eta : Eta PPSConfig := fun c =>
  mkPPSConfig (pc_Name c) (pc_Type c) (pc_Device c) (pc_Edge c) (pc_Offset c) (pc_LockJitter c) (pc_PollMin c)
    (pc_PollMax c) (pc_MaxSlewPPM c).

Inductive PPSConfigError : Type :=
| PPSBadType | PPSNoDevice | PPSBadEdge | PPSBadOffset | PPSBadLockJitter | PPSBadPoll | PPSBadSlew | PPSNoClock.

(** [defaultAndValidatePPS]; [hasClock] is whether the clock is not nil. *)
Definition defaultAndValidatePPS (c : PPSConfig) (hasClock : bool) : result PPSConfigError PPSConfig :=
  let c := if bool_decide (pc_Name c = ""%string) then c <| pc_Name := "pps"%string |> else c in
  let c := if bool_decide (pc_Type c = ""%string) then c <| pc_Type := "pps"%string |> else c in
  if negb (bool_decide (pc_Type c = "pps"%string)) && negb (bool_decide (pc_Type c = "gps-pps"%string)) then Err PPSBadType
  else if bool_decide (pc_Device c = ""%string) then Err PPSNoDevice
  else if negb (pc_Edge c =? Assert) && negb (pc_Edge c =? Clear) then Err PPSBadEdge
  else
    let c := if feq (pc_LockJitter c) fzero then c <| pc_LockJitter := defaultLockJitter |> else c in
    if negb (finite (pc_Offset c)) then Err PPSBadOffset
    else if negb (finite (pc_LockJitter c)) || fle (pc_LockJitter c) fzero then Err PPSBadLockJitter
    else
      let c := if pc_PollMin c =? 0 then c <| pc_PollMin := defaultPPSPollMin |> else c in
      let c := if pc_PollMax c =? 0 then c <| pc_PollMax := defaultPPSPollMax |> else c in
      if (pc_PollMin c <? MinPoll) || (MaxPoll <? pc_PollMax c) || (pc_PollMax c <? pc_PollMin c) then Err PPSBadPoll
      else
        let c := if feq (pc_MaxSlewPPM c) fzero then c <| pc_MaxSlewPPM := defaultMaxSlewPPM |> else c in
        if negb (finite (pc_MaxSlewPPM c)) || fle (pc_MaxSlewPPM c) fzero then Err PPSBadSlew
        else if negb hasClock then Err PPSNoClock
        else Ok c.

(** ** State *)

(** [pps.Sample]; the sequence is a uint32. *)
Record Sample : Type := mkPulseSample { s_Sequence : Z; s_Time : time }.

(** [source.Pulse]. *)
Record Pulse : Type := mkPulse { pu_At : time; pu_Offset : f64; pu_Sequence : Z }.

Record PPS : Type := mkPPS {
  p_cfg : PPSConfig;
  p_precision : Z;
  p_resetRequested : bool;
  p_info : ClockInfo;
  p_reach : Z;
  p_poll : Z;
  p_window : list f64;
  p_windowSeq : list Z;
  p_intervals : list f64;
  p_slots : Z;
  p_pendingMisses : Z;
  p_havePrevious : bool;
  p_previousSeq : Z;
  p_previousTime : time;
  p_stable : bool;
  p_haveEverPulse : bool;
  p_rejectRun : Z;
  p_pendingInvalidate : bool;
  p_staleSeen : Z
}.

#[export] Instance PPS_eta : Eta PPS := fun p =>
  mkPPS (p_cfg p) (p_precision p) (p_resetRequested p) (p_info p) (p_reach p) (p_poll p) (p_window p) (p_windowSeq p)
    (p_intervals p) (p_slots p) (p_pendingMisses p) (p_havePrevious p) (p_previousSeq p) (p_previousTime p) (p_stable p)
    (p_haveEverPulse p) (p_rejectRun p) (p_pendingInvalidate p) (p_staleSeen p).

Definition newPPS (cfg : PPSConfig) (precision : Z) : PPS :=
  mkPPS cfg precision false (initialInfo (pc_PollMin cfg)) 0 (pc_PollMin cfg) [] [] [] 0 0 false 0 zeroTime false false 0
    false 0.

Definition pps_updateInfo (p : PPS) (f : ClockInfo -> ClockInfo) : PPS := p <| p_info := f (p_info p) |>.

Definition pps_Reset (p : PPS) : PPS := p <| p_resetRequested := true |>.

(** [1 << cfg.PollMax], the capacity of the windows. *)
Definition window_max (p : PPS) : nat := Z.to_nat (2 ^ pc_PollMax (p_cfg p)).

Definition pps_resetWindow (p : PPS) : PPS :=
  let p := p <| p_pendingInvalidate := true |> <| p_window := [] |> <| p_windowSeq := [] |> <| p_intervals := [] |>
             <| p_slots := 0 |> <| p_stable := false |> <| p_rejectRun := 0 |> in
  pps_updateInfo p (on_refclock (fun r =>
    r <| r_WindowSamples := 0%nat |> <| r_WindowJitter := fzero |> <| r_IntervalJitter := fzero |> <| r_Stable := false |>)).

(** [if p.resetRequested.Swap(false) { p.resetWindow() }]. *)
Definition take_reset (p : PPS) : PPS :=
  if p_resetRequested p then pps_resetWindow (p <| p_resetRequested := false |>) else p.

(** ** The window *)

Definition appendWindow (p : PPS) (seq : Z) (v : f64) : PPS :=
  if (length (p_window p) =? window_max p)%nat
  then p <| p_window := drop 1 (p_window p) ++ [v] |> <| p_windowSeq := drop 1 (p_windowSeq p) ++ [seq] |>
  else p <| p_window := p_window p ++ [v] |> <| p_windowSeq := p_windowSeq p ++ [seq] |>.

Definition appendInterval (p : PPS) (v : f64) : PPS :=
  p <| p_intervals := append_bounded (window_max p) (p_intervals p) v |>.

(** The last [n] of the window, or all of it. *)
Definition windowTail (p : PPS) (n : nat) : list f64 := drop (length (p_window p) - n) (p_window p).

(** [float64(int32(a - b))] on uint32 counters. *)
Definition seq_diff (a b : Z) : f64 := of_Z (wraps 32 (u32 (a - b))).

(** The sums of the least-squares fit. *)
Definition fit_sums (last : Z) (xys : list (Z * f64)) : f64 * f64 * f64 * f64 :=
  fold_left (fun '(sx, sy, sxx, sxy) '(xi, y) =>
    let x := seq_diff xi last in
    (fadd sx x, fadd sy y, fadd sxx (fmul x x), fadd sxy (fmul x y))) xys (fzero, fzero, fzero, fzero).

(** [spikeGate]: the predicted offset and the limit, when there is a fit. *)
Definition spikeGate (p : PPS) (seq : Z) : option (f64 * f64) :=
  let n := length (p_window p) in
  if (n <? spikeFitMin)%nat || negb (length (p_windowSeq p) =? n)%nat then None
  else
    let n := if (spikeFitMax <? n)%nat then spikeFitMax else n in
    let xs := drop (length (p_windowSeq p) - n) (p_windowSeq p) in
    let ys := drop (length (p_window p) - n) (p_window p) in
    let last := nth (n - 1) xs 0 in
    let fn := of_Z (Z.of_nat n) in
    let '(sx, sy, sxx, sxy) := fit_sums last (zip xs ys) in
    let den := fsub (fmul fn sxx) (fmul sx sx) in
    if feq den fzero then None
    else
      let slope := fdiv (fsub (fmul fn sxy) (fmul sx sy)) den in
      let intercept := fdiv (fsub sy (fmul slope sx)) fn in
      let residuals := (fun '(xi, y) => fsub y (fadd intercept (fmul slope (seq_diff xi last)))) <$> zip xs ys in
      let mad := snd (medianMAD residuals) in
      let ahead := seq_diff seq last in
      let ahead := if flt ahead (of_Z 1) then of_Z 1 else ahead in
      let ahead := if fgt ahead spikeSlewPulses then spikeSlewPulses else ahead in
      Some (fadd intercept (fmul slope (seq_diff seq last)),
            fadd (fmax (fmul (of_Z 5) mad) spikeFloor)
                 (fmul (fmul (pc_MaxSlewPPM (p_cfg p)) (lit 1 1000000)) ahead)).

Definition edgeOffset (t : time) : f64 :=
  let frac := fdiv (of_Z (nanos t)) (of_Z Second) in
  if flt frac (lit 1 2) then fopp frac else fsub (of_Z 1) frac.

Definition intervalJitter (values : list f64) : f64 := fmul (snd (medianMAD values)) madScale.

Definition ppsWindowStable (wasStable : bool) (samples : nat) (sigma limit : f64) : bool :=
  if (samples <? 4)%nat then false
  else if wasStable then fle sigma (fmul (of_Z 4) limit) else flt sigma limit.

(** The package's own [adaptPoll]. *)
Definition adaptPoll (poll : Z) (offset jitter : f64) (min max : Z) : Z :=
  let poll := if flt (fabs offset) (fmul (of_Z 4) jitter) then i8 (poll + 1) else i8 (poll - 1) in
  if poll <? min then min else if max <? poll then max else poll.

(** ** Measurements *)

Definition pps_emptyMeasurement (p : PPS) (now : f64) (gen : Z) : Measurement :=
  mkMeasurement (pc_Name (p_cfg p)) now (p_reach p) (p_poll p) gen false false false 0 fzero false fzero fzero fzero fzero
    fzero 0 0 zeroRefID fzero fzero 0 zeroTime zeroRefID.

(** [emit]: the measurement sent; [gen] is the epoch read at that time. *)
Definition pps_emit (p : PPS) (m : Measurement) (now : f64) (gen : Z) : PPS * Measurement :=
  let m := m <| m_Now := now |> <| m_Reach := p_reach p |> <| m_Poll := p_poll p |> in
  let '(p, m) :=
    if p_pendingInvalidate p then (p <| p_pendingInvalidate := false |>, m <| m_Invalidate := true |>) else (p, m) in
  (p, if negb (m_Valid m) then m <| m_Generation := gen |> else m).

Inductive reject_kind : Type := Spike | Glitch.

Definition pps_reject (p : PPS) (kind : reject_kind) (m : Measurement) : PPS * Measurement :=
  let p := p <| p_reach := u8 (Z.shiftl (p_reach p) 1) |> in
  let m := m <| m_Reach := p_reach p |> in
  let p := pps_updateInfo p (fun i => on_refclock (fun r =>
    match kind with
    | Spike => r <| r_Spikes := u64 (r_Spikes r + 1) |>
    | Glitch => r <| r_Glitches := u64 (r_Glitches r + 1) |>
    end) (i <| k_Reach := p_reach p |>)) in
  let p := p <| p_rejectRun := p_rejectRun p + 1 |> in
  if spikeResetAfter <=? p_rejectRun p then (pps_resetWindow (p <| p_rejectRun := 0 |>), m) else (p, m).

Definition accountSequence (p : PPS) (s : Sample) (delta : Z) (interval : f64) (validInterval : bool) : PPS :=
  let misses := delta - 1 in
  let additional := misses - p_pendingMisses p in
  let p := if 0 <? additional
           then p <| p_reach := shiftReach (p_reach p) additional |> <| p_slots := p_slots p + additional |> else p in
  let p := if 0 <? misses
           then pps_updateInfo p (on_refclock (fun r => r <| r_Gaps := u64 (r_Gaps r + misses) |>)) else p in
  let p := p <| p_pendingMisses := 0 |> <| p_slots := p_slots p + 1 |> in
  let p := if p_havePrevious p && (0 <? delta) && validInterval
           then let perPulse := fdiv interval (of_Z delta) in
                pps_updateInfo (appendInterval p (fsub perPulse (of_Z 1)))
                  (on_refclock (fun r => r <| r_LastInterval := perPulse |>))
           else p in
  p <| p_previousSeq := s_Sequence s |> <| p_previousTime := s_Time s |> <| p_havePrevious := true |>.

Definition sequenceRestart (p : PPS) (s : Sample) : PPS :=
  let p := pps_resetWindow (p <| p_havePrevious := false |> <| p_pendingMisses := 0 |>) in
  p <| p_previousSeq := s_Sequence s |> <| p_previousTime := s_Time s |> <| p_havePrevious := true |>.

(** ** A pulse *)

(** The sequence and interval checks: the state with the pulse accounted for,
    or the rejection. *)
Definition check_sequence (p : PPS) (s : Sample) : PPS * bool :=
  if (s_Sequence s =? 0) || IsZero (s_Time s) then (p, false)
  else if negb (p_havePrevious p) then (accountSequence p s 1 fzero true, true)
  else
    let delta := u32 (s_Sequence s - p_previousSeq p) in
    if delta =? 0 then (p, false)
    else if maxSequenceGap <? delta then (sequenceRestart p s, false)
    else
      let interval := Seconds (Sub (s_Time s) (p_previousTime p)) in
      if fgt (fabs (fsub interval (of_Z delta))) (Seconds maxPulseIntervalSkew)
      then (accountSequence p s delta interval false, false)
      else (accountSequence p s delta interval true, true).

(** The estimate of a full poll: [at_] is the monotonic clock. *)
Definition pps_estimate (p : PPS) (s : Sample) (m : Measurement) (at_ : f64) : PPS * Measurement :=
  let p := p <| p_slots := 0 |> in
  let values := windowTail p (Z.to_nat (2 ^ p_poll p)) in
  let '(median, mad) := medianMAD values in
  let sigma := fmul mad madScale in
  let stable := ppsWindowStable (p_stable p) (length values) sigma (pc_LockJitter (p_cfg p)) in
  let p := p <| p_stable := stable |> in
  let precision := Log2Seconds (p_precision p) in
  let m := m <| m_Valid := stable |> <| m_Invalidate := negb stable |> <| m_At := at_ |>
             <| m_Offset := fadd median (pc_Offset (p_cfg p)) |> <| m_Delay := fzero |>
             <| m_Dispersion := fadd sigma precision |> <| m_Jitter := fmax sigma precision |>
             <| m_Leap := LeapNone |> <| m_Stratum := 0 |> <| m_RefID := RefIDFromString [80; 80; 83] |>
             <| m_SourceRefID := RefIDFromString [80; 80; 83] |> <| m_Precision := p_precision p |>
             <| m_RefTime := s_Time s |> in
  let p := p <| p_poll := adaptPoll (p_poll p) (m_Offset m) (m_Jitter m) (pc_PollMin (p_cfg p)) (pc_PollMax (p_cfg p)) |> in
  let m := m <| m_Poll := p_poll p |> in
  (pps_updateInfo p (fun i => on_refclock (fun r =>
     r <| r_WindowSamples := length values |> <| r_WindowJitter := sigma |>
       <| r_IntervalJitter := intervalJitter (p_intervals p) |> <| r_Stable := stable |>)
     (i <| k_Poll := p_poll p |> <| k_Offset := m_Offset m |> <| k_Delay := fzero |> <| k_Dispersion := m_Dispersion m |>
        <| k_Jitter := m_Jitter m |> <| k_Stratum := 0 |> <| k_RefID := m_RefID m |> <| k_Leap := m_Leap m |>)), m).

(** An edge that passed every check enters the window. *)
Definition pps_take (p : PPS) (s : Sample) (theta : f64) : PPS :=
  let p := p <| p_rejectRun := 0 |> <| p_reach := reach_hit (p_reach p) |> <| p_haveEverPulse := true |> in
  let p := appendWindow p (s_Sequence s) theta in
  pps_updateInfo p (fun i => on_refclock (fun r =>
    r <| r_Sequence := s_Sequence s |> <| r_LastPulse := s_Time s |>
      <| r_LastOffset := fadd theta (pc_Offset (p_cfg p)) |> <| r_Samples := u64 (r_Samples r + 1) |>)
    (i <| k_Reach := p_reach p |> <| k_LastRx := s_Time s |> <| k_LastError := ""%string |>
       <| k_Received := u64 (k_Received i + 1) |>)).

(** [accept]: the measurement, and the pulse published if the edge passed;
    [gen] is the epoch and [now], [at_] the clock as it reads them. *)
Definition pps_accept (p : PPS) (s : Sample) (now at_ : f64) (gen : Z) : PPS * Measurement * option Pulse :=
  let p := take_reset p in
  let m := pps_emptyMeasurement p now gen in
  let '(p, ok) := check_sequence p s in
  if negb ok then let '(p, m) := pps_reject p Glitch m in (p, m, None)
  else
    let theta := edgeOffset (s_Time s) in
    if match spikeGate p (s_Sequence s) with
       | Some (predicted, limit) => fgt (fabs (fsub theta predicted)) limit
       | None => false
       end
    then let '(p, m) := pps_reject p Spike m in (p, m, None)
    else
      let p := pps_take p s theta in
      let m := m <| m_Acquired := true |> <| m_Reach := p_reach p |> in
      let pulse := Some (mkPulse (s_Time s) (fadd theta (pc_Offset (p_cfg p))) (s_Sequence s)) in
      if p_slots p <? 2 ^ p_poll p then (p, m, pulse)
      else let '(p, m) := pps_estimate p s m at_ in (p, m, pulse).

(** ** The loop *)

Definition pps_timeout (p : PPS) : PPS :=
  let p := p <| p_reach := u8 (Z.shiftl (p_reach p) 1) |> <| p_pendingMisses := p_pendingMisses p + 1 |>
             <| p_slots := p_slots p + 1 |> in
  let p := if p_reach p =? 0 then pps_resetWindow p else p in
  pps_updateInfo p (fun i => on_refclock (fun r => r <| r_Timeouts := u64 (r_Timeouts r + 1) |>)
    (i <| k_Reach := p_reach p |> <| k_Timeouts := u64 (k_Timeouts i + 1) |> <| k_LastError := "PPS timeout"%string |>)).

Definition pps_discardStale (p : PPS) : PPS :=
  pps_updateInfo (pps_resetWindow (p <| p_staleSeen := u64 (p_staleSeen p + 1) |>))
    (fun i => i <| k_Stale := u64 (k_Stale i + 1) |>).

Definition pps_deviceLost (p : PPS) : PPS :=
  let p := pps_resetWindow (p <| p_reach := 0 |> <| p_pendingMisses := 0 |> <| p_havePrevious := false |>) in
  pps_updateInfo p (fun i => i <| k_Reach := 0 |>).

(** The wait before the next attempt to reopen a device. *)
Definition next_backoff (b : duration) : duration :=
  if b <? Minute then (if Minute <? 2 * b then Minute else 2 * b) else b.

(** [reopen]: the waits, and the state with the new device; no state when the
    context is done.  An attempt is [None] on success, else the error. *)
Fixpoint pps_reopen (p : PPS) (backoff : duration) (attempts : list (option string)) : list duration * option PPS :=
  match attempts with
  | [] => ([backoff], None)
  | None :: _ =>
      let p := pps_resetWindow (p <| p_reach := 0 |> <| p_pendingMisses := 0 |> <| p_havePrevious := false |>) in
      ([backoff], Some (pps_updateInfo p (fun i => i <| k_LastError := ""%string |> <| k_Reach := 0 |>)))
  | Some err :: rest =>
      let p := pps_updateInfo p (fun i => i <| k_LastError := err |>) in
      let '(waits, r) := pps_reopen p (next_backoff backoff) rest in
      (backoff :: waits, r)
  end.

Inductive fetch_result : Type :=
| Fetched (s : Sample)
| FetchTimeout
| FetchError (err : string) (attempts : list (option string)).

(** One iteration: the epoch before and after the fetch, when the empty
    measurement is built and when it is emitted; the clock; the calls of
    [Reset] before the iteration and during its fetch. *)
Record iteration : Type := mkIteration {
  it_reset : bool;
  it_gen : Z;
  it_fetch : fetch_result;
  it_genAfter : Z;
  it_resetDuring : bool;
  it_genEmpty : Z;
  it_at : f64;
  it_now : f64;
  it_genEmit : Z
}.

(** The state after the iteration, if [Run] goes on, with what was emitted. *)
Record outcome : Type := mkOutcome { oc_state : option PPS; oc_meas : Measurement; oc_pulse : option Pulse }.

Definition pps_step (p : PPS) (i : iteration) : outcome :=
  let p := take_reset (if it_reset i then pps_Reset p else p) in
  match it_fetch i with
  | Fetched s =>
      let p := if it_resetDuring i then pps_Reset p else p in
      let now := it_genAfter i in
      if negb (now =? it_gen i) || (negb (now =? 0) && negb (StableEpoch now)) then
        let p := pps_discardStale p in
        let '(p, m) := pps_emit p (pps_emptyMeasurement p (it_now i) (it_genEmpty i)) (it_now i) (it_genEmit i) in
        mkOutcome (Some p) m None
      else
        let '(p, m, pulse) := pps_accept p s (it_now i) (it_at i) (it_genEmpty i) in
        let '(p, m) := pps_emit p (m <| m_Generation := it_gen i |>) (it_now i) (it_genEmit i) in
        mkOutcome (Some p) m pulse
  | FetchTimeout =>
      let p := pps_timeout (if it_resetDuring i then pps_Reset p else p) in
      let '(p, m) := pps_emit p (pps_emptyMeasurement p (it_now i) (it_genEmpty i)) (it_now i) (it_genEmit i) in
      mkOutcome (Some p) m None
  | FetchError err attempts =>
      let p := if it_resetDuring i then pps_Reset p else p in
      let p := pps_deviceLost (pps_updateInfo p (fun i => i <| k_LastError := err |>)) in
      let '(p, m) := pps_emit p (pps_emptyMeasurement p (it_now i) (it_genEmpty i)) (it_now i) (it_genEmit i) in
      mkOutcome (snd (pps_reopen p Second attempts)) m None
  end.

(** [Run]: the measurements of the iterations until it stops. *)
Fixpoint pps_run (p : PPS) (its : list iteration) : list Measurement * option PPS :=
  match its with
  | [] => ([], Some p)
  | i :: rest =>
      let o := pps_step p i in
      match oc_state o with
      | None => ([oc_meas o], None)
      | Some p => let '(ms, r) := pps_run p rest in (oc_meas o :: ms, r)
      end
  end.

(** ** The invariant *)

(** Reading a field after updates of other fields. *)
Ltac pfields :=
  cbn [p_cfg p_precision p_resetRequested p_info p_reach p_poll p_window p_windowSeq p_intervals p_slots p_pendingMisses p_havePrevious p_previousSeq p_previousTime p_stable p_haveEverPulse p_rejectRun p_pendingInvalidate p_staleSeen set].

Ltac pfields_all :=
  cbn [p_cfg p_precision p_resetRequested p_info p_reach p_poll p_window p_windowSeq p_intervals p_slots p_pendingMisses p_havePrevious p_previousSeq p_previousTime p_stable p_haveEverPulse p_rejectRun p_pendingInvalidate p_staleSeen set] in *.

(** What holds of a PPS source between any two of its operations, with [S] a
    property of every edge offset in the window. *)
Record pps_ok (S : f64 -> Prop) (p : PPS) : Prop := {
  pk_cfg : MinPoll <= pc_PollMin (p_cfg p) <= pc_PollMax (p_cfg p) /\ pc_PollMax (p_cfg p) <= MaxPoll;
  pk_poll : pc_PollMin (p_cfg p) <= p_poll p <= pc_PollMax (p_cfg p);
  pk_len : length (p_windowSeq p) = length (p_window p) /\ (length (p_window p) <= window_max p)%nat;
  pk_run : 0 <= p_rejectRun p;
  pk_edges : Forall S (p_window p);
  pk_pending : p_pendingInvalidate p = true -> p_stable p = false /\ (length (p_window p) <= 1)%nat
}.

(** Lock is lost only together with an armed invalidation. *)
Definition announces (p p' : PPS) : Prop :=
  p_stable p' = p_stable p /\ p_pendingInvalidate p' = p_pendingInvalidate p \/
  p_stable p' = false /\ p_pendingInvalidate p' = true.

(** Same configuration, and the window either kept or emptied. *)
Definition step_ok (S : f64 -> Prop) (p p' : PPS) : Prop := p_cfg p' = p_cfg p /\ announces p p' /\ (pps_ok S p -> pps_ok S p').

Lemma step_ok_trans S p1 p2 p3 : step_ok S p1 p2 -> step_ok S p2 p3 -> step_ok S p1 p3.
Proof.
  intros (C1 & A1 & O1) (C2 & A2 & O2). split; [congruence|]. split; [|auto]. unfold announces in *.
  destruct A1 as [[A1 B1]|[A1 B1]], A2 as [[A2 B2]|[A2 B2]]; rewrite ?A2, ?B2, ?A1, ?B1; auto.
Qed.

(** Operations that touch none of the fields the invariant is about. *)
Definition same_window (p p' : PPS) : Prop :=
  p_cfg p' = p_cfg p /\ p_poll p' = p_poll p /\ p_window p' = p_window p /\ p_windowSeq p' = p_windowSeq p /\
  p_stable p' = p_stable p /\ p_pendingInvalidate p' = p_pendingInvalidate p /\ 0 <= p_rejectRun p' - p_rejectRun p.

Lemma same_window_ok S p p' : same_window p p' -> step_ok S p p'.
Proof.
  intros (H1 & H2 & H3 & H4 & H5 & H6 & H7). split; [done|]. split; [by left|].
  intros [K1 K2 K3 K4 K5 K6]. constructor; unfold window_max in *; rewrite ?H1, ?H2, ?H3, ?H4, ?H5, ?H6; try done. lia.
Qed.

Ltac same_window :=
  unfold same_window, pps_updateInfo, pps_Reset; repeat apply conj;
  repeat match goal with p : PPS |- _ => destruct p end; pfields_all; first [reflexivity | lia].

Lemma resetWindow_window p : p_window (pps_resetWindow p) = [] /\ p_rejectRun (pps_resetWindow p) = 0 /\
  p_havePrevious (pps_resetWindow p) = p_havePrevious p /\ p_previousSeq (pps_resetWindow p) = p_previousSeq p /\
  p_previousTime (pps_resetWindow p) = p_previousTime p.
Proof. unfold pps_resetWindow, pps_updateInfo. destruct p. repeat split. Qed.

(** A reset after an update of other fields. *)
Lemma reset_after_ok S p q : p_cfg q = p_cfg p -> p_poll q = p_poll p -> step_ok S p (pps_resetWindow q).
Proof.
  intros Hc Hp. unfold pps_resetWindow, pps_updateInfo. destruct p, q. pfields_all. subst. split; [done|]. split; [by right|].
  intros [K1 K2 K3 K4 K5 K6]. unfold window_max in *. constructor; unfold window_max; pfields_all; try done.
  - split; [done|]. apply Nat.le_0_l.
  - intros _. split; [done|]. cbn [length]. lia.
Qed.

Lemma take_reset_ok S p : step_ok S p (take_reset p).
Proof. unfold take_reset. case_goal; [apply reset_after_ok; by destruct p|apply same_window_ok; same_window]. Qed.

Lemma reject_ok S p kind m : step_ok S p (fst (pps_reject p kind m)).
Proof.
  unfold pps_reject. set (p1 := _ <| p_rejectRun := _ |>).
  assert (same_window p p1) as H1 by (unfold p1; same_window).
  destruct (spikeResetAfter <=? p_rejectRun p1); cbn [fst]; [|by apply same_window_ok].
  destruct H1 as (H1 & H2 & _). clearbody p1. apply reset_after_ok; by destruct p1.
Qed.

Lemma reject_meas p kind m :
  m_Valid (snd (pps_reject p kind m)) = m_Valid m /\ m_Invalidate (snd (pps_reject p kind m)) = m_Invalidate m /\
  m_Acquired (snd (pps_reject p kind m)) = m_Acquired m.
Proof. unfold pps_reject. case_goal; destruct m; done. Qed.

Lemma accountSequence_same p s d iv v : same_window p (accountSequence p s d iv v).
Proof.
  unfold accountSequence, appendInterval. repeat match goal with |- context [if ?b then _ else _] => destruct b end; same_window.
Qed.

Lemma sequenceRestart_ok S p s : step_ok S p (sequenceRestart p s).
Proof.
  unfold sequenceRestart. set (q := p <| p_havePrevious := false |> <| p_pendingMisses := 0 |>).
  assert (step_ok S p (pps_resetWindow q)) as H by (apply reset_after_ok; unfold q; by destruct p).
  eapply step_ok_trans; [exact H|]. clear H. generalize (pps_resetWindow q). intros x. apply same_window_ok. same_window.
Qed.

Lemma check_sequence_ok S p s : step_ok S p (fst (check_sequence p s)).
Proof.
  unfold check_sequence. repeat case_goal; cbn [fst]; try (apply same_window_ok; same_window);
    try (apply same_window_ok, accountSequence_same). apply sequenceRestart_ok.
Qed.

Lemma window_max_pos p : MinPoll <= pc_PollMax (p_cfg p) -> (0 < window_max p)%nat.
Proof.
  unfold window_max, MinPoll. intros H. pose proof (Z.pow_pos_nonneg 2 (pc_PollMax (p_cfg p)) ltac:(lia) ltac:(lia)). lia.
Qed.

(** An accepted edge: the window grows by it. *)
Lemma take_ok (S : f64 -> Prop) p s :
  pps_ok S p -> S (edgeOffset (s_Time s)) ->
  let p' := pps_take p s (edgeOffset (s_Time s)) in
  p_cfg p' = p_cfg p /\ p_stable p' = p_stable p /\ p_pendingInvalidate p' = p_pendingInvalidate p /\
  p_poll p' = p_poll p /\ p_slots p' = p_slots p /\ p_reach p' = reach_hit (p_reach p) /\
  length (p_windowSeq p') = length (p_window p') /\ (length (p_window p') <= window_max p')%nat /\ 0 <= p_rejectRun p' /\
  Forall S (p_window p') /\ last (p_window p') = Some (edgeOffset (s_Time s)) /\
  (p_pendingInvalidate p' = true -> p_stable p' = false /\ (length (p_window p') <= 2)%nat).
Proof.
  intros [K1 K2 [K3 K3'] K4 K5 K6] HS. unfold pps_take, appendWindow, pps_updateInfo.
  pose proof (window_max_pos p ltac:(lia)) as Hpos. set (v := edgeOffset (s_Time s)) in *. clearbody v.
  unfold window_max in *. destruct p. pfields_all.
  destruct (length p_window0 =? Z.to_nat (2 ^ pc_PollMax p_cfg0))%nat eqn:E; pfields; bool_step.
  - repeat (split; [reflexivity|]). rewrite !length_app, !length_drop. cbn [length].
    split; [lia|]. split; [lia|]. split; [lia|]. split; [apply Forall_app; split; [by apply Forall_drop|by constructor]|].
    split; [by rewrite last_snoc|]. intros Hp. destruct (K6 Hp). split; [done|lia].
  - repeat (split; [reflexivity|]). rewrite !length_app. cbn [length].
    split; [lia|]. split; [lia|]. split; [lia|]. split; [apply Forall_app; split; [done|by constructor]|].
    split; [by rewrite last_snoc|]. intros Hp. destruct (K6 Hp). split; [done|lia].
Qed.

Lemma adaptPoll_pps_range poll o j lo hi : lo <= hi -> lo <= adaptPoll poll o j lo hi <= hi.
Proof. intros H. unfold adaptPoll. repeat (case_goal; bool_step); lia. Qed.

(** The lock limit, four times as wide once locked. *)
Definition within_lock (locked : bool) (sigma limit : f64) : Prop :=
  if locked then fle sigma (fmul (of_Z 4) limit) = true else flt sigma limit = true.

Lemma ppsWindowStable_spec was n sigma limit :
  ppsWindowStable was n sigma limit = true -> (4 <= n)%nat /\ within_lock was sigma limit.
Proof. unfold ppsWindowStable. destruct (n <? 4)%nat eqn:E; [done|]. bool_step. by destruct was. Qed.

Lemma emit_spec p m now gen p' m' :
  pps_emit p m now gen = (p', m') ->
  same_window p (p' <| p_pendingInvalidate := p_pendingInvalidate p |>) /\ p_pendingInvalidate p' = false /\
  p_havePrevious p' = p_havePrevious p /\ p_previousSeq p' = p_previousSeq p /\ p_previousTime p' = p_previousTime p /\
  p_rejectRun p' = p_rejectRun p /\ p_resetRequested p' = p_resetRequested p /\
  m_Valid m' = m_Valid m /\ m_Invalidate m' = p_pendingInvalidate p || m_Invalidate m /\ m_Acquired m' = m_Acquired m /\
  m_Generation m' = (if m_Valid m then m_Generation m else gen) /\ m_Offset m' = m_Offset m /\ m_RefTime m' = m_RefTime m /\
  m_Reach m' = p_reach p /\ m_Poll m' = p_poll p.
Proof.
  unfold pps_emit, same_window. destruct p as [? ? ? ? ? ? ? ? ? ? ? ? ? ? ? ? ? pending ?], m as [? ? ? ? ? valid ? ? ? ? inv ? ? ? ? ? ? ? ? ? ? ? ? ?].
  pfields. destruct pending, valid; intros E; apply pair_equal_spec in E as [<- <-]; repeat apply conj;
    first [reflexivity | pfields; lia].
Qed.

(** Emitting without a new estimate. *)
Lemma emit_quiet S p0 p m now gen p' m' :
  pps_ok S p0 -> step_ok S p0 p -> m_Valid m = false -> m_Invalidate m = false -> pps_emit p m now gen = (p', m') ->
  view (p_stable p0) m' = p_stable p' /\ pps_ok S p' /\ p_cfg p' = p_cfg p0 /\ m_Valid m' = false.
Proof.
  intros H0 (Hc & Ha & Hok) Hv Hi E. specialize (Hok H0).
  apply emit_spec in E as ((E1 & E2 & E3 & E4 & E5 & _ & E7) & E6 & _ & _ & _ & _ & _ & V1 & V2 & _).
  pfields_all. rewrite Hv in V1. rewrite Hi, orb_false_r in V2. unfold view. rewrite V1, V2. split; [|split; [|split]].
  - rewrite E5. destruct (p_pendingInvalidate p) eqn:Ep.
    + symmetry. by apply (pk_pending S p Hok).
    + destruct Ha as [[-> _]|[_ ?]]; congruence.
  - destruct Hok as [K1 K2 K3 K4 K5 K6]. constructor; unfold window_max in *; rewrite ?E1, ?E2, ?E3, ?E4; try done; [lia|congruence].
  - congruence.
  - done.
Qed.

(** The estimate of a full poll. *)
Lemma estimate_spec p s m at_ p' m' :
  pps_estimate p s m at_ = (p', m') ->
  let values := windowTail p (Z.to_nat (2 ^ p_poll p)) in
  let sigma := fmul (snd (medianMAD values)) madScale in
  p_cfg p' = p_cfg p /\ p_window p' = p_window p /\ p_windowSeq p' = p_windowSeq p /\
  p_pendingInvalidate p' = p_pendingInvalidate p /\ p_rejectRun p' = p_rejectRun p /\ p_reach p' = p_reach p /\
  p_poll p' = adaptPoll (p_poll p) (m_Offset m') (m_Jitter m') (pc_PollMin (p_cfg p)) (pc_PollMax (p_cfg p)) /\
  p_stable p' = ppsWindowStable (p_stable p) (length values) sigma (pc_LockJitter (p_cfg p)) /\
  m_Valid m' = p_stable p' /\ m_Invalidate m' = negb (p_stable p') /\ m_Acquired m' = m_Acquired m /\
  m_Generation m' = m_Generation m /\
  m_Offset m' = fadd (fst (medianMAD values)) (pc_Offset (p_cfg p)) /\ m_RefTime m' = s_Time s.
Proof.
  unfold pps_estimate, windowTail. destruct p. pfields.
  destruct (medianMAD _) as [median mad] eqn:E. intros H. apply pair_equal_spec in H as [<- <-].
  unfold pps_updateInfo. destruct m. repeat apply conj; reflexivity.
Qed.

(** What a valid measurement rests on: at least four edges of [S], the last of
    them the pulse just fetched, whose scatter is within the limit for a source
    that was or was not locked before. *)
Definition locked_estimate (S : f64 -> Prop) (locked : bool) (cfg : PPSConfig) (m : Measurement) (s : Sample) (gen : Z) : Prop :=
  m_Acquired m = true /\ m_Invalidate m = false /\ m_Generation m = gen /\ m_RefTime m = s_Time s /\
  Z.odd (m_Reach m) = true /\ pc_PollMin cfg <= m_Poll m <= pc_PollMax cfg /\
  exists values, (4 <= length values)%nat /\ Forall S values /\ last values = Some (edgeOffset (s_Time s)) /\
    within_lock locked (fmul (snd (medianMAD values)) madScale) (pc_LockJitter cfg) /\
    m_Offset m = fadd (fst (medianMAD values)) (pc_Offset cfg).

Lemma last_drop {A} (l : list A) k : (k < length l)%nat -> last (drop k l) = last l.
Proof.
  intros H. rewrite !last_lookup, lookup_drop, length_drop. f_equal. lia.
Qed.

Lemma reach_hit_odd r : Z.odd (reach_hit r) = true.
Proof. unfold reach_hit. by rewrite <- Z.bit0_odd, Z.lor_spec, orb_true_r. Qed.

Lemma accept_emit S p0 p s now at_ gen g genEmit p1 m1 pulse p' m' :
  pps_ok S p0 -> step_ok S p0 p -> S (edgeOffset (s_Time s)) ->
  pps_accept p s now at_ gen = (p1, m1, pulse) -> pps_emit p1 (m1 <| m_Generation := g |>) now genEmit = (p', m') ->
  view (p_stable p0) m' = p_stable p' /\ pps_ok S p' /\ p_cfg p' = p_cfg p0 /\
  (m_Valid m' = true -> locked_estimate S (p_stable p0) (p_cfg p0) m' s g).
Proof.
  intros H0 Hs HS. unfold pps_accept.
  assert (step_ok S p0 (take_reset p)) as H1 by (eapply step_ok_trans; [exact Hs|apply take_reset_ok]).
  generalize dependent (take_reset p). intros q H1. set (m := pps_emptyMeasurement q now gen).
  assert (m_Valid m = false /\ m_Invalidate m = false) as [V0 I0] by done. clearbody m.
  pose proof (check_sequence_ok S q s) as Hc. destruct (check_sequence q s) as [q1 ok]. cbn [fst] in Hc.
  assert (step_ok S p0 q1) as H2 by (eapply step_ok_trans; [exact H1|exact Hc]).
  assert (forall kind px mx, (let '(p, m0) := pps_reject q1 kind m in (p, m0, @None Pulse)) = (px, mx, pulse) ->
    pps_emit px (mx <| m_Generation := g |>) now genEmit = (p', m') ->
    view (p_stable p0) m' = p_stable p' /\ pps_ok S p' /\ p_cfg p' = p_cfg p0 /\
    (m_Valid m' = true -> locked_estimate S (p_stable p0) (p_cfg p0) m' s g)) as Hrej.
  { intros kind px mx Er Ee. pose proof (reject_ok S q1 kind m) as Ho. pose proof (reject_meas q1 kind m) as (V & I & _).
    destruct (pps_reject q1 kind m) as [pr mr]. cbn [fst snd] in *. apply pair_equal_spec in Er as [Er _].
    apply pair_equal_spec in Er as [<- <-].
    eapply (emit_quiet S p0 pr) in Ee as (E1 & E2 & E3 & E4); [|done|by eapply step_ok_trans| |].
    - repeat (split; [done|]). congruence.
    - destruct mr; cbn in *; congruence.
    - destruct mr; cbn in *; congruence. }
  destruct ok; cbn [negb]; [|apply Hrej].
  match goal with |- (if ?b then _ else _) = _ -> _ => destruct b end; [apply Hrej|].
  pose proof (proj2 (proj2 H2) H0) as K. pose proof (take_ok S q1 s K HS) as T. cbv zeta in T.
  set (pt := pps_take q1 s (edgeOffset (s_Time s))) in *. clearbody pt.
  destruct T as (T1 & T2 & T3 & T4 & T5 & T6 & T7 & T8 & T9 & T10 & T11 & T12).
  destruct H2 as (C2 & A2 & _).
  assert (pc_PollMin (p_cfg pt) <= p_poll pt <= pc_PollMax (p_cfg pt)) as Kp by (rewrite T1, T4; apply K).
  pose proof (pk_cfg S q1 K) as Kc. rewrite <- T1 in Kc.
  set (mt := m <| m_Acquired := true |> <| m_Reach := p_reach pt |>).
  assert (m_Valid mt = false /\ m_Invalidate mt = false /\ m_Acquired mt = true) as (V1 & I1 & Q1) by (by destruct m).
  clearbody mt. destruct (p_slots pt <? 2 ^ p_poll pt).
  - intros E Ee. apply pair_equal_spec in E as [E _]. apply pair_equal_spec in E as [<- <-].
    apply emit_spec in Ee as ((E1 & E2 & E3 & E4 & E5 & _ & E7) & E6 & _ & _ & _ & _ & _ & W1 & W2 & _).
    assert (m_Valid (mt <| m_Generation := g |>) = false /\ m_Invalidate (mt <| m_Generation := g |>) = false) as [V2 I2]
      by (by destruct mt).
    pfields_all. rewrite V2 in W1. rewrite I2, orb_false_r in W2. unfold view. rewrite W1, W2.
    split; [|split; [|split; [congruence|done]]].
    + rewrite E5. destruct (p_pendingInvalidate pt) eqn:Ep; [symmetry; by apply T12|].
      rewrite T2. destruct A2 as [[-> _]|[_ ?]]; congruence.
    + constructor; unfold window_max in *; rewrite ?E1, ?E2, ?E3, ?E4; try done; [lia|congruence].
  - destruct (pps_estimate pt s mt at_) as [pe me] eqn:Ee. intros E Em. apply pair_equal_spec in E as [E _].
    apply pair_equal_spec in E as [<- <-].
    apply estimate_spec in Ee as (D1 & D2 & D3 & D4 & D5 & D6 & D7 & D8 & D9 & D10 & D11 & D12 & D13 & D14).
    pose proof (adaptPoll_pps_range (p_poll pt) (m_Offset me) (m_Jitter me) _ _ (proj2 (proj1 Kc))) as Hr.
    rewrite <- D7 in Hr.
    apply emit_spec in Em as ((E1 & E2 & E3 & E4 & E5 & _ & E7) & E6 & _ & _ & _ & _ & _ & W1 & W2 & W3 & W4 & W5 & W6 & W7 & W8).
    pfields_all. set (values := windowTail pt (Z.to_nat (2 ^ p_poll pt))) in *.
    assert (m_Valid (me <| m_Generation := g |>) = m_Valid me /\ m_Invalidate (me <| m_Generation := g |>) = m_Invalidate me /\
      m_Acquired (me <| m_Generation := g |>) = m_Acquired me /\ m_Generation (me <| m_Generation := g |>) = g /\
      m_Offset (me <| m_Generation := g |>) = m_Offset me /\ m_RefTime (me <| m_Generation := g |>) = m_RefTime me)
      as (X1 & X2 & X3 & X4 & X5 & X6) by (by destruct me).
    rewrite X1 in W1, W4. rewrite X2 in W2. rewrite X3 in W3. rewrite X4 in W4. rewrite X5 in W5. rewrite X6 in W6.
    assert (p_stable pe = true -> p_pendingInvalidate pe = false /\ (4 <= length values)%nat) as Hq.
    { intros Hst. rewrite D8 in Hst. apply ppsWindowStable_spec in Hst as [Hlen _]. split; [|done].
      destruct (p_pendingInvalidate pe); [|done]. destruct (T12 (eq_sym D4)) as [_ Ep].
      unfold values, windowTail in Hlen. rewrite length_drop in Hlen. lia. }
    assert (p_stable pe = true -> p_stable pt = p_stable p0) as Hwas.
    { intros Hst. destruct (Hq Hst) as [Hpe _]. rewrite T2. destruct A2 as [[-> _]|[_ Hp]]; congruence. }
    unfold view. rewrite W1, W2, D9, D10. split; [|split; [|split; [congruence|]]].
    + rewrite E5. destruct (p_stable pe); [done|]. by rewrite orb_true_r.
    + constructor; unfold window_max in *; rewrite ?E1, ?E2, ?E3, ?E4, ?D1, ?D2, ?D3; try done; [lia|].
      intros E. congruence.
    + intros Hst. destruct (Hq Hst) as [Q2 Q3]. unfold locked_estimate. rewrite W3, W2, W4, W6, W7, W8, D9, D10, D11, Hst, D14, D6, T6.
      assert (p_cfg p0 = p_cfg pt) as -> by congruence.
      split; [done|]. split; [by rewrite Q2|]. split; [done|]. split; [done|]. split; [apply reach_hit_odd|]. split; [done|].
      exists values. split; [done|]. split; [unfold values, windowTail; by apply Forall_drop|].
      split; [unfold values, windowTail in *; rewrite length_drop in Q3; rewrite last_drop by lia; done|].
      split; [|by rewrite W5]. rewrite <- (Hwas Hst). rewrite D8 in Hst. by apply ppsWindowStable_spec in Hst as [_ Hst].
Qed.

Lemma Reset_ok S p : step_ok S p (pps_Reset p).
Proof. apply same_window_ok. same_window. Qed.

Lemma reset_if_ok S p (b : bool) : step_ok S p (if b then pps_Reset p else p).
Proof. destruct b; [apply Reset_ok|apply same_window_ok; same_window]. Qed.

Lemma updateInfo_ok S p f : step_ok S p (pps_updateInfo p f).
Proof. apply same_window_ok. same_window. Qed.

Lemma timeout_ok S p : step_ok S p (pps_timeout p).
Proof.
  unfold pps_timeout. set (q := _ <| p_slots := _ |>). assert (same_window p q) as Hq by (unfold q; same_window).
  eapply step_ok_trans; [apply same_window_ok, Hq|]. clearbody q.
  eapply step_ok_trans; [|apply updateInfo_ok]. case_goal; [by apply reset_after_ok|apply same_window_ok; same_window].
Qed.

Lemma deviceLost_ok S p : step_ok S p (pps_deviceLost p).
Proof. unfold pps_deviceLost. eapply step_ok_trans; [|apply updateInfo_ok]. apply reset_after_ok; by destruct p. Qed.

Lemma discardStale_ok S p : step_ok S p (pps_discardStale p).
Proof. unfold pps_discardStale. eapply step_ok_trans; [|apply updateInfo_ok]. apply reset_after_ok; by destruct p. Qed.

Lemma reopen_ok S p b l p' : snd (pps_reopen p b l) = Some p' -> step_ok S p p' /\ p_stable p' = false.
Proof.
  revert p b. induction l as [|[err|] l IH]; intros p b; cbn [pps_reopen]; [done| |].
  - pose proof (IH (pps_updateInfo p (fun i => i <| k_LastError := err |>)) (next_backoff b)) as H.
    destruct (pps_reopen _ _ l) as [waits r]. cbn [snd] in *. intros E. destruct (H E) as [H1 H2]. split; [|done].
    eapply step_ok_trans; [apply updateInfo_ok|exact H1].
  - cbn [snd]. intros [= <-]. split; [|by destruct p].
    eapply step_ok_trans; [|apply updateInfo_ok]. apply reset_after_ok; by destruct p.
Qed.

(** The waits before the attempts: from one second, doubling to a minute. *)
Lemma reopen_waits p b l : Second <= b <= Minute -> Forall (fun w => Second <= w <= Minute) (fst (pps_reopen p b l)).
Proof.
  revert p b. induction l as [|[err|] l IH]; intros p b Hb; cbn [pps_reopen].
  - cbn [fst]. constructor; [done|constructor].
  - pose proof (IH (pps_updateInfo p (fun i => i <| k_LastError := err |>)) (next_backoff b)) as H.
    destruct (pps_reopen _ _ l) as [waits r]. cbn [fst] in *. constructor; [done|]. apply H.
    unfold next_backoff. repeat (case_goal; bool_step); unfold Minute, Second in *; lia.
  - cbn [fst]. constructor; [done|constructor].
Qed.

(** One iteration: the selector's view follows the lock, and a valid
    measurement is a locked estimate of a settled epoch. *)
Lemma pps_step_spec S p i :
  pps_ok S p -> (forall s, it_fetch i = Fetched s -> S (edgeOffset (s_Time s))) ->
  let o := pps_step p i in
  view (p_stable p) (oc_meas o) = match oc_state o with Some p' => p_stable p' | None => false end /\
  (forall p', oc_state o = Some p' -> pps_ok S p' /\ p_cfg p' = p_cfg p) /\
  (m_Valid (oc_meas o) = true -> exists s, it_fetch i = Fetched s /\ it_genAfter i = it_gen i /\
     (it_gen i = 0 \/ it_gen i mod 2 = 0) /\ locked_estimate S (p_stable p) (p_cfg p) (oc_meas o) s (it_gen i)).
Proof.
  intros H0 HS. unfold pps_step. set (p1 := take_reset _).
  assert (step_ok S p p1) as H1 by (eapply step_ok_trans; [apply reset_if_ok|apply take_reset_ok]). clearbody p1.
  assert (step_ok S p (if it_resetDuring i then pps_Reset p1 else p1)) as H2
    by (eapply step_ok_trans; [exact H1|apply reset_if_ok]).
  assert (forall q nw g, step_ok S p q ->
    let '(p', m) := pps_emit q (pps_emptyMeasurement q nw g) (it_now i) (it_genEmit i) in
    view (p_stable p) m = p_stable p' /\ pps_ok S p' /\ p_cfg p' = p_cfg p /\ m_Valid m = false) as Hquiet.
  { intros q nw g Hq. destruct (pps_emit q _ _ _) as [p' m] eqn:E. by eapply emit_quiet in E. }
  destruct (it_fetch i) as [s| |err attempts] eqn:Ef.
  - generalize dependent (if it_resetDuring i then pps_Reset p1 else p1). intros p2 H2.
    destruct (negb _ || _) eqn:Eg.
    + specialize (Hquiet (pps_discardStale p2) (it_now i) (it_genEmpty i)
        (step_ok_trans _ _ _ _ H2 (discardStale_ok S p2))).
      destruct (pps_emit _ _ _ _) as [p' m]. destruct Hquiet as (Q1 & Q2 & Q3 & Q4). cbn [oc_meas oc_state].
      split; [done|]. split; [by intros ? [= <-]|]. congruence.
    + destruct (pps_accept p2 s (it_now i) (it_at i) (it_genEmpty i)) as [[p3 m3] pulse] eqn:Ea.
      destruct (pps_emit p3 _ _ _) as [p' m] eqn:Ee.
      destruct (accept_emit S p p2 s _ _ _ _ _ _ _ _ _ _ H0 H2 (HS s eq_refl) Ea Ee) as (Q1 & Q2 & Q3 & Q4).
      cbn [oc_meas oc_state]. split; [done|]. split; [by intros ? [= <-]|]. intros Hv. exists s.
      apply orb_false_iff in Eg as [Eg1 Eg2]. apply negb_false_iff, Z.eqb_eq in Eg1. split; [done|]. split; [done|].
      split; [|by apply Q4]. rewrite <- Eg1. unfold StableEpoch in Eg2.
      destruct (it_genAfter i =? 0) eqn:Ez; [left; by apply Z.eqb_eq|]. right. cbn in Eg2.
      by apply negb_false_iff, Z.eqb_eq in Eg2.
  - generalize dependent (if it_resetDuring i then pps_Reset p1 else p1). intros p2 H2.
    specialize (Hquiet (pps_timeout p2) (it_now i) (it_genEmpty i) (step_ok_trans _ _ _ _ H2 (timeout_ok S p2))).
    destruct (pps_emit _ _ _ _) as [p' m]. destruct Hquiet as (Q1 & Q2 & Q3 & Q4). cbn [oc_meas oc_state].
    split; [done|]. split; [by intros ? [= <-]|]. congruence.
  - generalize dependent (if it_resetDuring i then pps_Reset p1 else p1). intros p2 H2.
    set (p3 := pps_deviceLost _).
    assert (step_ok S p p3 /\ p_stable p3 = false) as [H3 S3].
    { split; [|unfold p3, pps_deviceLost, pps_resetWindow, pps_updateInfo; by destruct p2].
      eapply step_ok_trans; [exact H2|]. eapply step_ok_trans; [apply updateInfo_ok|apply deviceLost_ok]. }
    clearbody p3. pose proof (Hquiet p3 (it_now i) (it_genEmpty i) H3) as Hq.
    destruct (pps_emit p3 _ _ _) as [p' m] eqn:Ee. destruct Hq as (Q1 & Q2 & Q3 & Q4). cbn [oc_meas oc_state].
    apply emit_spec in Ee as ((_ & _ & _ & _ & E5 & _) & _). pfields_all. rewrite S3 in E5. rewrite E5 in Q1.
    split; [|split; [|congruence]].
    + rewrite Q1. destruct (snd (pps_reopen p' Second attempts)) as [pr|] eqn:Er; [|done].
      symmetry. by apply (reopen_ok S) in Er as [_ ?].
    + intros pr Er. apply (reopen_ok S) in Er as [(C & _ & O) _]. split; [by apply O|congruence].
Qed.

(** ** Runs *)

(** An edge fetched in the run. *)
Definition fetched_edge (its : list iteration) (v : f64) : Prop :=
  exists i s, i ∈ its /\ it_fetch i = Fetched s /\ v = edgeOffset (s_Time s).

Lemma pps_run_spec S its p ms r :
  pps_ok S p -> (forall i s, i ∈ its -> it_fetch i = Fetched s -> S (edgeOffset (s_Time s))) -> pps_run p its = (ms, r) ->
  fold_left view ms (p_stable p) = match r with Some p' => p_stable p' | None => false end /\
  forall pre m post, ms = pre ++ m :: post -> m_Valid m = true ->
    exists i s, its !! length pre = Some i /\ it_fetch i = Fetched s /\ it_genAfter i = it_gen i /\
    (it_gen i = 0 \/ it_gen i mod 2 = 0) /\
    locked_estimate S (fold_left view pre (p_stable p)) (p_cfg p) m s (it_gen i).
Proof.
  revert p ms. induction its as [|i its IH]; intros p ms Hok HS; cbn [pps_run].
  { intros E. apply pair_equal_spec in E as [<- <-]. split; [done|]. by intros [|? ?]. }
  destruct (pps_step_spec S p i Hok (fun s => HS i s ltac:(by left))) as (H1 & H2 & H3).
  set (o := pps_step p i) in *. clearbody o.
  destruct (oc_state o) as [p'|].
  - destruct (H2 p' eq_refl) as [Hok' Hc]. destruct (pps_run p' its) as [ms' r'] eqn:Er.
    intros E. apply pair_equal_spec in E as [<- <-].
    destruct (IH p' ms' Hok' (fun i s Hi => HS i s ltac:(by right)) Er) as [I1 I2]. cbn [fold_left]. rewrite H1.
    split; [done|]. intros [|m0 pre] m post E Hv; injection E as <- E.
    + destruct (H3 Hv) as (s & ?). by exists i, s.
    + cbn [fold_left length]. rewrite H1, <- Hc. apply (I2 pre m post E Hv).
  - intros E. apply pair_equal_spec in E as [<- <-]. cbn [fold_left]. split; [done|].
    intros [|m0 [|m1 pre]] m post E Hv; try done. injection E as <- _. destruct (H3 Hv) as (s & ?). by exists i, s.
Qed.

Lemma newPPS_ok S cfg hasClock cfg' precision :
  defaultAndValidatePPS cfg hasClock = Ok cfg' -> pps_ok S (newPPS cfg' precision).
Proof.
  unfold defaultAndValidatePPS. cbv zeta. set (c1 := if bool_decide (pc_Name cfg = _) then _ else _).
  set (c2 := if bool_decide (pc_Type c1 = _) then _ else _).
  destruct (negb (bool_decide (pc_Type c2 = _)) && _); [done|]. destruct (bool_decide (pc_Device c2 = _)); [done|].
  destruct (negb (pc_Edge c2 =? Assert) && _); [done|]. set (c3 := if feq (pc_LockJitter c2) fzero then _ else _).
  destruct (negb (finite (pc_Offset c3))); [done|]. destruct (negb (finite (pc_LockJitter c3)) || _); [done|].
  set (c4 := if pc_PollMin c3 =? 0 then _ else _). set (c5 := if pc_PollMax c4 =? 0 then _ else _). clearbody c5.
  destruct ((pc_PollMin c5 <? MinPoll) || _ || _) eqn:E; [done|].
  set (c6 := if feq (pc_MaxSlewPPM c5) fzero then _ else _).
  assert (pc_PollMin c6 = pc_PollMin c5 /\ pc_PollMax c6 = pc_PollMax c5) as [M1 M2]
    by (unfold c6; destruct (feq (pc_MaxSlewPPM c5) fzero); split; reflexivity).
  clearbody c6. destruct (negb (finite (pc_MaxSlewPPM c6)) || _); [done|]. destruct (negb hasClock); [done|].
  intros [= <-]. apply orb_false_iff in E as [E E3]. apply orb_false_iff in E as [E1 E2].
  apply Z.ltb_ge in E1, E2, E3. unfold newPPS.
  constructor; unfold window_max; pfields; [lia|lia| |done|constructor|done].
  split; [done|]. apply Nat.le_0_l.
Qed.

(** The selector's estimate of a PPS source follows its lock.  Over
    any run (pulses, glitches, timeouts, lost and reopened devices, clock steps
    and resets in any order), a selector state that has no estimate at the start
    and applies the measurements of the run has one exactly when the source's
    window is locked at the end; it never keeps one from a window that was
    emptied, or from a device that is gone. *)
Theorem pps_view_tracks_lock cfg hasClock cfg' precision its ms r st :
  defaultAndValidatePPS cfg hasClock = Ok cfg' -> pps_run (newPPS cfg' precision) its = (ms, r) ->
  Select.Valid st = false ->
  Select.Valid (fold_left Select.source_apply ms st) = match r with Some p => p_stable p | None => false end.
Proof.
  intros Hc E Hst. apply (pps_run_spec (fun _ => True)) in E as [E _]; [|by apply (newPPS_ok _ cfg hasClock)|done].
  by rewrite source_apply_views, Hst.
Qed.

(** Claim C36: what a valid PPS measurement rests on.  In any run, a measurement
    marked valid comes from the pulse fetched at that iteration, in a settled
    epoch it is stamped with; its offset is the median, plus the configured
    offset, of at least four edges fetched in the run, the newest of them that
    pulse.  Their scatter is below the lock limit when a selector fed the
    measurements before this one holds no estimate of the source (lock is being
    acquired), and within four times the limit when it does (lock is being
    held).  The measurement is not an invalidation, its pulse counts as
    reached, and its poll is in the configured range. *)
Theorem pps_valid_locked cfg hasClock cfg' precision its pre m post r st :
  defaultAndValidatePPS cfg hasClock = Ok cfg' -> pps_run (newPPS cfg' precision) its = (pre ++ m :: post, r) ->
  Select.Valid st = false -> m_Valid m = true ->
  exists i s values, its !! length pre = Some i /\ it_fetch i = Fetched s /\ it_genAfter i = it_gen i /\
    (it_gen i = 0 \/ it_gen i mod 2 = 0) /\ m_Generation m = it_gen i /\
    (4 <= length values)%nat /\ Forall (fetched_edge its) values /\ last values = Some (edgeOffset (s_Time s)) /\
    (let sigma := fmul (snd (medianMAD values)) madScale in
     if Select.Valid (fold_left Select.source_apply pre st)
     then fle sigma (fmul (of_Z 4) (pc_LockJitter cfg')) = true
     else flt sigma (pc_LockJitter cfg') = true) /\
    m_Offset m = fadd (fst (medianMAD values)) (pc_Offset cfg') /\ m_RefTime m = s_Time s /\
    m_Acquired m = true /\ m_Invalidate m = false /\
    Z.odd (m_Reach m) = true /\ pc_PollMin cfg' <= m_Poll m <= pc_PollMax cfg'.
Proof.
  intros Hc E Hst Hv. eapply (pps_run_spec (fetched_edge its)) in E as [_ E];
    [|by apply (newPPS_ok _ cfg hasClock)|intros i s Hi Hf; by exists i, s].
  destruct (E pre m post eq_refl Hv) as (i & s & H1 & H2 & H3 & H4 & L1 & L2 & L3 & L4 & L5 & L6 & values & V1 & V2 & V3 & V4 & V5).
  exists i, s, values. do 8 (split; [assumption|]).
  split; [|exact (conj V5 (conj L4 (conj L1 (conj L2 (conj L5 L6)))))].
  rewrite source_apply_views, Hst. exact V4.
Qed.

(** ** Recovery *)

(** A pulse one second and one count after another. *)
Definition follows (seq : Z) (t : time) (s : Sample) : Prop :=
  s_Sequence s <> 0 /\ IsZero (s_Time s) = false /\ u32 (s_Sequence s - seq) = 1 /\
  fgt (fabs (fsub (Seconds (Sub (s_Time s) t)) (of_Z 1))) (Seconds maxPulseIntervalSkew) = false.

(** A train of such pulses, each fetched in a settled epoch. *)
Fixpoint pulse_train (seq : Z) (t : time) (its : list iteration) : Prop :=
  match its with
  | [] => True
  | i :: rest =>
      it_genAfter i = it_gen i /\ (it_gen i = 0 \/ StableEpoch (it_gen i) = true) /\
      exists s, it_fetch i = Fetched s /\ follows seq t s /\ pulse_train (s_Sequence s) (s_Time s) rest
  end.

(** How many more pulses the gate can refuse. *)
Definition refusals (p : PPS) : nat :=
  if (length (p_window p) <? spikeFitMin)%nat then 0%nat else S (Z.to_nat (3 - p_rejectRun p)).

Definition previous_is (p : PPS) (seq : Z) (t : time) : Prop :=
  p_havePrevious p = true /\ p_previousSeq p = seq /\ p_previousTime p = t.

Lemma take_reset_refusals p seq t :
  previous_is p seq t -> previous_is (take_reset p) seq t /\ (refusals (take_reset p) <= refusals p)%nat.
Proof.
  intros Hp. unfold take_reset. destruct (p_resetRequested p); [|done].
  set (q := p <| p_resetRequested := false |>). destruct (resetWindow_window q) as (W & _ & P1 & P2 & P3).
  assert (previous_is q seq t) as Hq by exact Hp. unfold previous_is in *. rewrite P1, P2, P3. split; [done|].
  unfold refusals. rewrite W. cbn. lia.
Qed.

Lemma account_previous p s d iv v :
  previous_is (accountSequence p s d iv v) (s_Sequence s) (s_Time s) /\
  p_rejectRun (accountSequence p s d iv v) = p_rejectRun p.
Proof.
  unfold accountSequence, appendInterval, pps_updateInfo.
  repeat match goal with |- context [if ?b then _ else _] => destruct b end; destruct p; repeat apply conj; reflexivity.
Qed.

Lemma reject_refusals p kind m seq t :
  previous_is p seq t -> (spikeFitMin <= length (p_window p))%nat -> 0 <= p_rejectRun p ->
  previous_is (fst (pps_reject p kind m)) seq t /\ (refusals (fst (pps_reject p kind m)) < refusals p)%nat.
Proof.
  intros Hp Hw Hr. unfold pps_reject. set (q := _ <| p_rejectRun := _ |>).
  assert (previous_is q seq t /\ p_window q = p_window p /\ p_rejectRun q = p_rejectRun p + 1) as (P1 & P2 & P3)
    by (unfold q, pps_updateInfo; destruct p; split; [exact Hp|split; reflexivity]).
  clearbody q.
  assert (refusals p = S (Z.to_nat (3 - p_rejectRun p))) as ->.
  { unfold refusals. destruct (_ <? _)%nat eqn:E; bool_step; [lia|done]. }
  destruct (spikeResetAfter <=? p_rejectRun q) eqn:E; cbn [fst].
  - set (q' := q <| p_rejectRun := 0 |>). destruct (resetWindow_window q') as (W & _ & R1 & R2 & R3).
    assert (previous_is q' seq t) as Hq by exact P1. unfold previous_is in *. rewrite R1, R2, R3. split; [done|].
    unfold refusals. rewrite W. cbn. lia.
  - split; [done|]. unfold refusals. rewrite P2, P3. unfold spikeResetAfter in E. bool_step.
    destruct (length (p_window p) <? spikeFitMin)%nat; lia.
Qed.

(** A pulse of the train: accepted, or one refusal less. *)
Lemma train_step p seq t i s :
  pps_ok (fun _ => True) p -> previous_is p seq t -> it_fetch i = Fetched s -> follows seq t s ->
  it_genAfter i = it_gen i -> (it_gen i = 0 \/ StableEpoch (it_gen i) = true) ->
  exists p', oc_state (pps_step p i) = Some p' /\ previous_is p' (s_Sequence s) (s_Time s) /\
    (m_Acquired (oc_meas (pps_step p i)) = true \/ (refusals p' < refusals p)%nat).
Proof.
  intros Hok Hp Hf (F1 & F2 & F3 & F4) Hg He. unfold pps_step. rewrite Hf.
  set (p1 := take_reset _).
  assert (pps_ok (fun _ => True) p1 /\ previous_is p1 seq t /\ (refusals p1 <= refusals p)%nat) as (O1 & P1 & R1).
  { split; [refine (proj2 (proj2 (step_ok_trans _ _ _ _ (reset_if_ok _ p (it_reset i)) (take_reset_ok _ _))) Hok)|].
    destruct (it_reset i); (edestruct take_reset_refusals as [? ?]; [|split; [eassumption|]]); [exact Hp| |exact Hp|done].
    by destruct p. }
  clearbody p1. set (p2 := if it_resetDuring i then pps_Reset p1 else p1).
  assert (pps_ok (fun _ => True) p2 /\ previous_is p2 seq t /\ (refusals p2 <= refusals p)%nat) as (O2 & P2 & R2).
  { split; [exact (proj2 (proj2 (reset_if_ok _ p1 (it_resetDuring i))) O1)|]. unfold p2. destruct (it_resetDuring i); [|done].
    split; [exact P1|]. by destruct p1. }
  clearbody p2. clear p1 O1 P1 R1.
  assert (negb (it_genAfter i =? it_gen i) || (negb (it_genAfter i =? 0) && negb (StableEpoch (it_genAfter i))) = false) as ->.
  { rewrite Hg, Z.eqb_refl. destruct He as [-> | ->]; [done|]. by rewrite andb_false_r. }
  unfold pps_accept.
  pose proof (proj2 (proj2 (take_reset_ok (fun _ => True) p2)) O2) as O3.
  destruct (take_reset_refusals p2 seq t P2) as [P3 R3]. generalize dependent (take_reset p2). intros p3 O3 P3 R3.
  destruct P3 as (Q1 & Q2 & Q3). unfold check_sequence. rewrite F2, Q1, Q2, Q3, F3.
  assert ((s_Sequence s =? 0) = false) as -> by by apply Z.eqb_neq. cbn [orb negb]. rewrite F4. cbn [negb].
  assert ((1 =? 0) = false /\ (maxSequenceGap <? 1) = false) as [-> ->] by done.
  set (iv := Seconds _). destruct (account_previous p3 s 1 iv true) as [A1 A2].
  destruct (accountSequence_same p3 s 1 iv true) as (_ & _ & A3 & _).
  set (p4 := accountSequence p3 s 1 iv true) in *. clearbody p4 iv. cbn [negb].
  match goal with |- context [if match spikeGate p4 ?q with _ => _ end then _ else _] => destruct (match spikeGate p4 q with Some _ => _ | None => _ end) eqn:Eg end.
  - assert (spikeFitMin <= length (p_window p4))%nat as Hw.
    { unfold spikeGate in Eg. destruct ((length (p_window p4) <? spikeFitMin)%nat) eqn:El; [done|]. by bool_step. }
    match goal with |- context [pps_reject p4 Spike ?m] => destruct (reject_refusals p4 Spike m _ _ A1 Hw) as [B1 B2];
      [rewrite A2; apply O3|destruct (pps_reject p4 Spike m) as [p5 m5]] end.
    cbn [fst] in B1, B2. destruct (pps_emit p5 _ _ _) as [p6 m6] eqn:Ee.
    apply emit_spec in Ee as ((_ & _ & E3 & _) & _ & E8 & E9 & E10 & E11 & _). pfields_all. cbn [oc_state oc_meas].
    exists p6. split; [done|]. split; [unfold previous_is in *; by rewrite E8, E9, E10|]. right.
    unfold refusals in *. rewrite E3, E11. rewrite A3, A2 in B2. lia.
  - set (p5 := pps_take p4 s (edgeOffset (s_Time s))).
    assert (previous_is p5 (s_Sequence s) (s_Time s)) as P5.
    { unfold p5, pps_take, appendWindow, pps_updateInfo, previous_is in *. pfields. case_goal; destruct p4; exact A1. }
    clearbody p5. set (m5 := _ <| m_Acquired := true |> <| m_Reach := p_reach p5 |>).
    assert (m_Acquired m5 = true) as M5 by done. clearbody m5.
    match goal with |- context [if p_slots p5 <? 2 ^ p_poll p5 then ?a else ?b] =>
      set (r := if p_slots p5 <? 2 ^ p_poll p5 then a else b) end.
    assert (previous_is (fst (fst r)) (s_Sequence s) (s_Time s) /\ m_Acquired (snd (fst r)) = true) as [P6 M6].
    { unfold r. destruct (p_slots p5 <? 2 ^ p_poll p5); [done|]. unfold pps_estimate. destruct (medianMAD _) as [md mad].
      unfold pps_updateInfo. destruct p5, m5. split; [exact P5|exact M5]. }
    clearbody r. destruct r as [[p6 m6] pulse]. cbn [fst snd] in *. destruct (pps_emit p6 _ _ _) as [p7 m7] eqn:Ee.
    apply emit_spec in Ee as (_ & _ & E8 & E9 & E10 & _ & _ & _ & _ & W3 & _). cbn [oc_state oc_meas].
    exists p7. split; [done|]. split; [unfold previous_is in *; by rewrite E8, E9, E10|]. left. rewrite W3. by destruct m6.
Qed.

(** The spike gate cannot lock a source out.  From any state of a
    valid source, of five pulses in a row that are each one count and one
    second (within 100 ms) after the one before, at least one is accepted,
    whatever their offsets: a window that has stopped describing the signal is
    dropped after four refusals. *)
Theorem pps_recovers p seq t its ms r :
  pps_ok (fun _ => True) p -> previous_is p seq t -> pulse_train seq t its -> (5 <= length its)%nat ->
  pps_run p its = (ms, r) -> exists m, m ∈ ms /\ m_Acquired m = true.
Proof.
  intros Hok Hp Ht Hlen. assert (refusals p < length its)%nat as Hn.
  { unfold refusals. pose proof (pk_run _ _ Hok). case_goal; lia. }
  clear Hlen. revert p seq t ms Hok Hp Ht Hn. induction its as [|i its IH]; intros p seq t ms Hok Hp Ht Hn; [cbn in Hn; lia|].
  destruct Ht as (Hg & He & s & Hf & Hfo & Ht). cbn [pps_run].
  destruct (train_step p seq t i s Hok Hp Hf Hfo Hg He) as (p' & Es & Hp' & Hd).
  destruct (pps_step_spec (fun _ => True) p i Hok (fun _ _ => I)) as (_ & Hk & _). destruct (Hk p' Es) as [Hok' _].
  rewrite Es. destruct (pps_run p' its) as [ms' r'] eqn:Er. intros E. apply pair_equal_spec in E as [<- ->].
  destruct Hd as [Hd|Hd]; [exists (oc_meas (pps_step p i)); split; [by left|done]|].
  destruct (IH p' _ _ ms' Hok' Hp' Ht) as (m & Hm & Ha); [cbn in Hn; lia|done|]. exists m. split; [by right|done].
Qed.

(** ** Examples *)

Definition example_pps_cfg : PPSConfig :=
  mkPPSConfig "pps"%string "pps"%string "/dev/pps0"%string Assert fzero fzero 2 4 fzero.
Definition example_pps : PPS :=
  match defaultAndValidatePPS example_pps_cfg true with Ok c => newPPS c (-20) | Err _ => newPPS example_pps_cfg 0 end.
Definition example_pps_valid : PPSConfig :=
  match defaultAndValidatePPS example_pps_cfg true with Ok c => c | Err _ => example_pps_cfg end.

(** Pulse [k], 2 microseconds after the second. *)
Definition example_pulse (k : Z) : iteration :=
  mkIteration false 2 (Fetched (mkPulseSample k (unixTime (1717200000 + k) 2000))) 2 false 2 (of_Z k) (of_Z k) 2.

Lemma example_pps_validated : defaultAndValidatePPS example_pps_cfg true = Ok example_pps_valid.
Proof. vm_compute. reflexivity. Qed.

Lemma example_pps_run : exists ms p, pps_run (newPPS example_pps_valid (-20)) (example_pulse <$> [1; 2; 3; 4; 5]) = (ms, Some p) /\
  p_stable p = true /\ exists m, m ∈ ms /\ m_Valid m = true.
Proof.
  eexists _, _. split; [vm_compute; reflexivity|]. split; [reflexivity|]. eexists. split; [do 3 right; left|reflexivity].
Qed.

Definition example_selector : Select.SourceState := Select.zeroSource.

Lemma pps_view_tracks_lock_witness :
  exists ms p, pps_run (newPPS example_pps_valid (-20)) (example_pulse <$> [1; 2; 3; 4; 5]) = (ms, Some p) /\
    Select.Valid (fold_left Select.source_apply ms example_selector) = true.
Proof.
  destruct example_pps_run as (ms & p & E & Hs & _). exists ms, p. split; [exact E|].
  rewrite (pps_view_tracks_lock example_pps_cfg true example_pps_valid (-20) _ ms (Some p) example_selector
    example_pps_validated E eq_refl). exact Hs.
Defined.

Lemma pps_valid_locked_witness :
  exists pre m post r i s, pps_run (newPPS example_pps_valid (-20)) (example_pulse <$> [1; 2; 3; 4; 5]) = (pre ++ m :: post, r) /\
    m_Valid m = true /\ it_fetch i = Fetched s /\ m_RefTime m = s_Time s.
Proof.
  destruct example_pps_run as (ms & p & E & _ & m & Hm & Hv).
  apply list_elem_of_split in Hm as (pre & post & ->).
  destruct (pps_valid_locked example_pps_cfg true example_pps_valid (-20) _ pre m post (Some p) example_selector
    example_pps_validated E eq_refl Hv) as (i & s & values & _ & Hf & _ & _ & _ & _ & _ & _ & _ & _ & Hr & _).
  exists pre, m, post, (Some p), i, s. split; [exact E|]. split; [exact Hv|]. split; [exact Hf|exact Hr].
Defined.

(** The source of the run above, and a train whose offsets have jumped. *)
Definition example_locked : PPS :=
  match snd (pps_run (newPPS example_pps_valid (-20)) (example_pulse <$> [1; 2; 3; 4; 5])) with Some p => p | None => example_pps end.
Definition jumped_pulse (k : Z) : iteration :=
  mkIteration false 4 (Fetched (mkPulseSample k (unixTime (1717200000 + k) 90000000))) 4 false 4 (of_Z k) (of_Z k) 4.

Lemma example_locked_ok : pps_ok (fun _ => True) example_locked /\ previous_is example_locked 5 (unixTime 1717200005 2000).
Proof.
  split; [|vm_compute; repeat split].
  let v := eval vm_compute in example_locked in replace example_locked with v by (vm_compute; reflexivity).
  constructor; unfold window_max; cbn; unfold MinPoll, MaxPoll; try lia; try done; repeat constructor.
Qed.

Lemma pps_recovers_witness :
  exists ms r m, pps_run example_locked (jumped_pulse <$> [6; 7; 8; 9; 10]) = (ms, r) /\ m ∈ ms /\ m_Acquired m = true.
Proof.
  destruct (pps_run example_locked (jumped_pulse <$> [6; 7; 8; 9; 10])) as [ms r] eqn:E.
  destruct example_locked_ok as [Hok Hp].
  destruct (pps_recovers example_locked 5 (unixTime 1717200005 2000) (jumped_pulse <$> [6; 7; 8; 9; 10]) ms r Hok Hp) as (m & Hm & Ha).
  - cbn [fmap list_fmap pulse_train].
    repeat (split; [reflexivity|]; split; [by right|]; eexists; split; [reflexivity|];
      split; [split; [done|]; split; [reflexivity|]; split; [reflexivity|vm_compute; reflexivity]|]). exact I.
  - cbn. lia.
  - exact E.
  - exists ms, r, m. split; [reflexivity|]. split; [exact Hm|exact Ha].
Defined.
