(* ===== verification/NmeaSentence.v ===== *)
(** * internal/refclock/nmea_sentence.go: NMEA 0183 sentences

    [parseNMEA] checks the framing and the checksum of one sentence and reads
    the date, the time and the fix of RMC, ZDA and GGA.  A string is the list
    of its bytes. *)

From stdpp Require Import base list numbers.
From Stdlib Require Import Lia ZArith.
From S2P Require Import Prelude Float64 GoTime GoDate GoStrings.

Local Open Scope Z_scope.

Definition maxNMEALine : Z := 1024.

Inductive NKind : Type := RMC | ZDA | GGA.

#[export] Instance NKind_eq_dec : EqDecision NKind.
Proof. solve_decision. Defined.

Record nmeaSentence : Type := mkSentence {
  ns_Kind : NKind;
  ns_Timestamp : time;
  ns_Valid : bool;
  ns_FixQuality : Z;
  ns_Satellites : Z;
  ns_Fractional : bool
}.

Inductive NMEAError : Type :=
| NMEALength
| NMEAStart
| NMEANoChecksum
| NMEABadChecksum
| NMEAChecksumMismatch (got want : Z)
| NMEAIdentifier
| NMEATalker
| NMEATruncated
| NMEATime
| NMEADate
| NMEAStatus
| NMEAField
| NMEAUnsupported.

(** ** Strings *)

(** [strings.LastIndexByte]. *)
Fixpoint last_index (i : nat) (c : Z) (s : str) : option nat :=
  match s with
  | [] => None
  | x :: r =>
      match last_index (S i) c r with
      | Some j => Some j
      | None => if x =? c then Some i else None
      end
  end.

(** [strings.Split] at a one-byte separator. *)
Fixpoint split_on (c : Z) (s : str) : list str :=
  match s with
  | [] => [[]]
  | x :: r =>
      if x =? c then [] :: split_on c r
      else match split_on c r with
           | [] => [[x]]
           | f :: fs => (x :: f) :: fs
           end
  end.

(** The part after the first [c], if any ([strings.Cut]). *)
Fixpoint cut_after (c : Z) (s : str) : str :=
  match s with
  | [] => []
  | x :: r => if x =? c then r else cut_after c r
  end.

(** [strconv.ParseUint(s, 16, 8)]. *)
Fixpoint hex_value (v : Z) (s : str) : option Z :=
  match s with
  | [] => Some v
  | c :: r => d ← hex_digit c; hex_value (v * 16 + d) r
  end.

Definition ParseHex8 (s : str) : option Z :=
  if (length s =? 0)%nat then None
  else v ← hex_value 0 s; if v <? 256 then Some v else None.

(** ** Numbers *)

Definition parseDigits (raw : str) : option Z := if forallb is_digit raw then Atoi raw else None.

Definition parseRange (raw : str) (low high : Z) : option Z :=
  n ← Atoi raw; if (n <? low) || (high <? n) then None else Some n.

(** ** Dates *)

(** The day of a date, the day of the month counted on from the first: as
    [time.Date] normalizes it, for a month from 1 to 12. *)
Definition date_day (year month day : Z) : Z :=
  let y := if month <=? 2 then year - 1 else year in
  let era := y / 400 in
  let yoe := y - era * 400 in
  let mp := if 2 <? month then month - 3 else month + 9 in
  let doy := (153 * mp + 2) / 5 in
  era * 146097 + (yoe * 365 + yoe / 4 - yoe / 100 + doy) - 719468 + (day - 1).

(** [time.Date(year, month, day, hour, minute, second, nsec, time.UTC)]. *)
Definition timeDate (year month day hour minute second nsec : Z) : time :=
  unixTime (date_day year month day * 86400 + hour * 3600 + minute * 60 + second) nsec.

(** The check that a date did not normalize to another. *)
Definition calendar (stamp : time) (year month day : Z) : bool :=
  (Day stamp =? day) && (Month stamp =? month) && (Year stamp =? year).

(** [parseNMEAClock]: hour, minute, second, nanoseconds and whether the
    fraction is not zero. *)
Definition parseNMEAClock (raw : str) : option (Z * Z * Z * Z * bool) :=
  let whole := cut_at 46 raw in
  let frac := cut_after 46 raw in
  if negb (length whole =? 6)%nat then None
  else
    hour ← parseDigits (take 2 whole);
    if 23 <? hour then None
    else
      minute ← parseDigits (take 2 (drop 2 whole));
      if 59 <? minute then None
      else
        second ← parseDigits (drop 4 whole);
        if 60 <? second then None
        else if second =? 60 then None
        else if (length frac =? 0)%nat then Some (hour, minute, second, 0, false)
        else
          _ ← parseDigits frac;
          let frac := if (9 <? length frac)%nat then take 9 frac else frac in
          let frac := frac ++ replicate (9 - length frac) 48 in
          nsec ← parseDigits frac;
          Some (hour, minute, second, nsec, negb (nsec =? 0)).

Definition parseRMCDate (raw : str) : option (Z * Z * Z) :=
  if negb (length raw =? 6)%nat then None
  else
    day ← parseRange (take 2 raw) 1 31;
    month ← parseRange (take 2 (drop 2 raw)) 1 12;
    yy ← parseRange (drop 4 raw) 0 99;
    let year := 2000 + yy in
    if calendar (timeDate year month day 0 0 0 0) year month day then Some (day, month, year) else None.

(** ** Sentences *)

Definition field (fs : list str) (i : nat) : str := nth i fs [].

Definition talkers : list str := [[71; 80]; [71; 78]; [71; 76]; [71; 65]; [66; 68]].

Definition parse_RMC (fs : list str) : result NMEAError nmeaSentence :=
  if (length fs <? 10)%nat then Err NMEATruncated
  else
    match parseNMEAClock (field fs 1) with
    | None => Err NMEATime
    | Some (hour, minute, second, nsec, fractional) =>
        match parseRMCDate (field fs 9) with
        | None => Err NMEADate
        | Some (day, month, year) =>
            if negb (bool_decide (field fs 2 = [65])) && negb (bool_decide (field fs 2 = [86])) then Err NMEAStatus
            else Ok (mkSentence RMC (timeDate year month day hour minute second nsec)
                       (bool_decide (field fs 2 = [65])) 0 0 fractional)
        end
    end.

Definition parse_ZDA (fs : list str) : result NMEAError nmeaSentence :=
  if (length fs <? 5)%nat then Err NMEATruncated
  else
    match parseNMEAClock (field fs 1) with
    | None => Err NMEATime
    | Some (hour, minute, second, nsec, fractional) =>
        match parseRange (field fs 2) 1 31, parseRange (field fs 3) 1 12, parseRange (field fs 4) 2000 9999 with
        | Some day, Some month, Some year =>
            let stamp := timeDate year month day hour minute second nsec in
            if negb (calendar stamp year month day) then Err NMEADate
            else Ok (mkSentence ZDA stamp true 0 0 fractional)
        | _, _, _ => Err NMEAField
        end
    end.

Definition parse_GGA (fs : list str) : result NMEAError nmeaSentence :=
  if (length fs <? 8)%nat then Err NMEATruncated
  else
    match parseRange (field fs 6) 0 8, parseRange (field fs 7) 0 99 with
    | Some quality, Some satellites => Ok (mkSentence GGA zeroTime (0 <? quality) quality satellites false)
    | _, _ => Err NMEAField
    end.

(** The identifier, and the sentence it names. *)
Definition parse_fields (fs : list str) : result NMEAError nmeaSentence :=
  if (length fs =? 0)%nat || negb (length (field fs 0) =? 5)%nat then Err NMEAIdentifier
  else if negb (bool_decide (take 2 (field fs 0) ∈ talkers)) then Err NMEATalker
  else
    let kind := drop 2 (field fs 0) in
    if bool_decide (kind = [82; 77; 67]) then parse_RMC fs
    else if bool_decide (kind = [90; 68; 65]) then parse_ZDA fs
    else if bool_decide (kind = [71; 71; 65]) then parse_GGA fs
    else Err NMEAUnsupported.

(** The exclusive-or of the bytes. *)
Definition checksum (s : str) : Z := fold_left Z.lxor s 0.

Definition parseNMEA (line : str) : result NMEAError nmeaSentence :=
  let line := TrimSpace line in
  if (length line =? 0)%nat || (maxNMEALine <? Z.of_nat (length line)) then Err NMEALength
  else if negb (nth 0 line 0 =? 36) then Err NMEAStart
  else
    match last_index 0 42 line with
    | None => Err NMEANoChecksum
    | Some star =>
        if negb (star + 3 =? length line)%nat then Err NMEANoChecksum
        else
          match ParseHex8 (drop (star + 1) line) with
          | None => Err NMEABadChecksum
          | Some want =>
              let body := slice 1 star line in
              let got := checksum body in
              if negb (got =? want) then Err (NMEAChecksumMismatch got want)
              else
                parse_fields (split_on 44 body)
          end
    end.

(** "$GPRMC,123519,A,4807.038,N,01131.000,E,022.4,084.4,230624,003.1,W*64" *)
Example parse_rmc_example :
  parseNMEA [36;71;80;82;77;67;44;49;50;51;53;49;57;44;65;44;52;56;48;55;46;48;51;56;44;78;44;48;49;49;51;49;46;48;48;48;44;69;44;48;50;50;46;52;44;48;56;52;46;52;44;50;51;48;54;50;52;44;48;48;51;46;49;44;87;42;54;52]
  = Ok (mkSentence RMC (unixTime 1719146119 0) true 0 0 false).
Proof. vm_compute. reflexivity. Qed.

(** ** Framing *)

Lemma last_index_spec i c s :
  match last_index i c s with
  | Some j => (i <= j)%nat /\ s !! (j - i)%nat = Some c /\ c ∉ drop (S (j - i)) s
  | None => c ∉ s
  end.
Proof.
  revert i. induction s as [|x s IH]; intros i; cbn [last_index]; [apply not_elem_of_nil|].
  specialize (IH (S i)). destruct (last_index (S i) c s) as [j|].
  - destruct IH as (H1 & H2 & H3). split; [lia|]. replace (j - i)%nat with (S (j - S i)) by lia. done.
  - destruct (x =? c) eqn:E; bool_step.
    + subst. rewrite Nat.sub_diag. done.
    + intros [->|]%elem_of_cons; done.
Qed.

Lemma last_index_app i c a b : c ∉ b -> last_index i c (a ++ c :: b) = Some (i + length a)%nat.
Proof.
  intros Hb. revert i. induction a as [|x a IH]; intros i; cbn [last_index app length].
  - pose proof (last_index_spec (S i) c b) as H. destruct (last_index (S i) c b) as [j|].
    + destruct H as (_ & H & _). destruct Hb. by eapply list_elem_of_lookup_2.
    + rewrite Z.eqb_refl, Nat.add_0_r. done.
  - rewrite IH. f_equal. lia.
Qed.

Lemma trim_left_id s : match s with [] => True | c :: _ => is_space c = false end -> trim_left s = s.
Proof. destruct s as [|c s]; [done|]. cbn [trim_left]. intros ->. done. Qed.

Lemma TrimSpace_id c s d : is_space c = false -> is_space d = false -> TrimSpace (c :: s ++ [d]) = c :: s ++ [d].
Proof.
  intros Hc Hd. unfold TrimSpace. rewrite (trim_left_id (c :: s ++ [d])) by done.
  rewrite trim_left_id; [by rewrite reverse_involutive|].
  rewrite app_comm_cons, reverse_app. done.
Qed.

Lemma hex_not_special c d : hex_digit c = Some d -> is_space c = false /\ c <> 42 /\ 0 <= d < 16.
Proof.
  unfold hex_digit, is_digit, is_space. repeat case_goal; intros [= <-]; repeat bool_step; (split; [|lia]);
    apply orb_false_iff; split; [apply andb_false_iff|apply Z.eqb_neq; lia| apply andb_false_iff|apply Z.eqb_neq; lia|apply andb_false_iff|apply Z.eqb_neq; lia]; right; apply Z.leb_gt; lia.
Qed.

(** A framed sentence is judged by its checksum, then by its fields. *)
Lemma parse_framed body h1 h2 d1 d2 :
  hex_digit h1 = Some d1 -> hex_digit h2 = Some d2 -> (length body <= 1020)%nat ->
  parseNMEA (36 :: body ++ [42; h1; h2]) =
  if checksum body =? d1 * 16 + d2 then parse_fields (split_on 44 body)
  else Err (NMEAChecksumMismatch (checksum body) (d1 * 16 + d2)).
Proof.
  intros H1 H2 Hlen. destruct (hex_not_special h1 d1 H1) as (_ & N1 & R1). destruct (hex_not_special h2 d2 H2) as (S2 & N2 & R2).
  unfold parseNMEA. replace (36 :: body ++ [42; h1; h2]) with (36 :: (body ++ [42; h1]) ++ [h2]) by (by rewrite <- app_assoc).
  rewrite TrimSpace_id by done. rewrite <- app_assoc. cbn [app].
  set (l := 36 :: body ++ [42; h1; h2]).
  assert (length l = (length body + 4)%nat) as Hl by (unfold l; cbn [length]; rewrite length_app; cbn [length]; lia).
  rewrite Hl. assert ((length body + 4 =? 0)%nat || (maxNMEALine <? Z.of_nat (length body + 4)) = false) as ->
    by (apply orb_false_iff; split; [apply Nat.eqb_neq; lia|apply Z.ltb_ge; unfold maxNMEALine; lia]).
  assert (negb (nth 0 l 0 =? 36) = false) as -> by done.
  assert (last_index 0 42 l = Some (S (length body))) as ->.
  { unfold l. change (36 :: body ++ [42; h1; h2]) with ((36 :: body) ++ 42 :: [h1; h2]).
    rewrite last_index_app; [done|].
    intros [E|[E|Hx]%elem_of_cons]%elem_of_cons; [congruence|congruence|]. by apply not_elem_of_nil in Hx. }
  assert ((S (length body) + 3 =? length body + 4)%nat = true) as -> by (apply Nat.eqb_eq; lia). cbn [negb].
  assert (drop (S (length body) + 1) l = [h1; h2]) as ->.
  { unfold l. change (36 :: body ++ [42; h1; h2]) with ((36 :: body) ++ [42; h1; h2]). rewrite drop_app_ge by (cbn [length]; lia).
    replace (S (length body) + 1 - length (36%Z :: body))%nat with 1%nat by (cbn [length]; lia). done. }
  unfold ParseHex8. cbn [length Nat.eqb hex_value]. rewrite H1, H2. cbn [mbind option_bind].
  assert (((0 * 16 + d1) * 16 + d2 <? 256) = true) as -> by (apply Z.ltb_lt; lia).
  replace ((0 * 16 + d1) * 16 + d2) with (d1 * 16 + d2) by lia.
  assert (slice 1 (S (length body)) l = body) as ->.
  { unfold slice, l. change (drop 1 (36 :: body ++ [42; h1; h2])) with (body ++ [42; h1; h2]). replace (S (length body) - 1)%nat with (length body) by lia. by rewrite take_app_length. }
  by destruct (checksum body =? d1 * 16 + d2).
Qed.

(** The converse: what is accepted was framed. *)
Lemma parse_accepts line s :
  parseNMEA line = Ok s ->
  exists body h1 h2 d1 d2, TrimSpace line = 36 :: body ++ [42; h1; h2] /\ hex_digit h1 = Some d1 /\ hex_digit h2 = Some d2 /\
    (length body <= 1020)%nat /\ checksum body = d1 * 16 + d2 /\ parse_fields (split_on 44 body) = Ok s.
Proof.
  unfold parseNMEA. set (l := TrimSpace line). clearbody l.
  destruct ((length l =? 0)%nat || _) eqn:E0; [done|]. apply orb_false_iff in E0 as [E0 E1].
  apply Nat.eqb_neq in E0. apply Z.ltb_ge in E1. unfold maxNMEALine in E1.
  destruct l as [|c l]; [done|]. cbn [nth]. destruct (c =? 36) eqn:E2; cbn [negb]; [|done]. bool_step. subst c.
  pose proof (last_index_spec 0 42 (36 :: l)) as Hs. destruct (last_index 0 42 (36 :: l)) as [star|]; [|done].
  destruct Hs as (_ & Hs & _). rewrite Nat.sub_0_r in Hs.
  destruct (star + 3 =? length (36%Z :: l))%nat eqn:E3; cbn [negb]; [|done]. bool_step. cbn [length] in *.
  destruct star as [|star]; [done|]. cbn [lookup list_lookup] in Hs.
  assert (l = take star l ++ drop star l) as El by by rewrite take_drop.
  pose proof (drop_S _ _ _ Hs) as Ed. rewrite Ed in El.
  assert (length (drop (S star) l) = 2%nat) as Hd by (rewrite length_drop; lia).
  destruct (drop (S star) l) as [|h1 [|h2 [|]]] eqn:Edd; try done.
  assert (length (take star l) = star) as Ht by (rewrite length_take; lia).
  replace (drop (S star + 1) (36 :: l)) with [h1; h2] by (rewrite <- Edd; replace (S star + 1)%nat with (S (S star)) by lia; done).
  replace (slice 1 (S star) (36 :: l)) with (take star l) by (unfold slice; replace (S star - 1)%nat with star by lia; done).
  unfold ParseHex8. cbn [length Nat.eqb hex_value].
  destruct (hex_digit h1) as [d1|] eqn:H1; [|done]. cbn [mbind option_bind].
  destruct (hex_digit h2) as [d2|] eqn:H2; [|done]. cbn [mbind option_bind].
  destruct (hex_not_special _ _ H1) as (_ & _ & R1). destruct (hex_not_special _ _ H2) as (_ & _ & R2).
  assert (((0 * 16 + d1) * 16 + d2 <? 256) = true) as -> by (apply Z.ltb_lt; lia).
  destruct (checksum (take star l) =? (0 * 16 + d1) * 16 + d2) eqn:E4; cbn [negb]; [|done]. bool_step. intros Hp.
  exists (take star l), h1, h2, d1, d2. split; [by rewrite <- El|]. repeat (split; [done|]). split; [lia|]. split; [lia|done].
Qed.

(** The checksum sees a change of any one byte. *)
Lemma checksum_app a b : checksum (a ++ b) = Z.lxor (checksum a) (checksum b).
Proof.
  unfold checksum. rewrite fold_left_app. generalize (fold_left Z.lxor a 0). intros x.
  assert (forall l x y, fold_left Z.lxor l (Z.lxor x y) = Z.lxor x (fold_left Z.lxor l y)) as H.
  { induction l as [|c l IH]; intros x' y; [done|]. cbn [fold_left]. by rewrite Z.lxor_assoc, IH. }
  rewrite <- H. by rewrite Z.lxor_0_r.
Qed.

Lemma checksum_byte a x y b : checksum (a ++ x :: b) = checksum (a ++ y :: b) -> x = y.
Proof.
  change (x :: b) with ([x] ++ b). change (y :: b) with ([y] ++ b). rewrite !checksum_app.
  change (checksum [x]) with (Z.lxor 0 x). change (checksum [y]) with (Z.lxor 0 y). rewrite !Z.lxor_0_l.
  assert (forall p b c, Z.lxor p b = Z.lxor p c -> b = c) as Hc.
  { intros p u v E. rewrite <- (Z.lxor_0_l u), <- (Z.lxor_0_l v), <- (Z.lxor_nilpotent p), !Z.lxor_assoc. by rewrite E. }
  intros E. apply Hc in E. rewrite !(Z.lxor_comm _ (checksum b)) in E. by apply Hc in E.
Qed.

(** ** Times *)

Lemma digits_value_range s : forallb is_digit s = true -> 0 <= digits_value s < 10 ^ Z.of_nat (length s).
Proof.
  unfold digits_value. induction s as [|c s IH] using rev_ind; [done|]. rewrite forallb_app, fold_left_app, length_app. cbn.
  intros H. repeat bool_step. specialize (IH H). unfold is_digit in *. repeat bool_step.
  replace (Z.of_nat (length s + 1)) with (Z.of_nat (length s) + 1) by lia. rewrite Z.pow_add_r by lia. lia.
Qed.

Lemma parseDigits_range raw n : parseDigits raw = Some n -> 0 <= n < 10 ^ Z.of_nat (length raw).
Proof.
  unfold parseDigits. destruct (forallb is_digit raw) eqn:Ed; [|done]. unfold Atoi.
  assert (match raw with 45 :: r => (true, r) | 43 :: r => (false, r) | _ => (false, raw) end = (false, raw)) as ->.
  { destruct raw as [|c r]; [done|]. cbn in Ed. repeat bool_step. unfold is_digit in *. repeat bool_step.
    destruct (decide (c = 45)) as [->|]; [lia|]. destruct (decide (c = 43)) as [->|]; [lia|].
    repeat (case_match; try done; try lia). }
  destruct (_ || _); [done|]. destruct (_ && _); [|done]. intros [= <-]. by apply digits_value_range.
Qed.

Lemma parseRange_spec raw lo hi n : parseRange raw lo hi = Some n -> lo <= n <= hi.
Proof.
  unfold parseRange. destruct (Atoi raw) as [v|]; [|done]. cbn [mbind option_bind]. case_goal; [done|].
  intros [= <-]. apply orb_false_iff in Heqb as [H1 H2]. apply Z.ltb_ge in H1, H2. lia.
Qed.

Lemma parseNMEAClock_range raw h m s ns fr :
  parseNMEAClock raw = Some (h, m, s, ns, fr) ->
  0 <= h <= 23 /\ 0 <= m <= 59 /\ 0 <= s <= 59 /\ 0 <= ns < Second /\ fr = negb (ns =? 0).
Proof.
  unfold parseNMEAClock. cbv zeta. case_goal; [done|].
  destruct (parseDigits (take 2 (cut_at 46 raw))) as [hh|] eqn:E1; [|done]. cbn [mbind option_bind].
  destruct (23 <? hh) eqn:L1; [done|].
  destruct (parseDigits (take 2 (drop 2 (cut_at 46 raw)))) as [mm|] eqn:E2; [|done]. cbn [mbind option_bind].
  destruct (59 <? mm) eqn:L2; [done|].
  destruct (parseDigits (drop 4 (cut_at 46 raw))) as [ss|] eqn:E3; [|done]. cbn [mbind option_bind].
  destruct (60 <? ss) eqn:L3; [done|]. destruct (ss =? 60) eqn:L4; [done|].
  apply parseDigits_range in E1, E2, E3. apply Z.ltb_ge in L1, L2, L3. apply Z.eqb_neq in L4.
  destruct (length (cut_after 46 raw) =? 0)%nat; [intros [= <- <- <- <- <-]; unfold Second; repeat split; lia|].
  destruct (parseDigits (cut_after 46 raw)); [|done]. cbn [mbind option_bind].
  set (f1 := if _ : bool then _ else _). set (f2 := f1 ++ _).
  assert (length f2 = 9%nat) as Hf.
  { assert (length f1 <= 9)%nat by (unfold f1; destruct (9 <? length (cut_after 46 raw))%nat eqn:El;
      [rewrite length_take; lia|apply Nat.ltb_ge in El; lia]).
    unfold f2. rewrite length_app, length_replicate. lia. }
  destruct (parseDigits f2) as [nn|] eqn:E5; [|done]. apply parseDigits_range in E5. rewrite Hf in E5.
  cbn [mbind option_bind]. intros [= <- <- <- <- <-]. unfold Second. repeat split; lia.
Qed.

(** The components of a date and time of day. *)
Lemma timeDate_components year month day h m s ns :
  0 <= h <= 23 -> 0 <= m <= 59 -> 0 <= s <= 59 -> 0 <= ns < Second ->
  let t := timeDate year month day h m s ns in
  unixDay t = date_day year month day /\ HourOf t = h /\ MinuteOf t = m /\ SecondOf t = s /\ nanos t = ns.
Proof.
  intros Hh Hm Hs Hn t. set (D := date_day year month day).
  assert (Unix t = D * 86400 + h * 3600 + m * 60 + s) as Hu.
  { unfold t, timeDate, unixTime, Unix. rewrite Z.div_add_l by done. rewrite (Z.div_small ns) by done. fold D. lia. }
  assert (nanos t = ns) as Hns.
  { unfold t, timeDate, unixTime, nanos. rewrite Z.add_comm, Z.mod_add by done. by apply Z.mod_small. }
  unfold unixDay, HourOf, MinuteOf, SecondOf, secondOfDay. rewrite Hu.
  replace (D * 86400 + h * 3600 + m * 60 + s) with (h * 3600 + m * 60 + s + D * 86400) by lia.
  rewrite Z.div_add, Z.mod_add, (Z.div_small _ 86400), (Z.mod_small _ 86400) by lia.
  split; [lia|]. split; [symmetry; apply (Z.div_unique _ _ h (m * 60 + s)); lia|].
  assert ((h * 3600 + m * 60 + s) mod 3600 = m * 60 + s) as -> by (symmetry; apply (Z.mod_unique _ _ h); lia).
  split; [symmetry; apply (Z.div_unique _ _ m s); lia|]. split; [|done].
  symmetry. apply (Z.mod_unique _ _ (h * 60 + m)); lia.
Qed.

Lemma calendar_spec t y m d : calendar t y m d = true -> Year t = y /\ Month t = m /\ Day t = d.
Proof. unfold calendar. intros H. repeat bool_step. done. Qed.

Lemma same_day_date t u : unixDay t = unixDay u -> Year t = Year u /\ Month t = Month u /\ Day t = Day u.
Proof. unfold Year, Month, Day. by intros ->. Qed.

(** What an accepted time sentence says. *)
Lemma parse_fields_time fs s :
  parse_fields fs = Ok s -> ns_Kind s <> GGA ->
  exists hour minute second nsec, parseNMEAClock (field fs 1) = Some (hour, minute, second, nsec, ns_Fractional s) /\
    HourOf (ns_Timestamp s) = hour /\ MinuteOf (ns_Timestamp s) = minute /\ SecondOf (ns_Timestamp s) = second /\
    nanos (ns_Timestamp s) = nsec /\ ns_Fractional s = negb (nsec =? 0) /\ 2000 <= Year (ns_Timestamp s) <= 9999.
Proof.
  unfold parse_fields. case_goal; [done|]. case_goal; [done|]. case_goal; [|case_goal; [|case_goal; [|done]]].
  - unfold parse_RMC. case_goal; [done|].
    destruct (parseNMEAClock (field fs 1)) as [[[[[h m] sec] ns] fr]|] eqn:Ec; [|done].
    destruct (parseRMCDate (field fs 9)) as [[[d mo] y]|] eqn:Ed; [|done]. case_goal; [done|]. intros [= <-] _.
    destruct (parseNMEAClock_range _ _ _ _ _ _ Ec) as (H1 & H2 & H3 & H4 & H5).
    destruct (timeDate_components y mo d h m sec ns H1 H2 H3 H4) as (T1 & T2 & T3 & T4 & T5). cbn [ns_Timestamp ns_Fractional].
    exists h, m, sec, ns. repeat (split; [done|]).
    revert Ed. unfold parseRMCDate. case_goal; [done|].
    destruct (parseRange (take 2 (field fs 9)) 1 31) as [dd|]; [|done]. cbn [mbind option_bind].
    destruct (parseRange (take 2 (drop 2 (field fs 9))) 1 12) as [mm|]; [|done]. cbn [mbind option_bind].
    destruct (parseRange (drop 4 (field fs 9)) 0 99) as [yy|] eqn:Ey; [|done]. cbn [mbind option_bind]. cbv zeta.
    destruct (calendar _ _ _ _) eqn:Ek; [|done]. intros [= -> -> <-]. apply parseRange_spec in Ey.
    apply calendar_spec in Ek as (K1 & _).
    destruct (timeDate_components (2000 + yy) mo d 0 0 0 0 ltac:(lia) ltac:(lia) ltac:(lia) ltac:(unfold Second; lia)) as (U1 & _).
    destruct (same_day_date (timeDate (2000 + yy) mo d h m sec ns) (timeDate (2000 + yy) mo d 0 0 0 0) ltac:(congruence)) as (Y & _).
    rewrite Y, K1. lia.
  - unfold parse_ZDA. case_goal; [done|].
    destruct (parseNMEAClock (field fs 1)) as [[[[[h m] sec] ns] fr]|] eqn:Ec; [|done].
    destruct (parseRange (field fs 2) 1 31) as [d|]; [|done]. destruct (parseRange (field fs 3) 1 12) as [mo|]; [|done].
    destruct (parseRange (field fs 4) 2000 9999) as [y|] eqn:Ey; [|done]. cbv zeta.
    destruct (calendar _ _ _ _) eqn:Ek; cbn [negb]; [|done]. intros [= <-] _.
    destruct (parseNMEAClock_range _ _ _ _ _ _ Ec) as (H1 & H2 & H3 & H4 & H5).
    destruct (timeDate_components y mo d h m sec ns H1 H2 H3 H4) as (_ & T2 & T3 & T4 & T5). cbn [ns_Timestamp ns_Fractional].
    exists h, m, sec, ns. repeat (split; [done|]). apply calendar_spec in Ek as (-> & _). by apply parseRange_spec in Ey.
  - unfold parse_GGA. case_goal; [done|]. destruct (parseRange (field fs 6) 0 8); [|done].
    destruct (parseRange (field fs 7) 0 99); [|done]. by intros [= <-].
Qed.

(** What the sentence parser accepts.  An accepted line is a dollar
    sign, a body and a two-digit checksum that is the exclusive-or of the body;
    the same line with any one byte of the body changed is refused; and a time
    sentence's instant has exactly the hour, minute, second and fraction of its
    time field, in a calendar date of the years 2000 to 9999. *)
Theorem nmea_sound line s :
  parseNMEA line = Ok s ->
  exists body h1 h2, TrimSpace line = 36 :: body ++ [42; h1; h2] /\
    (forall a x b y, body = a ++ x :: b -> y <> x ->
       exists e, parseNMEA (36 :: (a ++ y :: b) ++ [42; h1; h2]) = Err e) /\
    ParseHex8 [h1; h2] = Some (checksum body) /\
    (ns_Kind s <> GGA ->
       exists hour minute second nsec,
         parseNMEAClock (field (split_on 44 body) 1) = Some (hour, minute, second, nsec, ns_Fractional s) /\
         HourOf (ns_Timestamp s) = hour /\ MinuteOf (ns_Timestamp s) = minute /\ SecondOf (ns_Timestamp s) = second /\
         nanos (ns_Timestamp s) = nsec /\ ns_Fractional s = negb (nsec =? 0) /\ 2000 <= Year (ns_Timestamp s) <= 9999).
Proof.
  intros H. apply parse_accepts in H as (body & h1 & h2 & d1 & d2 & Hl & H1 & H2 & Hlen & Hc & Hf).
  exists body, h1, h2. split; [done|]. split; [|split].
  - intros a x b y -> Hne. rewrite (parse_framed (a ++ y :: b) h1 h2 d1 d2 H1 H2); [|rewrite length_app in *; exact Hlen].
    destruct (_ =? _) eqn:E; [|by eexists]. bool_step. exfalso. apply Hne. apply (checksum_byte a y x b). congruence.
  - destruct (hex_not_special _ _ H1) as (_ & _ & R1). destruct (hex_not_special _ _ H2) as (_ & _ & R2).
    unfold ParseHex8. cbn [length Nat.eqb hex_value]. rewrite H1, H2. cbn [mbind option_bind].
    assert (((0 * 16 + d1) * 16 + d2 <? 256) = true) as -> by (apply Z.ltb_lt; lia). f_equal. lia.
  - intros Hk. by apply parse_fields_time.
Qed.

(** ** Rendering *)

Definition two_digits (n : Z) : str := [48 + n / 10; 48 + n mod 10].
Definition hex_char (d : Z) : Z := if d <? 10 then 48 + d else 55 + d.

(** The body of an RMC sentence with no position. *)
Definition rmc_body (t : time) : str :=
  [71; 80; 82; 77; 67; 44] ++ (two_digits (HourOf t) ++ two_digits (MinuteOf t) ++ two_digits (SecondOf t)) ++
  [44; 65; 44; 44; 44; 44; 44; 44; 44] ++ (two_digits (Day t) ++ two_digits (Month t) ++ two_digits (Year t - 2000)).

Definition rmc_line (t : time) : str :=
  let body := rmc_body t in
  36 :: body ++ [42; hex_char (checksum body / 16); hex_char (checksum body mod 16)].

Lemma split_on_app c f r : c ∉ f -> split_on c (f ++ c :: r) = f :: split_on c r.
Proof.
  induction f as [|x f IH]; intros Hf; cbn [split_on app]; [by rewrite Z.eqb_refl|].
  apply not_elem_of_cons in Hf as [Hx Hf]. assert ((x =? c) = false) as -> by (apply Z.eqb_neq; congruence). by rewrite IH.
Qed.

Lemma split_on_last c f : c ∉ f -> split_on c f = [f].
Proof.
  induction f as [|x f IH]; intros Hf; cbn [split_on]; [done|].
  apply not_elem_of_cons in Hf as [Hx Hf]. assert ((x =? c) = false) as -> by (apply Z.eqb_neq; congruence). by rewrite IH.
Qed.

(** Facts about all two-digit numbers and all bytes, by evaluation. *)
Lemma two_digits_spec n : 0 <= n < 100 ->
  parseDigits (two_digits n) = Some n /\ Atoi (two_digits n) = Some n /\ Forall (fun c => 48 <= c <= 57) (two_digits n).
Proof.
  intros Hn. assert (forallb (fun k => let n := Z.of_nat k in
    bool_decide (parseDigits (two_digits n) = Some n) && bool_decide (Atoi (two_digits n) = Some n)) (seq 0 100) = true) as H
    by (vm_compute; reflexivity).
  rewrite forallb_forall in H. specialize (H (Z.to_nat n)). rewrite in_seq, Z2Nat.id in H by lia.
  specialize (H ltac:(lia)). apply andb_true_iff in H as [H1 H2]. apply bool_decide_eq_true in H1, H2.
  split; [done|]. split; [done|]. assert (0 <= n / 10 <= 9 /\ 0 <= n mod 10 <= 9) by (Z.to_euclidean_division_equations; lia).
  unfold two_digits. constructor; [lia|]. constructor; [lia|constructor].
Qed.

Lemma hex_char_spec d : 0 <= d < 16 -> hex_digit (hex_char d) = Some d.
Proof.
  intros Hd. assert (forallb (fun k => bool_decide (hex_digit (hex_char (Z.of_nat k)) = Some (Z.of_nat k))) (seq 0 16) = true) as H
    by (vm_compute; reflexivity).
  rewrite forallb_forall in H. specialize (H (Z.to_nat d)). rewrite in_seq, Z2Nat.id in H by lia.
  specialize (H ltac:(lia)). by apply bool_decide_eq_true in H.
Qed.

(** A test of consecutive integers. *)
Fixpoint check_from (f : Z -> bool) (n : nat) (D : Z) : bool :=
  match n with O => true | S n => f D && check_from f n (D + 1) end.

Lemma check_from_spec f n D x : check_from f n D = true -> D <= x < D + Z.of_nat n -> f x = true.
Proof.
  revert D. induction n as [|n IH]; intros D H Hx; [lia|]. cbn [check_from] in H. apply andb_true_iff in H as [H1 H2].
  destruct (decide (x = D)) as [->|]; [done|]. apply (IH (D + 1)); [done|lia].
Qed.

(** Every date of the century: reading it back gives the day, and its fields
    are two-digit. *)
Definition date_ok (D : Z) : bool :=
  let '(y, m, d) := civil D in
  (date_day y m d =? D) && (2000 <=? y) && (y <=? 2099) && (1 <=? m) && (m <=? 12) && (1 <=? d) && (d <=? 31).

Lemma century_checked : check_from date_ok (Z.to_nat 36525) 10957 = true.
Proof. vm_compute. reflexivity. Qed.

Lemma century_dates D : 10957 <= D <= 47481 ->
  let '(y, m, d) := civil D in
  date_day y m d = D /\ 2000 <= y <= 2099 /\ 1 <= m <= 12 /\ 1 <= d <= 31.
Proof.
  intros HD. pose proof century_checked as Hk. remember (Z.to_nat 36525) as n eqn:En.
  assert (Z.of_nat n = 36525) as Hz by (rewrite En; apply Z2Nat.id; done). clear En.
  pose proof (check_from_spec date_ok _ _ D Hk ltac:(lia)) as H. unfold date_ok in H.
  destruct (civil D) as [[y m] d]. repeat bool_step. lia.
Qed.

Lemma digits_no c l : Forall (fun x => 48 <= x <= 57) l -> c < 48 -> c ∉ l.
Proof. intros Hl Hc Hin. apply list_elem_of_In in Hin. rewrite List.Forall_forall in Hl. specialize (Hl c Hin). lia. Qed.

Lemma digits_bytes l : Forall (fun x => 48 <= x <= 57) l -> Forall (fun x => 0 <= x < 256) l.
Proof. apply List.Forall_impl. lia. Qed.

Lemma checksum_byte_range l : Forall (fun x => 0 <= x < 256) l -> 0 <= checksum l < 256.
Proof.
  unfold checksum. assert (forall l x, Forall (fun x => 0 <= x < 256) l -> 0 <= x < 256 -> 0 <= fold_left Z.lxor l x < 256) as H.
  { induction l0 as [|c l0 IH]; intros x Hl Hx; [done|]. apply Forall_cons_1 in Hl as [Hc Hl]. cbn [fold_left]. apply IH; [done|].
    assert (Z.lxor x c = wrapu 8 (Z.lxor x c)) as ->; [|apply (wrapu_range 8); lia].
    unfold wrapu. change (2 ^ 8) with 256. symmetry. apply Z.mod_small.
    split; [apply Z.lxor_nonneg; lia|]. destruct (decide (Z.lxor x c = 0)) as [->|Hz]; [lia|].
    assert (0 <= Z.lxor x c) by (apply Z.lxor_nonneg; lia).
    change 256 with (2 ^ 8). apply Z.log2_lt_pow2; [lia|].
    pose proof (Z.log2_lxor x c ltac:(lia) ltac:(lia)) as Hl2.
    assert (Z.log2 x <= 7 /\ Z.log2 c <= 7) as [? ?] by (split; (change 7 with (Z.log2 255); apply Z.log2_le_mono; lia)). lia. }
  intros Hl. apply H; [done|lia].
Qed.

(** The clock, date and field list of a rendered sentence. *)
Definition rmc_clock (t : time) : str := two_digits (HourOf t) ++ two_digits (MinuteOf t) ++ two_digits (SecondOf t).
Definition rmc_date (t : time) : str := two_digits (Day t) ++ two_digits (Month t) ++ two_digits (Year t - 2000).

Lemma rmc_clock_digits t : Forall (fun c => 48 <= c <= 57) (rmc_clock t).
Proof.
  assert (0 <= secondOfDay t < 86400) as Hs by (unfold secondOfDay; apply Z.mod_pos_bound; lia).
  unfold rmc_clock. repeat apply Forall_app_2; apply two_digits_spec; unfold HourOf, MinuteOf, SecondOf;
    Z.to_euclidean_division_equations; lia.
Qed.

Lemma century_fields t : 10957 <= unixDay t <= 47481 ->
  date_day (Year t) (Month t) (Day t) = unixDay t /\ 2000 <= Year t <= 2099 /\ 1 <= Month t <= 12 /\ 1 <= Day t <= 31.
Proof.
  intros HD. pose proof (century_dates (unixDay t) HD) as Hc. unfold Year, Month, Day.
  by destruct (civil (unixDay t)) as [[y m] d].
Qed.

Lemma rmc_date_digits t : 10957 <= unixDay t <= 47481 -> Forall (fun c => 48 <= c <= 57) (rmc_date t).
Proof.
  intros HD. destruct (century_fields t HD) as (_ & ? & ? & ?).
  unfold rmc_date. repeat apply Forall_app_2; apply two_digits_spec; lia.
Qed.

Lemma rmc_split t : 10957 <= unixDay t <= 47481 ->
  split_on 44 (rmc_body t) = [[71; 80; 82; 77; 67]; rmc_clock t; [65]; []; []; []; []; []; []; rmc_date t].
Proof.
  intros HD.
  pose proof (digits_no 44 _ (rmc_clock_digits t) ltac:(lia)) as N1.
  pose proof (digits_no 44 _ (rmc_date_digits t HD) ltac:(lia)) as N2.
  unfold rmc_body. fold (rmc_clock t) (rmc_date t). generalize dependent (rmc_clock t). generalize dependent (rmc_date t).
  intros date N2 clock N1.
  change ([71; 80; 82; 77; 67; 44] ++ clock ++ [44; 65; 44; 44; 44; 44; 44; 44; 44] ++ date)
    with ([71; 80; 82; 77; 67] ++ 44 :: clock ++ 44 :: ([65] ++ 44 :: [44; 44; 44; 44; 44; 44] ++ date)).
  rewrite split_on_app by (rewrite !not_elem_of_cons; repeat split; try done; apply not_elem_of_nil). f_equal.
  rewrite split_on_app by done. f_equal.
  rewrite split_on_app by (rewrite not_elem_of_cons; split; [done|apply not_elem_of_nil]). f_equal.
  cbn [app split_on]. cbn [Z.eqb Pos.eqb]. by rewrite split_on_last.
Qed.

Lemma cut_absent c s : c ∉ s -> cut_at c s = s /\ cut_after c s = [].
Proof.
  induction s as [|x s IH]; [done|]. intros [Nc Nl]%not_elem_of_cons. cbn [cut_at cut_after].
  assert ((x =? c) = false) as -> by (apply Z.eqb_neq; congruence). destruct (IH Nl) as [-> ->]. done.
Qed.

Lemma rmc_clock_parses t : parseNMEAClock (rmc_clock t) = Some (HourOf t, MinuteOf t, SecondOf t, 0, false).
Proof.
  assert (0 <= secondOfDay t < 86400) as Hs by (unfold secondOfDay; apply Z.mod_pos_bound; lia).
  assert (0 <= HourOf t <= 23 /\ 0 <= MinuteOf t <= 59 /\ 0 <= SecondOf t <= 59) as (Hh & Hm & Hsec).
  { unfold HourOf, MinuteOf, SecondOf. Z.to_euclidean_division_equations. lia. }
  destruct (two_digits_spec (HourOf t) ltac:(lia)) as (P1 & _).
  destruct (two_digits_spec (MinuteOf t) ltac:(lia)) as (P2 & _).
  destruct (two_digits_spec (SecondOf t) ltac:(lia)) as (P3 & _).
  unfold parseNMEAClock. destruct (cut_absent 46 (rmc_clock t)) as [-> ->]; [apply digits_no; [apply rmc_clock_digits|lia]|].
  change (take 2 (rmc_clock t)) with (two_digits (HourOf t)).
  change (take 2 (drop 2 (rmc_clock t))) with (two_digits (MinuteOf t)).
  change (drop 4 (rmc_clock t)) with (two_digits (SecondOf t)).
  change (length (rmc_clock t)) with 6%nat. cbn [Nat.eqb negb]. rewrite P1, P2, P3. cbn [mbind option_bind].
  assert ((23 <? HourOf t) = false) as -> by (apply Z.ltb_ge; lia).
  assert ((59 <? MinuteOf t) = false) as -> by (apply Z.ltb_ge; lia).
  assert ((60 <? SecondOf t) = false) as -> by (apply Z.ltb_ge; lia).
  assert ((SecondOf t =? 60) = false) as -> by (apply Z.eqb_neq; lia). done.
Qed.

Lemma timeDate_self t : 10957 <= unixDay t <= 47481 -> nanos t = 0 ->
  timeDate (Year t) (Month t) (Day t) (HourOf t) (MinuteOf t) (SecondOf t) 0 = t.
Proof.
  intros HD Hn. destruct (century_fields t HD) as (C1 & _). unfold timeDate. rewrite C1.
  transitivity (unixTime (Unix t) (nanos t)); [|apply unix_nanos]. rewrite Hn. f_equal.
  unfold HourOf, MinuteOf, SecondOf, unixDay, secondOfDay. Z.to_euclidean_division_equations. lia.
Qed.

Lemma rmc_date_parses t : 10957 <= unixDay t <= 47481 -> parseRMCDate (rmc_date t) = Some (Day t, Month t, Year t).
Proof.
  intros HD. destruct (century_fields t HD) as (C1 & C2 & C3 & C4).
  destruct (two_digits_spec (Day t) ltac:(lia)) as (_ & P4 & _).
  destruct (two_digits_spec (Month t) ltac:(lia)) as (_ & P5 & _).
  destruct (two_digits_spec (Year t - 2000) ltac:(lia)) as (_ & P6 & _).
  unfold parseRMCDate. change (take 2 (rmc_date t)) with (two_digits (Day t)).
  change (take 2 (drop 2 (rmc_date t))) with (two_digits (Month t)).
  change (drop 4 (rmc_date t)) with (two_digits (Year t - 2000)).
  change (length (rmc_date t)) with 6%nat. cbn [Nat.eqb negb]. unfold parseRange. rewrite P4, P5, P6. cbn [mbind option_bind].
  assert ((Day t <? 1) || (31 <? Day t) = false) as -> by (apply orb_false_iff; split; apply Z.ltb_ge; lia).
  assert ((Month t <? 1) || (12 <? Month t) = false) as -> by (apply orb_false_iff; split; apply Z.ltb_ge; lia).
  assert ((Year t - 2000 <? 0) || (99 <? Year t - 2000) = false) as -> by (apply orb_false_iff; split; apply Z.ltb_ge; lia).
  cbn [mbind option_bind]. cbv zeta. replace (2000 + (Year t - 2000)) with (Year t) by lia.
  destruct (timeDate_components (Year t) (Month t) (Day t) 0 0 0 0 ltac:(lia) ltac:(lia) ltac:(lia) ltac:(unfold Second; lia)) as (U & _).
  rewrite C1 in U. destruct (same_day_date _ t U) as (Y & M & D). unfold calendar. rewrite Y, M, D, !Z.eqb_refl. done.
Qed.

Lemma rmc_fields t : 10957 <= unixDay t <= 47481 -> nanos t = 0 ->
  parse_fields (split_on 44 (rmc_body t)) = Ok (mkSentence RMC t true 0 0 false).
Proof.
  intros HD Hn. rewrite rmc_split by done.
  pose proof (rmc_clock_parses t) as Hc. pose proof (rmc_date_parses t HD) as Hd. pose proof (timeDate_self t HD Hn) as Ht.
  generalize dependent (rmc_clock t). generalize dependent (rmc_date t). intros date Hd clock Hc.
  unfold parse_fields. cbn [length field nth Nat.eqb orb negb take drop].
  assert (bool_decide ([71; 80] ∈ talkers) = true) as -> by (vm_compute; reflexivity). cbn [negb].
  rewrite bool_decide_eq_true_2 by done.
  unfold parse_RMC. cbn [length field nth Nat.ltb Nat.leb]. rewrite Hc, Hd, Ht. done.
Qed.

(** Rendering and parsing an RMC sentence.  For every whole second
    of the years 2000 to 2099, the RMC sentence that spells it with its
    checksum parses to exactly that instant, with a valid fix. *)
Theorem rmc_roundtrip t :
  10957 <= unixDay t <= 47481 -> nanos t = 0 ->
  parseNMEA (rmc_line t) = Ok (mkSentence RMC t true 0 0 false).
Proof.
  intros HD Hn. pose proof (rmc_fields t HD Hn) as Hf.
  assert (Forall (fun x => 0 <= x < 256) (rmc_body t)) as Hbytes.
  { unfold rmc_body. fold (rmc_clock t) (rmc_date t).
    pose proof (digits_bytes _ (rmc_clock_digits t)) as B1. pose proof (digits_bytes _ (rmc_date_digits t HD)) as B2.
    rewrite !Forall_app. split; [|split; [exact B1|split; [|exact B2]]]; repeat (constructor; [lia|]); constructor. }
  pose proof (checksum_byte_range _ Hbytes) as Hck. assert (length (rmc_body t) = 27%nat) as Hlen by done.
  unfold rmc_line. cbv zeta. generalize dependent (rmc_body t). intros body Hf _ Hck Hlen.
  rewrite (parse_framed _ _ _ (checksum body / 16) (checksum body mod 16));
    [|apply hex_char_spec; Z.to_euclidean_division_equations; lia|apply hex_char_spec; apply Z.mod_pos_bound; lia|lia].
  assert ((checksum body =? checksum body / 16 * 16 + checksum body mod 16) = true) as ->
    by (apply Z.eqb_eq; Z.to_euclidean_division_equations; lia).
  done.
Qed.

Lemma rmc_roundtrip_witness : parseNMEA (rmc_line (unixTime 1719146119 0)) = Ok (mkSentence RMC (unixTime 1719146119 0) true 0 0 false).
Proof. apply rmc_roundtrip; [vm_compute; split; discriminate|reflexivity]. Defined.

Lemma nmea_sound_witness :
  exists body h1 h2, rmc_line (unixTime 1719146119 0) = 36 :: body ++ [42; h1; h2] /\ ParseHex8 [h1; h2] = Some (checksum body).
Proof.
  destruct (nmea_sound (rmc_line (unixTime 1719146119 0)) (mkSentence RMC (unixTime 1719146119 0) true 0 0 false))
    as (body & h1 & h2 & Hl & _ & Hc & _); [vm_compute; reflexivity|].
  exists body, h1, h2. split; [rewrite <- Hl; vm_compute; reflexivity|exact Hc].
Defined.
