(* ===== verification/Nmea.v ===== *)
(** * internal/refclock/nmea.go: the NMEA reference clock

    Bytes of the serial line are framed into sentences; the instant of an
    accepted RMC or ZDA sentence, less the arrival of its first byte, enters a
    window whose median is reported.  One iteration of [Run] is [nmea_step]: the
    read, the clock and epoch readings and the calls of [Reset] are its inputs.
    The opener is never nil: [NewNMEA] sets it. *)

From stdpp Require Import base list numbers strings.
From Stdlib Require Import Lia ZArith SpecFloat.
From S2P Require Import Prelude Float64 GoTime GoDate GoStrings NtpTime Measurement Refclock NtpSource Pps NmeaSentence.

Local Open Scope Z_scope.

Definition nmeaPoll : Z := 4.
Definition nmeaWindow : nat := 16.
Definition nmeaEraJump : duration := Hour.
Definition nmeaEraConfirm : Z := 4.

(** ** The pulse tracker *)

(** The stored nanoseconds; a nil tracker is one that stays at 0. *)
Definition PulseTracker : Type := Z.

Definition Observe (p : PulseTracker) (t : time) : PulseTracker := if IsZero t then p else wraps 64 t.

Definition latest (p : PulseTracker) : time := if p =? 0 then zeroTime else unixTime 0 p.

(** ** Configuration *)

Definition kind_text (k : NKind) : str :=
  match k with RMC => [82; 77; 67] | ZDA => [90; 68; 65] | GGA => [71; 71; 65] end.

Record NMEAConfig : Type := mkNMEAConfig {
  nc_Name : string;
  nc_Device : string;
  nc_Baud : Z;
  nc_Offset : f64;
  nc_Sentences : list str;
  nc_BuildTime : time
}.

#[export] Instance NMEAConfig_eta : Eta NMEAConfig := fun c =>
  mkNMEAConfig (nc_Name c) (nc_Device c) (nc_Baud c) (nc_Offset c) (nc_Sentences c) (nc_BuildTime c).

Inductive NMEAConfigError : Type :=
| NMEANoName | NMEANoDevice | NMEABadBaud | NMEABadOffset | NMEABadSentence (kind : str) | NMEANoClock.

Definition bauds : list Z := [4800; 9600; 19200; 38400; 57600; 115200].

Definition defaultAndValidateNMEA (c : NMEAConfig) (hasClock : bool) : result NMEAConfigError NMEAConfig :=
  if bool_decide (nc_Name c = ""%string) then Err NMEANoName
  else if bool_decide (nc_Device c = ""%string) then Err NMEANoDevice
  else if negb (bool_decide (nc_Baud c ∈ bauds)) then Err NMEABadBaud
  else if negb (finite (nc_Offset c)) then Err NMEABadOffset
  else
    let c := if (length (nc_Sentences c) =? 0)%nat
             then c <| nc_Sentences := [kind_text RMC; kind_text ZDA] |> else c in
    match find (fun k => negb (bool_decide (k = kind_text RMC)) && negb (bool_decide (k = kind_text ZDA))) (nc_Sentences c) with
    | Some k => Err (NMEABadSentence k)
    | None => if negb hasClock then Err NMEANoClock else Ok c
    end.

(** ** State *)

Record NMEA : Type := mkNMEA {
  g_cfg : NMEAConfig;
  g_precision : Z;
  g_resetRequested : bool;
  g_info : ClockInfo;
  g_reach : Z;
  g_offsets : list f64;
  g_lags : list f64;
  g_line : str;
  g_lineWall : time;
  g_lineMono : f64;
  g_lineGen : Z;
  g_eraCandidate : time;
  g_eraCount : Z;
  g_pendingInvalidate : bool;
  g_staleSeen : Z;
  g_haveLine : bool;
  g_haveSlot : bool;
  g_slotAt : f64;
  g_lastStamp : time;
  g_lastZDASeen : f64
}.

#[export] Instance NMEA_eta : Eta NMEA := fun n =>
  mkNMEA (g_cfg n) (g_precision n) (g_resetRequested n) (g_info n) (g_reach n) (g_offsets n) (g_lags n) (g_line n)
    (g_lineWall n) (g_lineMono n) (g_lineGen n) (g_eraCandidate n) (g_eraCount n) (g_pendingInvalidate n) (g_staleSeen n)
    (g_haveLine n) (g_haveSlot n) (g_slotAt n) (g_lastStamp n) (g_lastZDASeen n).

Definition newNMEA (cfg : NMEAConfig) (precision : Z) : NMEA :=
  mkNMEA cfg precision false (initialInfo nmeaPoll) 0 [] [] [] zeroTime fzero 0 zeroTime 0 false 0 false false fzero
    zeroTime fzero.

Definition nmea_updateInfo (n : NMEA) (f : ClockInfo -> ClockInfo) : NMEA := n <| g_info := f (g_info n) |>.

Definition nmea_Reset (n : NMEA) : NMEA := n <| g_resetRequested := true |>.

Definition nmea_reject (n : NMEA) (message : string) : NMEA :=
  nmea_updateInfo n (fun i => i <| k_Bogus := u64 (k_Bogus i + 1) |> <| k_LastError := message |>).

Definition nmea_resetWindow (n : NMEA) : NMEA :=
  let n := n <| g_pendingInvalidate := true |> <| g_lastStamp := zeroTime |> <| g_eraCandidate := zeroTime |>
             <| g_eraCount := 0 |> <| g_offsets := [] |> <| g_lags := [] |> in
  nmea_updateInfo n (on_refclock (fun r =>
    r <| r_WindowSamples := 0%nat |> <| r_WindowJitter := fzero |> <| r_Stable := false |> <| r_MeasuredLag := fzero |>
      <| r_LagSamples := 0%nat |>)).

Definition staleWindow (n : NMEA) : NMEA := if (length (g_offsets n) =? 0)%nat then n else nmea_resetWindow n.

Definition addTimeouts (n : NMEA) (count : Z) : NMEA :=
  nmea_updateInfo n (fun i => on_refclock (fun r => r <| r_Timeouts := u64 (r_Timeouts r + count) |>)
    (i <| k_Timeouts := u64 (k_Timeouts i + count) |>)).

(** ** Reach *)

(** [int(math.Floor(x))] of a finite float of the int range. *)
Definition ffloor (x : f64) : Z :=
  match x with
  | S754_finite s m e => if 0 <=? e then cond_Zopp s (Zpos m * 2 ^ e) else cond_Zopp s (Zpos m) / 2 ^ (- e)
  | _ => 0
  end.

Definition half : f64 := lit 1 2.

Definition noteArrival (n : NMEA) (now : f64) : NMEA :=
  if negb (g_haveSlot n) then n <| g_reach := 1 |> <| g_haveSlot := true |> <| g_slotAt := now |>
  else
    let slots := ffloor (fadd (fsub now (g_slotAt n)) half) in
    if slots <? 1 then n <| g_reach := Z.lor (g_reach n) 1 |>
    else
      let n := if reachBits <=? slots then staleWindow n else n in
      let n := n <| g_reach := Z.lor (shiftReach (g_reach n) slots) 1 |> in
      let n := if 1 <? slots then addTimeouts n (slots - 1) else n in
      n <| g_slotAt := now |>.

Definition nmea_emptyMeasurement (n : NMEA) (now : f64) (gen : Z) : Measurement :=
  mkMeasurement (nc_Name (g_cfg n)) now (g_reach n) nmeaPoll gen false false false 0 fzero false fzero fzero fzero fzero
    fzero 0 0 zeroRefID fzero fzero 0 zeroTime zeroRefID.

(** [tick]: whether slots passed without a sentence. *)
Definition nmea_tick (n : NMEA) (now : f64) : NMEA * bool :=
  if negb (g_haveSlot n) then (n <| g_haveSlot := true |> <| g_slotAt := now |>, false)
  else
    let slots := ffloor (fsub (fsub now (g_slotAt n)) half) in
    if slots <? 1 then (n, false)
    else
      let n := n <| g_reach := shiftReach (g_reach n) slots |> <| g_slotAt := fadd (g_slotAt n) (of_Z slots) |> in
      let n := addTimeouts n slots in
      let n := if g_reach n =? 0 then staleWindow n else n in
      (nmea_updateInfo n (fun i => i <| k_Reach := g_reach n |> <| k_LastError := "NMEA timeout"%string |>), true).

(** ** Chronology *)

Definition in_sequence (stamp last : time) : bool := After stamp last && (Sub stamp last <=? nmeaEraJump).

Definition noteEra (n : NMEA) (stamp : time) : NMEA * bool :=
  let consistent := negb (IsZero (g_eraCandidate n)) && in_sequence stamp (g_eraCandidate n) in
  let n := n <| g_eraCount := (if consistent then g_eraCount n + 1 else 1) |> <| g_eraCandidate := stamp |> in
  (n, nmeaEraConfirm <=? g_eraCount n).

Definition chronologyOK (n : NMEA) (stamp : time) : NMEA * bool :=
  if IsZero (g_lastStamp n) then (n, true)
  else if in_sequence stamp (g_lastStamp n) then (n <| g_eraCandidate := zeroTime |> <| g_eraCount := 0 |>, true)
  else
    let '(n, corroborated) := noteEra n stamp in
    if negb corroborated then (n, false) else (staleWindow n, true).

(** ** A sentence *)

(** What is read of the rest of the daemon while a byte is handled: the epoch
    and the pulse tracker. *)
Record env : Type := mkEnv { e_gen : Z; e_pulse : PulseTracker }.

Definition sentenceKind (line : str) : str :=
  let line := TrimSpace line in
  if (length line <? 6)%nat || negb (nth 0 line 0 =? 36) then [] else slice 3 6 line.

Definition accepts (n : NMEA) (kind : str) : bool := bool_decide (kind ∈ nc_Sentences (g_cfg n)).

(** The status an intact sentence updates. *)
Definition noteSentence (n : NMEA) (s : nmeaSentence) (arrival : time) : NMEA :=
  nmea_updateInfo n (fun i => on_refclock (fun r =>
    let r := r <| r_Sentence := kind_text (ns_Kind s) |> <| r_LastSentence := arrival |> in
    match ns_Kind s with
    | RMC => r <| r_FixKnown := true |> <| r_FixValid := ns_Valid s |>
    | ZDA => r
    | GGA => r <| r_FixKnown := true |> <| r_FixValid := ns_Valid s |> <| r_FixQuality := ns_FixQuality s |>
               <| r_Satellites := ns_Satellites s |>
    end) (i <| k_LastError := ""%string |>)).

Definition GPS : RefID := RefIDFromString [71; 80; 83].

(** The lag of the sentence behind the pulse, when the pulse is recent. *)
Definition noteLag (n : NMEA) (arrival pulse : time) : NMEA :=
  if IsZero pulse then n
  else
    let sentenceLag := Seconds (Sub arrival pulse) in
    if fge sentenceLag fzero && flt sentenceLag (of_Z 2) then
      let n := n <| g_lags := append_bounded nmeaWindow (g_lags n) sentenceLag |> in
      nmea_updateInfo n (on_refclock (fun r =>
        r <| r_MeasuredLag := fst (medianMAD (g_lags n)) |> <| r_LagSamples := length (g_lags n) |>))
    else n.

(** The sentence that passed every check: it enters the window, and the median
    is reported. *)
Definition takeSentence (n : NMEA) (stamp arrival : time) (mono : f64) (lag : duration) (pulse : time) : NMEA * Measurement :=
  let offset := fadd (Seconds lag) (nc_Offset (g_cfg n)) in
  let n := noteArrival n mono in
  let n := n <| g_lastStamp := stamp |> <| g_eraCandidate := zeroTime |> <| g_eraCount := 0 |> in
  let n := n <| g_offsets := append_bounded nmeaWindow (g_offsets n) offset |> in
  let '(median, mad) := medianMAD (g_offsets n) in
  let sigma := fmul mad madScale in
  let precision := Log2Seconds (g_precision n) in
  let n := noteLag n arrival pulse in
  let valid := (4 <=? length (g_offsets n))%nat in
  let m := mkMeasurement (nc_Name (g_cfg n)) mono (g_reach n) nmeaPoll (g_lineGen n) valid true false 0 fzero false mono median
             fzero (fadd sigma precision) (fmax sigma precision) LeapNone 0 GPS fzero fzero (g_precision n) stamp GPS in
  (nmea_updateInfo n (fun i => on_refclock (fun r =>
     r <| r_WindowSamples := length (g_offsets n) |> <| r_WindowJitter := sigma |> <| r_Stable := valid |>
       <| r_Samples := u64 (r_Samples r + 1) |>)
     (i <| k_Reach := g_reach n |> <| k_LastRx := arrival |> <| k_LastError := ""%string |>
        <| k_Received := u64 (k_Received i + 1) |> <| k_Offset := median |> <| k_Delay := fzero |>
        <| k_Dispersion := m_Dispersion m |> <| k_Jitter := m_Jitter m |> <| k_Stratum := 0 |> <| k_RefID := GPS |>
        <| k_Leap := LeapNone |>)), m).

(** A sentence or a read that spans a clock step. *)
Definition noteStale (n : NMEA) : NMEA :=
  nmea_updateInfo (nmea_resetWindow (n <| g_staleSeen := u64 (g_staleSeen n + 1) |>))
    (fun i => i <| k_Stale := u64 (k_Stale i + 1) |>).

Definition discardChunk (n : NMEA) : NMEA := noteStale (n <| g_haveLine := false |>).

(** The start of the day of the build. *)
Definition buildDate (b : time) : time := timeDate (Year b) (Month b) (Day b) 0 0 0 0.

(** The checks from the chronology on. *)
Definition acceptStamp (n : NMEA) (stamp arrival : time) (mono : f64) (e : env) : NMEA * option Measurement :=
  let '(n, ok) := chronologyOK n stamp in
  if negb ok then (n, None)
  else if negb (g_lineGen n =? 0) && negb (e_gen e =? g_lineGen n) then (noteStale n, None)
  else
    let lag := Sub stamp arrival in
    if (lag =? 2 ^ 63 - 1) || (lag =? - 2 ^ 63)
    then (nmea_reject n "GPS timestamp is too far from the local clock to measure", None)
    else let '(n, m) := takeSentence n stamp arrival mono lag (latest (e_pulse e)) in (n, Some m).

Section Text.

(** The text of a parse error, for the status. *)
Variable errorText : NMEAError -> string.

Definition acceptLine (n : NMEA) (line : str) (arrival : time) (mono : f64) (e : env) : NMEA * option Measurement :=
  let kind := sentenceKind line in
  if negb (bool_decide (kind = kind_text RMC)) && negb (bool_decide (kind = kind_text ZDA)) &&
     negb (bool_decide (kind = kind_text GGA)) then (n, None)
  else
    match parseNMEA line with
    | Err err => (nmea_reject n (errorText err), None)
    | Ok s =>
        let n := noteSentence n s arrival in
        if bool_decide (ns_Kind s = GGA) then (n, None)
        else if negb (accepts n (kind_text (ns_Kind s))) || negb (ns_Valid s)
        then (if negb (ns_Valid s) then nmea_reject n "GPS fix is invalid" else n, None)
        else if ns_Fractional s then (nmea_reject n "GPS time sentence is not aligned to a whole second", None)
        else if negb (IsZero (nc_BuildTime (g_cfg n))) && Before (ns_Timestamp s) (buildDate (nc_BuildTime (g_cfg n)))
        then (nmea_reject n "GPS date predates this build; suspected GPS week rollover", None)
        else if bool_decide (ns_Kind s = ZDA)
        then acceptStamp (n <| g_lastZDASeen := mono |>) (ns_Timestamp s) arrival mono e
        else if accepts n (kind_text ZDA) && negb (feq (g_lastZDASeen n) fzero) &&
                flt (fsub mono (g_lastZDASeen n)) (lit 5 2)
        then (n, None)
        else acceptStamp n (ns_Timestamp s) arrival mono e
    end.

(** [consume]; every byte comes with what is read while it is handled. *)
Fixpoint consume (n : NMEA) (chunk : list (Z * env)) (wall : time) (mono : f64) (gen : Z) : NMEA * list Measurement :=
  match chunk with
  | [] => (n, [])
  | (b, e) :: rest =>
      if b =? 36 then
        consume (n <| g_line := [b] |> <| g_lineWall := wall |> <| g_lineMono := mono |> <| g_haveLine := true |>
                   <| g_lineGen := gen |>) rest wall mono gen
      else if negb (g_haveLine n) then consume n rest wall mono gen
      else if (b =? 10) || (b =? 13) then
        let '(n, m) :=
          if negb (length (g_line n) =? 0)%nat then acceptLine n (g_line n) (g_lineWall n) (g_lineMono n) e else (n, None) in
        let '(n, ms) := consume (n <| g_haveLine := false |>) rest wall mono gen in
        (n, match m with Some m => m :: ms | None => ms end)
      else if maxNMEALine <=? Z.of_nat (length (g_line n)) then
        consume (nmea_reject (n <| g_haveLine := false |>) "NMEA sentence exceeds maximum length") rest wall mono gen
      else consume (n <| g_line := g_line n ++ [b] |>) rest wall mono gen
  end.

(** ** The loop *)

(** [emit]. *)
Definition nmea_emit (n : NMEA) (m : Measurement) : NMEA * Measurement :=
  if g_pendingInvalidate n then (n <| g_pendingInvalidate := false |>, m <| m_Invalidate := true |>) else (n, m).

Fixpoint emit_all (n : NMEA) (ms : list Measurement) : NMEA * list Measurement :=
  match ms with
  | [] => (n, [])
  | m :: ms => let '(n, m) := nmea_emit n m in let '(n, ms) := emit_all n ms in (n, m :: ms)
  end.

Definition nmea_deviceLost (n : NMEA) : NMEA :=
  let n := nmea_resetWindow (n <| g_reach := 0 |> <| g_haveLine := false |> <| g_haveSlot := false |> <| g_lastZDASeen := fzero |>) in
  nmea_updateInfo n (fun i => i <| k_Reach := 0 |>).

(** [reopen], as [pps_reopen]. *)
Fixpoint nmea_reopen (n : NMEA) (backoff : duration) (attempts : list (option string)) : list duration * option NMEA :=
  match attempts with
  | [] => ([backoff], None)
  | None :: _ =>
      let n := nmea_resetWindow (n <| g_reach := 0 |> <| g_haveLine := false |> <| g_haveSlot := false |>) in
      ([backoff], Some (nmea_updateInfo n (fun i => i <| k_LastError := ""%string |> <| k_Reach := 0 |>)))
  | Some err :: rest =>
      let n := nmea_updateInfo n (fun i => i <| k_LastError := err |>) in
      let '(waits, r) := nmea_reopen n (next_backoff backoff) rest in
      (backoff :: waits, r)
  end.

Inductive read_result : Type :=
| ReadChunk (bytes : list (Z * env))
| ReadTimeout
| ReadError (err : string) (attempts : list (option string)).

(** One iteration: whether [Reset] was called since the last; the read; the
    epoch before and after the clock readings [ni_wall] and [ni_mono]; and what
    an empty measurement reads. *)
Record nmea_iteration : Type := mkNMEAIteration {
  ni_reset : bool;
  ni_read : read_result;
  ni_gen : Z;
  ni_wall : time;
  ni_mono : f64;
  ni_genAfter : Z;
  ni_now : f64;
  ni_genEmpty : Z
}.

Definition nmea_take_reset (n : NMEA) : NMEA :=
  if g_resetRequested n then nmea_resetWindow (n <| g_resetRequested := false |>) else n.

(** A tick, and the empty measurement it calls for. *)
Definition tick_emit (n : NMEA) (i : nmea_iteration) : NMEA * list Measurement :=
  let '(n, due) := nmea_tick n (ni_mono i) in
  if due then let '(n, m) := nmea_emit n (nmea_emptyMeasurement n (ni_now i) (ni_genEmpty i)) in (n, [m]) else (n, []).

Definition nmea_step (n : NMEA) (i : nmea_iteration) : option NMEA * list Measurement :=
  let n := nmea_take_reset (if ni_reset i then nmea_Reset n else n) in
  match ni_read i with
  | ReadChunk bytes =>
      let gen := ni_gen i in
      if negb (ni_genAfter i =? gen) || (negb (gen =? 0) && negb (StableEpoch gen)) then (Some (discardChunk n), [])
      else
        let '(n, ms) := consume n bytes (ni_wall i) (ni_mono i) gen in
        let '(n, ms) := emit_all n ms in
        let '(n, ms') := tick_emit n i in
        (Some n, ms ++ ms')
  | ReadTimeout => let '(n, ms) := tick_emit n i in (Some n, ms)
  | ReadError err attempts =>
      let n := nmea_deviceLost (nmea_updateInfo n (fun i => i <| k_LastError := err |>)) in
      let '(n, m) := nmea_emit n (nmea_emptyMeasurement n (ni_now i) (ni_genEmpty i)) in
      (snd (nmea_reopen n Second attempts), [m])
  end.

(** [Run]: the measurements of the iterations until it stops. *)
Fixpoint nmea_run (n : NMEA) (its : list nmea_iteration) : list Measurement * option NMEA :=
  match its with
  | [] => ([], Some n)
  | i :: rest =>
      match nmea_step n i with
      | (None, ms) => (ms, None)
      | (Some n, ms) => let '(ms', r) := nmea_run n rest in (ms ++ ms', r)
      end
  end.

End Text.

(** ** What the operations do to the window *)

Ltac gfields :=
  cbn [g_cfg g_precision g_resetRequested g_info g_reach g_offsets g_lags g_line g_lineWall g_lineMono g_lineGen g_eraCandidate g_eraCount g_pendingInvalidate g_staleSeen g_haveLine g_haveSlot g_slotAt g_lastStamp g_lastZDASeen set].

Ltac gfields_all :=
  cbn [g_cfg g_precision g_resetRequested g_info g_reach g_offsets g_lags g_line g_lineWall g_lineMono g_lineGen g_eraCandidate g_eraCount g_pendingInvalidate g_staleSeen g_haveLine g_haveSlot g_slotAt g_lastStamp g_lastZDASeen set] in *.

Definition line_same (n n' : NMEA) : Prop :=
  g_cfg n' = g_cfg n /\ g_precision n' = g_precision n /\ g_line n' = g_line n /\ g_lineWall n' = g_lineWall n /\
  g_lineMono n' = g_lineMono n /\ g_lineGen n' = g_lineGen n.

Definition window_same (n n' : NMEA) : Prop :=
  g_offsets n' = g_offsets n /\ g_lastStamp n' = g_lastStamp n /\ g_pendingInvalidate n' = g_pendingInvalidate n.

Definition window_empty (n : NMEA) : Prop := g_offsets n = [] /\ g_lastStamp n = zeroTime.

(** The window is kept, or emptied with an armed invalidation. *)
Definition kept_or_reset (n n' : NMEA) : Prop :=
  line_same n n' /\ (window_same n n' \/ window_empty n' /\ g_pendingInvalidate n' = true).

#[export] Instance kept_or_reset_preorder : PreOrder kept_or_reset.
Proof.
  split; [intros n; repeat split; left; done|].
  intros n1 n2 n3 [(A1 & A2 & A3 & A4 & A5 & A6) W1] [(B1 & B2 & B3 & B4 & B5 & B6) W2]. split.
  { unfold line_same. rewrite B1, B2, B3, B4, B5, B6. done. }
  destruct W2 as [(C1 & C2 & C3)|W2]; [|by right]. unfold window_same, window_empty in *. rewrite C1, C2, C3. done.
Qed.

Ltac kept := unfold kept_or_reset, line_same, window_same, window_empty, nmea_updateInfo in *; gfields_all; naive_solver.

Lemma kept_update n f : kept_or_reset n (nmea_updateInfo n f).
Proof. destruct n. kept. Qed.

Lemma kept_reject n msg : kept_or_reset n (nmea_reject n msg).
Proof. apply kept_update. Qed.

(** Updates of fields that are neither the window's nor the line's. *)
Lemma kept_reach n v : kept_or_reset n (n <| g_reach := v |>).
Proof. destruct n. kept. Qed.
Lemma kept_haveLine n v : kept_or_reset n (n <| g_haveLine := v |>).
Proof. destruct n. kept. Qed.
Lemma kept_slot n h a : kept_or_reset n (n <| g_haveSlot := h |> <| g_slotAt := a |>).
Proof. destruct n. kept. Qed.
Lemma kept_slotAt n a : kept_or_reset n (n <| g_slotAt := a |>).
Proof. destruct n. kept. Qed.
Lemma kept_era n c k : kept_or_reset n (n <| g_eraCount := k |> <| g_eraCandidate := c |>).
Proof. destruct n. kept. Qed.
Lemma kept_zda n v : kept_or_reset n (n <| g_lastZDASeen := v |>).
Proof. destruct n. kept. Qed.
Lemma kept_stale n v : kept_or_reset n (n <| g_staleSeen := v |>).
Proof. destruct n. kept. Qed.
Lemma kept_lags n v : kept_or_reset n (n <| g_lags := v |>).
Proof. destruct n. kept. Qed.
Lemma kept_reset_flag n v : kept_or_reset n (n <| g_resetRequested := v |>).
Proof. destruct n. kept. Qed.

Lemma resetWindow_empty n :
  line_same n (nmea_resetWindow n) /\ window_empty (nmea_resetWindow n) /\ g_pendingInvalidate (nmea_resetWindow n) = true /\
  g_haveLine (nmea_resetWindow n) = g_haveLine n.
Proof. unfold nmea_resetWindow. destruct n. kept. Qed.

Lemma kept_resetWindow n : kept_or_reset n (nmea_resetWindow n).
Proof. destruct (resetWindow_empty n) as (? & ? & ? & _). split; [done|by right]. Qed.

Create HintDb nmea.
#[export] Hint Resolve kept_update kept_reject kept_reach kept_haveLine kept_slot kept_slotAt kept_era kept_zda kept_stale
  kept_lags kept_reset_flag kept_resetWindow : nmea.

(** Reduce a goal on a composition to goals on its steps. *)
Ltac kept_step x := transitivity x; [try (unfold x); solve [auto with nmea]|]; try clearbody x.

Lemma kept_staleWindow n : kept_or_reset n (staleWindow n).
Proof. unfold staleWindow. case_goal; [reflexivity|auto with nmea]. Qed.

Lemma kept_addTimeouts n c : kept_or_reset n (addTimeouts n c).
Proof. apply kept_update. Qed.

#[export] Hint Resolve kept_staleWindow kept_addTimeouts : nmea.

Lemma kept_noteArrival n now : kept_or_reset n (noteArrival n now).
Proof.
  unfold noteArrival. case_goal; [kept_step (n <| g_reach := 1 |>); auto with nmea|]. case_goal; [auto with nmea|].
  set (slots := ffloor _). set (n1 := if reachBits <=? slots then _ else _).
  assert (kept_or_reset n n1) as H1 by (unfold n1; case_goal; [auto with nmea|reflexivity]).
  transitivity n1; [done|]. clearbody n1. set (n2 := n1 <| g_reach := _ |>). transitivity n2; [unfold n2; auto with nmea|].
  case_goal; [transitivity (addTimeouts n2 (slots - 1))|]; auto with nmea.
Qed.

Lemma kept_tick n now : kept_or_reset n (fst (nmea_tick n now)).
Proof.
  unfold nmea_tick. case_goal; cbn [fst]; [auto with nmea|]. case_goal; cbn [fst]; [reflexivity|].
  set (slots := ffloor _). kept_step (n <| g_reach := shiftReach (g_reach n) slots |>).
  set (n1 := n <| g_reach := _ |>). change (g_slotAt n) with (g_slotAt n1). clearbody n1.
  set (n2 := n1 <| g_slotAt := _ |>). transitivity n2; [unfold n2; auto with nmea|]. clearbody n2.
  set (n3 := addTimeouts n2 slots). transitivity n3; [unfold n3; auto with nmea|]. clearbody n3.
  set (n4 := if g_reach n3 =? 0 then _ else _). transitivity n4; [unfold n4; case_goal; [auto with nmea|reflexivity]|].
  auto with nmea.
Qed.

Lemma kept_noteStale n : kept_or_reset n (noteStale n).
Proof.
  unfold noteStale. set (n1 := n <| g_staleSeen := _ |>). kept_step n1. kept_step (nmea_resetWindow n1). auto with nmea.
Qed.

Lemma kept_noteLag n a p : kept_or_reset n (noteLag n a p).
Proof.
  unfold noteLag. case_goal; [reflexivity|]. case_goal; [|reflexivity]. set (n1 := n <| g_lags := _ |>). kept_step n1. auto with nmea.
Qed.

Lemma kept_noteSentence n s a : kept_or_reset n (noteSentence n s a).
Proof. apply kept_update. Qed.

#[export] Hint Resolve kept_noteArrival kept_tick kept_noteStale kept_noteLag kept_noteSentence : nmea.

Lemma kept_noteEra n stamp : kept_or_reset n (fst (noteEra n stamp)).
Proof. unfold noteEra. cbn [fst]. auto with nmea. Qed.

(** There is a watermark exactly when there is a window. *)
Definition stamped (n : NMEA) : Prop := g_lastStamp n = zeroTime <-> g_offsets n = [].

Lemma stamped_kept n n' : kept_or_reset n n' -> stamped n -> stamped n'.
Proof.
  intros [_ [(H1 & H2 & _)|[[H1 H2] _]]]; unfold stamped; [by rewrite H1, H2|]. by rewrite H1, H2.
Qed.

(** An accepted stamp follows the watermark, if there still is one. *)
Lemma chronology_spec n stamp n' ok :
  chronologyOK n stamp = (n', ok) -> stamped n ->
  kept_or_reset n n' /\ (ok = true -> window_empty n' \/ in_sequence stamp (g_lastStamp n') = true).
Proof.
  unfold chronologyOK. intros E Hs. destruct (IsZero (g_lastStamp n)) eqn:Ez.
  { injection E as <- <-. split; [reflexivity|]. intros _. left. unfold IsZero in Ez. bool_step. split; [by apply Hs|done]. }
  destruct (in_sequence stamp (g_lastStamp n)) eqn:Eq.
  { injection E as <- <-. split; [|intros _; right; by destruct n]. destruct n. kept. }
  pose proof (kept_noteEra n stamp) as Hk. destruct (noteEra n stamp) as [n1 c]. cbn [fst] in Hk. destruct c; cbn [negb] in E.
  - injection E as <- <-. split; [kept_step n1; auto with nmea|]. intros _. left. unfold staleWindow.
    destruct (length (g_offsets n1) =? 0)%nat eqn:El; [|by apply resetWindow_empty].
    bool_step. apply nil_length_inv in El. split; [done|]. by apply (stamped_kept _ _ Hk Hs).
  - injection E as <- <-. by split.
Qed.

(** ** Observations *)

(** A sentence in the window: its text, the wall clock and the epoch of the
    read that delivered its dollar sign, and the instant it names. *)
Record observation : Type := mkObservation { ob_line : str; ob_arrival : time; ob_gen : Z; ob_stamp : time }.

Definition ob_offset (c : NMEAConfig) (o : observation) : f64 :=
  fadd (Seconds (Sub (ob_stamp o) (ob_arrival o))) (nc_Offset c).

(** The sentence was good: a time sentence of a configured kind with a valid
    fix, on a whole second, not before the day of the build, and close enough
    to the local clock for the offset to be exact. *)
Definition good_sentence (c : NMEAConfig) (o : observation) : Prop :=
  exists s, parseNMEA (ob_line o) = Ok s /\ ns_Kind s <> GGA /\ kind_text (ns_Kind s) ∈ nc_Sentences c /\
    ns_Valid s = true /\ ns_Fractional s = false /\ ns_Timestamp s = ob_stamp o /\
    (nc_BuildTime c = zeroTime \/ buildDate (nc_BuildTime c) <= ob_stamp o) /\
    - 2 ^ 63 < ob_stamp o - ob_arrival o < 2 ^ 63 - 1.

(** Each stamp is after the one before it, by no more than the era jump. *)
Fixpoint chained (obs : list observation) : Prop :=
  match obs with
  | a :: (b :: _) as r => ob_stamp a < ob_stamp b <= ob_stamp a + nmeaEraJump /\ chained r
  | _ => True
  end.

Lemma chained_snoc obs a o :
  chained (obs ++ [a]) -> ob_stamp a < ob_stamp o <= ob_stamp a + nmeaEraJump -> chained ((obs ++ [a]) ++ [o]).
Proof.
  induction obs as [|x obs IH]; [done|]. cbn [app]. destruct obs as [|y obs]; cbn [app chained] in *; [naive_solver|].
  intros [H1 H2] H. split; [done|]. by apply IH.
Qed.

Lemma chained_tail x obs : chained (x :: obs) -> chained obs.
Proof. destruct obs; [done|]. by intros [_ H]. Qed.

Section Window.

Context (c : NMEAConfig) (R : time -> Z -> Prop) (Q : Z -> Prop).

(** The window is a chain of good sentences read in epochs [Q], each with an
    arrival that [R] vouches for. *)
Record tracks (obs : list observation) (n : NMEA) : Prop := {
  tr_cfg : g_cfg n = c;
  tr_offsets : g_offsets n = ob_offset c <$> obs;
  tr_length : (length obs <= nmeaWindow)%nat;
  tr_stamp : g_lastStamp n = match last obs with Some o => ob_stamp o | None => zeroTime end;
  tr_good : Forall (fun o => good_sentence c o /\ R (ob_arrival o) (ob_gen o) /\ Q (ob_gen o)) obs;
  tr_chain : chained obs
}.

(** What a valid measurement rests on. *)
Definition sound_estimate (m : Measurement) : Prop :=
  exists obs o, last obs = Some o /\ (4 <= length obs <= nmeaWindow)%nat /\ chained obs /\
    Forall (fun o => good_sentence c o /\ R (ob_arrival o) (ob_gen o) /\ Q (ob_gen o)) obs /\
    m_Offset m = fst (medianMAD (ob_offset c <$> obs)) /\ m_RefTime m = ob_stamp o /\ m_Generation m = ob_gen o /\
    Z.odd (m_Reach m) = true.

Lemma good_stamp o : good_sentence c o -> ob_stamp o <> zeroTime.
Proof.
  intros (s & Hp & Hk & _ & _ & _ & <- & _). apply parse_accepts in Hp as (body & _ & _ & _ & _ & _ & _ & _ & _ & _ & Hf).
  apply parse_fields_time in Hf as (h & m & sec & ns & _ & _ & _ & _ & _ & _ & Hy); [|done].
  intros E. rewrite E in Hy. assert (Year zeroTime = 1) as Hz by (vm_compute; reflexivity). rewrite Hz in Hy. lia.
Qed.

Lemma tracks_stamped obs n : tracks obs n -> stamped n.
Proof.
  intros [_ Ho _ Hs Hg _]. unfold stamped. rewrite Ho, Hs. destruct obs as [|o obs _] using rev_ind; [done|].
  rewrite last_snoc, fmap_app. apply Forall_app in Hg as [_ Hg]. apply Forall_cons_1 in Hg as [[Hg _] _]. apply good_stamp in Hg.
  split; [done|]. by destruct (ob_offset c <$> obs).
Qed.

Lemma tracks_empty n : g_cfg n = c -> window_empty n -> tracks [] n.
Proof. intros Hc [H1 H2]. by constructor; [| |apply Nat.le_0_l| |constructor|]. Qed.

Lemma tracks_kept obs n n' : kept_or_reset n n' -> tracks obs n -> tracks obs n' \/ window_empty n' /\ tracks [] n'.
Proof.
  intros [(Hc & _) Hw] [T1 T2 T3 T4 T5 T6]. destruct Hw as [(H1 & H2 & _)|[He _]].
  - left. constructor; congruence.
  - right. split; [done|]. apply tracks_empty; [congruence|done].
Qed.

End Window.

Lemma append_bounded_fmap {A B} (f : A -> B) max l x : append_bounded max (f <$> l) (f x) = f <$> append_bounded max l x.
Proof. unfold append_bounded. rewrite length_fmap. case_goal; by rewrite fmap_app, ?fmap_drop. Qed.

Lemma append_bounded_last {A} max (l : list A) x : last (append_bounded max l x) = Some x.
Proof. unfold append_bounded. case_goal; apply last_snoc. Qed.

Lemma append_bounded_Forall {A} (P : A -> Prop) max l x : Forall P l -> P x -> Forall P (append_bounded max l x).
Proof.
  intros Hl Hx. unfold append_bounded. case_goal; apply Forall_app; (split; [|by constructor]); [by apply Forall_drop|done].
Qed.

Lemma in_sequence_spec stamp last : in_sequence stamp last = true <-> last < stamp <= last + nmeaEraJump.
Proof.
  unfold in_sequence, After, Sub, nmeaEraJump, Hour, Minute, Second. rewrite andb_true_iff, Z.ltb_lt, Z.leb_le. lia.
Qed.

Lemma append_bounded_chained max obs o :
  chained obs -> match last obs with Some a => ob_stamp a < ob_stamp o <= ob_stamp a + nmeaEraJump | None => True end ->
  chained (append_bounded max obs o).
Proof.
  intros Hc Hl. assert (chained (obs ++ [o])) as H.
  { destruct obs as [|a obs _] using rev_ind; [done|]. rewrite last_snoc in Hl. by apply chained_snoc. }
  unfold append_bounded. case_goal; [|done]. destruct obs as [|x obs]; [done|]. by apply chained_tail in H.
Qed.

Lemma noteLag_same n a p : line_same n (noteLag n a p) /\ window_same n (noteLag n a p) /\ g_reach (noteLag n a p) = g_reach n /\
  g_haveLine (noteLag n a p) = g_haveLine n.
Proof. unfold noteLag. destruct n. repeat case_goal; kept. Qed.

Lemma odd_lor_1 x : Z.odd (Z.lor x 1) = true.
Proof. rewrite <- Z.bit0_odd, Z.lor_spec. apply orb_true_r. Qed.

Lemma noteArrival_reach n now : Z.odd (g_reach (noteArrival n now)) = true.
Proof.
  unfold noteArrival. case_goal; [by destruct n|]. case_goal; [destruct n; apply odd_lor_1|].
  set (n1 := if reachBits <=? _ then _ else _). clearbody n1. unfold addTimeouts, nmea_updateInfo.
  case_goal; destruct n1; apply odd_lor_1.
Qed.

(** What [takeSentence] leaves, in terms of the state after [noteArrival]. *)
Lemma takeSentence_eqs n stamp arrival mono lag pulse n' m :
  takeSentence n stamp arrival mono lag pulse = (n', m) ->
  let n1 := noteArrival n mono in
  line_same n1 n' /\ g_offsets n' = append_bounded nmeaWindow (g_offsets n1) (fadd (Seconds lag) (nc_Offset (g_cfg n))) /\
  g_lastStamp n' = stamp /\ g_pendingInvalidate n' = g_pendingInvalidate n1 /\
  m_Valid m = (4 <=? length (g_offsets n'))%nat /\ m_Invalidate m = false /\ m_Acquired m = true /\
  m_Offset m = fst (medianMAD (g_offsets n')) /\ m_RefTime m = stamp /\ m_Generation m = g_lineGen n1 /\
  m_Reach m = g_reach n1.
Proof.
  unfold takeSentence. cbv zeta. set (n1 := noteArrival n mono). clearbody n1. set (off := fadd _ _). clearbody off.
  set (n2 := _ <| g_offsets := _ |>).
  assert (line_same n1 n2 /\ g_offsets n2 = append_bounded nmeaWindow (g_offsets n1) off /\ g_lastStamp n2 = stamp /\
    g_pendingInvalidate n2 = g_pendingInvalidate n1 /\ g_reach n2 = g_reach n1) as (L2 & O2 & S2 & P2 & R2)
    by (unfold n2; destruct n1; kept).
  clearbody n2. destruct (medianMAD (g_offsets n2)) as [md mad] eqn:Em.
  destruct (noteLag_same n2 arrival pulse) as (L3 & (O3 & S3 & P3) & R3 & _).
  set (n3 := noteLag n2 arrival pulse) in *. clearbody n3. intros E. apply pair_equal_spec in E as [<- <-].
  unfold nmea_updateInfo. gfields. cbn [m_Valid m_Invalidate m_Acquired m_Offset m_RefTime m_Generation m_Reach].
  destruct L2 as (A1 & A2 & A3 & A4 & A5 & A6), L3 as (B1 & B2 & B3 & B4 & B5 & B6).
  split; [unfold line_same; gfields; repeat apply conj; congruence|]. rewrite O3, S3, P3, O2, S2, P2, R3, R2, B6, A6.
  rewrite O2 in Em. rewrite Em. done.
Qed.

Lemma take_spec c R Q obs n line stamp arrival mono pulse n' m :
  tracks c R Q obs n -> Q (g_lineGen n) -> R arrival (g_lineGen n) ->
  good_sentence c (mkObservation line arrival (g_lineGen n) stamp) ->
  window_empty n \/ in_sequence stamp (g_lastStamp n) = true ->
  takeSentence n stamp arrival mono (Sub stamp arrival) pulse = (n', m) ->
  (exists obs', tracks c R Q obs' n') /\ line_same n n' /\ (m_Valid m = true -> sound_estimate c R Q m) /\
  m_Valid m = (4 <=? length (g_offsets n'))%nat /\ m_Invalidate m = false /\ m_Acquired m = true /\
  (g_pendingInvalidate n' = false -> g_pendingInvalidate n = false) /\
  ((g_pendingInvalidate n = true -> g_offsets n = []) -> g_pendingInvalidate n' = true -> (length (g_offsets n') <= 1)%nat).
Proof.
  intros Ht Hg HR Hgood Hseq E. apply takeSentence_eqs in E.
  pose proof (kept_noteArrival n mono) as Hk. pose proof (noteArrival_reach n mono) as Hreach.
  set (n1 := noteArrival n mono) in *. cbv zeta in E. clearbody n1.
  destruct E as (L & O & S & P & V & I & A & MO & MR & MG & MRe).
  assert (exists obs1, tracks c R Q obs1 n1 /\
    match last obs1 with Some a => ob_stamp a < stamp <= ob_stamp a + nmeaEraJump | None => True end) as (obs1 & T1 & Hl).
  { destruct (tracks_kept c R Q obs n n1 Hk Ht) as [T1|[_ T1]]; [|by exists []]. exists obs. split; [done|].
    destruct Ht as [_ To _ Ts _ _]. destruct Hseq as [[He _]|Hseq].
    - rewrite He in To. symmetry in To. by apply fmap_nil_inv in To as ->.
    - rewrite Ts in Hseq. destruct (last obs); [|done]. by apply in_sequence_spec. }
  set (o := mkObservation line arrival (g_lineGen n) stamp) in *.
  assert (tracks c R Q (append_bounded nmeaWindow obs1 o) n') as T'.
  { destruct T1 as [C1 C2 C3 C4 C5 C6]. destruct L as (L1 & _). constructor.
    - congruence.
    - rewrite O, C2, <- append_bounded_fmap. do 2 f_equal. by rewrite (tr_cfg _ _ _ _ _ Ht).
    - apply append_bounded_length; [unfold nmeaWindow; lia|done].
    - by rewrite append_bounded_last.
    - apply append_bounded_Forall; done.
    - by apply append_bounded_chained. }
  destruct Hk as [HL Hw].
  split; [by eexists|]. split.
  { destruct L as (L1 & L2 & L3 & L4 & L5 & L6), HL as (K1 & K2 & K3 & K4 & K5 & K6).
    unfold line_same. rewrite L1, L2, L3, L4, L5, L6. done. }
  split.
  { intros Hv. rewrite V in Hv. apply Nat.leb_le in Hv. rewrite (tr_offsets _ _ _ _ _ T'), length_fmap in Hv.
    exists (append_bounded nmeaWindow obs1 o), o. split; [apply append_bounded_last|].
    split; [pose proof (tr_length _ _ _ _ _ T'); lia|]. split; [apply T'|]. split; [apply T'|].
    split; [by rewrite MO, (tr_offsets _ _ _ _ _ T')|]. split; [done|]. split; [|by rewrite MRe].
    rewrite MG. destruct HL as (_ & _ & _ & _ & _ & ->). done. }
  split; [done|]. split; [done|]. split; [done|]. rewrite P. split.
  - destruct Hw as [(_ & _ & ->)|[_ ->]]; done.
  - intros Hp Hn. assert (g_offsets n1 = []) as Hz.
    { destruct Hw as [(H1 & _ & H3)|[[H1 _] _]]; [rewrite H1; apply Hp; congruence|done]. }
    rewrite O, Hz. cbn. lia.
Qed.

Lemma line_same_trans n1 n2 n3 : line_same n1 n2 -> line_same n2 n3 -> line_same n1 n3.
Proof.
  intros (A1 & A2 & A3 & A4 & A5 & A6) (B1 & B2 & B3 & B4 & B5 & B6). unfold line_same.
  rewrite B1, B2, B3, B4, B5, B6. done.
Qed.

(** A sentence was taken: what the measurement says, and what it leaves of a
    pending invalidation. *)
Definition taken (c : NMEAConfig) (R : time -> Z -> Prop) (Q : Z -> Prop) (n n' : NMEA) (m : Measurement) : Prop :=
  (m_Valid m = true -> sound_estimate c R Q m) /\
  m_Valid m = (4 <=? length (g_offsets n'))%nat /\ m_Invalidate m = false /\ m_Acquired m = true /\
  (g_pendingInvalidate n' = false -> g_pendingInvalidate n = false) /\
  ((g_pendingInvalidate n = true -> g_offsets n = []) -> g_pendingInvalidate n' = true -> (length (g_offsets n') <= 1)%nat).

Definition line_outcome (c : NMEAConfig) (R : time -> Z -> Prop) (Q : Z -> Prop) (n n' : NMEA) (om : option Measurement) : Prop :=
  (exists obs, tracks c R Q obs n') /\ line_same n n' /\
  match om with None => kept_or_reset n n' | Some m => taken c R Q n n' m end.

Lemma outcome_quiet c R Q obs n n' : tracks c R Q obs n -> kept_or_reset n n' -> line_outcome c R Q n n' None.
Proof.
  intros Ht Hk. split; [|split; [apply Hk|done]]. destruct (tracks_kept c R Q obs n n' Hk Ht) as [?|[_ ?]]; by eexists.
Qed.

(** Quiet steps before an outcome. *)
Lemma outcome_after c R Q n n1 n' om : kept_or_reset n n1 -> line_outcome c R Q n1 n' om -> line_outcome c R Q n n' om.
Proof.
  intros Hk (Ho & Hl & Hm). split; [done|]. split; [eapply line_same_trans; [apply Hk|done]|].
  destruct om as [m|]; [|by transitivity n1]. destruct Hm as (M1 & M2 & M3 & M4 & M5 & M6).
  repeat (split; [assumption|]). destruct Hk as [_ Hw]. split.
  - intros H. apply M5 in H. destruct Hw as [(_ & _ & <-)|[_ Hp]]; [done|congruence].
  - intros Hn. apply M6. destruct Hw as [(-> & _ & ->)|[[He _] _]]; [done|]. by intros _.
Qed.

Lemma acceptStamp_spec c R Q obs n line stamp arrival mono e n' om s :
  tracks c R Q obs n -> R arrival (g_lineGen n) -> (g_lineGen n = 0 \/ e_gen e = g_lineGen n -> Q (g_lineGen n)) ->
  parseNMEA line = Ok s -> ns_Kind s <> GGA -> kind_text (ns_Kind s) ∈ nc_Sentences c -> ns_Valid s = true ->
  ns_Fractional s = false -> ns_Timestamp s = stamp ->
  (nc_BuildTime c = zeroTime \/ buildDate (nc_BuildTime c) <= stamp) ->
  acceptStamp n stamp arrival mono e = (n', om) -> line_outcome c R Q n n' om.
Proof.
  intros Ht HR Hgen P1 P2 P3 P4 P5 P6 P7. unfold acceptStamp.
  destruct (chronologyOK n stamp) as [n1 ok] eqn:Ec. pose proof (tracks_stamped _ _ _ _ _ Ht) as Hs.
  destruct (chronology_spec _ _ _ _ Ec Hs) as [Hk Hok].
  assert (exists obs1, tracks c R Q obs1 n1) as [obs1 T1]
    by (destruct (tracks_kept c R Q obs n n1 Hk Ht) as [?|[_ ?]]; by eexists).
  destruct ok; cbn [negb]; [|intros [= <- <-]; by eapply outcome_quiet]. specialize (Hok eq_refl).
  pose proof Hk as [(_ & _ & _ & _ & _ & Lg) _]. rewrite !Lg.
  destruct (negb (g_lineGen n =? 0) && negb (e_gen e =? g_lineGen n)) eqn:Eg.
  { intros [= <- <-]. apply (outcome_after _ _ _ _ n1); [done|]. eapply outcome_quiet; [done|auto with nmea]. }
  assert (Q (g_lineGen n)) as HQ.
  { apply Hgen. apply andb_false_iff in Eg as [Eg|Eg]; apply negb_false_iff, Z.eqb_eq in Eg; [by left|by right]. }
  rewrite <- Lg in HQ, HR. destruct ((Sub stamp arrival =? _) || _) eqn:El.
  { intros [= <- <-]. apply (outcome_after _ _ _ _ n1); [done|]. eapply outcome_quiet; [done|auto with nmea]. }
  destruct (takeSentence _ _ _ _ _ _) as [n2 m] eqn:Et. intros [= <- <-]. apply (outcome_after _ _ _ _ n1); [done|].
  eapply take_spec in Et; [|exact T1|exact HQ|exact HR| |exact Hok].
  - destruct Et as (T' & L' & Hrest). split; [done|]. split; [done|exact Hrest].
  - instantiate (1 := line). exists s. repeat (split; [assumption|]). unfold Sub in El. apply orb_false_iff in El as [E1 E2].
    apply Z.eqb_neq in E1, E2. cbn [ob_stamp ob_arrival]. lia.
Qed.

Lemma acceptLine_spec text c R Q obs n line arrival mono e n' om :
  tracks c R Q obs n -> R arrival (g_lineGen n) -> (g_lineGen n = 0 \/ e_gen e = g_lineGen n -> Q (g_lineGen n)) ->
  acceptLine text n line arrival mono e = (n', om) -> line_outcome c R Q n n' om.
Proof.
  intros Ht HR Hgen. unfold acceptLine. case_goal; [intros [= <- <-]; by eapply outcome_quiet|].
  destruct (parseNMEA line) as [s|err] eqn:Ep; [|intros [= <- <-]; eapply outcome_quiet; [done|auto with nmea]].
  pose proof (kept_noteSentence n s arrival) as Hk. set (n1 := noteSentence n s arrival) in *.
  assert (tracks c R Q obs n1) as T1 by (unfold n1, noteSentence, nmea_updateInfo; by destruct Ht; constructor; destruct n).
  assert (g_lineGen n1 = g_lineGen n) as Lg by apply Hk. clearbody n1. rewrite <- Lg in HR, Hgen.
  intros E. apply (outcome_after _ _ _ _ n1 _ _ Hk). clear Hk. revert E. destruct (bool_decide (ns_Kind s = GGA)) eqn:Egga; [intros [= <- <-]; by eapply outcome_quiet|].
  destruct (accepts n1 (kind_text (ns_Kind s))) eqn:Ea; cbn [negb orb];
    [|intros [= <- <-]; eapply outcome_quiet; [done|case_goal; [auto with nmea|reflexivity]]].
  destruct (ns_Valid s) eqn:Ev; cbn [negb]; [|intros [= <- <-]; eapply outcome_quiet; [done|auto with nmea]].
  destruct (ns_Fractional s) eqn:Ef; [intros [= <- <-]; eapply outcome_quiet; [done|auto with nmea]|].
  destruct (negb (IsZero _) && _) eqn:Eb; [intros [= <- <-]; eapply outcome_quiet; [done|auto with nmea]|].
  apply bool_decide_eq_false in Egga. unfold accepts in Ea. apply bool_decide_eq_true in Ea. rewrite (tr_cfg _ _ _ _ _ T1) in Ea, Eb.
  assert (nc_BuildTime c = zeroTime \/ buildDate (nc_BuildTime c) <= ns_Timestamp s) as Hb.
  { apply andb_false_iff in Eb as [Eb|Eb]; [left|right].
    - apply negb_false_iff in Eb. unfold IsZero in Eb. by apply Z.eqb_eq in Eb.
    - unfold Before in Eb. by apply Z.ltb_ge in Eb. }
  destruct (bool_decide (ns_Kind s = ZDA)) eqn:Ez.
  - intros E. apply (outcome_after _ _ _ _ (n1 <| g_lastZDASeen := mono |>)); [auto with nmea|].
    eapply acceptStamp_spec; [| | |exact Ep|done|exact Ea|exact Ev|exact Ef|reflexivity|exact Hb|exact E]; [|exact HR|exact Hgen].
    by destruct T1; constructor; destruct n1.
  - case_goal; [intros [= <- <-]; by eapply outcome_quiet|]. intros E.
    eapply acceptStamp_spec; [exact T1|exact HR|exact Hgen|exact Ep|done|exact Ea|exact Ev|exact Ef|reflexivity|exact Hb|exact E].
Qed.

(** ** Reads *)

Lemma tracks_frame c R g obs n n' :
  g_cfg n' = g_cfg n -> g_offsets n' = g_offsets n -> g_lastStamp n' = g_lastStamp n -> tracks c R g obs n -> tracks c R g obs n'.
Proof. intros H1 H2 H3 [T1 T2 T3 T4 T5 T6]. constructor; congruence. Qed.

(** The partial line was begun by a read that [R] vouches for, in an epoch
    [L]. *)
Definition line_ok (R : time -> Z -> Prop) (L : Z -> Prop) (n : NMEA) : Prop :=
  g_haveLine n = true -> R (g_lineWall n) (g_lineGen n) /\ L (g_lineGen n).

Definition sound_if_valid (c : NMEAConfig) (R : time -> Z -> Prop) (Q : Z -> Prop) (m : Measurement) : Prop :=
  m_Valid m = true -> sound_estimate c R Q m.

(** A line begun in an epoch [L] that passes the epoch check belongs to [Q]. *)
Definition admits (L Q : Z -> Prop) (e : env) : Prop := forall x, L x -> x = 0 \/ e_gen e = x -> Q x.

Lemma consume_sound text c R L Q wall mono gen chunk : forall obs n n' ms,
  tracks c R Q obs n -> line_ok R L n -> R wall gen -> L gen -> Forall (fun be => admits L Q be.2) chunk ->
  consume text n chunk wall mono gen = (n', ms) ->
  (exists obs', tracks c R Q obs' n') /\ line_ok R L n' /\ Forall (sound_if_valid c R Q) ms.
Proof.
  induction chunk as [|[b e] chunk IH]; intros obs n n' ms Ht Hl HR Hg He; cbn [consume].
  { intros [= <- <-]. split; [by eexists|]. by split. }
  apply Forall_cons_1 in He as [He1 He]. cbn [snd] in He1. case_goal.
  { eapply IH; [eapply tracks_frame; [| | |exact Ht]; by destruct n| |done|done|done].
    intros _. destruct n. split; [exact HR|exact Hg]. }
  destruct (g_haveLine n) eqn:Eh; cbn [negb]; [|by apply (IH obs)]. case_goal.
  { set (r := if negb (length (g_line n) =? 0)%nat then _ else _).
    assert (exists obs1, tracks c R Q obs1 r.1 /\ match r.2 with Some m => sound_if_valid c R Q m | None => True end) as (obs1 & T1 & Hm).
    { unfold r. case_goal; [|by exists obs]. destruct (Hl Eh) as [L1 L2].
      destruct (acceptLine text n (g_line n) (g_lineWall n) (g_lineMono n) e) as [n1 om] eqn:Ea.
      eapply acceptLine_spec in Ea; [|exact Ht|exact L1|exact (He1 _ L2)]. destruct Ea as ([obs1 T1] & _ & Hm). exists obs1.
      split; [exact T1|]. cbn [snd]. destruct om; [|done]. exact (proj1 Hm). }
    clearbody r. destruct r as [n1 om]. cbn [fst snd] in *. destruct (consume text _ chunk wall mono gen) as [n2 ms2] eqn:Er.
    intros [= <- <-]. apply (IH obs1) in Er as (H1 & H2 & H3); [| | |done..].
    - split; [done|]. split; [done|]. destruct om; [by constructor|done].
    - eapply tracks_frame; [| | |exact T1]; by destruct n1.
    - intros Hx. destruct n1. discriminate Hx. }
  case_goal; (eapply IH; [eapply tracks_frame; [| | |exact Ht]; by destruct n| |done|done|done]); destruct n; [done|exact Hl].
Qed.

Lemma emit_all_sound c R Q ms : forall n n' ms',
  emit_all n ms = (n', ms') -> Forall (sound_if_valid c R Q) ms ->
  line_same n n' /\ g_offsets n' = g_offsets n /\ g_lastStamp n' = g_lastStamp n /\ g_haveLine n' = g_haveLine n /\
  Forall (sound_if_valid c R Q) ms'.
Proof.
  induction ms as [|m ms IH]; intros n n' ms'; cbn [emit_all]; [intros [= <- <-] _; by repeat split|].
  destruct (nmea_emit n m) as [n1 m1] eqn:Em. destruct (emit_all n1 ms) as [n2 ms2] eqn:Er. intros [= <- <-] Hs.
  apply Forall_cons_1 in Hs as [Hm Hs]. destruct (IH _ _ _ Er Hs) as (A1 & A2 & A3 & A4 & A5).
  assert (line_same n n1 /\ g_offsets n1 = g_offsets n /\ g_lastStamp n1 = g_lastStamp n /\ g_haveLine n1 = g_haveLine n /\
    sound_if_valid c R Q m1) as (B1 & B2 & B3 & B4 & B5).
  { unfold nmea_emit in Em. destruct (g_pendingInvalidate n); apply pair_equal_spec in Em as [<- <-]; [|by repeat split].
    unfold line_same. destruct n, m. by repeat split. }
  split; [by eapply line_same_trans|]. split; [congruence|]. split; [congruence|]. split; [congruence|by constructor].
Qed.

Lemma line_ok_mono R (L L' : Z -> Prop) n : line_ok R L n -> (forall x, L x -> L' x) -> line_ok R L' n.
Proof. intros H Hle Hh. destruct (H Hh). split; [done|auto]. Qed.

(** Quiet steps keep an empty window empty. *)
Lemma kept_empty n n' : kept_or_reset n n' -> window_empty n -> window_empty n'.
Proof. intros [_ [(H1 & H2 & _)|[H _]]] [K1 K2]; [|done]. split; congruence. Qed.

(** ** The epoch contract *)

(** A chunk whose arrival lies in one settled epoch. *)
Definition settled (i : nmea_iteration) : bool :=
  (ni_genAfter i =? ni_gen i) && ((ni_gen i =? 0) || StableEpoch (ni_gen i)).

(** What the engine owes the source: the epochs it publishes never go back, and
    it has called [Reset] by the time a read sees an epoch other than the one
    the window was built in.  [last] is the last epoch seen and [g] the epoch of
    the window. *)
Fixpoint epoch_contract (last : Z) (g : option Z) (its : list nmea_iteration) : Prop :=
  match its with
  | [] => True
  | i :: rest =>
      let g := if ni_reset i then None else g in
      match ni_read i with
      | ReadChunk bytes =>
          0 < ni_gen i /\ last <= ni_gen i /\ Forall (fun be => ni_gen i <= e_gen be.2) bytes /\
          if settled i then (g = None \/ g = Some (ni_gen i)) /\ epoch_contract (ni_gen i) (Some (ni_gen i)) rest
          else epoch_contract (ni_gen i) None rest
      | ReadTimeout => epoch_contract last g rest
      | ReadError _ _ => epoch_contract last None rest
      end
  end.

Definition window_in (c : NMEAConfig) (R : time -> Z -> Prop) (Q : Z -> Prop) (n : NMEA) : Prop :=
  exists obs, tracks c R Q obs n.

Lemma window_in_kept c R Q n n' : kept_or_reset n n' -> window_in c R Q n -> window_in c R Q n'.
Proof. intros Hk [obs Ht]. destruct (tracks_kept c R Q obs n n' Hk Ht) as [?|[_ ?]]; by eexists. Qed.

Lemma window_in_mono c R (Q Q' : Z -> Prop) n : (forall x, Q x -> Q' x) -> window_in c R Q n -> window_in c R Q' n.
Proof.
  intros H [obs [T1 T2 T3 T4 T5 T6]]. exists obs. constructor; try done.
  eapply Forall_impl; [exact T5|]. intros o (? & ? & ?). auto.
Qed.

Lemma window_in_nowhere c R n : window_in c R (fun _ => False) n -> g_offsets n = [].
Proof.
  intros [[|o obs] [_ To _ _ Tg _]]; [done|]. by apply Forall_cons_1 in Tg as [(_ & _ & []) _].
Qed.

Lemma window_in_cfg c R Q n : window_in c R Q n -> g_cfg n = c.
Proof. intros [obs Ht]. apply Ht. Qed.

Lemma resetWindow_in c R Q n : g_cfg n = c -> window_in c R Q (nmea_resetWindow n).
Proof.
  intros Hc. destruct (resetWindow_empty n) as ((H & _) & H2 & _). exists []. apply tracks_empty; [congruence|done].
Qed.

(** The calls of [Reset] before an iteration: a requested one empties the
    window, so any epoch will do for it. *)
Lemma take_reset_in c R (Q Q' : Z -> Prop) L n (reset : bool) :
  window_in c R Q n -> line_ok R L n -> (reset = false -> forall x, Q x -> Q' x) ->
  let n' := nmea_take_reset (if reset then nmea_Reset n else n) in
  window_in c R Q' n' /\ line_ok R L n'.
Proof.
  intros Hw Hl HQ. pose proof (window_in_cfg _ _ _ _ Hw) as Hc. unfold nmea_take_reset.
  set (n0 := if reset then nmea_Reset n else n).
  assert (kept_or_reset n n0) as H0 by (unfold n0; destruct reset; [unfold nmea_Reset; auto with nmea|reflexivity]).
  destruct (g_resetRequested n0) eqn:Er.
  - set (n1 := n0 <| g_resetRequested := false |>). assert (kept_or_reset n n1) as H1 by (transitivity n0; [done|unfold n1; auto with nmea]).
    assert (g_haveLine n1 = g_haveLine n) as Hh by (unfold n1, n0; destruct reset; by destruct n).
    clearbody n1. pose proof H1 as [(C1 & _ & _ & W1 & _ & G1) _].
    split; [apply resetWindow_in; congruence|].
    destruct (resetWindow_empty n1) as ((_ & _ & _ & W2 & _ & G2) & _ & _ & Hh2).
    unfold line_ok. rewrite W2, G2, Hh2, W1, G1, Hh. exact Hl.
  - destruct reset; [exfalso; unfold n0, nmea_Reset in Er; by destruct n|]. split; [|done].
    eapply window_in_mono; [by apply HQ|exact Hw].
Qed.

Lemma emit_window n m n' m' :
  nmea_emit n m = (n', m') ->
  line_same n n' /\ g_offsets n' = g_offsets n /\ g_lastStamp n' = g_lastStamp n /\ g_haveLine n' = g_haveLine n /\
  m_Valid m' = m_Valid m /\ m_Invalidate m' = g_pendingInvalidate n || m_Invalidate m /\ g_pendingInvalidate n' = false.
Proof.
  unfold nmea_emit, line_same. destruct n, m. gfields. destruct g_pendingInvalidate0; intros E; apply pair_equal_spec in E as [<- <-];
    repeat split.
Qed.

Lemma window_in_frame c R Q n n' :
  line_same n n' -> g_offsets n' = g_offsets n -> g_lastStamp n' = g_lastStamp n -> window_in c R Q n -> window_in c R Q n'.
Proof. intros (Hc & _) Ho Hs [obs Ht]. exists obs. by eapply tracks_frame. Qed.

Lemma line_ok_frame R L n n' : line_same n n' -> g_haveLine n' = g_haveLine n -> line_ok R L n -> line_ok R L n'.
Proof. intros (_ & _ & _ & Hw & _ & Hg) Hh. unfold line_ok. by rewrite Hw, Hg, Hh. Qed.

Lemma tick_haveLine n now : g_haveLine (nmea_tick n now).1 = g_haveLine n.
Proof.
  unfold nmea_tick. case_goal; [by destruct n|]. case_goal; [done|]. cbn [fst]. unfold addTimeouts, nmea_updateInfo.
  set (n1 := n <| g_reach := _ |> <| g_slotAt := _ |>). assert (g_haveLine n1 = g_haveLine n) as <- by by destruct n.
  clearbody n1. set (n2 := n1 <| g_info := _ |>). assert (g_haveLine n2 = g_haveLine n1) as <- by by destruct n1. clearbody n2.
  unfold staleWindow. repeat case_goal; try (by destruct n2); (transitivity (g_haveLine (nmea_resetWindow n2)); [by destruct n2|apply resetWindow_empty]).
Qed.

(** A tick emits nothing valid. *)
Lemma tick_emit_in c R Q L n i n' ms :
  tick_emit n i = (n', ms) -> window_in c R Q n -> line_ok R L n ->
  window_in c R Q n' /\ line_ok R L n' /\ Forall (fun m => m_Valid m = false) ms.
Proof.
  unfold tick_emit. pose proof (kept_tick n (ni_mono i)) as Hk. pose proof (tick_haveLine n (ni_mono i)) as Hh.
  destruct (nmea_tick n (ni_mono i)) as [n1 due]. cbn [fst] in Hk, Hh. intros E Hw Hl.
  assert (window_in c R Q n1 /\ line_ok R L n1) as [W1 L1].
  { split; [by eapply window_in_kept|]. eapply line_ok_frame; [apply Hk|done|done]. }
  destruct due; [|by injection E as <- <-]. destruct (nmea_emit n1 _) as [n2 m] eqn:Ee. injection E as <- <-.
  apply emit_window in Ee as (A1 & A2 & A3 & A4 & A5 & _). split; [by eapply window_in_frame|].
  split; [by eapply line_ok_frame|]. by repeat constructor.
Qed.

Lemma reopen_in c R Q attempts : forall n b n',
  g_cfg n = c -> snd (nmea_reopen n b attempts) = Some n' -> window_in c R Q n' /\ g_haveLine n' = false /\ g_pendingInvalidate n' = true.
Proof.
  induction attempts as [|[err|] attempts IH]; intros n b n' Hc; cbn [nmea_reopen]; [done| |].
  - destruct (nmea_reopen _ _ attempts) as [w r] eqn:E. cbn [snd]. intros ->.
    eapply (IH _ (next_backoff b)); [|by rewrite E]. by destruct n.
  - cbn [snd]. set (n1 := n <| g_reach := 0 |> <| g_haveLine := false |> <| g_haveSlot := false |>).
    assert (g_cfg n1 = c /\ g_haveLine n1 = false) as [C1 C2] by (by destruct n).
    destruct (resetWindow_empty n1) as (_ & _ & H3 & H4). rewrite C2 in H4. intros [= <-].
    split; [|unfold nmea_updateInfo; by destruct (nmea_resetWindow n1)].
    eapply window_in_kept; [apply kept_update|]. by apply resetWindow_in.
Qed.

Lemma settled_spec i : negb (ni_genAfter i =? ni_gen i) || (negb (ni_gen i =? 0) && negb (StableEpoch (ni_gen i))) = negb (settled i).
Proof. unfold settled. by rewrite negb_andb, negb_orb. Qed.

(** The epoch of the window after an iteration, and the last epoch seen. *)
Definition window_epoch (g : option Z) (i : nmea_iteration) : option Z :=
  match ni_read i with
  | ReadChunk _ => if settled i then Some (ni_gen i) else None
  | ReadTimeout => if ni_reset i then None else g
  | ReadError _ _ => None
  end.
Definition last_epoch (last : Z) (i : nmea_iteration) : Z := match ni_read i with ReadChunk _ => ni_gen i | _ => last end.

Section Contract.

(** [P] says that the engine keeps the contract; the window and the line are in
    the epochs it allows whenever [P] holds. *)
Variable P : Prop.

Definition in_epoch (g : option Z) (x : Z) : Prop := P -> g = Some x.
Definition begun_by (last x : Z) : Prop := P -> 0 < x <= last.

Lemma nmea_step_sound text c R last g n i rest r ms :
  window_in c R (in_epoch g) n -> line_ok R (begun_by last) n -> (P -> epoch_contract last g (i :: rest)) ->
  (forall b, ni_read i = ReadChunk b -> settled i = true -> R (ni_wall i) (ni_gen i)) ->
  nmea_step text n i = (r, ms) ->
  (P -> epoch_contract (last_epoch last i) (window_epoch g i) rest) /\
  (forall n', r = Some n' -> window_in c R (in_epoch (window_epoch g i)) n' /\ line_ok R (begun_by (last_epoch last i)) n') /\
  Forall (fun m => m_Valid m = true -> settled i = true /\ sound_estimate c R (in_epoch (Some (ni_gen i))) m) ms.
Proof.
  intros Hw Hl Hc HR. unfold nmea_step, window_epoch, last_epoch. cbn [epoch_contract] in Hc.
  set (g0 := if ni_reset i then None else g) in *.
  destruct (take_reset_in c R _ (in_epoch g0) _ n (ni_reset i) Hw Hl) as (W0 & L0).
  { unfold g0. by intros ->. }
  set (n0 := nmea_take_reset _) in *. clearbody n0.
  destruct (ni_read i) as [bytes| |err attempts] eqn:Eread.
  - rewrite settled_spec. destruct (settled i) eqn:Es; cbn [negb].
    + assert (window_in c R (in_epoch (Some (ni_gen i))) n0) as [obs Ht].
      { eapply window_in_mono; [|exact W0]. intros x Hx HP. specialize (Hx HP).
        destruct (Hc HP) as (_ & _ & _ & [Hg|Hg] & _); congruence. }
      destruct (consume text n0 bytes _ _ _) as [n1 ms1] eqn:Ec.
      eapply (consume_sound _ c R (begun_by (ni_gen i))) in Ec as ([obs1 T1] & L1 & S1);
        [|exact Ht| |by eapply HR| |].
      * destruct (emit_all n1 ms1) as [n2 ms2] eqn:Ee. eapply emit_all_sound in Ee as (A1 & A2 & A3 & A4 & A5); [|exact S1].
        destruct (tick_emit n2 i) as [n3 ms3] eqn:Et.
        eapply (tick_emit_in c R (in_epoch (Some (ni_gen i))) (begun_by (ni_gen i))) in Et as (B1 & B2 & B3);
          [|eapply window_in_frame; [done..|by exists obs1]|by eapply line_ok_frame].
        intros [= <- <-]. split; [intros HP; by apply Hc|]. split; [by intros n' [= <-]|]. apply Forall_app. split.
        -- eapply List.Forall_impl; [|exact A5]. intros m Hm Hv. split; [done|by apply Hm].
        -- eapply List.Forall_impl; [|exact B3]. cbn. congruence.
      * eapply line_ok_mono; [exact L0|]. intros x Hx HP. specialize (Hx HP). destruct (Hc HP) as (_ & ? & _). lia.
      * intros HP. destruct (Hc HP) as (? & _). lia.
      * apply List.Forall_forall. intros be Hbe x Hx Hor HP. specialize (Hx HP).
        destruct (Hc HP) as (G1 & _ & G3 & _). rewrite List.Forall_forall in G3. specialize (G3 be Hbe). f_equal. lia.
    + intros [= <- <-]. split; [intros HP; by apply Hc|]. split; [|constructor]. intros n' [= <-]. unfold discardChunk, noteStale.
      set (n1 := n0 <| g_haveLine := false |> <| g_staleSeen := _ |>).
      assert (g_cfg n1 = c) as C1 by (rewrite <- (window_in_cfg _ _ _ _ W0); by destruct n0).
      assert (g_haveLine n1 = false) as Hh by by destruct n0. clearbody n1.
      split; [eapply window_in_kept; [apply kept_update|by apply resetWindow_in]|].
      destruct (resetWindow_empty n1) as (_ & _ & _ & H4). unfold line_ok, nmea_updateInfo.
      destruct (nmea_resetWindow n1). gfields_all. congruence.
  - destruct (tick_emit n0 i) as [n1 ms1] eqn:Et. eapply tick_emit_in in Et as (B1 & B2 & B3); [|done..].
    intros [= <- <-]. split; [done|]. split; [by intros n' [= <-]|]. eapply List.Forall_impl; [|exact B3]. cbn. congruence.
  - unfold nmea_deviceLost. set (n1 := nmea_updateInfo (nmea_resetWindow _) _).
    assert (g_cfg n1 = c) as C1 by (rewrite <- (window_in_cfg _ _ _ _ W0); by destruct n0). clearbody n1.
    destruct (nmea_emit n1 _) as [n2 m] eqn:Ee. apply emit_window in Ee as ((A0 & _) & _ & _ & _ & A5 & _).
    intros [= <- <-]. split; [done|]. split.
    + intros n' Hn'. apply (reopen_in c R (in_epoch None)) in Hn' as (H1 & H2 & _); [|congruence]. split; [done|]. intros Hx. congruence.
    + constructor; [|constructor]. rewrite A5. discriminate.
Qed.

Lemma nmea_run_sound text c R its : forall last g n ms r,
  window_in c R (in_epoch g) n -> line_ok R (begun_by last) n -> (P -> epoch_contract last g its) ->
  (forall i b, i ∈ its -> ni_read i = ReadChunk b -> settled i = true -> R (ni_wall i) (ni_gen i)) ->
  nmea_run text n its = (ms, r) ->
  Forall (fun m => m_Valid m = true -> exists i, i ∈ its /\ settled i = true /\
    sound_estimate c R (in_epoch (Some (ni_gen i))) m) ms.
Proof.
  induction its as [|i its IH]; intros last g n ms r Hw Hl Hc HR; cbn [nmea_run]; [intros [= <- <-]; constructor|].
  destruct (nmea_step text n i) as [o ms1] eqn:Es. eapply nmea_step_sound in Es as (C1 & H1 & S1);
    [|exact Hw|exact Hl|exact Hc|intros b; apply HR; by left].
  assert (Forall (fun m => m_Valid m = true -> exists j, j ∈ i :: its /\ settled j = true /\
    sound_estimate c R (in_epoch (Some (ni_gen j))) m) ms1) as S1'.
  { eapply List.Forall_impl; [|exact S1]. intros m Hm Hv. exists i. split; [by left|by apply Hm]. }
  destruct o as [n1|]; [|by intros [= <- <-]]. destruct (H1 n1 eq_refl) as [W1 L1].
  destruct (nmea_run text n1 its) as [ms2 r2] eqn:Er. intros [= <- <-]. apply Forall_app. split; [done|].
  eapply IH in Er; [|exact W1|exact L1|exact C1|intros j b Hj; apply HR; by right].
  eapply List.Forall_impl; [|exact Er]. intros m Hm Hv. destruct (Hm Hv) as (j & Hj & Hr). exists j. split; [by right|done].
Qed.

End Contract.

(** The arrival and epoch of a settled read of the run. *)
Definition read_of (its : list nmea_iteration) (wall : time) (gen : Z) : Prop :=
  exists i b, i ∈ its /\ ni_read i = ReadChunk b /\ settled i = true /\ ni_wall i = wall /\ ni_gen i = gen.

(** Claim C37: what a valid GPS measurement rests on.  In any run of the source
    (any bytes, epochs, resets, timeouts, lost and reopened devices) every
    measurement marked valid is the median of 4 to 16 sentences: each a
    checksum-valid RMC or ZDA of a configured kind with a valid fix, on a whole
    second, not before the build's day, measured against the arrival of its
    dollar sign in a settled read; each later than the one before by at most an
    hour, the last being the reported reference time; and the measurement is
    stamped with the epoch of the read that began the last of them.  The
    sentences are all of that one epoch in every run in which the engine has
    called Reset by the time a read sees an epoch other than the window's; when
    it has not, sentences of the epoch before can be among them. *)
Theorem nmea_estimate_sound text cfg precision its ms r m :
  nmea_run text (newNMEA cfg precision) its = (ms, r) -> m ∈ ms -> m_Valid m = true ->
  exists obs o, last obs = Some o /\ (4 <= length obs <= nmeaWindow)%nat /\ chained obs /\
    Forall (fun o => good_sentence cfg o /\ read_of its (ob_arrival o) (ob_gen o)) obs /\
    m_Offset m = fst (medianMAD (ob_offset cfg <$> obs)) /\ m_RefTime m = ob_stamp o /\
    m_Generation m = ob_gen o /\ Z.odd (m_Reach m) = true /\
    (epoch_contract 0 None its -> Forall (fun o => ob_gen o = m_Generation m) obs).
Proof.
  intros E Hm Hv. eapply (nmea_run_sound (epoch_contract 0 None its) text cfg (read_of its) its 0 None) in E.
  - rewrite List.Forall_forall in E. destruct (E m) as (i & _ & _ & obs & o & H1 & H2 & H3 & H4 & H5 & H6 & H7 & H8);
      [by apply list_elem_of_In|done|].
    exists obs, o. do 3 (split; [done|]).
    split; [eapply List.Forall_impl; [|exact H4]; intros x (? & ? & _); done|]. do 4 (split; [done|]).
    intros Hc. rewrite List.Forall_forall in H4 |- *. intros x Hx. destruct (H4 x Hx) as (_ & _ & Q1).
    destruct (H4 o) as (_ & _ & Q2); [by apply list_elem_of_In, last_Some_elem_of|].
    specialize (Q1 Hc). specialize (Q2 Hc). congruence.
  - exists []. by apply tracks_empty.
  - intros Hh. discriminate Hh.
  - done.
  - intros i b Hi Hb Hs. by exists i, b.
Qed.

(** ** What the selector holds *)

(** The selector's estimate is the window's, unless an invalidation is armed. *)
Definition view_ok (held : bool) (n : NMEA) : Prop :=
  if g_pendingInvalidate n then g_offsets n = [] else held = (4 <=? length (g_offsets n))%nat.

Lemma view_kept held n n' : kept_or_reset n n' -> view_ok held n -> view_ok held n'.
Proof. intros [_ [(H1 & _ & H3)|[[H1 _] H3]]]; unfold view_ok; [by rewrite H1, H3|]. by rewrite H3. Qed.

(** Emitting a measurement that carries no estimate. *)
Lemma view_emit_empty held n m n' m' :
  nmea_emit n m = (n', m') -> m_Valid m = false -> m_Invalidate m = false -> view_ok held n -> view_ok (view held m') n'.
Proof.
  intros E Hv Hi. apply emit_window in E as (_ & A2 & _ & _ & A5 & A6 & A7). unfold view_ok, view. rewrite A7, A5, A6, A2, Hv, Hi.
  destruct (g_pendingInvalidate n); cbn [orb]; [by intros ->|done].
Qed.

(** A taken sentence, as far as the selector is concerned. *)
Definition taken_view (n n' : NMEA) (m : Measurement) : Prop :=
  m_Valid m = (4 <=? length (g_offsets n'))%nat /\ m_Invalidate m = false /\
  (g_pendingInvalidate n' = false -> g_pendingInvalidate n = false /\ (length (g_offsets n) <= length (g_offsets n'))%nat) /\
  ((g_pendingInvalidate n = true -> g_offsets n = []) -> g_pendingInvalidate n' = true -> (length (g_offsets n') <= 1)%nat) /\
  (length (g_offsets n') <= nmeaWindow)%nat.

Definition view_outcome (n n' : NMEA) (om : option Measurement) : Prop :=
  match om with None => kept_or_reset n n' | Some m => (length (g_offsets n) <= nmeaWindow)%nat -> taken_view n n' m end.

Lemma view_after n n1 n' om : kept_or_reset n n1 -> view_outcome n1 n' om -> view_outcome n n' om.
Proof.
  intros Hk. destruct om as [m|]; cbn; [|by transitivity n1]. intros Hm Hlen. destruct Hk as [_ Hw].
  assert (length (g_offsets n1) <= nmeaWindow)%nat as H1 by (destruct Hw as [(-> & _)|[[-> _] _]]; [done|apply Nat.le_0_l]).
  destruct (Hm H1) as (M2 & M3 & M5 & M6 & M7). split; [done|]. split; [done|]. split; [|split; [|done]].
  - intros H. apply M5 in H as [Ha Hb]. destruct Hw as [(<- & _ & <-)|[_ Hp]]; [done|congruence].
  - intros Hn. apply M6. destruct Hw as [(-> & _ & ->)|[[He _] _]]; [done|]. by intros _.
Qed.

Lemma chronology_kept n stamp : kept_or_reset n (chronologyOK n stamp).1.
Proof.
  unfold chronologyOK. case_goal; [reflexivity|]. case_goal; [destruct n; kept|].
  pose proof (kept_noteEra n stamp) as Hk. destruct (noteEra n stamp) as [n1 c]. cbn [fst] in Hk.
  destruct c; cbn [negb fst]; [|done]. kept_step n1. auto with nmea.
Qed.

Lemma takeSentence_view n stamp arrival mono lag pulse n' m :
  takeSentence n stamp arrival mono lag pulse = (n', m) -> view_outcome n n' (Some m).
Proof.
  intros E Hlen. apply takeSentence_eqs in E. pose proof (kept_noteArrival n mono) as [_ Hw].
  set (n1 := noteArrival n mono) in *. clearbody n1. cbv zeta in E. destruct E as (_ & O & _ & P & V & I & _).
  assert (length (g_offsets n1) <= nmeaWindow)%nat as H1 by (destruct Hw as [(-> & _)|[[-> _] _]]; [done|apply Nat.le_0_l]).
  pose proof (append_bounded_length nmeaWindow (g_offsets n1) (fadd (Seconds lag) (nc_Offset (g_cfg n))) ltac:(unfold nmeaWindow; lia) H1) as (L1 & L2 & L3).
  split; [done|]. split; [done|]. rewrite P, O. destruct Hw as [(W1 & _ & W3)|[[W1 _] W3]]; (split; [|split; [|lia]]).
  - rewrite W1, W3 in *. done.
  - intros Hp Hn. rewrite W3 in Hn. apply Hp in Hn. rewrite W1, Hn. cbn. lia.
  - congruence.
  - intros _ _. rewrite W1. cbn. lia.
Qed.

Lemma acceptStamp_view n stamp arrival mono e n' om : acceptStamp n stamp arrival mono e = (n', om) -> view_outcome n n' om.
Proof.
  unfold acceptStamp. pose proof (chronology_kept n stamp) as Hk. destruct (chronologyOK n stamp) as [n1 ok]. cbn [fst] in Hk.
  case_goal; [by intros [= <- <-]|]. case_goal; [intros [= <- <-]; apply (view_after _ n1); [done|]; cbn; auto with nmea|].
  case_goal; [intros [= <- <-]; apply (view_after _ n1); [done|]; cbn; auto with nmea|].
  destruct (takeSentence _ _ _ _ _ _) as [n2 m] eqn:Et. intros [= <- <-]. apply (view_after _ n1); [done|]. by eapply takeSentence_view.
Qed.

Lemma acceptLine_view text n line arrival mono e n' om : acceptLine text n line arrival mono e = (n', om) -> view_outcome n n' om.
Proof.
  unfold acceptLine. case_goal; [intros [= <- <-]; unfold view_outcome; reflexivity|].
  destruct (parseNMEA line) as [s|err]; [|intros [= <- <-]; cbn; auto with nmea].
  intros E. apply (view_after _ (noteSentence n s arrival)); [auto with nmea|].
  generalize dependent (noteSentence n s arrival). clear n. intros n1.
  do 4 (case_goal; [intros [= <- <-]; unfold view_outcome; first [reflexivity | solve [auto with nmea] | case_goal; [auto with nmea|reflexivity]]|]).
  case_goal; [|case_goal; [intros [= <- <-]; unfold view_outcome; reflexivity|apply acceptStamp_view]].
  intros E. apply acceptStamp_view in E. by apply (view_after _ (n1 <| g_lastZDASeen := mono |>)); [auto with nmea|].
Qed.

(** How many lines a read can complete. *)
Fixpoint line_ends (have : bool) (chunk : list (Z * env)) : nat :=
  match chunk with
  | [] => 0
  | (b, _) :: rest =>
      if b =? 36 then line_ends true rest
      else if have && ((b =? 10) || (b =? 13)) then S (line_ends false rest)
      else line_ends have rest
  end.

Lemma window_len_kept n n' : kept_or_reset n n' -> (length (g_offsets n) <= nmeaWindow)%nat -> (length (g_offsets n') <= nmeaWindow)%nat.
Proof. intros [_ [(-> & _)|[[-> _] _]]]; [done|]. intros _. apply Nat.le_0_l. Qed.

Lemma consume_quiet text wall mono gen chunk : forall have n n' ms,
  line_ends have chunk = 0%nat -> (g_haveLine n = true -> have = true) ->
  consume text n chunk wall mono gen = (n', ms) -> ms = [] /\ window_same n n'.
Proof.
  induction chunk as [|[b e] chunk IH]; intros have n n' ms H0 Hh; cbn [consume]; [by intros [= <- <-]|]. cbn [line_ends] in H0.
  destruct (b =? 36).
  { intros E. apply (IH true) in E as [-> E]; [|done|done]. split; [done|]. by destruct n. }
  destruct (g_haveLine n) eqn:Eh; cbn [negb]; [|destruct (have && _); [done|by apply (IH have); [|congruence]]].
  rewrite (Hh eq_refl) in *. cbn [andb] in H0. destruct ((b =? 10) || (b =? 13)); [done|].
  case_goal; intros E; (apply (IH true) in E as [-> E]; [|done|done]; split; [done|]; by destruct n).
Qed.

(** A read that completes at most one line. *)
Lemma consume_one text wall mono gen chunk : forall have n n' ms,
  (line_ends have chunk <= 1)%nat -> (g_haveLine n = true -> have = true) -> consume text n chunk wall mono gen = (n', ms) ->
  ms = [] /\ (window_same n n' \/ window_empty n' /\ g_pendingInvalidate n' = true) \/
  exists m, ms = [m] /\ ((length (g_offsets n) <= nmeaWindow)%nat -> taken_view n n' m).
Proof.
  induction chunk as [|[b e] chunk IH]; intros have n n' ms H1 Hh; cbn [consume]; [intros [= <- <-]; left; split; [done|by left]|].
  cbn [line_ends] in H1. destruct (b =? 36).
  { intros E. apply (IH true) in E; [|done|done]. unfold window_same, taken_view in *. destruct n. exact E. }
  destruct (g_haveLine n) eqn:Eh; cbn [negb].
  2:{ destruct (have && _); [apply (IH false); [lia|congruence]|by apply (IH have); [|congruence]]. }
  rewrite (Hh eq_refl) in *. cbn [andb] in H1. destruct ((b =? 10) || (b =? 13)).
  - set (r := if negb (length (g_line n) =? 0)%nat then _ else _).
    assert (view_outcome n r.1 r.2) as Hv.
    { unfold r. case_goal; [|cbn; reflexivity]. destruct (acceptLine _ _ _ _ _ _) as [n1 om] eqn:Ea. by eapply acceptLine_view. }
    clearbody r. destruct r as [n1 om]. cbn [fst snd] in Hv. destruct (consume text _ chunk wall mono gen) as [n2 ms2] eqn:Er.
    apply (consume_quiet _ _ _ _ _ false) in Er as [-> Hw]; [|lia|by destruct n1].
    assert (window_same n1 n2) as Hw' by (by destruct n1). clear Hw. intros [= <- <-].
    destruct Hw' as (W1 & W2 & W3). destruct om as [m|]; cbn [view_outcome] in Hv.
    + right. exists m. split; [done|]. unfold taken_view. rewrite W1, W3. exact Hv.
    + left. split; [done|]. destruct Hv as [_ Hv]. unfold window_same, window_empty in *. rewrite W1, W2, W3. exact Hv.
  - case_goal; intros E; (apply (IH true) in E; [|done|done]); unfold window_same, taken_view in *; destruct n; exact E.
Qed.

Lemma view_window_same held n n' :
  window_same n n' \/ window_empty n' /\ g_pendingInvalidate n' = true -> view_ok held n -> view_ok held n'.
Proof. intros [(H1 & _ & H3)|[[H1 _] H3]]; unfold view_ok; [by rewrite H1, H3|]. by rewrite H3. Qed.

Lemma taken_emit held n n1 m n' m' :
  taken_view n n1 m -> view_ok held n -> nmea_emit n1 m = (n', m') -> view_ok (view held m') n'.
Proof.
  intros (T1 & T2 & T3 & T4 & _) Hv E. apply emit_window in E as (_ & A2 & _ & _ & A5 & A6 & A7).
  unfold view_ok, view in *. rewrite A7, A5, A6, A2, T1, T2. destruct (g_pendingInvalidate n1) eqn:Ep; cbn [orb].
  - by destruct (4 <=? length (g_offsets n1))%nat.
  - destruct (T3 eq_refl) as [Hp Hl]. rewrite Hp in Hv. rewrite Hv. destruct (4 <=? length (g_offsets n1))%nat eqn:E4; [done|].
    apply Nat.leb_gt in E4. apply Nat.leb_gt. lia.
Qed.

Lemma tick_view held n i n' ms : tick_emit n i = (n', ms) -> view_ok held n -> view_ok (fold_left view ms held) n' /\
  ((length (g_offsets n) <= nmeaWindow)%nat -> (length (g_offsets n') <= nmeaWindow)%nat).
Proof.
  unfold tick_emit. pose proof (kept_tick n (ni_mono i)) as Hk. destruct (nmea_tick n (ni_mono i)) as [n1 due]. cbn [fst] in Hk.
  intros E Hv. apply (view_kept _ _ _ Hk) in Hv. pose proof (window_len_kept _ _ Hk) as Hl. destruct due; [|by injection E as <- <-].
  destruct (nmea_emit n1 _) as [n2 m] eqn:Ee. injection E as <- <-. cbn [fold_left]. split; [by eapply view_emit_empty|].
  apply emit_window in Ee as (_ & -> & _). done.
Qed.

(** Every read completes at most one line, a line it continues included. *)
Definition one_line (i : nmea_iteration) : Prop :=
  match ni_read i with ReadChunk bytes => (line_ends true bytes <= 1)%nat | _ => True end.

Definition view_state (held : bool) (n : NMEA) : Prop := view_ok held n /\ (length (g_offsets n) <= nmeaWindow)%nat.

Lemma view_state_kept held n n' : kept_or_reset n n' -> view_state held n -> view_state held n'.
Proof. intros Hk [H1 H2]. split; [by eapply view_kept|by eapply window_len_kept]. Qed.

Lemma view_state_reset held n : g_offsets n = [] -> g_pendingInvalidate n = true -> view_state held n.
Proof. intros H1 H2. unfold view_state, view_ok. rewrite H1, H2. split; [done|apply Nat.le_0_l]. Qed.

Lemma consume_emit_view text held n bytes wall mono gen n1 ms1 n2 ms2 :
  (line_ends true bytes <= 1)%nat -> view_state held n -> consume text n bytes wall mono gen = (n1, ms1) ->
  emit_all n1 ms1 = (n2, ms2) -> view_state (fold_left view ms2 held) n2.
Proof.
  intros Hb [Hv Hl] Ec. apply (consume_one _ _ _ _ _ true) in Ec as [[-> Hw]|(m & -> & Ht)]; [| |done|done]; cbn [emit_all].
  - intros [= <- <-]. cbn [fold_left]. split; [by eapply view_window_same|].
    destruct Hw as [(-> & _)|[[-> _] _]]; [done|apply Nat.le_0_l].
  - destruct (nmea_emit n1 m) as [n3 m3] eqn:Ee. intros [= <- <-]. cbn [fold_left]. specialize (Ht Hl).
    split; [by eapply taken_emit|]. apply emit_window in Ee as (_ & -> & _). apply Ht.
Qed.

Lemma nmea_step_view text held n i r ms :
  one_line i -> view_state held n -> nmea_step text n i = (r, ms) ->
  match r with Some n' => view_state (fold_left view ms held) n' | None => fold_left view ms held = false end.
Proof.
  intros H1 Hv. unfold nmea_step. set (n0 := nmea_take_reset _).
  assert (view_state held n0) as V0.
  { eapply view_state_kept; [|exact Hv]. unfold n0, nmea_take_reset. set (n' := if ni_reset i then _ else _).
    transitivity n'; [unfold n'; case_goal; [unfold nmea_Reset; auto with nmea|reflexivity]|]. clearbody n'.
    case_goal; [|reflexivity]. set (n'' := n' <| g_resetRequested := false |>). kept_step n''. auto with nmea. }
  clearbody n0. unfold one_line in H1. destruct (ni_read i) as [bytes| |err attempts].
  - case_goal.
    + intros [= <- <-]. cbn [fold_left]. eapply view_state_kept; [|exact V0]. unfold discardChunk.
      set (n' := n0 <| g_haveLine := false |>). kept_step n'. auto with nmea.
    + destruct (consume _ _ _ _ _ _) as [n1 ms1] eqn:Ec. destruct (emit_all n1 ms1) as [n2 ms2] eqn:Ee.
      destruct (tick_emit n2 i) as [n3 ms3] eqn:Et. intros [= <- <-]. rewrite fold_left_app.
      destruct (consume_emit_view _ _ _ _ _ _ _ _ _ _ _ H1 V0 Ec Ee) as [A1 A2].
      destruct (tick_view _ _ _ _ _ Et A1) as [B1 B2]. split; [done|by apply B2].
  - destruct (tick_emit n0 i) as [n1 ms1] eqn:Et. intros [= <- <-]. destruct V0 as [A1 A2].
    destruct (tick_view _ _ _ _ _ Et A1) as [B1 B2]. split; [done|by apply B2].
  - unfold nmea_deviceLost. set (n' := _ <| g_lastZDASeen := fzero |>). clearbody n'. clear V0 n0.
    set (n1 := nmea_updateInfo (nmea_resetWindow n') _).
    assert (g_pendingInvalidate n1 = true) as P1 by (unfold n1, nmea_resetWindow, nmea_updateInfo; by destruct n').
    clearbody n1. destruct (nmea_emit n1 _) as [n2 m] eqn:Ee. apply emit_window in Ee as (_ & _ & _ & _ & A5 & A6 & _).
    rewrite P1 in A6. intros [= <- <-]. destruct (snd (nmea_reopen n2 Second attempts)) as [n3|] eqn:Er.
    + apply (reopen_in (g_cfg n2) (fun _ _ => True) (fun _ => False)) in Er as (W & _ & W2); [|reflexivity].
      apply window_in_nowhere in W. by apply view_state_reset.
    + cbn [fold_left]. unfold view. by rewrite A5, A6.
Qed.

Lemma nmea_run_view text its : forall held n ms r,
  Forall one_line its -> view_state held n -> nmea_run text n its = (ms, r) ->
  match r with Some n' => view_state (fold_left view ms held) n' | None => fold_left view ms held = false end.
Proof.
  induction its as [|i its IH]; intros held n ms r H1 Hv; cbn [nmea_run]; [by intros [= <- <-]|].
  apply Forall_cons_1 in H1 as [H1 H2]. destruct (nmea_step text n i) as [o ms1] eqn:Es.
  pose proof (nmea_step_view _ _ _ _ _ _ H1 Hv Es) as Hs. destruct o as [n1|]; [|by intros [= <- <-]].
  destruct (nmea_run text n1 its) as [ms2 r2] eqn:Er. intros [= <- <-]. rewrite fold_left_app. by eapply IH.
Qed.

(** The selector's estimate of a GPS source follows its window.  Over
    any run whose reads each complete at most one line, a selector that starts
    without an estimate and applies the run's measurements has one at the end
    exactly when the window still holds at least four sentences, or else an
    invalidation is armed for the next measurement and the window is empty; and
    it has none once the device is gone for good. *)
Theorem nmea_view_tracks_window text cfg precision its ms r st :
  Forall one_line its -> nmea_run text (newNMEA cfg precision) its = (ms, r) -> Select.Valid st = false ->
  match r with
  | Some n => if g_pendingInvalidate n then g_offsets n = []
              else Select.Valid (fold_left Select.source_apply ms st) = (4 <=? length (g_offsets n))%nat
  | None => Select.Valid (fold_left Select.source_apply ms st) = false
  end.
Proof.
  intros H1 E Hst. apply (nmea_run_view _ _ false) in E; [|done|split; [done|apply Nat.le_0_l]].
  rewrite source_apply_views, Hst. destruct r as [n|]; [apply E|done].
Qed.

(** ** Recovery *)

(** A sentence whose checks before the chronology have passed. *)
Record arrived : Type := mkArrived { ar_stamp : time; ar_wall : time; ar_mono : f64; ar_env : env }.

Fixpoint accept_stamps (n : NMEA) (l : list arrived) : NMEA * list (option Measurement) :=
  match l with
  | [] => (n, [])
  | a :: l =>
      let '(n, m) := acceptStamp n (ar_stamp a) (ar_wall a) (ar_mono a) (ar_env a) in
      let '(n, ms) := accept_stamps n l in (n, m :: ms)
  end.

(** A steady receiver: a real date, the epoch of the line, and an offset that
    can be measured. *)
Definition measurable (gen : Z) (a : arrived) : Prop :=
  ar_stamp a <> zeroTime /\ e_gen (ar_env a) = gen /\ - 2 ^ 63 < ar_stamp a - ar_wall a < 2 ^ 63 - 1.

Fixpoint steady (l : list arrived) : Prop :=
  match l with
  | a :: (b :: _) as r => ar_stamp a < ar_stamp b <= ar_stamp a + nmeaEraJump /\ steady r
  | _ => True
  end.

(** Refused, so the evidence for its era grew. *)
Lemma acceptStamp_refused n a n' :
  measurable (g_lineGen n) a -> acceptStamp n (ar_stamp a) (ar_wall a) (ar_mono a) (ar_env a) = (n', None) ->
  g_lineGen n' = g_lineGen n /\ g_eraCandidate n' = ar_stamp a /\ g_eraCount n' < nmeaEraConfirm /\
  g_eraCount n' = (if negb (IsZero (g_eraCandidate n)) && in_sequence (ar_stamp a) (g_eraCandidate n) then g_eraCount n + 1 else 1).
Proof.
  intros (M1 & M2 & M3). unfold acceptStamp. pose proof (chronology_kept n (ar_stamp a)) as [(_ & _ & _ & _ & _ & Lg) _].
  destruct (chronologyOK n (ar_stamp a)) as [n1 ok] eqn:Ec. cbn [fst] in Lg. destruct ok; cbn [negb].
  - rewrite Lg, M2, Z.eqb_refl, andb_false_r. unfold Sub.
    assert ((Z.max (- 2 ^ 63) (Z.min (2 ^ 63 - 1) (ar_stamp a - ar_wall a)) =? 2 ^ 63 - 1)
      || (Z.max (- 2 ^ 63) (Z.min (2 ^ 63 - 1) (ar_stamp a - ar_wall a)) =? - 2 ^ 63) = false) as ->
      by (apply orb_false_iff; split; apply Z.eqb_neq; lia).
    by destruct (takeSentence _ _ _ _ _ _).
  - intros [= <-]. revert Ec. unfold chronologyOK. case_goal; [done|]. case_goal; [done|].
    destruct (noteEra n (ar_stamp a)) as [n2 c] eqn:En. destruct c; [done|]. intros [= <-].
    unfold noteEra in En. apply pair_equal_spec in En as [<- Hc]. apply Z.leb_gt in Hc.
    split; [by destruct n|]. split; [by destruct n|]. split; [exact Hc|]. by destruct n.
Qed.

Lemma acceptStamp_acquired n stamp wall mono e n' m : acceptStamp n stamp wall mono e = (n', Some m) -> m_Acquired m = true.
Proof.
  unfold acceptStamp. destruct (chronologyOK n stamp) as [n1 ok]. case_goal; [done|]. case_goal; [done|]. case_goal; [done|].
  destruct (takeSentence _ _ _ _ _ _) as [n2 m2] eqn:Et. intros [= <- <-]. by apply takeSentence_eqs in Et as (_ & _ & _ & _ & _ & _ & Ha & _).
Qed.

Lemma accept_stamps_cases l : forall n,
  (exists m, Some m ∈ (accept_stamps n l).2 /\ m_Acquired m = true) \/ Forall (fun m => m = None) (accept_stamps n l).2.
Proof.
  induction l as [|a l IH]; intros n; cbn [accept_stamps]; [right; constructor|].
  destruct (acceptStamp n _ _ _ _) as [n1 om] eqn:Ea. specialize (IH n1). destruct (accept_stamps n1 l) as [n2 ms]. cbn [snd] in *.
  destruct om as [m|]; [left; exists m; split; [by left|by eapply acceptStamp_acquired]|].
  destruct IH as [(m & Hm & Hq)|IH]; [left; exists m; split; [by right|done]|right; by constructor].
Qed.

(** A run of refusals is shorter than the evidence an era needs. *)
Lemma refused_run l : forall n k,
  k <= g_eraCount n -> g_eraCandidate n <> zeroTime -> Forall (measurable (g_lineGen n)) l ->
  match l with a :: _ => g_eraCandidate n < ar_stamp a <= g_eraCandidate n + nmeaEraJump | [] => True end ->
  steady l -> Forall (fun m => m = None) (accept_stamps n l).2 -> l <> [] -> k + Z.of_nat (length l) < nmeaEraConfirm.
Proof.
  induction l as [|a l IH]; intros n k Hk Hc Hm Hseq Hs Hn Hne; [done|]. clear Hne. cbn [accept_stamps] in Hn.
  destruct (acceptStamp n _ _ _ _) as [n1 om] eqn:Ea. destruct (accept_stamps n1 l) as [n2 ms] eqn:El. cbn [snd] in Hn.
  apply Forall_cons_1 in Hn as [-> Hn], Hm as [Ha Hm]. apply acceptStamp_refused in Ea as (Lg & Cd & C1 & C2); [|done].
  apply in_sequence_spec in Hseq. rewrite Hseq in C2.
  assert (IsZero (g_eraCandidate n) = false) as Hz by (unfold IsZero; by apply Z.eqb_neq). rewrite Hz in C2. cbn [negb andb] in C2.
  destruct l as [|b l]; [cbn [length]; lia|].
  assert (k + 1 + Z.of_nat (length (b :: l)) < nmeaEraConfirm) as H; [|cbn [length] in *; lia].
  apply (IH n1); [lia|rewrite Cd; apply Ha|by rewrite Lg|rewrite Cd; apply Hs|apply Hs|by rewrite El|done].
Qed.

(** A wrong watermark cannot lock a GPS source out.  From any state,
    among any four consecutive sentences that passed the earlier checks and are
    each after the one before by at most an hour, at least one is accepted and
    measured, whatever date the source had come to believe. *)
Theorem nmea_recovers n l :
  0 <= g_eraCount n -> Forall (measurable (g_lineGen n)) l -> steady l -> length l = 4%nat ->
  exists m, Some m ∈ (accept_stamps n l).2 /\ m_Acquired m = true.
Proof.
  intros Hc Hm Hs Hl. destruct (accept_stamps_cases l n) as [H|Hn]; [done|exfalso].
  destruct l as [|a l]; [done|]. apply Forall_cons_1 in Hm as [Ha Hm]. cbn [accept_stamps] in Hn.
  destruct (acceptStamp n _ _ _ _) as [n1 om] eqn:Ea. destruct (accept_stamps n1 l) as [n2 ms] eqn:El. cbn [snd] in Hn.
  apply Forall_cons_1 in Hn as [-> Hn]. apply acceptStamp_refused in Ea as (Lg & Cd & C1 & C2); [|done].
  assert (1 <= g_eraCount n1) as H1 by (rewrite C2; case_goal; lia).
  assert (length l = 3%nat) as Hl3 by (cbn in Hl; lia).
  assert (l <> [] -> 1 + Z.of_nat (length l) < nmeaEraConfirm) as Hb.
  { destruct l as [|b l]; [done|]. destruct Hs as [Hs1 Hs2].
    apply (refused_run _ n1 1); [exact H1|rewrite Cd; apply Ha|by rewrite Lg|by rewrite Cd|done|by rewrite El]. }
  rewrite Hl3 in Hb. unfold nmeaEraConfirm in Hb. assert (l <> []) as Hne by by destruct l. specialize (Hb Hne). lia.
Qed.

(** ** Examples *)

Definition example_gps_cfg : NMEAConfig :=
  mkNMEAConfig "gps"%string "/dev/ttyS0"%string 9600 fzero [kind_text RMC; kind_text ZDA] (unixTime 1704067200 0).

Definition example_text (_ : NMEAError) : string := ""%string.

(** The bytes of the RMC sentences of some seconds, handled in epoch 2. *)
Definition example_bytes (secs : list Z) : list (Z * env) :=
  (fun b => (b, mkEnv 2 0)) <$> concat ((fun s => rmc_line (unixTime s 0) ++ [13; 10]) <$> secs).

(** A read at the second [at_], a tenth of a second late. *)
Definition example_read (at_ : Z) (secs : list Z) : nmea_iteration :=
  mkNMEAIteration false (ReadChunk (example_bytes secs)) 2 (unixTime at_ 100000000) (of_Z (at_ - 1717200000)) 2
    (of_Z (at_ - 1717200000)) 2.

Definition example_reads : list nmea_iteration :=
  (fun s => example_read s [s]) <$> [1717200001; 1717200002; 1717200003; 1717200004].

Definition example_gps_out : list Measurement * option NMEA :=
  nmea_run example_text (newNMEA example_gps_cfg (-20)) example_reads.

Lemma example_gps_run : exists ms n m, nmea_run example_text (newNMEA example_gps_cfg (-20)) example_reads = (ms, Some n) /\
  m ∈ ms /\ m_Valid m = true /\ g_pendingInvalidate n = false /\ length (g_offsets n) = 4%nat.
Proof.
  eexists _, _, _. split; [vm_compute; reflexivity|]. split; [do 3 right; left|by repeat split].
Qed.

Lemma example_reads_contract : epoch_contract 0 None example_reads.
Proof.
  cbn [example_reads fmap list_fmap epoch_contract].
  repeat match goal with |- context [settled ?i] => replace (settled i) with true by (vm_compute; reflexivity) end.
  cbn [example_read ni_reset ni_read ni_gen].
  repeat (split; [lia|]; split; [lia|]; split; [apply Forall_fmap, Forall_true; intros b; cbn; lia|]; split; [by auto|]). exact I.
Qed.

Lemma nmea_estimate_sound_witness :
  exists ms n m obs, nmea_run example_text (newNMEA example_gps_cfg (-20)) example_reads = (ms, Some n) /\ m ∈ ms /\ m_Valid m = true /\
    (4 <= length obs <= nmeaWindow)%nat /\ Forall (good_sentence example_gps_cfg) obs /\
    Forall (fun o => ob_gen o = m_Generation m) obs.
Proof.
  destruct example_gps_run as (ms & n & m & E & Hm & Hv & _).
  destruct (nmea_estimate_sound example_text example_gps_cfg (-20) example_reads ms (Some n) m E Hm Hv)
    as (obs & o & _ & Hl & _ & Hg & _ & _ & _ & _ & He).
  exists ms, n, m, obs. split; [exact E|]. split; [exact Hm|]. split; [exact Hv|]. split; [exact Hl|]. split.
  - eapply List.Forall_impl; [|exact Hg]. intros x [H _]. exact H.
  - apply He. exact example_reads_contract.
Defined.

(** Between the publication of an epoch and the call of Reset: three sentences of
    epoch 2 and one of epoch 4 make an estimate stamped 4. *)
Lemma nmea_estimate_mixes_epochs :
  let at_epoch (g : Z) (i : nmea_iteration) : nmea_iteration :=
    mkNMEAIteration (ni_reset i)
      (match ni_read i with ReadChunk bytes => ReadChunk ((fun be => (be.1, mkEnv g (e_pulse be.2))) <$> bytes) | r => r end)
      g (ni_wall i) (ni_mono i) g (ni_now i) g in
  let its := take 3 example_reads ++ (at_epoch 4 <$> drop 3 example_reads) in
  exists m, nth_error (nmea_run example_text (newNMEA example_gps_cfg (-20)) its).1 3 = Some m /\
    m_Valid m = true /\ m_Generation m = 4 /\ m_Invalidate m = false.
Proof. cbv zeta. eexists. split; [vm_compute; reflexivity|]. done. Qed.

Lemma nmea_view_tracks_window_witness :
  exists ms n, nmea_run example_text (newNMEA example_gps_cfg (-20)) example_reads = (ms, Some n) /\
    Select.Valid (fold_left Select.source_apply ms Select.zeroSource) = true.
Proof.
  destruct example_gps_run as (ms & n & m & E & _ & _ & Hp & Hl). exists ms, n. split; [exact E|].
  pose proof (nmea_view_tracks_window example_text example_gps_cfg (-20) example_reads ms (Some n) Select.zeroSource) as H.
  cbv beta iota in H. rewrite Hp, Hl in H. apply H; [|exact E|reflexivity].
  unfold example_reads. repeat constructor; vm_compute; repeat constructor.
Defined.

(** The receiver of the run above, then one that reports another day. *)
Definition example_gps : NMEA := match snd example_gps_out with Some n => n | None => newNMEA example_gps_cfg 0 end.
Definition example_arrived (s : Z) : arrived := mkArrived (unixTime (s + 172800) 0) (unixTime s 0) (of_Z (s - 1717200000)) (mkEnv 2 0).

Lemma nmea_recovers_witness :
  exists m, Some m ∈ (accept_stamps example_gps (example_arrived <$> [1717200005; 1717200006; 1717200007; 1717200008])).2 /\
    m_Acquired m = true.
Proof.
  assert (g_eraCount example_gps = 0 /\ g_lineGen example_gps = 2) as [H1 H2] by (vm_compute; split; reflexivity).
  apply nmea_recovers.
  - rewrite H1. lia.
  - rewrite H2. repeat constructor; discriminate.
  - cbn. unfold unixTime, nmeaEraJump, Hour, Minute, Second. lia.
  - reflexivity.
Defined.

(** A burst can leave the selector an estimate the source no longer
    has.  When one read completes a sentence that is measured and then enough
    sentences of another era for the window to be dropped, the invalidation the
    reset armed is carried by the first of the read's measurements, which is
    valid and restores the estimate at once; at the end nothing is armed, the
    window holds a single sentence of the new era, and the selector still holds
    the median of the old one. *)
Theorem nmea_burst_keeps_old_estimate :
  exists its ms n, nmea_run example_text (newNMEA example_gps_cfg (-20)) its = (ms, Some n) /\
    g_pendingInvalidate n = false /\ length (g_offsets n) = 1%nat /\
    Select.Valid (fold_left Select.source_apply ms Select.zeroSource) = true.
Proof.
  exists (example_reads ++ [example_read 1717200005 [1717200005; 1717372805; 1717372806; 1717372807; 1717372808]]).
  eexists _, _. split; [vm_compute; reflexivity|]. by vm_compute.
Qed.
