(* ===== verification/Clock.v ===== *)
(** * internal/clock/sysclock_common.go: the words the kernel takes

    The status, frequency and duration conversions both kernel backends share,
    and the guards that refuse a correction the kernel cannot express.  The
    backends themselves are system calls. *)

From stdpp Require Import base list numbers.
From Stdlib Require Import Lia ZArith SpecFloat.
From S2P Require Import Prelude Float64 GoTime NtpTime Measurement.

Local Open Scope Z_scope.

(** [clock.Status]. *)
Record KStatus : Type := mkKStatus { ks_Synced : bool; ks_Leap : Z; ks_MaxError : duration; ks_EstError : duration }.

#[export] Instance KStatus_eta : Eta KStatus := fun s => mkKStatus (ks_Synced s) (ks_Leap s) (ks_MaxError s) (ks_EstError s).

#[export] Instance KStatus_eq_dec : EqDecision KStatus.
Proof. solve_decision. Defined.

(** ** Status bits *)

Definition staPLL : Z := 0x0001.
Definition staPPSFREQ : Z := 0x0002.
Definition staPPSTIME : Z := 0x0004.
Definition staFLL : Z := 0x0008.
Definition staINS : Z := 0x0010.
Definition staDEL : Z := 0x0020.
Definition staUNSYNC : Z := 0x0040.

Definition disciplineBits : Z :=
  Z.lor staPLL (Z.lor staPPSFREQ (Z.lor staPPSTIME (Z.lor staFLL (Z.lor staINS (Z.lor staDEL staUNSYNC))))).

(** [statusWord]; the word is an int32. *)
Definition statusWord (current : Z) (s : KStatus) : Z :=
  let w := Z.ldiff current disciplineBits in
  let w := if negb (ks_Synced s) || (ks_Leap s =? LeapUnsync) then Z.lor w staUNSYNC else w in
  if ks_Leap s =? LeapInsert then Z.lor w staINS
  else if ks_Leap s =? LeapDelete then Z.lor w staDEL
  else w.

(** ** Frequency *)

Definition maxFrequencyPPM : f64 := of_Z 500.
Definition freqScale : f64 := of_Z 65536.

Definition clampFrequency (ppm : f64) : f64 :=
  if fgt ppm maxFrequencyPPM then maxFrequencyPPM
  else if flt ppm (fopp maxFrequencyPPM) then fopp maxFrequencyPPM
  else ppm.

Definition sign (x : f64) : f64 := if flt x fzero then of_Z (-1) else of_Z 1.

(** The conversions of a float to an int64; only finite values of the range
    are converted. *)
Definition freqWord (ppm : f64) : Z := ftrunc (fadd (fmul (clampFrequency ppm) freqScale) (fmul (lit 1 2) (sign ppm))).
Definition freqPPM (word : Z) : f64 := fdiv (of_Z word) freqScale.

(** [CheckFrequency]: whether the frequency is refused. *)
Definition CheckFrequency (ppm : f64) : bool := is_nan ppm || is_inf ppm.

(** ** Durations *)

Definition maxErrorMicros : Z := 16000000.

Definition errorMicros (d : duration) : Z :=
  if d <? 0 then 0
  else
    let us := Z.quot d 1000 in
    if maxErrorMicros <? us then maxErrorMicros else us.

Definition splitDuration (d : duration) : Z * Z :=
  let sec := Z.quot d 1000000000 in
  let nsec := Z.rem d 1000000000 in
  if nsec <? 0 then (sec - 1, nsec + 1000000000) else (sec, nsec).

(** [9.223372036e9]. *)
Definition maxDurationSeconds : f64 := of_Z 9223372036.

(** [clock.Seconds]: none when the value is refused. *)
Definition CheckedSeconds (v : f64) : option duration :=
  if is_nan v || is_inf v then None
  else if fgt v maxDurationSeconds || flt v (fopp maxDurationSeconds) then None
  else Some (ftrunc (fmul v (of_Z Second))).

Definition BoundSeconds (v : f64) (limit : duration) : duration :=
  if is_nan v then limit
  else if fle v fzero then 0
  else match CheckedSeconds v with
       | Some d => if d <? limit then d else limit
       | None => limit
       end.

(** ** Facts *)

(** The normal form both kernels expect. *)
Lemma splitDuration_spec d : let '(sec, nsec) := splitDuration d in d = sec * 1000000000 + nsec /\ 0 <= nsec < 1000000000.
Proof.
  unfold splitDuration. pose proof (Z.quot_rem d 1000000000 ltac:(lia)).
  pose proof (Z.rem_bound_abs d 1000000000 ltac:(lia)). case_goal; bool_step; lia.
Qed.

Lemma errorMicros_range d : 0 <= errorMicros d <= 16000000.
Proof.
  unfold errorMicros, maxErrorMicros. case_goal; [lia|]. bool_step. case_goal; bool_step; [lia|].
  pose proof (Z.quot_pos d 1000 ltac:(lia) ltac:(lia)). lia.
Qed.

(** Truncation keeps the sign. *)
Lemma ftrunc_nonneg v : nonneg v = true -> 0 <= ftrunc v.
Proof.
  destruct v as [s|s| |s m e]; try done; cbn; [lia..|]. destruct s; [done|]. intros _. cbn.
  case_goal; [apply Z.mul_nonneg_nonneg; [lia|apply Z.pow_nonneg; lia]|]. apply Z.div_pos; [lia|]. bool_step. apply Z.pow_pos_nonneg; lia.
Qed.

Lemma CheckedSeconds_nonneg v d : fle v fzero = false -> CheckedSeconds v = Some d -> 0 <= d.
Proof.
  unfold CheckedSeconds. destruct v as [s|s| |[] m e]; try done. intros _. cbn [is_nan is_inf orb]. case_goal; [done|]. intros [= <-].
  apply ftrunc_nonneg, signed_nonneg. change (of_Z Second) with (S754_finite false 8388608000000000 (-23)).
  unfold fmul. cbn [SFmul xorb]. apply binary_round_aux_signed. lia.
Qed.

Lemma BoundSeconds_range v limit : 0 <= limit -> 0 <= BoundSeconds v limit <= limit.
Proof.
  intros H. unfold BoundSeconds. case_goal; [lia|]. case_goal; [lia|]. destruct (CheckedSeconds v) as [d|] eqn:E; [|lia].
  apply CheckedSeconds_nonneg in E; [|done]. case_goal; crush.
Qed.

(** A bit outside the daemon's is the kernel's; inside, the word says exactly
    what the status says. *)
Lemma statusWord_bits current s i :
  0 <= i ->
  Z.testbit (statusWord current s) i =
  if (i =? 4) then ks_Leap s =? LeapInsert
  else if (i =? 5) then ks_Leap s =? LeapDelete
  else if (i =? 6) then negb (ks_Synced s) || (ks_Leap s =? LeapUnsync)
  else if (i <? 4) then false
  else Z.testbit current i.
Proof.
  intros Hi. unfold statusWord.
  assert (Z.testbit (Z.ldiff current disciplineBits) i = if i <? 7 then false else Z.testbit current i) as Hl.
  { rewrite Z.ldiff_spec. change disciplineBits with (Z.ones 7). rewrite (Z.testbit_ones_nonneg 7 i) by lia.
    destruct (i <? 7); [apply andb_false_r|apply andb_true_r]. }
  assert (forall k, 0 <= k -> Z.testbit (2 ^ k) i = (i =? k)) as Hp.
  { intros k Hk. rewrite Z.pow2_bits_eqb by lia. apply Z.eqb_sym. }
  change staUNSYNC with (2 ^ 6). change staINS with (2 ^ 4). change staDEL with (2 ^ 5).
  unfold LeapInsert, LeapDelete, LeapUnsync.
  destruct (ks_Leap s =? 1) eqn:E1, (ks_Leap s =? 2) eqn:E2, (negb (ks_Synced s) || (ks_Leap s =? 3));
    rewrite ?Z.lor_spec, ?Hl, ?Hp by lia; repeat bool_step; try lia;
    destruct (i =? 4) eqn:F4, (i =? 5) eqn:F5, (i =? 6) eqn:F6, (i <? 4) eqn:F, (i <? 7) eqn:F7; repeat bool_step; try lia;
    rewrite ?orb_false_r, ?orb_true_r; reflexivity.
Qed.
