(* ===== verification/LeapDisk.v ===== *)
(** * internal/leap/store.go: the cache directory and its atomic writes

    The directory as the process sees it, with what the disk may still hold of
    it: an asynchronous disk, on which a file's bytes are safe once the file is
    synced and a name once the directory is.  [store_write] is the write of one
    entry, call by call, with every directory it passes through; [crash] is
    what a loss of power at one of them leaves. *)

From stdpp Require Import base list numbers gmap.
From Stdlib Require Import Lia ZArith.
From S2P Require Import Prelude GoStrings.

Local Open Scope Z_scope.

(** ** Files and directories *)

Inductive file_kind : Type := KindRegular | KindSymlink | KindDirectory | KindOther.

#[export] Instance file_kind_eq_dec : EqDecision file_kind.
Proof. solve_decision. Defined.

(** A file; [fi_synced] is whether its bytes are on the disk. *)
Record file : Type := mkFile { fi_kind : file_kind; fi_perm : Z; fi_bytes : list Z; fi_synced : bool }.

#[export] Instance file_eta : Eta file := fun f => mkFile (fi_kind f) (fi_perm f) (fi_bytes f) (fi_synced f).

(** What a name refers to. *)
Definition entry : Type := option file.

(** The names now, and the contents the directory had since it was last
    synced. *)
Record Directory : Type := mkDirectory { di_names : gmap str file; di_earlier : list (gmap str file) }.

Definition possible (d : Directory) : list (gmap str file) := di_names d :: di_earlier d.
Definition entry_of (d : Directory) (name : str) : entry := di_names d !! name.

Definition set_names (d : Directory) (m : gmap str file) : Directory := mkDirectory m (possible d).

(** "state.json", "seed.json" and ".state-". *)
Definition state_json : str := [115; 116; 97; 116; 101; 46; 106; 115; 111; 110].
Definition seed_json : str := [115; 101; 101; 100; 46; 106; 115; 111; 110].
Definition temp_prefix : str := [46; 115; 116; 97; 116; 101; 45].
Definition temp_name (nonce : list Z) : str := temp_prefix ++ hex_encode nonce.

Arguments entry_of : simpl never.
Arguments state_json : simpl never.
Arguments seed_json : simpl never.

(** ** Reading an entry *)

Inductive ReadError : Type := ReadOpen | ReadNotPrivate | ReadTooBig.

(** [openNoFollow] and the checks on the opened file: the bytes, or [None]
    when there is no such file. *)
Definition read_entry (e : entry) (limit : Z) : result ReadError (option (list Z)) :=
  match e with
  | None => Ok None
  | Some f =>
      if bool_decide (fi_kind f = KindSymlink) then Err ReadOpen
      else if negb (bool_decide (fi_kind f = KindRegular)) || negb (Z.land (fi_perm f) 63 =? 0) || (limit <? Z.of_nat (length (fi_bytes f)))
      then Err ReadNotPrivate
      else
        let b := take (Z.to_nat (limit + 1)) (fi_bytes f) in
        if limit <? Z.of_nat (length b) then Err ReadTooBig else Ok (Some b)
  end.

(** ** Writing an entry *)

Inductive stage : Type :=
| StageCreate | StageWrite | StageFileSync | StageClose | StageRename | StageOpenDirectory | StageDirectorySync.

#[export] Instance stage_eq_dec : EqDecision stage.
Proof. solve_decision. Defined.

(** What the operating system does during a write: the random bytes, when it
    has them, the call that fails, how much a failing write has written, and
    whether the removal of the temporary file works. *)
Record WriteEnv : Type := mkWriteEnv { we_nonce : option (list Z); we_fail : option stage; we_short : nat; we_removes : bool }.

Definition fails (w : WriteEnv) (s : stage) : bool := bool_decide (we_fail w = Some s).

Definition private_file (b : list Z) (synced : bool) : file := mkFile KindRegular 384 b synced.

Definition put_file (d : Directory) (name : str) (f : file) : Directory := set_names d (<[name := f]> (di_names d)).

Definition rename (d : Directory) (name target : str) (f : file) : Directory := set_names d (<[target := f]> (delete name (di_names d))).

(** [Remove], whose error is ignored. *)
Definition remove (d : Directory) (name : str) (works : bool) : Directory :=
  match entry_of d name with
  | Some _ => if works then set_names d (delete name (di_names d)) else d
  | None => d
  end.

Definition sync_directory (d : Directory) : Directory := mkDirectory (di_names d) [].

(** A rename cannot replace a directory. *)
Definition is_directory (e : entry) : bool :=
  match e with Some f => bool_decide (fi_kind f = KindDirectory) | None => false end.

(** [write], once the temporary file is open: the directories passed through,
    the last one first, and whether no error is returned. *)
Definition replace_entry (d1 : Directory) (name target : str) (b : list Z) (w : WriteEnv) : list Directory * bool :=
  if fails w StageWrite then ([put_file d1 name (private_file (take (we_short w) b) false); d1], false)
  else
    let d2 := put_file d1 name (private_file b false) in
    if fails w StageFileSync then ([d2; d1], false)
    else
      let d3 := put_file d2 name (private_file b true) in
      if fails w StageClose then ([d3; d2; d1], false)
      else if fails w StageRename || is_directory (entry_of d3 target) then ([d3; d2; d1], false)
      else
        let d4 := rename d3 name target (private_file b true) in
        if fails w StageOpenDirectory then ([d4; d3; d2; d1], false)
        else if fails w StageDirectorySync then ([d4; d3; d2; d1], false)
        else ([sync_directory d4; d4; d3; d2; d1], true).

(** [write]: the directory afterwards, those passed through on the way, and
    whether no error is returned. *)
Definition store_write (d : Directory) (target : str) (b : list Z) (w : WriteEnv) : Directory * list Directory * bool :=
  match we_nonce w with
  | None => (d, [], false)
  | Some nonce =>
      let name := temp_name nonce in
      if fails w StageCreate || bool_decide (is_Some (entry_of d name)) then (d, [], false)
      else
        let d1 := put_file d name (private_file [] false) in
        let '(ds, ok) := replace_entry d1 name target b w in
        (remove (List.hd d1 ds) name (we_removes w), ds, ok)
  end.

(** ** A loss of power *)

(** A file keeps its kind and its permissions, and its bytes when they were
    synced. *)
Definition survives (f f' : file) : Prop :=
  fi_kind f' = fi_kind f /\ fi_perm f' = fi_perm f /\ fi_synced f' = true /\ (fi_synced f = true -> fi_bytes f' = fi_bytes f).

(** Each name refers to what it referred to at some moment since the directory
    was last synced. *)
Definition crash (d d' : Directory) : Prop :=
  di_earlier d' = [] /\
  forall name, exists m, m ∈ possible d /\ option_Forall2 survives (m !! name) (di_names d' !! name).

(** A directory with nothing left to reach the disk. *)
Definition settled_directory (d : Directory) : Prop :=
  di_earlier d = [] /\ forall name f, entry_of d name = Some f -> fi_synced f = true.

(** ** Facts *)

(** What the disk may hold under a name. *)
Definition always (name : str) (P : entry -> Prop) (d : Directory) : Prop := forall m, m ∈ possible d -> P (m !! name).

Definition is_synced (e : entry) : Prop := forall f, e = Some f -> fi_synced f = true.

Lemma always_now name P d : always name P d -> P (entry_of d name).
Proof. intros H. apply H. by apply elem_of_cons; left. Qed.

Lemma always_set name P d m : always name P d -> P (m !! name) -> always name P (set_names d m).
Proof. intros H Hm x. unfold set_names, possible at 1. cbn [di_names di_earlier]. intros Hx. apply elem_of_cons in Hx as [->|Hx]; auto. Qed.

Lemma always_mono name (P Q : entry -> Prop) d : (forall e, P e -> Q e) -> always name P d -> always name Q d.
Proof. intros HPQ H m Hm. by apply HPQ, H. Qed.

Lemma always_put name P d n f : always name P d -> n <> name \/ P (Some f) -> always name P (put_file d n f).
Proof.
  intros H Hf. apply always_set; [done|]. destruct (decide (n = name)) as [->|Hne].
  - rewrite lookup_insert_eq. by destruct Hf.
  - rewrite lookup_insert_ne by done. exact (always_now _ _ _ H).
Qed.

Lemma always_rename name P d n target f :
  always name P d -> n <> name -> target <> name \/ P (Some f) -> always name P (rename d n target f).
Proof.
  intros H Hn Hf. apply always_set; [done|]. destruct (decide (target = name)) as [->|Hne].
  - rewrite lookup_insert_eq. by destruct Hf.
  - rewrite lookup_insert_ne, lookup_delete_ne by done. exact (always_now _ _ _ H).
Qed.

Lemma always_remove name P d n works : always name P d -> n <> name -> always name P (remove d n works).
Proof.
  intros H Hn. unfold remove. destruct (entry_of d n); [|done]. destruct works; [|done].
  apply always_set; [done|]. rewrite lookup_delete_ne by done. exact (always_now _ _ _ H).
Qed.

Lemma always_sync name P d : always name P d -> always name P (sync_directory d).
Proof. intros H m Hm. apply list_elem_of_singleton in Hm as ->. exact (always_now _ _ _ H). Qed.

Create HintDb disk.
#[export] Hint Resolve always_put always_rename always_remove always_sync : disk.

(** A synced file comes through as it was. *)
Lemma always_crash name P d d' : always name (fun e => is_synced e /\ P e) d -> crash d d' -> always name (fun e => is_synced e /\ P e) d'.
Proof.
  intros H [He Hc] m Hm. unfold possible in Hm. rewrite He in Hm. apply list_elem_of_singleton in Hm as ->.
  destruct (Hc name) as (m & Hm & Hs). destruct (H m Hm) as [Hy HP]. revert Hy HP. inversion Hs as [f f' (Hk & Hp & Hf & Hb)|]; [|done]. intros Hy HP.
  assert (f' = f) as -> by (specialize (Hb (Hy f eq_refl)); rewrite <- (Hy f eq_refl) in Hf; destruct f, f'; cbn in *; congruence). done.
Qed.

(** A loss of power may leave any content the directory had, if its files are
    synced. *)
Lemma crash_back d d' : settled_directory d' -> di_names d' ∈ possible d -> crash d d'.
Proof.
  intros [He Hs] Hin. split; [done|]. intros name. exists (di_names d'). split; [done|].
  destruct (di_names d' !! name) as [f|] eqn:E; constructor. split; [done|]. split; [done|]. split; [by eapply Hs|done].
Qed.

(** The targets are not temporary names. *)
Lemma temp_not_target nonce : temp_name nonce <> state_json /\ temp_name nonce <> seed_json.
Proof. by split. Qed.

(** Every directory of a write holds, under a name that is not the temporary
    one, what it may have held before or, when it is the target, the new bytes
    in a synced private file. *)
Lemma replace_always name P d1 n target b w x :
  always name P d1 -> n <> name -> target <> name \/ P (Some (private_file b true)) ->
  x ∈ (replace_entry d1 n target b w).1 -> always name P x.
Proof.
  intros H Hn Ht. unfold replace_entry. cbv zeta. repeat case_goal; cbn [fst];
    rewrite ?elem_of_cons, elem_of_nil; intros Hx; repeat destruct Hx as [->|Hx]; try done; auto 10 with disk.
Qed.

Lemma replace_passed d1 n target b w : exists x ds, (replace_entry d1 n target b w).1 = x :: ds.
Proof. unfold replace_entry. cbv zeta. repeat case_goal; eexists _, _; reflexivity. Qed.

Lemma write_always name P d target b w d' ds ok :
  store_write d target b w = (d', ds, ok) -> always name P d -> (forall nonce, temp_name nonce <> name) -> target <> name \/ P (Some (private_file b true)) ->
  always name P d' /\ (forall x, x ∈ ds -> always name P x).
Proof.
  unfold store_write. intros E H Hn Ht. destruct (we_nonce w) as [nonce|]; [|simplify_eq; split; [done|]; by intros x ?%elem_of_nil].
  cbv zeta in E. case_in E; [simplify_eq; split; [done|]; by intros x ?%elem_of_nil|].
  set (d1 := put_file d (temp_name nonce) _) in *. assert (always name P d1) as H1 by (apply always_put; [done|left; apply Hn]). clearbody d1.
  pose proof (fun x => replace_always name P d1 (temp_name nonce) target b w x H1 (Hn nonce) Ht) as Hr.
  destruct (replace_passed d1 (temp_name nonce) target b w) as (x & l & Hl). destruct (replace_entry d1 _ target b w) as [ds0 ok0]. cbn [fst] in *. subst ds0.
  cbn [List.hd] in E. simplify_eq. split; [|done]. apply always_remove; [apply Hr; apply elem_of_cons; by left|apply Hn].
Qed.

(** A write that returns no error has the new bytes in place, and nothing that
    a loss of power could undo. *)
Lemma write_done d target b w d' ds :
  store_write d target b w = (d', ds, true) -> (forall nonce, temp_name nonce <> target) ->
  entry_of d' target = Some (private_file b true) /\ di_earlier d' = [].
Proof.
  unfold store_write. intros E Hn. destruct (we_nonce w) as [nonce|]; [|done]. cbv zeta in E. case_in E; [done|].
  set (d1 := put_file d (temp_name nonce) _) in *. clearbody d1. unfold replace_entry in E. cbv zeta in E. repeat case_in E; simplify_eq.
  cbn [List.hd]. unfold remove, entry_of, sync_directory, rename, set_names. cbn [di_names].
  rewrite lookup_insert_ne, lookup_delete_eq by (intros Eq; by apply (Hn nonce)). cbn [di_names di_earlier]. by rewrite lookup_insert_eq.
Qed.

Lemma entry_put_ne d n f name : n <> name -> entry_of (put_file d n f) name = entry_of d name.
Proof. intros Hn. unfold entry_of, put_file, set_names. cbn [di_names]. by rewrite lookup_insert_ne. Qed.

Lemma entry_rename d n f name : entry_of (rename d n name f) name = Some f.
Proof. unfold entry_of, rename, set_names. cbn [di_names]. by rewrite lookup_insert_eq. Qed.

Lemma entry_rename_ne d n target f name : n <> name -> target <> name -> entry_of (rename d n target f) name = entry_of d name.
Proof. intros Hn Ht. unfold entry_of, rename, set_names. cbn [di_names]. by rewrite lookup_insert_ne, lookup_delete_ne. Qed.

Lemma entry_remove_ne d n works name : n <> name -> entry_of (remove d n works) name = entry_of d name.
Proof.
  intros Hn. unfold remove. destruct (entry_of d n); [|done]. destruct works; [|done]. unfold entry_of, set_names. cbn [di_names]. by rewrite lookup_delete_ne.
Qed.

(** The process sees the old file or the new one, and the other entry
    untouched. *)
Lemma write_entry d target b w d' ds ok name :
  store_write d target b w = (d', ds, ok) -> (forall nonce, temp_name nonce <> name) ->
  entry_of d' name = entry_of d name \/ target = name /\ entry_of d' name = Some (private_file b true).
Proof.
  unfold store_write. intros E Hn. destruct (we_nonce w) as [nonce|]; [|simplify_eq; by left].
  cbv zeta in E. case_in E; [simplify_eq; by left|]. specialize (Hn nonce).
  rewrite <- (entry_put_ne d _ (private_file [] false) name Hn). set (d1 := put_file d (temp_name nonce) _) in *. clearbody d1.
  unfold replace_entry in E. cbv zeta in E. repeat case_in E; simplify_eq; cbn [List.hd]; rewrite entry_remove_ne, ?entry_put_ne by done; try by left.
  all: change (entry_of (sync_directory ?x) name) with (entry_of x name); destruct (decide (target = name)) as [->|Ht];
    [right; by rewrite entry_rename|left; by rewrite entry_rename_ne, !entry_put_ne].
Qed.
