(* ===== verification/LeapStore.v ===== *)
(** * internal/leap/store.go: the durable leap cache

    What is kept across restarts, the checks a record must pass before it is
    believed again, and the cache as a machine of saves, kills and losses of
    power over the directory of [LeapDisk].  The encoding is [encoding/json],
    a parameter. *)

From stdpp Require Import base list numbers strings gmap relations.
From Stdlib Require Import Lia ZArith.
From S2P Require Import Prelude GoTime GoDate GoStrings Sha256 LeapTable LeapDisk.

Local Open Scope Z_scope.

Definition maxStateSize : Z := 256 * 1024.
Definition maxSeedSize : Z := 4 * 1024.

(** [leap.Reason]. *)
Definition reason_text (r : Reason) : string :=
  match r with
  | ReasonSize => "size" | ReasonParse => "parse" | ReasonMetadata => "metadata" | ReasonTimeUnknown => "time_unknown"
  | ReasonExpired => "expired" | ReasonDate => "date" | ReasonRollback => "rollback" | ReasonConflict => "conflict"
  | ReasonHistory => "history" | ReasonFraming => "framing" | ReasonAuth => "auth" | ReasonRate => "rate" | ReasonIO => "io"
  end%string.

(** ** Records *)

(** [Provider]; the key id is a uint32. *)
Record Provider : Type := mkProvider { pv_Kind : string; pv_Name : str; pv_KeyID : Z }.

(** [Record]; its object is never nil. *)
Record LeapRecord : Type := mkRecord { lr_Object : Object; lr_Provider : Provider; lr_Accepted : time }.

Record LeapState : Type := mkLeapState {
  ls_Active : option LeapRecord;
  ls_Pending : option LeapRecord;
  ls_UTCbound : time;
  ls_Executed : time;
  ls_LastCheck : time
}.

#[export] Instance LeapState_eta : Eta LeapState := fun s =>
  mkLeapState (ls_Active s) (ls_Pending s) (ls_UTCbound s) (ls_Executed s) (ls_LastCheck s).

Definition zeroLeapState : LeapState := mkLeapState None None zeroTime zeroTime zeroTime.

Definition Anchor (s : LeapState) : option Object :=
  match ls_Pending s with
  | Some r => Some (lr_Object r)
  | None => match ls_Active s with Some r => Some (lr_Object r) | None => None end
  end.

(** ** The file's contents *)

Record diskRecord : Type := mkDiskRecord { dr_Manifest : Manifest; dr_Data : list Z; dr_Provider : Provider; dr_Accepted : time }.

Record diskState : Type := mkDiskState {
  ds_Version : Z;
  ds_Active : option diskRecord;
  ds_Pending : option diskRecord;
  ds_UTCbound : time;
  ds_Executed : time;
  ds_LastCheck : time
}.

Inductive StoreError : Type :=
| StoreRead (e : ReadError)
| StoreDecode
| StoreVersion
| StoreRecord (r : Reason)
| StoreMetadata
| StoreBound
| StorePending (r : Reason)
| StoreExecuted
| StoreAccepted
| StoreAcceptance (r : Reason)
| StoreLastCheck
| StoreIO.

Definition year_known (t : time) : bool := (1900 <=? Year t) && (Year t <=? 9999).

Definition provider_ok (p : Provider) : bool :=
  negb ((1024 <? Z.of_nat (length (pv_Name p))) ||
        negb (bool_decide (pv_Kind p ∈ ["file"; "nist"; "iers"; "peer"]%string)) ||
        (bool_decide (pv_Kind p = "peer"%string) && ((pv_KeyID p =? 0) || (65535 <? pv_KeyID p)))).

(** The record of the file: its bytes are parsed again, and nothing of the
    metadata is taken on trust. *)
Definition decode_record (d : option diskRecord) : result StoreError (option LeapRecord) :=
  match d with
  | None => Ok None
  | Some d =>
      match NewObject (dr_Data d) with
      | Err r => Err (StoreRecord r)
      | Ok o =>
          if negb (bool_decide (ob_manifest o = dr_Manifest d)) || IsZero (dr_Accepted d) || negb (provider_ok (dr_Provider d))
          then Err StoreMetadata
          else Ok (Some (mkRecord o (dr_Provider d) (dr_Accepted d)))
      end
  end.

(** The acceptance of a record, against the bound. *)
Definition check_accepted (bound : time) (r : option LeapRecord) : option StoreError :=
  match r with
  | None => None
  | Some r =>
      if After (lr_Accepted r) bound then Some StoreAccepted
      else match CheckUpdate None (Some (lr_Object r)) (lr_Accepted r) with
           | Some e => Some (StoreAcceptance e)
           | None => None
           end
  end.

(** [loadState], after the JSON. *)
Definition decode_state (d : diskState) : result StoreError LeapState :=
  if negb (ds_Version d =? 1) then Err StoreVersion
  else
    try a <- decode_record (ds_Active d);
    try p <- decode_record (ds_Pending d);
    if negb (IsZero (ds_UTCbound d)) && negb (year_known (ds_UTCbound d)) then Err StoreBound
    else
      match (match a, p with
             | Some a, Some p => CheckUpdate (Some (lr_Object a)) (Some (lr_Object p)) (lr_Accepted p)
             | _, _ => None
             end) with
      | Some e => Err (StorePending e)
      | None =>
          if negb (IsZero (ds_Executed d)) && ((Year (ds_Executed d) <? 1900) || After (ds_Executed d) (ds_UTCbound d))
          then Err StoreExecuted
          else
            match check_accepted (ds_UTCbound d) a with
            | Some e => Err e
            | None =>
                match check_accepted (ds_UTCbound d) p with
                | Some e => Err e
                | None =>
                    if negb (IsZero (ds_LastCheck d)) && ((Year (ds_LastCheck d) <? 1900) || After (ds_LastCheck d) (ds_UTCbound d))
                    then Err StoreLastCheck
                    else Ok (mkLeapState a p (ds_UTCbound d) (ds_Executed d) (ds_LastCheck d))
                end
            end
      end.

Definition encode_record (r : option LeapRecord) : option diskRecord :=
  match r with
  | None => None
  | Some r => Some (mkDiskRecord (ob_manifest (lr_Object r)) (ob_data (lr_Object r)) (lr_Provider r) (lr_Accepted r))
  end.

Definition encode_state (s : LeapState) : diskState :=
  mkDiskState 1 (encode_record (ls_Active s)) (encode_record (ls_Pending s)) (ls_UTCbound s) (ls_Executed s) (ls_LastCheck s).

(** ** The file *)

Section Encoding.

(** [json.Marshal] and the strict decoder. *)
Context (marshal : diskState -> list Z) (unmarshal : list Z -> option diskState).

(** What an entry loads as. *)
Definition load_entry (e : entry) : result StoreError LeapState :=
  match read_entry e maxStateSize with
  | Err x => Err (StoreRead x)
  | Ok None => Ok zeroLeapState
  | Ok (Some b) => match unmarshal b with None => Err StoreDecode | Some d => decode_state d end
  end.

Definition loadState (d : Directory) : result StoreError LeapState := load_entry (entry_of d state_json).

(** [Save]: the directory afterwards, those passed through on the way, and
    whether no error is returned. *)
Definition Save (d : Directory) (s : LeapState) (w : WriteEnv) : Directory * list Directory * bool :=
  let b := marshal (encode_state s) in
  if maxStateSize <? Z.of_nat (length b) then (d, [], false) else store_write d state_json b w.

(** *** The cache over time

    With the directory goes what the cache may load as: what the state of the
    last save that returned no error reads back as, and of the saves tried
    since. *)

Definition readback (s : LeapState) : result StoreError LeapState :=
  match unmarshal (marshal (encode_state s)) with None => Err StoreDecode | Some d => decode_state d end.

Definition cache : Type := Directory * list (result StoreError LeapState).

(** A process is killed, or the power is lost. *)
Definition interrupted (d d' : Directory) : Prop := d' = d \/ crash d d'.

Inductive cache_step : cache -> cache -> Prop :=
| cs_saved d cs s w d' ds : Save d s w = (d', ds, true) -> cache_step (d, cs) (d', [readback s])
| cs_failed d cs s w d' ds : Save d s w = (d', ds, false) -> cache_step (d, cs) (d', readback s :: cs)
| cs_saving d cs s w d' ds ok x y : Save d s w = (d', ds, ok) -> x ∈ ds -> interrupted x y -> cache_step (d, cs) (y, readback s :: cs)
| cs_seed d cs b w d' ds ok : store_write d seed_json b w = (d', ds, ok) -> cache_step (d, cs) (d', cs)
| cs_seeding d cs b w d' ds ok x y : store_write d seed_json b w = (d', ds, ok) -> x ∈ ds -> interrupted x y -> cache_step (d, cs) (y, cs)
| cs_crash d cs d' : crash d d' -> cache_step (d, cs) (d', cs).

End Encoding.

(** ** Validity *)

Definition leap_record_ok (bound : time) (r : LeapRecord) : Prop :=
  NewObject (ob_data (lr_Object r)) = Ok (lr_Object r) /\ lr_Accepted r <> zeroTime /\ provider_ok (lr_Provider r) = true /\
  lr_Accepted r <= bound /\ CheckUpdate None (Some (lr_Object r)) (lr_Accepted r) = None.

(** A state the cache may hold. *)
Record state_ok (s : LeapState) : Prop := {
  so_active : forall r, ls_Active s = Some r -> leap_record_ok (ls_UTCbound s) r;
  so_pending : forall r, ls_Pending s = Some r -> leap_record_ok (ls_UTCbound s) r;
  so_update : forall a p, ls_Active s = Some a -> ls_Pending s = Some p ->
    CheckUpdate (Some (lr_Object a)) (Some (lr_Object p)) (lr_Accepted p) = None;
  so_bound : ls_UTCbound s = zeroTime \/ 1900 <= Year (ls_UTCbound s) <= 9999;
  so_executed : ls_Executed s = zeroTime \/ 1900 <= Year (ls_Executed s) /\ ls_Executed s <= ls_UTCbound s;
  so_checked : ls_LastCheck s = zeroTime \/ 1900 <= Year (ls_LastCheck s) /\ ls_LastCheck s <= ls_UTCbound s
}.

Lemma NewObject_data data o : NewObject data = Ok o -> ob_data o = data.
Proof.
  unfold NewObject. case_goal; [done|]. destruct (Parse data); [|done]. case_goal; [done|]. by intros [= <-].
Qed.

Lemma decode_record_spec d r :
  decode_record d = Ok (Some r) ->
  NewObject (ob_data (lr_Object r)) = Ok (lr_Object r) /\ lr_Accepted r <> zeroTime /\ provider_ok (lr_Provider r) = true.
Proof.
  unfold decode_record. destruct d as [d|]; [|done]. destruct (NewObject (dr_Data d)) as [o|e] eqn:En; [|done].
  destruct (negb (bool_decide _) || _ || _) eqn:E; [done|]. intros [= <-]. cbn [lr_Object lr_Accepted lr_Provider].
  apply orb_false_iff in E as [E E3]. apply orb_false_iff in E as [_ E2]. apply negb_false_iff in E3.
  rewrite (NewObject_data _ _ En). split; [done|]. split; [|done]. unfold IsZero in E2. by apply Z.eqb_neq in E2.
Qed.

Lemma decode_encode_record r :
  (forall x, r = Some x -> NewObject (ob_data (lr_Object x)) = Ok (lr_Object x) /\ lr_Accepted x <> zeroTime /\
     provider_ok (lr_Provider x) = true) ->
  decode_record (encode_record r) = Ok r.
Proof.
  destruct r as [r|]; [|done]. intros H. destruct (H r eq_refl) as (H1 & H2 & H3). unfold decode_record, encode_record. cbn [dr_Data dr_Manifest dr_Accepted dr_Provider].
  rewrite H1, H3, bool_decide_eq_true_2 by done. unfold IsZero. apply Z.eqb_neq in H2. rewrite H2. by destruct r.
Qed.

Lemma check_accepted_spec bound r :
  check_accepted bound r = None <->
  forall x, r = Some x -> lr_Accepted x <= bound /\ CheckUpdate None (Some (lr_Object x)) (lr_Accepted x) = None.
Proof.
  unfold check_accepted. destruct r as [r|]; [|naive_solver]. unfold After. split.
  - intros H x [= <-]. destruct (bound <? lr_Accepted r) eqn:E; [done|]. bool_step.
    destruct (CheckUpdate None (Some (lr_Object r)) (lr_Accepted r)) eqn:Ec; [done|]. split; [lia|done].
  - intros H. destruct (H r eq_refl) as [H1 H2]. rewrite H2. assert ((bound <? lr_Accepted r) = false) as -> by (by apply Z.ltb_ge). done.
Qed.

Lemma bounded_date_spec t bound :
  negb (IsZero t) && ((Year t <? 1900) || After t bound) = false <-> t = zeroTime \/ 1900 <= Year t /\ t <= bound.
Proof.
  unfold IsZero, After. destruct (Z.eqb_spec t zeroTime) as [->|Hne]; cbn [negb andb]; [naive_solver|].
  rewrite orb_false_iff, !Z.ltb_ge. naive_solver.
Qed.

Lemma bound_date_spec t : negb (IsZero t) && negb (year_known t) = false <-> t = zeroTime \/ 1900 <= Year t <= 9999.
Proof.
  unfold IsZero, year_known. destruct (Z.eqb_spec t zeroTime) as [->|Hne]; cbn [negb andb]; [naive_solver|].
  rewrite negb_false_iff, andb_true_iff, !Z.leb_le. naive_solver.
Qed.

Lemma decode_state_ok d s : decode_state d = Ok s -> state_ok s.
Proof.
  unfold decode_state. case_goal; [done|]. destruct (decode_record (ds_Active d)) as [a|] eqn:Ea; [|done]. cbn [result_bind].
  destruct (decode_record (ds_Pending d)) as [p|] eqn:Ep; [|done]. cbn [result_bind].
  destruct (negb (IsZero (ds_UTCbound d)) && _) eqn:E1; [done|]. apply bound_date_spec in E1.
  destruct (match a, p with Some _, Some _ => _ | _, _ => _ end) eqn:E2; [done|].
  destruct (negb (IsZero (ds_Executed d)) && _) eqn:E3; [done|]. apply bounded_date_spec in E3.
  destruct (check_accepted (ds_UTCbound d) a) eqn:E4; [done|]. destruct (check_accepted (ds_UTCbound d) p) eqn:E5; [done|].
  destruct (negb (IsZero (ds_LastCheck d)) && _) eqn:E6; [done|]. apply bounded_date_spec in E6. intros [= <-].
  pose proof (proj1 (check_accepted_spec _ _) E4) as C4. pose proof (proj1 (check_accepted_spec _ _) E5) as C5.
  constructor; cbn [ls_Active ls_Pending ls_UTCbound ls_Executed ls_LastCheck]; try done.
  - intros r ->. destruct (decode_record_spec _ _ Ea) as (? & ? & ?). destruct (C4 r eq_refl). by repeat split.
  - intros r ->. destruct (decode_record_spec _ _ Ep) as (? & ? & ?). destruct (C5 r eq_refl). by repeat split.
  - intros a' p' -> ->. done.
Qed.

Lemma decode_encode_state s : state_ok s -> decode_state (encode_state s) = Ok s.
Proof.
  intros [H1 H2 H3 H4 H5 H6]. unfold decode_state, encode_state.
  cbn [ds_Version ds_Active ds_Pending ds_UTCbound ds_Executed ds_LastCheck Z.eqb Pos.eqb negb].
  rewrite !decode_encode_record; [|intros r Hr; destruct (H2 r Hr) as (? & ? & ? & _); done|intros r Hr; destruct (H1 r Hr) as (? & ? & ? & _); done].
  cbn [result_bind]. apply bound_date_spec in H4. rewrite H4.
  assert ((match ls_Active s, ls_Pending s with
           | Some a, Some p => CheckUpdate (Some (lr_Object a)) (Some (lr_Object p)) (lr_Accepted p)
           | _, _ => None end) = None) as ->.
  { destruct (ls_Active s), (ls_Pending s); try done. by apply H3. }
  apply bounded_date_spec in H5. rewrite H5. apply bounded_date_spec in H6. rewrite H6.
  assert (check_accepted (ls_UTCbound s) (ls_Active s) = None) as ->
    by (apply check_accepted_spec; intros r Hr; destruct (H1 r Hr) as (_ & _ & _ & ? & ?); done).
  assert (check_accepted (ls_UTCbound s) (ls_Pending s) = None) as ->
    by (apply check_accepted_spec; intros r Hr; destruct (H2 r Hr) as (_ & _ & _ & ? & ?); done).
  by destruct s.
Qed.

Lemma decode_record_inv d r : decode_record d = Ok r -> encode_record r = d.
Proof.
  unfold decode_record. destruct d as [d|]; [|by intros [= <-]]. destruct (NewObject (dr_Data d)) as [o|] eqn:En; [|done].
  destruct (negb (bool_decide (ob_manifest o = dr_Manifest d)) || _ || _) eqn:E; [done|]. intros [= <-]. apply orb_false_iff in E as [E _]. apply orb_false_iff in E as [E _].
  apply negb_false_iff, bool_decide_eq_true in E. cbn. rewrite (NewObject_data _ _ En), E. by destruct d.
Qed.

Lemma decode_state_inv d s : decode_state d = Ok s -> encode_state s = d.
Proof.
  unfold decode_state. destruct (negb (ds_Version d =? 1)) eqn:Ev; [done|]. apply negb_false_iff, Z.eqb_eq in Ev.
  destruct (decode_record (ds_Active d)) as [a|] eqn:Ea; [|done]. cbn [result_bind].
  destruct (decode_record (ds_Pending d)) as [p|] eqn:Ep; [|done]. cbn [result_bind]. apply decode_record_inv in Ea, Ep.
  destruct (negb (IsZero (ds_UTCbound d)) && _); [done|]. destruct (match a, p with Some _, Some _ => _ | _, _ => _ end); [done|].
  destruct (negb (IsZero (ds_Executed d)) && _); [done|]. destruct (check_accepted (ds_UTCbound d) a); [done|]. destruct (check_accepted (ds_UTCbound d) p); [done|].
  destruct (negb (IsZero (ds_LastCheck d)) && _); [done|]. intros [= <-]. unfold encode_state. cbn [ls_Active ls_Pending ls_UTCbound ls_Executed ls_LastCheck].
  rewrite Ea, Ep, <- Ev. by destruct d.
Qed.

Lemma NewObject_size data o : NewObject data = Ok o -> mf_Size (ob_manifest o) = Z.of_nat (length data) /\ (0 < length data)%nat /\ Z.of_nat (length data) <= MaxFileSize.
Proof.
  unfold NewObject. destruct ((length data =? 0)%nat || _) eqn:E; [done|]. destruct (Parse data); [|done]. case_goal; [done|]. intros E1.
  assert (o = mkObject (mkManifest (dateSeconds (t_Updated a)) (dateSeconds (Expiry a)) (Sum256 data) (u32 (Z.of_nat (length data)))) a data) as -> by congruence.
  cbn [ob_manifest mf_Size]. repeat bool_step. unfold MaxFileSize in *. rewrite wrapu_id by (unfold in_u; lia). split; [done|lia].
Qed.

(** A record read from the file: its object is what the bytes parse to, and the
    manifest the file has beside them describes these bytes. *)
Definition record_matches (dr : diskRecord) (r : LeapRecord) : Prop :=
  NewObject (dr_Data dr) = Ok (lr_Object r) /\ ob_manifest (lr_Object r) = dr_Manifest dr /\
  mf_Digest (dr_Manifest dr) = Sum256 (dr_Data dr) /\ mf_Size (dr_Manifest dr) = Z.of_nat (length (dr_Data dr)) /\
  lr_Provider r = dr_Provider dr /\ lr_Accepted r = dr_Accepted dr.

Lemma decode_record_matches d r : decode_record d = Ok r -> option_Forall2 record_matches d r.
Proof.
  intros E. pose proof (decode_record_inv _ _ E) as Ei. destruct r as [r|]; [|destruct d; [done|constructor]].
  destruct d as [d|]; [|done]. apply (inj Some) in Ei as <-. constructor. destruct (decode_record_spec _ _ E) as (Hn & _ & _).
  destruct (NewObject_size _ _ Hn) as (Hz & _ & _). split; [done|]. split; [done|]. cbn [dr_Manifest dr_Data dr_Provider dr_Accepted].
  split; [|by split]. unfold NewObject in Hn. repeat case_in Hn; try done. injection Hn as Hn. rewrite <- Hn. reflexivity.
Qed.

Lemma decode_state_fields d s : decode_state d = Ok s ->
  option_Forall2 record_matches (ds_Active d) (ls_Active s) /\ option_Forall2 record_matches (ds_Pending d) (ls_Pending s) /\
  ls_UTCbound s = ds_UTCbound d /\ ls_Executed s = ds_Executed d /\ ls_LastCheck s = ds_LastCheck d.
Proof.
  unfold decode_state. case_goal; [done|]. destruct (decode_record (ds_Active d)) as [a|] eqn:Ea; [|done]. cbn [result_bind].
  destruct (decode_record (ds_Pending d)) as [p|] eqn:Ep; [|done]. cbn [result_bind]. apply decode_record_matches in Ea, Ep.
  destruct (negb (IsZero (ds_UTCbound d)) && _); [done|]. destruct (match a, p with Some _, Some _ => _ | _, _ => _ end); [done|].
  destruct (negb (IsZero (ds_Executed d)) && _); [done|]. destruct (check_accepted (ds_UTCbound d) a); [done|].
  destruct (check_accepted (ds_UTCbound d) p); [done|]. destruct (negb (IsZero (ds_LastCheck d)) && _); [done|]. intros [= <-]. by split_and!.
Qed.

(** *** Reading *)

Lemma read_entry_spec e limit b : read_entry e limit = Ok (Some b) ->
  exists f, e = Some f /\ fi_kind f = KindRegular /\ Z.land (fi_perm f) 63 = 0 /\ Z.of_nat (length (fi_bytes f)) <= limit /\ fi_bytes f = b.
Proof.
  unfold read_entry. destruct e as [f|]; [|done]. case_goal; [done|]. destruct (negb _ || _ || _) eqn:E; [done|]. cbv zeta. case_goal; [done|]. intros [= <-].
  apply orb_false_iff in E as [E E3]. apply orb_false_iff in E as [E1 E2]. apply negb_false_iff, bool_decide_eq_true in E1.
  apply negb_false_iff, Z.eqb_eq in E2. apply Z.ltb_ge in E3. exists f. split_and!; try done. symmetry. apply take_ge. lia.
Qed.

Lemma read_private b synced limit : Z.of_nat (length b) <= limit -> read_entry (Some (private_file b synced)) limit = Ok (Some b).
Proof.
  intros H. unfold read_entry, private_file. cbn [fi_kind fi_perm fi_bytes]. rewrite bool_decide_eq_false_2 by done. rewrite bool_decide_eq_true_2 by done.
  cbn [negb orb]. change (Z.land 384 63 =? 0) with true. cbn [negb orb]. assert ((limit <? Z.of_nat (length b)) = false) as -> by (by apply Z.ltb_ge).
  cbv zeta. rewrite take_ge by lia. by assert ((limit <? Z.of_nat (length b)) = false) as -> by (by apply Z.ltb_ge).
Qed.

Section Cache.
Context (marshal : diskState -> list Z) (unmarshal : list Z -> option diskState).

(** Everything the disk may hold of the cache loads as one of the candidates. *)
Definition cache_ok (c : cache) : Prop :=
  always state_json (fun e => is_synced e /\ load_entry unmarshal e ∈ c.2) c.1.

Lemma saved_loads s :
  Z.of_nat (length (marshal (encode_state s))) <= maxStateSize ->
  load_entry unmarshal (Some (private_file (marshal (encode_state s)) true)) = readback marshal unmarshal s.
Proof. intros H. unfold load_entry, readback. by rewrite read_private. Qed.

Lemma Save_spec d s w d' ds ok : Save marshal d s w = (d', ds, ok) ->
  (d' = d /\ ds = [] /\ ok = false) \/
  Z.of_nat (length (marshal (encode_state s))) <= maxStateSize /\ store_write d state_json (marshal (encode_state s)) w = (d', ds, ok).
Proof.
  unfold Save. cbv zeta. destruct (maxStateSize <? _) eqn:E; [intros [= <- <- <-]; by left|]. apply Z.ltb_ge in E. by right.
Qed.

Lemma state_not_temp nonce : temp_name nonce <> state_json.
Proof. apply temp_not_target. Qed.

Lemma interrupted_ok cs d d' : cache_ok (d, cs) -> interrupted d d' -> cache_ok (d', cs).
Proof. intros H [->|Hc]; [done|]. by apply (always_crash _ _ d). Qed.

(** Whatever a save does, the disk holds the candidates or the new state. *)
Lemma Save_ok d cs s w d' ds ok : Save marshal d s w = (d', ds, ok) -> cache_ok (d, cs) ->
  cache_ok (d', readback marshal unmarshal s :: cs) /\ (forall x, x ∈ ds -> cache_ok (x, readback marshal unmarshal s :: cs)).
Proof.
  intros E H. assert (cache_ok (d, readback marshal unmarshal s :: cs)) as H1.
  { revert H. apply always_mono. intros e [? ?]. split; [done|]. apply elem_of_cons. by right. }
  apply Save_spec in E as [(-> & -> & _)|[Hl E]]; [split; [done|]; by intros x ?%elem_of_nil|].
  apply (write_always _ _ _ _ _ _ _ _ _ E H1 state_not_temp). right. split; [by intros f [= <-]|].
  cbn [snd]. rewrite saved_loads by done. apply elem_of_cons. by left.
Qed.

Lemma seed_ok d cs b w d' ds ok : store_write d seed_json b w = (d', ds, ok) -> cache_ok (d, cs) -> cache_ok (d', cs) /\ (forall x, x ∈ ds -> cache_ok (x, cs)).
Proof. intros E H. apply (write_always _ _ _ _ _ _ _ _ _ E H state_not_temp). by left. Qed.

Lemma cache_step_ok c c' : cache_step marshal unmarshal c c' -> cache_ok c -> cache_ok c'.
Proof.
  intros Hs H. destruct Hs as [d cs s w d' ds E|d cs s w d' ds E|d cs s w d' ds ok x y E Hx Hi|d cs b w d' ds ok E|d cs b w d' ds ok x y E Hx Hi|d cs d' Hc].
  - apply Save_spec in E as [(_ & _ & ?)|[Hl E]]; [done|]. destruct (write_done _ _ _ _ _ _ E state_not_temp) as [He Hd].
    intros m Hm. unfold possible in Hm. cbn [fst] in Hm. rewrite Hd in Hm. apply list_elem_of_singleton in Hm as ->. unfold entry_of in He. rewrite He.
    split; [by intros f [= <-]|]. cbn [snd]. rewrite saved_loads by done. by apply list_elem_of_singleton.
  - exact (proj1 (Save_ok _ _ _ _ _ _ _ E H)).
  - destruct (Save_ok _ _ _ _ _ _ _ E H) as [_ Hp]. by eapply interrupted_ok; [apply Hp|].
  - exact (proj1 (seed_ok _ _ _ _ _ _ _ E H)).
  - destruct (seed_ok _ _ _ _ _ _ _ E H) as [_ Hp]. by eapply interrupted_ok; [apply Hp|].
  - eapply interrupted_ok; [done|]. by right.
Qed.

Lemma cache_run_ok c c' : rtc (cache_step marshal unmarshal) c c' -> cache_ok c -> cache_ok c'.
Proof. induction 1 as [|c c1 c2 Hs _ IH]; [done|]. intros H. by apply IH, (cache_step_ok c). Qed.

Lemma cache_start d : settled_directory d -> cache_ok (d, [loadState unmarshal d]).
Proof.
  intros [He Hs] m Hm. unfold possible in Hm. cbn [fst] in Hm. rewrite He in Hm. apply list_elem_of_singleton in Hm as ->.
  split; [intros f; apply Hs|]. by apply list_elem_of_singleton.
Qed.

Lemma loadState_spec d s : loadState unmarshal d = Ok s ->
  entry_of d state_json = None /\ s = zeroLeapState \/
  exists f ds, entry_of d state_json = Some f /\ fi_kind f = KindRegular /\ Z.land (fi_perm f) 63 = 0 /\ Z.of_nat (length (fi_bytes f)) <= maxStateSize /\
    unmarshal (fi_bytes f) = Some ds /\ decode_state ds = Ok s.
Proof.
  unfold loadState, load_entry. destruct (read_entry (entry_of d state_json) maxStateSize) as [[b|]|x] eqn:E; [| |done].
  - intros H. right. destruct (read_entry_spec _ _ _ E) as (f & Ef & H1 & H2 & H3 & <-). destruct (unmarshal (fi_bytes f)) as [ds|] eqn:Eu; [|done].
    exists f, ds. by rewrite Ef.
  - intros [= <-]. left. split; [|done]. unfold read_entry in E. destruct (entry_of d state_json); [|done]. repeat case_in E; done.
Qed.

Lemma loadState_holds d s : loadState unmarshal d = Ok s ->
  ((exists f, entry_of d state_json = Some f /\ fi_kind f = KindRegular /\ Z.land (fi_perm f) 63 = 0 /\ unmarshal (fi_bytes f) = Some (encode_state s)) \/
   s = zeroLeapState) /\ (s = zeroLeapState \/ state_ok s).
Proof.
  intros Hl. apply loadState_spec in Hl as [[_ ->]|(f & ds & H1 & H2 & H3 & _ & H5 & H6)]; [auto|]. rewrite (decode_state_inv _ _ H6).
  split; [left; by exists f|right; by eapply decode_state_ok].
Qed.

(** A save that meets no failing call returns no error. *)
Lemma Save_succeeds d s w nonce :
  we_nonce w = Some nonce -> entry_of d (temp_name nonce) = None -> we_fail w = None -> is_directory (entry_of d state_json) = false ->
  Z.of_nat (length (marshal (encode_state s))) <= maxStateSize -> (Save marshal d s w).2 = true.
Proof.
  intros Hn Hf Hw Hd Hl. unfold Save. cbv zeta. assert ((maxStateSize <? Z.of_nat (length (marshal (encode_state s)))) = false) as -> by (by apply Z.ltb_ge).
  unfold store_write, replace_entry, fails. rewrite Hn, Hw, Hf. rewrite !(bool_decide_eq_false_2 (None = Some _)) by done. rewrite bool_decide_eq_false_2 by (intros [? [=]]).
  cbv zeta. cbn [orb]. rewrite !entry_put_ne by apply state_not_temp. by rewrite Hd.
Qed.

(** Claim C40: the leap cache survives kills and losses of power, and what it
    loads has been checked against its own manifests.  From a directory with
    nothing left to reach the disk, over any sequence of saves (with any call
    failing), writes of the seed bookkeeping, kills and losses of power at any
    point of either, [state.json] always loads as the state of the last save
    that returned no error or of one tried since; a save whose calls all work
    returns no error; and a valid state reads back as itself.  What loads comes
    from a private regular file of bounded size, its objects are what the
    recorded bytes parse to, the recorded digest, size and dates are those of
    these bytes, and the state is valid: its objects were applicable when
    accepted, the pending one a legal update of the active one, and no date is
    later than the established bound. *)
Theorem store_sound d0 d cs :
  settled_directory d0 -> rtc (cache_step marshal unmarshal) (d0, [loadState unmarshal d0]) (d, cs) ->
  loadState unmarshal d ∈ cs /\
  (forall s w nonce, we_nonce w = Some nonce -> entry_of d (temp_name nonce) = None -> we_fail w = None -> is_directory (entry_of d state_json) = false ->
     Z.of_nat (length (marshal (encode_state s))) <= maxStateSize -> (Save marshal d s w).2 = true) /\
  (forall s, state_ok s -> unmarshal (marshal (encode_state s)) = Some (encode_state s) -> readback marshal unmarshal s = Ok s) /\
  (forall s, loadState unmarshal d = Ok s ->
     entry_of d state_json = None /\ s = zeroLeapState \/
     exists f ds, entry_of d state_json = Some f /\ fi_kind f = KindRegular /\ Z.land (fi_perm f) 63 = 0 /\ Z.of_nat (length (fi_bytes f)) <= maxStateSize /\
       unmarshal (fi_bytes f) = Some ds /\
       option_Forall2 record_matches (ds_Active ds) (ls_Active s) /\ option_Forall2 record_matches (ds_Pending ds) (ls_Pending s) /\
       ls_UTCbound s = ds_UTCbound ds /\ ls_Executed s = ds_Executed ds /\ ls_LastCheck s = ds_LastCheck ds /\ state_ok s).
Proof.
  intros H0 Hr. split; [|split; [|split]].
  - pose proof (cache_run_ok _ _ Hr (cache_start _ H0)) as H. by destruct (always_now _ _ _ H).
  - intros s w nonce. apply Save_succeeds.
  - intros s Hs Hj. unfold readback. rewrite Hj. by apply decode_encode_state.
  - intros s Hs. apply loadState_spec in Hs as [?|(f & ds & H1 & H2 & H3 & H4 & H5 & H6)]; [by left|right]. exists f, ds.
    pose proof (decode_state_ok _ _ H6). by destruct (decode_state_fields _ _ H6) as (? & ? & ? & ? & ?).
Qed.

End Cache.

Definition example_leap_record : LeapRecord :=
  mkRecord (object_of example_table_file) (mkProvider "file"%string [97] 0) (unixTime 1717200000 0).
Definition example_leap_state : LeapState :=
  mkLeapState (Some example_leap_record) None (unixTime 1717200000 0) zeroTime zeroTime.

Lemma example_leap_state_ok : state_ok example_leap_state.
Proof. apply (decode_state_ok (encode_state example_leap_state)). vm_compute. reflexivity. Qed.

Definition example_marshal (d : diskState) : list Z := [Z.of_nat (length (option_list (ds_Active d)))].
Definition example_unmarshal (b : list Z) : option diskState :=
  if bool_decide (b = [1]) then Some (encode_state example_leap_state) else if bool_decide (b = [0]) then Some (encode_state zeroLeapState) else None.
Definition empty_directory : Directory := mkDirectory ∅ [].
Definition write_with (s : option stage) (nonce : Z) : WriteEnv := mkWriteEnv (Some [nonce]) s 0 true.

(** The directory after a save, and after a second one that has renamed its
    file and not yet synced the directory. *)
Definition saved_directory : Directory := (Save example_marshal empty_directory example_leap_state (write_with None 1)).1.1.
Definition second_save := Save example_marshal saved_directory zeroLeapState (write_with (Some StageDirectorySync) 2).

Lemma saved_settled : settled_directory saved_directory.
Proof.
  split; [vm_compute; reflexivity|].
  assert (map_Forall (fun (_ : str) f => fi_synced f = true) (di_names saved_directory)) as H by (refine (bool_decide_unpack _ _); vm_compute; exact I). exact H.
Qed.

(** The power is lost there, and the first state is back: it is one of the two
    the cache may load. *)
Lemma store_sound_witness :
  exists x ds, second_save.1.2 = x :: ds /\ loadState example_unmarshal x = Ok zeroLeapState /\ crash x saved_directory /\
    loadState example_unmarshal saved_directory ∈ [Ok zeroLeapState; Ok example_leap_state].
Proof.
  assert (exists x ds, second_save.1.2 = x :: ds) as (x & ds & Ex) by (vm_compute; eexists _, _; reflexivity).
  assert (x = List.hd empty_directory second_save.1.2) as Hx by (by rewrite Ex).
  assert (crash x saved_directory) as Hc.
  { apply crash_back; [exact saved_settled|]. rewrite Hx. apply (list_elem_of_lookup_2 _ 4). vm_compute. reflexivity. }
  exists x, ds. split; [exact Ex|]. split; [rewrite Hx; vm_compute; reflexivity|]. split; [exact Hc|].
  assert (settled_directory empty_directory) as He by (split; [reflexivity|]; intros name f; unfold entry_of, empty_directory; cbn [di_names]; by rewrite lookup_empty).
  refine (proj1 (store_sound example_marshal example_unmarshal empty_directory saved_directory [Ok zeroLeapState; Ok example_leap_state] He _)).
  apply rtc_l with (saved_directory, [Ok example_leap_state]).
  - assert (Ok example_leap_state = readback example_marshal example_unmarshal example_leap_state) as -> by (vm_compute; reflexivity).
    eapply (cs_saved _ _ _ _ _ (write_with None 1) _ (Save example_marshal empty_directory example_leap_state (write_with None 1)).1.2). vm_compute. reflexivity.
  - apply rtc_once. assert (Ok zeroLeapState = readback example_marshal example_unmarshal zeroLeapState) as -> by (vm_compute; reflexivity).
    apply (cs_saving _ _ _ _ _ (write_with (Some StageDirectorySync) 2) second_save.1.1 second_save.1.2 second_save.2 x).
    + fold second_save. by destruct second_save as [[? ?] ?].
    + rewrite Ex. apply elem_of_cons. by left.
    + right. exact Hc.
Defined.
