(* ===== verification/DriftFile.v ===== *)
(** * internal/engine/engine.go: the drift file on disk

    The replacement of the drift file and the sweep of the temporaries an
    interrupted replacement leaves behind.  A directory is the list of its
    entries; the system calls that can fail are the stages of a write. *)

From stdpp Require Import base list numbers.
From Stdlib Require Import Lia ZArith.
From S2P Require Import Prelude GoTime GoStrings.

Local Open Scope Z_scope.

(** ** Names *)

(** "-tmp-", "drift" and ".drift-". *)
Definition tmp_mark : str := [45; 116; 109; 112; 45].
Definition drift_name : str := [100; 114; 105; 102; 116].
Definition legacy_mark : str := [46] ++ drift_name ++ [45].

(** [driftTempPattern] of a file named [base]: what [os.CreateTemp] puts a
    random number behind. *)
Definition driftTempPattern (base : str) : str := [46] ++ base ++ tmp_mark.

(** The name without its trailing digits. *)
Fixpoint strip_digits (rev_name : str) : str :=
  match rev_name with c :: r => if is_digit c then strip_digits r else rev_name | [] => [] end.

(** [driftTempName]: "-tmp-" and one or more digits at the end. *)
Definition driftTempName (name : str) : bool :=
  let r := strip_digits (reverse name) in
  negb (bool_decide (length r = length name)) && HasPrefix r (reverse tmp_mark).

(** [legacyDriftTempName]: ".drift-" and one or more digits, and nothing else. *)
Definition legacyDriftTempName (name : str) : bool :=
  HasPrefix name legacy_mark &&
  let d := drop (length legacy_mark) name in negb (bool_decide (d = [])) && forallb is_digit d.

(** ** The sweep *)

Record dirEntry : Type := mkDirEntry { de_name : str; de_regular : bool; de_mtime : time; de_inode : Z }.

(** Whether the sweep for the file [base], itself inode [dest] when it exists,
    removes an entry. *)
Definition swept (base : str) (dest : option Z) (now : time) (d : dirEntry) : bool :=
  HasPrefix (de_name d) [46] &&
  (HasPrefix (de_name d) (driftTempPattern base) && driftTempName (de_name d) ||
   bool_decide (base = drift_name) && legacyDriftTempName (de_name d)) &&
  (de_regular d && negb (Sub now (de_mtime d) <? Minute)) &&
  negb (bool_decide (dest = Some (de_inode d))).

(** [sweepDriftTemps]: the directory afterwards; [removable] is whether the
    removal of a name succeeds. *)
Definition sweepDriftTemps (base : str) (dest : option Z) (now : time) (removable : str -> bool) (dir : list dirEntry) : list dirEntry :=
  List.filter (fun d => negb (swept base dest now d && removable (de_name d))) dir.

(** ** The write *)

Inductive write_stage : Type :=
| WCreate | WWrite | WSync | WClose | WChmod | WRename | WOpenDir | WSyncDir | WCloseDir.

(** [writeDrift]: the drift file, the temporaries and whether an error is
    returned, when [failing] is the first call to fail.  Every failure before
    the rename removes the temporary. *)
Definition writeDrift (old : option (list Z)) (text : list Z) (failing : option write_stage) : option (list Z) * list (list Z) * bool :=
  match failing with
  | None => (Some text, [], true)
  | Some (WOpenDir | WSyncDir | WCloseDir) => (Some text, [], false)
  | Some (WCreate | WWrite | WSync | WClose | WChmod | WRename) => (old, [], false)
  end.

(** ** Facts *)

Lemma HasPrefix_app s p : HasPrefix s p = true -> exists t, s = p ++ t.
Proof. unfold HasPrefix. intros H. bool_step. exists (drop (length p) s). rewrite <- H at 1. by rewrite take_drop. Qed.

(** The sweep never removes the drift file, under its name or another, nor a
    directory, a link or a file younger than a minute: what goes is a hidden
    regular file with a name longer than the drift file's. *)
Theorem sweep_spares_drift base dest now d :
  swept base dest now d = true ->
  de_name d <> base /\ dest <> Some (de_inode d) /\ de_regular d = true /\ Minute <= Sub now (de_mtime d) /\
  (length base < length (de_name d))%nat.
Proof.
  unfold swept. intros H. apply andb_true_iff in H as [H Hdest]. apply andb_true_iff in H as [H Hreg]. apply andb_true_iff in H as [_ Hname].
  repeat bool_step. assert (length base < length (de_name d))%nat as Hlen.
  { apply orb_true_iff in Hname as [Hn|Hn]; apply andb_true_iff in Hn as [Hn1 Hn2].
    - apply HasPrefix_app in Hn1 as [t ->]. unfold driftTempPattern. rewrite !length_app. cbn. lia.
    - bool_step. subst base. unfold legacyDriftTempName in Hn2. apply andb_true_iff in Hn2 as [Hn2 _]. apply HasPrefix_app in Hn2 as [t ->].
      unfold legacy_mark. rewrite !length_app. cbn. lia. }
  split; [intros E; rewrite E in Hlen; lia|]. split_and!; done.
Qed.

(** What [os.CreateTemp] makes for this file is swept when it is old enough. *)
Theorem own_temporary_swept base dest now d digits :
  digits <> [] -> Forall (fun c => is_digit c = true) digits -> de_name d = driftTempPattern base ++ digits -> de_regular d = true ->
  Minute <= Sub now (de_mtime d) -> dest <> Some (de_inode d) -> swept base dest now d = true.
Proof.
  intros Hne Hd Hname Hreg Hage Hdest. unfold swept. rewrite Hname, Hreg, (bool_decide_eq_false_2 (dest = Some (de_inode d))) by done.
  assert ((Sub now (de_mtime d) <? Minute) = false) as -> by (by apply Z.ltb_ge). cbn [negb andb].
  assert (HasPrefix (driftTempPattern base ++ digits) [46] = true) as -> by done.
  assert (HasPrefix (driftTempPattern base ++ digits) (driftTempPattern base) = true) as ->
    by (unfold HasPrefix; rewrite take_app_length; by rewrite bool_decide_eq_true_2).
  assert (forall r s, Forall (fun c => is_digit c = true) r -> strip_digits (r ++ s) = strip_digits s) as Hs.
  { induction r as [|c r IH]; intros s Hr; [done|]. apply Forall_cons_1 in Hr as [Hc Hr]. cbn [app strip_digits]. rewrite Hc. by apply IH. }
  assert (driftTempName (driftTempPattern base ++ digits) = true) as ->; [|by rewrite orb_true_l].
  unfold driftTempName, driftTempPattern. rewrite reverse_app, Hs by (by apply Forall_reverse).
  rewrite !reverse_app, <- !app_assoc. change (reverse tmp_mark) with ([45; 112; 109; 116; 45] : str). cbn [app strip_digits is_digit].
  change (is_digit 45) with false. cbn iota. apply andb_true_iff. split; [|reflexivity].
  apply negb_true_iff, bool_decide_eq_false_2. cbn [length]. rewrite !length_app, !length_reverse. cbn [length].
  destruct digits as [|x digits]; [done|]. unfold tmp_mark. rewrite ?length_app. cbn [length reverse rev_append]. lia.
Qed.

(** A reader finds the old text or the new one, complete; no temporary stays;
    success means the new one. *)
Theorem drift_write_atomic old text failing :
  let '(file, tmp, ok) := writeDrift old text failing in
  (file = old \/ file = Some text) /\ tmp = [] /\ (ok = true -> file = Some text).
Proof. destruct failing as [[]|]; cbn; repeat split; auto; done. Qed.

(** A file another destination's writer made can match too: ".drift-tmp-b-tmp-1"
    is the temporary of "drift-tmp-b", and the sweep for "drift" removes it. *)
Theorem sweep_takes_foreign_temporary :
  let foreign := drift_name ++ tmp_mark ++ [98] in
  let d := mkDirEntry (driftTempPattern foreign ++ [49]) true zeroTime 7 in
  swept drift_name None (zeroTime + Hour) d = true.
Proof. vm_compute. reflexivity. Qed.
