(* ===== verification/Drift.v ===== *)
(** * internal/engine/engine.go: the drift file

    Which frequency is worth persisting, and the worker that persists it.  The
    worker and the engine are two goroutines sharing a channel of capacity one;
    [drift_step] interleaves their atomic operations. *)

From stdpp Require Import base list numbers strings.
From Stdlib Require Import Lia ZArith.
From S2P Require Import Prelude Float64 GoTime NtpTime Measurement Select Loop System Clock.

Local Open Scope Z_scope.

Definition minDriftUpdates : Z := 2.
Definition defaultDriftStableWindow : duration := 15 * Minute.
Definition defaultDriftStableSpread : f64 := of_Z 1.

(** ** Reading *)

Inductive drift_read : Type :=
| DriftMissing
| DriftUnreadable
| DriftText (text : list Z).

(** [readDrift]; [parse] is [strconv.ParseFloat] after [strings.TrimSpace]. *)
Definition readDrift (parse : list Z -> option f64) (r : drift_read) : option f64 :=
  match r with
  | DriftText t =>
      match parse t with
      | None => None
      | Some v =>
          if is_nan v || is_inf v then None
          else if fgt v MaxFrequency || flt v (fopp MaxFrequency) then None
          else Some v
      end
  | _ => None
  end.

(** [initialFrequency]; an empty path has nothing to read, and the kernel's
    frequency may be unreadable. *)
Definition initialFrequency (parse : list Z -> option f64) (path : string) (file : drift_read) (kernel : option f64) : f64 * bool :=
  match (if bool_decide (path = ""%string) then None else readDrift parse file) with
  | Some v => (v, true)
  | None =>
      match kernel with
      | Some kf => if negb (feq kf fzero) then (kf, true) else (fzero, false)
      | None => (fzero, false)
      end
  end.

(** ** The stability gate *)

Record freqSample : Type := mkFreqSample { fs_at : f64; fs_ppm : f64; fs_updates : Z }.

(** The samples dropped from the front: all but the newest at or before [cut]. *)
Fixpoint drop_before (cut : f64) (l : list freqSample) : list freqSample :=
  match l with
  | a :: (b :: _) as r => if fle (fs_at b) cut then drop_before cut r else l
  | _ => l
  end.

Record freqHistory : Type := mkHistory { fh_samples : list freqSample; fh_source : string; fh_steps : Z }.

#[export] Instance freqHistory_eta : Eta freqHistory := fun h => mkHistory (fh_samples h) (fh_source h) (fh_steps h).

Definition noteFrequency (h : freqHistory) (window : duration) (now : f64) (st : SysStatus) : freqHistory :=
  if negb (bool_decide (st_State st = StateSynced)) then h <| fh_samples := [] |>
  else
    let h := if negb (bool_decide (st_SystemSource st = fh_source h)) || negb (st_Steps st =? fh_steps h)
             then mkHistory [] (st_SystemSource st) (st_Steps st) else h in
    let l := fh_samples h ++ [mkFreqSample now (st_Frequency st) (st_Updates st)] in
    h <| fh_samples := drop_before (fsub now (Seconds window)) l |>.

Definition min_ppm (l : list freqSample) (x : f64) : f64 := fold_left (fun a s => fmin a (fs_ppm s)) l x.
Definition max_ppm (l : list freqSample) (x : f64) : f64 := fold_left (fun a s => fmax a (fs_ppm s)) l x.

Definition frequencySettled (h : freqHistory) (window : duration) (spread now : f64) : bool :=
  match fh_samples h with
  | [] => false
  | first :: rest =>
      if flt (fsub now (fs_at first)) (Seconds window) then false
      else
        let last := List.last (fh_samples h) first in
        if fs_updates last - fs_updates first <? minDriftUpdates then false
        else
          let lo := min_ppm rest (fs_ppm first) in
          let hi := max_ppm rest (fs_ppm first) in
          negb (fgt (fsub hi lo) spread)
  end.

(** [maybeWriteDrift]: the frequency offered to the writer, if any. *)
Definition drift_candidate (path : string) (interval window : duration) (spread : f64) (h : freqHistory) (sys : Sys)
    (lastWrite now : f64) (final : bool) : option f64 :=
  if bool_decide (path = ""%string) || negb (FreqKnown (loop sys)) then None
  else if negb final && negb (feq lastWrite fzero) && flt (fsub now lastWrite) (Seconds interval) then None
  else if negb (frequencySettled h window spread now) then None
  else
    let ppm := Freq (loop sys) in
    if CheckFrequency ppm then None else Some ppm.

(** ** The writer *)

(** Where the engine is in [offer], and what it is offering. *)
Inductive offer_at : Type := Sending (ppm : f64) | Dropping (ppm : f64).

Record driftWriter : Type := mkDriftWriter {
  dw_work : option f64;         (* the channel *)
  dw_offer : option offer_at;   (* the engine *)
  dw_writing : option f64;      (* the worker *)
  dw_written : list f64         (* what has been written, newest first *)
}.

#[export] Instance driftWriter_eta : Eta driftWriter := fun w =>
  mkDriftWriter (dw_work w) (dw_offer w) (dw_writing w) (dw_written w).

Definition newDriftWriter : driftWriter := mkDriftWriter None None None [].

(** One atomic operation: a call of [offer], the engine's next channel
    operation, or the worker's; [ok] is whether the write succeeds. *)
Inductive drift_event : Type := DriftCall (ppm : f64) | DriftEngine | DriftWorker (ok : bool).

Definition drift_step (w : driftWriter) (ev : drift_event) : driftWriter :=
  match ev with
  | DriftCall ppm => match dw_offer w with None => w <| dw_offer := Some (Sending ppm) |> | Some _ => w end
  | DriftEngine =>
      match dw_offer w with
      | None => w
      | Some (Sending ppm) =>
          match dw_work w with
          | None => w <| dw_work := Some ppm |> <| dw_offer := None |>
          | Some _ => w <| dw_offer := Some (Dropping ppm) |>
          end
      | Some (Dropping ppm) =>
          match dw_work w with
          | Some _ => w <| dw_work := None |> <| dw_offer := Some (Sending ppm) |>
          | None => w <| dw_offer := None |>
          end
      end
  | DriftWorker ok =>
      match dw_writing w with
      | Some ppm => w <| dw_writing := None |> <| dw_written := if ok then ppm :: dw_written w else dw_written w |>
      | None =>
          match dw_work w with
          | Some ppm => w <| dw_work := None |> <| dw_writing := Some ppm |>
          | None => w
          end
      end
  end.

Definition drift_run (w : driftWriter) (evs : list drift_event) : driftWriter := fold_left drift_step evs w.

(** ** What is persisted *)

Lemma min_ppm_le l : forall x, is_nan x = false -> Forall (fun s => is_nan (fs_ppm s) = false) l ->
  is_nan (min_ppm l x) = false /\ fle (min_ppm l x) x = true /\ Forall (fun s => fle (min_ppm l x) (fs_ppm s) = true) l.
Proof.
  unfold min_ppm. induction l as [|s l IH]; intros x Hx Hl; cbn [fold_left]; [split; [done|]; split; [by apply fle_refl|constructor]|].
  apply Forall_cons_1 in Hl as [Hs Hl]. destruct (fmin_le x (fs_ppm s) Hx Hs) as (H1 & H2 & H3).
  destruct (IH _ H1 Hl) as (K1 & K2 & K3). split; [done|]. split; [by eapply fle_trans|]. constructor; [by eapply fle_trans|done].
Qed.

Lemma max_ppm_ge l : forall x, is_nan x = false -> Forall (fun s => is_nan (fs_ppm s) = false) l ->
  is_nan (max_ppm l x) = false /\ fle x (max_ppm l x) = true /\ Forall (fun s => fle (fs_ppm s) (max_ppm l x) = true) l.
Proof.
  unfold max_ppm. induction l as [|s l IH]; intros x Hx Hl; cbn [fold_left]; [split; [done|]; split; [by apply fle_refl|constructor]|].
  apply Forall_cons_1 in Hl as [Hs Hl]. destruct (fmax_ge x (fs_ppm s) Hx Hs) as (H1 & H2 & H3).
  destruct (IH _ H1 Hl) as (K1 & K2 & K3). split; [done|]. split; [by eapply fle_trans|]. constructor; [by eapply fle_trans|done].
Qed.

(** The statuses the engine has published, with their times. *)
Definition note_all (window : duration) (h : freqHistory) (sts : list (f64 * SysStatus)) : freqHistory :=
  fold_left (fun h p => noteFrequency h window p.1 p.2) sts h.

Definition sample_of (p : f64 * SysStatus) : freqSample := mkFreqSample p.1 (st_Frequency p.2) (st_Updates p.2).

(** Synchronized to one source, with no step in between. *)
Definition steady_status (source : string) (steps : Z) (p : f64 * SysStatus) : Prop :=
  st_State p.2 = StateSynced /\ st_SystemSource p.2 = source /\ st_Steps p.2 = steps.

Lemma drop_before_suffix cut l : exists pre, l = pre ++ drop_before cut l.
Proof.
  induction l as [|a [|b l] IH]; [by exists []|by exists []|]. cbn [drop_before]. destruct (fle (fs_at b) cut); [|by exists []].
  destruct IH as [pre IH]. exists (a :: pre). by rewrite IH at 1.
Qed.

(** The history is the end of the last steady stretch. *)
Definition evidence (h : freqHistory) (sts : list (f64 * SysStatus)) : Prop :=
  exists pre suf, sts = pre ++ suf /\ Forall (steady_status (fh_source h) (fh_steps h)) suf /\ fh_samples h = sample_of <$> suf.

Lemma noteFrequency_evidence window h sts p : evidence h sts -> evidence (noteFrequency h window p.1 p.2) (sts ++ [p]).
Proof.
  intros (pre & suf & -> & Hs & Hh). unfold noteFrequency.
  destruct (bool_decide (st_State p.2 = StateSynced)) eqn:E; bool_step; cbn [negb];
    [|exists ((pre ++ suf) ++ [p]), []; split; [by rewrite app_nil_r|]; by split].
  set (h1 := if negb _ || negb _ then _ else h).
  assert (exists pre1 suf1, pre ++ suf = pre1 ++ suf1 /\ Forall (steady_status (fh_source h1) (fh_steps h1)) suf1 /\
    fh_samples h1 = sample_of <$> suf1 /\ st_SystemSource p.2 = fh_source h1 /\ st_Steps p.2 = fh_steps h1) as (pre1 & suf1 & -> & S1 & H1 & N1 & N2).
  { unfold h1. destruct (negb (bool_decide (st_SystemSource p.2 = fh_source h)) || negb (st_Steps p.2 =? fh_steps h)) eqn:En.
    - exists (pre ++ suf), []. split; [by rewrite app_nil_r|]. split; [constructor|]. by repeat split.
    - repeat bool_step. exists pre, suf. by repeat split. }
  clearbody h1. rewrite H1. set (l := (sample_of <$> suf1) ++ [_]).
  assert (l = sample_of <$> (suf1 ++ [p])) as -> by (unfold l; by rewrite fmap_app).
  destruct (drop_before_suffix (fsub p.1 (Seconds window)) (sample_of <$> (suf1 ++ [p]))) as [d Hd].
  symmetry in Hd. pose proof Hd as Hd'. symmetry in Hd'. apply fmap_app_inv in Hd' as (l1 & l2 & -> & E2 & E3).
  exists (pre1 ++ l1), l2. split; [by rewrite <- !app_assoc, E3|].
  assert (Forall (steady_status (fh_source h1) (fh_steps h1)) (suf1 ++ [p])) as Hall
    by (apply Forall_app; split; [done|]; constructor; [by repeat split|constructor]).
  rewrite E3 in Hall. apply Forall_app in Hall as [_ Hall]. split; [by destruct h1|]. destruct h1. exact E2.
Qed.

Lemma note_all_evidence window h sts0 sts : evidence h sts0 -> evidence (note_all window h sts) (sts0 ++ sts).
Proof.
  revert h sts0. induction sts as [|p sts IH]; intros h sts0 He; [by rewrite app_nil_r|].
  cbn [note_all fold_left]. replace (sts0 ++ p :: sts) with ((sts0 ++ [p]) ++ sts) by by rewrite <- app_assoc.
  apply IH. by apply noteFrequency_evidence.
Qed.

Lemma last_fmap_sample first suf :
  fs_updates (List.last (sample_of <$> (first :: suf)) (sample_of first)) = st_Updates (List.last (first :: suf) first).2.
Proof.
  assert (forall l d, List.last (sample_of <$> l) (sample_of d) = sample_of (List.last l d)) as H.
  { induction l as [|a [|b l] IH]; intros d; [done|done|]. exact (IH d). }
  by rewrite H.
Qed.

(** Claim C39: only a frequency that held still is persisted.  When the engine,
    after any sequence of published statuses, offers a frequency to the drift
    file, it is the loop's current one, known and finite; and the last statuses
    published form an unbroken stretch, synchronized to one source with no step,
    that reaches back a whole stability window, in which the loop accepted at
    least two updates and no frequency lies outside a band of the configured
    spread. *)
Theorem drift_offered_is_settled path interval window spread h0 sts sys lastWrite now final ppm :
  fh_samples h0 = [] -> Forall (fun p => is_nan (st_Frequency p.2) = false) sts ->
  drift_candidate path interval window spread (note_all window h0 sts) sys lastWrite now final = Some ppm ->
  ppm = Freq (loop sys) /\ FreqKnown (loop sys) = true /\ is_nan ppm = false /\ is_inf ppm = false /\
  exists pre first suf lo hi source steps, sts = pre ++ first :: suf /\ Forall (steady_status source steps) (first :: suf) /\
    flt (fsub now first.1) (Seconds window) = false /\
    minDriftUpdates <= st_Updates (List.last (first :: suf) first).2 - st_Updates first.2 /\
    Forall (fun p => fle lo (st_Frequency p.2) = true /\ fle (st_Frequency p.2) hi = true) (first :: suf) /\
    fgt (fsub hi lo) spread = false.
Proof.
  intros H0 Hn. unfold drift_candidate. destruct (bool_decide (path = ""%string) || negb (FreqKnown (loop sys))) eqn:E1; [done|].
  case_goal; [done|].
  destruct (frequencySettled (note_all window h0 sts) window spread now) eqn:Es; cbn [negb]; [|done].
  destruct (CheckFrequency (Freq (loop sys))) eqn:Ec; [done|]. intros [= <-].
  unfold CheckFrequency in Ec. repeat bool_step. repeat (split; [done|]).
  assert (evidence h0 []) as He by (exists [], []; by rewrite H0).
  apply (note_all_evidence window h0 [] sts) in He as (pre & suf & E & Hs & Hh). cbn [app] in E.
  unfold frequencySettled in Es. rewrite Hh in Es. destruct suf as [|first suf]; [done|]. cbn [fmap list_fmap] in Es.
  destruct (flt _ (Seconds window)) eqn:Ew; [done|].
  set (h := note_all window h0 sts) in *. clearbody h.
  destruct (_ <? minDriftUpdates) eqn:Eu; [done|]. apply negb_true_iff in Es. apply Z.ltb_ge in Eu.
  assert (Forall (fun p => is_nan (st_Frequency p.2) = false) (first :: suf)) as Hnn
    by (rewrite E in Hn; by apply Forall_app in Hn as [_ Hn]).
  apply Forall_cons_1 in Hnn as [Hf Hnn].
  assert (Forall (fun s => is_nan (fs_ppm s) = false) (sample_of <$> suf)) as Hsn by (by apply Forall_fmap).
  destruct (min_ppm_le _ _ Hf Hsn) as (_ & L1 & L2). destruct (max_ppm_ge _ _ Hf Hsn) as (_ & M1 & M2).
  exists pre, first, suf, (min_ppm (sample_of <$> suf) (st_Frequency first.2)), (max_ppm (sample_of <$> suf) (st_Frequency first.2)), (fh_source h), (fh_steps h).
  split; [done|]. split; [done|]. split; [exact Ew|]. split.
  - pose proof (last_fmap_sample first suf) as Hl. rewrite <- Hl. exact Eu.
  - split; [|exact Es]. apply Forall_fmap in L2, M2. constructor; [done|]. by apply Forall_and.
Qed.

(** ** The order of writes *)

Definition in_offer (o : option offer_at) : list f64 := match o with Some (Sending x) | Some (Dropping x) => [x] | None => [] end.
Definition slot (o : option f64) : list f64 := match o with Some x => [x] | None => [] end.

(** Everything in the writer, newest first. *)
Definition pipeline (w : driftWriter) : list f64 := in_offer (dw_offer w) ++ slot (dw_work w) ++ slot (dw_writing w) ++ dw_written w.

(** The frequencies offered, newest first. *)
Definition offered_by (w : driftWriter) (ev : drift_event) : list f64 :=
  match ev with DriftCall ppm => match dw_offer w with None => [ppm] | Some _ => [] end | _ => [] end.

Fixpoint offered (w : driftWriter) (evs : list drift_event) : list f64 :=
  match evs with [] => [] | ev :: evs => offered (drift_step w ev) evs ++ offered_by w ev end.

Lemma drift_step_pipeline w ev : pipeline (drift_step w ev) `sublist_of` offered_by w ev ++ pipeline w.
Proof.
  unfold pipeline. destruct w as [work off wr done_]. destruct ev as [ppm| |ok]; cbn [drift_step offered_by dw_work dw_offer dw_writing dw_written].
  - destruct off as [o|]; cbn; reflexivity.
  - destruct off as [[x|x]|]; [| |cbn; reflexivity]; destruct work as [y|]; cbn; try reflexivity.
    + by do 2 constructor.
    + by constructor.
  - destruct wr as [x|]; [|destruct work as [y|]; cbn; reflexivity]. cbn [slot app]. apply sublist_app; [done|].
    apply sublist_app; [done|]. destruct ok; [done|by constructor].
Qed.

Lemma drift_run_pipeline evs : forall w, pipeline (drift_run w evs) `sublist_of` offered w evs ++ pipeline w.
Proof.
  induction evs as [|ev evs IH]; intros w; cbn [drift_run fold_left offered app]; [done|].
  etransitivity; [apply IH|]. rewrite <- app_assoc. apply sublist_app; [done|]. apply drift_step_pipeline.
Qed.

(** The drift file is never taken back to an older frequency: whatever the
    interleaving of the engine and the worker and whichever writes fail, the
    writes that succeed are of offered frequencies, in the order they were
    offered. *)
Theorem drift_writes_in_order evs : dw_written (drift_run newDriftWriter evs) `sublist_of` offered newDriftWriter evs.
Proof.
  pose proof (drift_run_pipeline evs newDriftWriter) as H. cbn [newDriftWriter pipeline in_offer slot dw_offer dw_work dw_writing dw_written app] in H.
  rewrite app_nil_r in H. etransitivity; [|exact H]. unfold pipeline. repeat apply sublist_inserts_l. done.
Qed.

(** A newer candidate can be dropped for an older one.  There is an
    interleaving in which a frequency is offered while an older one waits, the
    worker takes the older one between the two channel operations of [offer],
    and the newer one is discarded: with every write succeeding and nothing left
    to do, only the older frequency has been written. *)
Theorem drift_offer_can_lose_newest :
  exists evs old new, feq old new = false /\ offered newDriftWriter evs = [new; old] /\
    drift_run newDriftWriter evs = mkDriftWriter None None None [old].
Proof.
  exists [DriftCall (of_Z 1); DriftEngine; DriftCall (of_Z 2); DriftEngine; DriftWorker true; DriftEngine; DriftWorker true], (of_Z 1), (of_Z 2).
  by vm_compute.
Qed.

(** ** Example *)

Definition example_synced_sys : Sys := New example_cfg (of_Z 12) true.

Definition example_status (k : Z) : SysStatus :=
  mkSysStatus StateSynced 2 zeroRefID 0 fzero fzero fzero (of_Z 12) true fzero fzero "ntp"%string false false (of_Z k) k 0 [].

Lemma drift_offered_is_settled_witness :
  exists ppm, drift_candidate "drift"%string Hour (15 * Minute) (of_Z 1)
    (note_all (15 * Minute) (mkHistory [] ""%string 0) ((fun k => (of_Z (300 * k), example_status k)) <$> [1; 2; 3; 4; 5])) example_synced_sys fzero (of_Z 1500) false = Some ppm /\
    FreqKnown (loop example_synced_sys) = true.
Proof.
  eexists. split; [vm_compute; reflexivity|].
  eapply (drift_offered_is_settled "drift"%string Hour (15 * Minute) (of_Z 1) (mkHistory [] ""%string 0)
    ((fun k => (of_Z (300 * k), example_status k)) <$> [1; 2; 3; 4; 5]) example_synced_sys fzero (of_Z 1500) false);
    [reflexivity|repeat constructor|vm_compute; reflexivity].
Defined.
