(* ===== verification/EngineLeap.v ===== *)
(** * internal/engine/leap.go and the leap part of engine.go

    The engine's leap-second state: the table in force, the boundary a warning
    armed, the greatest established UTC, and the gate that withholds service
    when a required table is missing.  [applyLeap] gates one published status,
    [crossedAnnouncedLeapAt] detects the boundary. *)

From stdpp Require Import base list numbers strings.
From Stdlib Require Import Lia ZArith.
From S2P Require Import Prelude Float64 GoTime GoDate NtpTime Measurement Select Loop System LeapTable LeapStore.

Local Open Scope Z_scope.

Definition leapMissingRefID : RefID := RefIDFromString [88; 76; 69; 80].

(** The leap fields of [Engine]. *)
Record LeapPart : Type := mkLeapPart {
  lp_lastWall : time;
  lp_lastMono : f64;
  lp_pending : time;
  lp_pendingKind : Z;
  lp_executed : time;
  lp_active : option LeapRecord;
  lp_anchor : option Object;
  lp_approved : Manifest;
  lp_utcBound : time;
  lp_startupBound : time;
  lp_clockState : State;
  lp_timeKnown : bool;
  lp_ready : bool;
  lp_reason : string;
  lp_authority : string;
  lp_disagreement : bool;
  lp_expiring : bool
}.

#[export] Instance LeapPart_eta : Eta LeapPart := fun p =>
  mkLeapPart (lp_lastWall p) (lp_lastMono p) (lp_pending p) (lp_pendingKind p) (lp_executed p) (lp_active p) (lp_anchor p)
    (lp_approved p) (lp_utcBound p) (lp_startupBound p) (lp_clockState p) (lp_timeKnown p) (lp_ready p) (lp_reason p)
    (lp_authority p) (lp_disagreement p) (lp_expiring p).

(** The part [New] builds from the durable state. *)
Definition newLeapPart (s : LeapState) (started : time) (mono : f64) : LeapPart :=
  mkLeapPart started mono zeroTime 0 (ls_Executed s) (ls_Active s) (Anchor s) zeroManifest (ls_UTCbound s) (ls_UTCbound s)
    StateUnsynced false false ""%string ""%string false false.

(** The configuration the gate reads: the compatibility table and whether a
    table is required. *)
Record LeapConfig : Type := mkLeapConfig { lc_Table : option Table; lc_Required : bool }.

Definition synced_state (s : State) : bool := bool_decide (s = StateSynced) || bool_decide (s = StateHoldover).

(** ** The boundary *)

Definition crossedAnnouncedLeapAt (p : LeapPart) (wall : time) (mono : f64) : LeapPart * bool :=
  if IsZero (lp_pending p) || IsZero (lp_lastWall p) then (p, false)
  else
    let lostSecond := fsub (fsub mono (lp_lastMono p)) (Seconds (Sub wall (lp_lastWall p))) in
    let repeated :=
      (lp_pendingKind p =? LeapInsert) && Before wall (lp_pending p) && negb (Before wall (Add (lp_pending p) (- Second))) &&
      negb (Before (lp_lastWall p) (Add (lp_pending p) (- 2 * Second))) && fgt lostSecond (lit 1 2) && flt lostSecond (lit 3 2) in
    if repeated || (Before (lp_lastWall p) (lp_pending p) && negb (Before wall (lp_pending p))) then
      let p := p <| lp_executed := lp_pending p |> in
      let p := if After (lp_executed p) (lp_utcBound p) then p <| lp_utcBound := lp_executed p |> else p in
      (p <| lp_pending := zeroTime |>, true)
    else (p, false).

(** [time.Date(y, m, d, 0, ...).AddDate(0, 0, 1)] of a UTC instant. *)
Definition next_midnight (wall : time) : time := unixTime ((unixDay wall + 1) * 86400) 0.

Definition notePendingLeap (p : LeapPart) (warning : Z) (wall : time) : LeapPart :=
  if negb (warning =? LeapInsert) && negb (warning =? LeapDelete) then p
  else if IsZero (lp_pending p) then
    let boundary := next_midnight wall in
    if negb (After boundary (lp_executed p)) then p
    else p <| lp_pending := boundary |> <| lp_pendingKind := warning |>
  else p.

(** The boundary a clock step carried the wall clock past. *)
Definition step_over_leap (p : LeapPart) (after : time) : LeapPart :=
  let p := p <| lp_lastWall := after |> in
  if negb (IsZero (lp_pending p)) && negb (Before after (lp_pending p))
  then p <| lp_executed := lp_pending p |> <| lp_pending := zeroTime |>
  else p.

(** ** The gate *)

(** Whether UTC is established, and the greatest UTC established. *)
Definition establish (p : LeapPart) (st : SysStatus) (wall : time) : LeapPart :=
  let p := p <| lp_clockState := st_State st |> in
  let coarse := bool_decide (st_State st = StateSettling) && negb (bool_decide (st_SystemSource st = ""%string)) &&
                flt (fadd (fabs (st_Offset st)) (fabs (st_Pending st))) PPSGuard in
  let p := p <| lp_timeKnown := (synced_state (st_State st) || coarse) && negb (Before wall (lp_startupBound p)) |> in
  let p := if Before (Add wall Second) (lp_utcBound p) then p <| lp_timeKnown := false |> else p in
  if lp_timeKnown p && After wall (lp_utcBound p) then p <| lp_utcBound := wall |> else p.

(** The instant that decides expiry. *)
Definition valid_at (p : LeapPart) (wall : time) : time := if After (lp_utcBound p) wall then lp_utcBound p else wall.

(** The table in force, or why there is none. *)
Definition current_table (c : LeapConfig) (p : LeapPart) (validAt : time) : option Table * string :=
  match lp_active p with
  | Some r =>
      match CheckUpdate None (Some (lr_Object r)) validAt with
      | Some e => (None, reason_text e)
      | None => (Some (ob_table (lr_Object r)), "missing table"%string)
      end
  | None =>
      match lc_Table c with
      | Some t => if negb (Before validAt (Expiry t)) then (None, "expired"%string) else (Some t, "missing table"%string)
      | None => (None, "missing table"%string)
      end
  end.

(** Whether the leap authority is ready, and what it indicates. *)
Definition leap_gate (c : LeapConfig) (p : LeapPart) (st : SysStatus) (wall : time) : LeapPart * SysStatus :=
  let validAt := valid_at p wall in
  let '(table, reason) := current_table c p validAt in
  let p := p <| lp_ready := false |> <| lp_authority := "unknown"%string |>
             <| lp_reason := if lp_timeKnown p then reason else "UTC not established"%string |> in
  let p := p <| lp_expiring := match table with Some t => Sub (Expiry t) validAt <=? 30 * 24 * Hour | None => false end |> in
  let '(p, st) :=
    match (if lp_timeKnown p then table else None) with
    | Some t =>
        let p := p <| lp_ready := true |>
                   <| lp_authority := match lp_active p with Some r => pv_Kind (lr_Provider r) | None => "file"%string end |> in
        let indicator := Indicator (Some t) wall in
        let p := p <| lp_disagreement := negb (st_Leap st =? LeapUnsync) && negb (st_Leap st =? indicator) |> in
        (p, if synced_state (st_State st) then st <| st_Leap := indicator |> else st)
    | None =>
        if negb (lc_Required c) && negb (st_Leap st =? LeapUnsync) && lp_timeKnown p
        then (p <| lp_ready := true |> <| lp_authority := "sources"%string |>, st)
        else (p, st)
    end in
  (if negb (bool_decide (is_Some table)) || negb (lp_timeKnown p) then p <| lp_disagreement := false |> else p, st).

(** The announcement, or the withdrawal of service. *)
Definition announce (c : LeapConfig) (p : LeapPart) (st : SysStatus) (wall : time) : LeapPart * SysStatus :=
  let synced := synced_state (st_State st) in
  if lp_ready p then
    let p := p <| lp_reason := ""%string |> in
    if synced then
      let p := notePendingLeap p (st_Leap st) wall in
      let st := if negb (IsZero (lp_pending p)) && Before wall (lp_pending p) then st <| st_Leap := lp_pendingKind p |> else st in
      let st := if negb (IsZero (lp_executed p)) && Before wall (lp_executed p) then st <| st_Leap := LeapNone |> else st in
      (p, st)
    else (p, st)
  else if synced && lc_Required c
  then (p, st <| st_State := StateUnsynced |> <| st_Leap := LeapUnsync |> <| st_Stratum := 16 |> <| st_RefID := leapMissingRefID |>)
  else (p, st).

Definition applyLeap (c : LeapConfig) (p : LeapPart) (st : SysStatus) (wall : time) : LeapPart * SysStatus :=
  let '(p, st) := leap_gate c (establish p st wall) st wall in announce c p st wall.

(** ** Installing a table *)

Inductive LeapError : Type := LeapRejected (r : Reason) | LeapArmed | LeapGeneration | LeapCancelled.

(** [checkLeap], given the published status it takes; the candidate is never
    nil in a request. *)
Definition checkLeap (c : LeapConfig) (p : LeapPart) (st : SysStatus) (wall : time) (r : LeapRecord) : LeapPart * option LeapError :=
  let '(p, _) := applyLeap c p st wall in
  if negb (lp_timeKnown p) then (p, Some (LeapRejected ReasonTimeUnknown))
  else
    let wall := if After (lp_utcBound p) wall then lp_utcBound p else wall in
    match CheckUpdate (lp_anchor p) (Some (lr_Object r)) wall with
    | Some e => (p, Some (LeapRejected e))
    | None =>
        if negb (IsZero (lp_pending p)) &&
           negb (existsb (fun tr => Equal (tr_At tr) (lp_pending p) && (tr_Leap tr =? lp_pendingKind p))
                   (Transitions (ob_table (lr_Object r))))
        then (p, Some LeapArmed)
        else (p, None)
    end.

(** ** Service needs a current table *)

Ltac lfields :=
  cbn [lp_lastWall lp_lastMono lp_pending lp_pendingKind lp_executed lp_active lp_anchor lp_approved lp_utcBound lp_startupBound lp_clockState lp_timeKnown lp_ready lp_reason lp_authority lp_disagreement lp_expiring set].

Ltac lfields_all :=
  cbn [lp_lastWall lp_lastMono lp_pending lp_pendingKind lp_executed lp_active lp_anchor lp_approved lp_utcBound lp_startupBound lp_clockState lp_timeKnown lp_ready lp_reason lp_authority lp_disagreement lp_expiring set] in *.

(** What [establish] changes. *)
Lemma establish_spec p st wall :
  let p' := establish p st wall in
  lp_pending p' = lp_pending p /\ lp_pendingKind p' = lp_pendingKind p /\ lp_executed p' = lp_executed p /\
  lp_active p' = lp_active p /\ lp_anchor p' = lp_anchor p /\ lp_approved p' = lp_approved p /\
  lp_lastWall p' = lp_lastWall p /\ lp_lastMono p' = lp_lastMono p /\ lp_startupBound p' = lp_startupBound p /\
  lp_utcBound p <= lp_utcBound p' /\ (lp_utcBound p' = lp_utcBound p \/ lp_utcBound p' = wall) /\
  (lp_timeKnown p' = true -> lp_startupBound p <= wall /\ lp_utcBound p <= wall + Second /\ wall <= lp_utcBound p').
Proof.
  unfold establish, After, Before, Add. destruct p. lfields. set (k := (synced_state _ || _) && negb _).
  assert (k = true -> lp_startupBound0 <= wall) as Hk.
  { unfold k. intros H. apply andb_true_iff in H as [_ H]. by apply negb_true_iff, Z.ltb_ge in H. }
  clearbody k. destruct (wall + Second <? lp_utcBound0) eqn:E1, k, (lp_utcBound0 <? wall) eqn:E2;
    lfields; cbn [andb]; lfields; rewrite ?E2; lfields; repeat bool_step; repeat (split; [reflexivity|]);
    (split; [lia|]); (split; [auto|]); try done; intros _; (split; [by apply Hk|lia]).
Qed.

(** The leap indicator service announces with table [t]. *)
Definition announced (p : LeapPart) (t : Table) (wall : time) : Z :=
  if negb (IsZero (lp_executed p)) && Before wall (lp_executed p) then LeapNone
  else if negb (IsZero (lp_pending p)) && Before wall (lp_pending p) then lp_pendingKind p
  else Indicator (Some t) wall.

Lemma notePendingLeap_same p w wall :
  let p' := notePendingLeap p w wall in
  lp_executed p' = lp_executed p /\ lp_utcBound p' = lp_utcBound p /\ lp_ready p' = lp_ready p /\ lp_timeKnown p' = lp_timeKnown p /\
  lp_active p' = lp_active p /\ lp_anchor p' = lp_anchor p /\ lp_approved p' = lp_approved p /\ lp_lastWall p' = lp_lastWall p /\
  lp_lastMono p' = lp_lastMono p /\ lp_startupBound p' = lp_startupBound p.
Proof. unfold notePendingLeap. destruct p. repeat case_goal; repeat split. Qed.

(** The table in force has not expired at the deciding instant. *)
Lemma current_table_covers c p validAt t reason :
  current_table c p validAt = (Some t, reason) -> validAt < Expiry t.
Proof.
  unfold current_table. destruct (lp_active p) as [r|].
  - destruct (CheckUpdate None (Some (lr_Object r)) validAt) eqn:E; [done|]. intros [= <- <-].
    unfold CheckUpdate in E. case_in E; [done|]. case_in E; [done|]. unfold Before in Heqb0. by repeat bool_step.
  - destruct (lc_Table c) as [t'|]; [|done]. unfold Before. case_goal; [done|]. intros [= <- <-]. by repeat bool_step.
Qed.

(** The table the gate goes by. *)
Definition gate_table (c : LeapConfig) (p : LeapPart) (wall : time) : option Table :=
  if lp_timeKnown p then (current_table c p (valid_at p wall)).1 else None.

(** What the gate leaves alone. *)
Definition gate_frame (p q : LeapPart) : Prop :=
  lp_timeKnown q = lp_timeKnown p /\ lp_pending q = lp_pending p /\ lp_pendingKind q = lp_pendingKind p /\ lp_executed q = lp_executed p /\
  lp_utcBound q = lp_utcBound p /\ lp_active q = lp_active p /\ lp_anchor q = lp_anchor p /\ lp_approved q = lp_approved p /\
  lp_lastWall q = lp_lastWall p /\ lp_lastMono q = lp_lastMono p /\ lp_startupBound q = lp_startupBound p.

Lemma leap_gate_spec c p st wall p' st' :
  leap_gate c p st wall = (p', st') ->
  gate_frame p p' /\ st_State st' = st_State st /\ (lp_ready p' = true -> lp_timeKnown p = true) /\
  match gate_table c p wall with
  | Some t => lp_ready p' = true /\ st_Leap st' = (if synced_state (st_State st) then Indicator (Some t) wall else st_Leap st)
  | None => st' = st /\ (lp_ready p' = true -> lc_Required c = false)
  end.
Proof.
  unfold leap_gate, gate_table, gate_frame. destruct (current_table c p (valid_at p wall)) as [table reason]. cbn [fst].
  set (p1 := p <| lp_ready := false |> <| lp_authority := _ |> <| lp_reason := _ |> <| lp_expiring := _ |>).
  assert (gate_frame p p1 /\ lp_ready p1 = false) as [F1 R1] by (unfold p1, gate_frame; destruct p; by repeat split).
  unfold gate_frame in F1. clearbody p1. destruct F1 as (K1 & F1). rewrite K1 in *.
  destruct (lp_timeKnown p) eqn:Ek; [destruct table as [t|]|].
  - set (p2 := p1 <| lp_ready := true |> <| lp_authority := _ |> <| lp_disagreement := _ |>).
    assert (gate_frame p1 p2 /\ lp_ready p2 = true) as [F2 R2] by (unfold p2, gate_frame; destruct p1; by repeat split).
    unfold gate_frame in F2. clearbody p2. destruct F2 as (K2 & F2). rewrite bool_decide_eq_true_2 by done. cbn [negb orb]. rewrite K2, K1. cbn [negb].
    intros E. apply pair_equal_spec in E as [<- <-]. split; [naive_solver congruence|]. split; [by destruct (synced_state _)|]. split; [done|].
    split; [done|]. by destruct (synced_state _), st.
  - rewrite bool_decide_eq_false_2 by (intros [? ?]; done). cbn [negb orb].
    destruct (negb (lc_Required c) && negb (st_Leap st =? LeapUnsync) && true) eqn:Es; intros E; apply pair_equal_spec in E as [<- <-].
    + split; [destruct p1; naive_solver|]. split; [done|]. split; [done|]. split; [done|]. intros _. repeat bool_step. done.
    + split; [destruct p1; naive_solver|]. split; [done|]. split; [by destruct p1|]. split; [done|]. destruct p1. lfields_all. congruence.
  - rewrite andb_false_r, K1, orb_true_r. intros E; apply pair_equal_spec in E as [<- <-].
    split; [destruct p1; naive_solver|]. split; [done|]. destruct p1. lfields_all. subst. by repeat split.
Qed.

Lemma notePendingLeap_pending p w wall :
  lp_pending (notePendingLeap p w wall) = lp_pending p \/
  lp_pending p = zeroTime /\ lp_pending (notePendingLeap p w wall) = next_midnight wall /\ lp_executed p < next_midnight wall /\
  lp_pendingKind (notePendingLeap p w wall) = w /\ (w = LeapInsert \/ w = LeapDelete).
Proof.
  unfold notePendingLeap. case_goal; [by left|]. case_goal; [|by left]. case_goal; [by left|]. right.
  unfold After in *. destruct p. lfields_all. unfold IsZero in *. repeat bool_step.
  match goal with H : _ && _ = false |- _ => apply andb_false_iff in H as [H|H]; apply negb_false_iff, Z.eqb_eq in H end; split_and!; auto; lia.
Qed.

Lemma announce_spec c p st wall p' st' :
  announce c p st wall = (p', st') ->
  lp_ready p' = lp_ready p /\ lp_timeKnown p' = lp_timeKnown p /\ lp_executed p' = lp_executed p /\ lp_utcBound p' = lp_utcBound p /\
  lp_active p' = lp_active p /\ lp_anchor p' = lp_anchor p /\ lp_approved p' = lp_approved p /\ lp_lastWall p' = lp_lastWall p /\
  lp_lastMono p' = lp_lastMono p /\ lp_startupBound p' = lp_startupBound p /\
  (lp_pending p' = lp_pending p \/ lp_pending p = zeroTime /\ lp_pending p' = next_midnight wall /\ lp_executed p < lp_pending p') /\
  (lp_ready p = true -> st_State st' = st_State st /\
     (synced_state (st_State st) = true -> st_Leap st' =
        (if negb (IsZero (lp_executed p')) && Before wall (lp_executed p') then LeapNone
         else if negb (IsZero (lp_pending p')) && Before wall (lp_pending p') then lp_pendingKind p' else st_Leap st))) /\
  (lp_ready p = false -> p' = p /\
     st' = (if synced_state (st_State st) && lc_Required c
            then st <| st_State := StateUnsynced |> <| st_Leap := LeapUnsync |> <| st_Stratum := 16 |> <| st_RefID := leapMissingRefID |>
            else st)).
Proof.
  unfold announce. destruct (lp_ready p) eqn:Er.
  - set (p1 := p <| lp_reason := ""%string |>).
    assert (gate_frame p p1 /\ lp_ready p1 = true) as [F1 R1] by (unfold p1, gate_frame; destruct p; by repeat split).
    clearbody p1. destruct F1 as (K1 & K2 & K3 & K4 & K5 & K6 & K7 & K8 & K9 & K10 & K11).
    destruct (synced_state (st_State st)) eqn:Es.
    + destruct (notePendingLeap_same p1 (st_Leap st) wall) as (N1 & N2 & N3 & N4 & N5 & N6 & N7 & N8 & N9 & N10).
      pose proof (notePendingLeap_pending p1 (st_Leap st) wall) as Np.
      set (p2 := notePendingLeap p1 (st_Leap st) wall) in *. clearbody p2. intros E. apply pair_equal_spec in E as [<- <-].
      rewrite N1, N2, N3, N4, N5, N6, N7, N8, N9, N10, K1, K4, K5, K6, K7, K8, K9, K10, K11.
      repeat (split; [done|]). split; [rewrite K2, K4 in Np; destruct Np as [->|(? & -> & ? & _)]; auto|]. split; [|done].
      intros _. split; [by repeat case_goal|]. intros _. destruct st. by repeat case_goal.
    + intros E. apply pair_equal_spec in E as [<- <-]. repeat (split; [congruence|]). split; [by left|]. split; [|done].
      intros _. split; [done|congruence].
  - intros E. destruct (synced_state (st_State st) && lc_Required c); apply pair_equal_spec in E as [<- <-];
      repeat (split; [done|]); (split; [by left|]); (split; [done|done]).
Qed.

(** Where a leap table is required, service depends on one.  After
    the gate, a status that still says the clock is synchronized (or in
    holdover) has UTC established and a table in force that covers both the wall
    clock and the greatest UTC ever established, and its leap indicator is the
    armed leap, none if the leap has just been executed, or else the table's;
    otherwise a synchronized clock is reported unsynchronized, stratum 16, leap
    3 and reference XLEP. *)
Theorem leap_required_gate c p st wall p' st' :
  applyLeap c p st wall = (p', st') -> lc_Required c = true -> synced_state (st_State st) = true ->
  (exists t reason, st_State st' = st_State st /\ lp_ready p' = true /\ lp_timeKnown p' = true /\
     current_table c p' (valid_at p' wall) = (Some t, reason) /\ wall < Expiry t /\ lp_utcBound p' < Expiry t /\
     st_Leap st' = announced p' t wall) \/
  (lp_ready p' = false /\ st_State st' = StateUnsynced /\ st_Leap st' = LeapUnsync /\ st_Stratum st' = 16 /\ st_RefID st' = leapMissingRefID).
Proof.
  unfold applyLeap. destruct (leap_gate c (establish p st wall) st wall) as [p1 st1] eqn:Eg. intros Ea Hr Hs.
  apply leap_gate_spec in Eg as (F & S1 & K1 & Ht). set (q := establish p st wall) in *. clearbody q.
  apply announce_spec in Ea as (A1 & A2 & A3 & A4 & A5 & A6 & A7 & A8 & A9 & A10 & A11 & A12 & A13). rewrite S1 in *.
  destruct (gate_table c q wall) as [t|] eqn:Et.
  - destruct Ht as [R1 L1]. left. unfold gate_table in Et. destruct (lp_timeKnown q) eqn:Ek; [|done].
    destruct (current_table c q (valid_at q wall)) as [tb reason] eqn:Ec. cbn [fst] in Et. subst tb.
    destruct F as (K2 & F2 & F3 & F4 & F5 & F6 & _). destruct (A12 R1) as [B1 B2].
    assert (valid_at p' wall = valid_at q wall) as Ev by (unfold valid_at; by rewrite A4, F5).
    exists t, reason. split; [done|]. split; [congruence|]. split; [congruence|]. split.
    { rewrite Ev. unfold current_table in *. by rewrite A5, F6. }
    pose proof (current_table_covers _ _ _ _ _ Ec) as Hc. unfold valid_at, After in Hc.
    split; [destruct (wall <? lp_utcBound q) eqn:Ew; bool_step; lia|].
    split; [rewrite A4, F5; destruct (wall <? lp_utcBound q) eqn:Ew; bool_step; lia|].
    rewrite (B2 Hs), L1, Hs. done.
  - destruct Ht as [-> Hreq]. right. assert (lp_ready p1 = false) as R1 by (destruct (lp_ready p1); [specialize (Hreq eq_refl); congruence|done]).
    destruct (A13 R1) as [-> ->]. rewrite Hs, Hr. cbn [andb]. done.
Qed.

(** ** A leap is executed once *)

(** What the engine does with its leap state. *)
Inductive leap_op : Type :=
| LeapGate (st : SysStatus) (wall : time)
| LeapCross (wall : time) (mono : f64)
| LeapStepped (after : time)
| LeapInstall (r : LeapRecord).

(** The part afterwards, and the boundary executed, if any. *)
Definition leap_exec (c : LeapConfig) (p : LeapPart) (op : leap_op) : LeapPart * option time :=
  match op with
  | LeapGate st wall => ((applyLeap c p st wall).1, None)
  | LeapCross wall mono =>
      let '(p', crossed) := crossedAnnouncedLeapAt p wall mono in
      (p' <| lp_lastMono := mono |> <| lp_lastWall := wall |>, if crossed then Some (lp_pending p) else None)
  | LeapStepped after =>
      (step_over_leap p after,
       if negb (IsZero (lp_pending p)) && negb (Before after (lp_pending p)) then Some (lp_pending p) else None)
  | LeapInstall r => (p <| lp_active := Some r |> <| lp_anchor := Some (lr_Object r) |> <| lp_approved := zeroManifest |>, None)
  end.

Fixpoint leap_run (c : LeapConfig) (p : LeapPart) (ops : list leap_op) : LeapPart * list time :=
  match ops with
  | [] => (p, [])
  | op :: ops =>
      let '(p, b) := leap_exec c p op in
      let '(p, bs) := leap_run c p ops in
      (p, match b with Some b => b :: bs | None => bs end)
  end.

Definition leap_inv (p : LeapPart) : Prop := lp_pending p = zeroTime \/ lp_executed p < lp_pending p.

Lemma leap_exec_inv c p op :
  leap_inv p ->
  let '(p', b) := leap_exec c p op in
  leap_inv p' /\ lp_utcBound p <= lp_utcBound p' /\
  match b with Some b => lp_executed p < b /\ lp_executed p' = b | None => lp_executed p' = lp_executed p end.
Proof.
  intros Hi. destruct op as [st wall|wall mono|after|r]; cbn [leap_exec].
  - unfold applyLeap. destruct (leap_gate c (establish p st wall) st wall) as [p1 st1] eqn:Eg.
    apply leap_gate_spec in Eg as ((_ & F2 & _ & F4 & F5 & _) & _).
    destruct (establish_spec p st wall) as (E1 & _ & E3 & _ & _ & _ & _ & _ & _ & E10 & _).
    destruct (announce c p1 st1 wall) as [p2 st2] eqn:Ea. cbn [fst].
    apply announce_spec in Ea as (_ & _ & A3 & A4 & _ & _ & _ & _ & _ & _ & A11 & _). unfold leap_inv in *.
    rewrite A3, A4, F4, F5, E3. rewrite F4, E3, F2, E1 in A11. split; [|done].
    destruct A11 as [->|(_ & _ & ?)]; auto.
  - unfold crossedAnnouncedLeapAt. destruct (IsZero (lp_pending p) || IsZero (lp_lastWall p)) eqn:Ez; [by destruct p|].
    apply orb_false_iff in Ez as [Ez _]. unfold IsZero in Ez. apply Z.eqb_neq in Ez. destruct Hi as [|Hi]; [done|].
    case_goal; [|destruct p; split; [by right|done]]. unfold After. destruct p. lfields_all.
    destruct (_ <? _) eqn:E; lfields; bool_step; (split; [by left|]); (split; [lia|done]).
  - unfold step_over_leap. destruct p. lfields_all. case_goal; lfields; [|split; [done|done]].
    repeat bool_step. unfold IsZero in *. bool_step. destruct Hi as [|Hi]; [done|]. lfields_all. split; [by left|done].
  - destruct p. done.
Qed.

Fixpoint ascending (from : time) (l : list time) : Prop :=
  match l with [] => True | x :: l => from < x /\ ascending x l end.

(** Claim C38: a leap second is executed at most once, and the established UTC
    never goes back.  Over any sequence of status gates, boundary checks, clock
    steps (in either direction) and table installations, starting from a durable
    state, the boundaries the engine takes as executed are strictly increasing
    and later than the one on record, and the UTC bound does not decrease. *)
Theorem leap_executed_once c s started mono ops p bs :
  leap_run c (newLeapPart s started mono) ops = (p, bs) -> ascending (ls_Executed s) bs /\ ls_UTCbound s <= lp_utcBound p.
Proof.
  assert (forall q, leap_inv q -> leap_run c q ops = (p, bs) -> ascending (lp_executed q) bs /\ lp_utcBound q <= lp_utcBound p) as H.
  { revert p bs. induction ops as [|op ops IH]; intros p bs q Hq; cbn [leap_run]; [intros [= <- <-]; split; [done|lia]|].
    pose proof (leap_exec_inv c q op Hq) as He. destruct (leap_exec c q op) as [q1 b]. destruct He as (H1 & H2 & H3).
    destruct (leap_run c q1 ops) as [q2 bs2] eqn:Er. intros E. apply pair_equal_spec in E as [<- <-].
    destruct (IH _ _ _ H1 Er) as [I1 I2]. split; [|lia]. destruct b as [b|]; [|by rewrite <- H3].
    destruct H3 as [H3 H4]. cbn [ascending]. rewrite H4 in I1. done. }
  intros E. apply H in E; [done|by left].
Qed.

(** ** Examples: a day with a leap at its end, and the next *)

Definition leap_day : time := unixTime 1483142400 0.   (* 2016-12-31 *)

Definition leap_table : Table :=
  mkTable (unixTime 1498521600 0) (unixTime 1467936000 0) [mkTransition (unixTime 1483228800 0) LeapInsert] (unixTime 1467331200 0) 36.

Definition leap_config : LeapConfig := mkLeapConfig (Some leap_table) true.
Definition leap_start : LeapState := mkLeapState None None zeroTime zeroTime zeroTime.

Definition leap_status : SysStatus :=
  mkSysStatus StateSynced 2 zeroRefID LeapUnsync fzero fzero fzero fzero true fzero fzero "a"%string false false fzero 3 0 [].

Lemma leap_required_gate_witness :
  exists p' st', applyLeap leap_config (newLeapPart leap_start leap_day fzero) leap_status (Add leap_day Hour) = (p', st') /\
    lp_ready p' = true /\ st_Leap st' = announced p' leap_table (Add leap_day Hour).
Proof.
  destruct (applyLeap leap_config (newLeapPart leap_start leap_day fzero) leap_status (Add leap_day Hour)) as [p' st'] eqn:E.
  assert (lp_ready p' = true) as Hr.
  { change p' with (p', st').1. rewrite <- E. vm_compute. reflexivity. }
  exists p', st'. split; [reflexivity|]. split; [exact Hr|].
  destruct (leap_required_gate leap_config (newLeapPart leap_start leap_day fzero) leap_status (Add leap_day Hour) p' st' E)
    as [(t & reason & _ & _ & _ & H & _ & _ & Hl)|(Hn & _)]; [reflexivity|reflexivity| |congruence].
  assert ((current_table leap_config p' (valid_at p' (Add leap_day Hour))).1 = Some leap_table) as Ht.
  { change p' with (p', st').1. rewrite <- E. vm_compute. reflexivity. }
  rewrite H in Ht. cbn [fst] in Ht. apply (inj Some) in Ht. subst t. exact Hl.
Defined.

(** The warning arms the leap, the clock repeats the last second, and a step
    back over the boundary does not execute it again. *)
Definition leap_ops : list leap_op :=
  [LeapGate leap_status (Add leap_day Hour); LeapCross (unixTime 1483228798 0) (of_Z 86398); LeapCross (unixTime 1483228799 0) (of_Z 86399);
   LeapCross (unixTime 1483228799 0) (of_Z 86400); LeapStepped (unixTime 1483228790 0); LeapGate leap_status (unixTime 1483228791 0);
   LeapCross (unixTime 1483228801 0) (of_Z 86410)].

Lemma leap_executed_once_witness :
  exists p, leap_run leap_config (newLeapPart leap_start leap_day fzero) leap_ops = (p, [unixTime 1483228800 0]) /\
    ascending (ls_Executed leap_start) [unixTime 1483228800 0] /\ ls_UTCbound leap_start <= lp_utcBound p.
Proof.
  destruct (leap_run leap_config (newLeapPart leap_start leap_day fzero) leap_ops) as [p bs] eqn:E.
  assert (bs = [unixTime 1483228800 0]) as Hb.
  { change bs with (p, bs).2. rewrite <- E. vm_compute. reflexivity. }
  subst bs. exists p. split; [reflexivity|]. exact (leap_executed_once leap_config leap_start leap_day fzero leap_ops p [unixTime 1483228800 0] E).
Defined.
