(* ===== verification/Engine.v ===== *)
(** * internal/engine/engine.go: the owning goroutine

    The engine consumes measurements, ticks and lifecycle requests one at a
    time, feeds the discipline, applies its actions to the kernel clock and
    publishes statuses.  What the kernel answers is a [Kernel]: a function of
    the number of calls made so far.  [e_trace] records, newest first, what the
    engine did to the world, in the order other goroutines could observe it. *)

From stdpp Require Import base list numbers strings gmap.
From Stdlib Require Import Lia ZArith.
From S2P Require Import Prelude Float64 GoTime GoDate NtpTime Measurement Select Loop System NtpSource Refclock LeapTable LeapStore Clock Drift EngineLeap.

Local Open Scope Z_scope.

Definition maxKernelError : duration := 16 * Second.
Definition sourceRestartMin : duration := Second.
Definition sourceRestartMax : duration := Minute.
Definition measQueue : nat := 64.

(** ** The world *)

(** The answers of the clock and of the sources' snapshots: [n] is the number
    of calls made before. *)
Class Kernel : Type := {
  k_now : nat -> time;
  k_mono : nat -> f64;
  k_takes : nat -> bool;          (* whether a frequency, step or status is taken *)
  k_precision : Z;
  k_info : nat -> string -> ClockInfo
}.

(** ** Data *)

Record EngineConfig : Type := mkEngineConfig {
  ec_DriftFile : string;
  ec_DriftInterval : duration;
  ec_DriftStableWindow : duration;
  ec_DriftStableSpread : f64;
  ec_Leap : LeapConfig
}.

(** [engine.Status]. *)
Record EngineStatus : Type := mkEngineStatus {
  es_sys : SysStatus;
  es_PublishedMono : f64;
  es_Now : time;
  es_RefTime : time;
  es_Uptime : duration;
  es_Precision : Z;
  es_LeapSource : string;
  es_LeapExpiry : time;
  es_ClockState : State;
  es_LeapReady : bool;
  es_LeapRequired : bool;
  es_LeapReason : string;
  es_LeapDisagreement : bool;
  es_LeapRecord : option LeapRecord;    (* LeapHash, LeapUpdated, LeapProvider and LeapAccepted *)
  es_LeapObject : option Object;
  es_UTCbound : time;
  es_TimeKnown : bool;
  es_LeapExecuted : time;
  es_Infos : list (string * ClockInfo)
}.

Inductive EngineError : Type :=
| ErrInitialFrequency
| ErrFrequencyRefused
| ErrStepUnrepresentable
| ErrStepRefused
| ErrStatusRefused
| ErrPanicRefused (offset : f64).

(** What the engine does that others can see. *)
Inductive effect : Type :=
| EffFrequency (ppm : f64) (ok : bool)
| EffStep (delta : duration) (ok : bool)
| EffStatus (ks : KStatus) (ok : bool)
| EffEpoch (g : Z)
| EffReset
| EffPublish (s : EngineStatus)
| EffOffer (ppm : f64)
| EffUpdate (m : Measurement).   (* the discipline is given a measurement *)

Record Engine : Type := mkEngine {
  e_cfg : EngineConfig;
  e_sys : Sys;
  e_names : list string;
  e_meas : list Measurement;
  e_startedMono : f64;
  e_refWall : time;
  e_lastLoopUpdate : f64;
  e_lastKernel : option KStatus;
  e_applied : option f64;
  e_procNow : option f64;
  e_leap : LeapPart;
  e_gen : Z;
  e_staleDrops : gmap string Z;
  e_sourceErrors : gmap string string;
  e_restarting : gset string;
  e_freq : freqHistory;
  e_lastDriftWrite : f64;
  e_status : option EngineStatus;
  e_calls : nat;
  e_trace : list effect
}.

#[export] Instance Engine_eta : Eta Engine := fun e =>
  mkEngine (e_cfg e) (e_sys e) (e_names e) (e_meas e) (e_startedMono e) (e_refWall e) (e_lastLoopUpdate e) (e_lastKernel e)
    (e_applied e) (e_procNow e) (e_leap e) (e_gen e) (e_staleDrops e) (e_sourceErrors e) (e_restarting e) (e_freq e)
    (e_lastDriftWrite e) (e_status e) (e_calls e) (e_trace e).

#[export] Instance EngineConfig_eta : Eta EngineConfig := fun c =>
  mkEngineConfig (ec_DriftFile c) (ec_DriftInterval c) (ec_DriftStableWindow c) (ec_DriftStableSpread c) (ec_Leap c).

Section Engine.

Context {K : Kernel}.

(** A call of the clock. *)
Definition called (e : Engine) : Engine := e <| e_calls := S (e_calls e) |>.
Definition did (e : Engine) (f : effect) : Engine := e <| e_trace := f :: e_trace e |>.

Definition clk_now (e : Engine) : time * Engine := (k_now (e_calls e), called e).
Definition clk_mono (e : Engine) : f64 * Engine := (k_mono (e_calls e), called e).

Definition drops (e : Engine) (name : string) : Z := default 0 (e_staleDrops e !! name).
Definition count_drop (e : Engine) (name : string) : Engine :=
  e <| e_staleDrops := <[name := u64 (drops e name + 1)]> (e_staleDrops e) |>.

(** [sourceErrors[name] != ""]. *)
Definition source_error (e : Engine) (name : string) : string := default ""%string (e_sourceErrors e !! name).

(** ** Time and frequency *)

Definition processing (e : Engine) (now : f64) : f64 * Engine :=
  match e_procNow e with
  | Some p => if fgt now p then (now, e <| e_procNow := Some now |>) else (p, e)
  | None => (now, e <| e_procNow := Some now |>)
  end.

Definition setFrequency (e : Engine) (ppm : f64) : Engine * bool :=
  let ok := k_takes (e_calls e) in
  let e := did (called e) (EffFrequency ppm ok) in
  (if ok then e <| e_applied := Some ppm |> else e, ok).

(** ** Epochs *)

(** [beginEpochChange], and the function it returns. *)
Definition bump_epoch (e : Engine) : Engine := let g := u64 (e_gen e + 1) in did (e <| e_gen := g |>) (EffEpoch g).

Definition crossLeap (e : Engine) (now : f64) : option Engine :=
  let '(wall, e) := clk_now e in
  let '(p, crossed) := crossedAnnouncedLeapAt (e_leap e) wall now in
  let p := p <| lp_lastMono := now |> <| lp_lastWall := wall |> in
  let e := e <| e_leap := p |> in
  if negb crossed then Some e
  else
    let e := bump_epoch (did (bump_epoch e) EffReset) in
    '(sys, _) ← Resync (e_sys e) now;
    Some (e <| e_sys := sys |>).

(** [stale]: whether the measurement is discarded. *)
Definition stale (e : Engine) (m : Measurement) : option (Engine * bool) :=
  let '(t, e) := clk_mono e in
  let '(now, e) := processing e t in
  e ← crossLeap e now;
  Some (if negb (bool_decide (source_error e (m_Source m) = ""%string)) && negb (bool_decide (m_Source m ∈ e_restarting e))
        then (count_drop e (m_Source m), true)
        else if m_Generation m =? 0 then (e, false)
        else if (m_Generation m =? e_gen e) && StableEpoch (e_gen e) then (e, false)
        else (count_drop e (m_Source m), true)).

(** ** Publication *)

Definition setKernel (e : Engine) (ks : KStatus) : Engine * option EngineError :=
  let ok := k_takes (e_calls e) in
  let e := did (called e) (EffStatus ks ok) in
  if ok then (e <| e_lastKernel := Some ks |>, None) else (e, Some ErrStatusRefused).

(** The leap of a synchronized status the kernel is told: an armed leap is kept
    when the indicator is unknown. *)
Definition kernel_leap (e : Engine) (leap : Z) : Z * Engine :=
  if leap =? LeapUnsync then
    if IsZero (lp_pending (e_leap e)) then (LeapNone, e)
    else
      let '(wall, e) := clk_now e in
      (if Before wall (lp_pending (e_leap e)) then lp_pendingKind (e_leap e) else LeapNone, e)
  else (leap, e).

Definition kernel_status (e : Engine) (st : SysStatus) : KStatus * Engine :=
  if synced_state (st_State st) then
    let '(leap, e) := kernel_leap e (st_Leap st) in
    (mkKStatus true leap (BoundSeconds (fadd (st_RootDisp st) (fdiv (st_RootDelay st) (of_Z 2))) maxKernelError)
       (BoundSeconds (st_Jitter st) maxKernelError), e)
  else (mkKStatus false LeapUnsync maxKernelError maxKernelError, e).

Definition syncKernel (e : Engine) (st : SysStatus) : Engine * option EngineError :=
  let '(ks, e) := kernel_status e st in
  if bool_decide (e_lastKernel e = Some ks) then (e, None) else setKernel e ks.

(** A source's snapshot, with the failure of its goroutine laid over it. *)
Definition source_info (e : Engine) (name : string) : ClockInfo :=
  let info := k_info (e_calls e) name in
  let info := info <| k_Stale := u64 (k_Stale info + drops e name) |> in
  if bool_decide (source_error e name = ""%string) then info
  else info <| k_Reach := 0 |> <| k_LastError := source_error e name |>.

(** The conversion of a float to an int64; what does not fit is the smallest
    one, as on amd64. *)
Definition to_duration (x : f64) : duration :=
  let n := ftrunc x in
  if is_finite x && (- 2 ^ 63 <=? n) && (n <? 2 ^ 63) then n else - 2 ^ 63.

Definition publishStatus (e : Engine) (st : SysStatus) (now : f64) : Engine :=
  let '(wall, e) := clk_now e in
  let p := e_leap e in
  let s := {|
    es_sys := st; es_PublishedMono := now; es_Now := wall; es_RefTime := e_refWall e;
    es_Uptime := to_duration (fmul (fsub now (e_startedMono e)) (of_Z Second));
    es_Precision := k_precision;
    es_LeapSource := lp_authority p;
    es_LeapExpiry := match lp_active p with
                     | Some r => Expiry (ob_table (lr_Object r))
                     | None => match lc_Table (ec_Leap (e_cfg e)) with Some t => Expiry t | None => zeroTime end
                     end;
    es_ClockState := lp_clockState p; es_LeapReady := lp_ready p; es_LeapRequired := lc_Required (ec_Leap (e_cfg e));
    es_LeapReason := lp_reason p; es_LeapDisagreement := lp_disagreement p;
    es_LeapRecord := lp_active p;
    es_LeapObject := match lp_active p with
                     | Some r => if lp_ready p && negb (bool_decide (lp_authority p = "sources"%string)) then Some (lr_Object r) else None
                     | None => None
                     end;
    es_UTCbound := lp_utcBound p; es_TimeKnown := lp_timeKnown p; es_LeapExecuted := lp_executed p;
    es_Infos := (fun n => (n, source_info e n)) <$> e_names e |} in
  did (called e <| e_status := Some s |>) (EffPublish s).

(** The status and its gate. *)
Definition gated_status (e : Engine) (now : f64) : option (SysStatus * Engine) :=
  st ← SystemStatus (e_sys e) now;
  let '(wall, e) := clk_now e in
  let '(p, st) := applyLeap (ec_Leap (e_cfg e)) (e_leap e) st wall in
  Some (st, e <| e_leap := p |>).

Definition engine_publish (e : Engine) (now : f64) : option Engine :=
  let '(now, e) := processing e now in
  '(st, e) ← gated_status e now;
  Some (publishStatus e st now).

(** ** Actions *)

Definition apply_action (e : Engine) (a : Action) : Engine * option EngineError :=
  match a with
  | ActionSetFrequency ppm =>
      if CheckFrequency ppm then (e, Some ErrFrequencyRefused)
      else let '(e, ok) := setFrequency e ppm in (e, if ok then None else Some ErrFrequencyRefused)
  | ActionStep seconds =>
      match CheckedSeconds seconds with
      | None => (e, Some ErrStepUnrepresentable)
      | Some delta =>
          let e := bump_epoch e in
          let '(_, e) := clk_now e in
          let ok := k_takes (e_calls e) in
          let e := bump_epoch (did (called e) (EffStep delta ok)) in
          if negb ok then (e, Some ErrStepRefused)
          else
            let '(after, e) := clk_now e in
            (e <| e_leap := step_over_leap (e_leap e) after |>, None)
      end
  | ActionResetFilters => (did e EffReset, None)
  end.

Fixpoint apply_actions (e : Engine) (acts : list Action) : Engine * option EngineError :=
  match acts with
  | [] => (e, None)
  | a :: acts =>
      match apply_action e a with
      | (e, None) => apply_actions e acts
      | (e, Some err) => (e, Some err)
      end
  end.

(** The error of a refused correction, published before it is returned. *)
Definition panic_of (evs : list Event) : option EngineError :=
  match find (fun ev => match Kind ev with EventPanicRefused => true | _ => false end) evs with
  | Some ev => Some (ErrPanicRefused (Value ev))
  | None => None
  end.

(** [handle]: none is a panic of the discipline. *)
Definition handle (e : Engine) (res : Result) (now : f64) : option (Engine * option EngineError) :=
  let '(now, e) := processing e now in
  e ← crossLeap e now;
  match apply_actions e (r_Actions res) with
  | (e, Some err) => Some (e, Some err)
  | (e, None) =>
      '(st, e) ← gated_status e now;
      let e := if negb (feq (st_LastUpdate st) (e_lastLoopUpdate e))
               then let '(wall, e) := clk_now (e <| e_lastLoopUpdate := st_LastUpdate st |>) in e <| e_refWall := wall |>
               else e in
      let e := e <| e_freq := noteFrequency (e_freq e) (ec_DriftStableWindow (e_cfg e)) now st |> in
      match syncKernel e st with
      | (e, Some err) => Some (e, Some err)
      | (e, None) => Some (publishStatus e st now, panic_of (r_Events res))
      end
  end.

(** [e.sys.Update(m)]. *)
Definition feed (e : Engine) (m : Measurement) : option (Engine * Result) :=
  '(sys, res) ← Update (e_sys e) m;
  Some ((did e (EffUpdate m)) <| e_sys := sys |>, res).

(** ** Sources *)

(** A send to the channel, when it has room. *)
Definition send (e : Engine) (m : Measurement) : Engine :=
  if (length (e_meas e) <? measQueue)%nat then e <| e_meas := e_meas e ++ [m] |> else e.

Definition requeue (e : Engine) (m : Measurement) : Engine :=
  if (length (e_meas e) <? measQueue)%nat then e <| e_meas := e_meas e ++ [m] |> else count_drop e (m_Source m).

(** The first loop of [dropQueued]: [n] receives, with what is kept and the
    sends yet to come. *)
Fixpoint drain (e : Engine) (name : string) (n : nat) (arrivals : list (list Measurement)) (keep : list Measurement)
  : Engine * list (list Measurement) * list Measurement :=
  match n with
  | O => (e, arrivals, keep)
  | S n =>
      let e := fold_left send (hd [] arrivals) e in
      match e_meas e with
      | [] => (e, tl arrivals, keep)
      | m :: rest =>
          let e := e <| e_meas := rest |> in
          if bool_decide (m_Source m = name) then drain (count_drop e name) name n (tl arrivals) keep
          else drain e name n (tl arrivals) (keep ++ [m])
      end
  end.

(** The second loop. *)
Fixpoint requeue_all (e : Engine) (arrivals : list (list Measurement)) (keep : list Measurement) : Engine :=
  match keep with
  | [] => e
  | m :: keep => requeue_all (requeue (fold_left send (hd [] arrivals) e) m) (tl arrivals) keep
  end.

(** [dropQueued]: before each operation on the channel, the other sources send
    the next group of [arrivals]. *)
Definition dropQueued (e : Engine) (name : string) (arrivals : list (list Measurement)) : Engine :=
  let n := length (e_meas e) in
  if (n =? 0)%nat then e
  else let '(e, arrivals, keep) := drain e name n arrivals [] in requeue_all e arrivals keep.

Definition noteSourceAlive (e : Engine) (name : string) : Engine :=
  if bool_decide (name ∈ e_restarting e)
  then e <| e_restarting := e_restarting e ∖ {[name]} |> <| e_sourceErrors := delete name (e_sourceErrors e) |>
  else e.

Definition sourceStopped (e : Engine) (name : string) (err : option string) (arrivals : list (list Measurement))
  : option (Engine * option EngineError) :=
  if negb (bool_decide (name ∈ e_names e)) then Some (e, None)
  else
    let e := e <| e_sourceErrors := <[name := default "source stopped"%string err]> (e_sourceErrors e) |> in
    let e := dropQueued e name arrivals in
    let '(t, e) := clk_mono e in
    let '(now, e) := processing e t in
    let m := mkMeasurement name now 0 (k_Poll (k_info (e_calls e) name)) (e_gen e) false false false 0 fzero true fzero fzero
               fzero fzero fzero 0 0 zeroRefID fzero fzero 0 zeroTime zeroRefID in
    '(e, res) ← feed (called e) m;
    handle e res now.

Definition sourceRestarting (e : Engine) (name : string) : option Engine :=
  let e := e <| e_restarting := e_restarting e ∪ {[name]} |> in
  let '(t, e) := clk_mono e in
  engine_publish e t.

(** The wait before a source's next run. *)
Definition restart_backoff (b : duration) : duration :=
  if b <? sourceRestartMax then (if sourceRestartMax <? 2 * b then sourceRestartMax else 2 * b) else b.

(** ** Leap requests *)

(** What the waiting worker is told. *)
Inductive leap_answer : Type := LeapDone | LeapRefused (e : LeapError) | LeapFatal (e : EngineError).

(** [ApproveLeap] and [ActivateLeap] on the engine's goroutine: the answer to
    the worker and the error of the run. *)
Definition leapRequest (e : Engine) (r : LeapRecord) (activate cancelled : bool)
  : option (Engine * leap_answer * option EngineError) :=
  if cancelled then Some (e, LeapRefused LeapCancelled, None)
  else
    let '(t, e) := clk_mono e in
    let '(now, e) := processing e t in
    e ← crossLeap e now;
    let '(wall, e) := clk_now e in
    let '(t, e) := clk_mono e in
    let '(now, e) := processing e t in
    st ← SystemStatus (e_sys e) now;
    let '(p, err) := checkLeap (ec_Leap (e_cfg e)) (e_leap e) st wall r in
    let e := e <| e_leap := p |> in
    match err with
    | Some err => Some (e, LeapRefused err, None)
    | None =>
        if negb activate then
          let p := p <| lp_approved := ob_manifest (lr_Object r) |> in
          Some (e <| e_leap := p |>, LeapDone, None)
        else if negb (bool_decide (ob_manifest (lr_Object r) = lp_approved p)) then Some (e, LeapRefused LeapGeneration, None)
        else
          let p := p <| lp_active := Some r |> <| lp_anchor := Some (lr_Object r) |> <| lp_approved := zeroManifest |> in
          let e := e <| e_leap := p |> in
          let '(t, e) := clk_mono e in
          let '(now, e) := processing e t in
          '(e, err) ← handle e (mkResult [] []) now;
          Some (e, match err with Some err => LeapFatal err | None => LeapDone end, err)
    end.

(** [LeapView] and [CurrentLeap], what other goroutines read of the snapshot:
    a snapshot older than 30 s authorizes nothing. *)
Definition LeapView (s : EngineStatus) (now : time) (mono : f64) : time * bool * time * time :=
  (now, es_TimeKnown s && fle (fsub mono (es_PublishedMono s)) (of_Z 30), es_UTCbound s, es_LeapExecuted s).

Definition CurrentLeap (s : EngineStatus) (mono : f64) : option Object :=
  if fgt (fsub mono (es_PublishedMono s)) (of_Z 30) then None else es_LeapObject s.

(** ** Drift *)

Definition maybeWriteDrift (e : Engine) (now : f64) (final : bool) : Engine :=
  let c := e_cfg e in
  match drift_candidate (ec_DriftFile c) (ec_DriftInterval c) (ec_DriftStableWindow c) (ec_DriftStableSpread c) (e_freq e)
          (e_sys e) (e_lastDriftWrite e) now final with
  | Some ppm => (did e (EffOffer ppm)) <| e_lastDriftWrite := now |>
  | None => e
  end.

(** ** The loop *)

Inductive event : Type :=
| EvSend (m : Measurement)
| EvMeasure
| EvTick
| EvStopped (name : string) (err : option string) (arrivals : list (list Measurement))
| EvRestarting (name : string)
| EvLeap (r : LeapRecord) (activate cancelled : bool).

(** One case of the select; a send blocks while the channel is full. *)
Definition engine_event (e : Engine) (ev : event) : option (Engine * option EngineError) :=
  match ev with
  | EvSend m => Some (send e m, None)
  | EvMeasure =>
      match e_meas e with
      | [] => Some (e, None)
      | m :: rest =>
          '(e, dropped) ← stale (e <| e_meas := rest |>) m;
          if (dropped : bool) then Some (e, None)
          else
            let '(t, e) := clk_mono e in
            let '(now, e) := processing e t in
            let e := noteSourceAlive e (m_Source m) in
            '(e, res) ← feed e (m <| m_Now := now |>);
            handle e res now
      end
  | EvTick =>
      let '(t, e) := clk_mono e in
      let '(now, e) := processing e t in
      e ← crossLeap e now;
      '(sys, res) ← Tick (e_sys e) now;
      '(e, err) ← handle (e <| e_sys := sys |>) res now;
      Some (match err with Some _ => e | None => maybeWriteDrift e now false end, err)
  | EvStopped name err arrivals => sourceStopped e name err arrivals
  | EvRestarting name => e ← sourceRestarting e name; Some (e, None)
  | EvLeap r activate cancelled =>
      '(e, _, err) ← leapRequest e r activate cancelled;
      Some (e, err)
  end.

Fixpoint engine_loop (e : Engine) (evs : list event) : option (Engine * option EngineError) :=
  match evs with
  | [] => Some (e, None)
  | ev :: evs =>
      '(e, err) ← engine_event e ev;
      match err with Some err => Some (e, Some err) | None => engine_loop e evs end
  end.

Definition restoreBaseFrequency (e : Engine) (runErr : option EngineError) : Engine :=
  match e_applied e with
  | None => e
  | Some applied =>
      let base := Freq (loop (e_sys e)) in
      if feq applied base then e
      else match runErr with
           | Some ErrFrequencyRefused => e
           | _ => (setFrequency e base).1
           end
  end.

Definition shutdown (e : Engine) (runErr : option EngineError) : Engine :=
  let e := restoreBaseFrequency e runErr in
  let '(t, e) := clk_mono e in
  let '(now, e) := processing e t in
  maybeWriteDrift e now true.

(** [Run]. *)
Definition engine_run (e : Engine) (evs : list event) : option (Engine * option EngineError) :=
  match setFrequency e (Freq (loop (e_sys e))) with
  | (e, false) => Some (e, Some ErrInitialFrequency)
  | (e, true) =>
      match setKernel e (mkKStatus false LeapUnsync maxKernelError maxKernelError) with
      | (e, Some err) => Some (e, Some err)
      | (e, None) =>
          '(e, err) ← engine_loop e evs;
          Some (shutdown e err, err)
      end
  end.

(** [New]; none when two sources share a name or the first status panics. *)
Definition newEngine (c : EngineConfig) (d : Config) (freq : f64) (known : bool) (srcs : list (string * Options)) (s : LeapState)
    (gen : Z) : option Engine :=
  if negb (bool_decide (NoDup (srcs.*1))) then None
  else
    let sys := fold_left (fun sys p => AddSource sys p.1 p.2) srcs (New d freq known) in
    let c := c <| ec_DriftInterval := (if ec_DriftInterval c <=? 0 then Hour else ec_DriftInterval c) |>
               <| ec_DriftStableWindow := (if ec_DriftStableWindow c <=? 0 then defaultDriftStableWindow else ec_DriftStableWindow c) |>
               <| ec_DriftStableSpread := (if fle (ec_DriftStableSpread c) fzero then defaultDriftStableSpread else ec_DriftStableSpread c) |> in
    let started := k_now 0 in
    let mono := k_mono 1 in
    let e := mkEngine c sys (srcs.*1) [] mono zeroTime fzero None None None (newLeapPart s started mono)
               (if gen =? 0 then FirstEpoch else gen) ∅ ∅ ∅ (mkHistory [] ""%string 0) fzero None 2 [] in
    engine_publish e mono.

End Engine.

(** ** The queue *)

Section Queue.
Context {K : Kernel}.
Context (I : Engine -> Prop) (Q : Measurement -> Prop) (name : string).
Hypothesis I_drop : forall e n, I e -> I (count_drop e n).
Hypothesis I_queue : forall e l, I e -> I (e <| e_meas := l |>).

Lemma send_ind ms : forall e, Forall Q ms -> I e ->
  I (fold_left send ms e) /\ exists more, e_meas (fold_left send ms e) = e_meas e ++ more /\ Forall Q more.
Proof.
  induction ms as [|m ms IH]; intros e Hms He; cbn [fold_left]; [split; [done|]; exists []; by rewrite app_nil_r|].
  apply Forall_cons_1 in Hms as [Hm Hms]. unfold send at 2 4. case_goal; [|by apply IH].
  destruct (IH (e <| e_meas := e_meas e ++ [m] |>) Hms (I_queue _ _ He)) as [H1 (more & H2 & H3)].
  split; [done|]. exists (m :: more). split; [rewrite H2; change ((e_meas e ++ [m]) ++ more = e_meas e ++ m :: more); by rewrite <- app_assoc|by constructor].
Qed.

Lemma groups_ind (arrivals : list (list Measurement)) : Forall (Forall Q) arrivals -> Forall Q (hd [] arrivals) /\ Forall (Forall Q) (tl arrivals).
Proof. destruct 1; split; done || constructor. Qed.

(** The [n] oldest are received, and what is left was sent meanwhile. *)
Lemma drain_ind n : forall e arrivals keep old new e' arrivals' keep',
  drain e name n arrivals keep = (e', arrivals', keep') ->
  e_meas e = old ++ new -> length old = n -> Forall (fun m => m_Source m = name \/ Q m) old -> Forall Q new ->
  Forall (Forall Q) arrivals -> Forall Q keep -> I e ->
  I e' /\ Forall Q (e_meas e') /\ Forall (Forall Q) arrivals' /\ Forall Q keep'.
Proof.
  induction n as [|n IH]; intros e arrivals keep old new e' arrivals' keep' E Hm Hl Ho Hn Ha Hk He; cbn [drain] in E.
  - apply nil_length_inv in Hl as ->. simplify_eq. by rewrite Hm.
  - apply groups_ind in Ha as [Ha1 Ha2]. destruct (send_ind (hd [] arrivals) e Ha1 He) as [H1 (more & H2 & H3)].
    destruct old as [|m old]; [done|]. apply Forall_cons_1 in Ho as [Hom Ho]. rewrite Hm in H2. rewrite H2 in E. cbn [app] in E. injection Hl as Hl.
    assert (Forall Q (new ++ more)) as Hnm by (by apply Forall_app). rewrite <- app_assoc in E. case_in E.
    + refine (IH _ _ _ old (new ++ more) _ _ _ E _ Hl Ho Hnm Ha2 Hk _); [done|]. by apply I_drop, I_queue.
    + apply bool_decide_eq_false in Heqb. destruct Hom as [?|Hom]; [done|].
      refine (IH _ _ _ old (new ++ more) _ _ _ E _ Hl Ho Hnm Ha2 _ _); [done|apply Forall_app; auto|]. by apply I_queue.
Qed.

Lemma requeue_ind keep : forall e arrivals, Forall (Forall Q) arrivals -> Forall Q keep -> Forall Q (e_meas e) -> I e ->
  I (requeue_all e arrivals keep) /\ Forall Q (e_meas (requeue_all e arrivals keep)).
Proof.
  induction keep as [|m keep IH]; intros e arrivals Ha Hk Hm He; cbn [requeue_all]; [done|]. apply Forall_cons_1 in Hk as [Hkm Hk].
  apply groups_ind in Ha as [Ha1 Ha2]. destruct (send_ind (hd [] arrivals) e Ha1 He) as [H1 (more & H2 & H3)].
  generalize dependent (fold_left send (hd [] arrivals) e). intros e1 H1 H2. assert (Forall Q (e_meas e1)) as Hm1 by (rewrite H2; by apply Forall_app).
  apply IH; [done|done| |]; unfold requeue; case_goal; try done; [apply Forall_app; auto|by apply I_queue|by apply I_drop].
Qed.

(** What holds of the engine through the drops and the sends, holds after
    [dropQueued], and the queue is left with the measurements of the others. *)
Lemma dropQueued_ind arrivals e :
  I e -> Forall (fun m => m_Source m = name \/ Q m) (e_meas e) -> Forall (Forall Q) arrivals ->
  I (dropQueued e name arrivals) /\ Forall Q (e_meas (dropQueued e name arrivals)).
Proof.
  intros He Hm Ha. unfold dropQueued. cbv zeta. destruct (length (e_meas e) =? 0)%nat eqn:E0.
  { apply Nat.eqb_eq, nil_length_inv in E0. rewrite E0. split; [done|constructor]. }
  destruct (drain e name (length (e_meas e)) arrivals []) as [[e1 a1] k1] eqn:Ed.
  destruct (drain_ind _ _ _ _ (e_meas e) [] _ _ _ Ed) as (H1 & H2 & H3 & H4); try done; [by rewrite app_nil_r|]. by apply requeue_ind.
Qed.

End Queue.
