(* ===== verification/EngineTrace.v ===== *)
(** * The engine's dealings with the world

    What the recorded effects of a run of [Engine.v] satisfy: the epoch
    protocol, the withdrawal of service around a step, the leap gate on every
    snapshot, the processing clock, the frequency left behind.  The invariant
    is carried through every operation; each claim reads a part of it. *)

From stdpp Require Import base list numbers strings gmap.
From Stdlib Require Import Lia ZArith.
From S2P Require Import Prelude Float64 GoTime GoDate NtpTime Measurement Select Loop System NtpSource Refclock LeapTable LeapStore Clock Drift EngineLeap Engine.

Local Open Scope Z_scope.

(** ** The discipline at a discontinuity *)

(** Without a valid source there is no system source. *)
Lemma SelectAt_none st now k opts st' sl :
  Forall jitter_ok st -> Forall (fun x => Valid x = false) st -> SelectAt st now k opts = Some (st', sl) -> System sl = None.
Proof.
  intros Hj Hv E. destruct (SelectAt_spec st now k opts Hj) as (st2 & sl2 & st1 & surv & E2 & H). rewrite E in E2.
  apply (inj Some) in E2. apply pair_equal_spec in E2 as [<- <-]. cbv zeta in H. destruct H as (_ & _ & Hsub & Hin & Hm).
  destruct (System sl) as [i|] eqn:Es; [|done]. exfalso. destruct Hm as (Hi & _).
  assert (exists pps, i ∈ accepted (prepared now opts st) pps) as [pps Ha].
  { destruct (Hin i Hi) as [H|[H _]]; [exists false; by eapply elem_of_sublist|by exists true]. }
  apply accepted_eligible in Ha as (Hval%el_valid & _ & Hlt). apply lookup_lt_is_Some in Hlt as [x Hx].
  rewrite (src_lookup _ _ _ Hx) in Hval. rewrite Forall_forall in Hv.
  assert (x ∈ st) by (by eapply list_elem_of_lookup_2). rewrite (Hv x) in Hval by done. done.
Qed.

(** Not serving, and with no synchronization to fall back on. *)
Definition unserved (s : Sys) : Prop := state s = StateUnsynced \/ state s = StateSettling /\ everSynced s = false.

Lemma lose_system_unserved s now res : unserved s -> unserved (lose_system s now res).1.
Proof.
  unfold unserved. destruct s. cbn. intros [->|[-> ->]]; left; reflexivity.
Qed.

(** Resynchronizing asks for nothing, and never restores service. *)
Lemma Resync_spec c k s now :
  sys_inv c k s -> exists s' res, Resync s now = Some (s', res) /\ sys_inv c k s' /\ r_Actions res = [] /\ (unserved s -> unserved s').
Proof.
  intros Hi. destruct (sys_exec_inv c k s (OpResync now) Hi I) as (s' & res & E & (Hp & _)). cbn [sys_exec samples] in *.
  rewrite Z.add_0_r in Hp. exists s', res. split; [done|]. split; [done|]. unfold Resync, invalidate_all in E.
  destruct (all s) as [st|] eqn:Ea; [|done]. cbn [mbind option_bind] in E. set (s1 := put_all s (invalidate <$> st)) in *.
  destruct (write_back s st (invalidate <$> st) s1) as [_ Ha1]; try done; [apply Hi|apply who_invalidate|].
  unfold reselect in E. change (all (s1 <| resyncing := _ |>)) with (all s1) in E. rewrite Ha1 in E. cbn [mbind option_bind] in E.
  destruct (SelectAt _ _ _ _) as [[st' sl]|] eqn:Es; [|done]. cbn [mbind option_bind] in E. apply (inj Some) in E.
  assert (System sl = None) as Hn.
  { apply (SelectAt_none _ _ _ _ _ _) in Es; [done| |].
    - assert (Forall jitter_ok st) as Hj by (by eapply all_jitter; [apply Hi|]).
      apply Forall_fmap. eapply List.Forall_impl; [|exact Hj]. done.
    - apply Forall_fmap, List.Forall_forall. done. }
  unfold take_selection in E. rewrite Hn in E.
  set (s2 := _ <| preferLost := _ |> <| sel := _ |> <| leap := _ |>) in E. set (ev := mkResult [] _) in E.
  pose proof (lose_system_actions s2 now ev) as Hl. rewrite E in Hl. split; [exact Hl|]. intros Hu.
  pose proof (lose_system_unserved s2 now ev) as Hlu. rewrite E in Hlu. apply Hlu. exact Hu.
Qed.

Lemma SystemStatus_spec c k s now :
  sys_inv c k s -> exists st, SystemStatus s now = Some st /\ st_State st = state s /\ (synced_state (state s) = false -> st_Leap st = LeapUnsync).
Proof.
  intros Hi. destruct (all_total s (si_wf _ _ _ Hi)) as [srcs Ha]. unfold SystemStatus. rewrite Ha. cbn [mbind option_bind].
  eexists. split; [reflexivity|]. destruct (state s) eqn:E; [|destruct (_ && _)|..]; (split; [cbn; done|]); done.
Qed.

Lemma unserved_state s : unserved s -> synced_state (state s) = false.
Proof. intros [->|[-> _]]; done. Qed.

(** ** The gate on a snapshot *)

(** An armed leap is an insertion or a deletion. *)
Definition armed_ok (p : LeapPart) : Prop :=
  lp_pending p = zeroTime \/ lp_pendingKind p = LeapInsert \/ lp_pendingKind p = LeapDelete.

Lemma crossed_armed p wall mono p' crossed : crossedAnnouncedLeapAt p wall mono = (p', crossed) -> armed_ok p -> armed_ok p'.
Proof.
  unfold crossedAnnouncedLeapAt. case_goal; [by intros [= <- <-]|]. case_goal; intros E; apply pair_equal_spec in E as [<- _]; [|done].
  intros _. left. destruct p. by case_goal.
Qed.

Lemma step_over_armed p after : armed_ok p -> armed_ok (step_over_leap p after).
Proof. unfold step_over_leap, armed_ok. destruct p. lfields. case_goal; lfields; auto. Qed.

Lemma notePendingLeap_armed p w wall : armed_ok p -> armed_ok (notePendingLeap p w wall).
Proof.
  unfold armed_ok, notePendingLeap. intros H. case_goal; [done|]. case_goal; [|done]. case_goal; [done|]. right. destruct p. lfields.
  match goal with H : _ && _ = false |- _ => apply andb_false_iff in H as [H|H]; apply negb_false_iff, Z.eqb_eq in H end; auto.
Qed.

Lemma announce_armed c p st wall : armed_ok p -> armed_ok (announce c p st wall).1.
Proof.
  unfold announce. intros H. case_goal; [|by case_goal]. case_goal; cbn [fst]; [|by destruct p].
  apply notePendingLeap_armed. by destruct p.
Qed.

Lemma announce_authority c p st wall : lp_authority (announce c p st wall).1 = lp_authority p.
Proof.
  unfold announce. case_goal; [|by case_goal]. case_goal; cbn [fst]; [|by destruct p].
  unfold notePendingLeap. destruct p. by repeat case_goal.
Qed.

Lemma announce_idle c p st wall : synced_state (st_State st) = false -> (announce c p st wall).2 = st.
Proof. unfold announce. intros ->. by case_goal. Qed.

(** Without a table in force only the sources make the gate ready. *)
Lemma leap_gate_sources c p st wall :
  gate_table c p wall = None -> lp_ready (leap_gate c p st wall).1 = true -> lp_authority (leap_gate c p st wall).1 = "sources"%string.
Proof.
  unfold leap_gate, gate_table. destruct (current_table c p (valid_at p wall)) as [table reason]. cbn [fst].
  destruct p. lfields. intros E. rewrite E. by repeat case_goal.
Qed.

(** A table of the object in force that may be handed on. *)
Definition eligible_object (p : LeapPart) : option Object :=
  match lp_active p with
  | Some r => if lp_ready p && negb (bool_decide (lp_authority p = "sources"%string)) then Some (lr_Object r) else None
  | None => None
  end.

Record gated (c : LeapConfig) (p : LeapPart) (st : SysStatus) (p' : LeapPart) (st' : SysStatus) : Prop := {
  ga_armed : armed_ok p -> armed_ok p';
  ga_serving : synced_state (st_State st') = true ->
    st_State st' = st_State st /\ (lc_Required c = true -> lp_ready p' = true /\ lp_timeKnown p' = true);
  ga_idle : synced_state (st_State st') = false -> synced_state (st_State st) = false -> st_Leap st' = st_Leap st;
  ga_withdrawn : synced_state (st_State st') = false -> synced_state (st_State st) = true -> st_Leap st' = LeapUnsync /\ st_Stratum st' = 16;
  ga_object : forall o, eligible_object p' = Some o -> lp_timeKnown p' = true /\ lp_utcBound p' < Expiry (ob_table o)
}.

Lemma applyLeap_gated c p st wall p' st' : applyLeap c p st wall = (p', st') -> gated c p st p' st'.
Proof.
  unfold applyLeap. destruct (leap_gate c (establish p st wall) st wall) as [p1 st1] eqn:Eg.
  pose proof (leap_gate_sources c (establish p st wall) st wall) as Hsrc. rewrite Eg in Hsrc. cbn [fst] in Hsrc.
  apply leap_gate_spec in Eg as ((F1 & F2 & F3 & F4 & F5 & F6 & _) & S1 & K1 & Ht).
  destruct (establish_spec p st wall) as (E1 & E2 & _). set (q := establish p st wall) in *. clearbody q.
  intros Ea. pose proof (announce_armed c p1 st1 wall) as Har. pose proof (announce_authority c p1 st1 wall) as Hau. pose proof (announce_idle c p1 st1 wall) as Hid.
  rewrite Ea in Har, Hau, Hid. cbn [fst snd] in Har, Hau, Hid.
  apply announce_spec in Ea as (A1 & A2 & _ & A4 & A5 & _ & _ & _ & _ & _ & _ & A12 & A13). rewrite S1 in *.
  constructor.
  - intros Hp. apply Har. unfold armed_ok in *. by rewrite F2, F3, E1, E2.
  - intros Hs. destruct (lp_ready p1) eqn:Er.
    + destruct (A12 eq_refl) as [-> _]. split; [done|]. intros _. rewrite A1, A2, F1. auto.
    + destruct (A13 eq_refl) as [_ ->]. destruct (synced_state (st_State st) && lc_Required c) eqn:Ec; [done|]. rewrite S1 in *.
      split; [done|]. intros Hr. by rewrite Hs, Hr in Ec.
  - intros _ Hn. rewrite Hid by done. destruct (gate_table c q wall); [|by destruct Ht as [-> _]]. destruct Ht as [_ ->]. by rewrite Hn.
  - intros Hn Hs. destruct (lp_ready p1) eqn:Er.
    + destruct (A12 eq_refl) as [B1 _]. congruence.
    + destruct (A13 eq_refl) as [_ B2]. destruct (synced_state (st_State st) && lc_Required c) eqn:Ec; [by subst st'|]. subst st'. congruence.
  - intros o. unfold eligible_object. rewrite A1, A2, A4, A5, Hau, F1, F5, F6. destruct (lp_active q) as [r|] eqn:Er; [|done].
    destruct (lp_ready p1 && _) eqn:Ec; [|done]. intros [= <-]. apply andb_true_iff in Ec as [Ec1 Ec2]. split; [auto|].
    unfold gate_table in Hsrc, Ht. rewrite K1 in Hsrc, Ht by done. unfold current_table in *. rewrite Er in *.
    destruct (CheckUpdate None (Some (lr_Object r)) (valid_at q wall)) eqn:Eu.
    { cbn [fst] in Hsrc. rewrite (Hsrc eq_refl Ec1) in Ec2. done. }
    clear Hsrc Ht. unfold CheckUpdate, Before in Eu. repeat (case_in Eu; [done|]). repeat bool_step. unfold valid_at, After in *. case_in Heqb0; repeat bool_step; lia.
Qed.

(** ** What the effects of a run must satisfy *)

(** The world as the effects so far leave it: the epoch the sources read, and
    whether the clock was stepped since the last snapshot. *)
Record world : Type := mkWorld { w_epoch : Z; w_stepped : bool }.

Definition world_step (f : effect) (w : world) : world :=
  match f with
  | EffEpoch g => mkWorld g (w_stepped w)
  | EffStep _ _ => mkWorld (w_epoch w) true
  | EffPublish _ => mkWorld (w_epoch w) false
  | _ => w
  end.

(** The trace is newest first; [g0] is the epoch at its start. *)
Definition world_of (g0 : Z) (tr : list effect) : world := fold_right world_step (mkWorld g0 false) tr.

Definition serving (s : EngineStatus) : bool := synced_state (st_State (es_sys s)).

(** A snapshot other goroutines may act on. *)
Definition snapshot_ok (w : world) (s : EngineStatus) : Prop :=
  (if serving s
   then w_stepped w = false /\ (es_LeapRequired s = true -> es_LeapReady s = true /\ es_TimeKnown s = true)
   else st_Leap (es_sys s) = LeapUnsync) /\
  (forall o, es_LeapObject s = Some o -> es_TimeKnown s = true /\ es_UTCbound s < Expiry (ob_table o)).

(** A status the kernel may be told. *)
Definition kstatus_ok (w : world) (ks : KStatus) : Prop :=
  if ks_Synced ks
  then w_stepped w = false /\ ks_Leap ks <> LeapUnsync /\ 0 <= ks_MaxError ks <= maxKernelError /\ 0 <= ks_EstError ks <= maxKernelError
  else ks = mkKStatus false LeapUnsync maxKernelError maxKernelError.

Definition effect_ok (w : world) (f : effect) : Prop :=
  match f with
  | EffEpoch g => g = u64 (w_epoch w + 1)
  | EffStep _ _ => Z.odd (w_epoch w) = true
  | EffReset => True
  | EffFrequency _ _ | EffOffer _ => Z.even (w_epoch w) = true
  | EffUpdate m => Z.even (w_epoch w) = true /\ w_stepped w = false /\ (m_Generation m = 0 \/ m_Generation m = w_epoch w)
  | EffStatus ks _ => Z.even (w_epoch w) = true /\ kstatus_ok w ks
  | EffPublish s => Z.even (w_epoch w) = true /\ snapshot_ok w s
  end.

Fixpoint trace_ok (g0 : Z) (tr : list effect) : Prop :=
  match tr with
  | [] => True
  | f :: tr => effect_ok (world_of g0 tr) f /\ trace_ok g0 tr
  end.

(** Every effect of a good trace was permitted when it happened. *)
Lemma trace_ok_at g0 post f pre : trace_ok g0 (post ++ f :: pre) -> effect_ok (world_of g0 pre) f /\ trace_ok g0 pre.
Proof. induction post as [|x post IH]; cbn [app trace_ok]; [done|]. intros [_ H]. by apply IH. Qed.

(** A frequency the kernel may be given. *)
Definition in_range (ppm : f64) : Prop := fle (fopp MaxFrequency) ppm = true /\ fle ppm MaxFrequency = true.

Fixpoint words_ok (tr : list effect) : Prop :=
  match tr with
  | [] => True
  | EffFrequency ppm _ :: tr => in_range ppm /\ words_ok tr
  | _ :: tr => words_ok tr
  end.

Lemma word_in_range x : word_ok x -> is_nan x = false -> in_range x.
Proof. intros [H|H] Hn; [congruence|exact H]. Qed.

(** ** The invariant

    [N] is the condition under which the first frequency is a number. *)

Record good (c : Config) (g0 : Z) (N : Prop) (sys : Sys) (meas : list Measurement) (gen : Z) (tr : list effect) (p : LeapPart) : Prop := {
  go_sys : exists k, sys_inv c k sys;
  go_meas : Forall (fun m => op_ok (OpMeasure m)) meas;
  go_epoch : w_epoch (world_of g0 tr) = gen;
  go_even : Z.even gen = true;
  go_trace : trace_ok g0 tr;
  go_armed : armed_ok p;
  go_words : N -> words_ok tr
}.

Abbreviation engine_ok c g0 N e := (good c g0 N (e_sys e) (e_meas e) (e_gen e) (e_trace e) (e_leap e)).
Abbreviation engine_stepped g0 e := (w_stepped (world_of g0 (e_trace e))).

Lemma u64_even z : Z.even (u64 z) = Z.even z.
Proof. unfold wrapu. rewrite !Zeven_mod. f_equal. rewrite <- (Znumtheory.Zmod_div_mod 2 (2 ^ 64)); [done|lia|lia|by exists (2 ^ 63)]. Qed.

Section Trace.

Context {K : Kernel} (c : Config) (g0 : Z) (N : Prop).

(** Neither an epoch change nor a frequency out of range. *)
Definition plain (f : effect) : Prop := (forall g, f <> EffEpoch g) /\ (forall ppm ok, f = EffFrequency ppm ok -> N -> in_range ppm).

(** An effect other than an epoch change. *)
Lemma did_ok e f :
  engine_ok c g0 N e -> plain f -> effect_ok (world_of g0 (e_trace e)) f -> engine_ok c g0 N (did e f).
Proof.
  intros [H1 H2 H3 H4 H5 H6 H7] [Hf Hw] He. constructor; try done; [|destruct f; try done; intros HN; split; [by eapply Hw|by apply H7]]. cbn [did e_trace set e_gen world_of fold_right]. fold (world_of g0 (e_trace e)).
  destruct f; try done. by destruct (Hf g).
Qed.

Lemma even_now sys meas gen tr p : good c g0 N sys meas gen tr p -> Z.even (w_epoch (world_of g0 tr)) = true.
Proof. intros H. rewrite (go_epoch _ _ _ _ _ _ _ _ H). apply H. Qed.

(** A discontinuity, bracketed. *)
Lemma bracket_ok sys meas gen tr p f :
  good c g0 N sys meas gen tr p -> (forall w, Z.odd (w_epoch w) = true -> effect_ok w f) -> plain f ->
  good c g0 N sys meas (u64 (u64 (gen + 1) + 1)) (EffEpoch (u64 (u64 (gen + 1) + 1)) :: f :: EffEpoch (u64 (gen + 1)) :: tr) p.
Proof.
  intros [H1 H2 H3 H4 H5 H6 H7] He [Hf Hw]. constructor; try done.
  - by rewrite u64_even, Z.even_add, u64_even, Z.even_add, H4.
  - cbn [trace_ok world_of fold_right]. fold (world_of g0 tr). cbn [world_step effect_ok w_epoch]. rewrite H3.
    set (w := mkWorld (u64 (gen + 1)) (w_stepped (world_of g0 tr))).
    assert (w_epoch (world_step f w) = w_epoch w) as -> by (destruct f; try done; by destruct (Hf g)).
    split; [done|]. split; [|done]. apply He. cbn [w w_epoch]. by rewrite <- Z.negb_even, u64_even, Z.even_add, H4.
  - intros HN. specialize (H7 HN). destruct f; try done. split; [by eapply Hw|done].
Qed.

Lemma crossLeap_ok e now :
  engine_ok c g0 N e ->
  exists e', crossLeap e now = Some e' /\ engine_ok c g0 N e' /\ e_meas e' = e_meas e /\
    engine_stepped g0 e' = engine_stepped g0 e /\ (unserved (e_sys e) -> unserved (e_sys e')).
Proof.
  intros Hg. unfold crossLeap, clk_now. destruct (crossedAnnouncedLeapAt _ _ _) as [p crossed] eqn:Ec.
  assert (armed_ok p) as Hp by (eapply crossed_armed; [exact Ec|apply Hg]).
  destruct crossed; cbn [negb].
  - destruct (go_sys _ _ _ _ _ _ _ _ Hg) as [k Hk]. destruct (Resync_spec c k (e_sys e) now Hk) as (s' & res & Er & Hs & _ & Hu).
    set (q := p <| lp_lastMono := now |> <| lp_lastWall := _ |>). assert (armed_ok q) as Hq by (destruct p; exact Hp). clearbody q.
    change (e_sys (bump_epoch _)) with (e_sys e). rewrite Er. cbn [mbind option_bind]. eexists. split; [reflexivity|].
    split; [|done]. apply (bracket_ok s' (e_meas e) (e_gen e) (e_trace e) q EffReset); [|done|done].
    destruct Hg. constructor; try done. by exists k.
  - eexists. split; [reflexivity|]. split; [|done]. destruct Hg. by constructor.
Qed.

Lemma apply_action_ok e a e' err :
  engine_ok c g0 N e -> (forall x, a = ActionStep x -> unserved (e_sys e)) -> (forall x, a = ActionSetFrequency x -> word_ok x) ->
  apply_action e a = (e', err) ->
  engine_ok c g0 N e' /\ e_sys e' = e_sys e /\ e_meas e' = e_meas e /\
  (engine_stepped g0 e' = true -> engine_stepped g0 e = true \/ unserved (e_sys e)).
Proof.
  intros Hg Hu Hw. destruct a as [ppm|sec|]; cbn [apply_action].
  - destruct (CheckFrequency ppm) eqn:Ef; [intros [= <- <-]; auto|]. unfold setFrequency.
    assert (engine_ok c g0 N (did (called e) (EffFrequency ppm (k_takes (e_calls e))))) as Hd.
    { apply did_ok; [exact Hg| |by eapply even_now]. split; [done|]. intros ? ? [= <- _] _.
      unfold CheckFrequency in Ef. apply orb_false_iff in Ef as [Ef _]. apply word_in_range; [by apply Hw|done]. }
    destruct (k_takes (e_calls e)); intros E; apply pair_equal_spec in E as [<- _]; (split; [exact Hd|]); (split; [done|]); (split; [done|]); by left.
  - destruct (CheckedSeconds sec) as [delta|]; [|intros [= <- <-]; auto]. unfold clk_now. cbv zeta. cbn beta iota.
    pose proof (bracket_ok _ _ _ _ _ (EffStep delta (k_takes (e_calls (called (bump_epoch e))))) Hg ltac:(done) ltac:(done)) as Hb.
    destruct (k_takes (e_calls (called (bump_epoch e)))); cbn [negb]; intros E; apply pair_equal_spec in E as [<- _].
    + split; [|split; [done|split; [done|by right; eapply Hu]]]. destruct Hb. constructor; try done. by apply step_over_armed.
    + split; [exact Hb|split; [done|split; [done|by right; eapply Hu]]].
  - intros E; apply pair_equal_spec in E as [<- _]. split; [by apply did_ok|]. split; [done|]. split; [done|]. by left.
Qed.

Lemma apply_actions_ok acts : forall e e' err,
  engine_ok c g0 N e -> (forall x, In (ActionStep x) acts -> unserved (e_sys e)) -> words_post acts -> apply_actions e acts = (e', err) ->
  engine_ok c g0 N e' /\ e_sys e' = e_sys e /\ e_meas e' = e_meas e /\
  (engine_stepped g0 e' = true -> engine_stepped g0 e = true \/ unserved (e_sys e)).
Proof.
  induction acts as [|a acts IH]; intros e e' err Hg Hu Hw; cbn [apply_actions]; [intros [= <- <-]; auto|].
  destruct (apply_action e a) as [e1 err1] eqn:E1. apply apply_action_ok in E1 as (G1 & S1 & M1 & T1); [|done|intros x ->; eapply Hu; by left|intros x ->; apply Hw; by left].
  destruct err1; [intros [= <- <-]; auto|]. intros E. apply IH in E as (G2 & S2 & M2 & T2); [|done| |intros x Hx; apply Hw; by right].
  - split; [done|]. split; [congruence|]. split; [congruence|]. rewrite S1 in T2. tauto.
  - intros x Hx. rewrite S1. eapply Hu. by right.
Qed.

(** The status about to be told to the kernel and published. *)
Definition status_ok (e : Engine) (st : SysStatus) : Prop :=
  (if synced_state (st_State st)
   then engine_stepped g0 e = false /\
        (lc_Required (ec_Leap (e_cfg e)) = true -> lp_ready (e_leap e) = true /\ lp_timeKnown (e_leap e) = true)
   else st_Leap st = LeapUnsync) /\
  (forall o, eligible_object (e_leap e) = Some o -> lp_timeKnown (e_leap e) = true /\ lp_utcBound (e_leap e) < Expiry (ob_table o)).

Lemma gated_status_ok e now :
  engine_ok c g0 N e -> (engine_stepped g0 e = true -> unserved (e_sys e)) ->
  exists st e', gated_status e now = Some (st, e') /\ engine_ok c g0 N e' /\ e_meas e' = e_meas e /\ status_ok e' st.
Proof.
  intros Hg Hu. unfold gated_status. destruct (go_sys _ _ _ _ _ _ _ _ Hg) as [k Hk].
  destruct (SystemStatus_spec c k (e_sys e) now Hk) as (st & Est & Hst & Hl). rewrite Est. cbn [mbind option_bind]. unfold clk_now.
  cbn [e_cfg called set]. destruct (applyLeap _ _ _ _) as [p st'] eqn:Ea. apply applyLeap_gated in Ea as [A1 A2 A3 A4 A5].
  eexists _, _. split; [reflexivity|]. split; [destruct Hg; constructor; try done; by apply A1|]. split; [done|].
  split; [|exact A5]. destruct (synced_state (st_State st')) eqn:Es.
  - destruct (A2 eq_refl) as [A2a A2b]. split; [|exact A2b]. change (engine_stepped g0 e = false).
    destruct (engine_stepped g0 e) eqn:Et; [|done]. specialize (Hu eq_refl). apply unserved_state in Hu. congruence.
  - destruct (synced_state (st_State st)) eqn:Es0; [by apply A4|]. rewrite A3 by done. apply Hl. by rewrite <- Hst.
Qed.

Lemma kernel_leap_known e leap v e' :
  armed_ok (e_leap e) -> kernel_leap e leap = (v, e') -> v <> LeapUnsync.
Proof.
  unfold kernel_leap, armed_ok. destruct (leap =? LeapUnsync) eqn:E; bool_step; [|by intros _ [= <- <-]].
  unfold IsZero. destruct (lp_pending (e_leap e) =? zeroTime) eqn:Ez; bool_step; [by intros _ [= <- _]|].
  unfold clk_now. cbn beta iota. intros Ha Ev. apply pair_equal_spec in Ev as [<- _]. change (e_leap (called e)) with (e_leap e).
  case_goal; [|done]. by destruct Ha as [?|[->| ->]].
Qed.

Lemma syncKernel_ok e st e' err :
  engine_ok c g0 N e -> status_ok e st -> syncKernel e st = (e', err) -> engine_ok c g0 N e' /\ e_meas e' = e_meas e /\ status_ok e' st.
Proof.
  intros Hg Hs. unfold syncKernel. destruct (kernel_status e st) as [ks e1] eqn:Ek.
  assert ((e1 = e \/ e1 = called e) /\ kstatus_ok (world_of g0 (e_trace e)) ks) as [He Hk].
  { unfold kernel_status in Ek. destruct Hs as [Hs _]. destruct (synced_state (st_State st)).
    - destruct (kernel_leap e (st_Leap st)) as [v e2] eqn:El. pose proof (kernel_leap_known _ _ _ _ (go_armed _ _ _ _ _ _ _ _ Hg) El) as Hv.
      apply pair_equal_spec in Ek as [<- <-]. split.
      + unfold kernel_leap, clk_now in El. repeat case_in El; apply pair_equal_spec in El as [_ <-]; auto.
      + cbn [kstatus_ok ks_Synced ks_Leap ks_MaxError ks_EstError]. split; [apply Hs|]. split; [done|].
        split; by apply BoundSeconds_range.
    - apply pair_equal_spec in Ek as [<- <-]. split; [by left|reflexivity]. }
  assert (engine_ok c g0 N e1 /\ e_meas e1 = e_meas e /\ status_ok e1 st /\ e_trace e1 = e_trace e) as (G1 & M1 & S1 & T1) by (destruct He as [->| ->]; auto).
  clear He Ek. case_goal; [intros E; apply pair_equal_spec in E as [<- _]; auto|]. unfold setKernel.
  assert (forall ok, engine_ok c g0 N (did (called e1) (EffStatus ks ok)) /\ status_ok (did (called e1) (EffStatus ks ok)) st) as Hd.
  { intros ok. split; [|exact S1]. apply did_ok; [exact G1|done|]. split; [by eapply even_now|]. change (e_trace (called e1)) with (e_trace e1). by rewrite T1. }
  destruct (k_takes (e_calls e1)); intros E; apply pair_equal_spec in E as [<- _]; destruct (Hd true), (Hd false); auto.
Qed.

Lemma publishStatus_ok e st now :
  engine_ok c g0 N e -> status_ok e st ->
  engine_ok c g0 N (publishStatus e st now) /\ engine_stepped g0 (publishStatus e st now) = false /\ e_meas (publishStatus e st now) = e_meas e.
Proof.
  intros Hg Hs. split; [|done]. unfold publishStatus, clk_now. cbn beta iota zeta. apply did_ok; [exact Hg|done|].
  split; [by eapply even_now|]. exact Hs.
Qed.

Lemma processing_same e t now e' :
  processing e t = (now, e') -> engine_ok c g0 N e -> engine_ok c g0 N e' /\ e_sys e' = e_sys e /\ e_trace e' = e_trace e /\ e_meas e' = e_meas e.
Proof.
  unfold processing. intros E Hg. repeat case_in E; apply pair_equal_spec in E as [_ <-]; auto.
Qed.

Lemma handle_ok e res now :
  engine_ok c g0 N e -> engine_stepped g0 e = false -> (forall x, In (ActionStep x) (r_Actions res) -> unserved (e_sys e)) ->
  words_post (r_Actions res) ->
  exists e' err, handle e res now = Some (e', err) /\ engine_ok c g0 N e' /\ e_meas e' = e_meas e /\ (err = None -> engine_stepped g0 e' = false).
Proof.
  intros Hg Hc Hu Hw. unfold handle. destruct (processing e now) as [t e1] eqn:Ep. apply processing_same in Ep as (G1 & S1 & T1 & M1); [|done].
  destruct (crossLeap_ok e1 t G1) as (e2 & -> & G2 & M2 & T2 & U2). cbn [mbind option_bind].
  destruct (apply_actions e2 (r_Actions res)) as [e3 err] eqn:Ea. apply apply_actions_ok in Ea as (G3 & S3 & M3 & T3); [|done| |exact Hw].
  2: { intros x Hx. apply U2. rewrite S1. by eapply Hu. }
  destruct err as [err|]; [eexists _, _; split; [reflexivity|]; split; [done|]; split; [congruence|done]|].
  destruct (gated_status_ok e3 t G3) as (st & e4 & -> & G4 & M4 & S4).
  { intros Ht. destruct (T3 Ht) as [H|H]; [|by rewrite S3]. rewrite T2, T1, Hc in H. done. }
  cbn [mbind option_bind]. set (e5 := if negb _ then _ else e4).
  assert (engine_ok c g0 N e5 /\ e_meas e5 = e_meas e4 /\ status_ok e5 st) as (G5 & M5 & S5) by (unfold e5; destruct (negb _); auto).
  clearbody e5. set (e6 := e5 <| e_freq := _ |>). assert (engine_ok c g0 N e6 /\ e_meas e6 = e_meas e5 /\ status_ok e6 st) as (G6 & M6 & S6) by auto.
  clearbody e6. destruct (syncKernel e6 st) as [e7 err7] eqn:Ek. apply syncKernel_ok in Ek as (G7 & M7 & S7); [|done..].
  destruct err7 as [err7|]; [eexists _, _; split; [reflexivity|]; split; [done|]; split; [congruence|done]|].
  destruct (publishStatus_ok e7 st t G7 S7) as (G8 & C8 & M8). eexists _, _. split; [reflexivity|]. split; [done|]. split; [congruence|done].
Qed.

(** An engine between events: nothing was stepped since the last snapshot. *)
Definition resting (e : Engine) : Prop := engine_ok c g0 N e /\ engine_stepped g0 e = false.

Lemma handled_ok e res now :
  resting e -> (forall x, In (ActionStep x) (r_Actions res) -> unserved (e_sys e)) ->
  words_post (r_Actions res) ->
  exists e' err, handle e res now = Some (e', err) /\ engine_ok c g0 N e' /\ (err = None -> resting e').
Proof.
  intros [Hg Hc] Hu Hw. destruct (handle_ok e res now Hg Hc Hu Hw) as (e' & err & E & G & _ & C). exists e', err. split; [done|].
  split; [done|]. intros H. split; auto.
Qed.

Lemma processed e t now e' : processing e t = (now, e') -> resting e -> resting e'.
Proof. intros E [Hg Hc]. destruct (processing_same _ _ _ _ E Hg) as (G & _ & T & _). split; [done|]. by rewrite T. Qed.

Lemma crossed_ok e now : resting e -> exists e', crossLeap e now = Some e' /\ resting e'.
Proof. intros [Hg Hc]. destruct (crossLeap_ok e now Hg) as (e' & E & G & _ & T & _). exists e'. split; [done|]. split; [done|]. by rewrite T. Qed.

(** The discipline's answer to an operation that changed nothing else. *)
Lemma sys_op_ok e op e1 :
  resting e -> op_ok op -> (forall sys, e_meas (e1 sys) = e_meas e /\ e_gen (e1 sys) = e_gen e /\ e_leap (e1 sys) = e_leap e /\ e_sys (e1 sys) = sys) ->
  (forall sys, (N -> words_ok (e_trace (e1 sys))) /\ trace_ok g0 (e_trace (e1 sys)) /\ world_of g0 (e_trace (e1 sys)) = world_of g0 (e_trace e)) ->
  exists sys res, sys_exec (e_sys e) op = Some (sys, res) /\ resting (e1 sys) /\ (forall x, In (ActionStep x) (r_Actions res) -> unserved (e_sys (e1 sys))) /\ words_post (r_Actions res).
Proof.
  intros [Hg Hc] Hop Hf Ht. destruct (go_sys _ _ _ _ _ _ _ _ Hg) as [k Hk].
  destruct (sys_exec_inv c k (e_sys e) op Hk Hop) as (sys & res & E & Hi & [_ Hwords] & Hstep). exists sys, res. split; [done|].
  destruct (Hf sys) as (F1 & F2 & F3 & F4), (Ht sys) as (T0 & T1 & T2). unfold resting. rewrite F1, F2, F3, F4, T2. split; [|split; [|exact Hwords]].
  - split; [|done]. destruct Hg. constructor; try done; [by eexists|by rewrite T2].
  - intros x Hx. destruct (Hstep x Hx) as (S1 & S2 & _). by right.
Qed.

Lemma feed_ok e m :
  resting e -> op_ok (OpMeasure m) -> (m_Generation m = 0 \/ m_Generation m = e_gen e) ->
  exists e' res, feed e m = Some (e', res) /\ resting e' /\ (forall x, In (ActionStep x) (r_Actions res) -> unserved (e_sys e')) /\ words_post (r_Actions res).
Proof.
  intros Hr Hm Hgen. destruct (sys_op_ok e (OpMeasure m) (fun sys => (did e (EffUpdate m)) <| e_sys := sys |>)) as (sys & res & E & R & U);
    [done|done|by intros sys| |].
  - intros sys. destruct Hr as [Hg Hc]. split; [apply Hg|]. split; [|done]. split; [|apply Hg]. split; [by eapply even_now|]. split; [done|].
    by rewrite (go_epoch _ _ _ _ _ _ _ _ Hg).
  - cbn [sys_exec] in E. unfold feed. rewrite E. cbn [mbind option_bind]. eauto.
Qed.

Lemma stale_ok e m :
  resting e -> exists e' d, stale e m = Some (e', d) /\ resting e' /\ (d = false -> m_Generation m = 0 \/ m_Generation m = e_gen e').
Proof.
  intros Hr. unfold stale, clk_mono. destruct (processing (called e) _) as [now e1] eqn:Ep. apply processed in Ep; [|exact Hr].
  destruct (crossed_ok e1 now Ep) as (e2 & -> & R2). cbn [mbind option_bind].
  destruct (_ && _); [eexists _, _; split; [reflexivity|]; split; [exact R2|done]|].
  destruct (m_Generation m =? 0) eqn:E0; [bool_step; eexists _, _; split; [reflexivity|]; auto|].
  destruct (_ && _) eqn:E1; eexists _, _; (split; [reflexivity|]); (split; [exact R2|]); [|done]. repeat bool_step. auto.
Qed.

Lemma dropQueued_resting e name arrivals :
  resting e -> Forall (Forall (fun m => op_ok (OpMeasure m))) arrivals -> resting (dropQueued e name arrivals).
Proof.
  intros Hr Ha. assert (resting ((dropQueued e name arrivals) <| e_meas := [] |>) /\ Forall (fun m => op_ok (OpMeasure m)) (e_meas (dropQueued e name arrivals))) as [H1 H2].
  { apply (dropQueued_ind (fun x => resting (x <| e_meas := [] |>)) (fun m => op_ok (OpMeasure m)) name); try done.
    - destruct Hr as [[] Hc]. split; [|done]. by constructor.
    - destruct Hr as [[] _]. eapply List.Forall_impl; [|exact go_meas0]. intros m Hm. by right. }
  destruct H1 as [[] Hc]. split; [|exact Hc]. by constructor.
Qed.

Lemma publish_resting e now : resting e -> exists e', engine_publish e now = Some e' /\ resting e'.
Proof.
  intros Hr. unfold engine_publish. destruct (processing e now) as [t e1] eqn:Ep. apply processed in Ep as [G1 C1]; [|exact Hr].
  destruct (gated_status_ok e1 t G1) as (st & e2 & -> & G2 & M2 & S2); [congruence|]. cbn [mbind option_bind].
  destruct (publishStatus_ok e2 st t G2 S2) as (G3 & C3 & _). eexists. split; [reflexivity|]. by split.
Qed.

Definition event_ok (ev : event) : Prop :=
  match ev with
  | EvSend m => op_ok (OpMeasure m)
  | EvStopped _ _ arrivals => Forall (Forall (fun m => op_ok (OpMeasure m))) arrivals
  | _ => True
  end.

(** What an event leaves: its effects permitted, and the engine at rest unless
    the run ends. *)
Definition event_post (r : option (Engine * option EngineError)) : Prop :=
  exists e' err, r = Some (e', err) /\ engine_ok c g0 N e' /\ (err = None -> resting e').

Lemma measure_ok e : resting e -> event_post (engine_event e EvMeasure).
Proof.
  intros Hr. unfold engine_event. destruct (e_meas e) as [|m rest] eqn:Em.
  { eexists _, _. split; [reflexivity|]. split; [apply Hr|done]. }
  assert (op_ok (OpMeasure m) /\ resting (e <| e_meas := rest |>)) as [Hm Hr1].
  { destruct Hr as [[] Hc]. rewrite Em in go_meas0. apply Forall_cons_1 in go_meas0 as [Hm Hrest]. split; [done|]. split; [|done]. by constructor. }
  destruct (stale_ok _ m Hr1) as (e1 & d & -> & R1 & Hgen). cbn [mbind option_bind].
  destruct d; [eexists _, _; split; [reflexivity|]; split; [apply R1|done]|]. specialize (Hgen eq_refl). unfold clk_mono.
  destruct (processing (called e1) _) as [now e2] eqn:Ep.
  assert (e_gen e2 = e_gen e1) as Hg2 by (unfold processing in Ep; repeat case_in Ep; apply pair_equal_spec in Ep as [_ <-]; done).
  apply processed in Ep; [|exact R1].
  assert (resting (noteSourceAlive e2 (m_Source m)) /\ e_gen (noteSourceAlive e2 (m_Source m)) = e_gen e1) as [R3 G3]
    by (unfold noteSourceAlive; by case_goal).
  destruct (feed_ok _ (m <| m_Now := now |>) R3) as (e4 & res & -> & R4 & U4 & W4); [exact Hm|by rewrite G3|]. cbn [mbind option_bind].
  by apply handled_ok.
Qed.

Lemma maybeWriteDrift_ok e now final : engine_ok c g0 N e -> engine_ok c g0 N (maybeWriteDrift e now final).
Proof.
  intros Hg. unfold maybeWriteDrift. cbv zeta. destruct (drift_candidate _ _ _ _ _ _ _ _ _); [|done].
  change (engine_ok c g0 N (did e (EffOffer f))). apply did_ok; [done|done|]. by eapply even_now.
Qed.

Lemma maybeWriteDrift_resting e now final : resting e -> resting (maybeWriteDrift e now final).
Proof.
  intros [Hg Hc]. split; [by apply maybeWriteDrift_ok|]. unfold maybeWriteDrift. cbv zeta. by destruct (drift_candidate _ _ _ _ _ _ _ _ _).
Qed.

Lemma tick_ok e : resting e -> event_post (engine_event e EvTick).
Proof.
  intros Hr. unfold engine_event, clk_mono. destruct (processing (called e) _) as [now e1] eqn:Ep. apply processed in Ep; [|exact Hr].
  destruct (crossed_ok e1 now Ep) as (e2 & -> & R2). cbn [mbind option_bind].
  destruct (sys_op_ok e2 (OpSysTick now) (fun sys => e2 <| e_sys := sys |>)) as (sys & res & E & R3 & U3 & W3);
    [done|done|done|intros sys; split; [apply R2|split; [apply R2|done]]|].
  cbn [sys_exec] in E. rewrite E. cbn [mbind option_bind].
  destruct (handled_ok _ res now R3 U3 W3) as (e4 & err & -> & G4 & R4). cbn [mbind option_bind]. eexists _, _. split; [reflexivity|].
  destruct err; [done|]. split; [by apply maybeWriteDrift_ok|]. intros _. by apply maybeWriteDrift_resting, R4.
Qed.

Lemma sourceStopped_ok e name err arrivals :
  resting e -> Forall (Forall (fun m => op_ok (OpMeasure m))) arrivals -> event_post (sourceStopped e name err arrivals).
Proof.
  intros Hr Ha. unfold sourceStopped. destruct (negb _); [eexists _, _; split; [reflexivity|]; split; [apply Hr|done]|].
  set (e1 := dropQueued _ name arrivals). assert (resting e1) as R1 by (apply dropQueued_resting; [exact Hr|done]). clearbody e1. cbv zeta.
  unfold clk_mono. destruct (processing (called e1) _) as [now e2] eqn:Ep. apply processed in Ep; [|exact R1].
  set (m := mkMeasurement _ _ _ _ _ _ _ _ _ _ _ _ _ _ _ _ _ _ _ _ _ _ _ _).
  destruct (feed_ok (called e2) m Ep) as (e3 & res & -> & R3 & U3 & W3); [done|by right|]. cbn [mbind option_bind]. by apply handled_ok.
Qed.

Lemma checkLeap_armed lc p st wall r : armed_ok p -> armed_ok (checkLeap lc p st wall r).1.
Proof.
  unfold checkLeap. destruct (applyLeap lc p st wall) as [p' st'] eqn:Ea. apply applyLeap_gated in Ea. intros H. apply Ea in H.
  repeat case_goal; exact H.
Qed.

Lemma leapRequest_ok e r activate cancelled :
  resting e -> event_post ('(e, _, err) ← leapRequest e r activate cancelled; Some (e, err)).
Proof.
  intros Hr. unfold leapRequest. destruct cancelled; [cbn [mbind option_bind]; eexists _, _; split; [reflexivity|]; split; [apply Hr|done]|].
  unfold clk_mono, clk_now. destruct (processing (called e) _) as [now e1] eqn:Ep. apply processed in Ep; [|exact Hr].
  destruct (crossed_ok e1 now Ep) as (e2 & -> & R2). cbn [mbind option_bind].
  destruct (processing (called (called e2)) _) as [now2 e3] eqn:Ep2. apply processed in Ep2 as [G3 C3]; [|exact R2].
  destruct (go_sys _ _ _ _ _ _ _ _ G3) as [k Hk]. destruct (SystemStatus_spec c k (e_sys e3) now2 Hk) as (st & -> & _). cbn [mbind option_bind].
  match goal with |- context [checkLeap ?a ?b ?d ?x ?y] => pose proof (checkLeap_armed a b d x y (go_armed _ _ _ _ _ _ _ _ G3)) as Hp; destruct (checkLeap a b d x y) as [p err] end.
  cbn [fst] in Hp.
  assert (forall q, armed_ok q -> resting (e3 <| e_leap := q |>)) as Hq by (intros q Hq; split; [|done]; destruct G3; by constructor).
  destruct err as [err|]; [eexists _, _; split; [reflexivity|]; split; [apply Hq; exact Hp|by intros _; apply Hq]|].
  destruct activate; cbn [negb].
  - destruct (negb _); [eexists _, _; split; [reflexivity|]; split; [apply Hq; exact Hp|by intros _; apply Hq]|].
    set (q := p <| lp_active := _ |> <| lp_anchor := _ |> <| lp_approved := _ |>).
    assert (resting (e3 <| e_leap := p |> <| e_leap := q |>)) as R4 by (apply (Hq q); destruct p; exact Hp). cbv zeta.
    destruct (processing (called (e3 <| e_leap := p |> <| e_leap := q |>)) _) as [now3 e5] eqn:Ep3. apply processed in Ep3; [|exact R4].
    destruct (handled_ok e5 (mkResult [] []) now3 Ep3) as (e6 & err6 & -> & G6 & R6); [done|by intros ? []|]. cbn [mbind option_bind]. eexists _, _. auto.
  - cbn [mbind option_bind]. set (q := p <| lp_approved := _ |>). assert (armed_ok q) as Hqq by (destruct p; exact Hp).
    eexists _, _. split; [reflexivity|]. split; [apply (Hq q Hqq)|intros _; apply (Hq q Hqq)].
Qed.

Lemma event_preserves e ev : resting e -> event_ok ev -> event_post (engine_event e ev).
Proof.
  intros Hr Hev. destruct ev as [m| | |name err arrivals|name|r activate cancelled]; [|by apply measure_ok|by apply tick_ok|by apply sourceStopped_ok| |by apply leapRequest_ok].
  - unfold engine_event. eexists _, _. split; [reflexivity|]. assert (resting (if (length (e_meas e) <? measQueue)%nat then e <| e_meas := e_meas e ++ [m] |> else e)) as Hr1.
    { case_goal; [|done]. destruct Hr as [[] Hc]. split; [|done]. constructor; try done. apply Forall_app. auto. }
    split; [apply Hr1|done].
  - cbn [engine_event]. unfold sourceRestarting, clk_mono. cbn beta iota zeta.
    destruct (publish_resting (called (e <| e_restarting := e_restarting e ∪ {[name]} |>)) (k_mono (e_calls (e <| e_restarting := e_restarting e ∪ {[name]} |>)))) as (e' & -> & R'); [exact Hr|].
    cbn [mbind option_bind]. eexists _, _. split; [reflexivity|]. split; [apply R'|done].
Qed.

Lemma loop_preserves evs : forall e, resting e -> Forall event_ok evs -> exists e' err, engine_loop e evs = Some (e', err) /\ engine_ok c g0 N e'.
Proof.
  induction evs as [|ev evs IH]; intros e Hr Hev; cbn [engine_loop]; [eexists _, _; split; [reflexivity|apply Hr]|].
  apply Forall_cons_1 in Hev as [H1 H2]. destruct (event_preserves e ev Hr H1) as (e1 & err & -> & G1 & R1). cbn [mbind option_bind].
  destruct err; [eauto|]. apply IH; auto.
Qed.

Lemma setFrequency_ok e ppm : engine_ok c g0 N e -> (N -> in_range ppm) -> engine_ok c g0 N (setFrequency e ppm).1.
Proof.
  intros Hg Hw. unfold setFrequency. assert (engine_ok c g0 N (did (called e) (EffFrequency ppm (k_takes (e_calls e))))) as Hd.
  { apply did_ok; [exact Hg| |by eapply even_now]. split; [done|]. by intros ? ? [= <- _]. }
  by destruct (k_takes (e_calls e)).
Qed.

Definition is_frequency_of (ppm : f64) (f : effect) : Prop := match f with EffFrequency x _ => x = ppm | _ => False end.
Definition not_frequency (f : effect) : Prop := match f with EffFrequency _ _ => False | _ => True end.

(** All the frequencies of a run: in range, but for a base estimate that is not
    a number and is written on the way out. *)
Definition words_final (tr : list effect) : Prop :=
  words_ok tr \/
  exists post f pre base, tr = post ++ f :: pre /\ is_frequency_of base f /\ is_nan base = true /\
    Forall not_frequency post /\ words_ok pre.

Lemma words_ok_at post f pre : words_ok (post ++ f :: pre) -> words_ok (f :: pre).
Proof. induction post as [|x post IH]; [done|]. cbn [app]. destruct x; cbn; tauto. Qed.

Lemma words_final_at post ppm ok pre :
  words_final (post ++ EffFrequency ppm ok :: pre) ->
  in_range ppm \/ is_nan ppm = true /\ Forall not_frequency post.
Proof.
  intros [H|(post' & f & pre' & base & E & Hf & Hn & Hp & Hw)].
  - left. apply words_ok_at in H. apply H.
  - revert post E. induction Hp as [|x post' Hx _ IH]; intros post E.
    + destruct post as [|y post]; injection E as E1 E2.
      * right. rewrite <- E1 in Hf. cbn in Hf. subst. by split.
      * left. rewrite <- E2 in Hw. apply words_ok_at in Hw. apply Hw.
    + destruct post as [|y post]; injection E as E1 E2; [subst x; done|].
      destruct (IH post E2) as [?|[? ?]]; [by left|]. right. split; [done|]. constructor; [|done]. by subst y.
Qed.

Lemma engine_write_drift e now (M : Prop) :
  engine_ok c g0 M e -> trace_ok g0 (e_trace (maybeWriteDrift e now true)) /\ (M -> words_ok (e_trace (maybeWriteDrift e now true))).
Proof.
  intros Hg. unfold maybeWriteDrift. cbv zeta. destruct (drift_candidate _ _ _ _ _ _ _ _ _) as [ppm|]; [|split; apply Hg].
  destruct Hg as [_ _ H3 H4 H5 _ H7]. split; [|exact H7]. split; [|exact H5].
  cbn. change (Z.even (w_epoch (world_of g0 (e_trace e))) = true). by rewrite H3.
Qed.

Lemma shutdown_ok e err : engine_ok c g0 N e -> trace_ok g0 (e_trace (shutdown e err)) /\ (N -> words_final (e_trace (shutdown e err))).
Proof.
  intros Hg. unfold shutdown. set (e1 := restoreBaseFrequency e err).
  assert (exists M, engine_ok c g0 M e1 /\ (N -> (words_ok (e_trace e1) /\ M) \/ (exists f base, e_trace e1 = f :: e_trace e /\ is_frequency_of base f /\ is_nan base = true)))
    as (M & G1 & W1).
  { destruct (go_sys _ _ _ _ _ _ _ _ Hg) as [k Hk]. pose proof (li_freq _ _ (si_loop _ _ _ Hk)) as Hf.
    set (base := Freq (loop (e_sys e))) in *. destruct (is_nan base) eqn:En.
    - assert (forall (M : Prop), (M -> False) -> engine_ok c g0 M e) as Hf0 by (intros M HM; destruct Hg; constructor; try done).
      unfold e1, restoreBaseFrequency. destruct (e_applied e) as [a|]; [|exists N; split; [exact Hg|intros HN; left; split; [by apply Hg|done]]].
      fold base. destruct (feq a base); [exists N; split; [exact Hg|intros HN; left; split; [by apply Hg|done]]|].
      assert (engine_ok c g0 False (setFrequency e base).1) as Gn.
      { unfold setFrequency. assert (engine_ok c g0 False (did (called e) (EffFrequency base (k_takes (e_calls e))))) as Hd; [|by destruct (k_takes (e_calls e))].
        pose proof (Hf0 False id) as G0. destruct G0 as [H1 H2 H3 H4 H5 H6 H7]. constructor; try done. split; [|done].
        cbn. change (Z.even (w_epoch (world_of g0 (e_trace e))) = true). by rewrite H3. }
      assert (exists f, e_trace (setFrequency e base).1 = f :: e_trace e /\ is_frequency_of base f) as (f & Tf & Ff)
        by (unfold setFrequency; destruct (k_takes (e_calls e)); eexists; split; reflexivity).
      destruct err as [[]|]; try (exists False; split; [exact Gn|intros _; right; exists f, base; done]).
      exists N. split; [exact Hg|]. intros HN. left. split; [by apply Hg|done].
    - exists N. assert (engine_ok c g0 N e1) as G1.
      { unfold e1, restoreBaseFrequency. pose proof (setFrequency_ok e base Hg (fun _ => word_in_range _ Hf En)). repeat case_goal; done. }
      split; [exact G1|]. intros HN. left. split; [by apply G1|done]. }
  clearbody e1. unfold clk_mono. cbn beta iota zeta. destruct (processing (called e1) _) as [now e2] eqn:Ep.
  assert (e_trace e2 = e_trace e1) as T2 by (unfold processing in Ep; repeat case_in Ep; apply pair_equal_spec in Ep as [_ <-]; done).
  assert (exists post, e_trace (maybeWriteDrift e2 now true) = post ++ e_trace e1 /\ Forall not_frequency post) as (post & T3 & Hp).
  { rewrite <- T2. unfold maybeWriteDrift. cbv zeta. destruct (drift_candidate _ _ _ _ _ _ _ _ _) as [ppm|]; [|by exists []].
    exists [EffOffer ppm]. split; [done|]. by constructor. }
  destruct (engine_write_drift e2 now M) as [Ht Hwd].
  { revert G1. generalize M. intros M0 G1. unfold processing in Ep. repeat case_in Ep; apply pair_equal_spec in Ep as [_ <-]; exact G1. }
  split; [exact Ht|]. intros HN. destruct (W1 HN) as [[_ HM]|(f & base & Tf & Ff & Hn)]; [left; by apply Hwd|right].
  exists post, f, (e_trace e), base. split; [by rewrite T3, Tf|]. split; [done|]. split; [done|]. split; [done|]. by apply Hg.
Qed.

Lemma run_preserves e evs :
  resting e -> Forall event_ok evs -> (N -> is_nan (Freq (loop (e_sys e))) = false) ->
  exists e' err, engine_run e evs = Some (e', err) /\ trace_ok g0 (e_trace e') /\ (N -> words_final (e_trace e')).
Proof.
  intros Hr Hev Hn. unfold engine_run.
  assert (engine_ok c g0 N (setFrequency e (Freq (loop (e_sys e)))).1) as G1.
  { apply setFrequency_ok; [apply Hr|]. intros HN. destruct Hr as [Hg _]. destruct (go_sys _ _ _ _ _ _ _ _ Hg) as [k Hk].
    apply word_in_range; [exact (li_freq _ _ (si_loop _ _ _ Hk))|by apply Hn]. }
  assert (engine_stepped g0 (setFrequency e (Freq (loop (e_sys e)))).1 = false) as C1 by (unfold setFrequency; destruct (k_takes (e_calls e)); apply Hr).
  destruct (setFrequency e (Freq (loop (e_sys e)))) as [e1 ok]. cbn [fst] in G1, C1.
  assert (forall (e2 : Engine) (err2 : EngineError), engine_ok c g0 N e2 ->
    exists (e' : Engine) (err : option EngineError), Some (e2, Some err2) = Some (e', err) /\ trace_ok g0 (e_trace e') /\ (N -> words_final (e_trace e'))) as Hstop.
  { intros e2 err2 G2. eexists _, _. split; [reflexivity|]. split; [apply G2|]. intros HN. left. by apply G2. }
  destruct ok; [|by apply Hstop].
  unfold setKernel. set (f := EffStatus _ _).
  assert (resting (did (called e1) f)) as [G2 C2].
  { split; [|exact C1]. apply did_ok; [exact G1|done|]. split; [by eapply even_now|reflexivity]. }
  destruct (k_takes (e_calls e1)); [|by apply Hstop]. set (e2 := _ <| e_lastKernel := _ |>).
  destruct (loop_preserves evs e2) as (e3 & err & -> & G3); [by split|done|]. cbn [mbind option_bind].
  eexists _, _. split; [reflexivity|]. by apply shutdown_ok.
Qed.

End Trace.

(** ** The engine [New] builds *)

Definition start_epoch (gen : Z) : Z := if gen =? 0 then FirstEpoch else gen.

Lemma AddSources_inv c srcs : forall s, sys_inv c 0 s -> sys_inv c 0 (fold_left (fun sys p => AddSource sys p.1 p.2) srcs s).
Proof. induction srcs as [|p srcs IH]; intros s Hs; [done|]. cbn [fold_left]. by apply IH, AddSource_inv. Qed.

Lemma AddSources_loop srcs : forall s, loop (fold_left (fun sys p => AddSource sys p.1 p.2) srcs s) = loop s.
Proof.
  induction srcs as [|p srcs IH]; intros s; [done|]. cbn [fold_left]. rewrite IH. unfold AddSource. by destruct (sources s !! p.1).
Qed.

Lemma engine_publish_sys {K : Kernel} e now e' : engine_publish e now = Some e' -> e_sys e' = e_sys e.
Proof.
  unfold engine_publish. destruct (processing e now) as [t e1] eqn:Ep.
  assert (e_sys e1 = e_sys e) as <- by (revert Ep; unfold processing; repeat case_goal; by intros [= <- <-]).
  unfold gated_status, clk_now. destruct (SystemStatus (e_sys e1) t); [|done]. cbn [mbind option_bind].
  destruct (applyLeap _ _ _ _). by intros [= <-].
Qed.

Lemma clampFreq_number f : is_nan f = false -> is_nan (clampFreq f) = false.
Proof. intros Hf. destruct (fclamp_bounds (fopp MaxFrequency) MaxFrequency f) as [_ H]; [reflexivity|done|]. by apply fle_not_nan in H as [? _]. Qed.

Lemma newEngine_resting {K : Kernel} ec d freq known srcs ls gen :
  NoDup (srcs.*1) -> Z.even gen = true -> exists e, newEngine ec d freq known srcs ls gen = Some e /\
    resting d (start_epoch gen) (is_nan freq = false) e /\ (is_nan freq = false -> is_nan (Freq (loop (e_sys e))) = false).
Proof.
  intros Hn Hg. unfold newEngine. rewrite bool_decide_eq_true_2 by done. cbn [negb].
  match goal with |- context [engine_publish ?x ?y] => set (e0 := x); set (t0 := y) end.
  destruct (publish_resting d (start_epoch gen) (is_nan freq = false) e0 t0) as (e & E & R).
  - split; [|done]. constructor; try done.
    + exists 0. apply AddSources_inv, New_inv.
    + cbn. by destruct (gen =? 0).
    + by left.
  - exists e. split; [done|]. split; [done|]. intros Hf. rewrite (engine_publish_sys _ _ _ E).
    unfold e0. cbn [e_sys]. rewrite AddSources_loop. by apply clampFreq_number.
Qed.

Lemma engine_run_good {K : Kernel} ec d freq known srcs ls gen evs :
  NoDup (srcs.*1) -> Z.even gen = true -> Forall event_ok evs ->
  exists e e' err, newEngine ec d freq known srcs ls gen = Some e /\ engine_run e evs = Some (e', err) /\ trace_ok (start_epoch gen) (e_trace e') /\
    (is_nan freq = false -> words_final (e_trace e')).
Proof.
  intros Hn Hg Hev. destruct (newEngine_resting ec d freq known srcs ls gen Hn Hg) as (e & He & Hr & Hf).
  destruct (run_preserves _ _ _ e evs Hr Hev Hf) as (e' & err & E & G). exists e, e', err. split; [done|]. by split.
Qed.

(** The epoch in force when the effects [pre] have happened. *)
Definition epoch_at (gen : Z) (pre : list effect) : Z := w_epoch (world_of (start_epoch gen) pre).

(** Claim C3: the engine keeps the epoch protocol, and never panics.  For any
    clock, any registered sources and any sequence of measurements, ticks,
    source failures, restarts and leap requests, the run completes; the epoch
    counter only ever moves to its successor, it is odd exactly around each
    discontinuity (every clock step happens in an odd epoch), and in an even
    epoch at every snapshot, kernel write and measurement; and a stamped
    measurement the discipline is given was begun in the very epoch in force,
    so nothing begun before or during a step or leap reset is ever used after
    it. *)
Theorem engine_epochs {K : Kernel} ec d freq known srcs ls gen evs :
  NoDup (srcs.*1) -> Z.even gen = true -> Forall event_ok evs ->
  exists e e' err, newEngine ec d freq known srcs ls gen = Some e /\ engine_run e evs = Some (e', err) /\
  forall post f pre, e_trace e' = post ++ f :: pre ->
    let g := epoch_at gen pre in
    match f with
    | EffEpoch g' => g' = u64 (g + 1)
    | EffStep _ _ => Z.odd g = true
    | EffUpdate m => Z.even g = true /\ (m_Generation m = 0 \/ m_Generation m = g)
    | EffReset => True
    | _ => Z.even g = true
    end.
Proof.
  intros Hn Hg Hev. destruct (engine_run_good ec d freq known srcs ls gen evs Hn Hg Hev) as (e & e' & err & H1 & H2 & Ht & _).
  exists e, e', err. split; [done|]. split; [done|]. intros post f pre E. rewrite E in Ht. apply trace_ok_at in Ht as [Ht _].
  unfold epoch_at. destruct f; cbn [effect_ok] in Ht; tauto.
Qed.

Definition is_publish (f : effect) : bool := match f with EffPublish _ => true | _ => false end.

Lemma stepped_after g0 d ok pre mid :
  Forall (fun f => is_publish f = false) mid -> w_stepped (world_of g0 (mid ++ EffStep d ok :: pre)) = true.
Proof. induction 1 as [|f mid Hf _ IH]; [done|]. cbn [app world_of fold_right]. unfold world_of in IH. by destruct f. Qed.

(** Claim C4: a step is never served.  Once the kernel has been told to step,
    whether or not it did, the next snapshot is not synchronized, the kernel is
    not told it is synchronized before that snapshot, and the discipline is
    given nothing before it. *)
Theorem engine_step_unserved {K : Kernel} ec d freq known srcs ls gen evs :
  NoDup (srcs.*1) -> Z.even gen = true -> Forall event_ok evs ->
  exists e e' err, newEngine ec d freq known srcs ls gen = Some e /\ engine_run e evs = Some (e', err) /\
  forall post f mid delta ok pre, e_trace e' = post ++ f :: mid ++ EffStep delta ok :: pre -> Forall (fun f => is_publish f = false) mid ->
    match f with
    | EffPublish s => serving s = false
    | EffStatus ks _ => ks_Synced ks = false
    | EffUpdate _ => False
    | _ => True
    end.
Proof.
  intros Hn Hg Hev. destruct (engine_run_good ec d freq known srcs ls gen evs Hn Hg Hev) as (e & e' & err & H1 & H2 & Ht & _).
  exists e, e', err. split; [done|]. split; [done|]. intros post f mid delta ok pre E Hm. rewrite E in Ht. apply trace_ok_at in Ht as [Ht _].
  apply (stepped_after (start_epoch gen) delta ok pre) in Hm. destruct f as [| |ks| | |s| |m]; try done; cbn [effect_ok] in Ht.
  - destruct Ht as [_ Ht]. unfold kstatus_ok in Ht. destruct (ks_Synced ks); [|done]. destruct Ht as [Ht _]. congruence.
  - destruct Ht as (_ & Ht & _). destruct (serving s); [|done]. destruct Ht as [Ht _]. congruence.
  - destruct Ht as (_ & Ht & _). congruence.
Qed.

(** Claim C5: what the world is told.  Every snapshot that is not synchronized
    says leap 3; one that is, where a leap table is required, has the leap
    authority ready and UTC established; a leap table offered for distribution
    has not expired at the greatest established UTC.  Every status the kernel is
    given is either exactly the unsynchronized one, or has a known leap and error
    bounds between 0 and 16 s. *)
Theorem engine_tells_truth {K : Kernel} ec d freq known srcs ls gen evs :
  NoDup (srcs.*1) -> Z.even gen = true -> Forall event_ok evs ->
  exists e e' err, newEngine ec d freq known srcs ls gen = Some e /\ engine_run e evs = Some (e', err) /\
  (forall s, In (EffPublish s) (e_trace e') ->
     (serving s = false -> st_Leap (es_sys s) = LeapUnsync) /\
     (serving s = true -> es_LeapRequired s = true -> es_LeapReady s = true /\ es_TimeKnown s = true) /\
     (forall o, es_LeapObject s = Some o -> es_TimeKnown s = true /\ es_UTCbound s < Expiry (ob_table o))) /\
  (forall ks ok, In (EffStatus ks ok) (e_trace e') ->
     ks = mkKStatus false LeapUnsync maxKernelError maxKernelError \/
     ks_Synced ks = true /\ ks_Leap ks <> LeapUnsync /\ 0 <= ks_MaxError ks <= maxKernelError /\ 0 <= ks_EstError ks <= maxKernelError).
Proof.
  intros Hn Hg Hev. destruct (engine_run_good ec d freq known srcs ls gen evs Hn Hg Hev) as (e & e' & err & H1 & H2 & Ht & _).
  exists e, e', err. split; [done|]. split; [done|]. split.
  - intros s Hs. apply in_split in Hs as (post & pre & E). rewrite E in Ht. apply trace_ok_at in Ht as [(_ & Hs & Ho) _].
    split; [|split]; [|intros Hv Hr|done].
    + intros Hv. by rewrite Hv in Hs.
    + rewrite Hv in Hs. by apply Hs.
  - intros ks ok Hk. apply in_split in Hk as (post & pre & E). rewrite E in Ht. apply trace_ok_at in Ht as [(_ & Hk) _].
    unfold kstatus_ok in Hk. destruct (ks_Synced ks) eqn:Es; [right; by split; [|apply Hk]|by left].
Qed.

(** Claim C22: the frequencies the kernel is given.  In a run that starts from a
    frequency that is a number, with any clock and any events, every frequency
    the engine writes (at start-up, for the discipline, and on the way out) is
    within the 500 ppm the kernel takes, with one reservation: the last write of
    the run, which restores the base estimate at shutdown, is made without the
    check for a number, so it is in that range or a NaN.  A NaN the discipline
    asks for while the run lasts is refused before the kernel is called, and
    ends the run. *)
Theorem engine_frequency_bounded {K : Kernel} ec d freq known srcs ls gen evs :
  NoDup (srcs.*1) -> Z.even gen = true -> Forall event_ok evs -> is_nan freq = false ->
  exists e e' err, newEngine ec d freq known srcs ls gen = Some e /\ engine_run e evs = Some (e', err) /\
  (forall post ppm ok pre, e_trace e' = post ++ EffFrequency ppm ok :: pre ->
     fle (fopp MaxFrequency) ppm = true /\ fle ppm MaxFrequency = true \/
     is_nan ppm = true /\ Forall not_frequency post) /\
  (forall e0 ppm, is_nan ppm = true -> apply_action e0 (ActionSetFrequency ppm) = (e0, Some ErrFrequencyRefused)).
Proof.
  intros Hn Hg Hev Hf. destruct (engine_run_good ec d freq known srcs ls gen evs Hn Hg Hev) as (e & e' & err & H1 & H2 & _ & Hw).
  exists e, e', err. split; [done|]. split; [done|]. split.
  - intros post ppm ok pre E. specialize (Hw Hf). rewrite E in Hw. by eapply words_final_at.
  - intros e0 ppm Hp. cbn [apply_action]. unfold CheckFrequency. by rewrite Hp.
Qed.

(** The shutdown writes the base estimate without [CheckFrequency]: were it a
    NaN, the kernel would be given one. *)
Theorem base_restored_unchecked {K : Kernel} e a :
  e_applied e = Some a -> is_nan (Freq (loop (e_sys e))) = true ->
  exists ok, e_trace (restoreBaseFrequency e None) = EffFrequency (Freq (loop (e_sys e))) ok :: e_trace e.
Proof.
  intros Ha Hn. unfold restoreBaseFrequency. rewrite Ha. assert (feq a (Freq (loop (e_sys e))) = false) as -> by (destruct (Freq (loop (e_sys e))), a; done).
  unfold setFrequency. destruct (k_takes (e_calls e)); eexists; reflexivity.
Qed.

(** ** Example: a server 5 s ahead is stepped to, a measurement begun before
    the step is dropped, the clock settles, the source stops *)

Definition example_kernel : Kernel := {|
  k_now := fun n => unixTime (1767225600 + Z.of_nat n) 0; k_mono := fun n => of_Z (Z.of_nat n); k_takes := fun _ => true;
  k_precision := -20; k_info := fun _ _ => initialInfo 6 |}.

Definition example_engine_config : EngineConfig := mkEngineConfig "drift"%string 0 0 fzero (mkLeapConfig None false).
Definition example_no_leaps : LeapState := mkLeapState None None zeroTime zeroTime zeroTime.
Definition example_specs : list (string * Options) := [("a"%string, mkOptions false false true false false)].

Definition stamped (at_ g : Z) (offset : f64) : Measurement := (System.example_measurement at_ offset) <| m_Generation := g |>.

Definition example_events : list event :=
  [EvSend (stamped 3 2 (of_Z 5)); EvSend (stamped 4 2 (of_Z 5)); EvMeasure; EvMeasure; EvTick;
   EvSend (stamped 30 4 (lit 1 1000)); EvMeasure; EvTick; EvSend (stamped 60 4 (lit 1 1000)); EvMeasure; EvTick;
   EvStopped "a"%string None []; EvRestarting "a"%string].

Lemma example_events_ok : Forall event_ok example_events.
Proof. repeat constructor; intros _; split; vm_compute; reflexivity. Qed.

(** The measurements the discipline was given, and the states published. *)
Definition fed (tr : list effect) : list Z := omap (fun f => match f with EffUpdate m => Some (m_Generation m) | _ => None end) (rev tr).
Definition published (tr : list effect) : list State := omap (fun f => match f with EffPublish s => Some (st_State (es_sys s)) | _ => None end) (rev tr).

Example example_engine_run :
  (e ← newEngine (K := example_kernel) example_engine_config System.example_cfg fzero false example_specs example_no_leaps 0;
   '(e, err) ← engine_run (K := example_kernel) e example_events;
   Some (fed (e_trace e), published (e_trace e), e_gen e, drops e "a"%string, err)) =
  Some ([2; 4; 4; 4], [StateUnsynced; StateSettling; StateUnsynced; StateSettling; StateSettling; StateSynced; StateSynced; StateHoldover; StateHoldover], 4, 1, None).
Proof. vm_compute. reflexivity. Qed.

Lemma engine_epochs_witness :
  exists e e' err, newEngine (K := example_kernel) example_engine_config System.example_cfg fzero false example_specs example_no_leaps 0 = Some e /\
    engine_run (K := example_kernel) e example_events = Some (e', err) /\
    forall post m pre, e_trace e' = post ++ EffUpdate m :: pre -> m_Generation m = 0 \/ m_Generation m = epoch_at 0 pre.
Proof.
  destruct (engine_epochs (K := example_kernel) example_engine_config System.example_cfg fzero false example_specs example_no_leaps 0 example_events)
    as (e & e' & err & H1 & H2 & H3); [apply NoDup_singleton|reflexivity|apply example_events_ok|].
  exists e, e', err. split; [exact H1|]. split; [exact H2|]. intros post m pre E. apply (H3 post (EffUpdate m) pre E).
Defined.

Lemma engine_step_unserved_witness :
  exists e e' err, newEngine (K := example_kernel) example_engine_config System.example_cfg fzero false example_specs example_no_leaps 0 = Some e /\
    engine_run (K := example_kernel) e example_events = Some (e', err) /\
    forall post s mid delta ok pre, e_trace e' = post ++ EffPublish s :: mid ++ EffStep delta ok :: pre ->
      Forall (fun f => is_publish f = false) mid -> serving s = false.
Proof.
  destruct (engine_step_unserved (K := example_kernel) example_engine_config System.example_cfg fzero false example_specs example_no_leaps 0 example_events)
    as (e & e' & err & H1 & H2 & H3); [apply NoDup_singleton|reflexivity|apply example_events_ok|].
  exists e, e', err. split; [exact H1|]. split; [exact H2|]. intros post s mid delta ok pre E. apply (H3 post (EffPublish s) mid delta ok pre E).
Defined.

Lemma engine_frequency_bounded_witness :
  exists e e' err, newEngine (K := example_kernel) example_engine_config System.example_cfg fzero false example_specs example_no_leaps 0 = Some e /\
    engine_run (K := example_kernel) e example_events = Some (e', err) /\
    forall post ppm ok pre, e_trace e' = post ++ EffFrequency ppm ok :: pre ->
      fle (fopp MaxFrequency) ppm = true /\ fle ppm MaxFrequency = true \/ is_nan ppm = true /\ Forall not_frequency post.
Proof.
  destruct (engine_frequency_bounded (K := example_kernel) example_engine_config System.example_cfg fzero false example_specs example_no_leaps 0 example_events)
    as (e & e' & err & H1 & H2 & H3 & _).
  - repeat constructor. intros H. apply elem_of_nil in H. exact H.
  - reflexivity.
  - exact example_events_ok.
  - reflexivity.
  - exists e, e', err. split; [exact H1|]. split; [exact H2|exact H3].
Defined.

Lemma engine_tells_truth_witness :
  exists e e' err, newEngine (K := example_kernel) example_engine_config System.example_cfg fzero false example_specs example_no_leaps 0 = Some e /\
    engine_run (K := example_kernel) e example_events = Some (e', err) /\
    forall s, In (EffPublish s) (e_trace e') -> serving s = false -> st_Leap (es_sys s) = LeapUnsync.
Proof.
  destruct (engine_tells_truth (K := example_kernel) example_engine_config System.example_cfg fzero false example_specs example_no_leaps 0 example_events)
    as (e & e' & err & H1 & H2 & H3 & _); [apply NoDup_singleton|reflexivity|apply example_events_ok|].
  exists e, e', err. split; [exact H1|]. split; [exact H2|]. intros s Hs. apply (H3 s Hs).
Defined.
