(* ===== verification/EngineClock.v ===== *)
(** * The engine as a step relation

    Every operation of [Engine.v] is a sequence of small steps: a change nobody
    sees, one effect, an advance of the processing clock, a frequency write, a
    snapshot.  [moves] is their closure; the processing clock, the frequency
    left in the kernel and the silence of a stopped source are invariants proved
    by induction on it. *)

From stdpp Require Import base list numbers strings gmap relations.
From Stdlib Require Import Lia ZArith Sorted.
From S2P Require Import Prelude Float64 GoTime GoDate NtpTime Measurement Select Loop System NtpSource Refclock LeapTable LeapStore Clock Drift EngineLeap Engine EngineTrace.

Local Open Scope Z_scope.

Section Moves.

Context {K : Kernel}.

(** What is known of the measurements the discipline is given. *)
Variable P : Measurement -> Prop.
Hypothesis P_now : forall m now, P m -> P (m <| m_Now := now |>).
Hypothesis P_invalid : forall m, m_Valid m = false -> P m.

Definition plain_effect (f : effect) : Prop :=
  match f with
  | EffFrequency _ _ | EffPublish _ => False
  | EffUpdate m => P m
  | _ => True
  end.

Inductive estep : Engine -> Engine -> Prop :=
| es_quiet e e' : e_trace e' = e_trace e -> e_applied e' = e_applied e -> e_procNow e' = e_procNow e -> estep e e'
| es_effect e e' f : e_trace e' = f :: e_trace e -> e_applied e' = e_applied e -> e_procNow e' = e_procNow e -> plain_effect f -> estep e e'
| es_advance e n : estep e (processing e (k_mono n)).2
| es_frequency e e' ppm ok : e_trace e' = EffFrequency ppm ok :: e_trace e -> e_applied e' = (if ok then Some ppm else e_applied e) ->
    e_procNow e' = e_procNow e -> estep e e'
| es_publish e e' s : e_trace e' = EffPublish s :: e_trace e -> e_applied e' = e_applied e -> e_procNow e' = e_procNow e ->
    e_procNow e = Some (es_PublishedMono s) -> estep e e'.

Abbreviation moves := (rtc estep).

(** Moves while an event is handled: the queue and the processing clock stay. *)
Record within (e e' : Engine) : Prop := {
  wi_moves : moves e e';
  wi_meas : e_meas e' = e_meas e;
  wi_now : e_procNow e' = e_procNow e
}.

#[local] Instance within_preorder : PreOrder within.
Proof.
  split; [intros e; split; [apply rtc_refl|done|done]|]. intros e1 e2 e3 [A1 A2 A3] [B1 B2 B3].
  split; [by etransitivity|congruence|congruence].
Qed.

Lemma within_quiet e e' :
  e_trace e' = e_trace e -> e_applied e' = e_applied e -> e_procNow e' = e_procNow e -> e_meas e' = e_meas e -> within e e'.
Proof. intros. split; [by apply rtc_once, es_quiet|done|done]. Qed.

Lemma within_effect e e' f :
  e_trace e' = f :: e_trace e -> e_applied e' = e_applied e -> e_procNow e' = e_procNow e -> e_meas e' = e_meas e -> plain_effect f -> within e e'.
Proof. intros. split; [by eapply rtc_once, es_effect|done|done]. Qed.

Lemma processing_now e t now e' : processing e t = (now, e') -> e_procNow e' = Some now /\ e_meas e' = e_meas e.
Proof. unfold processing. intros E. repeat case_in E; apply pair_equal_spec in E as [<- <-]; done. Qed.

Lemma processing_moves e n now e' : processing e (k_mono n) = (now, e') -> moves e e' /\ e_procNow e' = Some now /\ e_meas e' = e_meas e.
Proof.
  intros E. split; [|by eapply processing_now]. apply rtc_once. change e' with (now, e').2. rewrite <- E. apply es_advance.
Qed.

(** The processing clock is already at [now]. *)
Lemma processing_same_now e now : e_procNow e = Some now -> processing e now = (now, e).
Proof. unfold processing. intros ->. unfold fgt. by rewrite flt_irrefl. Qed.

Lemma did_within e f : plain_effect f -> within e (did e f).
Proof. by apply (within_effect e (did e f) f). Qed.

Lemma bump_within e : within e (bump_epoch e).
Proof. by apply (within_effect e (bump_epoch e) (EffEpoch (u64 (e_gen e + 1)))). Qed.

(** The reset of the sources at a leap. *)
Lemma reset_within e : within e (bump_epoch (did (bump_epoch e) EffReset)).
Proof.
  etransitivity; [apply bump_within|]. generalize (bump_epoch e). intros e1.
  etransitivity; [by apply (did_within e1 EffReset)|]. apply bump_within.
Qed.

Lemma leap_within e p : within e (called e <| e_leap := p |>).
Proof. by apply within_quiet. Qed.

Lemma sys_within e sys : within e (e <| e_sys := sys |>).
Proof. by apply within_quiet. Qed.

Lemma crossLeap_within e now e' : crossLeap e now = Some e' -> within e e'.
Proof.
  unfold crossLeap, clk_now. destruct (crossedAnnouncedLeapAt _ _ _) as [p crossed]. cbv zeta.
  match goal with |- context [set e_leap (fun _ => ?q) (called e)] => pose proof (leap_within e q) as H1; generalize dependent q end.
  intros q H1. change (called (e <| e_leap := q |>)) with ((called e) <| e_leap := q |>) in H1. generalize dependent ((called e) <| e_leap := q |>).
  intros e1 H1. destruct crossed; cbn [negb].
  - pose proof (reset_within e1) as H2. generalize dependent (bump_epoch (did (bump_epoch e1) EffReset)). intros e2 H2.
    destruct (Resync (e_sys e2) now) as [[sys res]|]; [|done]. cbn [mbind option_bind]. intros E. apply (inj Some) in E as <-.
    etransitivity; [exact H1|]. etransitivity; [exact H2|]. apply sys_within.
  - intros E. by apply (inj Some) in E as <-.
Qed.

Lemma setFrequency_within e ppm : within e (setFrequency e ppm).1.
Proof.
  unfold setFrequency. split; [|by destruct (k_takes (e_calls e))..]. apply rtc_once.
  apply (es_frequency _ _ ppm (k_takes (e_calls e))); by destruct (k_takes (e_calls e)).
Qed.

Lemma apply_action_within e a e' err : apply_action e a = (e', err) -> within e e'.
Proof.
  destruct a as [ppm|sec|]; cbn [apply_action].
  - destruct (CheckFrequency ppm); [by intros [= <- <-]|]. pose proof (setFrequency_within e ppm) as H.
    destruct (setFrequency e ppm) as [e1 ok]. intros E. by apply pair_equal_spec in E as [<- _].
  - destruct (CheckedSeconds sec) as [delta|]; [|by intros [= <- <-]]. unfold clk_now. cbv zeta. cbn beta iota.
    set (e1 := bump_epoch e). assert (within e e1) as H1 by apply bump_within. clearbody e1.
    set (ok := k_takes (e_calls (called e1))). set (e2 := bump_epoch (did (called (called e1)) (EffStep delta ok))).
    assert (within e e2) as H2 by (etransitivity; [exact H1|]; etransitivity; [|apply bump_within]; by eapply within_effect).
    clearbody e2. destruct ok; cbn [negb]; intros E; apply pair_equal_spec in E as [<- _]; [|done].
    etransitivity; [exact H2|]. by apply within_quiet.
  - intros E. apply pair_equal_spec in E as [<- _]. by eapply within_effect.
Qed.

Lemma apply_actions_within acts : forall e e' err, apply_actions e acts = (e', err) -> within e e'.
Proof.
  induction acts as [|a acts IH]; intros e e' err; cbn [apply_actions]; [by intros [= <- <-]|].
  destruct (apply_action e a) as [e1 err1] eqn:E1. apply apply_action_within in E1. destruct err1; [by intros [= <- <-]|].
  intros E. etransitivity; [exact E1|by eapply IH].
Qed.

Lemma gated_status_within e now st e' : gated_status e now = Some (st, e') -> within e e'.
Proof.
  unfold gated_status, clk_now. destruct (SystemStatus (e_sys e) now) as [st0|]; [|done]. cbn [mbind option_bind].
  destruct (applyLeap _ _ _ _) as [p st1]. intros E. apply (inj Some), pair_equal_spec in E as [_ <-]. by apply within_quiet.
Qed.

Lemma syncKernel_within e st e' err : syncKernel e st = (e', err) -> within e e'.
Proof.
  unfold syncKernel. destruct (kernel_status e st) as [ks e1] eqn:Ek.
  assert (within e e1) as H1.
  { unfold kernel_status, kernel_leap, clk_now in Ek. repeat case_in Ek; apply pair_equal_spec in Ek as [_ <-]; try done; try by apply within_quiet.
    all: match goal with H : _ = (_, ?x) |- within _ ?x => repeat case_in H; apply pair_equal_spec in H as [_ <-]; try done; by apply within_quiet end. }
  clear Ek. case_goal; [intros E; by apply pair_equal_spec in E as [<- _]|]. unfold setKernel.
  assert (forall ok, within e (did (called e1) (EffStatus ks ok))) as H2 by (intros ok; etransitivity; [exact H1|]; by eapply within_effect).
  destruct (k_takes (e_calls e1)); intros E; apply pair_equal_spec in E as [<- _]; [|apply H2].
  etransitivity; [apply (H2 true)|]. by apply within_quiet.
Qed.

Lemma publishStatus_within e st now : e_procNow e = Some now -> within e (publishStatus e st now).
Proof.
  intros Hn. unfold publishStatus, clk_now. cbn beta iota zeta. split; [|done|done].
  apply (rtc_l _ _ (called (called e))); [by apply es_quiet|]. by eapply rtc_once, es_publish.
Qed.

Lemma handle_within e res now e' err : e_procNow e = Some now -> handle e res now = Some (e', err) -> within e e'.
Proof.
  intros Hn. unfold handle. rewrite processing_same_now by done. destruct (crossLeap e now) as [e1|] eqn:E1; [|done]. cbn [mbind option_bind].
  apply crossLeap_within in E1. destruct (apply_actions e1 (r_Actions res)) as [e2 err2] eqn:E2. apply apply_actions_within in E2.
  assert (within e e2) as H2 by (by etransitivity). clear E1 E2. destruct err2; [intros E; by apply (inj Some), pair_equal_spec in E as [<- _]|].
  destruct (gated_status e2 now) as [[st e3]|] eqn:E3; [|done]. cbn [mbind option_bind]. apply gated_status_within in E3.
  set (e4 := if negb _ then _ else e3). assert (within e3 e4) as H4 by (unfold e4; destruct (negb _); [by apply within_quiet|done]). clearbody e4.
  set (e5 := e4 <| e_freq := _ |>). assert (within e4 e5) as H5 by (by apply within_quiet). clearbody e5.
  destruct (syncKernel e5 st) as [e6 err6] eqn:E6. apply syncKernel_within in E6.
  assert (within e e6) as H6 by (etransitivity; [exact H2|]; etransitivity; [exact E3|]; etransitivity; [exact H4|]; by etransitivity).
  clear H2 E3 H4 H5 E6. destruct err6; intros E; apply (inj Some), pair_equal_spec in E as [<- _]; [done|].
  etransitivity; [exact H6|]. apply publishStatus_within. rewrite (wi_now _ _ H6). done.
Qed.

Lemma feed_within e m e' res : P m -> feed e m = Some (e', res) -> within e e'.
Proof.
  intros Hm. unfold feed. destruct (Update (e_sys e) m) as [[sys r]|]; [|done]. cbn [mbind option_bind]. intros E.
  apply (inj Some), pair_equal_spec in E as [<- _]. etransitivity; [by apply (did_within e (EffUpdate m))|]. apply sys_within.
Qed.

(** The moves of an event, and what it leaves in the queue. *)
Definition event_moves (e e' : Engine) : Prop := moves e e' /\ Forall P (e_meas e').

Lemma reading e n now e1 e' : processing (called e) (k_mono n) = (now, e1) -> within e1 e' -> moves e e' /\ e_meas e' = e_meas e.
Proof.
  intros E [H1 H2 _]. apply processing_moves in E as (M & _ & Q). split; [|by rewrite H2, Q].
  apply (rtc_l _ _ (called e)); [by apply es_quiet|]. by etransitivity.
Qed.

Lemma reading_now e n now e1 : processing (called e) (k_mono n) = (now, e1) -> e_procNow e1 = Some now.
Proof. apply processing_now. Qed.

Lemma stale_moves e m e' d : stale e m = Some (e', d) -> moves e e' /\ e_meas e' = e_meas e.
Proof.
  unfold stale, clk_mono. destruct (processing (called e) _) as [now e1] eqn:Ep. destruct (crossLeap e1 now) as [e2|] eqn:Ec; [|done].
  cbn [mbind option_bind]. apply crossLeap_within in Ec. intros E. eapply reading; [exact Ep|]. etransitivity; [exact Ec|].
  apply (inj Some) in E. repeat case_in E; apply pair_equal_spec in E as [<- _]; try done; by apply within_quiet.
Qed.

Lemma measure_moves e e' err : Forall P (e_meas e) -> engine_event e EvMeasure = Some (e', err) -> event_moves e e'.
Proof.
  intros Hq. unfold engine_event. destruct (e_meas e) as [|m rest] eqn:Em.
  { intros E. apply (inj Some), pair_equal_spec in E as [<- _]. split; [apply rtc_refl|by rewrite Em]. }
  apply Forall_cons_1 in Hq as [Hm Hq]. destruct (stale _ m) as [[e1 d]|] eqn:Es; [|done]. cbn [mbind option_bind].
  apply stale_moves in Es as [M1 Q1]. assert (moves e e1) as M by (eapply rtc_l; [|exact M1]; by apply es_quiet).
  assert (Forall P (e_meas e1)) as Q by (by rewrite Q1). clear M1 Q1 Em.
  destruct d; [intros E; by apply (inj Some), pair_equal_spec in E as [<- _]|]. unfold clk_mono.
  destruct (processing (called e1) _) as [now e2] eqn:Ep. pose proof (reading_now _ _ _ _ Ep) as Hn.
  set (e3 := noteSourceAlive e2 (m_Source m)). assert (within e2 e3) as W3 by (unfold e3, noteSourceAlive; case_goal; [by apply within_quiet|done]).
  clearbody e3. destruct (feed e3 _) as [[e4 res]|] eqn:Ef; [|done]. cbn [mbind option_bind]. apply feed_within in Ef; [|by apply P_now].
  intros E. apply handle_within in E; [|by rewrite (wi_now _ _ Ef), (wi_now _ _ W3)].
  destruct (reading _ _ _ _ e' Ep) as [M2 Q2]; [etransitivity; [exact W3|]; by etransitivity|].
  split; [by etransitivity|]. by rewrite Q2.
Qed.

Lemma maybeWriteDrift_within e now final : within e (maybeWriteDrift e now final).
Proof.
  unfold maybeWriteDrift. cbv zeta. destruct (drift_candidate _ _ _ _ _ _ _ _ _) as [ppm|]; [|done].
  etransitivity; [by apply (did_within e (EffOffer ppm))|]. by apply within_quiet.
Qed.

Lemma tick_moves e e' err : Forall P (e_meas e) -> engine_event e EvTick = Some (e', err) -> event_moves e e'.
Proof.
  intros Hq. unfold engine_event, clk_mono. destruct (processing (called e) _) as [now e1] eqn:Ep. pose proof (reading_now _ _ _ _ Ep) as Hn.
  destruct (crossLeap e1 now) as [e2|] eqn:Ec; [|done]. cbn [mbind option_bind]. apply crossLeap_within in Ec.
  destruct (Tick (e_sys e2) now) as [[sys res]|]; [|done]. cbn [mbind option_bind].
  pose proof (sys_within e2 sys) as W3. generalize dependent (e2 <| e_sys := sys |>). intros e3 W3.
  destruct (handle e3 res now) as [[e4 err4]|] eqn:Eh; [|done]. cbn [mbind option_bind].
  apply handle_within in Eh; [|by rewrite (wi_now _ _ W3), (wi_now _ _ Ec)]. intros E. apply (inj Some), pair_equal_spec in E as [<- _].
  assert (within e1 e4) as W4 by (etransitivity; [exact Ec|]; by etransitivity).
  assert (within e1 (match err4 with Some _ => e4 | None => maybeWriteDrift e4 now false end)) as W5
    by (destruct err4; [done|]; etransitivity; [exact W4|]; apply maybeWriteDrift_within).
  destruct (reading _ _ _ _ _ Ep W5) as [M Q]. split; [done|]. by rewrite Q.
Qed.

Lemma dropQueued_moves e name arrivals :
  Forall P (List.filter (fun m => negb (bool_decide (m_Source m = name))) (e_meas e)) -> Forall (Forall P) arrivals -> event_moves e (dropQueued e name arrivals).
Proof.
  intros Hk Ha. apply (dropQueued_ind (moves e) P name).
  - intros x n Hx. eapply rtc_r; [exact Hx|]. by apply es_quiet.
  - intros x l Hx. eapply rtc_r; [exact Hx|]. by apply es_quiet.
  - apply rtc_refl.
  - apply List.Forall_forall. intros m Hm. rewrite List.Forall_forall in Hk. destruct (decide (m_Source m = name)) as [?|Hne]; [by left|right].
    apply Hk, filter_In. split; [done|]. by rewrite bool_decide_eq_false_2.
  - done.
Qed.

Lemma filter_Forall f (l : list Measurement) : Forall P l -> Forall P (List.filter f l).
Proof. intros H. apply List.Forall_forall. intros m Hm. apply filter_In in Hm as [Hm _]. rewrite List.Forall_forall in H. auto. Qed.

(** A stop: the queue needs to be clean only of the other sources. *)
Lemma stopped_moves e name err arrivals e' err' :
  name ∈ e_names e -> Forall P (List.filter (fun m => negb (bool_decide (m_Source m = name))) (e_meas e)) -> Forall (Forall P) arrivals ->
  sourceStopped e name err arrivals = Some (e', err') -> event_moves e e'.
Proof.
  intros Hin Hq Ha. unfold sourceStopped. rewrite bool_decide_eq_true_2 by done. cbn [negb]. set (e0 := e <| e_sourceErrors := _ |>).
  destruct (dropQueued_moves e0 name arrivals Hq Ha) as [M1 Q1]. assert (moves e (dropQueued e0 name arrivals)) as M
    by (eapply rtc_l; [|exact M1]; by apply es_quiet). clear M1. clearbody e0. generalize dependent (dropQueued e0 name arrivals). intros e1 Q1 M. cbv zeta.
  unfold clk_mono. destruct (processing (called e1) _) as [now e2] eqn:Ep. pose proof (reading_now _ _ _ _ Ep) as Hn.
  set (m := mkMeasurement _ _ _ _ _ _ _ _ _ _ _ _ _ _ _ _ _ _ _ _ _ _ _ _). assert (P m) as Hm by (by apply P_invalid). clearbody m.
  assert (within e2 (called e2)) as W2 by (by apply within_quiet).
  destruct (feed (called e2) m) as [[e3 res]|] eqn:Ef; [|done]. cbn [mbind option_bind]. apply feed_within in Ef; [|done]. intros E.
  apply handle_within in E; [|by rewrite (wi_now _ _ Ef), (wi_now _ _ W2)].
  destruct (reading _ _ _ _ e' Ep) as [M2 Q2]; [etransitivity; [exact W2|]; by etransitivity|]. split; [by etransitivity|]. by rewrite Q2.
Qed.

Lemma publish_moves e n e' : engine_publish (called e) (k_mono n) = Some e' -> moves e e' /\ e_meas e' = e_meas e.
Proof.
  unfold engine_publish. destruct (processing (called e) (k_mono n)) as [now e1] eqn:Ep. pose proof (reading_now _ _ _ _ Ep) as Hn.
  destruct (gated_status e1 now) as [[st e2]|] eqn:Eg; [|done]. cbn [mbind option_bind]. apply gated_status_within in Eg. intros E. apply (inj Some) in E as <-.
  eapply reading; [exact Ep|]. etransitivity; [exact Eg|]. apply publishStatus_within. by rewrite (wi_now _ _ Eg).
Qed.

Lemma leapRequest_moves e r activate cancelled e' a err :
  leapRequest e r activate cancelled = Some (e', a, err) -> moves e e' /\ e_meas e' = e_meas e.
Proof.
  unfold leapRequest. destruct cancelled; [intros E; apply (inj Some) in E; apply pair_equal_spec in E as [E _]; apply pair_equal_spec in E as [<- _]; split; [apply rtc_refl|done]|].
  unfold clk_mono, clk_now. destruct (processing (called e) _) as [now e1] eqn:Ep. destruct (crossLeap e1 now) as [e2|] eqn:Ec; [|done].
  cbn [mbind option_bind]. apply crossLeap_within in Ec. destruct (reading _ _ _ _ e2 Ep Ec) as [M2 Q2].
  assert (moves e (called e2) /\ e_meas (called e2) = e_meas e) as [M2' Q2'] by (split; [eapply rtc_r; [exact M2|]; by apply es_quiet|done]).
  generalize dependent (called e2). intros e3 M3 Q3. destruct (processing (called e3) _) as [now4 e4] eqn:Ep4.
  destruct (SystemStatus (e_sys e4) now4) as [st|]; [|done]. cbn [mbind option_bind]. destruct (checkLeap _ _ _ _ _) as [p err5].
  assert (forall q, within e4 (e4 <| e_leap := q |>)) as W5 by (intros q; by apply within_quiet).
  assert (forall q, within e4 q -> moves e q /\ e_meas q = e_meas e) as Hend
    by (intros q Hq; destruct (reading _ _ _ _ q Ep4 Hq) as [M5 Q5]; split; [by etransitivity|congruence]).
  destruct err5 as [err5|]; [intros E; apply (inj Some) in E; apply pair_equal_spec in E as [E _]; apply pair_equal_spec in E as [<- _]; by apply Hend|].
  destruct activate; cbn [negb].
  - destruct (negb _); [intros E; apply (inj Some) in E; apply pair_equal_spec in E as [E _]; apply pair_equal_spec in E as [<- _]; by apply Hend|]. cbv zeta.
    set (e6 := set e_leap _ (set e_leap _ e4)). assert (within e4 e6) as W6 by (by apply within_quiet). clearbody e6. destruct (Hend e6 W6) as [M6 Q6].
    destruct (processing (called e6) _) as [now7 e7] eqn:Ep7. destruct (handle e7 _ now7) as [[e8 err8]|] eqn:Eh; [|done]. cbn [mbind option_bind].
    apply handle_within in Eh; [|by eapply reading_now]. intros E. apply (inj Some) in E. apply pair_equal_spec in E as [E _]. apply pair_equal_spec in E as [<- _].
    destruct (reading _ _ _ _ e8 Ep7 Eh) as [M8 Q8]. split; [by etransitivity|congruence].
  - cbv zeta. intros E. apply (inj Some) in E. apply pair_equal_spec in E as [E _]. apply pair_equal_spec in E as [<- _]. apply Hend. by apply within_quiet.
Qed.

Definition sent_ok (ev : event) : Prop :=
  match ev with EvSend m => P m | EvStopped _ _ arrivals => Forall (Forall P) arrivals | _ => True end.

Lemma event_moved e ev e' err : Forall P (e_meas e) -> sent_ok ev -> engine_event e ev = Some (e', err) -> event_moves e e'.
Proof.
  intros Hq Hev. destruct ev as [m| | |name er arrivals|name|r activate cancelled]; [|by apply measure_moves|by apply tick_moves|..]; cbn [engine_event].
  - intros E. apply (inj Some), pair_equal_spec in E as [<- _]. unfold send. split; [by apply rtc_once, es_quiet; case_goal|]. case_goal; [|done]. apply Forall_app; auto.
  - destruct (decide (name ∈ e_names e)) as [Hin|Hin]; [apply stopped_moves; [done|by apply filter_Forall|done]|].
    unfold sourceStopped. rewrite bool_decide_eq_false_2 by done. intros E. apply (inj Some), pair_equal_spec in E as [<- _]. split; [apply rtc_refl|done].
  - unfold sourceRestarting, clk_mono. cbn beta iota zeta. set (e1 := e <| e_restarting := _ |>).
    assert (within e e1) as W1 by (by apply within_quiet). clearbody e1.
    destruct (engine_publish (called e1) (k_mono (e_calls e1))) as [e2|] eqn:Ep; [|done]. cbn [mbind option_bind]. intros E. apply (inj Some), pair_equal_spec in E as [<- _].
    apply publish_moves in Ep as [M Q]. split; [etransitivity; [apply W1|done]|]. by rewrite Q, (wi_meas _ _ W1).
  - destruct (leapRequest e r activate cancelled) as [[[e1 a] err1]|] eqn:El; [|done]. cbn [mbind option_bind]. intros E. apply (inj Some), pair_equal_spec in E as [<- _].
    apply leapRequest_moves in El as [M Q]. split; [done|]. by rewrite Q.
Qed.

Lemma loop_moves evs : forall e e' err, Forall P (e_meas e) -> Forall sent_ok evs -> engine_loop e evs = Some (e', err) -> moves e e'.
Proof.
  induction evs as [|ev evs IH]; intros e e' err Hq Hev; cbn [engine_loop]; [intros E; apply (inj Some), pair_equal_spec in E as [<- _]; apply rtc_refl|].
  apply Forall_cons_1 in Hev as [H1 H2]. destruct (engine_event e ev) as [[e1 err1]|] eqn:E1; [|done]. cbn [mbind option_bind].
  apply event_moved in E1 as [M Q]; [|done|done]. destruct err1; [intros E; by apply (inj Some), pair_equal_spec in E as [<- _]|].
  intros E. etransitivity; [exact M|]. by eapply IH.
Qed.

Lemma run_moves e evs e' err : Forall P (e_meas e) -> Forall sent_ok evs -> engine_run e evs = Some (e', err) -> moves e e'.
Proof.
  intros Hq Hev. unfold engine_run. pose proof (setFrequency_within e (Freq (loop (e_sys e)))) as W1.
  destruct (setFrequency e (Freq (loop (e_sys e)))) as [e1 ok]. cbn [fst] in W1.
  destruct ok; [|intros E; apply (inj Some), pair_equal_spec in E as [<- _]; apply W1]. unfold setKernel. set (f := EffStatus _ _).
  assert (within e (did (called e1) f)) as W2 by (etransitivity; [exact W1|]; by apply (within_effect e1 (did (called e1) f) f)).
  generalize dependent (did (called e1) f). intros e2 W2. destruct (k_takes (e_calls e1)); [|intros E; apply (inj Some), pair_equal_spec in E as [<- _]; apply W2].
  set (e3 := e2 <| e_lastKernel := _ |>). assert (within e e3) as W3 by (etransitivity; [exact W2|]; by apply within_quiet). clearbody e3.
  destruct (engine_loop e3 evs) as [[e4 err4]|] eqn:El; [|done]. cbn [mbind option_bind]. intros E. apply (inj Some), pair_equal_spec in E as [<- _].
  apply loop_moves in El; [|by rewrite (wi_meas _ _ W3)|done]. unfold shutdown. set (e5 := restoreBaseFrequency e4 err4).
  assert (within e4 e5) as W5 by (unfold e5, restoreBaseFrequency; repeat case_goal; try done; apply setFrequency_within). clearbody e5.
  unfold clk_mono. cbn beta iota zeta. destruct (processing (called e5) _) as [now e6] eqn:Ep.
  destruct (reading _ _ _ _ _ Ep (maybeWriteDrift_within e6 now true)) as [M6 _].
  etransitivity; [apply W3|]. etransitivity; [exact El|]. etransitivity; [apply W5|exact M6].
Qed.

End Moves.

#[export] Existing Instance within_preorder.

(** ** The processing clock *)

(** The processing times of the snapshots, newest first. *)
Definition stamps (tr : list effect) : list f64 := omap (fun f => match f with EffPublish s => Some (es_PublishedMono s) | _ => None end) tr.

Fixpoint not_after (p : f64) (l : list f64) : Prop := match l with [] => True | x :: l => fle x p = true /\ not_after x l end.

Definition clocked (e : Engine) : Prop :=
  match e_procNow e with
  | None => stamps (e_trace e) = []
  | Some p => is_nan p = false /\ not_after p (stamps (e_trace e))
  end.

Definition any (m : Measurement) : Prop := True.

Lemma any_queue l : Forall any l.
Proof. apply List.Forall_forall. done. Qed.

Lemma any_sent evs : Forall (sent_ok any) evs.
Proof. apply List.Forall_forall. intros [] _; try done. apply List.Forall_forall. intros l _. apply any_queue. Qed.

Lemma clocked_step {K : Kernel} e e' : (forall n, is_nan (k_mono n) = false) -> estep any e e' -> clocked e -> clocked e'.
Proof.
  intros Hk Hs. unfold clocked. destruct Hs as [e e' T A N|e e' f T A N Hf|e n|e e' ppm ok T A N|e e' s T A N Hn].
  - by rewrite T, N.
  - rewrite T, N. destruct f; done.
  - unfold processing. destruct (e_procNow e) as [p|] eqn:Ep.
    + intros [Hp Hd]. destruct (fgt (k_mono n) p) eqn:E; cbn [snd]; [|by rewrite Ep].
      change (is_nan (k_mono n) = false /\ not_after (k_mono n) (stamps (e_trace e))). split; [apply Hk|].
      apply flt_le in E. destruct (stamps (e_trace e)) as [|x l]; [done|]. destruct Hd as [Hx Hd]. split; [by eapply fle_trans|done].
    + intros Hd. change (is_nan (k_mono n) = false /\ not_after (k_mono n) (stamps (e_trace e))). by rewrite Hd.
  - by rewrite T, N.
  - rewrite N, Hn, T. intros [Hp Hd]. split; [done|]. split; [by apply fle_refl|done].
Qed.

Lemma clocked_moves {K : Kernel} e e' : (forall n, is_nan (k_mono n) = false) -> rtc (estep any) e e' -> clocked e -> clocked e'.
Proof. intros Hk. induction 1; eauto using clocked_step. Qed.

Lemma newEngine_moves {K : Kernel} ec d freq known srcs ls gen e :
  newEngine ec d freq known srcs ls gen = Some e ->
  exists e0, rtc (estep any) e0 e /\ e_procNow e0 = None /\ e_applied e0 = None /\ e_trace e0 = [] /\ e_meas e0 = [] /\ e_sys e0 = e_sys e /\ e_meas e = [].
Proof.
  unfold newEngine. destruct (negb _); [done|]. unfold engine_publish. set (e0 := mkEngine _ _ _ _ _ _ _ _ _ _ _ _ _ _ _ _ _ _ _ _). intros E.
  exists e0. destruct (processing e0 (k_mono 1)) as [now e1] eqn:Ep.
  destruct (gated_status e1 now) as [[st e2]|] eqn:Eg; [|done]. cbn [mbind option_bind] in E. apply (inj Some) in E as <-.
  assert (e_sys e1 = e_sys e0) as S1 by (unfold processing in Ep; repeat case_in Ep; apply pair_equal_spec in Ep as [_ <-]; done).
  assert (e_sys e2 = e_sys e1) as S2.
  { unfold gated_status, clk_now in Eg. destruct (SystemStatus (e_sys e1) now); [|done]. cbn [mbind option_bind] in Eg.
    destruct (applyLeap _ _ _ _). by apply (inj Some), pair_equal_spec in Eg as [_ <-]. }
  apply (processing_moves any) in Ep as (M1 & N1 & Q1). apply (gated_status_within any) in Eg as W2.
  assert (within any e1 (publishStatus e2 st now)) as W3
    by (etransitivity; [exact W2|]; apply publishStatus_within; by rewrite (wi_now _ _ _ W2)).
  destruct W3 as [W3 Q3 _]. split; [by etransitivity|]. repeat (split; [done|]). split; [|by rewrite Q3, Q1].
  change (e_sys (publishStatus e2 st now)) with (e_sys e2). congruence.
Qed.

(** The processing clock never goes back.  Whatever the monotonic
    readings (as long as they are numbers), the order events are delivered in
    and the times the measurements carry, the processing times of the snapshots
    of a run never decrease. *)
Theorem engine_clock_forward {K : Kernel} ec d freq known srcs ls gen e evs e' err :
  (forall n, is_nan (k_mono n) = false) -> newEngine ec d freq known srcs ls gen = Some e -> engine_run e evs = Some (e', err) ->
  StronglySorted (fun newer older => fle older newer = true) (stamps (e_trace e')).
Proof.
  intros Hk He Hr. destruct (newEngine_moves _ _ _ _ _ _ _ _ He) as (e0 & M0 & N0 & _ & T0 & _ & _ & Q).
  apply (run_moves any) in Hr; [|done|done|apply any_queue|apply any_sent].
  assert (clocked e') as Hc.
  { apply (clocked_moves e0); [done|by etransitivity|]. unfold clocked. by rewrite N0, T0. }
  unfold clocked in Hc. assert (exists p, not_after p (stamps (e_trace e'))) as [p Hd].
  { destruct (e_procNow e') as [p|]; [exists p; apply Hc|exists fzero; by rewrite Hc]. }
  clear Hc. revert p Hd. generalize (stamps (e_trace e')). intros l. induction l as [|x l IH]; intros p Hd; [constructor|].
  destruct Hd as [_ Hd]. constructor; [by eapply IH|]. clear IH. revert x Hd. induction l as [|y l IH]; intros x Hd; [constructor|].
  destruct Hd as [Hy Hd]. constructor; [done|]. eapply List.Forall_impl; [|by apply (IH y)]. intros z Hz. exact (fle_trans _ _ _ Hz Hy).
Qed.

(** ** The frequency left in the kernel *)

(** The last frequency the kernel took. *)
Fixpoint accepted_word (tr : list effect) : option f64 :=
  match tr with
  | [] => None
  | EffFrequency ppm true :: _ => Some ppm
  | _ :: tr => accepted_word tr
  end.

Lemma accepted_step {K : Kernel} e e' : estep any e e' -> e_applied e = accepted_word (e_trace e) -> e_applied e' = accepted_word (e_trace e').
Proof.
  intros Hs Ha. destruct Hs as [e e' T A N|e e' f T A N Hf|e n|e e' ppm ok T A N|e e' s T A N Hn]; try (by rewrite T, A).
  - rewrite T, A, Ha. by destruct f.
  - unfold processing. destruct (e_procNow e); [case_goal|]; done.
  - rewrite T, A, Ha. by destruct ok.
Qed.

Lemma accepted_moves {K : Kernel} e e' : rtc (estep any) e e' -> e_applied e = accepted_word (e_trace e) -> e_applied e' = accepted_word (e_trace e').
Proof. induction 1; eauto using accepted_step. Qed.

Lemma applied_kept {K : Kernel} e e' : rtc (estep any) e e' -> is_Some (e_applied e) -> is_Some (e_applied e').
Proof.
  induction 1 as [|e1 e2 e3 Hs _ IH]; [done|]. intros Ha. apply IH. destruct Hs as [e e' T A N|e e' f T A N Hf|e n|e e' ppm ok T A N|e e' s T A N Hn]; try (by rewrite A).
  - unfold processing. destruct (e_procNow e); [case_goal|]; done.
  - rewrite A. by destruct ok.
Qed.

Definition is_frequency (f : effect) : bool := match f with EffFrequency _ _ => true | _ => false end.


(** What the shutdown does to the kernel's frequency. *)
Lemma shutdown_trace {K : Kernel} e err :
  let e1 := restoreBaseFrequency e err in
  e_sys (shutdown e err) = e_sys e1 /\
  exists post, e_trace (shutdown e err) = post ++ e_trace e1 /\ Forall (fun f => is_frequency f = false) post.
Proof.
  unfold shutdown. generalize (restoreBaseFrequency e err). intros e1. cbn zeta.
  unfold clk_mono. cbn beta iota zeta. destruct (processing (called e1) _) as [now e2] eqn:Ep.
  assert (e_sys e2 = e_sys e1 /\ e_trace e2 = e_trace e1) as [S2 T2]
    by (unfold processing in Ep; repeat case_in Ep; apply pair_equal_spec in Ep as [_ <-]; done).
  unfold maybeWriteDrift. cbv zeta. destruct (drift_candidate _ _ _ _ _ _ _ _ _) as [ppm|].
  - split; [exact S2|]. exists [EffOffer ppm]. split; [|by constructor].
    change (e_trace ((did e2 (EffOffer ppm)) <| e_lastDriftWrite := now |>)) with (EffOffer ppm :: e_trace e2). by rewrite T2.
  - split; [exact S2|]. exists []. by split.
Qed.

Lemma accepted_skip post tr : Forall (fun f => is_frequency f = false) post -> accepted_word (post ++ tr) = accepted_word tr.
Proof. induction 1 as [|f post Hf _ IH]; [done|]. by destruct f. Qed.

Lemma shutdown_frequency {K : Kernel} e err :
  is_Some (e_applied e) -> e_applied e = accepted_word (e_trace e) -> err <> Some ErrFrequencyRefused ->
  let base := Freq (loop (e_sys e)) in
  e_sys (shutdown e err) = e_sys e /\
  ((exists b, accepted_word (e_trace (shutdown e err)) = Some b /\ (b = base \/ feq b base = true)) \/
   (exists post, e_trace (shutdown e err) = post ++ EffFrequency base false :: e_trace e /\ Forall (fun f => is_frequency f = false) post)).
Proof.
  intros [a Ha] Hacc Herr base. unfold shutdown. set (e1 := restoreBaseFrequency e err).
  assert (e_sys e1 = e_sys e /\ ((exists b, accepted_word (e_trace e1) = Some b /\ (b = base \/ feq b base = true)) \/ e_trace e1 = EffFrequency base false :: e_trace e)) as [S1 H1].
  { unfold e1, restoreBaseFrequency. rewrite Ha. fold base. destruct (feq a base) eqn:Ef; [split; [done|]; left; exists a; rewrite <- Hacc; auto|].
    assert (match err with Some ErrFrequencyRefused => e | _ => (setFrequency e base).1 end = (setFrequency e base).1) as ->
      by (destruct err as [[]|]; done).
    unfold setFrequency. destruct (k_takes (e_calls e)); (split; [done|]); [left; exists base; auto|by right]. }
  destruct (shutdown_trace e err) as (S2 & post & T2 & Hp). cbv zeta in S2, T2. fold e1 in S2, T2.
  unfold shutdown in S2, T2. fold e1 in S2, T2. rewrite S2, T2. split; [done|].
  destruct H1 as [(b & H1 & H2)| ->]; [left; exists b; by rewrite accepted_skip|right; by exists post].
Qed.

(** After a refused frequency nothing more is written. *)
Lemma shutdown_refused {K : Kernel} e :
  e_sys (shutdown e (Some ErrFrequencyRefused)) = e_sys e /\
  exists post, e_trace (shutdown e (Some ErrFrequencyRefused)) = post ++ e_trace e /\ Forall (fun f => is_frequency f = false) post.
Proof.
  destruct (shutdown_trace e (Some ErrFrequencyRefused)) as (S & post & T & Hp). cbv zeta in S, T.
  assert (restoreBaseFrequency e (Some ErrFrequencyRefused) = e) as E.
  { unfold restoreBaseFrequency. destruct (e_applied e); [|done]. by destruct (feq _ _). }
  rewrite E in S, T. split; [done|]. by exists post.
Qed.

(** A new engine has only published. *)
Lemma newEngine_accepts_none {K : Kernel} ec d freq known srcs ls gen e :
  newEngine ec d freq known srcs ls gen = Some e -> accepted_word (e_trace e) = None.
Proof.
  unfold newEngine. destruct (negb _); [done|]. unfold engine_publish. set (e0 := mkEngine _ _ _ _ _ _ _ _ _ _ _ _ _ _ _ _ _ _ _ _). intros E.
  destruct (processing e0 (k_mono 1)) as [now e1] eqn:Ep.
  assert (e_trace e1 = []) as T1 by (unfold processing in Ep; repeat case_in Ep; apply pair_equal_spec in Ep as [_ <-]; done).
  unfold gated_status, clk_now in E. destruct (SystemStatus (e_sys e1) now); [|done]. cbn [mbind option_bind] in E.
  destruct (applyLeap _ _ _ _) as [p st]. apply (inj Some) in E as <-. exact (f_equal accepted_word T1).
Qed.

(** Only the first write of a run fails as such. *)
Lemma apply_never_initial {K : Kernel} acts : forall e, (apply_actions e acts).2 <> Some ErrInitialFrequency.
Proof.
  induction acts as [|a acts IH]; intros e; cbn [apply_actions]; [done|].
  assert ((apply_action e a).2 <> Some ErrInitialFrequency) as Ha.
  { destruct a as [ppm|seconds|]; cbn [apply_action]; [|destruct (CheckedSeconds seconds)|done]; repeat case_goal; try done;
      cbn [snd]; by destruct (setFrequency e ppm) as [? []]. }
  destruct (apply_action e a) as [e1 [err|]]; [exact Ha|apply IH].
Qed.

Lemma handle_never_initial {K : Kernel} e res now e' err : handle e res now = Some (e', err) -> err <> Some ErrInitialFrequency.
Proof.
  unfold handle. destruct (processing e now) as [now1 e1]. destruct (crossLeap e1 now1) as [e2|]; [|done]. cbn [mbind option_bind].
  pose proof (apply_never_initial (r_Actions res) e2) as Ha. destruct (apply_actions e2 _) as [e3 [err3|]].
  { by intros [= _ <-]. }
  destruct (gated_status e3 now1) as [[st e4]|]; [|done]. cbn [mbind option_bind].
  match goal with |- context [syncKernel ?x st] => generalize x end. intros e6. unfold syncKernel, setKernel. destruct (kernel_status e6 st) as [ks e7].
  assert (panic_of (r_Events res) <> Some ErrInitialFrequency) as Hp by (unfold panic_of; by destruct (find _ _)).
  case_goal; [by intros [= _ <-]|]. case_goal; by intros [= _ <-].
Qed.

Lemma loop_never_initial {K : Kernel} evs : forall e e' err, engine_loop e evs = Some (e', err) -> err <> Some ErrInitialFrequency.
Proof.
  induction evs as [|ev evs IH]; intros e e' err; cbn [engine_loop]; [by intros [= _ <-]|].
  destruct (engine_event e ev) as [[e1 err1]|] eqn:E; [|done]. cbn [mbind option_bind].
  destruct err1 as [err1|]; [|apply IH]. intros [= _ <-]. revert E. destruct ev as [m| | |name r arr|name|r activate cancelled]; cbn [engine_event].
  - done.
  - destruct (e_meas e) as [|m rest]; [done|]. destruct (stale _ m) as [[e2 dropped]|]; [|done]. cbn [mbind option_bind].
    destruct dropped; [done|]. unfold clk_mono. cbn beta iota. destruct (processing _ _) as [now e3].
    destruct (feed _ _) as [[e4 res]|]; [|done]. cbn [mbind option_bind]. apply handle_never_initial.
  - unfold clk_mono. cbn beta iota. destruct (processing _ _) as [now e3]. destruct (crossLeap _ _) as [e4|]; [|done]. cbn [mbind option_bind].
    destruct (Tick _ _) as [[sys res]|]; [|done]. cbn [mbind option_bind].
    destruct (handle _ _ _) as [[e5 err5]|] eqn:Eh; [|done]. cbn [mbind option_bind]. intros [= _ ->]. by eapply handle_never_initial.
  - unfold sourceStopped. case_goal; [done|]. unfold clk_mono. cbn beta iota zeta. destruct (processing _ _) as [now e3].
    destruct (feed _ _) as [[e4 res]|]; [|done]. cbn [mbind option_bind]. apply handle_never_initial.
  - destruct (sourceRestarting e name); [done|done].
  - destruct (leapRequest e r activate cancelled) as [[[e2 ans] err2]|] eqn:El; [|done]. cbn [mbind option_bind]. intros [= _ ->].
    revert El. unfold leapRequest. destruct cancelled; [done|]. unfold clk_mono, clk_now. cbn beta iota zeta.
    destruct (processing _ _) as [now e3]. destruct (crossLeap _ _) as [e4|]; [|done]. cbn [mbind option_bind].
    destruct (processing _ _) as [now2 e5]. destruct (SystemStatus _ _) as [st|]; [|done]. cbn [mbind option_bind].
    destruct (checkLeap _ _ _ _ _) as [p [lerr|]]; [done|]. destruct (negb activate); [done|]. case_goal; [done|].
    destruct (processing _ _) as [now3 e6]. destruct (handle _ _ _) as [[e7 err7]|] eqn:Eh; [|done]. cbn [mbind option_bind].
    intros [= _ _ ->]. by eapply handle_never_initial.
Qed.

(** Claim C7: the daemon leaves the host at its base frequency.  A run that ends,
    whatever the kernel and the events, has the loop's base estimate as the last
    frequency the kernel accepted, so no phase-slew transient stays behind; or it
    tried to write exactly that, last, and was refused.  There are two
    exceptions, and they are named by the error of the run: when the first
    frequency write is refused the kernel has accepted nothing; and when a later
    frequency was refused, the shutdown does not try again, so the word the
    kernel accepted last, before that refusal, stays. *)
Theorem base_frequency_left {K : Kernel} ec d freq known srcs ls gen e evs e' err :
  newEngine ec d freq known srcs ls gen = Some e -> engine_run e evs = Some (e', err) ->
  let base := Freq (loop (e_sys e')) in
  match err with
  | Some ErrInitialFrequency => accepted_word (e_trace e') = None
  | Some ErrFrequencyRefused =>
      exists e3 e4 post, engine_loop e3 evs = Some (e4, Some ErrFrequencyRefused) /\ e_sys e4 = e_sys e' /\
        is_Some (accepted_word (e_trace e4)) /\
        e_trace e' = post ++ e_trace e4 /\ Forall (fun f => is_frequency f = false) post
  | _ =>
      (exists b, accepted_word (e_trace e') = Some b /\ (b = base \/ feq b base = true)) \/
      (exists post pre, e_trace e' = post ++ EffFrequency base false :: pre /\ Forall (fun f => is_frequency f = false) post)
  end.
Proof.
  intros He Hr base. destruct (newEngine_moves _ _ _ _ _ _ _ _ He) as (e0 & M0 & _ & A0 & T0 & _ & _ & Q).
  assert (e_applied e = accepted_word (e_trace e)) as Ha by (eapply accepted_moves; [exact M0|]; by rewrite A0, T0).
  assert (accepted_word (e_trace e) = None) as Hnone by (eapply newEngine_accepts_none; exact He).
  clear He M0 A0 T0. unfold engine_run in Hr. pose proof (setFrequency_within any e (Freq (loop (e_sys e)))) as W1.
  assert (forall e1 ok, setFrequency e (Freq (loop (e_sys e))) = (e1, ok) ->
    if ok then e_sys e1 = e_sys e /\ accepted_word (e_trace e1) = Some (Freq (loop (e_sys e))) /\ is_Some (e_applied e1)
    else accepted_word (e_trace e1) = None) as H1.
  { intros e1 ok. unfold setFrequency. intros E. destruct (k_takes (e_calls e)) eqn:Ek; apply pair_equal_spec in E as [<- <-]; [eauto|exact Hnone]. }
  destruct (setFrequency e (Freq (loop (e_sys e)))) as [e1 ok]. cbn [fst] in W1. specialize (H1 e1 ok eq_refl).
  destruct ok; [|by apply (inj Some), pair_equal_spec in Hr as [<- <-]].
  destruct H1 as (S1 & A1 & A1'). assert (e_applied e1 = accepted_word (e_trace e1)) as Ha1 by (eapply accepted_moves; [apply W1|done]).
  unfold setKernel in Hr. set (f := EffStatus _ _) in Hr. destruct (k_takes (e_calls e1)).
  - set (e3 := _ <| e_lastKernel := _ |>) in Hr.
    assert (e_sys e3 = e_sys e1 /\ is_Some (e_applied e3) /\ e_applied e3 = accepted_word (e_trace e3)) as (_ & A3 & Ha3) by done. clearbody e3.
    destruct (engine_loop e3 evs) as [[e4 err4]|] eqn:El; [|done]. cbn [mbind option_bind] in Hr. apply (inj Some), pair_equal_spec in Hr as [<- <-].
    pose proof (loop_never_initial evs e3 e4 err4 El) as Hni.
    pose proof El as Em. apply (loop_moves any) in Em; [|done|done|apply any_queue|apply any_sent].
    assert (is_Some (e_applied e4) /\ e_applied e4 = accepted_word (e_trace e4)) as [A4 Ha4]
      by (split; [by eapply applied_kept|by eapply accepted_moves]).
    assert (err4 = Some ErrFrequencyRefused \/ err4 <> Some ErrFrequencyRefused) as [->|Hne] by (destruct err4 as [[]|]; auto).
    + destruct (shutdown_refused e4) as (S4 & post & T4 & Hp). exists e3, e4, post. split; [done|]. split; [done|].
      split; [by rewrite <- Ha4|done].
    + destruct (shutdown_frequency e4 err4 A4 Ha4 Hne) as [S4 H4].
      assert (forall P Q R : Prop, P -> match err4 with Some ErrInitialFrequency => Q | Some ErrFrequencyRefused => R | _ => P end) as Hm.
      { intros P Q' R HP. destruct err4 as [[]|]; done. }
      apply Hm. unfold base. rewrite S4. destruct H4 as [H4|(post & H4)]; [by left|right; eauto].
  - apply (inj Some), pair_equal_spec in Hr as [<- <-]. left. exists (Freq (loop (e_sys e))). split; [exact A1|]. left. unfold base.
    change (Freq (loop (e_sys e)) = Freq (loop (e_sys e1))). by rewrite S1.
Qed.

(** ** A source that has stopped *)

(** No valid measurement of the source. *)
Definition silent_of (n : string) (m : Measurement) : Prop := m_Source m = n -> m_Valid m = false.

Lemma moves_fed {K : Kernel} P e e' :
  rtc (estep P) e e' -> exists new, e_trace e' = new ++ e_trace e /\ forall m, In (EffUpdate m) new -> P m.
Proof.
  induction 1 as [e|e1 e2 e3 Hs _ (new & E & H)]; [by exists []|].
  assert (exists f, e_trace e2 = f ++ e_trace e1 /\ forall m, In (EffUpdate m) f -> P m) as (f & F & HP).
  { destruct Hs as [e e' T A N|e e' f T A N Hf|e n|e e' ppm ok T A N|e e' s T A N Hn].
    - by exists [].
    - exists [f]. split; [done|]. by intros m [->|[]].
    - exists []. split; [|done]. unfold processing. destruct (e_procNow e); [case_goal|]; done.
    - exists [EffFrequency ppm ok]. split; [done|]. by intros m [|[]].
    - exists [EffPublish s]. split; [done|]. by intros m [|[]]. }
  exists (new ++ f). split; [by rewrite E, F, app_assoc|]. intros m Hm. apply in_app_or in Hm as [?|?]; auto.
Qed.

(** Claim C6: a run of a source that has ended is not heard again.  When a
    registered source is reported stopped, whatever it had left in the queue,
    and as long as nothing new is sent in its name, the discipline is given no
    valid measurement of it, through any further events: no older sample can
    revive it. *)
Theorem stopped_source_silent {K : Kernel} e n err arrivals evs e' err' :
  n ∈ e_names e -> Forall (Forall (silent_of n)) arrivals -> Forall (sent_ok (silent_of n)) evs ->
  engine_loop e (EvStopped n err arrivals :: evs) = Some (e', err') ->
  exists new, e_trace e' = new ++ e_trace e /\ forall m, In (EffUpdate m) new -> m_Source m = n -> m_Valid m = false.
Proof.
  intros Hin Ha Hev. cbn [engine_loop]. destruct (engine_event e (EvStopped n err arrivals)) as [[e1 err1]|] eqn:E1; [|done]. cbn [mbind option_bind].
  assert (forall m now, silent_of n m -> silent_of n (m <| m_Now := now |>)) as HP1 by done.
  assert (forall m, m_Valid m = false -> silent_of n m) as HP2 by (by intros m H _).
  assert (event_moves (silent_of n) e e1) as [M1 Q1].
  { eapply stopped_moves; [done|exact Hin| |exact Ha|exact E1]. apply List.Forall_forall. intros m Hm. apply filter_In in Hm as [_ Hm].
    intros Hs. rewrite bool_decide_eq_true_2 in Hm by done. done. }
  destruct err1 as [err1|]; [intros E; apply (inj Some), pair_equal_spec in E as [<- _]; by eapply moves_fed|].
  intros E. apply (loop_moves (silent_of n)) in E; [|done..]. eapply (moves_fed (silent_of n)). by etransitivity.
Qed.

(** ** The kernel follows the snapshot *)

Definition kernel_view (ks : KStatus) (st : SysStatus) : Prop :=
  if synced_state (st_State st)
  then ks_Synced ks = true /\ (st_Leap st <> LeapUnsync -> ks_Leap ks = st_Leap st) /\
       ks_MaxError ks = BoundSeconds (fadd (st_RootDisp st) (fdiv (st_RootDelay st) (of_Z 2))) maxKernelError /\
       ks_EstError ks = BoundSeconds (st_Jitter st) maxKernelError
  else ks = mkKStatus false LeapUnsync maxKernelError maxKernelError.

Lemma syncKernel_view {K : Kernel} e st e' : syncKernel e st = (e', None) -> exists ks, e_lastKernel e' = Some ks /\ kernel_view ks st.
Proof.
  unfold syncKernel. destruct (kernel_status e st) as [ks e1] eqn:Ek. intros E. exists ks. split.
  - case_in E; [bool_step; by apply pair_equal_spec in E as [<- _]|]. unfold setKernel in E. destruct (k_takes (e_calls e1)); [|done].
    by apply pair_equal_spec in E as [<- _].
  - unfold kernel_view. unfold kernel_status in Ek. destruct (synced_state (st_State st)).
    + unfold kernel_leap in Ek. destruct (st_Leap st =? LeapUnsync) eqn:El; bool_step.
      * destruct (if IsZero _ then _ else _) as [v e2]. apply pair_equal_spec in Ek as [<- _]. by split.
      * apply pair_equal_spec in Ek as [<- _]. by split.
    + by apply pair_equal_spec in Ek as [<- _].
Qed.

Lemma handle_view {K : Kernel} e res now e' :
  handle e res now = Some (e', None) -> exists s ks, e_status e' = Some s /\ e_lastKernel e' = Some ks /\ kernel_view ks (es_sys s).
Proof.
  unfold handle. destruct (processing e now) as [t e1]. destruct (crossLeap e1 t) as [e2|]; [|done]. cbn [mbind option_bind].
  destruct (apply_actions e2 (r_Actions res)) as [e3 [err|]]; [done|]. destruct (gated_status e3 t) as [[st e4]|]; [|done]. cbn [mbind option_bind].
  generalize (if negb (feq (st_LastUpdate st) (e_lastLoopUpdate e4)) then let '(wall, e) := clk_now (e4 <| e_lastLoopUpdate := st_LastUpdate st |>) in e <| e_refWall := wall |> else e4).
  intros e5. destruct (syncKernel _ st) as [e6 [err|]] eqn:Es; [done|]. intros E. apply (inj Some), pair_equal_spec in E as [<- _].
  apply syncKernel_view in Es as (ks & H1 & H2). exists (default (mkEngineStatus st fzero zeroTime zeroTime 0 0 ""%string zeroTime StateUnsynced false false ""%string false None None zeroTime false zeroTime []) (e_status (publishStatus e6 st t))), ks.
  split; [done|]. split; [exact H1|exact H2].
Qed.

(** The kernel is told what the clients are told.  A tick that does
    not end the run leaves a snapshot published and the kernel holding the
    status that snapshot implies: unsynchronized with 16 s of error unless it is
    synchronized or in holdover, else its leap, where known, and its error
    bounds. *)
Theorem tick_tells_kernel {K : Kernel} e e' :
  engine_event e EvTick = Some (e', None) -> exists s ks, e_status e' = Some s /\ e_lastKernel e' = Some ks /\ kernel_view ks (es_sys s).
Proof.
  unfold engine_event, clk_mono. destruct (processing (called e) _) as [now e1]. destruct (crossLeap e1 now) as [e2|]; [|done]. cbn [mbind option_bind].
  destruct (Tick (e_sys e2) now) as [[sys res]|]; [|done]. cbn [mbind option_bind]. destruct (handle _ res now) as [[e3 err]|] eqn:Eh; [|done].
  cbn [mbind option_bind]. intros E. apply (inj Some), pair_equal_spec in E as [<- ->]. apply handle_view in Eh as (s & ks & H1 & H2 & H3).
  exists s, ks. unfold maybeWriteDrift. cbv zeta. by destruct (drift_candidate _ _ _ _ _ _ _ _ _).
Qed.

(** ** Where the code and its comments part *)

Definition example_engine : Engine :=
  default (mkEngine example_engine_config (New System.example_cfg fzero false) [] [] fzero zeroTime fzero None None None (newLeapPart example_no_leaps zeroTime fzero)
             0 ∅ ∅ ∅ (mkHistory [] ""%string 0) fzero None 0 [])
    (newEngine (K := example_kernel) example_engine_config System.example_cfg fzero false example_specs example_no_leaps 0).

(** The sources of the valid measurements the discipline was given. *)
Definition heard (tr : list effect) : list string :=
  omap (fun f => match f with EffUpdate m => if m_Valid m then Some (m_Source m) else None | _ => None end) tr.

Definition heard_in (e : Engine) (evs : list event) : option (list string) :=
  fmap (fun p => heard (e_trace p.1)) (engine_loop (K := example_kernel) e evs).

(** A measurement sent in the name of a stopped source is refused after its
    first stop, but not after its second: [sourceStopped] leaves the restarting
    mark of the run that delivered nothing, so the guard of [stale] is off. *)
Theorem restart_mark_survives_stop :
  let m := stamped 3 2 (lit 1 1000) in
  let stop := EvStopped "a"%string None [] in
  heard_in example_engine [stop; EvSend m; EvMeasure] = Some [] /\
  heard_in example_engine [stop; EvRestarting "a"%string; stop; EvSend m; EvMeasure] = Some ["a"%string].
Proof. vm_compute. auto. Qed.

(** [dropQueued] can reorder the measurements of another source: the ones kept
    are put back behind one sent while the queue was drained. *)
Theorem drop_queued_reorders :
  let b k := (stamped k 2 fzero) <| m_Source := "b"%string |> in
  e_meas (dropQueued (example_engine <| e_meas := [b 1; stamped 2 2 fzero; b 3] |>) "a"%string [[b 4]]) = [b 4; b 1; b 3].
Proof. vm_compute. reflexivity. Qed.

(** An engine whose armed leap has just passed. *)
Definition example_armed : Engine :=
  let p := (e_leap example_engine) <| lp_pending := unixTime 1767225602 0 |> <| lp_pendingKind := LeapInsert |> in
  example_engine <| e_leap := p |>.

Definition effect_kind (f : effect) : string :=
  match f with
  | EffFrequency _ _ => "frequency" | EffStep _ _ => "step" | EffStatus _ _ => "status" | EffEpoch _ => "epoch" | EffReset => "reset"
  | EffPublish _ => "publish" | EffOffer _ => "offer" | EffUpdate _ => "update"
  end%string.

(** A tick and a measurement process a leap that has passed before they feed
    the discipline; the revocation of a stopped source is fed first. *)
Theorem stop_feeds_before_leap :
  let kinds ev := fmap (fun p => rev (effect_kind <$> e_trace p.1)) (engine_event (K := example_kernel) (example_armed <| e_meas := [stamped 3 4 fzero] |>) ev) in
  kinds EvMeasure = Some ["publish"; "epoch"; "reset"; "epoch"; "update"; "status"; "publish"]%string /\
  kinds (EvStopped "a"%string None []) = Some ["publish"; "update"; "epoch"; "reset"; "epoch"; "status"; "publish"]%string.
Proof. vm_compute. auto. Qed.

(** ** Witnesses *)

Lemma example_run_ends :
  match newEngine (K := example_kernel) example_engine_config System.example_cfg fzero false example_specs example_no_leaps 0 with
  | Some e => match engine_run (K := example_kernel) e example_events with Some (_, err) => Some err | None => None end
  | None => None
  end = Some None.
Proof. vm_compute. reflexivity. Qed.

Lemma example_run_is e :
  newEngine (K := example_kernel) example_engine_config System.example_cfg fzero false example_specs example_no_leaps 0 = Some e ->
  exists e', engine_run (K := example_kernel) e example_events = Some (e', None).
Proof.
  intros He. pose proof example_run_ends as H. rewrite He in H. destruct (engine_run e example_events) as [[e' err]|]; [|discriminate H].
  apply (inj Some) in H. subst err. eauto.
Qed.

Lemma example_new_is :
  exists e, newEngine (K := example_kernel) example_engine_config System.example_cfg fzero false example_specs example_no_leaps 0 = Some e.
Proof. destruct (newEngine _ _ _ _ _ _ _) eqn:E; [eauto|]. exfalso. revert E. vm_compute. discriminate. Qed.

Lemma engine_clock_forward_witness :
  exists e e', newEngine (K := example_kernel) example_engine_config System.example_cfg fzero false example_specs example_no_leaps 0 = Some e /\
    engine_run (K := example_kernel) e example_events = Some (e', None) /\
    StronglySorted (fun newer older => fle older newer = true) (stamps (e_trace e')).
Proof.
  destruct example_new_is as [e He]. destruct (example_run_is e He) as [e' Hr]. exists e, e'. split; [exact He|]. split; [exact Hr|].
  apply (engine_clock_forward (K := example_kernel) example_engine_config System.example_cfg fzero false example_specs example_no_leaps 0 e example_events e' None);
    [|exact He|exact Hr]. intros n. apply of_Z_not_nan.
Defined.

Lemma base_frequency_left_witness :
  exists e e', newEngine (K := example_kernel) example_engine_config System.example_cfg fzero false example_specs example_no_leaps 0 = Some e /\
    engine_run (K := example_kernel) e example_events = Some (e', None) /\
    ((exists b, accepted_word (e_trace e') = Some b /\ (b = Freq (loop (e_sys e')) \/ feq b (Freq (loop (e_sys e'))) = true)) \/
     (exists post pre, e_trace e' = post ++ EffFrequency (Freq (loop (e_sys e'))) false :: pre /\ Forall (fun f => is_frequency f = false) post)).
Proof.
  destruct example_new_is as [e He]. destruct (example_run_is e He) as [e' Hr]. exists e, e'. split; [exact He|]. split; [exact Hr|].
  exact (base_frequency_left (K := example_kernel) example_engine_config System.example_cfg fzero false example_specs example_no_leaps 0 e example_events e' None He Hr).
Defined.

(** A queued measurement of the source that stops. *)
Definition example_queued : Engine := example_engine <| e_meas := [stamped 3 2 (lit 1 1000)] |>.

Lemma example_stop_runs :
  match engine_loop (K := example_kernel) example_queued [EvStopped "a"%string None []; EvMeasure; EvTick] with Some (_, err) => Some err | None => None end = Some None.
Proof. vm_compute. reflexivity. Qed.

Lemma stopped_source_silent_witness :
  exists e' new, engine_loop (K := example_kernel) example_queued [EvStopped "a"%string None []; EvMeasure; EvTick] = Some (e', None) /\
    e_trace e' = new ++ e_trace example_queued /\ forall m, In (EffUpdate m) new -> m_Source m = "a"%string -> m_Valid m = false.
Proof.
  pose proof example_stop_runs as H.
  destruct (engine_loop (K := example_kernel) example_queued [EvStopped "a"%string None []; EvMeasure; EvTick]) as [[e' err]|] eqn:E; [|discriminate H].
  apply (inj Some) in H. subst err.
  destruct (stopped_source_silent (K := example_kernel) example_queued "a"%string None [] [EvMeasure; EvTick] e' None) as (new & H1 & H2).
  - apply (bool_decide_eq_true_1 _). vm_compute. reflexivity.
  - constructor.
  - repeat constructor.
  - exact E.
  - exists e', new. split; [reflexivity|]. split; [exact H1|exact H2].
Defined.

Lemma example_tick_runs :
  match engine_event (K := example_kernel) example_engine EvTick with Some (_, err) => Some err | None => None end = Some None.
Proof. vm_compute. reflexivity. Qed.

Lemma tick_tells_kernel_witness :
  exists e' s ks, engine_event (K := example_kernel) example_engine EvTick = Some (e', None) /\ e_status e' = Some s /\ e_lastKernel e' = Some ks /\ kernel_view ks (es_sys s).
Proof.
  pose proof example_tick_runs as H. destruct (engine_event (K := example_kernel) example_engine EvTick) as [[e' err]|] eqn:E; [|discriminate H].
  apply (inj Some) in H. subst err. destruct (tick_tells_kernel (K := example_kernel) example_engine e' E) as (s & ks & H1 & H2 & H3).
  exists e', s, ks. split; [reflexivity|]. split; [exact H1|]. split; [exact H2|exact H3].
Defined.
