(* ===== verification/LeapSeed.v ===== *)
(** * internal/leap/seed.go, and seed.json of store.go

    One conditional request to the publisher: what is asked for, and what the
    answer is taken to mean.  The transport gives a response or fails; the
    header date syntax and JSON are parameters. *)

From stdpp Require Import base list numbers strings.
From Stdlib Require Import Lia ZArith.
From S2P Require Import Prelude GoTime GoDate GoStrings LeapTable LeapDisk LeapStore.

Local Open Scope Z_scope.

(** ** Publishers *)

Record Seed : Type := mkSeed { sd_Kind : string; sd_URL : string }.

Definition SeedFor (mode : string) : option Seed :=
  if bool_decide (mode = "nist"%string) then Some (mkSeed "nist" "https://tf.nist.gov/leap-seconds.list")
  else if bool_decide (mode = "iers"%string) then Some (mkSeed "iers" "https://hpiers.obspm.fr/iers/bul/bulc/ntp/leap-seconds.list")
  else None.

(** ** Validators *)

Record Validators : Type := mkValidators { va_ETag : str; va_LastModified : str }.

#[export] Instance Validators_eq_dec : EqDecision Validators.
Proof. solve_decision. Defined.

Definition maxValidatorLength : Z := 256.

(** [strings.ContainsAny(s, "\r\n")]. *)
Definition has_newline (s : str) : bool := existsb (fun c => (c =? 13) || (c =? 10)) s.

Definition validators_valid (v : Validators) : bool :=
  (Z.of_nat (length (va_ETag v)) <=? maxValidatorLength) && (Z.of_nat (length (va_LastModified v)) <=? maxValidatorLength) &&
  negb (has_newline (va_ETag v)) && negb (has_newline (va_LastModified v)).

Definition noValidators : Validators := mkValidators [] [].

(** ** The answer *)

Record SeedResult : Type := mkSeedResult { sr_Object : option Object; sr_Validators : Validators; sr_NotModified : bool }.

Inductive SeedFailure : Type :=
| SeedNoHTTPS
| SeedNoAgent
| SeedTransport                                     (* client.Do *)
| SeedUnasked                                       (* 304 to an unconditional request *)
| SeedStatus (status : Z) (retryAfter : duration)   (* SeedError *)
| SeedEncoded
| SeedTooBig
| SeedRead                                          (* the body breaks off *)
| SeedBody (r : Reason).

(** [SeedError.clientError]. *)
Definition clientError (status : Z) : bool :=
  (400 <=? status) && (status <? 500) && negb (status =? 429) && negb (status =? 408) && negb (status =? 425).

Definition maxRetryAfter : duration := 7 * 24 * Hour.

Record HttpResponse : Type := mkHttpResponse {
  hr_StatusCode : Z;
  hr_ETag : str; hr_LastModified : str; hr_RetryAfter : str; hr_ContentEncoding : str;
  hr_ContentLength : Z;
  hr_Body : list Z;
  hr_ReadFails : bool
}.

(** "identity". *)
Definition identity_coding : str := [105; 100; 101; 110; 116; 105; 116; 121].

Section Fetch.

(** [http.ParseTime]. *)
Context (ParseTime : str -> option time).

Definition parseRetryAfter (value : str) (now : time) : duration :=
  let value := TrimSpace value in
  if (length value =? 0)%nat then 0
  else
    match Atoi value with
    | Some seconds =>
        if seconds <=? 0 then 0
        else if maxRetryAfter / Second <? seconds then maxRetryAfter
        else Z.max 0 (Z.min (seconds * Second) maxRetryAfter)
    | None =>
        match ParseTime value with
        | Some at_ => Z.max 0 (Z.min (Sub at_ now) maxRetryAfter)
        | None => 0
        end
    end.

(** Whether the request carries a validator. *)
Definition conditional (v : Validators) : bool :=
  validators_valid v && (negb (length (va_ETag v) =? 0)%nat || negb (length (va_LastModified v) =? 0)%nat).

(** The validators of a 304: the ones sent stand in for the ones left out. *)
Definition kept (got v : Validators) : Validators :=
  mkValidators (if (length (va_ETag got) =? 0)%nat then va_ETag v else va_ETag got)
    (if (length (va_LastModified got) =? 0)%nat then va_LastModified v else va_LastModified got).

(** [fetchSeed]; [response] is none when the transport fails. *)
Definition fetchSeed (https : bool) (userAgent : str) (v : Validators) (response : option HttpResponse) (now : time)
  : result SeedFailure SeedResult :=
  if negb https then Err SeedNoHTTPS
  else if (length userAgent =? 0)%nat then Err SeedNoAgent
  else
    match response with
    | None => Err SeedTransport
    | Some res =>
        let got := mkValidators (hr_ETag res) (hr_LastModified res) in
        let got := if negb (validators_valid got) then noValidators else got in
        if hr_StatusCode res =? 304 then
          if negb (conditional v) then Err SeedUnasked
          else Ok (mkSeedResult None (kept got v) true)
        else if negb (hr_StatusCode res =? 200) then
          Err (SeedStatus (hr_StatusCode res) (parseRetryAfter (hr_RetryAfter res) now))
        else if negb (length (hr_ContentEncoding res) =? 0)%nat && negb (bool_decide (hr_ContentEncoding res = identity_coding)) then Err SeedEncoded
        else if MaxFileSize <? hr_ContentLength res then Err SeedTooBig
        else if hr_ReadFails res then Err SeedRead
        else
          match ReadObject (hr_Body res) with
          | Err e => Err (SeedBody e)
          | Ok o => Ok (mkSeedResult (Some o) got false)
          end
    end.

(** ** What an answer is worth *)

Lemma parseRetryAfter_range value now : 0 <= parseRetryAfter value now <= maxRetryAfter.
Proof.
  assert (0 <= maxRetryAfter) by (by vm_compute). unfold parseRetryAfter. cbv zeta. case_goal; [lia|].
  destruct (Atoi (TrimSpace value)) as [n|]; [|destruct (ParseTime (TrimSpace value)); lia]. repeat case_goal; lia.
Qed.

Lemma kept_valid got v : validators_valid got = true -> validators_valid v = true -> validators_valid (kept got v) = true.
Proof.
  unfold validators_valid, kept. cbn [va_ETag va_LastModified]. rewrite !andb_true_iff. intros (((A1 & A2) & A3) & A4) (((B1 & B2) & B3) & B4).
  repeat case_goal; by repeat split.
Qed.

(** A publisher's answer never counts for more than it says.  A table
    comes only out of a 200 whose body parses whole, at most 64 KiB of it, and
    is that body's; "not modified" only from a 304 to a request that carried a
    validator; the validators kept for the next request are always within
    bounds and free of line breaks; and a demanded pause is never negative nor
    longer than a week. *)
Theorem seed_fetch_sound https ua v response now :
  match fetchSeed https ua v response now with
  | Ok r =>
      https = true /\ validators_valid (sr_Validators r) = true /\
      exists res, response = Some res /\
      (if sr_NotModified r then hr_StatusCode res = 304 /\ conditional v = true /\ sr_Object r = None
       else hr_StatusCode res = 200 /\
         exists o, sr_Object r = Some o /\ NewObject (ob_data o) = Ok o /\ ob_data o = hr_Body res /\ Z.of_nat (length (hr_Body res)) <= MaxFileSize)
  | Err (SeedStatus status wait) => status <> 200 /\ status <> 304 /\ 0 <= wait <= maxRetryAfter
  | Err _ => True
  end.
Proof.
  unfold fetchSeed. destruct https; cbn [negb]; [|done]. case_goal; [done|]. destruct response as [res|]; [|done]. cbv zeta.
  set (got := if negb (validators_valid _) then _ else _).
  assert (validators_valid got = true) as Hg by (unfold got; destruct (validators_valid _) eqn:E; done). clearbody got.
  destruct (hr_StatusCode res =? 304) eqn:E3; bool_step.
  - destruct (conditional v) eqn:Ec; cbn [negb]; [|done]. split; [done|]. cbn [sr_Validators sr_NotModified sr_Object].
    split; [|by exists res]. apply kept_valid; [done|]. unfold conditional in Ec. by apply andb_true_iff in Ec as [? _].
  - destruct (hr_StatusCode res =? 200) eqn:E2; bool_step; cbn [negb]; [|split; [done|]; split; [done|]; apply parseRetryAfter_range].
    case_goal; [done|]. case_goal; [done|]. destruct (hr_ReadFails res); [done|]. destruct (ReadObject (hr_Body res)) as [o|e] eqn:Er; [|done]. cbn [sr_Validators sr_NotModified sr_Object].
    split; [done|]. split; [done|]. exists res. split; [done|]. split; [done|]. exists o. split; [done|]. unfold ReadObject in Er.
    pose proof (NewObject_data _ _ Er) as Hd. assert (Z.of_nat (length (hr_Body res)) <= MaxFileSize) as Hl.
    { unfold NewObject in Er. case_in Er; [done|]. bool_step. bool_step. rewrite length_take in *. unfold MaxFileSize in *. lia. }
    assert (take (Z.to_nat (MaxFileSize + 1)) (hr_Body res) = hr_Body res) as Ht by (apply take_ge; unfold MaxFileSize in *; lia).
    rewrite Ht in *. rewrite Hd. done.
Qed.

End Fetch.

(** ** seed.json *)

Record SeedState : Type := mkSeedState { se_Validators : Validators; se_LastAttempt : time }.

#[export] Instance SeedState_eta : Eta SeedState := fun s => mkSeedState (se_Validators s) (se_LastAttempt s).

Definition zeroSeedState : SeedState := mkSeedState noValidators zeroTime.

Record diskSeed : Type := mkDiskSeed { dk_Version : Z; dk_ETag : str; dk_LastModified : str; dk_LastAttempt : time }.

Inductive SeedStoreError : Type := SeedStoreRead (e : ReadError) | SeedStoreDecode | SeedStoreVersion | SeedStoreValidators | SeedStoreDate | SeedStoreWrite.

Section Bookkeeping.

Context (marshal : diskSeed -> list Z) (unmarshal : list Z -> option diskSeed).

(** [LoadSeed]. *)
Definition LoadSeed (dir : Directory) : result SeedStoreError SeedState :=
  match read_entry (entry_of dir seed_json) maxSeedSize with
  | Err e => Err (SeedStoreRead e)
  | Ok None => Ok zeroSeedState
  | Ok (Some b) =>
      match unmarshal b with
      | None => Err SeedStoreDecode
      | Some d =>
          if negb (dk_Version d =? 1) then Err SeedStoreVersion
          else
            let v := mkValidators (dk_ETag d) (dk_LastModified d) in
            if negb (validators_valid v) then Err SeedStoreValidators
            else if negb (IsZero (dk_LastAttempt d)) && negb (year_known (dk_LastAttempt d)) then Err SeedStoreDate
            else Ok (mkSeedState v (dk_LastAttempt d))
      end
  end.

Definition encode_seed (s : SeedState) : diskSeed :=
  mkDiskSeed 1 (va_ETag (se_Validators s)) (va_LastModified (se_Validators s)) (se_LastAttempt s).

(** [SaveSeed]. *)
Definition SaveSeed (d : Directory) (s : SeedState) (w : WriteEnv) : Directory * list Directory * bool :=
  if negb (validators_valid (se_Validators s)) then (d, [], false) else store_write d seed_json (marshal (encode_seed s)) w.

(** What is saved is what is loaded, as long as the file stays within bounds;
    a failed save leaves the old file or the new one, and the authority's file
    is never touched. *)
Theorem seed_roundtrip d s w d' ds ok :
  (forall x, unmarshal (marshal x) = Some x) -> Z.of_nat (length (marshal (encode_seed s))) <= maxSeedSize ->
  validators_valid (se_Validators s) = true -> se_LastAttempt s = zeroTime \/ 1900 <= Year (se_LastAttempt s) <= 9999 ->
  SaveSeed d s w = (d', ds, ok) ->
  (entry_of d' seed_json = entry_of d seed_json \/ LoadSeed d' = Ok s) /\ (ok = true -> LoadSeed d' = Ok s) /\
  entry_of d' state_json = entry_of d state_json.
Proof.
  intros Hj Hl Hv Hd. unfold SaveSeed. rewrite Hv. cbn [negb]. intros E.
  assert (entry_of d' seed_json = Some (private_file (marshal (encode_seed s)) true) -> LoadSeed d' = Ok s) as H.
  { intros He. unfold LoadSeed. rewrite He, read_private, Hj by done. destruct s as [[etag lm] at_].
    cbn [encode_seed dk_Version dk_ETag dk_LastModified dk_LastAttempt se_Validators se_LastAttempt va_ETag va_LastModified] in *.
    cbn [Z.eqb Pos.eqb negb]. rewrite Hv. cbn [negb]. apply bound_date_spec in Hd. by rewrite Hd. }
  split; [|split].
  - destruct (write_entry _ _ _ _ _ _ _ seed_json E) as [?|[_ ?]]; [intros n; apply temp_not_target|by left|right; by apply H].
  - intros ->. apply H. apply (write_done _ _ _ _ _ _ E). intros n. apply temp_not_target.
  - by destruct (write_entry _ _ _ _ _ _ _ state_json E) as [?|[? _]]; [intros n; apply temp_not_target|..].
Qed.

End Bookkeeping.

(** ** Example *)

Example seed_not_modified :
  fetchSeed (fun _ => None) true [99] (mkValidators [97] []) (Some (mkHttpResponse 304 [] [] [] [] 0 [] false)) zeroTime =
  Ok (mkSeedResult None (mkValidators [97] []) true).
Proof. vm_compute. reflexivity. Qed.
