(* ===== verification/LeapFetch.v ===== *)
(** * internal/leap/fetch.go: learning a table from a peer

    A probe and a chunk per request over a connected socket, each retried up to
    three times.  The network is an input: for every request and attempt, the
    random bytes drawn, whether the calls succeed, the datagrams read in order
    and what ended the reads. *)

From stdpp Require Import base list numbers strings.
From Stdlib Require Import Lia ZArith.
From S2P Require Import Prelude Float64 GoTime NtpTime NtpPacket Auth Exchange GoDate Sha256 LeapTable LeapWire LeapStore.

Local Open Scope Z_scope.

(** [PeerError]; the reason is the kiss code or none for an unsupported peer. *)
Record PeerError : Type := mkPeerError {
  pe_Kiss : option (list Z);
  pe_RetryAfter : duration;
  pe_MinInterval : duration;
  pe_Stop : bool
}.

Inductive FetchError : Type :=
| FetchAuth
| FetchCorrelation
| FetchTimeout
| FetchMissing
| FetchChanged
| FetchDigest
| FetchRate
| FetchReason (r : Reason)
| FetchWire (e : WireError)
| FetchPeer (e : PeerError)
| FetchIO
| FetchCancelled.

(** "RATE", "DENY", "RSTR". *)
Definition kissRATE : list Z := [82; 65; 84; 69].
Definition kissDENY : list Z := [68; 69; 78; 89].
Definition kissRSTR : list Z := [82; 83; 84; 82].

(** ** CheckManifest *)

Definition CheckManifest (old : option Object) (m : Manifest) (now : time) : option Reason :=
  if negb (manifest_valid m) then Some ReasonMetadata
  else if IsZero now then Some ReasonTimeUnknown
  else
    let u := default zeroTime (Date (mf_Updated m)) in
    let e := default zeroTime (Date (mf_Expires m)) in
    if negb (Before now e) then Some ReasonExpired
    else if After u (Add now (5 * Minute)) || After e (Add now (400 * 24 * Hour)) then Some ReasonDate
    else
      match old with
      | Some o =>
          let om := ob_manifest o in
          if bool_decide (m = om) then None
          else if (mf_Updated m <? mf_Updated om) || (mf_Expires m <? mf_Expires om) then Some ReasonRollback
          else if (mf_Updated m =? mf_Updated om) && (mf_Expires m =? mf_Expires om) then Some ReasonConflict
          else None
      | None => None
      end.

Section Fetch.
Context `{BlockCipher}.

(** ** A reply *)

(** The pause a kiss demands. *)
Definition kiss_error (p : Packet) : PeerError :=
  let code := KissCode p in
  let rate := bool_decide (code = kissRATE) in
  let wait := if rate then duration_of (fmul (Log2Seconds (Z.min (Z.max (Poll p) 2) 17)) (of_Z Second)) else 24 * Hour in
  mkPeerError (Some code) wait (if rate then wait else 0) (bool_decide (code = kissDENY) || bool_decide (code = kissRSTR)).

(** [checkReply]: none is a panic of the block cipher on a key of the wrong
    length. *)
Definition checkReply (buf : list Z) (key : Key) (origin : Z) (req : Message) : option (result FetchError Message) :=
  match Decode buf with
  | Err _ => Some (Err FetchAuth)
  | Ok (p, None, _) => Some (Err FetchAuth)
  | Ok (p, Some mac, offset) =>
      verified ← Key_Verify key (take offset buf) (Some mac);
      Some (
        if negb verified then Err FetchAuth
        else if negb (pVersion p =? 4) || negb (Mode p =? ModeServer) || negb (OriginTime p =? origin) then Err FetchCorrelation
        else if IsKiss p then Err (FetchPeer (kiss_error p))
        else
          match DecodeFields (slice HeaderSize offset buf) with
          | Err Unsupported | Ok None => Err (FetchPeer (mkPeerError None (24 * Hour) 0 false))
          | Err e => Err (FetchWire e)
          | Ok (Some m) =>
              if negb (bool_decide (MsgID m = MsgID req)) || negb (Operation m =? Operation req + 1) then Err FetchCorrelation
              else if (Operation req =? Get) && (negb (bool_decide (mManifest m = mManifest req)) || negb (mOffset m =? mOffset req))
              then Err FetchCorrelation
              else Ok m
          end)
  end.

(** ** One request *)

Inductive read_end : Type := EndTimeout | EndFailed | EndCancelled.

(** An attempt's circumstances. *)
Record attempt : Type := mkAttempt {
  at_paused : bool;             (* the pauses were not cancelled *)
  at_id : option (list Z);      (* rand.Read of 16 bytes *)
  at_nonce : option (list Z);   (* rand.Read of 8 bytes *)
  at_ready : bool;              (* the deadline was set *)
  at_written : bool;
  at_reads : list (list Z);     (* each cut at ntp.MaxPacketSize + 1 bytes *)
  at_end : read_end
}.

Definition with_id (m : Message) (id : list Z) : Message :=
  mkMessage (Operation m) (mResult m) id (mManifest m) (mOffset m) (mCount m) (mData m).

(** The identifier, never zero. *)
Definition request_id (b : list Z) : list Z :=
  if bool_decide (b = replicate 16 0) then 1 :: drop 1 b else b.

Definition request_nonce (b : list Z) : Z := let x := be_decode b in if x =? 0 then 1 else x.

Definition request_header (xmit : Z) : Packet := mkPacket LeapUnsync 4 ModeClient 0 2 0 0 0 zeroRefID 0 0 0 xmit.

(** The datagrams of one attempt: the answer, an error that ends the request,
    or none of them was for us. *)
Fixpoint read_replies (key : Key) (origin : Z) (req : Message) (reads : list (list Z)) : option (option (result FetchError Message)) :=
  match reads with
  | [] => Some None
  | buf :: reads =>
      if (1500 <? length buf)%nat then read_replies key origin req reads
      else
        r ← checkReply buf key origin req;
        match r with
        | Ok m => Some (Some (Ok m))
        | Err (FetchPeer e) => Some (Some (Err (FetchPeer e)))
        | Err _ => read_replies key origin req reads
        end
  end.

(** One attempt: an outcome, or none when the next attempt is due. *)
Definition try_once (key : Key) (req : Message) (a : attempt) : option (option (result FetchError Message)) :=
  if negb (at_paused a) then Some (Some (Err FetchCancelled))
  else
    match at_id a, at_nonce a with
    | Some id, Some nonce =>
        let req := with_id req (request_id id) in
        let xmit := request_nonce nonce in
        match Message_AppendTo req (Marshal (request_header xmit)) with
        | Err e => Some (Some (Err (FetchWire e)))
        | Ok buf =>
            _ ← Key_Append key buf;
            if negb (at_ready a) || negb (at_written a) then Some (Some (Err FetchIO))
            else
              r ← read_replies key xmit req (at_reads a);
              Some match r with
                   | Some r => Some r
                   | None => match at_end a with
                             | EndTimeout => None
                             | EndFailed => Some (Err FetchIO)
                             | EndCancelled => Some (Err FetchCancelled)
                             end
                   end
        end
    | _, _ => Some (Some (Err FetchIO))
    end.

(** [exchange] of a peer client. *)
Fixpoint request_loop (key : Key) (req : Message) (attempts : list attempt) : option (result FetchError Message) :=
  match attempts with
  | [] => Some (Err FetchTimeout)
  | a :: attempts =>
      r ← try_once key req a;
      match r with Some r => Some r | None => request_loop key req attempts end
  end.

Definition leap_exchange (key : Key) (req : Message) (net : nat -> attempt) : option (result FetchError Message) :=
  request_loop key req (net <$> seq 0 3).

(** ** The transfer *)

Definition probe_request (cached : option Object) : Message :=
  mkMessage Probe OK zeroID (match cached with Some o => ob_manifest o | None => zeroManifest end) 0 0 [].

Definition chunk_request (mf : Manifest) (offset : Z) : Message :=
  mkMessage Get OK zeroID mf offset (Z.of_nat ChunkSize) [].

(** The chunks from index [i] on; [net k] is the network of the k-th request. *)
Fixpoint fetch_chunks (key : Key) (mf : Manifest) (n i : nat) (net : nat -> nat -> attempt) : option (result FetchError (list Z)) :=
  match n with
  | O => Some (Ok [])
  | S n =>
      r ← leap_exchange key (chunk_request mf (Z.of_nat (ChunkSize * i))) (net (S i));
      match r with
      | Err e => Some (Err e)
      | Ok m =>
          if negb (mResult m =? OK) then Some (Err FetchChanged)
          else
            rest ← fetch_chunks key mf n (S i) net;
            Some match rest with Ok data => Ok (mData m ++ data) | Err e => Err e end
      end
  end.

Definition chunk_count (mf : Manifest) : nat := Z.to_nat ((mf_Size mf + Z.of_nat ChunkSize - 1) / Z.of_nat ChunkSize).

(** [fetch] on a connected socket; the result is none when the peer holds the
    cached object. *)
Definition client_fetch (key : Key) (spacing : duration) (cached : option Object) (now : time) (net : nat -> nat -> attempt)
  : option (result FetchError (option Object)) :=
  r ← leap_exchange key (probe_request cached) (net O);
  match r with
  | Err e => Some (Err e)
  | Ok manifest =>
      let spacing := Z.min spacing (4 * Second) in
      if mResult manifest =? NoTable then Some (Err FetchMissing)
      else
        let mf := mManifest manifest in
        match CheckManifest cached mf now with
        | Some e => Some (Err (FetchReason e))
        | None =>
            if match cached with Some o => bool_decide (mf = ob_manifest o) | None => false end then Some (Ok None)
            else if 30 * Minute <=? Z.of_nat (chunk_count mf) * spacing then Some (Err FetchRate)
            else
              data ← fetch_chunks key mf (chunk_count mf) 0 net;
              Some match data with
                   | Err e => Err e
                   | Ok data =>
                       match NewObject data with
                       | Err e => Err (FetchReason e)
                       | Ok o => if negb (bool_decide (ob_manifest o = mf)) then Err FetchDigest else Ok (Some o)
                       end
                   end
        end
  end.

(** [Peer.fetch]; [dialled] is whether the socket opened. *)
Definition peer_fetch (key : Key) (spacing : duration) (cached : option Object) (now : time) (dialled : bool) (net : nat -> nat -> attempt)
  : option (result FetchError (option Object)) :=
  if (ID key =? 0) || negb (length (Secret key) =? 16)%nat then Some (Err FetchAuth)
  else if negb dialled then Some (Err FetchIO)
  else client_fetch key spacing cached now net.

(** ** What a fetched table rests on *)

(** A datagram that answers the request: sealed with the key, echoing the
    nonce, the identifier and, for a chunk, the object and the offset. *)
Record authentic (key : Key) (origin : Z) (req : Message) (buf : list Z) (m : Message) : Prop := {
  au_sealed : exists p mac off, Decode buf = Ok (p, Some mac, off) /\ Key_Verify key (take off buf) (Some mac) = Some true /\
    pVersion p = 4 /\ Mode p = ModeServer /\ OriginTime p = origin /\ DecodeFields (slice HeaderSize off buf) = Ok (Some m);
  au_id : MsgID m = MsgID req /\ Operation m = Operation req + 1;
  au_chunk : Operation req = Get -> mManifest m = mManifest req /\ mOffset m = mOffset req;
  au_valid : validate m = true
}.

Lemma checkReply_authentic buf key origin req m : checkReply buf key origin req = Some (Ok m) -> authentic key origin req buf m.
Proof.
  unfold checkReply. destruct (Decode buf) as [[[p [mac|]] off]|] eqn:Ed; [|done|done].
  destruct (Key_Verify key (take off buf) (Some mac)) as [[|]|] eqn:Ev; cbn [mbind option_bind negb]; [|done|done].
  destruct (negb (pVersion p =? 4) || negb (Mode p =? ModeServer) || negb (OriginTime p =? origin)) eqn:Eh; [done|].
  destruct (IsKiss p); [done|]. destruct (DecodeFields (slice HeaderSize off buf)) as [[m'|]|[]] eqn:Ef; try done.
  destruct (negb (bool_decide (MsgID m' = MsgID req)) || negb (Operation m' =? Operation req + 1)) eqn:Ei; [done|].
  destruct (Operation req =? Get) eqn:Eg; cbn [andb].
  - destruct (negb (bool_decide (mManifest m' = mManifest req)) || negb (mOffset m' =? mOffset req)) eqn:Ec; [done|].
    intros E. apply (inj Some) in E. assert (m' = m) as -> by congruence. repeat bool_step.
    constructor; try done; [by exists p, mac, off|by eapply decode_loop_valid; [|exact Ef]].
  - intros E. apply (inj Some) in E. assert (m' = m) as -> by congruence. repeat bool_step.
    constructor; try done; [by exists p, mac, off|by eapply decode_loop_valid; [|exact Ef]].
Qed.

(** A reply that came in for some attempt of the request. *)
Definition answered (key : Key) (req : Message) (net : nat -> attempt) (m : Message) : Prop :=
  exists k id nonce buf, (k < 3)%nat /\ at_id (net k) = Some id /\ at_nonce (net k) = Some nonce /\ buf ∈ at_reads (net k) /\
    authentic key (request_nonce nonce) (with_id req (request_id id)) buf m.

Lemma read_replies_authentic key origin req reads m :
  read_replies key origin req reads = Some (Some (Ok m)) -> exists buf, buf ∈ reads /\ authentic key origin req buf m.
Proof.
  induction reads as [|buf reads IH]; cbn [read_replies]; [done|]. case_goal; [intros H1; destruct (IH H1) as (b & ? & ?); exists b; split; [by right|done]|].
  destruct (checkReply buf key origin req) as [[m'|e]|] eqn:E; cbn [mbind option_bind]; [| |done].
  - intros E1. assert (m' = m) as -> by congruence. exists buf. split; [by left|]. by apply checkReply_authentic.
  - destruct e; try done; intros H1; destruct (IH H1) as (b & ? & ?); exists b; (split; [by right|done]).
Qed.

Lemma try_once_answered key req net k m :
  (k < 3)%nat -> try_once key req (net k) = Some (Some (Ok m)) -> answered key req net m.
Proof.
  intros Hk. unfold try_once. case_goal; [done|]. destruct (at_id (net k)) as [id|] eqn:Ei; [|done]. destruct (at_nonce (net k)) as [nonce|] eqn:En; [|done].
  destruct (Message_AppendTo _ _); [|done]. destruct (Key_Append key _); [|done]. cbn [mbind option_bind]. case_goal; [done|].
  destruct (read_replies _ _ _ _) as [[r|]|] eqn:Er; cbn [mbind option_bind]; [|destruct (at_end (net k)); done|done].
  intros E. assert (r = Ok m) as -> by congruence. apply read_replies_authentic in Er as (buf & Hb & Ha). exists k, id, nonce, buf. done.
Qed.

Lemma exchange_answered key req net m : leap_exchange key req net = Some (Ok m) -> answered key req net m.
Proof.
  unfold leap_exchange. assert (forall ks, Forall (fun k => (k < 3)%nat) ks -> request_loop key req (net <$> ks) = Some (Ok m) -> answered key req net m) as Hl.
  { induction 1 as [|k ks Hk _ IH]; cbn [fmap list_fmap request_loop]; [done|].
    destruct (try_once key req (net k)) as [[r|]|] eqn:E; cbn [mbind option_bind]; [|exact IH|done].
    intros E1. assert (r = Ok m) as -> by congruence. by eapply try_once_answered. }
  apply Hl. repeat constructor; lia.
Qed.

(** The length of a good chunk. *)
Lemma chunk_length m mf i :
  validate m = true -> Operation m = DataOp -> mResult m = OK -> mManifest m = mf -> mOffset m = Z.of_nat (ChunkSize * i) ->
  Z.of_nat (length (mData m)) = Z.min (Z.of_nat ChunkSize) (mf_Size mf - Z.of_nat (ChunkSize * i)).
Proof.
  intros Hv Ho Hr Hm Hof. unfold validate in Hv. rewrite Ho, Hr, Hm, Hof in Hv.
  repeat (case_in Hv; [done|]). cbn [Z.eqb DataOp Probe ManifestReply Get Pos.eqb OK NotFound] in Hv.
  repeat (case_in Hv; [done|]). repeat bool_step. lia.
Qed.

Lemma fetch_chunks_answered key mf n : forall i net data,
  fetch_chunks key mf n i net = Some (Ok data) ->
  exists ms, length ms = n /\ data = concat (mData <$> ms) /\
    forall j m, ms !! j = Some m -> answered key (chunk_request mf (Z.of_nat (ChunkSize * (i + j)))) (net (S (i + j))) m /\ mResult m = OK.
Proof.
  induction n as [|n IH]; intros i net data; cbn [fetch_chunks]; [intros E; assert (data = []) as -> by congruence; exists []; by split|].
  destruct (leap_exchange _ _ _) as [[m|e]|] eqn:Ex; cbn [mbind option_bind]; [|done|done]. destruct (mResult m =? OK) eqn:Er; cbn [negb]; [|done].
  destruct (fetch_chunks key mf n (S i) net) as [[rest|e]|] eqn:Ec; cbn [mbind option_bind]; [|done|done].
  intros E. assert (data = mData m ++ rest) as -> by congruence. apply IH in Ec as (ms & Hl & -> & Hms). exists (m :: ms).
  split; [by cbn; rewrite Hl|]. split; [done|]. intros [|j] m' Hj; cbn in Hj.
  - apply (inj Some) in Hj as <-. rewrite Nat.add_0_r. split; [by apply exchange_answered|by bool_step].
  - rewrite <- Nat.add_succ_comm. by apply Hms.
Qed.

(** Pieces of the full length, but for the last, are the slices of the whole. *)
Lemma concat_slice (size : Z) : forall (ls : list (list Z)) i,
  (forall j l, ls !! j = Some l -> Z.of_nat (length l) = Z.min 256 (size - Z.of_nat (256 * (i + j)))) ->
  forall j l, ls !! j = Some l -> slice (256 * j) (256 * j + 256) (concat ls) = l.
Proof.
  induction ls as [|x ls IH]; intros i Hl j l Hj; [done|]. pose proof (Hl O x eq_refl) as Hx. rewrite Nat.add_0_r in Hx.
  destruct j as [|j]; cbn in Hj.
  - apply (inj Some) in Hj as <-. unfold slice. cbn [concat]. rewrite Nat.mul_0_r, drop_0.
    replace (0 + 256 - 0)%nat with 256%nat by lia. destruct (decide (length x = 256%nat)) as [E|E]; [by apply take_app_length'|].
    destruct ls as [|y ls]; [cbn; rewrite app_nil_r; apply take_ge; lia|]. exfalso. pose proof (Hl 1%nat y eq_refl) as Hy. lia.
  - assert (length x = 256%nat) as E.
    { destruct ls as [|y ls]; [done|]. pose proof (Hl 1%nat y eq_refl) as Hy. lia. }
    assert (slice (256 * j) (256 * j + 256) (concat ls) = l) as H1.
    { apply (IH (S i)); [|done]. intros k m Hk. pose proof (Hl (S k) m Hk) as H2. by rewrite <- Nat.add_succ_comm in H2. }
    rewrite <- H1. unfold slice. cbn [concat]. replace (256 * S j)%nat with (256 + 256 * j)%nat by lia. rewrite <- drop_drop.
    rewrite (drop_app_length' x) by done. f_equal; lia.
Qed.

(** Claim C11: a fetched table is the peer's, whole and current.  When a fetch
    returns an object, its manifest was advertised in a reply to this very probe
    sealed with the peer's key, was valid, unexpired and no older than the
    cached object's at the time; the object is exactly its bytes, whose digest is
    the advertised one; and each of its 256-byte chunks arrived in a reply,
    sealed with the key, to the request for that chunk of that object.  No
    datagram that is not such a reply contributes anything. *)
Theorem fetch_sound key spacing cached now dialled net o :
  peer_fetch key spacing cached now dialled net = Some (Ok (Some o)) ->
  CheckManifest cached (ob_manifest o) now = None /\ (forall c, cached = Some c -> ob_manifest o <> ob_manifest c) /\
  NewObject (ob_data o) = Ok o /\
  (exists m, answered key (probe_request cached) (net O) m /\ mManifest m = ob_manifest o) /\
  (forall i, (i < chunks o)%nat -> exists m, answered key (chunk_request (ob_manifest o) (Z.of_nat (ChunkSize * i))) (net (S i)) m /\ mData m = chunk o i).
Proof.
  unfold peer_fetch. case_goal; [done|]. case_goal; [done|]. unfold client_fetch.
  destruct (leap_exchange key (probe_request cached) (net O)) as [[m|e]|] eqn:Ep; cbn [mbind option_bind]; [|done|done].
  case_goal; [done|]. destruct (CheckManifest cached (mManifest m) now) eqn:Ec; [done|].
  destruct (match cached with Some _ => _ | None => _ end) eqn:Es; [done|]. case_goal; [done|].
  destruct (fetch_chunks key (mManifest m) _ 0 net) as [[data|e]|] eqn:Ef; cbn [mbind option_bind]; [|done|done].
  destruct (NewObject data) as [o'|e] eqn:En; [|done]. destruct (bool_decide (ob_manifest o' = mManifest m)) eqn:Em; cbn [negb]; [|done].
  intros E. assert (o' = o) as -> by congruence. apply bool_decide_eq_true_1 in Em. rewrite <- Em in *. clear E.
  split; [done|]. split; [intros c ->; by apply bool_decide_eq_false_1 in Es|]. pose proof (NewObject_data _ _ En) as Hd. rewrite Hd.
  split; [done|]. split; [exists m; split; [by apply exchange_answered|done]|].
  destruct (NewObject_size _ _ En) as (Hs & _ & _).
  assert (chunk_count (ob_manifest o) = chunks o) as Hcc.
  { unfold chunk_count, chunks, ChunkSize. rewrite Hs, Hd. rewrite <- (Nat2Z.id ((length data + 255) / 256)), Nat2Z.inj_div. f_equal. f_equal. lia. }
  rewrite Hcc in Ef. apply fetch_chunks_answered in Ef as (ms & Hl & -> & Hms). intros i Hi. cbn [Nat.add] in Hms.
  assert (is_Some (ms !! i)) as [x Hx] by (apply lookup_lt_is_Some; lia). exists x. split; [by apply Hms|].
  unfold chunk. rewrite Hd. symmetry. apply (concat_slice (mf_Size (ob_manifest o)) (mData <$> ms) 0).
  - intros j l Hj. rewrite list_lookup_fmap in Hj. destruct (ms !! j) as [y|] eqn:Hy; [|done]. apply (inj Some) in Hj as <-.
    destruct (Hms j y Hy) as [(k & id & nonce & buf & _ & _ & _ & _ & [_ [_ A2] A3 A4]) A5].
    destruct (A3 eq_refl) as [A6 A7]. by apply chunk_length.
  - by rewrite list_lookup_fmap, Hx.
Qed.

(** ** A transfer completes *)

(** An attempt the distributor of [obj] answers, whatever is forged before. *)
Definition honest (key : Key) (obj : Object) (req : Message) (a : attempt) : Prop :=
  exists id nonce p m d forged rest,
    at_paused a = true /\ at_ready a = true /\ at_written a = true /\ at_id a = Some id /\ length id = 16%nat /\ at_nonce a = Some nonce /\
    Reply (Some (with_id req (request_id id))) (Some obj) = Ok m /\
    packet_ok p /\ pVersion p = 4 /\ Mode p = ModeServer /\ OriginTime p = request_nonce nonce /\ Stratum p <> 0 /\
    Key_Append key (Marshal p ++ encode_field m) = Some d /\ at_reads a = forged ++ d :: rest /\
    Forall (fun b => checkReply b key (request_nonce nonce) (with_id req (request_id id)) = Some (Err FetchAuth)) forged.

Lemma request_id_ok id : length id = 16%nat -> request_id id <> zeroID /\ length (request_id id) = 16%nat.
Proof.
  intros Hl. unfold request_id. destruct (decide (id = replicate 16 0)) as [E|E]; [rewrite bool_decide_eq_true_2 by done|rewrite bool_decide_eq_false_2 by done; done].
  split; [done|]. cbn [length]. rewrite length_drop. lia.
Qed.

(** The wire form of an honest reply is taken for what it is. *)
Lemma checkReply_honest key origin req p m d :
  length (Secret key) = KeySize -> in_u 32 (ID key) -> packet_ok p -> pVersion p = 4 -> Mode p = ModeServer -> OriginTime p = origin -> Stratum p <> 0 ->
  message_ok m -> validate m = true -> MsgID m = MsgID req -> Operation m = Operation req + 1 ->
  (Operation req = Get -> mManifest m = mManifest req /\ mOffset m = mOffset req) ->
  Key_Append key (Marshal p ++ encode_field m) = Some d ->
  checkReply d key origin req = Some (Ok m) /\ (length d <= 1500)%nat.
Proof.
  intros Hs Hid Hp Hv Hm Ho Hst Hmo Hval Hmid Hop Hget Ha.
  pose proof (length_encode_field m Hmo Hval) as Hlen. pose proof (length_Marshal p Hp) as Hlm. pose proof (field_length_bounds m Hval) as Hfb.
  pose proof Ha as Ha'. unfold Key_Append in Ha'. destruct (CMAC (Secret key) (Marshal p ++ encode_field m)) as [dg|] eqn:Ec; [|done].
  cbn [mbind option_bind] in Ha'. apply (inj Some) in Ha'. pose proof (CMAC_length _ _ _ Ec) as Hdg.
  assert (Decode d = Ok (p, Some (mkMAC (ID key) dg), (HeaderSize + length (encode_field m))%nat)) as Hd.
  { rewrite <- Ha', <- app_assoc. pose proof (decode_marshalled p [encode_field m] (ID key) dg) as H1. cbn [concat] in H1. rewrite app_nil_r in H1.
    apply H1; [done|lia| |done|by left]. apply List.Forall_cons; [by apply encode_field_ext|apply List.Forall_nil]. }
  assert (take (HeaderSize + length (encode_field m)) d = Marshal p ++ encode_field m) as Ht
    by (rewrite <- Ha'; apply take_app_length'; rewrite length_app; lia).
  split.
  - unfold checkReply. rewrite Hd, Ht. assert (Key_Verify key (Marshal p ++ encode_field m) (Some (mkMAC (ID key) dg)) = Some true) as ->
      by (apply verify_append_iff; [done|]; split; [done|]; by rewrite Ha, <- Ha').
    cbn [mbind option_bind negb]. rewrite Hv, Hm, Ho, !Z.eqb_refl. cbn [negb orb]. unfold IsKiss. apply Z.eqb_neq in Hst. rewrite Hst.
    assert (slice HeaderSize (HeaderSize + length (encode_field m)) d = encode_field m) as ->.
    { rewrite <- Ha', <- app_assoc. unfold slice. rewrite (drop_app_length' (Marshal p)) by done. apply take_app_length'. lia. }
    destruct (clps_roundtrip m [] [] Hmo Hval (List.Forall_nil _) (List.Forall_nil _)) as (b & Hb & _ & Hdf). cbn [concat app] in Hb, Hdf.
    assert (encode_field m = b) as -> by (unfold Message_AppendTo in Hb; rewrite Hval in Hb; cbn [app] in Hb; congruence).
    rewrite app_nil_r in Hdf. rewrite Hdf, Hmid, Hop, bool_decide_eq_true_2, Z.eqb_refl by done. cbn [negb orb].
    destruct (Operation req =? Get) eqn:Eg; [|done]. bool_step. destruct (Hget Eg) as [-> ->]. rewrite bool_decide_eq_true_2, Z.eqb_refl by done. done.
  - rewrite <- Ha', !length_app, length_be_encode, Hlm, Hlen, Hdg. unfold HeaderSize, MaxFieldSize, FieldSize, ChunkSize in *. lia.
Qed.

Lemma read_replies_honest key origin req forged d rest m :
  Forall (fun b => checkReply b key origin req = Some (Err FetchAuth)) forged -> checkReply d key origin req = Some (Ok m) -> (length d <= 1500)%nat ->
  read_replies key origin req (forged ++ d :: rest) = Some (Some (Ok m)).
Proof.
  intros Hf Hd Hl. induction Hf as [|b forged Hb _ IH]; cbn [app read_replies].
  - assert ((1500 <? length d)%nat = false) as -> by (by apply Nat.ltb_ge). by rewrite Hd.
  - case_goal; [done|]. by rewrite Hb.
Qed.

Lemma honest_exchange key obj req net m :
  length (Secret key) = KeySize -> in_u 32 (ID key) ->
  (forall id, id <> zeroID -> length id = 16%nat -> exists r, Reply (Some (with_id req id)) (Some obj) = Ok r /\ message_ok r /\ validate r = true /\
     MsgID r = id /\ Operation r = Operation req + 1 /\ (Operation req = Get -> mManifest r = mManifest req /\ mOffset r = mOffset req) /\ validate (with_id req id) = true /\
     with_id r zeroID = m) ->
  honest key obj req (net O) -> exists r, leap_exchange key req net = Some (Ok r) /\ with_id r zeroID = m.
Proof.
  intros Hs Hk Hrep (id & nonce & p & r & d & forged & rest & H1 & H2 & H3 & H4 & H5 & H6 & H7 & H8 & H9 & H10 & H11 & H12 & H13 & H14 & H15).
  destruct (request_id_ok id H5) as [Hid Hl]. destruct (Hrep _ Hid Hl) as (r' & R1 & R2 & R3 & R4 & R5 & R6 & R7 & R8).
  assert (r' = r) as -> by congruence. exists r. split; [|done].
  destruct (checkReply_honest key (request_nonce nonce) (with_id req (request_id id)) p r d) as [C1 C2]; try done.
  unfold leap_exchange. cbn [seq fmap list_fmap request_loop]. unfold try_once. rewrite H1, H4, H6. cbn [negb]. unfold Message_AppendTo. rewrite R7.
  destruct (Key_Append key (Marshal (request_header (request_nonce nonce)) ++ encode_field (with_id req (request_id id)))) as [b|] eqn:Ea.
  2: { unfold Key_Append in Ea. destruct (CMAC_some (Secret key) (Marshal (request_header (request_nonce nonce)) ++ encode_field (with_id req (request_id id))) Hs) as [dg Hdg].
       rewrite Hdg in Ea. done. }
  cbn [mbind option_bind]. rewrite H2, H3. cbn [negb orb]. rewrite H14, (read_replies_honest _ _ _ forged d rest r); done.
Qed.

(** The widths of an object's manifest. *)
Record wide (mf : Manifest) : Prop := {
  wi_updated : in_u 64 (mf_Updated mf);
  wi_expires : in_u 64 (mf_Expires mf);
  wi_digest : length (mf_Digest mf) = 32%nat;
  wi_size : in_u 32 (mf_Size mf)
}.

Lemma probe_answer obj cached id :
  object_ok obj -> wide (ob_manifest obj) -> (forall c, cached = Some c -> object_ok c) -> id <> zeroID -> length id = 16%nat ->
  let r := mkMessage ManifestReply OK id (ob_manifest obj) 0 0 [] in
  Reply (Some (with_id (probe_request cached) id)) (Some obj) = Ok r /\ message_ok r /\ validate r = true /\ validate (with_id (probe_request cached) id) = true.
Proof.
  intros Ho [W1 W2 W3 W4] Hc Hid Hl r.
  assert (validate (with_id (probe_request cached) id) = true) as Hv.
  { unfold validate, with_id, probe_request. cbn [MsgID mManifest Operation mResult mOffset mCount mData length].
    rewrite bool_decide_eq_false_2 by done. destruct cached as [x|]; [|done].
    rewrite (bool_decide_eq_false_2 (ob_manifest x = zeroManifest)) by (apply object_nonzero; auto). by rewrite (oo_valid _ (Hc x eq_refl)). }
  split; [|split; [|split; [by apply (manifest_reply_valid id (Some obj)); [|intros x [= <-]]|done]]].
  - unfold Reply. rewrite Hv. done.
  - constructor; cbn [r Operation mResult MsgID mManifest mOffset mCount]; try done; unfold in_u; lia.
Qed.

Definition chunk_reply (obj : Object) (i : nat) (id : list Z) : Message :=
  mkMessage DataOp OK id (ob_manifest obj) (Z.of_nat (ChunkSize * i)) (Z.min (Z.of_nat ChunkSize) (mf_Size (ob_manifest obj) - Z.of_nat (ChunkSize * i))) (chunk obj i).

Lemma chunk_answer obj i id :
  object_ok obj -> wide (ob_manifest obj) -> id <> zeroID -> length id = 16%nat -> (256 * i < length (ob_data obj))%nat ->
  let req := with_id (chunk_request (ob_manifest obj) (Z.of_nat (ChunkSize * i))) id in
  Reply (Some req) (Some obj) = Ok (chunk_reply obj i id) /\ message_ok (chunk_reply obj i id) /\ validate (chunk_reply obj i id) = true /\ validate req = true.
Proof.
  intros Ho [W1 W2 W3 W4] Hid Hl Hi req. destruct (get_reply id obj i Ho Hid Hi) as (r & Hr & Hd).
  change (get_request id obj i) with req in Hr.
  destruct (Reply_ok req (Some obj) r) as (V1 & _); [cbn; lia|by intros x [= <-]|done|].
  assert (validate req = true) as Hv by (unfold Reply in Hr; destruct (validate req); [done|done]).
  assert (r = chunk_reply obj i id) as ->.
  { unfold Reply in Hr. rewrite Hv in Hr. cbn [negb req with_id chunk_request Operation mManifest mOffset MsgID Z.eqb Get Probe Pos.eqb] in Hr.
    rewrite bool_decide_eq_true_2 in Hr by done. cbn [negb] in Hr. unfold chunk_reply. rewrite <- Hd. injection Hr as <-. done. }
  split; [done|]. split; [|done]. pose proof (oo_size _ Ho) as Hsz.
  constructor; cbn [chunk_reply Operation mResult MsgID mManifest mOffset mCount]; try done; unfold in_u, ChunkSize, DataOp, OK in *; lia.
Qed.

Lemma NewObject_wide data o : NewObject data = Ok o -> wide (ob_manifest o).
Proof.
  unfold NewObject. case_goal; [done|]. destruct (Parse data); [|done]. case_goal; [done|]. intros E1.
  assert (o = mkObject (mkManifest (dateSeconds (t_Updated a)) (dateSeconds (Expiry a)) (Sum256 data) (u32 (Z.of_nat (length data)))) a data) as -> by congruence.
  cbn [ob_manifest]. constructor; cbn [mf_Updated mf_Expires mf_Digest mf_Size]; [by apply wrapu_range..|apply length_Sum256|by apply wrapu_range].
Qed.

Lemma chunks_bound o i : (i < chunks o)%nat -> (256 * i < length (ob_data o))%nat.
Proof.
  unfold chunks. intros Hi. pose proof (Nat.div_mod_eq (length (ob_data o) + 255) 256). pose proof (Nat.mod_upper_bound (length (ob_data o) + 255) 256). lia.
Qed.

Lemma fetch_chunks_complete key obj net n : forall i,
  length (Secret key) = KeySize -> in_u 32 (ID key) -> object_ok obj -> wide (ob_manifest obj) -> (i + n <= chunks obj)%nat ->
  (forall j, (j < chunks obj)%nat -> honest key obj (chunk_request (ob_manifest obj) (Z.of_nat (ChunkSize * j))) (net (S j) O)) ->
  fetch_chunks key (ob_manifest obj) n i net = Some (Ok (concat (chunk obj <$> seq i n))).
Proof.
  induction n as [|n IH]; intros i Hs Hk Ho Hw Hi Hh; cbn [fetch_chunks seq fmap list_fmap concat]; [done|].
  destruct (honest_exchange key obj (chunk_request (ob_manifest obj) (Z.of_nat (ChunkSize * i))) (net (S i)) (chunk_reply obj i zeroID)) as (r & -> & Hr); [done|done| |apply Hh; lia|].
  - intros id Hid Hl. destruct (chunk_answer obj i id) as (A1 & A2 & A3 & A4); [done|done|done|done|apply chunks_bound; lia|]. exists (chunk_reply obj i id). done.
  - cbn [mbind option_bind]. assert (mResult r = OK /\ mData r = chunk obj i) as [-> ->] by (unfold with_id, chunk_reply in Hr; by injection Hr as _ -> _ _ _ ->).
    cbn [Z.eqb OK negb]. rewrite IH by (done || lia). done.
Qed.

(** The transfer bound never refuses a table: 256 chunks at 4 s. *)
Lemma rate_bound mf spacing : manifest_valid mf = true -> Z.of_nat (chunk_count mf) * Z.min spacing (4 * Second) < 30 * Minute.
Proof.
  intros Hv. assert (mf_Size mf <= 65536) as Hsz.
  { unfold manifest_valid in Hv. destruct (Date (mf_Updated mf)), (Date (mf_Expires mf)); try done. repeat bool_step. unfold MaxFileSize in *. lia. }
  unfold chunk_count, ChunkSize. change (Z.of_nat 256) with 256.
  assert ((mf_Size mf + 256 - 1) / 256 < 257) as Hc by (apply Z.div_lt_upper_bound; lia).
  assert (0 <= Z.of_nat (Z.to_nat ((mf_Size mf + 256 - 1) / 256)) <= 256) as Hn by lia.
  set (n := Z.of_nat _) in *. clearbody n. assert (Z.min spacing (4 * Second) <= 4000000000) as Hm by (change (4 * Second) with 4000000000; lia).
  change (30 * Minute) with 1800000000000. nia.
Qed.

(** Claim C12: a fetch from an honest distributor completes.  If the first
    datagram that authenticates in answer to each request is what the
    distributor's [Reply] makes of it for its table, whatever unauthentic
    datagrams come before, the fetch returns exactly that table, unless the
    advertised manifest is refused or already held. *)
Theorem fetch_complete key spacing cached now net obj :
  ID key <> 0 -> in_u 32 (ID key) -> length (Secret key) = 16%nat -> NewObject (ob_data obj) = Ok obj -> manifest_valid (ob_manifest obj) = true ->
  (forall c, cached = Some c -> object_ok c /\ ob_manifest obj <> ob_manifest c) -> CheckManifest cached (ob_manifest obj) now = None ->
  honest key obj (probe_request cached) (net O O) ->
  (forall i, (i < chunks obj)%nat -> honest key obj (chunk_request (ob_manifest obj) (Z.of_nat (ChunkSize * i))) (net (S i) O)) ->
  peer_fetch key spacing cached now true net = Some (Ok (Some obj)).
Proof.
  intros Hk0 Hk Hs Hn Hv Hc Hcm Hp Hh. pose proof (NewObject_wide _ _ Hn) as Hw. destruct (NewObject_size _ _ Hn) as (Hsz & _ & _).
  assert (object_ok obj) as Ho by (by constructor). unfold peer_fetch. apply Z.eqb_neq in Hk0. rewrite Hk0, Hs. cbn [Nat.eqb negb orb]. unfold client_fetch.
  destruct (honest_exchange key obj (probe_request cached) (net O) (mkMessage ManifestReply OK zeroID (ob_manifest obj) 0 0 [])) as (r & -> & Hr); [done|done| |done|].
  { intros id Hid Hl. destruct (probe_answer obj cached id) as (A1 & A2 & A3 & A4); [done|done|by intros c ->; apply Hc|done|done|]. eexists. by split. }
  cbn [mbind option_bind]. assert (mResult r = OK /\ mManifest r = ob_manifest obj) as [-> ->] by (unfold with_id in Hr; by injection Hr as _ -> -> _ _ _).
  cbn [Z.eqb OK NoTable]. rewrite Hcm.
  assert ((match cached with Some o => bool_decide (ob_manifest obj = ob_manifest o) | None => false end) = false) as ->
    by (destruct cached as [x|]; [apply bool_decide_eq_false_2; by apply Hc|done]).
  pose proof (rate_bound (ob_manifest obj) spacing Hv) as Hrate. apply Z.leb_gt in Hrate. rewrite Hrate.
  assert (chunk_count (ob_manifest obj) = chunks obj) as ->.
  { unfold chunk_count, chunks, ChunkSize. rewrite Hsz. rewrite <- (Nat2Z.id ((length (ob_data obj) + 255) / 256)), Nat2Z.inj_div. f_equal. f_equal. lia. }
  rewrite (fetch_chunks_complete key obj net (chunks obj) 0) by done. cbn [mbind option_bind].
  assert (concat (chunk obj <$> seq 0 (chunks obj)) = ob_data obj) as -> by (by apply (transfer_complete (replicate 16 1) obj)).
  rewrite Hn, bool_decide_eq_true_2 by done. done.
Qed.

End Fetch.

(** ** Example: a peer that serves the example table *)

Definition leap_key : Key := mkKey 7 (replicate 16 9).

(** The distributor's answer to the request [req] of attempt [a], after a
    datagram that is not for us. *)
Definition serve (req : Message) : attempt :=
  let id := replicate 16 5 in
  let nonce := [0; 0; 0; 0; 0; 0; 0; 3] in
  let p := mkPacket 0 4 ModeServer 2 6 (-20) 0 0 [127; 0; 0; 1] 0 3 0 0 in
  let d := match Reply (Some (with_id req id)) (Some example_object) with
           | Ok m => default [] (Key_Append leap_key (Marshal p ++ encode_field m))
           | Err _ => []
           end in
  mkAttempt true (Some id) (Some nonce) true true [[1; 2; 3]; d] EndTimeout.

Definition serving_net (k i : nat) : attempt :=
  match k with
  | O => serve (probe_request None)
  | S j => serve (chunk_request (ob_manifest example_object) (Z.of_nat (ChunkSize * j)))
  end.

(** Within the example table's coverage. *)
Definition fetch_time : time := unixTime 1717200000 0.

Lemma example_honest req :
  (exists m, Reply (Some (with_id req (replicate 16 5))) (Some example_object) = Ok m) -> honest leap_key example_object req (serve req).
Proof.
  intros [m Hm]. set (p := mkPacket 0 4 ModeServer 2 6 (-20) 0 0 [127; 0; 0; 1] 0 3 0 0).
  destruct (CMAC_some (Secret leap_key) (Marshal p ++ encode_field m) eq_refl) as [dg Hdg].
  assert (Key_Append leap_key (Marshal p ++ encode_field m) = Some ((Marshal p ++ encode_field m) ++ be_encode 4 7 ++ dg)) as Hk
    by (unfold Key_Append; rewrite Hdg; reflexivity).
  exists (replicate 16 5), [0; 0; 0; 0; 0; 0; 0; 3], p, m, ((Marshal p ++ encode_field m) ++ be_encode 4 7 ++ dg), [[1; 2; 3]], [].
  unfold serve. rewrite Hm. fold p. rewrite Hk. cbn [at_paused at_ready at_written at_id at_nonce at_reads default].
  generalize dependent (encode_field m). intros field _ Hk.
  split; [reflexivity|]. split; [reflexivity|]. split; [reflexivity|]. split; [reflexivity|]. split; [reflexivity|]. split; [reflexivity|]. split; [exact Hm|]. split.
  { constructor; cbn; try done; try (unfold in_u, in_s; lia). split; [done|]. repeat constructor; cbn; lia. }
  split; [reflexivity|]. split; [reflexivity|]. split; [reflexivity|]. split; [discriminate|]. split; [reflexivity|]. split; [reflexivity|].
  apply List.Forall_cons; [reflexivity|apply List.Forall_nil].
Qed.

Lemma fetch_complete_witness : peer_fetch leap_key (4 * Second) None fetch_time true serving_net = Some (Ok (Some example_object)).
Proof.
  apply (fetch_complete leap_key (4 * Second) None fetch_time serving_net example_object).
  - discriminate.
  - unfold in_u. cbn. lia.
  - reflexivity.
  - vm_compute. reflexivity.
  - vm_compute. reflexivity.
  - intros c E. discriminate E.
  - vm_compute. reflexivity.
  - apply example_honest. eexists. vm_compute. reflexivity.
  - intros i Hi. assert (i = O) as -> by (apply Nat.lt_1_r; exact Hi). apply example_honest. eexists. vm_compute. reflexivity.
Defined.

Lemma fetch_sound_witness :
  exists m, answered leap_key (probe_request None) (serving_net O) m /\ mManifest m = ob_manifest example_object.
Proof.
  assert (peer_fetch leap_key (4 * Second) None fetch_time true serving_net = Some (Ok (Some example_object))) as E by (vm_compute; reflexivity).
  destruct (fetch_sound leap_key (4 * Second) None fetch_time true serving_net example_object E) as (_ & _ & _ & H & _). exact H.
Defined.
