(* ===== verification/LeapUpdater.v ===== *)
(** * internal/leap/updater.go and report.go: acquiring leap tables

    The owner of the cache: it asks the publisher, the peers or the file on a
    schedule, has a candidate approved by the controller, commits it to disk,
    and only then has it activated.  [Upd] threads the updater, its schedule,
    the disk and the controller through the calls; the wall clock, the random
    source, the disk's failures and what the controller does on its own answer
    by call number. *)

From stdpp Require Import base list numbers strings.
From Stdlib Require Import Lia ZArith.
From S2P Require Import Prelude GoTime GoDate GoStrings NetipParse NtpTime Auth Sha256 LeapTable LeapWire LeapDisk LeapStore LeapSeed LeapFetch.

Local Open Scope Z_scope.

(** ** The controller *)

Record View : Type := mkView { vw_Now : time; vw_Known : bool; vw_UTCbound : time; vw_Executed : time }.

(** The later of the wall clock and the established bound. *)
Definition deciding (v : View) : time := if After (vw_UTCbound v) (vw_Now v) then vw_UTCbound v else vw_Now v.

(** A rejection with its reason, or any other error. *)
Inductive ControlError : Type := CtlRejected (reason : string) | CtlFailed.

(** [Controller]; the record in force is observed by the theorems only. *)
Class Controller (C : Type) : Type := {
  ctl_view : C -> View;
  ctl_approve : C -> LeapRecord -> C * option ControlError;
  ctl_activate : C -> LeapRecord -> C * option ControlError;
  ctl_active : C -> option LeapRecord;
  ctl_halted : C -> Prop
}.

(** ** report.go *)

Record Counts : Type := mkCounts {
  ct_Probes : Z; ct_Bytes : Z; ct_Accepted : Z; ct_Failures : Z; ct_Rollback : Z; ct_Conflict : Z; ct_CacheFailures : Z;
  ct_Served : Z; ct_RateLimited : Z
}.

#[export] Instance Counts_eta : Eta Counts := fun c =>
  mkCounts (ct_Probes c) (ct_Bytes c) (ct_Accepted c) (ct_Failures c) (ct_Rollback c) (ct_Conflict c) (ct_CacheFailures c) (ct_Served c) (ct_RateLimited c).

Definition zeroCounts : Counts := mkCounts 0 0 0 0 0 0 0 0 0.

(** [UpdateStatus], its counters apart; a digest is its hexadecimal text. *)
Record UpdateStatus : Type := mkUpdateStatus {
  us_Mode : string; us_LastFetch : time; us_LastResult : string; us_LastRejection : string; us_Pending : str; us_Rejected : str
}.

#[export] Instance UpdateStatus_eta : Eta UpdateStatus := fun s =>
  mkUpdateStatus (us_Mode s) (us_LastFetch s) (us_LastResult s) (us_LastRejection s) (us_Pending s) (us_Rejected s).

Definition zeroUpdateStatus : UpdateStatus := mkUpdateStatus "" zeroTime "" "" [] [].

(** [Report]. *)
Record Report : Type := mkReport { rp_Counters : Counts; rp_status : option UpdateStatus }.

#[export] Instance Report_eta : Eta Report := fun r => mkReport (rp_Counters r) (rp_status r).

(** [Snapshot] of a report, or of none. *)
Definition Report_Snapshot (r : option Report) : UpdateStatus * Counts :=
  match r with
  | None => (zeroUpdateStatus, zeroCounts)
  | Some r => (default zeroUpdateStatus (rp_status r), rp_Counters r)
  end.

(** [Manifest.Hash]. *)
Definition Hash (m : Manifest) : str := hex_encode (mf_Digest m).

(** ** Errors *)

Inductive UpdError : Type :=
| UpdRejected (r : Reason)
| UpdControl (e : ControlError)
| UpdStore
| UpdFile (r : option Reason)
| UpdFetch (e : FetchError)
| UpdSeed (e : SeedFailure).

(** [Reason] of each. *)
Definition fetch_reason (e : FetchError) : string :=
  match e with
  | FetchAuth => "auth" | FetchCorrelation => "correlation" | FetchTimeout => "timeout" | FetchMissing => "missing"
  | FetchChanged => "changed" | FetchDigest => "digest" | FetchRate => "rate"
  | FetchReason r | FetchWire (Rejected r) => reason_text r
  | FetchWire _ | FetchPeer _ | FetchIO | FetchCancelled => "io"
  end%string.

Definition seed_reason (e : SeedFailure) : string :=
  match e with
  | SeedNoHTTPS | SeedNoAgent | SeedEncoded => "transport"
  | SeedUnasked | SeedStatus _ _ => "http"
  | SeedTooBig => "size"
  | SeedBody r => reason_text r
  | SeedTransport | SeedRead => "io"
  end%string.

Definition upd_reason (e : UpdError) : string :=
  match e with
  | UpdRejected r | UpdFile (Some r) => reason_text r
  | UpdControl (CtlRejected r) => r
  | UpdControl CtlFailed | UpdStore | UpdFile None => "io"
  | UpdFetch e => fetch_reason e
  | UpdSeed e => seed_reason e
  end%string.

(** ** The updater *)

(** [Peer]; its address is the host and the port that are joined.  [Busy] only
    delays a request, and the delay is among the answers of the network. *)
Record Peer : Type := mkPeer { pr_Name : str; pr_Address : str * Z; pr_Key : Key }.

Record UpdaterConfig : Type := mkUpdaterConfig {
  uc_Mode : string; uc_ManualPath : str; uc_Peers : list Peer; uc_Initial : LeapState; uc_UserAgent : str
}.

Definition uc_seed (c : UpdaterConfig) : option Seed := SeedFor (uc_Mode c).
Definition seeding (c : UpdaterConfig) : bool := bool_decide (is_Some (uc_seed c)).

Record Updater : Type := mkUpdater {
  u_state : LeapState; u_status : UpdateStatus; u_dirty : bool; u_committed : bool; u_nextPersist : time; u_seedState : SeedState
}.

#[export] Instance Updater_eta : Eta Updater := fun u =>
  mkUpdater (u_state u) (u_status u) (u_dirty u) (u_committed u) (u_nextPersist u) (u_seedState u).

(** [u.spacing]. *)
Definition updater_spacing : duration := 4 * Second.

Record peerSchedule : Type := mkPeerSchedule { ps_next : time; ps_backoff : duration; ps_stopped : bool; ps_spacing : duration }.

#[export] Instance peerSchedule_eta : Eta peerSchedule := fun s => mkPeerSchedule (ps_next s) (ps_backoff s) (ps_stopped s) (ps_spacing s).

Definition freshPeer : peerSchedule := mkPeerSchedule zeroTime 0 false 0.

(** What the acquisition job was started with; no peer is the source's -1. *)
Record job : Type := mkJob {
  jb_peer : option nat; jb_anchor : option Object; jb_utc : time; jb_spacing : duration; jb_validators : Validators
}.

(** The local variables of [Run]. *)
Record Sched : Type := mkSched {
  sc_peers : list peerSchedule; sc_nextJob : time; sc_backoff : duration; sc_nextActivation : time; sc_initial : bool; sc_inflight : option job
}.

#[export] Instance Sched_eta : Eta Sched := fun s =>
  mkSched (sc_peers s) (sc_nextJob s) (sc_backoff s) (sc_nextActivation s) (sc_initial s) (sc_inflight s).

Record fetchResult : Type := mkFetchResult {
  fr_object : option Object; fr_provider : Provider; fr_peer : option nat; fr_err : option UpdError; fr_validators : Validators; fr_notModified : bool
}.

(** What can be seen from outside: an activation asked for, with the cache
    entry at that moment, a state given to the store, and a job started. *)
Inductive UpdEffect : Type := EffActivate (r : LeapRecord) (e : entry) | EffSave (s : LeapState) (ok : bool) | EffJob (now : time) (j : job).

Definition checkpointInterval : duration := 15 * Minute.
Definition seedRetryFloor : duration := 15 * Minute.

Definition errorBackoff (previous : duration) : duration :=
  if previous =? 0 then seedRetryFloor else Z.min (2 * previous) (6 * Hour).

(** [jitter], from the eight random bytes as a number. *)
Definition jitter (random : option Z) (interval : duration) : duration :=
  match random with
  | None => 0
  | Some x =>
      let span := Z.quot interval 5 in
      if span =? 0 then 0 else x mod span - Z.quot interval 10
  end.

Definition leapCurrent (o : Object) (v : View) : bool := bool_decide (CheckUpdate None (Some o) (deciding v) = None).

(** [checkpoint]. *)
Definition checkpoint (u : Updater) (v : View) (force : bool) : Updater :=
  let s := u_state u in
  let executed := After (vw_Executed v) (ls_Executed s) in
  let u := if executed then u <| u_state := s <| ls_Executed := vw_Executed v |> |> <| u_dirty := true |> else u in
  let expired := match ls_Active s with
                 | Some a => negb (Before (vw_UTCbound v) (Expiry (ob_table (lr_Object a)))) && Before (ls_UTCbound s) (Expiry (ob_table (lr_Object a)))
                 | None => false
                 end in
  if After (vw_UTCbound v) (ls_UTCbound s) && (force || executed || expired || (checkpointInterval <=? Sub (vw_UTCbound v) (ls_UTCbound s)))
  then u <| u_state := (u_state u) <| ls_UTCbound := vw_UTCbound v |> |> <| u_dirty := true |>
  else u.

(** ** Running *)

Record World (C : Type) : Type := mkWorld {
  w_u : Updater; w_sched : Sched; w_report : Report; w_dir : Directory; w_ctl : C; w_calls : nat; w_trace : list UpdEffect
}.
Arguments mkWorld {C}.
Arguments w_u {C}.
Arguments w_sched {C}.
Arguments w_report {C}.
Arguments w_dir {C}.
Arguments w_ctl {C}.
Arguments w_calls {C}.
Arguments w_trace {C}.

#[export] Instance World_eta C : Eta (World C) := fun w =>
  mkWorld (w_u w) (w_sched w) (w_report w) (w_dir w) (w_ctl w) (w_calls w) (w_trace w).

(** The answers of the surroundings to the call of a number. *)
Record Env (C : Type) : Type := mkEnv {
  en_now : nat -> time;
  en_write : nat -> WriteEnv;
  en_random : nat -> option Z;
  en_between : nat -> C -> C
}.
Arguments mkEnv {C}.
Arguments en_now {C}.
Arguments en_write {C}.
Arguments en_random {C}.
Arguments en_between {C}.

(** What the network or the file gave the job. *)
Record JobInput : Type := mkJobInput {
  ji_file : option (list Z);                  (* the bytes of the configured file *)
  ji_response : option HttpResponse;
  ji_now : time;
  ji_dialled : bool;
  ji_net : nat -> nat -> attempt
}.

Definition Upd (C A : Type) : Type := World C -> A * World C.
#[export] Instance Upd_ret C : MRet (Upd C) := fun A a w => (a, w).
#[export] Instance Upd_bind C : MBind (Upd C) := fun A B k m w => let '(a, w) := m w in k a w.

Section Run.
Context {C : Type} `{Controller C} `{BlockCipher}.
Context (env : Env C) (marshal : diskState -> list Z) (marshalSeed : diskSeed -> list Z) (ParseTime : str -> option time)
  (error_text : UpdError -> string) (cfg : UpdaterConfig).

Definition gets {A} (f : World C -> A) : Upd C A := fun w => (f w, w).
Definition modify (f : World C -> World C) : Upd C unit := fun w => (tt, f w).
Definition on_u (f : Updater -> Updater) : Upd C unit := modify (fun w => w <| w_u := f (w_u w) |>).
Definition on_sched (f : Sched -> Sched) : Upd C unit := modify (fun w => w <| w_sched := f (w_sched w) |>).
Definition on_counts (f : Counts -> Counts) : Upd C unit :=
  modify (fun w => w <| w_report := (w_report w) <| rp_Counters := f (rp_Counters (w_report w)) |> |>).
Definition on_status (f : UpdateStatus -> UpdateStatus) : Upd C unit := on_u (fun u => u <| u_status := f (u_status u) |>).
Definition when_ (b : bool) (m : Upd C unit) : Upd C unit := if b then m else mret tt.

(** The calls that leave the goroutine. *)
Definition call {A} (f : nat -> World C -> A * World C) : Upd C A := fun w => f (w_calls w) (w <| w_calls := S (w_calls w) |>).
Definition time_now : Upd C time := call (fun n w => (en_now env n, w)).
Definition get_jitter (interval : duration) : Upd C duration := call (fun n w => (jitter (en_random env n) interval, w)).
Definition leap_view : Upd C View :=
  call (fun n w => let c := en_between env n (w_ctl w) in (ctl_view c, w <| w_ctl := c |>)).
Definition approve (r : LeapRecord) : Upd C (option ControlError) :=
  call (fun n w => let '(c, e) := ctl_approve (en_between env n (w_ctl w)) r in (e, w <| w_ctl := c |>)).
Definition activate_leap (r : LeapRecord) : Upd C (option ControlError) :=
  call (fun n w =>
    let '(c, e) := ctl_activate (en_between env n (w_ctl w)) r in
    (e, w <| w_ctl := c |> <| w_trace := EffActivate r (entry_of (w_dir w) state_json) :: w_trace w |>)).
Definition store_save : Upd C bool :=
  call (fun n w =>
    let '(d, _, ok) := Save marshal (w_dir w) (u_state (w_u w)) (en_write env n) in
    (ok, w <| w_dir := d |> <| w_trace := EffSave (u_state (w_u w)) ok :: w_trace w |>)).
Definition store_save_seed : Upd C bool :=
  call (fun n w => let '(d, _, ok) := SaveSeed marshalSeed (w_dir w) (u_seedState (w_u w)) (en_write env n) in (ok, w <| w_dir := d |>)).

(** [publish]. *)
Definition publish : Upd C unit :=
  modify (fun w =>
    let u := w_u w in
    let st := (u_status u) <| us_Pending := match ls_Pending (u_state u) with Some r => Hash (ob_manifest (lr_Object r)) | None => [] end |> in
    w <| w_u := u <| u_status := st |> |> <| w_report := (w_report w) <| rp_status := Some st |> |>).

Definition add_failure (reason : string) (c : Counts) : Counts :=
  let c := c <| ct_Failures := ct_Failures c + 1 |> in
  let c := if bool_decide (reason = "rollback"%string) then c <| ct_Rollback := ct_Rollback c + 1 |> else c in
  if bool_decide (reason = "conflict"%string) || bool_decide (reason = "armed"%string) then c <| ct_Conflict := ct_Conflict c + 1 |> else c.

(** [reject]. *)
Definition upd_reject (err : UpdError) (o : option Object) : Upd C unit :=
  let reason := upd_reason err in
  on_counts (add_failure reason);;
  on_status (fun s => s <| us_LastResult := error_text err |> <| us_LastRejection := reason |>
                        <| us_Rejected := match o with Some o => Hash (ob_manifest o) | None => [] end |>);;
  publish.

(** [saveSeed]. *)
Definition saveSeed : Upd C unit :=
  ok ← store_save_seed;
  when_ (negb ok) (on_counts (fun c => c <| ct_CacheFailures := ct_CacheFailures c + 1 |>)).

(** [save]. *)
Definition save : Upd C (option UpdError) :=
  ok ← store_save;
  if (ok : bool) then
    on_u (fun u => u <| u_dirty := false |> <| u_committed := true |> <| u_nextPersist := zeroTime |>);;
    mret None
  else
    on_u (fun u => u <| u_dirty := true |>);;
    now ← time_now;
    on_u (fun u => u <| u_nextPersist := Add now (15 * Minute) |>);;
    on_counts (fun c => c <| ct_CacheFailures := ct_CacheFailures c + 1 |>);;
    mret (Some UpdStore).

(** [activate]. *)
Definition activate : Upd C (option UpdError) :=
  u ← gets w_u;
  match ls_Pending (u_state u), u_committed u with
  | Some r, true =>
      err ← approve r;
      match err with
      | Some e => mret (Some (UpdControl e))
      | None =>
          err ← activate_leap r;
          match err with
          | Some e => mret (Some (UpdControl e))
          | None =>
              on_u (fun u => u <| u_state := (u_state u) <| ls_Active := Some r |> <| ls_Pending := None |> |>);;
              on_counts (fun c => c <| ct_Accepted := ct_Accepted c + 1 |>);;
              on_status (fun s => s <| us_LastResult := "activated"%string |> <| us_LastRejection := ""%string |> <| us_Rejected := [] |>);;
              publish;;
              on_u (fun u => u <| u_dirty := true |>);;
              save
          end
      end
  | _, _ => mret None
  end.

(** Whether [o] is the object in force, with none pending. *)
Definition unchanged (s : LeapState) (o : Object) : bool :=
  match ls_Active s, ls_Pending s with
  | Some a, None => bool_decide (ob_manifest (lr_Object a) = ob_manifest o)
  | _, _ => false
  end.

(** [install]. *)
Definition install (o : Object) (provider : Provider) : Upd C (option UpdError) :=
  v ← leap_view;
  if negb (vw_Known v) then mret (Some (UpdRejected ReasonTimeUnknown))
  else
    let now := deciding v in
    s ← gets (fun w => u_state (w_u w));
    match CheckUpdate (Anchor s) (Some o) now with
    | Some r => mret (Some (UpdRejected r))
    | None =>
        if unchanged s o then
          on_status (fun s => s <| us_LastResult := "unchanged"%string |>);;
          publish;;
          mret None
        else
          let r := mkRecord o provider now in
          err ← approve r;
          match err with
          | Some e => mret (Some (UpdControl e))
          | None =>
              on_u (fun u => u <| u_state := (u_state u) <| ls_Pending := Some r |> <| ls_UTCbound := now |> |>
                               <| u_committed := false |> <| u_dirty := true |>);;
              err ← save;
              match err with
              | Some e => mret (Some e)
              | None => activate
              end
          end
    end.

(** ** A turn of the loop *)

(** The first peer that is due. *)
Fixpoint due_peer (i : nat) (now : time) (l : list peerSchedule) : option nat :=
  match l with
  | [] => None
  | s :: l => if negb (ps_stopped s) && negb (Before now (ps_next s)) then Some i else due_peer (S i) now l
  end.

(** The first schedule, once UTC is known. *)
Definition initial_schedule (v : View) (now : time) : Upd C unit :=
  on_sched (fun s => s <| sc_initial := false |>);;
  u ← gets w_u;
  when_ (seeding cfg)
    (match ls_Active (u_state u) with
     | Some a =>
         if leapCurrent (lr_Object a) v then
           let checked := if IsZero (ls_LastCheck (u_state u)) then lr_Accepted a else ls_LastCheck (u_state u) in
           j ← get_jitter (24 * Hour);
           on_sched (fun s => s <| sc_nextJob := Add now (Z.max 0 (24 * Hour + j - Sub (vw_Now v) checked)) |>)
         else mret tt
     | None => mret tt
     end;;
     let wait := seedRetryFloor - Sub (vw_Now v) (se_LastAttempt (u_seedState u)) in
     when_ (negb (IsZero (se_LastAttempt (u_seedState u))) && (0 <? wait))
       (on_sched (fun s => if After (Add now wait) (sc_nextJob s) then s <| sc_nextJob := Add now wait |> else s))).

(** The retry of an activation. *)
Definition retry_activation (v : View) (now : time) : Upd C unit :=
  w ← gets (fun w => w);
  when_ (vw_Known v && bool_decide (is_Some (ls_Pending (u_state (w_u w)))) && u_committed (w_u w) && negb (Before now (sc_nextActivation (w_sched w))))
    (err ← activate;
     match err with
     | Some e =>
         s ← gets (fun w => u_state (w_u w));
         upd_reject e (Anchor s);;
         on_sched (fun s => s <| sc_nextActivation := Add now (15 * Minute) |>)
     | None => mret tt
     end).

(** The job that is due, if any. *)
Definition start_job (v : View) (now : time) : Upd C unit :=
  w ← gets (fun w => w);
  let u := w_u w in
  let s := w_sched w in
  when_ (vw_Known v && negb (bool_decide (is_Some (sc_inflight s))) && negb (u_dirty u) && negb (Before now (sc_nextJob s)))
    (let peer := if bool_decide (uc_Mode cfg = "peers"%string) then due_peer 0 now (sc_peers s) else None in
     when_ (bool_decide (uc_Mode cfg = "manual"%string) || seeding cfg || bool_decide (is_Some peer))
       (let spacing := match peer ≫= (fun i => sc_peers s !! i) with
                       | Some p => Z.max updater_spacing (ps_spacing p)
                       | None => updater_spacing
                       end in
        let j := mkJob peer (Anchor (u_state u)) (deciding v) spacing (se_Validators (u_seedState u)) in
        on_sched (fun s => s <| sc_inflight := Some j |>);;
        when_ (seeding cfg)
          (on_u (fun u => u <| u_seedState := (u_seedState u) <| se_LastAttempt := vw_Now v |> |>);;
           saveSeed);;
        modify (fun w => w <| w_trace := EffJob now j :: w_trace w |>))).

(** The job itself: a manual file, the publisher, or the peer. *)
Definition LoadObject (file : option (list Z)) : result UpdError Object :=
  match file with
  | None => Err (UpdFile None)
  | Some b => match ReadObject b with Ok o => Ok o | Err r => Err (UpdFile (Some r)) end
  end.

(** A peer's key that is too short is refused before it is used, so the fetch
    always has a result. *)
Definition run_job (j : job) (i : JobInput) : fetchResult :=
  if bool_decide (uc_Mode cfg = "manual"%string) then
    let p := mkProvider "file" (uc_ManualPath cfg) 0 in
    match LoadObject (ji_file i) with
    | Ok o => mkFetchResult (Some o) p (jb_peer j) None noValidators false
    | Err e => mkFetchResult None p (jb_peer j) (Some e) noValidators false
    end
  else
    match uc_seed cfg with
    | Some seed =>
        let p := mkProvider (sd_Kind seed) (str_of (sd_URL seed)) 0 in
        match fetchSeed ParseTime true (uc_UserAgent cfg) (jb_validators j) (ji_response i) (ji_now i) with
        | Ok r => mkFetchResult (sr_Object r) p (jb_peer j) None (sr_Validators r) (sr_NotModified r)
        | Err e => mkFetchResult None p (jb_peer j) (Some (UpdSeed e)) noValidators false
        end
    | None =>
        match jb_peer j ≫= (fun k => uc_Peers cfg !! k) with
        | None => mkFetchResult None (mkProvider "peer" [] 0) (jb_peer j) None noValidators false
        | Some q =>
            let p := mkProvider "peer" (pr_Name q) (ID (pr_Key q)) in
            match peer_fetch (pr_Key q) (jb_spacing j) (jb_anchor j) (jb_utc j) (ji_dialled i) (ji_net i) with
            | Some (Ok o) => mkFetchResult o p (jb_peer j) None noValidators false
            | Some (Err e) => mkFetchResult None p (jb_peer j) (Some (UpdFetch e)) noValidators false
            | None => mkFetchResult None p (jb_peer j) None noValidators false
            end
        end
    end.

(** The wait with positive jitter only. *)
Definition positive_wait (interval : duration) : Upd C duration :=
  j ← get_jitter interval;
  mret (interval + Z.quot j 2 + Z.quot interval 20).

(** The peer's backoff and spacing after a job, and the interval to its next. *)
Definition peer_interval (s : peerSchedule) (err : option UpdError) : peerSchedule * duration :=
  let '(s, interval) := match err with
                        | Some _ => let b := errorBackoff (ps_backoff s) in (s <| ps_backoff := b |>, b)
                        | None => (s <| ps_backoff := 0 |> <| ps_spacing := 0 |>, 6 * Hour)
                        end in
  match err with
  | Some (UpdFetch (FetchPeer pe)) =>
      (s <| ps_spacing := Z.max (ps_spacing s) (pe_MinInterval pe) |> <| ps_stopped := pe_Stop pe |>, Z.max interval (pe_RetryAfter pe))
  | _ => (s, interval)
  end.

(** The peer's next turn. *)
Definition schedule_peer (i : nat) (err : option UpdError) : Upd C unit :=
  s ← gets (fun w => default freshPeer (sc_peers (w_sched w) !! i));
  let '(s, interval) := peer_interval s err in
  now ← time_now;
  wait ← positive_wait interval;
  on_sched (fun x => x <| sc_peers := <[i := s <| ps_next := Add now wait |>]> (sc_peers x) |>);;
  now ← time_now;
  on_sched (fun x => x <| sc_nextJob := Add now updater_spacing |>).

(** The interval after a failure: the publisher's own demand outranks the
    backoff. *)
Definition single_interval (b : duration) (e : UpdError) : duration :=
  match e with
  | UpdSeed (SeedStatus status retryAfter) => Z.max (if clientError status then Z.max b (24 * Hour) else b) retryAfter
  | _ => b
  end.

(** The next turn of the file or of the publisher. *)
Definition schedule_single (err : option UpdError) : Upd C unit :=
  match err with
  | Some e =>
      b ← gets (fun w => errorBackoff (sc_backoff (w_sched w)));
      let interval := single_interval b e in
      on_sched (fun s => s <| sc_backoff := b |>);;
      now ← time_now;
      wait ← positive_wait interval;
      on_sched (fun s => s <| sc_nextJob := Add now wait |>)
  | None =>
      let interval := if bool_decide (uc_Mode cfg = "manual"%string) then Hour else 24 * Hour in
      on_sched (fun s => s <| sc_backoff := 0 |>);;
      now ← time_now;
      j ← get_jitter interval;
      on_sched (fun s => s <| sc_nextJob := Add now (interval + j) |>)
  end.

(** The bookkeeping of a publisher's good answer. *)
Definition note_check (r : fetchResult) : Upd C unit :=
  v ← leap_view;
  when_ (vw_Known v)
    (on_u (fun u =>
       let s := (u_state u) <| ls_LastCheck := vw_Now v |> in
       let s := if After (vw_UTCbound v) (ls_UTCbound s) then s <| ls_UTCbound := vw_UTCbound v |> else s in
       let s := if After (vw_Now v) (ls_UTCbound s) then s <| ls_UTCbound := vw_Now v |> else s in
       u <| u_state := s |> <| u_dirty := true |>));;
  u ← gets w_u;
  when_ (negb (bool_decide (fr_validators r = se_Validators (u_seedState u))))
    (on_u (fun u => u <| u_seedState := (u_seedState u) <| se_Validators := fr_validators r |> |>);;
     saveSeed).

(** The completion of a job. *)
Definition complete (r : fetchResult) : Upd C unit :=
  on_sched (fun s => s <| sc_inflight := None |>);;
  v ← leap_view;
  on_status (fun s => s <| us_LastFetch := vw_Now v |>);;
  err ← match fr_err r, fr_object r with
        | None, Some o => install o (fr_provider r)
        | e, _ => mret e
        end;
  when_ (negb (bool_decide (is_Some err)) && negb (bool_decide (is_Some (fr_object r))))
    (on_status (fun s => s <| us_LastResult := if fr_notModified r then "not modified"%string else "unchanged"%string |>));;
  when_ (negb (bool_decide (is_Some err)) && seeding cfg) (note_check r);;
  match err with Some e => upd_reject e (fr_object r) | None => mret tt end;;
  match fr_peer r with
  | Some i => schedule_peer i err
  | None => schedule_single err
  end;;
  publish.

(** One turn: the work at the top of the loop, then a tick or the completion
    of the job in flight. *)
Definition turn (arrived : option JobInput) : Upd C unit :=
  v ← leap_view;
  now ← time_now;
  s ← gets w_sched;
  when_ (vw_Known v && sc_initial s) (initial_schedule v now);;
  on_u (fun u => checkpoint u v false);;
  u ← gets w_u;
  when_ (u_dirty u && negb (Before now (u_nextPersist u)))
    (err ← save;
     match err with Some e => upd_reject e None | None => mret tt end);;
  retry_activation v now;;
  start_job v now;;
  j ← gets (fun w => sc_inflight (w_sched w));
  match arrived, j with
  | Some i, Some j => complete (run_job j i)
  | _, _ => mret tt
  end.

Fixpoint turns (l : list (option JobInput)) : Upd C unit :=
  match l with
  | [] => mret tt
  | a :: l => turn a;; turns l
  end.

(** The deferred final checkpoint. *)
Definition finish_run : Upd C unit :=
  v ← leap_view;
  on_u (fun u => checkpoint u v true);;
  u ← gets w_u;
  when_ (u_dirty u) (save;; mret tt).

Definition Updater_Run (l : list (option JobInput)) : Upd C unit := turns l;; finish_run.

(** [NewUpdater], with the cache directory and the controller; what the seed
    file loads to is its argument. *)
Definition newUpdater (seedLoaded : result SeedStoreError SeedState) (d : Directory) (c : C) : World C :=
  let seed := if seeding cfg then match seedLoaded with Ok s => s | Err _ => zeroSeedState end else zeroSeedState in
  let u := mkUpdater (uc_Initial cfg) (zeroUpdateStatus <| us_Mode := uc_Mode cfg |> <| us_LastFetch := ls_LastCheck (uc_Initial cfg) |>
             <| us_LastResult := "awaiting UTC"%string |>) false true zeroTime seed in
  (publish (mkWorld u (mkSched (replicate (length (uc_Peers cfg)) freshPeer) zeroTime 0 zeroTime true None)
     (mkReport zeroCounts None) d c 0 [])).2.

End Run.
