(* ===== verification/LeapInstall.v ===== *)
(** * What the updater installs

    Proofs about [LeapUpdater]: a table is in force in the controller only while
    the cache on disk holds it, and the anchor against which new tables are
    judged never goes back.  The controller is any instance of the class that
    obeys [ControllerLaws]. *)

From stdpp Require Import base list numbers strings.
From Stdlib Require Import Lia ZArith Sorted.
From S2P Require Import Prelude GoTime GoDate GoStrings NtpTime Auth Sha256 LeapTable LeapWire LeapDisk LeapStore LeapSeed LeapFetch LeapUpdater.

Local Open Scope Z_scope.

(** ** The dates of an object *)

(** An object that parsing made. *)
Definition obj_ok (o : Object) : Prop := NewObject (ob_data o) = Ok o.

Definition ntp_date (t : time) : Prop := exists s, 0 <= s <= maxDate /\ t = unixTime (s - ntpUnixEpoch) 0.

Lemma parseNTPSeconds_date raw t : parseNTPSeconds raw = Some t -> ntp_date t.
Proof.
  unfold parseNTPSeconds. destruct (ParseUint 64 raw) as [s|] eqn:E; [|done]. cbn [mbind option_bind]. apply ParseUint_range in E.
  unfold Date. case_goal; [done|]. intros [= <-]. exists s. split; [|done]. repeat bool_step. lia.
Qed.

Definition dated (t : Table) : Prop := (IsZero (t_Updated t) = true \/ ntp_date (t_Updated t)) /\ (IsZero (Expiry t) = true \/ ntp_date (Expiry t)).

Lemma parse_stamp_dated t n line t' : dated t -> parse_stamp t n line = Ok t' -> dated t'.
Proof.
  intros [H1 H2]. unfold parse_stamp. destruct (Fields line) as [|f0 [|f1 [|]]]; [done..| |done]. case_goal; [done|].
  destruct (parseNTPSeconds f1) as [d|] eqn:E; [|done]. apply parseNTPSeconds_date in E.
  repeat case_goal; try done; intros [= <-]; split; cbn; auto.
Qed.

Lemma parse_lines_dated lines : forall t rs n t' rs', dated t -> parse_table_lines t rs n lines = Ok (t', rs') -> dated t'.
Proof.
  induction lines as [|raw rest IH]; intros t rs n t' rs' Hd; cbn [parse_table_lines]; [by intros [= <- _]|].
  destruct (TrimSpace raw) as [|c line]; [by apply IH|]. case_goal.
  - destruct (parse_stamp t n (c :: line)) as [t1|] eqn:E; cbn; [|done]. apply IH. by eapply parse_stamp_dated.
  - case_goal; [by apply IH|]. destruct (parse_record n (c :: line)); cbn; [|done]. by apply IH.
Qed.

Lemma Parse_dated input t : Parse input = Ok t -> dated t /\ IsZero (Expiry t) = false.
Proof.
  unfold Parse. destruct (scan_lines input) as [lines tooLong].
  destruct (parse_table_lines zeroTable [] 1 lines) as [[table records]|e] eqn:E; cbn; [|done]. destruct tooLong; [done|].
  apply parse_lines_dated in E; [|by split; left]. unfold finish_table. destruct (IsZero (Expiry table)) eqn:Ez; [done|].
  destruct records as [|first [|second rest]]; [done..|]. case_goal; [done|]. case_goal; [done|].
  destruct (transitions_of first (second :: rest)); cbn; [|done]. intros [= <-]. by split.
Qed.

Lemma dateSeconds_ntp s : 0 <= s <= maxDate -> dateSeconds (unixTime (s - ntpUnixEpoch) 0) = s.
Proof.
  intros H. unfold dateSeconds, Unix, unixTime, u64. rewrite Z.add_0_r, Z.div_mul by done.
  rewrite Z.mod_small; unfold maxDate in *; lia.
Qed.

Lemma dateSeconds_mono a b : ntp_date a -> ntp_date b -> a <= b -> dateSeconds a <= dateSeconds b.
Proof.
  intros (s & Hs & ->) (t & Ht & ->) Hle. rewrite !dateSeconds_ntp by done. unfold unixTime, Second in Hle. lia.
Qed.

Lemma obj_dates o : obj_ok o ->
  ntp_date (t_Updated (ob_table o)) /\ ntp_date (Expiry (ob_table o)) /\
  mf_Updated (ob_manifest o) = dateSeconds (t_Updated (ob_table o)) /\ mf_Expires (ob_manifest o) = dateSeconds (Expiry (ob_table o)).
Proof.
  unfold obj_ok, NewObject. case_goal; [done|]. destruct (Parse (ob_data o)) as [t|] eqn:E; [|done]. destruct (IsZero (t_Updated t)) eqn:Ez; [done|].
  intros [= <-]. cbn [ob_table ob_manifest mf_Updated mf_Expires]. apply Parse_dated in E as [[[?|?] [?|?]] ?]; try congruence. done.
Qed.

(** The dates an anchor's successor may not fall behind. *)
Definition anchor_le (a b : option Object) : Prop :=
  match a, b with
  | None, _ => True
  | Some _, None => False
  | Some a, Some b => mf_Updated (ob_manifest a) <= mf_Updated (ob_manifest b) /\ mf_Expires (ob_manifest a) <= mf_Expires (ob_manifest b)
  end.

#[export] Instance anchor_le_preorder : PreOrder anchor_le.
Proof.
  split; [intros [a|]; cbn; [lia|done]|]. intros [a|] [b|] [c|]; cbn; try done. lia.
Qed.

Lemma CheckUpdate_anchor a o now : (forall x, a = Some x -> obj_ok x) -> obj_ok o -> CheckUpdate a (Some o) now = None -> anchor_le a (Some o).
Proof.
  intros Ha Ho. destruct a as [a|]; [|done]. destruct (obj_dates a (Ha a eq_refl)) as (A1 & A2 & A3 & A4). destruct (obj_dates o Ho) as (O1 & O2 & O3 & O4).
  unfold CheckUpdate. cbv zeta. case_goal; [done|]. case_goal; [done|]. case_goal; [done|]. match goal with |- context [bool_decide ?P] => destruct (bool_decide P) eqn:Em end.
  - apply bool_decide_eq_true in Em. intros _. cbn. rewrite Em. lia.
  - destruct (Before (t_Updated (ob_table o)) (t_Updated (ob_table a)) || Before (Expiry (ob_table o)) (Expiry (ob_table a))) eqn:E; [done|].
    unfold Before in E. apply orb_false_iff in E as [E1 E2]. apply Z.ltb_ge in E1, E2. intros _. cbn. rewrite A3, A4, O3, O4.
    split; by apply dateSeconds_mono.
Qed.

(** ** Reasoning about [Upd] *)

Section Logic.
Context {C : Type}.

(** What a computation started in [w] establishes. *)
Definition wp {A} (m : Upd C A) (Q : A -> World C -> Prop) (w : World C) : Prop := Q (m w).1 (m w).2.

Lemma wp_bind {A B} (m : Upd C A) (k : A -> Upd C B) Q w : wp m (fun a => wp (k a) Q) w -> wp (m ≫= k) Q w.
Proof. unfold wp, mbind, Upd_bind. by destruct (m w). Qed.

Lemma wp_mono {A} (m : Upd C A) (Q R : A -> World C -> Prop) w : wp m Q w -> (forall a w', Q a w' -> R a w') -> wp m R w.
Proof. unfold wp. auto. Qed.

Lemma wp_when b (m : Upd C unit) Q w : (b = true -> wp m Q w) -> (b = false -> Q tt w) -> wp (when_ b m) Q w.
Proof. destruct b; [auto|]. intros _ H. exact (H eq_refl). Qed.

End Logic.

(** The laws a controller obeys towards the updater; [other] is what it does
    between the updater's calls.  A table comes into force only by an
    activation, and an activation that fails leaves the table in force alone,
    or has installed it and the controller no longer approves anything. *)
Class ControllerLaws (C : Type) `{Controller C} (other : C -> C -> Prop) : Prop := {
  cl_approve : forall c r, ctl_active (ctl_approve c r).1 = ctl_active c;
  cl_activate_ok : forall c r, (ctl_activate c r).2 = None -> ctl_active (ctl_activate c r).1 = Some r;
  cl_activate_err : forall c r e, (ctl_activate c r).2 = Some e ->
    ctl_active (ctl_activate c r).1 = ctl_active c \/ ctl_active (ctl_activate c r).1 = Some r /\ ctl_halted (ctl_activate c r).1;
  cl_halted : forall c r, ctl_halted c -> (ctl_approve c r).2 <> None /\ ctl_halted (ctl_approve c r).1;
  cl_other : forall c c', other c c' -> ctl_active c' = ctl_active c /\ (ctl_halted c -> ctl_halted c')
}.

Create HintDb keeps.

Section Install.
Context {C : Type} {ctl : Controller C} {other : C -> C -> Prop} {laws : ControllerLaws C other} `{BlockCipher}.
Context (env : Env C) (marshal : diskState -> list Z) (unmarshal : list Z -> option diskState) (marshalSeed : diskSeed -> list Z) (ParseTime : str -> option time)
  (error_text : UpdError -> string) (cfg : UpdaterConfig).
Context (Hother : forall n c, other c (en_between env n c)).

(** The entry holds the record, in force or waiting to be: it is a private
    regular file whose bytes are the encoding of a state that does, or decode to
    one. *)
Definition entry_holds (e : entry) (r : LeapRecord) : Prop :=
  exists f s, e = Some f /\ fi_kind f = KindRegular /\ Z.land (fi_perm f) 63 = 0 /\
    (fi_bytes f = marshal (encode_state s) \/ unmarshal (fi_bytes f) = Some (encode_state s)) /\ (ls_Active s = Some r \/ ls_Pending s = Some r).

(** The states given to the store, the latest first. *)
Definition saved (t : list UpdEffect) : list LeapState :=
  omap (fun x => match x with EffSave s _ => Some s | _ => None end) t.

Definition older_anchor (newer older : LeapState) : Prop := anchor_le (Anchor older) (Anchor newer).

Definition state_entry (w : World C) : entry := entry_of (w_dir w) state_json.

Record Inv (w : World C) : Prop := {
  iv_calm : forall r, ctl_active (w_ctl w) = Some r ->
    ls_Active (u_state (w_u w)) = Some r \/ ctl_halted (w_ctl w) /\ ls_Pending (u_state (w_u w)) = Some r;
  iv_disk : forall r, ctl_active (w_ctl w) = Some r -> entry_holds (state_entry w) r;
  iv_committed : forall r, u_committed (w_u w) = true -> ls_Pending (u_state (w_u w)) = Some r -> entry_holds (state_entry w) r;
  iv_objects : forall r, ls_Active (u_state (w_u w)) = Some r \/ ls_Pending (u_state (w_u w)) = Some r -> obj_ok (lr_Object r);
  iv_asked : forall r e, EffActivate r e ∈ w_trace w -> entry_holds e r;
  iv_chain : StronglySorted older_anchor (u_state (w_u w) :: saved (w_trace w) ++ [uc_Initial cfg])
}.

(** ** Steps that change nothing of this *)

Record same_core (w w' : World C) : Prop := {
  sm_active : ls_Active (u_state (w_u w')) = ls_Active (u_state (w_u w));
  sm_pending : ls_Pending (u_state (w_u w')) = ls_Pending (u_state (w_u w));
  sm_committed : u_committed (w_u w') = u_committed (w_u w);
  sm_entry : state_entry w' = state_entry w;
  sm_ctl : w_ctl w' = w_ctl w;
  sm_trace : w_trace w' = w_trace w \/ exists now j, w_trace w' = EffJob now j :: w_trace w
}.

Lemma older_anchor_top s s' l : Anchor s' = Anchor s -> StronglySorted older_anchor (s :: l) -> StronglySorted older_anchor (s' :: l).
Proof.
  intros E Hs. inversion Hs as [|? ? Ht Hf]; subst. constructor; [done|]. revert Hf. apply List.Forall_impl. intros x. unfold older_anchor. by rewrite E.
Qed.

Lemma Inv_same w w' : same_core w w' -> Inv w -> Inv w'.
Proof.
  intros [E1 E2 E3 E4 E5 E6] [I1 I2 I3 I4 I5 I6].
  assert (Anchor (u_state (w_u w')) = Anchor (u_state (w_u w))) as Ea by (unfold Anchor; by rewrite E1, E2).
  constructor; rewrite ?E1, ?E2, ?E3, ?E4, ?E5; try done.
  - intros r e. destruct E6 as [->|(now & j & ->)]; [auto|]. intros Hin. apply elem_of_cons in Hin as [Hin|Hin]; [done|auto].
  - apply (older_anchor_top _ _ _ Ea). destruct E6 as [->|(now & j & ->)]; exact I6.
Qed.

Definition keeps {A} (m : Upd C A) : Prop := forall w, Inv w -> Inv (m w).2.

Lemma keeps_bind {A B} (m : Upd C A) (k : A -> Upd C B) : keeps m -> (forall a, keeps (k a)) -> keeps (m ≫= k).
Proof. intros Hm Hk w Hw. specialize (Hm w Hw). unfold mbind, Upd_bind. destruct (m w) as [a w1]. by apply Hk. Qed.

Lemma keeps_ret {A} (a : A) : keeps (mret a).
Proof. by intros w Hw. Qed.

Lemma keeps_gets {A} (f : World C -> A) : keeps (gets f).
Proof. by intros w Hw. Qed.

Lemma keeps_when b (m : Upd C unit) : keeps m -> keeps (when_ b m).
Proof. destruct b; [done|]. intros _. apply keeps_ret. Qed.

Lemma keeps_modify f : (forall w, same_core w (f w)) -> keeps (modify f).
Proof. intros Hf w. apply Inv_same, Hf. Qed.

Lemma keeps_u f :
  (forall u, ls_Active (u_state (f u)) = ls_Active (u_state u) /\ ls_Pending (u_state (f u)) = ls_Pending (u_state u) /\ u_committed (f u) = u_committed u) ->
  keeps (on_u f).
Proof. intros Hf. apply keeps_modify. intros w. destruct (Hf (w_u w)) as (? & ? & ?), w. constructor; cbn; auto. Qed.

Lemma keeps_sched f : keeps (on_sched f).
Proof. apply keeps_modify. intros []. constructor; cbn; auto. Qed.

Lemma keeps_counts f : keeps (on_counts f).
Proof. apply keeps_modify. intros []. constructor; cbn; auto. Qed.

Lemma keeps_status f : keeps (on_status f).
Proof. apply keeps_u. intros []. auto. Qed.

Lemma keeps_publish : keeps publish.
Proof. apply keeps_modify. intros [[] ? [] ? ? ? ?]. constructor; cbn; auto. Qed.

Lemma keeps_pure {A} (f : nat -> A) : keeps (call (fun n w => (f n, w))).
Proof. intros w. apply Inv_same. destruct w. constructor; cbn; auto. Qed.

Lemma keeps_time_now : keeps (time_now env).
Proof. apply keeps_pure. Qed.

Lemma keeps_jitter i : keeps (get_jitter env i).
Proof. apply (keeps_pure (fun n => jitter (en_random env n) i)). Qed.

Lemma keeps_save_seed : keeps (store_save_seed env marshalSeed).
Proof.
  intros w. apply Inv_same. unfold store_save_seed, call. destruct (SaveSeed _ _ _ _) as [[d ds] ok] eqn:E.
  assert (entry_of d state_json = state_entry w) as He.
  { unfold SaveSeed in E. case_in E; [by simplify_eq|]. destruct (write_entry _ _ _ _ _ _ _ state_json E) as [?|[? _]]; [intros n; apply temp_not_target|done|done]. }
  clear E. destruct w. constructor; cbn; auto.
Qed.

Lemma checkpoint_same u v force :
  ls_Active (u_state (checkpoint u v force)) = ls_Active (u_state u) /\
  ls_Pending (u_state (checkpoint u v force)) = ls_Pending (u_state u) /\ u_committed (checkpoint u v force) = u_committed u.
Proof. unfold checkpoint. destruct u as [[] ? ? ? ? ?]. repeat case_goal; done. Qed.

(** ** The controller's calls *)

(** A controller that moved without a new table in force. *)
Lemma Inv_ctl w c : ctl_active c = ctl_active (w_ctl w) -> (ctl_halted (w_ctl w) -> ctl_halted c) -> Inv w -> Inv (w <| w_ctl := c |>).
Proof.
  intros Ea Hh [I1 I2 I3 I4 I5 I6]. destruct w. constructor; cbn in *; rewrite ?Ea; try done.
  intros r Hr. destruct (I1 r Hr) as [?|[? ?]]; auto.
Qed.

Lemma Inv_calls w n : Inv w -> Inv (w <| w_calls := n |>).
Proof. apply Inv_same. destruct w. constructor; cbn; auto. Qed.

Lemma keeps_view : keeps (leap_view env).
Proof.
  intros w Hw. apply (Inv_calls _ (S (w_calls w))) in Hw. destruct (cl_other _ _ (Hother (w_calls w) (w_ctl w))) as [Ha Hh]. unfold leap_view, call. cbv zeta. cbn [snd].
  apply (Inv_ctl (w <| w_calls := S (w_calls w) |>)); [by destruct w|by destruct w|exact Hw].
Qed.

(** An approval changes nothing; one that succeeds shows the controller is
    running, with the table the updater takes for active in force. *)
Definition calm (w : World C) : Prop := forall r, ctl_active (w_ctl w) = Some r -> ls_Active (u_state (w_u w)) = Some r.

Lemma approve_spec r w : Inv w ->
  let w' := (approve env r w).2 in
  Inv w' /\ w_u w' = w_u w /\ state_entry w' = state_entry w /\ w_trace w' = w_trace w /\ ((approve env r w).1 = None -> calm w').
Proof.
  intros Hw. destruct (cl_other _ _ (Hother (w_calls w) (w_ctl w))) as [Ha Hh]. unfold approve, call. set (c := en_between env (w_calls w) (w_ctl w)) in *.
  pose proof (cl_approve c r) as Hap. pose proof (fun H => cl_halted c r H) as Hhal. assert (w_ctl (w <| w_calls := S (w_calls w) |>) = w_ctl w) as Ec by (by destruct w).
  rewrite Ec. fold c. destruct (ctl_approve c r) as [c' e]. cbn [fst snd] in *. cbv zeta. split; [|split; [by destruct w|split; [by destruct w|split; [by destruct w|]]]].
  - apply (Inv_ctl (w <| w_calls := S (w_calls w) |>)); [rewrite Ec; congruence|rewrite Ec; intros ?; by apply Hhal, Hh|by apply Inv_calls].
  - intros He x Hx. destruct Hw as [I1 _ _ _ _ _]. replace (w_ctl _) with c' in Hx by (by destruct w). rewrite Hap, Ha in Hx.
    replace (w_u _) with (w_u w) by (by destruct w). destruct (I1 x Hx) as [?|[Hhl _]]; [done|]. by destruct (Hhal (Hh Hhl)) as [Hn _].
Qed.

(** ** Saving *)

Lemma Save_entry d s w d' ds ok : Save marshal d s w = (d', ds, ok) ->
  let new := Some (private_file (marshal (encode_state s)) true) in
  (entry_of d' state_json = entry_of d state_json \/ entry_of d' state_json = new) /\ (ok = true -> entry_of d' state_json = new).
Proof.
  intros E. apply Save_spec in E as [(-> & _ & ->)|[_ E]]; [by split; [left|]|]. cbv zeta. split.
  - destruct (write_entry _ _ _ _ _ _ _ state_json E state_not_temp) as [?|[_ ?]]; auto.
  - intros ->. apply (write_done _ _ _ _ _ _ E state_not_temp).
Qed.

(** A state that keeps the table in force and the pending one may be saved. *)
Lemma store_save_spec w : Inv w ->
  let w' := (store_save env marshal w).2 in
  Inv w' /\ w_u w' = w_u w /\ w_ctl w' = w_ctl w /\
  ((store_save env marshal w).1 = true -> state_entry w' = Some (private_file (marshal (encode_state (u_state (w_u w)))) true)).
Proof.
  intros [I1 I2 I3 I4 I5 I6]. unfold store_save, call. set (w1 := w <| w_calls := S (w_calls w) |>).
  assert (w_u w1 = w_u w /\ w_dir w1 = w_dir w /\ w_ctl w1 = w_ctl w /\ w_trace w1 = w_trace w) as (E1 & E2 & E3 & E4) by (by destruct w).
  rewrite E1, E2, E4. destruct (Save marshal (w_dir w) (u_state (w_u w)) (en_write env (w_calls w))) as [[d ds] ok] eqn:Es.
  apply Save_entry in Es. cbv zeta in Es. cbn [fst snd]. cbv zeta. set (w2 := w1 <| w_dir := d |> <| w_trace := _ |>).
  assert (w_u w2 = w_u w /\ state_entry w2 = entry_of d state_json /\ w_ctl w2 = w_ctl w /\ w_trace w2 = EffSave (u_state (w_u w)) ok :: w_trace w) as (F1 & F2 & F3 & F4)
    by (unfold w2, state_entry; clearbody w1; destruct w1; by cbn in *). destruct Es as [Hs Hok].
  assert (forall r, ls_Active (u_state (w_u w)) = Some r \/ ls_Pending (u_state (w_u w)) = Some r ->
    entry_holds (state_entry w) r -> entry_holds (entry_of d state_json) r) as Hkeep.
  { intros r Hr Hd. destruct Hs as [-> | ->]; [done|]. eexists _, (u_state (w_u w)). do 3 (split; [done|]). by split; [left|]. }
  split; [|split; [done|split; [done|intros ->; rewrite F2; by apply Hok]]].
  constructor; rewrite ?F1, ?F2, ?F3, ?F4; try done.
  - intros r Hr. apply Hkeep; [|by apply I2]. destruct (I1 r Hr) as [?|[_ ?]]; auto.
  - intros r Hc Hr. apply Hkeep; [by right|by apply I3].
  - intros r x Hin. apply elem_of_cons in Hin as [Hin|Hin]; [done|by apply I5].
  - change (saved (EffSave (u_state (w_u w)) ok :: w_trace w)) with (u_state (w_u w) :: saved (w_trace w)). constructor; [exact I6|].
    constructor; [unfold older_anchor; reflexivity|]. by inversion I6.
Qed.

Lemma keeps_saveSeed : keeps (saveSeed env marshalSeed).
Proof. apply keeps_bind; [apply keeps_save_seed|]. intros ok. apply keeps_when, keeps_counts. Qed.

Lemma keeps_reject e o : keeps (upd_reject error_text e o).
Proof. apply keeps_bind; [apply keeps_counts|]. intros _. apply keeps_bind; [apply keeps_status|]. intros _. apply keeps_publish. Qed.

Lemma keeps_save : keeps (save env marshal).
Proof.
  intros w Hw. unfold save, mbind, Upd_bind. destruct (store_save_spec w Hw) as (H1 & H2 & H3 & H4).
  destruct (store_save env marshal w) as [ok w1]. cbn [fst snd] in *. destruct ok.
  - cbn [snd mret Upd_ret]. specialize (H4 eq_refl). rewrite <- H2 in H4. destruct H1 as [I1 I2 I3 I4 I5 I6], w1 as [u ? ? ? ? ? ?]. destruct u. constructor; cbn in *; try done.
    intros r _ Hr. eexists _, _. split; [exact H4|]. do 2 (split; [reflexivity|]). split; [by left|by right].
  - revert w1 H1 H2 H3 H4. change (forall w1, Inv w1 -> w_u w1 = w_u w -> w_ctl w1 = w_ctl w -> (false = true -> state_entry w1 = Some (private_file (marshal (encode_state (u_state (w_u w)))) true)) ->
      Inv ((on_u (fun u => u <| u_dirty := true |>);; now ← time_now env; on_u (fun u => u <| u_nextPersist := Add now (15 * Minute) |>);;
            on_counts (fun c => c <| ct_CacheFailures := ct_CacheFailures c + 1 |>);; mret (Some UpdStore)) w1).2).
    intros w1 H1 _ _ _. revert w1 H1. apply keeps_bind; [by apply keeps_u; intros []|]. intros _. apply keeps_bind; [apply keeps_time_now|].
    intros now. apply keeps_bind; [by apply keeps_u; intros []|]. intros _. apply keeps_bind; [apply keeps_counts|]. intros _. apply keeps_ret.
Qed.

(** ** Activating *)

(** The activation of the committed record: on success the state that names it
    active is right, on failure the state is right as it is. *)
Lemma activate_leap_spec r w : Inv w -> calm w -> u_committed (w_u w) = true -> ls_Pending (u_state (w_u w)) = Some r ->
  let '(err, w') := activate_leap env r w in
  match err with
  | Some _ => Inv w'
  | None => Inv (w' <| w_u := (w_u w') <| u_state := (u_state (w_u w')) <| ls_Active := Some r |> <| ls_Pending := None |> |> |>)
  end.
Proof.
  intros [I1 I2 I3 I4 I5 I6] Hcalm Hc Hp. unfold calm in Hcalm. unfold activate_leap, call.
  destruct (cl_other _ _ (Hother (w_calls w) (w_ctl w))) as [Ha Hh]. set (c := en_between env (w_calls w) (w_ctl w)) in *.
  assert (w_ctl (w <| w_calls := S (w_calls w) |>) = w_ctl w) as -> by (by destruct w). fold c.
  pose proof (cl_activate_ok c r) as Hok. pose proof (cl_activate_err c r) as Herr. destruct (ctl_activate c r) as [c' err]. cbn [fst snd] in *.
  pose proof (I3 r Hc Hp) as Hd. destruct w as [u sched rep d k calls tr]. cbn in *.
  assert (forall x y, EffActivate x y ∈ EffActivate r (entry_of d state_json) :: tr -> entry_holds y x) as Hasked.
  { intros x y Hin. apply elem_of_cons in Hin as [Hin|Hin]; [by injection Hin as -> ->|by apply I5]. }
  destruct err as [x|].
  - specialize (Herr x eq_refl). constructor; cbn; try done.
    + intros y Hy. destruct Herr as [E|[E Hhal]]; [left; apply Hcalm; congruence|right; split; [done|congruence]].
    + intros y Hy. destruct Herr as [E|[E Hhal]]; [apply I2; congruence|assert (y = r) as -> by congruence; exact Hd].
  - specialize (Hok eq_refl). destruct u as [[a p b ex lc] st di co np ss]. cbn in *. subst. constructor; cbn; try done.
    + intros y Hy. left. congruence.
    + intros y Hy. assert (y = r) as -> by congruence. exact Hd.
    + intros y [[= <-]|?]; [apply I4; by right|done].
    + exact (older_anchor_top (mkLeapState a (Some r) b ex lc) (mkLeapState (Some r) None b ex lc) _ eq_refl I6).
Qed.

Lemma keeps_activate : keeps (activate env marshal).
Proof.
  intros w Hw. unfold activate. unfold mbind at 1, Upd_bind at 1, gets. destruct (ls_Pending (u_state (w_u w))) as [r|] eqn:Ep; [|exact Hw].
  destruct (u_committed (w_u w)) eqn:Ec; [|exact Hw]. unfold mbind at 1, Upd_bind at 1. destruct (approve_spec r w Hw) as (H1 & H2 & H3 & H4 & H5).
  destruct (approve env r w) as [err w1]. cbn [fst snd] in *. destruct err as [x|]; [exact H1|]. specialize (H5 eq_refl).
  unfold mbind at 1, Upd_bind at 1. rewrite <- H2 in Ep, Ec. pose proof (activate_leap_spec r w1 H1 H5 Ec Ep) as Ha.
  destruct (activate_leap env r w1) as [err w2]. destruct err as [x|]; [exact Ha|].
  unfold mbind at 1, Upd_bind at 1, on_u at 1, modify at 1. cbv beta iota. revert Ha. generalize (w2 <| w_u := (w_u w2) <| u_state := (u_state (w_u w2)) <| ls_Active := Some r |> <| ls_Pending := None |> |> |>).
  apply keeps_bind; [apply keeps_counts|]. intros _. apply keeps_bind; [apply keeps_status|]. intros _. apply keeps_bind; [apply keeps_publish|]. intros _.
  apply keeps_bind; [by apply keeps_u; intros []|]. intros _. apply keeps_save.
Qed.

(** ** Installing *)

(** A newly approved record becomes the pending one. *)
Lemma Inv_pending w r now : Inv w -> calm w -> obj_ok (lr_Object r) -> anchor_le (Anchor (u_state (w_u w))) (Some (lr_Object r)) ->
  Inv (w <| w_u := (w_u w) <| u_state := (u_state (w_u w)) <| ls_Pending := Some r |> <| ls_UTCbound := now |> |> <| u_committed := false |> <| u_dirty := true |> |>).
Proof.
  intros [I1 I2 I3 I4 I5 I6] Hcalm Ho Hle. unfold calm in Hcalm. destruct w as [u sched rep e se k calls tr]. destruct u as [[a p b ex lc] st di co np ss]. cbn in *.
  constructor; cbn; try done.
  - intros x Hx. left. by apply Hcalm.
  - intros x [Hx|[= <-]]; [apply I4; by left|done].
  - inversion I6 as [|? ? Ht Hf]; subst. constructor; [done|]. revert Hf. apply List.Forall_impl. intros x Hx. unfold older_anchor in *.
    etransitivity; [exact Hx|exact Hle].
Qed.

Lemma anchor_ok w x : Inv w -> Anchor (u_state (w_u w)) = Some x -> obj_ok x.
Proof.
  intros [_ _ _ I4 _ _]. unfold Anchor. destruct (ls_Pending (u_state (w_u w))) as [p|]; [intros [= <-]; apply I4; by right|].
  destruct (ls_Active (u_state (w_u w))) as [a|]; [intros [= <-]; apply I4; by left|done].
Qed.

Lemma keeps_install o p : obj_ok o -> keeps (install env marshal o p).
Proof.
  intros Ho w Hw. unfold install. unfold mbind at 1, Upd_bind at 1. apply keeps_view in Hw. destruct (leap_view env w) as [v w1]. cbn [snd] in Hw. clear w.
  destruct (negb (vw_Known v)); [exact Hw|]. cbv zeta. unfold mbind at 1, Upd_bind at 1, gets. 
  destruct (CheckUpdate (Anchor (u_state (w_u w1))) (Some o) (deciding v)) as [x|] eqn:Eu; [exact Hw|].
  destruct (unchanged (u_state (w_u w1)) o).
  - revert w1 Hw Eu. assert (keeps (on_status (C:=C) (fun s => s <| us_LastResult := "unchanged"%string |>);; publish;; mret (M:=Upd C) (None : option UpdError))) as K.
    { apply keeps_bind; [apply keeps_status|]. intros _. apply keeps_bind; [apply keeps_publish|]. intros _. apply keeps_ret. }
    intros w1 Hw _. exact (K w1 Hw).
  - unfold mbind at 1, Upd_bind at 1. set (r := mkRecord o p (deciding v)). destruct (approve_spec r w1 Hw) as (H1 & H2 & H3 & H4 & H5).
    destruct (approve env r w1) as [err w2]. cbn [fst snd] in *. destruct err as [x|]; [exact H1|]. specialize (H5 eq_refl).
    unfold mbind at 1, Upd_bind at 1, on_u at 1, modify at 1. cbv beta iota.
    apply CheckUpdate_anchor in Eu; [|intros x; by apply anchor_ok|done]. rewrite <- H2 in Eu.
    pose proof (Inv_pending w2 r (deciding v) H1 H5 Ho Eu) as Hp. revert Hp.
    generalize (w2 <| w_u := (w_u w2) <| u_state := (u_state (w_u w2)) <| ls_Pending := Some r |> <| ls_UTCbound := deciding v |> |> <| u_committed := false |> <| u_dirty := true |> |>).
    apply keeps_bind; [apply keeps_save|]. intros [x|]; [apply keeps_ret|apply keeps_activate].
Qed.

(** Every table a job brings was parsed from its bytes. *)
Lemma ReadObject_ok b o : ReadObject b = Ok o -> obj_ok o.
Proof. unfold ReadObject, obj_ok. intros E. by rewrite (NewObject_data _ _ E). Qed.

Lemma client_fetch_object key spacing cached now net o : client_fetch key spacing cached now net = Some (Ok (Some o)) -> obj_ok o.
Proof.
  unfold client_fetch. destruct (leap_exchange key (probe_request cached) (net 0%nat)) as [[m|e]|]; cbn [mbind option_bind]; [|done|done].
  cbv zeta. case_goal; [done|]. destruct (CheckManifest cached (mManifest m) now); [done|]. case_goal; [done|]. case_goal; [done|].
  destruct (fetch_chunks _ _ _ _ _) as [[d|e]|]; cbn [mbind option_bind]; [|done|done]. destruct (NewObject d) as [x|] eqn:E; [|done].
  case_goal; [done|]. intros [= <-]. unfold obj_ok. by rewrite (NewObject_data _ _ E).
Qed.

Lemma run_job_object j i o : fr_object (run_job ParseTime cfg j i) = Some o -> obj_ok o.
Proof.
  unfold run_job. cbv zeta. case_goal.
  - unfold LoadObject. destruct (ji_file i) as [b|]; [|done]. destruct (ReadObject b) as [x|] eqn:E; cbn; [|done]. intros [= <-]. by eapply ReadObject_ok.
  - destruct (uc_seed cfg) as [seed|].
    + pose proof (seed_fetch_sound ParseTime true (uc_UserAgent cfg) (jb_validators j) (ji_response i) (ji_now i)) as Hs.
      destruct (fetchSeed _ _ _ _ _ _) as [r|e]; cbn; [|done]. destruct Hs as (_ & _ & res & _ & Hs). intros E. destruct (sr_NotModified r).
      * destruct Hs as (_ & _ & Hn). congruence.
      * destruct Hs as (_ & x & Hx & Hn & _). congruence.
    + destruct (jb_peer j ≫= _) as [q|]; [|done]. unfold peer_fetch. case_goal; [done|]. case_goal; [done|].
      destruct (client_fetch _ _ _ _ _) as [[[x|]|e]|] eqn:E; cbn; try done. intros [= <-]. by eapply client_fetch_object.
Qed.

(** ** The whole run *)

Hint Resolve keeps_ret keeps_gets keeps_sched keeps_counts keeps_status keeps_publish keeps_time_now keeps_jitter keeps_view keeps_saveSeed keeps_reject
  keeps_save keeps_activate : keeps.

Lemma keeps_checkpoint v force : keeps (on_u (fun u => checkpoint u v force)).
Proof. apply keeps_u. intros u. apply checkpoint_same. Qed.
Hint Resolve keeps_checkpoint : keeps.

Ltac keep :=
  repeat first
    [ solve [auto with keeps nocore]
    | match goal with
      | |- keeps (mbind _ _) => apply keeps_bind; [|intros ?]
      | |- keeps (when_ _ _) => apply keeps_when
      | |- keeps (on_u _) => apply keeps_u; intros []
      | |- keeps (match ?x with _ => _ end) => destruct x
      end ].

Lemma keeps_initial v now : keeps (initial_schedule env cfg v now).
Proof. unfold initial_schedule. keep. Qed.

Lemma keeps_retry v now : keeps (retry_activation env marshal error_text v now).
Proof. unfold retry_activation. keep. Qed.

Lemma keeps_start v now : keeps (start_job env marshalSeed cfg v now).
Proof.
  unfold start_job. cbv zeta. keep; [by destruct u_state|].
  apply keeps_modify. intros []. constructor; cbn; eauto.
Qed.

Lemma keeps_schedule_peer i err : keeps (schedule_peer env i err).
Proof. unfold schedule_peer, positive_wait. cbv zeta. keep. Qed.

Lemma keeps_schedule_single err : keeps (schedule_single env cfg err).
Proof. unfold schedule_single, positive_wait. cbv zeta. keep. Qed.

Lemma keeps_note_check r : keeps (note_check env marshalSeed r).
Proof. unfold note_check. keep; destruct u_state; cbn; repeat case_goal; done. Qed.

Hint Resolve keeps_initial keeps_retry keeps_start keeps_schedule_peer keeps_schedule_single keeps_note_check : keeps.

Lemma keeps_complete r : (forall o, fr_object r = Some o -> obj_ok o) -> keeps (complete env marshal marshalSeed error_text cfg r).
Proof.
  intros Hr. unfold complete. apply keeps_bind; [keep|]. intros _. apply keeps_bind; [keep|]. intros v. apply keeps_bind; [keep|]. intros _.
  apply keeps_bind; [destruct (fr_err r), (fr_object r) as [o|]; first [by apply keeps_install, Hr | apply keeps_ret]|]. intros err. keep.
Qed.

Lemma keeps_turn a : keeps (turn env marshal marshalSeed ParseTime error_text cfg a).
Proof.
  unfold turn. keep. apply keeps_complete. intros o. by apply run_job_object.
Qed.

Lemma keeps_turns l : keeps (turns env marshal marshalSeed ParseTime error_text cfg l).
Proof. induction l as [|a l IH]; cbn [turns]; [apply keeps_ret|]. apply keeps_bind; [apply keeps_turn|]. by intros _. Qed.

Lemma keeps_run l : keeps (Updater_Run env marshal marshalSeed ParseTime error_text cfg l).
Proof.
  unfold Updater_Run. apply keeps_bind; [apply keeps_turns|]. intros _. unfold finish_run. keep.
Qed.

(** What the updater starts from: the state the cache loads, in the controller
    too. *)
Record started (d : Directory) (c : C) : Prop := {
  sd_entry : loadState unmarshal d = Ok (uc_Initial cfg);
  sd_active : ctl_active c = ls_Active (uc_Initial cfg)
}.

Lemma new_inv seed d c : started d c -> Inv (newUpdater cfg seed d c).
Proof.
  intros [H1 H2]. unfold newUpdater. cbv zeta. apply keeps_publish. apply loadState_holds in H1 as [H1 H3].
  assert (forall r, ls_Active (uc_Initial cfg) = Some r \/ ls_Pending (uc_Initial cfg) = Some r -> entry_holds (entry_of d state_json) r) as Hh.
  { intros r Hr. destruct H1 as [(f & -> & Hk & Hp & Hb)|E]; [exists f, (uc_Initial cfg); by auto 10|]. rewrite E in Hr. by destruct Hr. }
  constructor; cbn.
  - intros r. rewrite H2. by left.
  - intros r. rewrite H2. intros ?. apply Hh. by left.
  - intros r _ ?. apply Hh. by right.
  - destruct H3 as [->|[S1 S2 _ _ _ _]]; [by intros r [?|?]|]. intros r [Hr|Hr]; [by apply S1|by apply S2].
  - intros r x Hin. by apply elem_of_nil in Hin.
  - constructor; [constructor; constructor|]. constructor; [unfold older_anchor; reflexivity|constructor].
Qed.

(** A leap table is durable before it is in force.  Whatever the
    controller does within its laws, whatever stage of whatever save fails and
    however the acquisition jobs end, each activation the updater asks for is of
    a record that the cache entry on disk already holds, and the table in force
    in the controller is still in the cache after any number of turns and after
    the shutdown: a restart finds it. *)
Theorem active_table_durable seed d c l m :
  started d c ->
  m = turns env marshal marshalSeed ParseTime error_text cfg l \/ m = Updater_Run env marshal marshalSeed ParseTime error_text cfg l ->
  let w := (m (newUpdater cfg seed d c)).2 in
  (forall r x, EffActivate r x ∈ w_trace w -> entry_holds x r) /\ (forall r, ctl_active (w_ctl w) = Some r -> entry_holds (state_entry w) r).
Proof.
  intros Hs Hm. cbv zeta. assert (Inv (newUpdater cfg seed d c)) as H0 by (by apply new_inv).
  destruct Hm as [-> | ->]; [apply (keeps_turns l) in H0|apply (keeps_run l) in H0]; destruct H0; done.
Qed.

(** Claim C9: the rollback anchor never goes back.  The anchors of the states
    given to the store over a run, from the one loaded to the one now in memory,
    never decrease in either date, whichever of the saves failed: a retry can
    never fall back to an older table. *)
Theorem anchor_never_falls seed d c l :
  started d c ->
  let w := (Updater_Run env marshal marshalSeed ParseTime error_text cfg l (newUpdater cfg seed d c)).2 in
  StronglySorted older_anchor (u_state (w_u w) :: saved (w_trace w) ++ [uc_Initial cfg]).
Proof. intros Hs. cbv zeta. by destruct (keeps_run l _ (new_inv seed d c Hs)). Qed.

End Install.

(** ** Example: a table from a file *)

(** A controller that approves and activates everything. *)
Record Cell : Type := mkCell { cell_view : View; cell_active : option LeapRecord }.

#[export] Instance Cell_controller : Controller Cell := {
  ctl_view := cell_view;
  ctl_approve c _ := (c, None);
  ctl_activate c r := (mkCell (cell_view c) (Some r), None);
  ctl_active := cell_active;
  ctl_halted _ := False
}.

#[export] Instance Cell_laws : ControllerLaws Cell eq.
Proof. split; cbn; try done. intros c c' <-. done. Qed.

Definition manual_config : UpdaterConfig := mkUpdaterConfig "manual" [97] [] zeroLeapState [99].
Definition manual_env : Env Cell := mkEnv (fun n => unixTime (1717200000 + Z.of_nat n) 0) (fun n => write_with (if (n =? 11)%nat then Some StageRename else None) (Z.of_nat n)) (fun _ => None) (fun _ c => c).
Definition manual_cell : Cell := mkCell (mkView (unixTime 1717200000 0) true (unixTime 1717200000 0) zeroTime) None.
Definition file_input (b : list Z) : JobInput := mkJobInput (Some b) None zeroTime false (fun _ _ => mkAttempt true None None true true [] EndTimeout).
Definition plain_marshal (d : diskState) : list Z :=
  match ds_Pending d with Some r => dr_Data r | None => match ds_Active d with Some r => dr_Data r | None => [] end end.
Definition manual_run : World Cell :=
  (turns manual_env plain_marshal (fun _ => []) (fun _ => None) (fun _ => ""%string) manual_config [None; Some (file_input example_renewed_file)]
     (newUpdater manual_config (Ok zeroSeedState) empty_directory manual_cell)).2.

Definition manual_record : LeapRecord := mkRecord (object_of example_renewed_file) (mkProvider "file" [97] 0) (unixTime 1717200000 0).

Lemma manual_started : started (fun _ => None) manual_config empty_directory manual_cell.
Proof. by split. Qed.

(** The table read from the file is in force although the save after the
    activation failed, and the cache still holds it, as the pending one. *)
Lemma active_table_durable_example :
  ctl_active (w_ctl manual_run) = Some manual_record /\ state_entry manual_run = Some (private_file example_renewed_file true) /\
  u_dirty (w_u manual_run) = true /\ entry_holds plain_marshal (fun _ => None) (state_entry manual_run) manual_record.
Proof.
  pose proof (active_table_durable manual_env plain_marshal (fun _ => None) (fun _ => []) (fun _ => None) (fun _ => ""%string) manual_config
    (fun _ _ => eq_refl) (Ok zeroSeedState) empty_directory manual_cell [None; Some (file_input example_renewed_file)] _ manual_started (or_introl eq_refl)) as [_ H].
  unfold manual_run. split; [vm_compute; reflexivity|]. split; [vm_compute; reflexivity|]. split; [vm_compute; reflexivity|].
  apply H. vm_compute. reflexivity.
Defined.

Lemma anchor_never_falls_witness :
  let w := (Updater_Run manual_env plain_marshal (fun _ => []) (fun _ => None) (fun _ => ""%string) manual_config [None; Some (file_input example_renewed_file)]
     (newUpdater manual_config (Ok zeroSeedState) empty_directory manual_cell)).2 in
  length (saved (w_trace w)) = 4%nat /\ StronglySorted older_anchor (u_state (w_u w) :: saved (w_trace w) ++ [uc_Initial manual_config]).
Proof.
  cbv zeta. split; [vm_compute; reflexivity|].
  exact (anchor_never_falls manual_env plain_marshal (fun _ => None) (fun _ => []) (fun _ => None) (fun _ => ""%string) manual_config
    (fun _ _ => eq_refl) (Ok zeroSeedState) empty_directory manual_cell [None; Some (file_input example_renewed_file)] manual_started).
Defined.

(** ** A path too long to be read back *)

(** The name of a manual provider is the configured path, which nothing bounds;
    a record with a name over 1024 bytes is installed and saved, and then
    refused by the load of the next start. *)
Theorem long_path_not_loadable :
  let cfg := mkUpdaterConfig "manual" (replicate 1025 97) [] zeroLeapState [99] in
  let w := (Updater_Run manual_env plain_marshal (fun _ => []) (fun _ => None) (fun _ => ""%string) cfg [None; Some (file_input example_renewed_file)]
     (newUpdater cfg (Ok zeroSeedState) empty_directory manual_cell)).2 in
  match saved (w_trace w) with
  | s :: _ => u_dirty (w_u w) = false /\ decode_state (encode_state s) = Err StoreMetadata
  | [] => False
  end.
Proof. vm_compute. split; reflexivity. Qed.
