(* ===== verification/LeapSchedule.v ===== *)
(** * When the updater asks

    Proofs about [LeapUpdater]: the jitter's range, the retry floor over a whole
    run, and the floor a restart keeps. *)

From stdpp Require Import base list numbers strings.
From Stdlib Require Import Lia ZArith Sorted.
From S2P Require Import Prelude GoTime GoDate GoStrings NtpTime Auth Sha256 LeapTable LeapWire LeapDisk LeapStore LeapSeed LeapFetch LeapUpdater LeapInstall.

Local Open Scope Z_scope.

(** ** Waits *)

Lemma jitter_range random interval : 0 <= interval -> - Z.quot interval 10 <= jitter random interval <= Z.quot interval 5 - Z.quot interval 10.
Proof.
  intros H. rewrite !Z.quot_div_nonneg by lia. unfold jitter. rewrite !Z.quot_div_nonneg by lia.
  assert (0 <= interval / 5) by (apply Z.div_pos; lia). assert (0 <= interval / 10) by (apply Z.div_pos; lia).
  assert (interval / 10 <= interval / 5) by (apply Z.div_le_compat_l; lia).
  destruct random as [x|]; [|lia]. case_goal; bool_step; [lia|]. pose proof (Z.mod_pos_bound x (interval / 5)). lia.
Qed.

Lemma positive_jitter random interval : 0 <= interval -> interval <= interval + Z.quot (jitter random interval) 2 + Z.quot interval 20.
Proof.
  intros H. pose proof (jitter_range random interval H) as [Hj _].
  assert (- Z.quot interval 20 <= Z.quot (jitter random interval) 2); [|lia].
  rewrite !Z.quot_div_nonneg in * by lia. replace (interval / 20) with (interval / 10 / 2) by (by rewrite Z.div_div).
  assert (- (interval / 10 / 2) = Z.quot (- (interval / 10)) 2) as ->.
  { rewrite Z.quot_opp_l by lia. rewrite Z.quot_div_nonneg; [done|apply Z.div_pos; lia|lia]. }
  apply Z.quot_le_mono; lia.
Qed.

(** A wait between failures: none yet, or at least the floor. *)
Definition backoff_ok (b : duration) : Prop := b = 0 \/ seedRetryFloor <= b.

Lemma errorBackoff_floor b : backoff_ok b -> seedRetryFloor <= errorBackoff b <= 6 * Hour.
Proof.
  unfold backoff_ok, errorBackoff, seedRetryFloor, Hour, Minute, Second. intros H. destruct (Z.eqb_spec b 0); [lia|]. destruct H; lia.
Qed.

Create HintDb quiet.

Section Schedule.
Context {C : Type} {ctl : Controller C} `{BlockCipher}.
Context (env : Env C) (marshal : diskState -> list Z) (marshalSeed : diskSeed -> list Z) (ParseTime : str -> option time)
  (error_text : UpdError -> string) (cfg : UpdaterConfig).
Context (Hmono : forall n m, (n <= m)%nat -> en_now env n <= en_now env m).

(** The jobs started, the latest first. *)
Definition jobs (t : list UpdEffect) : list (time * job) := omap (fun x => match x with EffJob now j => Some (now, j) | _ => None end) t.

(** When the same file, publisher or peer may be asked again. *)
Definition allowed (s : Sched) (p : option nat) : time :=
  match p with None => sc_nextJob s | Some i => match sc_peers s !! i with Some x => ps_next x | None => zeroTime end end.

Definition peer_mode : Prop := uc_Mode cfg = "peers"%string.
Definition peer_fits (s : Sched) (p : option nat) : Prop :=
  match p with None => ~ peer_mode | Some i => peer_mode /\ (i < length (sc_peers s))%nat end.

Definition apart (newer older : time * job) : Prop := jb_peer newer.2 = jb_peer older.2 -> older.1 + seedRetryFloor <= newer.1.

(** The jobs are spaced, and the next one of each kind will be, except for the
    kind that is in flight or being scheduled. *)
Record spaced (hole : option (option nat)) (s : Sched) (n : nat) (js : list (time * job)) : Prop := {
  sp_apart : StronglySorted apart js;
  sp_past : forall t j, (t, j) ∈ js -> t <= en_now env n;
  sp_next : forall t j, (t, j) ∈ js -> hole = Some (jb_peer j) \/ t + seedRetryFloor <= allowed s (jb_peer j);
  sp_kind : forall t j, (t, j) ∈ js -> jb_peer j = None <-> ~ peer_mode;
  sp_fresh : sc_initial s = true -> js = [] /\ hole = None;
  sp_hole : forall p, hole = Some p -> peer_fits s p;
  sp_backoff : backoff_ok (sc_backoff s) /\ forall i x, sc_peers s !! i = Some x -> backoff_ok (ps_backoff x)
}.

Definition spacedW (hole : option (option nat)) (w : World C) : Prop := spaced hole (w_sched w) (w_calls w) (jobs (w_trace w)).

Lemma spaced_later hole s n m js : (n <= m)%nat -> spaced hole s n js -> spaced hole s m js.
Proof. intros Hn [S1 S2 S3 S4 S5 S6 S7]. constructor; try done. intros t j Hin. specialize (S2 t j Hin). specialize (Hmono n m Hn). lia. Qed.

(** ** Steps that leave the schedule alone *)

Definition same_sched (w w' : World C) : Prop :=
  w_sched w' = w_sched w /\ (w_calls w <= w_calls w')%nat /\ jobs (w_trace w') = jobs (w_trace w).

Lemma same_sched_spaced hole w w' : same_sched w w' -> spacedW hole w -> spacedW hole w'.
Proof. intros (E1 & E2 & E3). unfold spacedW. rewrite E1, E3. by apply spaced_later. Qed.

Definition quiet {A} (m : Upd C A) : Prop := forall w, same_sched w (m w).2.

Lemma quiet_bind {A B} (m : Upd C A) (k : A -> Upd C B) : quiet m -> (forall a, quiet (k a)) -> quiet (m ≫= k).
Proof.
  intros Hm Hk w. specialize (Hm w). unfold mbind, Upd_bind. destruct (m w) as [a w1]. specialize (Hk a w1). cbn [snd] in Hm.
  destruct Hm as (E1 & E2 & E3), Hk as (F1 & F2 & F3). split; [congruence|]. split; [lia|congruence].
Qed.

Lemma quiet_ret {A} (a : A) : quiet (mret a).
Proof. by intros w. Qed.

Lemma quiet_gets {A} (f : World C -> A) : quiet (gets f).
Proof. by intros w. Qed.

Lemma quiet_when b (m : Upd C unit) : quiet m -> quiet (when_ b m).
Proof. destruct b; [done|]. intros _. apply quiet_ret. Qed.

Lemma quiet_u f : quiet (on_u f).
Proof. by intros []. Qed.

Lemma quiet_counts f : quiet (on_counts f).
Proof. by intros []. Qed.

Lemma quiet_status f : quiet (on_status f).
Proof. by intros []. Qed.

Lemma quiet_publish : quiet publish.
Proof. by intros []. Qed.

Lemma quiet_call {A} (f : nat -> World C -> A * World C) : (forall n w, same_sched w (f n w).2) -> quiet (call f).
Proof.
  intros Hf w. unfold call. set (w1 := w <| w_calls := S (w_calls w) |>).
  assert (w_sched w1 = w_sched w /\ w_calls w1 = S (w_calls w) /\ w_trace w1 = w_trace w) as (F1 & F2 & F3) by (by destruct w).
  destruct (Hf (w_calls w) w1) as (E1 & E2 & E3). rewrite F1 in E1. rewrite F2 in E2. rewrite F3 in E3. split; [done|]. split; [lia|done].
Qed.

Lemma quiet_time_now : quiet (time_now env).
Proof. by apply quiet_call. Qed.

Lemma quiet_jitter i : quiet (get_jitter env i).
Proof. by apply quiet_call. Qed.

Lemma quiet_view : quiet (leap_view env).
Proof. apply quiet_call. by intros n []. Qed.

Lemma quiet_approve r : quiet (approve env r).
Proof. apply quiet_call. intros n w. destruct (ctl_approve _ _). by destruct w. Qed.

Lemma quiet_activate_leap r : quiet (activate_leap env r).
Proof. apply quiet_call. intros n w. destruct (ctl_activate _ _). by destruct w. Qed.

Lemma quiet_store_save : quiet (store_save env marshal).
Proof. apply quiet_call. intros n w. destruct (Save _ _ _ _) as [[? ?] ?]. by destruct w. Qed.

Lemma quiet_store_save_seed : quiet (store_save_seed env marshalSeed).
Proof. apply quiet_call. intros n w. destruct (SaveSeed _ _ _ _) as [[? ?] ?]. by destruct w. Qed.

Hint Resolve quiet_ret quiet_gets quiet_u quiet_counts quiet_status quiet_publish quiet_time_now quiet_jitter quiet_view quiet_approve
  quiet_activate_leap quiet_store_save quiet_store_save_seed : quiet.

Ltac silent :=
  repeat first
    [ solve [auto with quiet nocore]
    | match goal with
      | |- quiet (mbind _ _) => apply quiet_bind; [|intros ?]
      | |- quiet (when_ _ _) => apply quiet_when
      | |- quiet (match ?x with _ => _ end) => destruct x
      end ].

Lemma quiet_save : quiet (save env marshal).
Proof. unfold save. silent. Qed.

Lemma quiet_saveSeed : quiet (saveSeed env marshalSeed).
Proof. unfold saveSeed. silent. Qed.

Lemma quiet_reject e o : quiet (upd_reject error_text e o).
Proof. unfold upd_reject. silent. Qed.

Hint Resolve quiet_save quiet_saveSeed quiet_reject : quiet.

Lemma quiet_activate : quiet (activate env marshal).
Proof. unfold activate. silent. Qed.
Hint Resolve quiet_activate : quiet.

Lemma quiet_install o p : quiet (install env marshal o p).
Proof. unfold install. cbv zeta. silent. Qed.

Lemma quiet_note_check r : quiet (note_check env marshalSeed r).
Proof. unfold note_check. silent. Qed.
Hint Resolve quiet_install quiet_note_check : quiet.

(** ** Steps of the schedule *)

Definition carries {A} (h h' : option (option nat)) (m : Upd C A) : Prop := forall w, spacedW h w -> spacedW h' (m w).2.

Lemma carries_bind {A B} h1 h2 h3 (m : Upd C A) (k : A -> Upd C B) : carries h1 h2 m -> (forall a, carries h2 h3 (k a)) -> carries h1 h3 (m ≫= k).
Proof. intros Hm Hk w Hw. specialize (Hm w Hw). unfold mbind, Upd_bind. destruct (m w) as [a w1]. by apply Hk. Qed.

Lemma carries_quiet {A} h (m : Upd C A) : quiet m -> carries h h m.
Proof. intros Hm w. apply same_sched_spaced, Hm. Qed.

Lemma carries_sched h h' f : (forall s n js, spaced h s n js -> spaced h' (f s) n js) -> carries h h' (on_sched f).
Proof. intros Hf w. unfold spacedW, on_sched, modify. cbn [snd]. destruct w. apply Hf. Qed.

(** The completion of a job that has no peer. *)
Lemma spaced_single s n js now : spaced (Some None) s n js -> en_now env n + seedRetryFloor <= now -> spaced None (s <| sc_nextJob := now |>) n js.
Proof.
  intros [S1 S2 S3 S4 S5 S6 S7] Hn. specialize (S6 None eq_refl). destruct s as [ps nj bo na ini fl]. cbn in *. constructor; cbn; try done.
  - intros t j Hin. right. destruct (jb_peer j) eqn:Ej; [|cbn; specialize (S2 t j Hin); lia].
    exfalso. destruct (S4 t j Hin) as [_ Hk]. specialize (Hk S6). congruence.
  - intros E. by destruct (S5 E).
Qed.

(** The completion of a peer's job. *)
Lemma spaced_peer s n js i x now now' :
  spaced (Some (Some i)) s n js -> en_now env n + seedRetryFloor <= now -> backoff_ok (ps_backoff x) ->
  spaced None (s <| sc_peers := <[i := x <| ps_next := now |>]> (sc_peers s) |> <| sc_nextJob := now' |>) n js.
Proof.
  intros [S1 S2 S3 S4 S5 S6 S7] Hn Hb. destruct (S6 (Some i) eq_refl) as [Hm Hi]. destruct s as [ps nj bo na ini fl], x as [nx bx sx px]. cbn in *. constructor; cbn; try done.
  - intros t j Hin. right. destruct (S4 t j Hin) as [Hk _]. specialize (S2 t j Hin). destruct (jb_peer j) as [k|] eqn:Ej; [|by destruct (Hk eq_refl)]. cbn.
    destruct (decide (k = i)) as [->|Hne]; [rewrite list_lookup_insert_eq by done; cbn; lia|]. rewrite list_lookup_insert_ne by done.
    destruct (S3 t j Hin) as [[= E]|E]; rewrite Ej in E; [congruence|exact E].
  - intros E. by destruct (S5 E).
  - destruct S7 as [S7 S8]. split; [done|]. intros k y. destruct (decide (k = i)) as [->|Hne].
    + rewrite list_lookup_insert_eq by done. by intros [= <-].
    + rewrite list_lookup_insert_ne by done. apply S8.
Qed.

(** ** Scheduling after a job *)

Lemma carries_single err : carries (Some None) None (schedule_single env cfg err).
Proof.
  intros w Hw. unfold schedule_single. destruct err as [e|].
  - unfold mbind, Upd_bind, gets, on_sched, modify, time_now, positive_wait, get_jitter, call. cbn [fst snd mret Upd_ret].
    set (b := errorBackoff (sc_backoff (w_sched w))).
    set (interval := single_interval b e).
    destruct Hw as [S1 S2 S3 S4 S5 S6 [S7 S8]]. pose proof (errorBackoff_floor _ S7) as Hb. fold b in Hb.
    assert (seedRetryFloor <= interval) as Hi by (unfold interval, single_interval; destruct e as [| | | | |[]]; try case_goal; lia).
    clearbody interval b. pose proof (positive_jitter (en_random env (S (w_calls w))) interval ltac:(unfold seedRetryFloor, Minute, Second in *; lia)) as Hp.
    destruct w as [u s rep dir c n tr]. cbn in *.
    change (spaced None (s <| sc_backoff := b |> <| sc_nextJob := Add (en_now env n) (interval + Z.quot (jitter (en_random env (S n)) interval) 2 + Z.quot interval 20) |>) (S (S n)) (jobs tr)).
    apply (spaced_later _ _ n); [lia|]. apply spaced_single.
    + destruct s. constructor; cbn; try done. split; [right; lia|done].
    + unfold Add. lia.
  - unfold mbind, Upd_bind, gets, on_sched, modify, time_now, get_jitter, call. cbn [fst snd mret Upd_ret].
    set (interval := if bool_decide _ then Hour else 24 * Hour).
    assert (interval = Hour \/ interval = 24 * Hour) as Hi by (unfold interval; destruct (bool_decide _); auto). clearbody interval.
    pose proof (jitter_range (en_random env (S (w_calls w))) interval ltac:(destruct Hi as [-> | ->]; done)) as [Hp _].
    assert (seedRetryFloor <= interval - Z.quot interval 10) as Hf by (destruct Hi as [-> | ->]; done).
    destruct Hw as [S1 S2 S3 S4 S5 S6 [S7 S8]]. destruct w as [u s rep dir c n tr]. cbn in *.
    change (spaced None (s <| sc_backoff := 0 |> <| sc_nextJob := Add (en_now env n) (interval + jitter (en_random env (S n)) interval) |>) (S (S n)) (jobs tr)).
    apply (spaced_later _ _ n); [lia|]. apply spaced_single.
    + destruct s. constructor; cbn; try done. split; [by left|done].
    + unfold Add. lia.
Qed.

Lemma peer_interval_floor s err : backoff_ok (ps_backoff s) ->
  backoff_ok (ps_backoff (peer_interval s err).1) /\ seedRetryFloor <= (peer_interval s err).2.
Proof.
  intros Hb. pose proof (errorBackoff_floor _ Hb) as [Hf _]. unfold peer_interval. destruct s as [nx bo st sp]. destruct err as [e|]; [|split; [by left|done]].
  unfold backoff_ok in *. destruct e as [| | | |[]|]; cbn in *; (split; [right; exact Hf|]); try exact Hf; lia.
Qed.

Lemma carries_peer i err : carries (Some (Some i)) None (schedule_peer env i err).
Proof.
  intros w Hw. unfold schedule_peer.
  assert (backoff_ok (ps_backoff (default freshPeer (sc_peers (w_sched w) !! i)))) as Hb.
  { destruct Hw as [_ _ _ _ _ _ [_ S8]]. destruct (sc_peers (w_sched w) !! i) as [x|] eqn:E; [by eapply S8|by left]. }
  pose proof (peer_interval_floor _ err Hb) as [Hb' Hi].
  unfold mbind at 1, Upd_bind at 1, gets. destruct (peer_interval (default freshPeer (sc_peers (w_sched w) !! i)) err) as [x interval]. cbn [fst snd] in *.
  destruct w as [u s rep dir c n tr]. cbn in Hw.
  pose proof (positive_jitter (en_random env (S n)) interval ltac:(unfold seedRetryFloor, Minute, Second in *; lia)) as Hp.
  set (wait := interval + Z.quot (jitter (en_random env (S n)) interval) 2 + Z.quot interval 20) in *.
  change (spaced None (s <| sc_peers := <[i := x <| ps_next := Add (en_now env n) wait |>]> (sc_peers s) |>
    <| sc_nextJob := Add (en_now env (S (S n))) updater_spacing |>) (S (S (S n))) (jobs tr)).
  clearbody wait. apply (spaced_later _ _ n); [lia|]. apply spaced_peer; [exact Hw|unfold Add; lia|done].
Qed.

(** ** Starting a job *)

Lemma due_peer_spec now l : forall k i, due_peer k now l = Some i ->
  exists x, l !! (i - k)%nat = Some x /\ (k <= i)%nat /\ ps_next x <= now /\ ps_stopped x = false.
Proof.
  induction l as [|s l IH]; intros k i; cbn [due_peer]; [done|]. destruct (negb (ps_stopped s) && negb (Before now (ps_next s))) eqn:E.
  - intros [= <-]. exists s. rewrite Nat.sub_diag. unfold Before in E. repeat bool_step. done.
  - intros Hd. destruct (IH (S k) i Hd) as (x & Hx & Hk & Hn). exists x. replace (i - k)%nat with (S (i - S k)) by lia. cbn. split; [done|]. split; [lia|done].
Qed.

Lemma spaced_start s n js now j :
  spaced None s n js -> now <= en_now env n -> allowed s (jb_peer j) <= now -> peer_fits s (jb_peer j) -> sc_initial s = false ->
  spaced (Some (jb_peer j)) (s <| sc_inflight := Some j |>) n ((now, j) :: js).
Proof.
  intros [S1 S2 S3 S4 S5 S6 S7] Hn Ha Hf Hi. assert (forall p, allowed (s <| sc_inflight := Some j |>) p = allowed s p) as Hal by (by destruct s; intros []).
  assert (jb_peer j = None <-> ~ peer_mode) as Hk by (destruct (jb_peer j); cbn in Hf; [split; [done|by destruct Hf]|by split]).
  constructor.
  - constructor; [done|]. apply List.Forall_forall. intros [t k] Hin Hp. apply list_elem_of_In in Hin. cbn in *.
    destruct (S3 t k Hin) as [?|Hnx]; [done|]. rewrite <- Hp in Hnx. lia.
  - intros t k Hin. apply elem_of_cons in Hin as [[= -> ->]|Hin]; [done|by eapply S2].
  - intros t k Hin. rewrite Hal. apply elem_of_cons in Hin as [[= -> ->]|Hin]; [by left|]. right. by destruct (S3 t k Hin).
  - intros t k Hin. apply elem_of_cons in Hin as [[= -> ->]|Hin]; [done|by eapply S4].
  - destruct s. cbn in *. congruence.
  - intros p [= <-]. by destruct s, (jb_peer j).
  - by destruct s.
Qed.

Definition spacedT (w : World C) : Prop := spacedW (jb_peer <$> sc_inflight (w_sched w)) w.

Lemma quiet_spacedT {A} (m : Upd C A) w : quiet m -> spacedT w -> spacedT (m w).2.
Proof. intros Hm. unfold spacedT. destruct (Hm w) as (E & _). rewrite E. apply same_sched_spaced, Hm. Qed.

Lemma start_job_spaced v now w :
  (vw_Known v = true -> sc_initial (w_sched w) = false) -> now <= en_now env (w_calls w) -> spacedT w -> spacedT (start_job env marshalSeed cfg v now w).2.
Proof.
  intros Hk Hn Hw. unfold start_job. unfold mbind at 1, Upd_bind at 1, gets. cbv zeta.
  destruct (vw_Known v && _ && _ && _) eqn:Eg; [|exact Hw]. cbn [when_]. apply andb_true_iff in Eg as [Eg En]. apply andb_true_iff in Eg as [Eg _].
  apply andb_true_iff in Eg as [Eg Ei]. specialize (Hk Eg). unfold Before in En. apply negb_true_iff, Z.ltb_ge in En.
  unfold spacedT in Hw. assert (sc_inflight (w_sched w) = None) as Efl.
  { destruct (sc_inflight (w_sched w)); [|done]. by rewrite bool_decide_eq_true_2 in Ei. }
  rewrite Efl in Hw. set (peer := if bool_decide _ then due_peer 0 now _ else None).
  destruct (bool_decide (uc_Mode cfg = "manual"%string) || seeding cfg || bool_decide (is_Some peer)) eqn:Eb; [|unfold spacedT; cbn; by rewrite Efl].
  cbn [when_]. set (j := mkJob peer _ _ _ _).
  assert (peer_fits (w_sched w) peer /\ allowed (w_sched w) peer <= now) as [Hpf Hpa].
  { unfold peer in *. destruct (bool_decide (uc_Mode cfg = "peers"%string)) eqn:Em; [apply bool_decide_eq_true in Em|apply bool_decide_eq_false in Em; by split].
    destruct (due_peer 0 now (sc_peers (w_sched w))) as [i|] eqn:Ed.
    - apply due_peer_spec in Ed as (x & Hx & _ & Hnx & _). rewrite Nat.sub_0_r in Hx. cbn. rewrite Hx. split; [|done]. split; [done|]. by eapply lookup_lt_Some.
    - exfalso. unfold seeding, uc_seed in Eb. rewrite Em in Eb. vm_compute in Eb. done. }
  unfold mbind at 1, Upd_bind at 1, on_sched at 1, modify at 1. cbv beta iota. set (w1 := w <| w_sched := _ |>).
  assert (quiet (when_ (C:=C) (seeding cfg) (on_u (fun u => u <| u_seedState := (u_seedState u) <| se_LastAttempt := vw_Now v |> |>);; saveSeed env marshalSeed))) as Hq by silent.
  unfold mbind at 1, Upd_bind at 1. specialize (Hq w1). destruct (when_ _ _ w1) as [[] w2]. cbn [snd] in Hq. destruct Hq as (Q1 & Q2 & Q3).
  assert (w_sched w1 = (w_sched w) <| sc_inflight := Some j |> /\ w_calls w1 = w_calls w /\ w_trace w1 = w_trace w) as (F1 & F2 & F3) by (by destruct w).
  rewrite F1 in Q1. rewrite F2 in Q2. rewrite F3 in Q3. clearbody w1. unfold modify. cbn [snd]. unfold spacedT, spacedW.
  destruct w2 as [u2 s2 rep2 dir2 c2 n2 tr2]. cbn [w_sched w_calls w_trace set] in *. subst s2.
  change (jobs (EffJob now j :: tr2)) with ((now, j) :: jobs tr2). rewrite Q3.
  assert (jb_peer <$> sc_inflight ((w_sched w) <| sc_inflight := Some j |>) = Some (jb_peer j)) as -> by (by destruct (w_sched w)).
  apply (spaced_later _ _ (w_calls w)); [done|]. by apply spaced_start.
Qed.

(** ** The top of the loop *)

(** Before the first job, only the backoffs matter. *)
Definition unstarted (w : World C) : Prop :=
  jobs (w_trace w) = [] /\ sc_inflight (w_sched w) = None /\
  backoff_ok (sc_backoff (w_sched w)) /\ forall i x, sc_peers (w_sched w) !! i = Some x -> backoff_ok (ps_backoff x).

Lemma unstarted_spaced w : unstarted w -> spacedT w.
Proof.
  intros (E1 & E2 & Hb). unfold spacedT, spacedW. rewrite E1, E2. constructor; try done; try by intros t j ?%elem_of_nil. constructor.
Qed.

(** The schedule moved on, with no job. *)
Definition scheduled (w w' : World C) : Prop := unstarted w' /\ sc_initial (w_sched w') = false /\ (w_calls w <= w_calls w')%nat.

Lemma initial_unstarted v now w : unstarted w -> scheduled w (initial_schedule env cfg v now w).2.
Proof.
  intros Hw. unfold initial_schedule. unfold mbind at 1, Upd_bind at 1, on_sched at 1, modify at 1. cbv beta iota zeta.
  set (w1 := w <| w_sched := _ |>). assert (scheduled w w1) as H1.
  { unfold scheduled, w1, unstarted in *. destruct w as [u [] rep dir c n tr]. cbn in *. auto. }
  clearbody w1. unfold mbind at 1, Upd_bind at 1, gets. destruct (seeding cfg); cbn [when_]; [|exact H1]. unfold mbind at 1, Upd_bind at 1.
  set (m := match ls_Active (u_state (w_u w1)) with Some a => _ | None => _ end).
  assert (forall x, scheduled w x -> scheduled w (m x).2) as Hm.
  { intros x Hx. unfold m. destruct (ls_Active (u_state (w_u w1))) as [a|]; [|exact Hx]. destruct (leapCurrent (lr_Object a) v); [|exact Hx].
    unfold scheduled, unstarted in *. destruct x as [u [] rep dir c n tr]. cbn in *. destruct Hx as (A & B & D). split; [done|]. split; [done|]. etransitivity; [exact D|]. change (n <= S n)%nat. lia. }
  apply Hm in H1. destruct (m w1) as [[] w2]. cbn [fst snd] in *. clear Hm m.
  destruct (negb _ && _); cbn [when_]; [|exact H1]. unfold on_sched, modify. cbn [snd].
  unfold scheduled, unstarted in *. destruct w2 as [u [] rep dir c n tr]. cbn in *. case_goal; exact H1.
Qed.

(** The schedule is as good as it was. *)
Definition onward (w w' : World C) : Prop := spacedT w' /\ (w_calls w <= w_calls w')%nat /\ sc_initial (w_sched w') = sc_initial (w_sched w).

Lemma onward_quiet {A} (m : Upd C A) w w1 : quiet m -> onward w w1 -> onward w (m w1).2.
Proof. intros Hm (H1 & H2 & H3). pose proof (Hm w1) as (E1 & E2 & _). split; [by apply quiet_spacedT|]. split; [lia|congruence]. Qed.

Lemma retry_spaced v now w : spacedT w -> onward w (retry_activation env marshal error_text v now w).2.
Proof.
  intros Hw. assert (onward w w) as H0 by done. unfold retry_activation. unfold mbind at 1, Upd_bind at 1, gets. destruct (_ && negb (Before now _)); [|exact H0]. cbn [when_].
  unfold mbind at 1, Upd_bind at 1. apply (onward_quiet _ _ _ quiet_activate) in H0. destruct (activate env marshal w) as [err w1]. cbn [snd] in *.
  destruct err as [e|]; [|exact H0]. unfold mbind at 1, Upd_bind at 1, gets. unfold mbind at 1, Upd_bind at 1.
  apply (onward_quiet _ _ _ (quiet_reject e (Anchor (u_state (w_u w1))))) in H0. destruct (upd_reject error_text e (Anchor (u_state (w_u w1))) w1) as [[] w2]. cbn [snd] in *.
  unfold on_sched, modify. cbn [snd]. destruct H0 as (H1 & H2 & H3). destruct w2 as [u s rep dir c n tr]. destruct s. split; [|by split].
  unfold spacedT, spacedW in *. destruct H1 as [S1 S2 S3 S4 S5 S6 S7]. by constructor.
Qed.

(** ** The completion *)

(** With no job in flight, [p] being scheduled. *)
Definition landed (h : option (option nat)) (w : World C) : Prop := spacedW h w /\ sc_inflight (w_sched w) = None.

Lemma landed_quiet {A} h (m : Upd C A) w : quiet m -> landed h w -> landed h (m w).2.
Proof. intros Hm [H1 H2]. split; [by apply carries_quiet|]. destruct (Hm w) as (E & _). by rewrite E. Qed.

Lemma landed_bind {A B} h h' (m : Upd C A) (k : A -> Upd C B) w : quiet m -> (forall a w1, landed h w1 -> landed h' (k a w1).2) -> landed h w -> landed h' ((m ≫= k) w).2.
Proof. intros Hm Hk Hw. apply (landed_quiet _ m w Hm) in Hw. unfold mbind, Upd_bind. destruct (m w) as [a w1]. by apply Hk. Qed.

Lemma landed_single err w : landed (Some None) w -> landed None (schedule_single env cfg err w).2.
Proof. intros [H1 H2]. split; [by apply carries_single|]. revert H2. unfold schedule_single. destruct w as [u [] rep dir c n tr], err; cbn; done. Qed.

Lemma landed_peer i err w : landed (Some (Some i)) w -> landed None (schedule_peer env i err w).2.
Proof.
  intros [H1 H2]. split; [by apply carries_peer|]. revert H2. unfold schedule_peer. destruct w as [u [] rep dir c n tr].
  unfold mbind at 1, Upd_bind at 1, gets. destruct (peer_interval _ err) as [x d]. done.
Qed.

Lemma complete_spaced r p w : fr_peer r = p -> spacedW (Some p) w -> spacedT (complete env marshal marshalSeed error_text cfg r w).2.
Proof.
  intros Hr Hw. enough (landed None (complete env marshal marshalSeed error_text cfg r w).2) as [H1 H2] by (unfold spacedT; by rewrite H2).
  unfold complete. unfold mbind at 1, Upd_bind at 1, on_sched at 1, modify at 1. cbv beta iota.
  assert (landed (Some p) (w <| w_sched := (w_sched w) <| sc_inflight := None |> |>)) as Hl.
  { destruct w as [u s rep dir c n tr]. destruct s. split; [|done]. destruct Hw as [S1 S2 S3 S4 S5 S6 S7]. constructor; cbn in *; try done. }
  revert Hl. generalize (w <| w_sched := (w_sched w) <| sc_inflight := None |> |>). clear Hw w. intros w.
  apply landed_bind; [silent|]. intros v w1. apply landed_bind; [silent|]. intros _ w2. apply landed_bind; [silent|]. intros err w3.
  apply landed_bind; [silent|]. intros _ w4. apply landed_bind; [silent|]. intros _ w5. apply landed_bind; [silent|]. intros _ w6 Hw.
  unfold mbind, Upd_bind.
  assert (landed None (match fr_peer r with Some i => schedule_peer env i err | None => schedule_single env cfg err end w6).2) as Hs.
  { rewrite Hr. destruct p as [i|]; [by apply landed_peer|by apply landed_single]. }
  destruct (_ w6) as [[] w7]. by apply (landed_quiet _ publish w7 quiet_publish).
Qed.

(** ** A whole run *)

Lemma run_job_peer j i : fr_peer (run_job ParseTime cfg j i) = jb_peer j.
Proof.
  unfold run_job. cbv zeta. case_goal; [by destruct (LoadObject (ji_file i))|]. destruct (uc_seed cfg); [by destruct (fetchSeed _ _ _ _ _ _)|].
  destruct (jb_peer j ≫= _) as [q|]; [|done]. by destruct (peer_fetch _ _ _ _ _ _) as [[]|].
Qed.

Definition top (v : View) (now : time) (w : World C) : Prop :=
  spacedT w /\ now <= en_now env (w_calls w) /\ (vw_Known v = true -> sc_initial (w_sched w) = false).

Lemma onward_top v now w w' : onward w w' -> top v now w -> top v now w'.
Proof. intros (H1 & H2 & H3) (_ & G2 & G3). split; [done|]. pose proof (Hmono _ _ H2). split; [lia|]. by rewrite H3. Qed.

Lemma top_bind {A B} v now (m : Upd C A) (k : A -> Upd C B) w (Q : World C -> Prop) :
  quiet m -> (forall a w1, top v now w1 -> Q (k a w1).2) -> top v now w -> Q ((m ≫= k) w).2.
Proof.
  intros Hm Hk Hw. assert (onward w w) as H0 by (by destruct Hw). apply (onward_quiet _ _ _ Hm) in H0. apply (onward_top v now) in H0; [|done].
  unfold mbind, Upd_bind. destruct (m w) as [a w1]. by apply Hk.
Qed.

Lemma first_known v now w : spacedT w -> now <= en_now env (w_calls w) ->
  top v now (when_ (vw_Known v && sc_initial (w_sched w)) (initial_schedule env cfg v now) w).2.
Proof.
  intros Hw Hn. destruct (vw_Known v) eqn:Ek, (sc_initial (w_sched w)) eqn:Ei; cbn [andb when_]; try (split; [exact Hw|split; [exact Hn|cbn; congruence]]).
  assert (unstarted w) as Hu.
  { destruct Hw as [_ _ _ _ S5 _ S7]. destruct (S5 Ei) as [E1 E2]. split; [done|]. split; [by destruct (sc_inflight (w_sched w))|done]. }
  destruct (initial_unstarted v now w Hu) as (H1 & H2 & H3). split; [by apply unstarted_spaced|]. pose proof (Hmono _ _ H3). split; [lia|]. by intros _.
Qed.

Lemma turn_spaced a w : spacedT w -> spacedT (turn env marshal marshalSeed ParseTime error_text cfg a w).2.
Proof.
  intros Hw. unfold turn. unfold mbind at 1, Upd_bind at 1. apply (quiet_spacedT _ _ quiet_view) in Hw. destruct (leap_view env w) as [v w1]. cbn [snd] in Hw. clear w.
  unfold mbind at 1, Upd_bind at 1. pose proof (quiet_spacedT _ _ quiet_time_now Hw) as H2.
  assert (en_now env (w_calls w1) <= en_now env (w_calls (time_now env w1).2)) as Hn by (apply Hmono; apply quiet_time_now).
  change ((time_now env w1).1) with (en_now env (w_calls w1)). destruct (time_now env w1) as [now w2] eqn:Et. assert (now = en_now env (w_calls w1)) as -> by (by injection Et).
  cbn [snd] in *. clear Et Hw. set (now := en_now env (w_calls w1)) in *. clearbody now. unfold mbind at 1, Upd_bind at 1, gets.
  unfold mbind at 1, Upd_bind at 1. pose proof (first_known v now w2 H2 Hn) as H3. destruct (when_ _ (initial_schedule env cfg v now) w2) as [[] w3]. cbn [snd] in H3. clear H2 Hn w1 w2.
  revert H3. apply top_bind; [silent|]. intros _ w4. apply (top_bind v now (gets w_u)); [silent|]. intros u w5. apply top_bind; [silent|]. intros _ w6 H6.
  unfold mbind at 1, Upd_bind at 1. pose proof (onward_top v now _ _ (retry_spaced v now w6 (proj1 H6)) H6) as H7.
  destruct (retry_activation env marshal error_text v now w6) as [[] w7]. cbn [snd] in H7. clear w6 H6. destruct H7 as (H7 & Hn & Hk).
  unfold mbind at 1, Upd_bind at 1. pose proof (start_job_spaced v now w7 Hk Hn H7) as H8. destruct (start_job env marshalSeed cfg v now w7) as [[] w8]. cbn [snd] in H8.
  unfold mbind at 1, Upd_bind at 1, gets. destruct a as [i|]; [|exact H8]. destruct (sc_inflight (w_sched w8)) as [j|] eqn:Ej; [|exact H8].
  apply (complete_spaced _ (jb_peer j)); [apply run_job_peer|]. unfold spacedT in H8. by rewrite Ej in H8.
Qed.

Lemma turns_spaced l : forall w, spacedT w -> spacedT (turns env marshal marshalSeed ParseTime error_text cfg l w).2.
Proof.
  induction l as [|a l IH]; intros w Hw; cbn [turns]; [exact Hw|]. unfold mbind at 1, Upd_bind at 1. apply (turn_spaced a) in Hw.
  destruct (turn env marshal marshalSeed ParseTime error_text cfg a w) as [[] w1]. by apply IH.
Qed.

Lemma new_spaced seed d c : spacedT (newUpdater cfg seed d c).
Proof.
  apply unstarted_spaced. split; [done|]. split; [done|]. split; [by left|]. intros i x Hx. cbn in Hx. apply lookup_replicate in Hx as [-> _]. by left.
Qed.

(** Claim C10: no publisher, peer or file is asked again within fifteen minutes.
    Over any run, whatever the answers, the demands and the random numbers, two
    jobs for the same source start at least the retry floor apart on the
    process's clock. *)
Theorem requests_apart seed d c l :
  StronglySorted apart (jobs (w_trace (turns env marshal marshalSeed ParseTime error_text cfg l (newUpdater cfg seed d c)).2)).
Proof. by destruct (turns_spaced l _ (new_spaced seed d c)). Qed.

(** A restart does not ask again either: the first schedule waits out what is
    left of the floor since the attempt on record. *)
Theorem restart_keeps_floor v now w :
  seeding cfg = true -> se_LastAttempt (u_seedState (w_u w)) <> zeroTime ->
  let w' := (initial_schedule env cfg v now w).2 in
  let wait := seedRetryFloor - Sub (vw_Now v) (se_LastAttempt (u_seedState (w_u w))) in
  0 < wait -> now + wait <= sc_nextJob (w_sched w').
Proof.
  intros Hs Ha. cbv zeta. intros Hw. unfold initial_schedule. unfold mbind at 1, Upd_bind at 1, on_sched at 1, modify at 1. cbv beta iota zeta.
  set (w1 := w <| w_sched := _ |>). assert (w_u w1 = w_u w) as Eu by (by destruct w). clearbody w1. unfold mbind at 1, Upd_bind at 1, gets. rewrite Hs. cbn [when_].
  rewrite Eu. unfold mbind at 1, Upd_bind at 1. match goal with |- context [let '(_, _) := ?m w1 in _] => destruct (m w1) as [[] w2] end.
  apply Z.ltb_lt in Hw. rewrite Hw. unfold IsZero. apply Z.eqb_neq in Ha. rewrite Ha. cbn [negb andb when_]. unfold on_sched, modify, Add, After.
  destruct w2 as [u [] rep en ss c n tr]. cbn. case_goal; bool_step; cbn; lia.
Qed.

End Schedule.

(** ** Example: a file read twice *)

Definition slow_env : Env Cell := mkEnv (fun n => unixTime (1717200000 + 1000 * Z.of_nat n) 0) (fun n => write_with None (Z.of_nat n)) (fun n => Some (Z.of_nat n)) (fun _ c => c).

Lemma requests_apart_witness :
  let l := [None; Some (file_input example_renewed_file); Some (file_input []); Some (file_input [])] in
  let js := jobs (w_trace (turns slow_env plain_marshal (fun _ => []) (fun _ => None) (fun _ => ""%string) manual_config l
     (newUpdater manual_config (Ok zeroSeedState) empty_directory manual_cell)).2) in
  length js = 2%nat /\ StronglySorted apart js.
Proof.
  cbv zeta. split; [vm_compute; reflexivity|]. apply requests_apart. intros n m Hle. cbn. unfold unixTime, Second. lia.
Defined.
