(* ===== verification/LeapAuthority.v ===== *)
(** * The engine as the updater's controller

    [Host] is the engine with its run and the readings of the updater's
    goroutine; it obeys the laws of [ControllerLaws], so what is proved of the
    updater against the interface holds of the updater with this engine, whose
    own events fall in any order between the updater's calls. *)

From stdpp Require Import base list numbers strings gmap.
From Stdlib Require Import Lia ZArith.
From S2P Require Import Prelude Float64 GoTime GoDate GoStrings NtpTime Measurement Select Loop System Auth Sha256 LeapTable LeapWire LeapDisk LeapStore Clock Drift EngineLeap Engine EngineTrace LeapSeed LeapFetch LeapUpdater LeapInstall.

Local Open Scope Z_scope.

(** ** The table in force changes only by an activation *)

Definition in_force (e : Engine) : option LeapRecord := lp_active (e_leap e).

Lemma applyLeap_active c p st wall : lp_active (applyLeap c p st wall).1 = lp_active p.
Proof.
  unfold applyLeap. pose proof (establish_spec p st wall) as (_ & _ & _ & He & _).
  destruct (leap_gate c (establish p st wall) st wall) as [p1 st1] eqn:Eg. apply leap_gate_spec in Eg as ((_ & _ & _ & _ & _ & Hg & _) & _).
  destruct (announce c p1 st1 wall) as [p2 st2] eqn:Ea. apply announce_spec in Ea as (_ & _ & _ & _ & Ha & _). cbn [fst]. congruence.
Qed.

Lemma crossed_active p wall mono : lp_active (crossedAnnouncedLeapAt p wall mono).1 = lp_active p.
Proof. unfold crossedAnnouncedLeapAt. destruct p. cbv zeta. repeat case_goal; done. Qed.

Lemma step_over_active p after : lp_active (step_over_leap p after) = lp_active p.
Proof. unfold step_over_leap. destruct p. cbv zeta. case_goal; done. Qed.

Section Host.
Context {K : Kernel}.

Lemma processing_force e t now e' : processing e t = (now, e') -> in_force e' = in_force e.
Proof. unfold processing. intros E. repeat case_in E; apply pair_equal_spec in E as [_ <-]; done. Qed.

Lemma crossLeap_force e now e' : crossLeap e now = Some e' -> in_force e' = in_force e.
Proof.
  unfold crossLeap, clk_now. pose proof (crossed_active (e_leap (called e)) (k_now (e_calls e)) now) as H.
  destruct (crossedAnnouncedLeapAt (e_leap (called e)) (k_now (e_calls e)) now) as [p crossed]. cbn [fst] in H. cbv zeta.
  set (q := p <| lp_lastMono := now |> <| lp_lastWall := k_now (e_calls e) |>). assert (lp_active q = in_force e) as Hq by (by destruct p). clearbody q.
  set (e1 := (called e) <| e_leap := q |>). assert (in_force e1 = in_force e) as H1 by done. clearbody e1.
  destruct crossed; cbn [negb]; [|intros E; by apply (inj Some) in E as <-].
  set (e2 := bump_epoch (did (bump_epoch e1) EffReset)). assert (in_force e2 = in_force e) as H2 by done. clearbody e2.
  destruct (Resync (e_sys e2) now) as [[sys res]|]; [|done]. cbn [mbind option_bind]. intros E. apply (inj Some) in E as <-. done.
Qed.

Lemma apply_action_force e a e' err : apply_action e a = (e', err) -> in_force e' = in_force e.
Proof.
  destruct a as [ppm|sec|]; cbn [apply_action].
  - destruct (CheckFrequency ppm); [by intros [= <- <-]|]. unfold setFrequency. destruct (k_takes (e_calls e)); intros E; apply pair_equal_spec in E as [<- _]; done.
  - destruct (CheckedSeconds sec) as [delta|]; [|by intros [= <- <-]]. unfold clk_now. cbv zeta. cbn beta iota.
    set (e1 := bump_epoch e). assert (in_force e1 = in_force e) as H1 by done. clearbody e1. set (ok := k_takes (e_calls (called e1))). set (e2 := bump_epoch _).
    assert (in_force e2 = in_force e) as H2 by done. clearbody e2. destruct ok; cbn [negb]; intros E; apply pair_equal_spec in E as [<- _]; [|done].
    unfold in_force in *. rewrite <- H2. exact (step_over_active (e_leap e2) _).
  - intros E. by apply pair_equal_spec in E as [<- _].
Qed.

Lemma apply_actions_force acts : forall e e' err, apply_actions e acts = (e', err) -> in_force e' = in_force e.
Proof.
  induction acts as [|a acts IH]; intros e e' err; cbn [apply_actions]; [by intros [= <- <-]|].
  destruct (apply_action e a) as [e1 err1] eqn:E1. apply apply_action_force in E1. destruct err1; [by intros [= <- <-]|]. intros E. apply IH in E. congruence.
Qed.

Lemma gated_status_force e now st e' : gated_status e now = Some (st, e') -> in_force e' = in_force e.
Proof.
  unfold gated_status, clk_now. destruct (SystemStatus (e_sys e) now) as [st0|]; [|done]. cbn [mbind option_bind].
  pose proof (applyLeap_active (ec_Leap (e_cfg (called e))) (e_leap (called e)) st0 (k_now (e_calls e))) as H.
  destruct (applyLeap _ _ _ _) as [p st1]. intros E. apply (inj Some), pair_equal_spec in E as [_ <-]. exact H.
Qed.

Lemma syncKernel_force e st e' err : syncKernel e st = (e', err) -> in_force e' = in_force e.
Proof.
  unfold syncKernel. destruct (kernel_status e st) as [ks e1] eqn:Ek. assert (in_force e1 = in_force e) as H1.
  { unfold kernel_status, kernel_leap, clk_now in Ek. repeat case_in Ek; apply pair_equal_spec in Ek as [_ <-]; try done;
    match goal with H : _ = (_, ?x) |- in_force ?x = _ => repeat case_in H; apply pair_equal_spec in H as [_ <-]; done end. }
  clear Ek. case_goal; [intros E; by apply pair_equal_spec in E as [<- _]|]. unfold setKernel.
  destruct (k_takes (e_calls e1)); intros E; apply pair_equal_spec in E as [<- _]; done.
Qed.

Lemma handle_force e res now e' err : handle e res now = Some (e', err) -> in_force e' = in_force e.
Proof.
  unfold handle. destruct (processing e now) as [now0 e0] eqn:E0. apply processing_force in E0.
  destruct (crossLeap e0 now0) as [e1|] eqn:E1; [|done]. cbn [mbind option_bind]. apply crossLeap_force in E1.
  destruct (apply_actions e1 (r_Actions res)) as [e2 err2] eqn:E2. apply apply_actions_force in E2. assert (in_force e2 = in_force e) as H2 by congruence. clear E0 E1 E2.
  destruct err2; [intros E; by apply (inj Some), pair_equal_spec in E as [<- _]|].
  destruct (gated_status e2 now0) as [[st e3]|] eqn:E3; [|done]. cbn [mbind option_bind]. apply gated_status_force in E3.
  set (e4 := if negb _ then _ else e3). assert (in_force e4 = in_force e3) as H4 by (unfold e4; by destruct (negb _)). clearbody e4.
  set (e5 := e4 <| e_freq := _ |>). assert (in_force e5 = in_force e4) as H5 by done. clearbody e5.
  destruct (syncKernel e5 st) as [e6 err6] eqn:E6. apply syncKernel_force in E6. assert (in_force e6 = in_force e) as H6 by congruence. clear H2 E3 H4 H5 E6.
  destruct err6; intros E; apply (inj Some), pair_equal_spec in E as [<- _]; [done|]. exact H6.
Qed.

Lemma feed_force e m e' res : feed e m = Some (e', res) -> in_force e' = in_force e.
Proof.
  unfold feed. destruct (Update (e_sys e) m) as [[sys r]|]; [|done]. cbn [mbind option_bind]. intros E. by apply (inj Some), pair_equal_spec in E as [<- _].
Qed.

Lemma dropQueued_force e name arrivals : in_force (dropQueued e name arrivals) = in_force e.
Proof.
  apply (dropQueued_ind (fun x => in_force x = in_force e) (fun _ => True) name); try done.
  - apply List.Forall_forall. auto.
  - apply List.Forall_forall. intros l _. apply List.Forall_forall. auto.
Qed.

Lemma stale_force e m e' d : stale e m = Some (e', d) -> in_force e' = in_force e.
Proof.
  unfold stale, clk_mono. destruct (processing (called e) (k_mono (e_calls e))) as [now e1] eqn:E1. apply processing_force in E1.
  destruct (crossLeap e1 now) as [e2|] eqn:E2; [|done]. apply crossLeap_force in E2. cbn [mbind option_bind].
  assert (in_force e2 = in_force e) as H by (etransitivity; [exact E2|exact E1]). clear E1 E2. intros E. apply (inj Some) in E. repeat case_in E; apply pair_equal_spec in E as [<- _]; done.
Qed.

Lemma sourceStopped_force e name err arrivals e' err' : sourceStopped e name err arrivals = Some (e', err') -> in_force e' = in_force e.
Proof.
  unfold sourceStopped. destruct (negb _); [intros E; by apply (inj Some), pair_equal_spec in E as [<- _]|]. cbv zeta.
  set (e0 := e <| e_sourceErrors := _ |>). assert (in_force e0 = in_force e) as H0 by done. clearbody e0. pose proof (dropQueued_force e0 name arrivals) as H1.
  generalize dependent (dropQueued e0 name arrivals). intros e1 H1. unfold clk_mono. destruct (processing (called e1) (k_mono (e_calls e1))) as [now e2] eqn:E2. apply processing_force in E2.
  match goal with |- context [feed (called e2) ?m] => destruct (feed (called e2) m) as [[e3 res]|] eqn:E3 end; [|done]. apply feed_force in E3. cbn [mbind option_bind].
  intros E. apply handle_force in E. etransitivity; [exact E|]. etransitivity; [exact E3|]. etransitivity; [exact E2|]. etransitivity; [exact H1|exact H0].
Qed.

Definition not_leap (ev : event) : Prop := match ev with EvLeap _ _ _ => False | _ => True end.

Lemma event_force e ev e' err : not_leap ev -> engine_event e ev = Some (e', err) -> in_force e' = in_force e.
Proof.
  intros Hn. destruct ev as [m| | |name er arrivals|name|]; [| | | | |done]; cbn [engine_event].
  - intros E. apply (inj Some), pair_equal_spec in E as [<- _]. unfold send. by case_goal.
  - destruct (e_meas e) as [|m rest]; [intros E; by apply (inj Some), pair_equal_spec in E as [<- _]|].
    destruct (stale (e <| e_meas := rest |>) m) as [[e1 d]|] eqn:E1; [|done]. apply stale_force in E1. cbn [mbind option_bind].
    assert (in_force e1 = in_force e) as H1 by exact E1. destruct d; [intros E; by apply (inj Some), pair_equal_spec in E as [<- _]|]. clear E1.
    unfold clk_mono. destruct (processing (called e1) (k_mono (e_calls e1))) as [now e2] eqn:E2. apply processing_force in E2.
    assert (in_force (noteSourceAlive e2 (m_Source m)) = in_force e2) as H3 by (unfold noteSourceAlive; by case_goal).
    generalize dependent (noteSourceAlive e2 (m_Source m)). intros e3 H3. destruct (feed e3 _) as [[e4 res]|] eqn:E4; [|done]. apply feed_force in E4. cbn [mbind option_bind].
    intros E. apply handle_force in E. etransitivity; [exact E|]. etransitivity; [exact E4|]. etransitivity; [exact H3|]. etransitivity; [exact E2|exact H1].
  - unfold clk_mono. destruct (processing (called e) (k_mono (e_calls e))) as [now e1] eqn:E1. apply processing_force in E1.
    destruct (crossLeap e1 now) as [e2|] eqn:E2; [|done]. apply crossLeap_force in E2. cbn [mbind option_bind]. destruct (Tick (e_sys e2) now) as [[sys res]|]; [|done]. cbn [mbind option_bind].
    destruct (handle (e2 <| e_sys := sys |>) res now) as [[e3 er]|] eqn:E3; [|done]. apply handle_force in E3. cbn [mbind option_bind].
    assert (in_force e3 = in_force e) as H3 by (etransitivity; [exact E3|]; etransitivity; [exact E2|exact E1]). clear E1 E2 E3. intros E. apply (inj Some), pair_equal_spec in E as [<- _].
    destruct er; [done|]. unfold maybeWriteDrift. cbv zeta. by destruct (drift_candidate _ _ _ _ _ _ _ _ _).
  - apply sourceStopped_force.
  - unfold sourceRestarting, clk_mono, engine_publish. cbv zeta. set (e0 := e <| e_restarting := _ |>). assert (in_force e0 = in_force e) as H0 by done. clearbody e0.
    cbn beta iota. destruct (processing (called e0) (k_mono (e_calls e0))) as [now e1] eqn:E1. apply processing_force in E1.
    destruct (gated_status e1 now) as [[st e2]|] eqn:E2; [|done]. apply gated_status_force in E2. cbn [mbind option_bind]. intros E. apply (inj Some), pair_equal_spec in E as [<- _].
    etransitivity; [exact E2|]. etransitivity; [exact E1|exact H0].
Qed.

Lemma checkLeap_active c p st wall r : lp_active (checkLeap c p st wall r).1 = lp_active p.
Proof.
  unfold checkLeap. pose proof (applyLeap_active c p st wall) as H. destruct (applyLeap c p st wall) as [p1 st1]. cbn [fst] in H. by repeat case_goal.
Qed.

(** What a request does to the table in force. *)
Lemma leapRequest_force e r activate e' a err : leapRequest e r activate false = Some (e', a, err) ->
  match a with
  | LeapDone => err = None /\ in_force e' = (if activate then Some r else in_force e)
  | LeapRefused _ => err = None /\ in_force e' = in_force e
  | LeapFatal f => err = Some f /\ activate = true /\ in_force e' = Some r
  end.
Proof.
  unfold leapRequest, clk_mono, clk_now. destruct (processing (called e) (k_mono (e_calls e))) as [n1 e1] eqn:E1. apply processing_force in E1.
  destruct (crossLeap e1 n1) as [e2|] eqn:E2; [|done]. apply crossLeap_force in E2. cbn [mbind option_bind]. cbn beta iota zeta.
  destruct (processing (called (called e2)) (k_mono (e_calls (called e2)))) as [n3 e3] eqn:E3. apply processing_force in E3.
  assert (in_force e3 = in_force e) as H3 by (etransitivity; [exact E3|]; etransitivity; [exact E2|exact E1]). set (wall := k_now (e_calls e2)). clearbody wall. clear E1 E2 E3.
  destruct (SystemStatus (e_sys e3) n3) as [st|]; [|done]. cbn [mbind option_bind].
  pose proof (checkLeap_active (ec_Leap (e_cfg e3)) (e_leap e3) st wall r) as Hc. destruct (checkLeap _ _ _ _ _) as [p err4]. cbn [fst] in Hc.
  set (e4 := e3 <| e_leap := p |>). assert (in_force e4 = in_force e) as H4 by (etransitivity; [exact Hc|exact H3]).
  destruct err4 as [x|]; [intros E; apply (inj Some) in E; apply pair_equal_spec in E as [E <-]; apply pair_equal_spec in E as [<- <-]; done|].
  destruct activate; cbn [negb].
  - destruct (bool_decide _); cbn [negb].
    2:{ intros E; apply (inj Some) in E; apply pair_equal_spec in E as [E <-]; apply pair_equal_spec in E as [<- <-]; done. }
    match goal with |- context [processing ?x ?y] => set (e5 := x); destruct (processing e5 y) as [n6 e6] eqn:E6 end.
    apply processing_force in E6. assert (in_force e6 = Some r) as H6 by exact E6. clear E6 e5.
    destruct (handle e6 (mkResult [] []) n6) as [[e7 er]|] eqn:E7; [|done]. apply handle_force in E7. cbn [mbind option_bind]. rewrite H6 in E7.
    intros E. apply (inj Some) in E. apply pair_equal_spec in E as [E <-]. apply pair_equal_spec in E as [<- <-]. by destruct er.
  - intros E. apply (inj Some) in E. apply pair_equal_spec in E as [E <-]. apply pair_equal_spec in E as [<- <-]. split; [done|].
    etransitivity; [|exact H4]. destruct p. done.
Qed.

(** ** The host *)

(** The engine; whether its run or the updater's context has ended; whether
    the context ends while the next request waits; and what the updater's
    goroutine reads of the clock. *)
Record Host : Type := mkHost { ho_engine : Engine; ho_stopped : bool; ho_cancel : bool; ho_now : time; ho_mono : f64 }.

Definition control_error (a : leap_answer) : option ControlError :=
  match a with
  | LeapDone => None
  | LeapRefused (LeapRejected r) => Some (CtlRejected (reason_text r))
  | LeapRefused LeapArmed => Some (CtlRejected "armed")
  | LeapRefused LeapGeneration => Some (CtlRejected "generation")
  | LeapRefused LeapCancelled | LeapFatal _ => Some CtlFailed
  end.

(** [ApproveLeap] and [ActivateLeap], as the worker sees them. *)
Definition host_request (h : Host) (r : LeapRecord) (activate : bool) : Host * option ControlError :=
  if ho_stopped h then (h, Some CtlFailed)
  else
    match leapRequest (ho_engine h) r activate false with
    | None => (mkHost (ho_engine h) true (ho_cancel h) (ho_now h) (ho_mono h), Some CtlFailed)
    | Some (e, a, err) =>
        (mkHost e (ho_cancel h || bool_decide (is_Some err)) (ho_cancel h) (ho_now h) (ho_mono h),
         if ho_cancel h then Some CtlFailed else control_error a)
    end.

Definition host_view (h : Host) : View :=
  match e_status (ho_engine h) with
  | Some s => let '(now, known, bound, executed) := LeapView s (ho_now h) (ho_mono h) in mkView now known bound executed
  | None => mkView (ho_now h) false zeroTime zeroTime
  end.

#[export] Instance Host_controller : Controller Host := {
  ctl_view := host_view;
  ctl_approve h r := host_request h r false;
  ctl_activate h r := host_request h r true;
  ctl_active h := in_force (ho_engine h);
  ctl_halted h := ho_stopped h = true
}.

(** What happens between the updater's calls: an event of the engine's other
    inputs, or the passing of time. *)
Inductive host_step : Host -> Host -> Prop :=
| hs_event e ev e' err cancel now mono : not_leap ev -> engine_event e ev = Some (e', err) ->
    host_step (mkHost e false cancel now mono) (mkHost e' (bool_decide (is_Some err)) cancel now mono)
| hs_time e stopped stopped' cancel cancel' now now' mono mono' : (stopped = true -> stopped' = true) ->
    host_step (mkHost e stopped cancel now mono) (mkHost e stopped' cancel' now' mono').

Lemma host_request_force h r activate :
  let '(h', err) := host_request h r activate in
  (err = None -> activate = true -> in_force (ho_engine h') = Some r) /\
  (activate = false \/ err <> None -> in_force (ho_engine h') = in_force (ho_engine h) \/ activate = true /\ in_force (ho_engine h') = Some r /\ ho_stopped h' = true).
Proof.
  unfold host_request. destruct (ho_stopped h); [by split; [|left]|]. destruct (leapRequest (ho_engine h) r activate false) as [[[e a] err]|] eqn:E; [|by split; [|left]].
  apply leapRequest_force in E. cbn [ho_engine ho_stopped]. split.
  - intros Ha ->. destruct (ho_cancel h); [done|]. destruct a as [|[]|]; cbn in Ha; try done. by destruct E.
  - intros Ha. destruct a as [|x|x].
    + destruct E as [-> E]. destruct activate; [|by left]. right. split; [done|]. split; [done|]. destruct (ho_cancel h); [done|]. by destruct Ha.
    + left. apply E.
    + destruct E as (-> & -> & E). right. split; [done|]. split; [done|]. by rewrite orb_true_r.
Qed.

#[export] Instance Host_laws : ControllerLaws Host (rtc host_step).
Proof.
  split; cbn [ctl_active ctl_approve ctl_activate ctl_halted Host_controller].
  - intros h r. pose proof (host_request_force h r false) as H. destruct (host_request h r false) as [h' err]. destruct H as [_ H]. cbn [fst]. destruct (H (or_introl eq_refl)) as [?|[? _]]; done.
  - intros h r. pose proof (host_request_force h r true) as H. destruct (host_request h r true) as [h' err]. destruct H as [H _]. cbn [fst snd]. intros E. by apply H.
  - intros h r x. pose proof (host_request_force h r true) as H. destruct (host_request h r true) as [h' err]. destruct H as [_ H]. cbn [fst snd]. intros ->.
    assert (Some x <> None) as Hx by done. destruct (H (or_intror Hx)) as [?|(_ & ? & ?)]; auto.
  - intros h r Hs. unfold host_request. rewrite Hs. by split.
  - intros h h'. induction 1 as [h|h1 h2 h3 Hstep _ [IH1 IH2]]; [by split|]. assert (in_force (ho_engine h2) = in_force (ho_engine h1) /\ (ho_stopped h1 = true -> ho_stopped h2 = true)) as [E1 E2].
    { destruct Hstep; cbn [ho_engine ho_stopped]; [split; [by eapply event_force|done]|by split]. }
    split; [congruence|auto].
Qed.

(** ** The updater with the engine *)

Lemma newEngine_force c d freq known srcs s gen e : newEngine c d freq known srcs s gen = Some e -> in_force e = ls_Active s.
Proof.
  unfold newEngine. case_goal; [done|]. cbv zeta. unfold engine_publish.
  match goal with |- context [processing ?x ?y] => set (e0 := x); destruct (processing e0 y) as [n1 e1] eqn:E1 end. apply processing_force in E1.
  destruct (gated_status e1 n1) as [[st e2]|] eqn:E2; [|done]. apply gated_status_force in E2. cbn [mbind option_bind]. intros E. apply (inj Some) in E as <-.
  etransitivity; [exact E2|exact E1].
Qed.

Context `{BlockCipher}.

(** Claim C8: the engine never serves a leap table that a restart would lose.
    An engine and an updater start from the state the cache loads; whatever
    events the engine handles between the updater's calls, whichever writes
    fail at whatever stage, and however the acquisitions end, every activation
    asked of the engine is of a record the cache already holds at that moment,
    and after any turns, or the shutdown, the cache holds the table in force. *)
Theorem engine_table_durable c d freq known srcs gen e (env : Env Host) marshal unmarshal marshalSeed ParseTime error_text cfg seed dir now mono l m :
  (forall n h, rtc host_step h (en_between env n h)) ->
  loadState unmarshal dir = Ok (uc_Initial cfg) ->
  newEngine c d freq known srcs (uc_Initial cfg) gen = Some e ->
  m = turns env marshal marshalSeed ParseTime error_text cfg l \/ m = Updater_Run env marshal marshalSeed ParseTime error_text cfg l ->
  let w := (m (newUpdater cfg seed dir (mkHost e false false now mono))).2 in
  (forall r x, EffActivate r x ∈ w_trace w -> entry_holds marshal unmarshal x r) /\
  (forall r, in_force (ho_engine (w_ctl w)) = Some r -> entry_holds marshal unmarshal (state_entry w) r).
Proof.
  intros Hb Hl He Hm. assert (started unmarshal cfg dir (mkHost e false false now mono)) as Hs by (split; [done|by apply newEngine_force in He]).
  exact (active_table_durable env marshal unmarshal marshalSeed ParseTime error_text cfg Hb seed dir (mkHost e false false now mono) l m Hs Hm).
Qed.

End Host.

(** ** Example: a table from a file reaches the engine *)

(** The engine's events between two calls of the updater. *)
Fixpoint host_events {K : Kernel} (h : Host) (evs : list event) : Host :=
  match evs with
  | [] => h
  | EvLeap _ _ _ :: evs => host_events h evs
  | ev :: evs =>
      if ho_stopped h then h
      else match engine_event (ho_engine h) ev with
           | Some (e, err) => host_events (mkHost e (bool_decide (is_Some err)) (ho_cancel h) (ho_now h) (ho_mono h)) evs
           | None => h
           end
  end.

Lemma host_events_steps {K : Kernel} evs : forall h, rtc host_step h (host_events h evs).
Proof.
  induction evs as [|ev evs IH]; intros h; cbn [host_events]; [apply rtc_refl|].
  assert (not_leap ev -> rtc host_step h (if ho_stopped h then h else match engine_event (ho_engine h) ev with
           | Some (e, err) => host_events (mkHost e (bool_decide (is_Some err)) (ho_cancel h) (ho_now h) (ho_mono h)) evs
           | None => h end)) as H.
  { intros Hn. destruct h as [e [] cancel now mono]; cbn [ho_stopped ho_engine ho_cancel ho_now ho_mono]; [apply rtc_refl|].
    destruct (engine_event e ev) as [[e' err]|] eqn:E; [|apply rtc_refl]. eapply rtc_l; [by eapply hs_event|]. apply IH. }
  destruct ev; try (by apply H). apply IH.
Qed.

Definition table_2026 : list Z :=
  [35; 36; 32; 51; 54; 55; 54; 57; 50; 52; 56; 48; 48; 10;
   35; 64; 32; 51; 57; 57; 49; 53; 57; 51; 54; 48; 48; 10;
   51; 54; 52; 52; 54; 57; 55; 54; 48; 48; 32; 51; 54; 32; 35; 32; 49; 10;
   51; 54; 57; 50; 50; 49; 55; 54; 48; 48; 9; 51; 55; 10].

Definition synced_events : list event := take 11 example_events.

Definition host_env : Env Host :=
  mkEnv (fun n => unixTime (1767225600 + Z.of_nat n) 0) (fun n => write_with None (Z.of_nat n)) (fun _ => None)
    (fun n h => if (n =? 0)%nat then host_events (K := example_kernel) h synced_events else h).

Abbreviation host_run e := ((turns (H := Host_controller (K := example_kernel)) host_env plain_marshal (fun _ => []) (fun _ => None) (fun _ => ""%string) manual_config [None; Some (file_input table_2026)]
     (newUpdater manual_config (Ok zeroSeedState) empty_directory (mkHost e false false (unixTime 1767225640 0) (of_Z 40)))).2).

Abbreviation example_engine := (newEngine (K := example_kernel) example_engine_config System.example_cfg fzero false example_specs (uc_Initial manual_config) 0).

Lemma host_run_data : (e ← example_engine; (fun r => ob_data (lr_Object r)) <$> in_force (ho_engine (w_ctl (host_run e)))) = Some table_2026.
Proof. vm_compute. reflexivity. Qed.

(** The engine is synchronized by its own events, approves the table of the
    file, and serves it once it is on disk. *)
Lemma engine_table_durable_witness :
  exists e r, example_engine = Some e /\ in_force (ho_engine (w_ctl (host_run e))) = Some r /\ ob_data (lr_Object r) = table_2026 /\
    entry_holds plain_marshal (fun _ => None) (state_entry (host_run e)) r.
Proof.
  destruct (proj1 (bind_Some _ _ _) host_run_data) as (e & He & Hd). destruct (proj1 (fmap_Some _ _ _) Hd) as (r & Er & Ed).
  exists e, r. split; [exact He|]. split; [exact Er|]. split; [symmetry; exact Ed|].
  assert (forall n h, rtc (host_step (K := example_kernel)) h (en_between host_env n h)) as Hb.
  { intros n h. cbn [en_between host_env]. destruct (n =? 0)%nat; [apply host_events_steps|apply rtc_refl]. }
  pose proof (engine_table_durable (K := example_kernel) example_engine_config System.example_cfg fzero false example_specs 0 e host_env plain_marshal (fun _ => None)
    (fun _ => []) (fun _ => None) (fun _ => ""%string) manual_config (Ok zeroSeedState) empty_directory (unixTime 1767225640 0) (of_Z 40)
    [None; Some (file_input table_2026)] _ Hb eq_refl He (or_introl eq_refl)) as [_ H].
  exact (H r Er).
Defined.
