(* ===== verification/Config.v ===== *)
(** * internal/config: the configuration file

    Its data, the defaults [Parse] fills in after decoding, and [Validate],
    which reports every problem it finds.  TOML is a parameter: what it decodes
    to, with the keys written in each refclock block. *)

From stdpp Require Import base list strings numbers gmap.
From Stdlib Require Import Lia ZArith.
From S2P Require Import Prelude Float64 GoTime GoStrings Netip NetipParse Measurement NtpTime Clock RateLimit.

Local Open Scope Z_scope.

(** ** Bounds *)

Definition ConfMinPoll : Z := 2.
Definition ConfMaxPoll : Z := 17.
Definition MinMaxClients : Z := 256.
Definition MaxMaxClients : Z := 8388608.
Definition MinRecvBuffer : Z := 65536.
Definition MaxRecvBuffer : Z := 268435456.
Definition maxCalibrationOffset : f64 := of_Z 1.
Definition maxFrequencySpreadPPM : f64 := of_Z 1000.
Definition confMaxRateLimit : f64 := of_Z 1000000000.

Definition plausibleCalibration (v : f64) : bool :=
  negb (is_nan v) && negb (is_inf v) && fge v (fopp maxCalibrationOffset) && fle v maxCalibrationOffset.

Definition seconds (v : f64) : bool := match CheckedSeconds v with Some d => 0 <? d | None => false end.

Definition inRange (v lo hi : f64) : bool := negb (is_nan v) && fge v lo && fle v hi.

(** ** Data *)

Record LeapConf : Type := mkLeapConf { lf_Acquire : string; lf_RequireTable : option bool }.

(** [present] holds the keys written in the block. *)
Record RefclockConf : Type := mkRefclockConf {
  rf_Name : string; rf_Type : string; rf_Device : string; rf_Edge : string;
  rf_Offset : f64; rf_Prefer : bool; rf_NoSelect : bool; rf_LockJitter : f64; rf_PollMin : Z; rf_PollMax : Z;
  rf_Baud : Z; rf_PPS : string; rf_PPSEdge : string; rf_PPSOffset : f64; rf_NMEAOffset : f64; rf_Sentences : list str;
  rf_present : list string
}.

#[export] Instance RefclockConf_eta : Eta RefclockConf := fun r =>
  mkRefclockConf (rf_Name r) (rf_Type r) (rf_Device r) (rf_Edge r) (rf_Offset r) (rf_Prefer r) (rf_NoSelect r) (rf_LockJitter r)
    (rf_PollMin r) (rf_PollMax r) (rf_Baud r) (rf_PPS r) (rf_PPSEdge r) (rf_PPSOffset r) (rf_NMEAOffset r) (rf_Sentences r) (rf_present r).

Record DaemonConf : Type := mkDaemonConf {
  dm_DriftFile : string; dm_DriftStableSeconds : f64; dm_DriftStableSpreadPPM : f64; dm_Control : string; dm_LeapFile : string;
  dm_Keys : string; dm_LogLevel : string
}.

Record ServerConf : Type := mkServerConf {
  sv_Name : string; sv_Address : string; sv_Key : Z; sv_LeapTrust : bool; sv_Prefer : bool; sv_IBurst : bool; sv_NoSelect : bool;
  sv_PollMin : Z; sv_PollMax : Z
}.

#[export] Instance ServerConf_eta : Eta ServerConf := fun s =>
  mkServerConf (sv_Name s) (sv_Address s) (sv_Key s) (sv_LeapTrust s) (sv_Prefer s) (sv_IBurst s) (sv_NoSelect s) (sv_PollMin s) (sv_PollMax s).

(** [RequireKey] is a map: its entries have distinct keys. *)
Record ServeConf : Type := mkServeConf {
  sr_Listen : list str; sr_Allow : list str; sr_Deny : list str; sr_RequireKey : list (str * Z); sr_LeapKeys : list Z;
  sr_RateLimitPPS : f64; sr_RateBurst : f64; sr_RateLimitV6Prefix : Z; sr_MaxClients : Z; sr_RecvBuffer : Z; sr_KoD : bool
}.

Record MonitorConf : Type := mkMonitorConf { mo_Listen : str; mo_Allow : list str; mo_ID : str; mo_Name : str; mo_Roles : list str }.

Record StatsConf : Type := mkStatsConf { sc_Dir : str; sc_KeepDays : Z }.

Record DisciplineConf : Type := mkDisciplineConf { dc_MinSurvivors : Z; dc_HoldoverMax : f64; dc_MaxSlewPPM : f64; dc_SettleUpdates : Z }.

Record StepConf : Type := mkStepConf { sp_Threshold : f64; sp_Limit : Z; sp_Panic : f64; sp_PanicAtStartup : bool }.

Record Configuration : Type := mkConfiguration {
  cf_Daemon : DaemonConf; cf_Servers : list ServerConf; cf_Refclocks : list RefclockConf; cf_Serve : ServeConf; cf_Monitor : MonitorConf;
  cf_Stats : StatsConf; cf_Discipline : DisciplineConf; cf_Step : StepConf; cf_Leap : LeapConf
}.

#[export] Instance Configuration_eta : Eta Configuration := fun c =>
  mkConfiguration (cf_Daemon c) (cf_Servers c) (cf_Refclocks c) (cf_Serve c) (cf_Monitor c) (cf_Stats c) (cf_Discipline c) (cf_Step c) (cf_Leap c).

Definition serve_enabled (s : ServeConf) : bool := negb (length (sr_Allow s) =? 0)%nat.
Definition monitor_enabled (m : MonitorConf) : bool := negb (length (mo_Listen m) =? 0)%nat.
Definition stats_enabled (s : StatsConf) : bool := negb (length (sc_Dir s) =? 0)%nat.

Definition LeapMode (c : Configuration) : string :=
  if negb (bool_decide (lf_Acquire (cf_Leap c) = ""%string)) then lf_Acquire (cf_Leap c)
  else if negb (bool_decide (dm_LeapFile (cf_Daemon c) = ""%string)) then "manual"
  else if existsb sv_LeapTrust (cf_Servers c) then "peers"
  else "off".

Definition LeapRequired (c : Configuration) : bool :=
  match lf_RequireTable (cf_Leap c) with
  | Some b => b
  | None => serve_enabled (cf_Serve c) || negb (length (cf_Refclocks c) =? 0)%nat
  end.

Definition supplied (r : RefclockConf) (key : string) : bool := bool_decide (key ∈ rf_present r).

Definition HasPPS (r : RefclockConf) : bool :=
  bool_decide (rf_Type r = "pps"%string) || (bool_decide (rf_Type r = "gps"%string) && negb (bool_decide (rf_PPS r = "none"%string))).

Definition SourceNames (r : RefclockConf) : list string :=
  if negb (bool_decide (rf_Type r = "gps"%string)) then [rf_Name r]
  else (rf_Name r +:+ "/nmea")%string :: (if HasPPS r then [(rf_Name r +:+ "/pps")%string] else []).

(** ** Parse *)

(** [Default] on Linux. *)
Definition Default : Configuration :=
  mkConfiguration
    (mkDaemonConf "/var/lib/carillon/drift" (of_Z 900) (of_Z 1) "/var/run/carillon/carillon.sock" "" "" "info")
    [] []
    (mkServeConf [] [] [] [] [] (of_Z 8) (of_Z 16) DefaultRateLimitV6Prefix DefaultMaxClients 0 true)
    (mkMonitorConf [] [str_of "127.0.0.0/8"; str_of "::1/128"] [] [] [])
    (mkStatsConf [] 0)
    (mkDisciplineConf 1 (of_Z 3600) (of_Z 500) 1)
    (mkStepConf (lit 1 2) 3 (of_Z 1000) false)
    (mkLeapConf "" None).

Definition fill_server (s : ServerConf) : ServerConf :=
  let s := if bool_decide (sv_Name s = ""%string) then s <| sv_Name := sv_Address s |> else s in
  let s := if sv_PollMin s =? 0 then s <| sv_PollMin := 6 |> else s in
  if sv_PollMax s =? 0 then s <| sv_PollMax := 10 |> else s.

Definition fill_refclock (r : RefclockConf) : RefclockConf :=
  let r := if bool_decide (rf_Name r = ""%string)
           then r <| rf_Name := if bool_decide (rf_Device r = ""%string) then rf_Type r else rf_Device r |> else r in
  let r := if bool_decide (rf_Type r = "pps"%string) && bool_decide (rf_Edge r = ""%string) then r <| rf_Edge := "assert"%string |> else r in
  let r := if bool_decide (rf_Type r = "gps"%string) then
             let r := if rf_Baud r =? 0 then r <| rf_Baud := 9600 |> else r in
             let r := if bool_decide (rf_PPS r = ""%string) then r <| rf_PPS := "none"%string |> else r in
             let r := if bool_decide (rf_PPSEdge r = ""%string) then r <| rf_PPSEdge := "assert"%string |> else r in
             if (length (rf_Sentences r) =? 0)%nat then r <| rf_Sentences := [str_of "RMC"; str_of "ZDA"] |> else r
           else r in
  let r := if feq (rf_LockJitter r) fzero then r <| rf_LockJitter := lit 2 10000 |> else r in
  let r := if rf_PollMin r =? 0 then r <| rf_PollMin := 4 |> else r in
  if rf_PollMax r =? 0 then r <| rf_PollMax := 7 |> else r.

(** [Parse]: [decode] is the strict TOML decoder on top of [Default], and
    [blocks] the keys of each refclock block. *)
Definition Parse (decode : str -> option Configuration) (blocks : str -> option (list (list string))) (data : str) : option Configuration :=
  c ← decode data;
  present ← blocks data;
  let note i r := match present !! i with Some ks => r <| rf_present := ks |> | None => r end in
  Some (c <| cf_Servers := fill_server <$> cf_Servers c |> <| cf_Refclocks := fill_refclock <$> imap note (cf_Refclocks c) |>).

(** ** Addresses *)

Definition colon : Z := 58.

Inductive AddressError : Type :=
| AddrEmpty | AddrNoBracket | AddrAfterBracket | AddrBracketed | AddrNotIPv6 | AddrEmptyHost | AddrCharacters | AddrPortInvalid.

(** The host, and the text of the port if there is one. *)
Definition split_address (addr : str) : result AddressError (str * option str) :=
  match addr with
  | 91 :: r =>
      match cut_byte 93 r with
      | None => Err AddrNoBracket
      | Some (host, rest) =>
          let after := match rest with [] => Ok None | 58 :: port => Ok (Some port) | _ => Err AddrAfterBracket end in
          try port <- after;
          match ParseAddr host with None => Err AddrBracketed | Some _ => Ok (host, port) end
      end
  | _ =>
      let colons := List.filter (fun c => c =? colon) addr in
      if (1 <? length colons)%nat
      then match ParseAddr addr with None => Err AddrNotIPv6 | Some _ => Ok (addr, None) end
      else match cut_byte colon addr with Some (host, port) => Ok (host, Some port) | None => Ok (addr, None) end
  end.

Definition ParseServerAddress (addr : str) : result AddressError (str * Z) :=
  if (length addr =? 0)%nat then Err AddrEmpty
  else
    try (host, port) <- split_address addr;
    if (length host =? 0)%nat then Err AddrEmptyHost
    else if existsb (fun c => (c =? 32) || (c =? 9) || (c =? 47)) host then Err AddrCharacters
    else
      match port with
      | None => Ok (host, 123)
      | Some p => match ParseUint 16 p with Some n => if n =? 0 then Err AddrPortInvalid else Ok (host, n) | None => Err AddrPortInvalid end
      end.

(** ** Validate *)

Inductive ConfError : Type :=
| CfDriftSeconds | CfDriftSpread | CfDriftFile | CfControl | CfLogLevel | CfNoSource
| CfServerAddress (i : Z) | CfServerHost (name : string) (e : AddressError) | CfServerName (i : Z) | CfServerDuplicate (name : string)
| CfServerKey (name : string)
| CfPollMin (name : string) | CfPollMax (name : string) | CfPollOrder (name : string) | CfPreferNoSelect (name : string)
| CfRefclockName (i : Z) | CfRefclockType (name : string) | CfRefclockDevice (name : string) | CfRefclockDuplicate (name source : string)
| CfMisplacedKey (name key : string) | CfEdge (name : string) | CfOffset (name : string) | CfLockJitter (name : string)
| CfBaud (name : string) | CfPPSDevice (name : string) | CfPPSEdge (name : string) | CfPPSOffset (name : string) | CfNMEAOffset (name : string)
| CfSentence (name : string) (s : str) | CfSentenceDuplicate (name : string) (s : str)
| CfPreferred (n : Z)
| CfServeDisabledKeys | CfServeNoListen | CfServeListen (s : str) | CfServeListenDuplicate (s : str)
| CfServePrefix (field : string) (s : str) | CfServePrefixDuplicate (field : string) (s : str) | CfRequireKey (s : str)
| CfRate | CfBurst | CfV6Prefix | CfMaxClients | CfRecvBuffer
| CfLeapMode | CfLeapNotRequired | CfLeapOff | CfLeapNoFile | CfLeapFile | CfLeapState | CfLeapTrustKey (name : string) | CfLeapTrusted | CfLeapNoPeer | CfLeapKey (id : Z) | CfLeapKeysDisabled
| CfMonitorIdentity | CfMonitorListen | CfMonitorNoAllow | CfMonitorPrefix (s : str) | CfMonitorPrefixDuplicate (s : str) | CfMonitorID | CfMonitorName
| CfMonitorRole (s : str) | CfMonitorRoleDuplicate (s : str)
| CfNoKeys | CfMinSurvivors | CfHoldover | CfMaxSlew | CfSettle | CfThreshold | CfStepLimit | CfKeepDays | CfStatsDir | CfPanic | CfPanicOrder.

(** [fail], under a condition. *)
Definition fail_if {E} (b : bool) (e : E) : list E := if b then [e] else [].

Definition poll_errors (name : string) (pmin pmax : Z) : list ConfError :=
  fail_if ((pmin <? ConfMinPoll) || (ConfMaxPoll <? pmin)) (CfPollMin name) ++
  fail_if ((pmax <? ConfMinPoll) || (ConfMaxPoll <? pmax)) (CfPollMax name) ++
  fail_if ((pmin <=? ConfMaxPoll) && (ConfMinPoll <=? pmax) && (pmax <? pmin)) (CfPollOrder name).

(** One server; the names seen before and after. *)
Definition validate_server (i : Z) (names : list string) (s : ServerConf) : list ConfError :=
  (if bool_decide (sv_Address s = ""%string) then [CfServerAddress (i + 1)]
   else match ParseServerAddress (str_of (sv_Address s)) with Err e => [CfServerHost (sv_Name s) e] | Ok _ => [] end) ++
  (if bool_decide (sv_Name s = ""%string) then [CfServerName (i + 1)] else fail_if (bool_decide (sv_Name s ∈ names)) (CfServerDuplicate (sv_Name s))) ++
  fail_if (65535 <? sv_Key s) (CfServerKey (sv_Name s)) ++
  poll_errors (sv_Name s) (sv_PollMin s) (sv_PollMax s) ++
  fail_if (sv_Prefer s && sv_NoSelect s) (CfPreferNoSelect (sv_Name s)).

Fixpoint validate_servers (i : Z) (names : list string) (l : list ServerConf) : list ConfError * list string :=
  match l with
  | [] => ([], names)
  | s :: l =>
      let '(errs, names') := validate_servers (i + 1) (sv_Name s :: names) l in
      (validate_server i names s ++ errs, names')
  end.

(** The names of a refclock's logical sources against the ones seen. *)
Fixpoint claim_names (r : string) (names : list string) (l : list string) : list ConfError * list string :=
  match l with
  | [] => ([], names)
  | n :: l =>
      let '(errs, names') := claim_names r (n :: names) l in
      (fail_if (bool_decide (n ∈ names)) (CfRefclockDuplicate r n) ++ errs, names')
  end.

Definition is_edge (e : string) : bool := bool_decide (e = "assert"%string) || bool_decide (e = "clear"%string).

(** [filepath.IsAbs]. *)
Definition IsAbs (path : string) : bool := HasPrefix (str_of path) [47].

Definition misplaced (r : RefclockConf) (keys : list string) : list ConfError :=
  keys ≫= (fun k => fail_if (supplied r k) (CfMisplacedKey (rf_Name r) k)).

Fixpoint sentence_errors (name : string) (seen : list str) (l : list str) : list ConfError :=
  match l with
  | [] => []
  | s :: l =>
      fail_if (negb (bool_decide (s = str_of "RMC")) && negb (bool_decide (s = str_of "ZDA"))) (CfSentence name s) ++
      fail_if (bool_decide (s ∈ seen)) (CfSentenceDuplicate name s) ++ sentence_errors name (s :: seen) l
  end.

Definition confBauds : list Z := [4800; 9600; 19200; 38400; 57600; 115200].

Definition validateGPSRefclock (r : RefclockConf) : list ConfError :=
  misplaced r ["edge"; "offset"]%string ++
  (if bool_decide (rf_PPS r = "none"%string) then misplaced r ["pps_edge"; "pps_offset"]%string else []) ++
  fail_if (negb (bool_decide (rf_Baud r ∈ confBauds))) (CfBaud (rf_Name r)) ++
  fail_if (negb (bool_decide (rf_PPS r ∈ ["none"; "dcd"; "cts"]%string)) && negb (IsAbs (rf_PPS r))) (CfPPSDevice (rf_Name r)) ++
  fail_if (negb (bool_decide (rf_PPS r = "none"%string)) && negb (is_edge (rf_PPSEdge r))) (CfPPSEdge (rf_Name r)) ++
  fail_if (negb (plausibleCalibration (rf_PPSOffset r))) (CfPPSOffset (rf_Name r)) ++
  fail_if (negb (plausibleCalibration (rf_NMEAOffset r))) (CfNMEAOffset (rf_Name r)) ++
  sentence_errors (rf_Name r) [] (rf_Sentences r).

Definition validate_refclock (i : Z) (names : list string) (r : RefclockConf) : list ConfError :=
  fail_if (bool_decide (rf_Name r = ""%string)) (CfRefclockName (i + 1)) ++
  fail_if (negb (bool_decide (rf_Type r = "pps"%string)) && negb (bool_decide (rf_Type r = "gps"%string))) (CfRefclockType (rf_Name r)) ++
  fail_if (bool_decide (rf_Device r = ""%string)) (CfRefclockDevice (rf_Name r)) ++
  (claim_names (rf_Name r) names (SourceNames r)).1 ++
  (if bool_decide (rf_Type r = "pps"%string) then
     misplaced r ["baud"; "pps"; "pps_edge"; "pps_offset"; "nmea_offset"; "sentences"]%string ++
     fail_if (negb (is_edge (rf_Edge r))) (CfEdge (rf_Name r)) ++
     fail_if (negb (plausibleCalibration (rf_Offset r))) (CfOffset (rf_Name r))
   else if bool_decide (rf_Type r = "gps"%string) then validateGPSRefclock r
   else []) ++
  fail_if (negb (fgt (rf_LockJitter r) fzero) || is_inf (rf_LockJitter r) || is_nan (rf_LockJitter r)) (CfLockJitter (rf_Name r)) ++
  poll_errors (rf_Name r) (rf_PollMin r) (rf_PollMax r) ++
  fail_if (rf_Prefer r && rf_NoSelect r) (CfPreferNoSelect (rf_Name r)).

Fixpoint validate_refclocks (i : Z) (names : list string) (l : list RefclockConf) : list ConfError :=
  match l with
  | [] => []
  | r :: l => validate_refclock i names r ++ validate_refclocks (i + 1) (claim_names (rf_Name r) names (SourceNames r)).2 l
  end.

(** ** The listener *)

(** A list of prefixes of a field: each parses, without a zone and not as a
    mapped IPv4 address, and none is written twice. *)
Definition usable_prefix (raw : str) : option Prefix :=
  match ParsePrefix raw with
  | Some p => if hasZone (p_addr p) || Is4In6 (p_addr p) then None else Some p
  | None => None
  end.

Fixpoint prefix_errors (invalid duplicate : str -> ConfError) (seen : list Prefix) (l : list str) : list ConfError :=
  match l with
  | [] => []
  | raw :: l =>
      match usable_prefix raw with
      | None => invalid raw :: prefix_errors invalid duplicate seen l
      | Some p => fail_if (bool_decide (Masked p ∈ seen)) (duplicate raw) ++ prefix_errors invalid duplicate (Masked p :: seen) l
      end
  end.

(** A numeric endpoint with a port. *)
Definition usable_listen (raw : str) : option AddrPort :=
  match ParseAddrPort raw with
  | Some a => if negb (IsValid (ap_addr a)) || Is4In6 (ap_addr a) || (ap_port a =? 0) then None else Some a
  | None => None
  end.

Fixpoint listen_errors (seen : list AddrPort) (l : list str) : list ConfError :=
  match l with
  | [] => []
  | raw :: l =>
      match usable_listen raw with
      | None => CfServeListen raw :: listen_errors seen l
      | Some a => fail_if (bool_decide (a ∈ seen)) (CfServeListenDuplicate raw) ++ listen_errors (a :: seen) l
      end
  end.

(** [slices.Sort] of strings. *)
Fixpoint str_less (a b : str) : bool :=
  match a, b with
  | _, [] => false
  | [], _ :: _ => true
  | x :: a, y :: b => if x <? y then true else if y <? x then false else str_less a b
  end.

Definition requirePrefixes (s : ServeConf) : list str := sort_stable str_less (fst <$> sr_RequireKey s).

(** [s.RequireKey[raw]]. *)
Definition required_id (s : ServeConf) (raw : str) : Z :=
  match List.find (fun e => bool_decide (fst e = raw)) (sr_RequireKey s) with Some e => snd e | None => 0 end.

Definition bad_key_id (id : Z) : bool := (id =? 0) || (65535 <? id).

(** [validateServe]: the errors, and whether a key is needed. *)
Definition validateServe (s : ServeConf) : list ConfError * bool :=
  if negb (serve_enabled s) then (fail_if (negb (length (sr_RequireKey s) =? 0)%nat) CfServeDisabledKeys, false)
  else
    (fail_if (length (sr_Listen s) =? 0)%nat CfServeNoListen ++
     listen_errors [] (sr_Listen s) ++
     prefix_errors (CfServePrefix "allow") (CfServePrefixDuplicate "allow") [] (sr_Allow s) ++
     prefix_errors (CfServePrefix "deny") (CfServePrefixDuplicate "deny") [] (sr_Deny s) ++
     prefix_errors (CfServePrefix "require_key") (CfServePrefixDuplicate "require_key") [] (requirePrefixes s) ++
     (requirePrefixes s ≫= (fun raw => fail_if (bad_key_id (required_id s raw)) (CfRequireKey raw))) ++
     fail_if (negb (fgt (sr_RateLimitPPS s) fzero && inRange (sr_RateLimitPPS s) fzero confMaxRateLimit)) CfRate ++
     fail_if (negb (inRange (sr_RateBurst s) (of_Z 1) confMaxRateLimit)) CfBurst ++
     fail_if ((sr_RateLimitV6Prefix s <? 32) || (128 <? sr_RateLimitV6Prefix s)) CfV6Prefix ++
     fail_if ((sr_MaxClients s <? MinMaxClients) || (MaxMaxClients <? sr_MaxClients s)) CfMaxClients ++
     fail_if (negb (sr_RecvBuffer s =? 0) && ((sr_RecvBuffer s <? MinRecvBuffer) || (MaxRecvBuffer <? sr_RecvBuffer s))) CfRecvBuffer,
     existsb (fun raw => negb (bad_key_id (required_id s raw))) (requirePrefixes s)).

(** ** Leap authority *)

Fixpoint leap_key_errors (seen : list Z) (l : list Z) : list ConfError :=
  match l with
  | [] => []
  | id :: l => fail_if (bad_key_id id || bool_decide (id ∈ seen)) (CfLeapKey id) ++ leap_key_errors (id :: seen) l
  end.

Definition validateLeap (c : Configuration) : list ConfError * bool :=
  let mode := LeapMode c in
  let trusted := List.filter sv_LeapTrust (cf_Servers c) in
  let named := bool_decide (dm_LeapFile (cf_Daemon c) = ""%string) in
  (fail_if (negb (bool_decide (mode ∈ ["off"; "manual"; "nist"; "iers"; "peers"]%string))) CfLeapMode ++
   fail_if ((serve_enabled (cf_Serve c) || negb (length (cf_Refclocks c) =? 0)%nat) && negb (LeapRequired c)) CfLeapNotRequired ++
   fail_if (LeapRequired c && bool_decide (mode = "off"%string)) CfLeapOff ++
   fail_if (bool_decide (mode = "manual"%string) && named) CfLeapNoFile ++
   fail_if (negb (bool_decide (mode = "manual"%string)) && negb named) CfLeapFile ++
   fail_if (negb (bool_decide (mode = "off"%string)) && bool_decide (dm_DriftFile (cf_Daemon c) = ""%string)) CfLeapState ++
   (trusted ≫= (fun s => fail_if (sv_Key s =? 0) (CfLeapTrustKey (sv_Name s)))) ++
   fail_if (4 <? length trusted)%nat CfLeapTrusted ++
   fail_if (bool_decide (mode = "peers"%string) && (length trusted =? 0)%nat) CfLeapNoPeer ++
   leap_key_errors [] (sr_LeapKeys (cf_Serve c)) ++
   fail_if (negb (length (sr_LeapKeys (cf_Serve c)) =? 0)%nat && negb (serve_enabled (cf_Serve c))) CfLeapKeysDisabled,
   negb (length trusted =? 0)%nat || negb (length (sr_LeapKeys (cf_Serve c)) =? 0)%nat).

(** ** The monitor *)

Definition validMonitorTag (s : str) : bool :=
  negb ((length s =? 0)%nat || (64 <? length s)%nat) &&
  forallb (fun c => ((97 <=? c) && (c <=? 122)) || ((65 <=? c) && (c <=? 90)) || is_digit c || (c =? 46) || (c =? 95) || (c =? 45)) s.

Fixpoint role_errors (seen : list str) (l : list str) : list ConfError :=
  match l with
  | [] => []
  | r :: l =>
      if negb (validMonitorTag r) then CfMonitorRole r :: role_errors seen l
      else fail_if (bool_decide (r ∈ seen)) (CfMonitorRoleDuplicate r) ++ role_errors (r :: seen) l
  end.

Definition validateMonitor (m : MonitorConf) : list ConfError :=
  if negb (monitor_enabled m)
  then fail_if (negb (length (mo_ID m) =? 0)%nat || negb (length (mo_Name m) =? 0)%nat || negb (length (mo_Roles m) =? 0)%nat) CfMonitorIdentity
  else
    (match usable_listen (mo_Listen m) with Some _ => [] | None => [CfMonitorListen] end) ++
    fail_if (length (mo_Allow m) =? 0)%nat CfMonitorNoAllow ++
    prefix_errors CfMonitorPrefix CfMonitorPrefixDuplicate [] (mo_Allow m) ++
    fail_if (negb (length (mo_ID m) =? 0)%nat && negb (validMonitorTag (mo_ID m))) CfMonitorID ++
    fail_if ((128 <? length (mo_Name m))%nat || negb (bool_decide (TrimSpace (mo_Name m) = mo_Name m))) CfMonitorName ++
    role_errors [] (mo_Roles m).

(** ** The whole *)

(** [filepath.Clean(path) == "."]: the elements that are left, the last
    first. *)
Fixpoint clean_elements (rooted : bool) (kept : list str) (elements : list str) : list str :=
  match elements with
  | [] => kept
  | e :: l =>
      if (length e =? 0)%nat || bool_decide (e = [46]) then clean_elements rooted kept l
      else if bool_decide (e = [46; 46]) then
        match kept with
        | k :: kept' => if bool_decide (k = [46; 46]) then clean_elements rooted (e :: kept) l else clean_elements rooted kept' l
        | [] => clean_elements rooted (if rooted then [] else [e]) l
        end
      else clean_elements rooted (e :: kept) l
  end.

Fixpoint split_path (cur : str) (s : str) : list str :=
  match s with
  | [] => [reverse cur]
  | c :: s => if c =? 47 then reverse cur :: split_path [] s else split_path (c :: cur) s
  end.

Definition clean_is_dot (path : str) : bool :=
  negb (HasPrefix path [47]) && (length (clean_elements false [] (split_path [] path)) =? 0)%nat.

Definition Validate (c : Configuration) : list ConfError :=
  let d := cf_Daemon c in
  let '(servers, names) := validate_servers 0 [] (cf_Servers c) in
  let refclocks := validate_refclocks 0 names (cf_Refclocks c) in
  let preferred := (length (List.filter sv_Prefer (cf_Servers c)) + length (List.filter rf_Prefer (cf_Refclocks c)))%nat in
  let '(serve, serveKeys) := validateServe (cf_Serve c) in
  let '(leap, leapKeys) := validateLeap c in
  let needKeys := existsb (fun s => negb (sv_Key s =? 0)) (cf_Servers c) || serveKeys || leapKeys in
  fail_if (negb (seconds (dm_DriftStableSeconds d))) CfDriftSeconds ++
  fail_if (negb (fgt (dm_DriftStableSpreadPPM d) fzero && inRange (dm_DriftStableSpreadPPM d) fzero maxFrequencySpreadPPM)) CfDriftSpread ++
  fail_if (bool_decide (dm_DriftFile d = ""%string)) CfDriftFile ++
  fail_if (bool_decide (dm_Control d = ""%string)) CfControl ++
  fail_if (negb (bool_decide (dm_LogLevel d ∈ ["debug"; "info"; "warn"; "error"]%string))) CfLogLevel ++
  fail_if ((length (cf_Servers c) =? 0)%nat && (length (cf_Refclocks c) =? 0)%nat) CfNoSource ++
  servers ++ refclocks ++
  fail_if (1 <? preferred)%nat (CfPreferred (Z.of_nat preferred)) ++
  serve ++ leap ++ validateMonitor (cf_Monitor c) ++
  fail_if (needKeys && bool_decide (dm_Keys d = ""%string)) CfNoKeys ++
  fail_if (dc_MinSurvivors (cf_Discipline c) <? 1) CfMinSurvivors ++
  fail_if (negb (seconds (dc_HoldoverMax (cf_Discipline c)))) CfHoldover ++
  fail_if (negb (fgt (dc_MaxSlewPPM (cf_Discipline c)) fzero && fle (dc_MaxSlewPPM (cf_Discipline c)) (of_Z 500))) CfMaxSlew ++
  fail_if (dc_SettleUpdates (cf_Discipline c) <? 1) CfSettle ++
  fail_if (negb (seconds (sp_Threshold (cf_Step c)))) CfThreshold ++
  fail_if (sp_Limit (cf_Step c) <? -1) CfStepLimit ++
  fail_if (sc_KeepDays (cf_Stats c) <? 0) CfKeepDays ++
  fail_if (stats_enabled (cf_Stats c) && clean_is_dot (sc_Dir (cf_Stats c))) CfStatsDir ++
  (if negb (seconds (sp_Panic (cf_Step c))) then [CfPanic]
   else fail_if (negb (fgt (sp_Panic (cf_Step c)) (sp_Threshold (cf_Step c)))) CfPanicOrder).

(** [Load], after the file is read. *)
Definition Load (decode : str -> option Configuration) (blocks : str -> option (list (list string))) (data : str) : result (list ConfError) Configuration :=
  match Parse decode blocks data with
  | None => Err []
  | Some c => match Validate c with [] => Ok c | errs => Err errs end
  end.

(** ** Use of a valid configuration *)

(** [MustParsePrefix(raw).Masked()]: none is the panic. *)
Definition must_prefixes (l : list str) : option (list Prefix) := mapM (fun raw => Masked <$> ParsePrefix raw) l.

(** Writes to a map, in order: a later value replaces an earlier one. *)
Definition write_rules (l : list (Prefix * Z)) : list (Prefix * Z) :=
  fold_left (fun m e => List.filter (fun x => negb (bool_decide (fst x = fst e))) m ++ [e]) l [].

Definition ServePrefixes (c : Configuration) : option (list Prefix * list Prefix * list (Prefix * Z)) :=
  allow ← must_prefixes (sr_Allow (cf_Serve c));
  deny ← must_prefixes (sr_Deny (cf_Serve c));
  require ← mapM (fun e => (fun p => (Masked p, snd e)) <$> ParsePrefix (fst e)) (sr_RequireKey (cf_Serve c));
  Some (allow, deny, write_rules require).

Definition ServeListenAddrs (c : Configuration) : option (list AddrPort) := mapM ParseAddrPort (sr_Listen (cf_Serve c)).
Definition MonitorListenAddr (c : Configuration) : option AddrPort := ParseAddrPort (mo_Listen (cf_Monitor c)).
Definition MonitorPrefixes (c : Configuration) : option (list Prefix) := must_prefixes (mo_Allow (cf_Monitor c)).

(** The private ranges, 10/8 to fe80::/10. *)
Definition privatePrefixes : list Prefix :=
  omap (fun s => ParsePrefix (str_of s))
    ["10.0.0.0/8"; "172.16.0.0/12"; "192.168.0.0/16"; "100.64.0.0/10"; "127.0.0.0/8"; "169.254.0.0/16"; "::1/128"; "fc00::/7"; "fe80::/10"]%string.

Definition isInternetFacingPrefix (p : Prefix) : bool :=
  let site := if Is4 (p_addr p) then 16 else 32 in
  if site <=? p_bits p then false
  else negb (existsb (fun q => (p_bits q <=? p_bits p) && Contains q (p_addr p)) privatePrefixes).

Definition PublicAllowPrefixes (c : Configuration) : list str :=
  List.filter (fun raw => match ParsePrefix raw with Some p => isInternetFacingPrefix (Masked p) | None => false end) (sr_Allow (cf_Serve c)).

(** ** Devices *)

(** [checkDeviceOwnership]; [identity] is what [stat] says of a path.  A claim
    is the refclock and the key; the errors name the later one. *)
Definition claims (l : list RefclockConf) : list (string * string * string) :=
  l ≫= (fun r => (rf_Name r, "device"%string, rf_Device r) :: (if bool_decide (rf_Type r = "gps"%string) then [(rf_Name r, "pps"%string, rf_PPS r)] else [])).

Fixpoint ownership_errors (identity : string -> option string) (owners : list (string * string)) (l : list (string * string * string))
  : list (string * string * string) :=
  match l with
  | [] => []
  | (name, key, path) :: l =>
      if bool_decide (path = ""%string) || negb (IsAbs path) then ownership_errors identity owners l
      else
        match identity path with
        | None => ownership_errors identity owners l
        | Some id =>
            match List.find (fun o => bool_decide (fst o = id)) owners with
            | None => ownership_errors identity ((id, name) :: owners) l
            | Some o => fail_if (negb (bool_decide (snd o = name))) (name, key, path) ++ ownership_errors identity owners l
            end
        end
  end.

Definition checkDeviceOwnership (identity : string -> option string) (l : list RefclockConf) : list (string * string * string) :=
  ownership_errors identity [] (claims l).
