(* ===== verification/ConfigSound.v ===== *)
(** * What a validated configuration guarantees

    Proofs about [Config]: no error of [Validate] is the conjunction of the
    conditions the rest of the daemon relies on. *)

From stdpp Require Import base list strings numbers gmap.
From Stdlib Require Import Lia ZArith.
From S2P Require Import Prelude Float64 GoTime GoStrings Netip NetipParse Measurement NtpTime Clock RateLimit Config.

Local Open Scope Z_scope.

Lemma fail_if_nil {E} b (e : E) : fail_if b e = [] <-> b = false.
Proof. by destruct b. Qed.

(** Splits the hypothesis that a concatenation of errors is empty. *)
Ltac no_errors H :=
  repeat match type of H with
  | _ ++ _ = [] => let H1 := fresh "N" in apply app_nil in H as [H1 H]; try (apply fail_if_nil in H1)
  end; try (apply fail_if_nil in H).

Lemma bind_nil {A B} (f : A -> list B) l : l ≫= f = [] <-> forall x, x ∈ l -> f x = [].
Proof.
  induction l as [|a l IH]; cbn; [by split; [intros _ x ?%elem_of_nil|]|]. rewrite app_nil, IH. split.
  - intros [H1 H2] x Hx. apply elem_of_cons in Hx as [->|Hx]; auto.
  - intros H. split; [apply H; by left|]. intros x Hx. apply H. by right.
Qed.

(** ** Addresses and prefixes *)

Lemma ParseServerAddress_ok addr host port : ParseServerAddress addr = Ok (host, port) -> host <> [] /\ 1 <= port <= 65535.
Proof.
  unfold ParseServerAddress. case_goal; [done|]. destruct (split_address addr) as [[h p]|]; cbn [result_bind]; [|done].
  destruct (length h =? 0)%nat eqn:Eh; [done|]. assert (h <> []) as Hh by (intros ->; done). case_goal; [done|].
  destruct p as [p|]; [|intros [= <- <-]; split; [done|lia]]. destruct (ParseUint 16 p) as [n|] eqn:En; [|done]. apply ParseUint_range in En.
  destruct (n =? 0) eqn:E0; [done|]. intros [= <- <-]. bool_step. split; [done|lia].
Qed.

Lemma ParsePrefix_valid raw p : ParsePrefix raw = Some p -> prefix_valid p = true.
Proof.
  unfold ParsePrefix. destruct (cut_last 47 raw) as [[a b]|]; [|done]. cbn [mbind option_bind]. destruct (ParseAddr a) as [ip|] eqn:Ea; [|done]. cbn [mbind option_bind].
  destruct (hasZone ip) eqn:Ez; [done|]. case_goal; [done|]. destruct (Atoi b) as [n|]; [|done]. cbn [mbind option_bind].
  destruct ((n <? 0) || (BitLen ip <? n)) eqn:Er; [done|]. intros [= <-]. apply orb_false_iff in Er as [E1 E2]. apply Z.ltb_ge in E1, E2.
  unfold prefix_valid. cbn [p_addr p_bits]. rewrite Ez. apply Z.leb_le in E1. rewrite E1. apply Z.leb_le in E2. rewrite E2.
  destruct ip; [|done|done]. exfalso. revert Ea. unfold ParseAddr, parseIPv4, parseIPv6. destruct (find _ a) as [c|]; [|done].
  destruct c as [|c|c]; try done. repeat (destruct c; try done); cbv zeta; repeat case_goal; try done; cbn [mbind option_bind]; repeat case_goal; try done.
  all: unfold mbind, option_bind; repeat case_goal; done.
Qed.

Lemma prefix_errors_nil invalid duplicate l : forall seen, prefix_errors invalid duplicate seen l = [] ->
  exists ps, mapM (fun raw => Masked <$> ParsePrefix raw) l = Some ps /\ NoDup ps /\ (forall p, p ∈ ps -> p ∉ seen).
Proof.
  induction l as [|raw l IH]; intros seen; cbn [prefix_errors].
  - intros _. exists []. split; [done|]. split; [constructor|]. intros p Hp. by apply elem_of_nil in Hp.
  - unfold usable_prefix. destruct (ParsePrefix raw) as [p|] eqn:Ep; [|done]. case_goal; [done|]. intros Hn. no_errors Hn. apply bool_decide_eq_false in N.
    destruct (IH _ Hn) as (ps & Hps & Hnd & Hs). exists (Masked p :: ps). split; [cbn; by rewrite Ep, Hps|]. split.
    + constructor; [|done]. intros Hin. apply (Hs _ Hin). by left.
    + intros q Hq. apply elem_of_cons in Hq as [->|Hq]; [done|]. specialize (Hs q Hq). rewrite elem_of_cons in Hs. tauto.
Qed.

(** ** Servers *)

Definition poll_ok (pmin pmax : Z) : Prop := ConfMinPoll <= pmin <= pmax /\ pmax <= ConfMaxPoll.

Lemma poll_errors_nil name pmin pmax : poll_errors name pmin pmax = [] -> poll_ok pmin pmax.
Proof.
  unfold poll_errors, poll_ok, ConfMinPoll, ConfMaxPoll. intros Hn. no_errors Hn.
  apply orb_false_iff in N as [? ?]. apply orb_false_iff in N0 as [? ?]. repeat bool_step. apply andb_false_iff in Hn as [Hn|Hn]; [|bool_step; lia].
  apply andb_false_iff in Hn as [Hn|Hn]; bool_step; lia.
Qed.

Record server_ok (s : ServerConf) : Prop := {
  so_name : sv_Name s <> ""%string;
  so_address : exists host port, ParseServerAddress (str_of (sv_Address s)) = Ok (host, port);
  so_key : sv_Key s <= 65535;
  so_poll : poll_ok (sv_PollMin s) (sv_PollMax s);
  so_prefer : sv_Prefer s && sv_NoSelect s = false
}.

Lemma validate_server_nil i names s : validate_server i names s = [] -> server_ok s /\ sv_Name s ∉ names.
Proof.
  unfold validate_server. intros Hn. no_errors Hn.
  destruct (bool_decide (sv_Address s = ""%string)); [done|]. destruct (ParseServerAddress (str_of (sv_Address s))) as [[host port]|] eqn:Ea; [|done].
  destruct (bool_decide (sv_Name s = ""%string)) eqn:En; [done|]. apply bool_decide_eq_false in En. apply fail_if_nil, bool_decide_eq_false in N0.
  apply Z.ltb_ge in N1. apply poll_errors_nil in N2. split; [|done]. by constructor; eauto.
Qed.

Lemma validate_servers_nil l : forall i names names', validate_servers i names l = ([], names') -> NoDup names ->
  Forall server_ok l /\ names' = reverse (sv_Name <$> l) ++ names /\ NoDup names'.
Proof.
  induction l as [|s l IH]; intros i names names'; cbn [validate_servers].
  - intros [= <-] Hd. by split.
  - destruct (validate_servers (i + 1) (sv_Name s :: names) l) as [errs n'] eqn:E. intros H Hd. apply pair_equal_spec in H as [Hn <-]. apply app_nil in Hn as [Hs ->].
    apply validate_server_nil in Hs as [Hs Hni]. destruct (IH _ _ _ E) as (H1 & H2 & H3); [by constructor|].
    split; [by constructor|]. split; [|done]. cbn [fmap list_fmap]. by rewrite reverse_cons, <- (assoc_L (++)).
Qed.

(** ** Refclocks *)

Lemma claim_names_snd r l : forall names, (claim_names r names l).2 = reverse l ++ names.
Proof.
  induction l as [|n l IH]; intros names; cbn [claim_names]; [done|]. specialize (IH (n :: names)). destruct (claim_names r (n :: names) l) as [e n']. cbn [snd] in *.
  by rewrite IH, reverse_cons, <- (assoc_L (++)).
Qed.

Lemma claim_names_nil r l : forall names, (claim_names r names l).1 = [] -> NoDup names -> NoDup (reverse l ++ names).
Proof.
  induction l as [|n l IH]; intros names; cbn [claim_names]; [done|]. specialize (IH (n :: names)). destruct (claim_names r (n :: names) l) as [e n']. cbn [fst] in *.
  intros Hn Hd. apply app_nil in Hn as [Hf ->]. apply fail_if_nil, bool_decide_eq_false in Hf.
  rewrite reverse_cons, <- (assoc_L (++)). apply IH; [done|]. by constructor.
Qed.

Record gps_ok (r : RefclockConf) : Prop := {
  go_baud : rf_Baud r ∈ confBauds;
  go_pps : rf_PPS r ∈ ["none"; "dcd"; "cts"]%string \/ IsAbs (rf_PPS r) = true;
  go_edge : rf_PPS r <> "none"%string -> is_edge (rf_PPSEdge r) = true;
  go_offsets : plausibleCalibration (rf_PPSOffset r) = true /\ plausibleCalibration (rf_NMEAOffset r) = true;
  go_sentences : Forall (fun s => s = str_of "RMC" \/ s = str_of "ZDA") (rf_Sentences r)
}.

Lemma sentence_errors_nil name l : forall seen, sentence_errors name seen l = [] -> Forall (fun s => s = str_of "RMC" \/ s = str_of "ZDA") l.
Proof.
  induction l as [|s l IH]; intros seen; cbn [sentence_errors]; [constructor|]. intros Hn. apply app_nil in Hn as [H1 Hn]. apply app_nil in Hn as [_ Hn].
  apply fail_if_nil in H1. constructor; [|by eapply IH]. apply andb_false_iff in H1 as [H1|H1]; apply negb_false_iff, bool_decide_eq_true in H1; auto.
Qed.

Lemma validateGPS_nil r : validateGPSRefclock r = [] -> gps_ok r.
Proof.
  unfold validateGPSRefclock. intros Hn. apply app_nil in Hn as [_ Hn]. apply app_nil in Hn as [_ Hn]. no_errors Hn.
  apply negb_false_iff, bool_decide_eq_true in N. apply negb_false_iff in N2, N3. apply sentence_errors_nil in Hn. constructor; try done.
  - apply andb_false_iff in N0 as [N0|N0]; apply negb_false_iff in N0; [apply bool_decide_eq_true in N0; auto|auto].
  - intros Hp. apply andb_false_iff in N1 as [N1|N1]; apply negb_false_iff in N1; [by apply bool_decide_eq_true in N1|done].
Qed.

Record refclock_ok (r : RefclockConf) : Prop := {
  ro_name : rf_Name r <> ""%string;
  ro_type : rf_Type r = "pps"%string \/ rf_Type r = "gps"%string;
  ro_device : rf_Device r <> ""%string;
  ro_pps : rf_Type r = "pps"%string -> is_edge (rf_Edge r) = true /\ plausibleCalibration (rf_Offset r) = true;
  ro_gps : rf_Type r = "gps"%string -> gps_ok r;
  ro_jitter : fgt (rf_LockJitter r) fzero = true /\ is_inf (rf_LockJitter r) = false /\ is_nan (rf_LockJitter r) = false;
  ro_poll : poll_ok (rf_PollMin r) (rf_PollMax r);
  ro_prefer : rf_Prefer r && rf_NoSelect r = false
}.

Lemma validate_refclock_nil i names r : validate_refclock i names r = [] -> refclock_ok r /\ (claim_names (rf_Name r) names (SourceNames r)).1 = [].
Proof.
  unfold validate_refclock. intros Hn. no_errors Hn. split; [|done]. apply bool_decide_eq_false in N, N1.
  apply orb_false_iff in N4 as [N4 N6]. apply orb_false_iff in N4 as [N4 N7]. apply negb_false_iff in N4. apply poll_errors_nil in N5.
  constructor; try done.
  - apply andb_false_iff in N0 as [N0|N0]; apply negb_false_iff, bool_decide_eq_true in N0; auto.
  - intros E. rewrite bool_decide_eq_true_2 in N3 by done. apply app_nil in N3 as [_ N3]. apply app_nil in N3 as [N3 N8]. apply fail_if_nil, negb_false_iff in N3, N8. done.
  - intros E. rewrite E in N3. cbn in N3. by apply validateGPS_nil.
Qed.

Lemma validate_refclocks_nil l : forall i names, validate_refclocks i names l = [] -> NoDup names ->
  Forall refclock_ok l /\ NoDup (reverse (l ≫= SourceNames) ++ names).
Proof.
  induction l as [|r l IH]; intros i names; cbn [validate_refclocks]; [by intros _ Hd|]. intros Hn Hd. apply app_nil in Hn as [Hr Hn].
  apply validate_refclock_nil in Hr as [Hr Hc]. rewrite claim_names_snd in Hn. destruct (IH _ _ Hn) as [H1 H2]; [by eapply claim_names_nil|].
  split; [by constructor|]. cbn [mbind list_bind]. by rewrite reverse_app, <- (assoc_L (++)).
Qed.

(** ** The listener and the monitor *)

Lemma listen_errors_nil l : forall seen, listen_errors seen l = [] -> exists as_, mapM ParseAddrPort l = Some as_ /\ Forall (fun a => ap_port a <> 0) as_.
Proof.
  induction l as [|raw l IH]; intros seen; cbn [listen_errors]; [intros _; by exists []|]. unfold usable_listen.
  destruct (ParseAddrPort raw) as [a|] eqn:Ea; [|done]. destruct (negb (IsValid (ap_addr a)) || _ || _) eqn:Ev; [done|]. intros Hn. apply app_nil in Hn as [_ Hn].
  destruct (IH _ Hn) as (as_ & H1 & H2). exists (a :: as_). split; [cbn; by rewrite Ea, H1|]. constructor; [|done]. apply orb_false_iff in Ev as [_ Ev]. by apply Z.eqb_neq in Ev.
Qed.

Record serve_ok (s : ServeConf) : Prop := {
  vo_listen : exists as_, mapM ParseAddrPort (sr_Listen s) = Some as_ /\ as_ <> [] /\ Forall (fun a => ap_port a <> 0) as_;
  vo_allow : exists ps, must_prefixes (sr_Allow s) = Some ps /\ ps <> [];
  vo_deny : exists ps, must_prefixes (sr_Deny s) = Some ps;
  vo_require : forall e, e ∈ sr_RequireKey s -> exists p, ParsePrefix (fst e) = Some p;
  vo_rate : fgt (sr_RateLimitPPS s) fzero = true /\ fle (sr_RateLimitPPS s) confMaxRateLimit = true;
  vo_burst : fge (sr_RateBurst s) (of_Z 1) = true /\ fle (sr_RateBurst s) confMaxRateLimit = true;
  vo_prefix : 32 <= sr_RateLimitV6Prefix s <= 128;
  vo_clients : MinMaxClients <= sr_MaxClients s <= MaxMaxClients;
  vo_buffer : sr_RecvBuffer s = 0 \/ MinRecvBuffer <= sr_RecvBuffer s <= MaxRecvBuffer
}.

Lemma mapM_nonempty {A B} (f : A -> option B) l k : mapM f l = Some k -> (length l =? 0)%nat = false -> k <> [].
Proof. intros H Hl ->. apply length_mapM in H. destruct l; done. Qed.

Lemma inRange_spec v lo hi : inRange v lo hi = true -> fge v lo = true /\ fle v hi = true.
Proof. unfold inRange. rewrite !andb_true_iff. tauto. Qed.

Lemma mapM_elem {A B} (f : A -> option B) l k x : mapM f l = Some k -> x ∈ l -> is_Some (f x).
Proof. intros H Hx. apply mapM_Some in H. apply list_elem_of_lookup in Hx as [i Hi]. eapply Forall2_lookup_l in H as (y & _ & Hy); [|exact Hi]. by exists y. Qed.

Lemma requirePrefixes_elem s e : e ∈ sr_RequireKey s -> fst e ∈ requirePrefixes s.
Proof.
  intros He. unfold requirePrefixes. apply list_elem_of_In. apply (Permutation.Permutation_in _ (Permutation.Permutation_sym (sort_stable_perm str_less (fst <$> sr_RequireKey s)))).
  apply list_elem_of_In. by apply list_elem_of_fmap_2.
Qed.

Lemma validateServe_nil s : (validateServe s).1 = [] -> serve_enabled s = true -> serve_ok s.
Proof.
  intros Hn He. unfold validateServe in Hn. rewrite He in Hn. cbn [negb fst] in Hn. no_errors Hn.
  apply listen_errors_nil in N0 as (as_ & Hl & Hp). apply prefix_errors_nil in N1 as (al & Hal & _). apply prefix_errors_nil in N2 as (de & Hde & _).
  apply prefix_errors_nil in N3 as (re & Hre & _). apply negb_false_iff in N5, N6. apply andb_true_iff in N5 as [R1 R2]. apply inRange_spec in R2 as [_ R2], N6 as [B1 B2].
  apply orb_false_iff in N7 as [V1 V2]. apply orb_false_iff in N8 as [M1 M2]. apply Z.ltb_ge in V1, V2, M1, M2. constructor; try done.
  - exists as_. split; [done|]. split; [by eapply mapM_nonempty|done].
  - exists al. split; [done|]. apply (mapM_nonempty _ _ _ Hal). unfold serve_enabled in He. by apply negb_true_iff in He.
  - by exists de.
  - intros e Hin. apply requirePrefixes_elem in Hin. destruct (mapM_elem _ _ _ _ Hre Hin) as [p Hpp]. apply fmap_Some in Hpp as (q & Hq & _). by exists q.
  - apply andb_false_iff in Hn as [Hn|Hn]; [left; by apply negb_false_iff, Z.eqb_eq in Hn|right]. apply orb_false_iff in Hn as [Q1 Q2]. apply Z.ltb_ge in Q1, Q2. lia.
Qed.

Record monitor_ok (m : MonitorConf) : Prop := {
  no_listen : exists a, ParseAddrPort (mo_Listen m) = Some a /\ ap_port a <> 0;
  no_allow : exists ps, must_prefixes (mo_Allow m) = Some ps /\ ps <> []
}.

Lemma validateMonitor_nil m : validateMonitor m = [] -> monitor_enabled m = true -> monitor_ok m.
Proof.
  intros Hn He. unfold validateMonitor in Hn. rewrite He in Hn. cbn [negb] in Hn. no_errors Hn. apply prefix_errors_nil in N1 as (al & Hal & _). constructor.
  - unfold usable_listen in N. destruct (ParseAddrPort (mo_Listen m)) as [a|]; [|done]. exists a. split; [done|].
    destruct (negb (IsValid (ap_addr a)) || _ || _) eqn:Ev; [done|]. apply orb_false_iff in Ev as [_ Ev]. by apply Z.eqb_neq in Ev.
  - exists al. split; [done|]. by eapply mapM_nonempty.
Qed.

(** ** Leap authority *)

Record leap_ok (c : Configuration) : Prop := {
  lo_mode : LeapMode c ∈ ["off"; "manual"; "nist"; "iers"; "peers"]%string;
  lo_required : serve_enabled (cf_Serve c) = true \/ cf_Refclocks c <> [] -> LeapRequired c = true;
  lo_source : LeapRequired c = true -> LeapMode c <> "off"%string;
  lo_trust : forall s, s ∈ cf_Servers c -> sv_LeapTrust s = true -> sv_Key s <> 0;
  lo_peers : LeapMode c = "peers"%string -> exists s, s ∈ cf_Servers c /\ sv_LeapTrust s = true;
  lo_keys : sr_LeapKeys (cf_Serve c) <> [] -> serve_enabled (cf_Serve c) = true
}.

Lemma elem_of_filter_list {A} (f : A -> bool) l x : x ∈ List.filter f l <-> x ∈ l /\ f x = true.
Proof. rewrite !list_elem_of_In. apply List.filter_In. Qed.

Lemma validateLeap_nil c : (validateLeap c).1 = [] -> leap_ok c.
Proof.
  unfold validateLeap. cbn [fst]. intros Hn. no_errors Hn. apply negb_false_iff, bool_decide_eq_true in N. constructor; try done.
  - intros Hs. apply andb_false_iff in N0 as [N0|N0]; [|by apply negb_false_iff in N0]. exfalso. apply orb_false_iff in N0 as [E1 E2].
    destruct Hs as [Hs|Hs]; [congruence|]. by destruct (cf_Refclocks c).
  - intros Hr. rewrite Hr in N1. cbn [andb] in N1. by apply bool_decide_eq_false in N1.
  - intros s Hs Ht. pose proof (proj1 (bind_nil _ _) N5 s) as Hk. specialize (Hk (proj2 (elem_of_filter_list _ _ _) (conj Hs Ht))). apply fail_if_nil in Hk. by apply Z.eqb_neq in Hk.
  - intros Hm. apply andb_false_iff in N7 as [N7|N7]; [by apply bool_decide_eq_false in N7|].
    destruct (List.filter sv_LeapTrust (cf_Servers c)) as [|s l] eqn:Ef; [done|]. exists s. apply elem_of_filter_list. rewrite Ef. by left.
  - intros Hk. apply andb_false_iff in Hn as [Hn|Hn]; [by destruct (sr_LeapKeys (cf_Serve c))|by apply negb_false_iff in Hn].
Qed.

(** ** The whole *)

Record sound_config (c : Configuration) : Prop := {
  cs_servers : Forall server_ok (cf_Servers c);
  cs_refclocks : Forall refclock_ok (cf_Refclocks c);
  cs_some : cf_Servers c <> [] \/ cf_Refclocks c <> [];
  cs_names : NoDup ((sv_Name <$> cf_Servers c) ++ (cf_Refclocks c ≫= SourceNames));
  cs_preferred : (length (List.filter sv_Prefer (cf_Servers c)) + length (List.filter rf_Prefer (cf_Refclocks c)) <= 1)%nat;
  cs_serve : serve_enabled (cf_Serve c) = true -> serve_ok (cf_Serve c);
  cs_leap : leap_ok c;
  cs_monitor : monitor_enabled (cf_Monitor c) = true -> monitor_ok (cf_Monitor c);
  cs_slew : fgt (dc_MaxSlewPPM (cf_Discipline c)) fzero = true /\ fle (dc_MaxSlewPPM (cf_Discipline c)) (of_Z 500) = true;
  cs_counts : 1 <= dc_MinSurvivors (cf_Discipline c) /\ 1 <= dc_SettleUpdates (cf_Discipline c) /\ -1 <= sp_Limit (cf_Step c);
  cs_seconds : seconds (dc_HoldoverMax (cf_Discipline c)) = true /\ seconds (sp_Threshold (cf_Step c)) = true /\ seconds (sp_Panic (cf_Step c)) = true /\
    seconds (dm_DriftStableSeconds (cf_Daemon c)) = true;
  cs_order : fgt (sp_Panic (cf_Step c)) (sp_Threshold (cf_Step c)) = true
}.

Lemma Validate_sound c : Validate c = [] -> sound_config c.
Proof.
  unfold Validate. cbv zeta. destruct (validate_servers 0 [] (cf_Servers c)) as [servers names] eqn:Es. destruct (validateServe (cf_Serve c)) as [serve sk] eqn:Ev.
  destruct (validateLeap c) as [leap lk] eqn:El. intros Hn. no_errors Hn. subst.
  destruct (validate_servers_nil _ _ _ _ Es) as (S1 & S2 & S3); [constructor|]. rewrite app_nil_r in S2.
  destruct (validate_refclocks_nil _ _ _ N6 S3) as [R1 R2]. apply negb_false_iff in N, N13, N14, N16. apply andb_true_iff in N14 as [L1 L2].
  destruct (negb (seconds (sp_Panic (cf_Step c)))) eqn:Ep; [done|]. apply negb_false_iff in Ep. apply fail_if_nil, negb_false_iff in Hn.
  apply Z.ltb_ge in N12, N15, N17. constructor; try done.
  - apply andb_false_iff in N4 as [N4|N4]; [left; by destruct (cf_Servers c)|right; by destruct (cf_Refclocks c)].
  - rewrite S2 in R2. revert R2. apply NoDup_Permutation_proper. rewrite !reverse_Permutation. apply Permutation_app_comm.
  - apply Nat.ltb_ge in N7. lia.
  - intros He. apply validateServe_nil; [|done]. by rewrite Ev.
  - apply validateLeap_nil. by rewrite El.
  - intros He. by apply validateMonitor_nil.
Qed.
