(* ===== verification/Startup.v ===== *)
(** * cmd/carillon/main.go: from the configuration to the running parts

    The keys the configuration refers to, the sources it describes, the
    engine's and the listener's configuration, and the status the listener
    serves.  Opening a device may fail; whether it does is a parameter. *)

From stdpp Require Import base list strings numbers gmap.
From Stdlib Require Import Lia ZArith.
From S2P Require Import Prelude Float64 GoTime GoStrings Netip NetipParse NtpTime Measurement Select Loop System RateLimit Auth Keys Responder Exchange NtpSource Refclock Pps NmeaSentence Nmea Clock Md5 LeapTable LeapStore EngineLeap Drift Engine LeapUpdater Config.

Local Open Scope Z_scope.

(** ** Keys *)

Inductive StartError : Type :=
| StartKeyFile
| StartServerKey (name : string) | StartRequireKey (prefix : str) | StartLeapKey (id : Z)
| StartServer (name : string) (e : NewError)
| StartAddress (name : string) (e : AddressError)
| StartEdge (name : string)
| StartPPS (name : string) (e : PPSConfigError) | StartNMEA (name : string) (e : NMEAConfigError)
| StartDevice (name : string).

(** [loadKeys]: [file] is what the keys file parses to. *)
Definition loadKeys (c : Configuration) (file : option Keys) : result StartError Keys :=
  let read := if negb (bool_decide (dm_Keys (cf_Daemon c) = ""%string)) then match file with Some k => Ok k | None => Err StartKeyFile end else Ok ∅ in
  try keys <- read;
  match List.find (fun s => negb (sv_Key s =? 0) && bool_decide (keys !! sv_Key s = None)) (cf_Servers c) with
  | Some s => Err (StartServerKey (sv_Name s))
  | None =>
      match List.find (fun e => bool_decide (keys !! snd e = None)) (sr_RequireKey (cf_Serve c)) with
      | Some e => Err (StartRequireKey (fst e))
      | None =>
          match List.find (fun id => bool_decide (keys !! id = None)) (sr_LeapKeys (cf_Serve c)) with
          | Some id => Err (StartLeapKey id)
          | None => Ok keys
          end
      end
  end.

(** ** Sources *)

(** [int8(v)]. *)
Definition int8 (v : Z) : Z := (v + 128) mod 256 - 128.

(** A source that was built: its name, its options and what builds it. *)
Inductive BuiltSource : Type := BuiltNTP (n : NTP) | BuiltPPS (c : PPSConfig) | BuiltNMEA (c : NMEAConfig).
Record SourceSpec : Type := mkSourceSpec { ss_Name : string; ss_Options : Options; ss_Source : BuiltSource }.

Section Build.
(** The precision of the clock, the build's date, and whether a device opens. *)
Context (precision : Z) (buildTime : time) (opens : string -> bool).

(** One server: its source, and the leap peer it is trusted as; none is the
    dereference of a nil key. *)
Definition build_server (keys : Keys) (s : ServerConf) : option (result StartError (SourceSpec * option Peer)) :=
  let key := if sv_Key s =? 0 then None else Some (default (mkKey 0 []) (keys !! sv_Key s)) in
  match ParseServerAddress (str_of (sv_Address s)) with
  | Err e => Some (Err (StartAddress (sv_Name s) e))
  | Ok (host, port) =>
      match NewNTP (mkNTPConfig (sv_Name s) (sv_Address s) (string_of host) port key (sv_IBurst s) (int8 (sv_PollMin s)) (int8 (sv_PollMax s)) 0 false) (Some precision) with
      | Err e => Some (Err (StartServer (sv_Name s) e))
      | Ok n =>
          let spec := mkSourceSpec (c_Name (n_cfg n)) (mkOptions (sv_Prefer s) (sv_NoSelect s) true false false) (BuiltNTP n) in
          if sv_LeapTrust s then match key with None => None | Some k => Some (Ok (spec, Some (mkPeer (str_of (sv_Name s)) (host, port) k))) end
          else Some (Ok (spec, None))
      end
  end.

Fixpoint build_servers (keys : Keys) (l : list ServerConf) : option (result StartError (list SourceSpec * list Peer)) :=
  match l with
  | [] => Some (Ok ([], []))
  | s :: l =>
      r ← build_server keys s;
      match r with
      | Err e => Some (Err e)
      | Ok (spec, peer) =>
          r ← build_servers keys l;
          Some (try (specs, peers) <- r; Ok (spec :: specs, match peer with Some p => p :: peers | None => peers end))
      end
  end.

(** [pps.ParseEdge]. *)
Definition ParseEdge (s : string) : option Z :=
  if bool_decide (s = "assert"%string) then Some Assert else if bool_decide (s = "clear"%string) then Some Clear else None.

(** [NewPPS]. *)
Definition start_pps (name : string) (c : PPSConfig) (o : Options) : result StartError SourceSpec :=
  match defaultAndValidatePPS c true with
  | Err e => Err (StartPPS name e)
  | Ok c => if opens (pc_Device c) then Ok (mkSourceSpec (pc_Name c) o (BuiltPPS c)) else Err (StartDevice name)
  end.

Definition start_nmea (name : string) (c : NMEAConfig) (o : Options) : result StartError SourceSpec :=
  match defaultAndValidateNMEA c true with
  | Err e => Err (StartNMEA name e)
  | Ok c => if opens (nc_Device c) then Ok (mkSourceSpec (nc_Name c) o (BuiltNMEA c)) else Err (StartDevice name)
  end.

(** One refclock: a PPS source, or an NMEA source and its PPS source. *)
Definition build_refclock (maxSlew : f64) (r : RefclockConf) : result StartError (list SourceSpec) :=
  if bool_decide (rf_Type r = "pps"%string) then
    match ParseEdge (rf_Edge r) with
    | None => Err (StartEdge (rf_Name r))
    | Some edge =>
        try s <- start_pps (rf_Name r)
          (mkPPSConfig (rf_Name r) "" (rf_Device r) edge (rf_Offset r) (rf_LockJitter r) (int8 (rf_PollMin r)) (int8 (rf_PollMax r)) maxSlew)
          (mkOptions (rf_Prefer r) (rf_NoSelect r) false true false);
        Ok [s]
    end
  else
    try n <- start_nmea (rf_Name r)
      (mkNMEAConfig (rf_Name r +:+ "/nmea")%string (rf_Device r) (rf_Baud r) (rf_NMEAOffset r) (rf_Sentences r) buildTime)
      (mkOptions (rf_Prefer r && negb (HasPPS r)) (rf_NoSelect r) true false true);
    if negb (HasPPS r) then Ok [n]
    else
      match ParseEdge (rf_PPSEdge r) with
      | None => Err (StartEdge (rf_Name r))
      | Some edge =>
          let device := if bool_decide (rf_PPS r = "dcd"%string) || bool_decide (rf_PPS r = "cts"%string) then rf_Device r else rf_PPS r in
          try s <- start_pps (rf_Name r)
            (mkPPSConfig (rf_Name r +:+ "/pps")%string "gps-pps" device edge (rf_PPSOffset r) (rf_LockJitter r) (int8 (rf_PollMin r)) (int8 (rf_PollMax r)) maxSlew)
            (mkOptions (rf_Prefer r) (rf_NoSelect r) false true false);
          Ok [n; s]
      end.

Fixpoint build_refclocks (maxSlew : f64) (l : list RefclockConf) : result StartError (list SourceSpec) :=
  match l with
  | [] => Ok []
  | r :: l => try a <- build_refclock maxSlew r; try b <- build_refclocks maxSlew l; Ok (a ++ b)
  end.

Definition build_sources (c : Configuration) (keys : Keys) : option (result StartError (list SourceSpec * list Peer)) :=
  r ← build_servers keys (cf_Servers c);
  Some (try (specs, peers) <- r; try clocks <- build_refclocks (dc_MaxSlewPPM (cf_Discipline c)) (cf_Refclocks c); Ok (specs ++ clocks, peers)).

(** ** The engine and the listener *)

Definition discipline_config (c : Configuration) (local : RefIDs) : System.Config :=
  System.mkConfig
    (mkLoopConfig (sp_Threshold (cf_Step c)) (sp_Limit (cf_Step c)) (sp_Panic (cf_Step c)) (sp_PanicAtStartup (cf_Step c)) (dc_MaxSlewPPM (cf_Discipline c))
       (Log2Seconds precision) fzero (of_Z 900))
    (dc_MinSurvivors (cf_Discipline c)) (dc_HoldoverMax (cf_Discipline c)) (dc_SettleUpdates (cf_Discipline c)) local.

Definition engine_config (c : Configuration) : EngineConfig :=
  mkEngineConfig (dm_DriftFile (cf_Daemon c)) 0 (duration_of (fmul (dm_DriftStableSeconds (cf_Daemon c)) (of_Z Second)))
    (dm_DriftStableSpreadPPM (cf_Daemon c)) (mkLeapConfig None (LeapRequired c)).

(** The handler's configuration; none is a panic of [MustParsePrefix]. *)
Definition handler_config (c : Configuration) (keys : Keys) : option Responder.Config :=
  '(allow, deny, require) ← ServePrefixes c;
  let s := cf_Serve c in
  Some (Responder.mkConfig allow deny require keys (sr_RateLimitPPS s) (sr_RateBurst s) (sr_MaxClients s) (sr_RateLimitV6Prefix s) (sr_KoD s) 0 true true).

End Build.

(** ** The status served *)

Definition maxServedStatusAge : duration := 30 * Second.

(** The [Status] closure: a snapshot the engine has stopped renewing vouches
    for nothing, and a fresh one's dispersion grows with its age. *)
Definition served_status (st : EngineStatus) (mono : f64) : SystemStatus :=
  let age := fsub mono (es_PublishedMono st) in
  let fresh := fle age (Seconds maxServedStatusAge) in
  let sys := es_sys st in
  let synced := fresh && synced_state (st_State sys) in
  let disp := if synced then fadd (st_RootDisp sys) (fmul Phi (fmax fzero age)) else st_RootDisp sys in
  mkSystemStatus synced (if synced then System.st_Leap sys else LeapUnsync) (System.st_Stratum sys) (es_Precision st)
    (System.st_RootDelay sys) disp (st_RefID sys) (es_RefTime st).

(** ** Warnings *)

Definition leapDisplayTable (s : LeapState) (manual : option Object) : option Table :=
  match manual with
  | Some o => Some (ob_table o)
  | None => match ls_Active s with Some r => Some (ob_table (lr_Object r)) | None => None end
  end.

Inductive configurationWarning : Type :=
| WarnAwaiting (mode : string) | WarnExpired (at_ : time) | WarnExpires (remaining : duration) (at_ : time)
| WarnPublic (allow : list str) | WarnPublicRate (pps : f64) | WarnRecvBuffer | WarnBufferRefused (bytes : Z).

(** The [error] field: the one that is logged as an error. *)
Definition warning_error (w : configurationWarning) : bool := match w with WarnExpired _ => true | _ => false end.

Definition leapWarnings (c : Configuration) (table : option Table) (now : time) : list configurationWarning :=
  match table with
  | None => if negb (bool_decide (LeapMode c = "off"%string)) || LeapRequired c then [WarnAwaiting (LeapMode c)] else []
  | Some t =>
      let remaining := Sub (Expiry t) now in
      if remaining <=? 0 then [WarnExpired (Expiry t)]
      else if remaining <=? 30 * 24 * Hour then [WarnExpires remaining (Expiry t)]
      else []
  end.

Definition publicRateLimitPPS : f64 := of_Z 1.

Definition serveWarnings (freebsd : bool) (c : Configuration) : list configurationWarning :=
  if negb (serve_enabled (cf_Serve c)) then []
  else
    let public := PublicAllowPrefixes c in
    if (length public =? 0)%nat then []
    else
      WarnPublic public ::
      (if fgt (sr_RateLimitPPS (cf_Serve c)) publicRateLimitPPS then [WarnPublicRate (sr_RateLimitPPS (cf_Serve c))] else []) ++
      (if sr_RecvBuffer (cf_Serve c) =? 0 then [WarnRecvBuffer] else if freebsd then [WarnBufferRefused (sr_RecvBuffer (cf_Serve c))] else []).

Definition configurationWarnings (freebsd : bool) (c : Configuration) (table : option Table) (now : time) : list configurationWarning :=
  leapWarnings c table now ++ serveWarnings freebsd c.

(** [localRefIDs] of the interface addresses, or none if they cannot be
    listed. *)
Definition localRefIDs (addrs : option (list Addr)) : RefIDs :=
  match addrs with None => [] | Some l => (fun a => RefIDFromAddr (Unmap a)) <$> l end.
