(* ===== verification/StartupSound.v ===== *)
(** * A validated configuration starts

    Proofs about [Startup]: what [Validate] accepts and [loadKeys] resolves is
    accepted by every constructor the start-up code calls. *)

From stdpp Require Import base list strings numbers gmap.
From Stdlib Require Import Lia ZArith.
From S2P Require Import Prelude Float64 GoTime GoStrings Netip NetipParse NtpTime NtpPacket Measurement Select Loop System RateLimit Auth Keys Responder Exchange NtpSource Refclock Pps NmeaSentence Nmea Clock LeapTable LeapStore EngineLeap Drift Engine EngineTrace LeapUpdater Config ConfigSound Startup.

Local Open Scope Z_scope.

Lemma string_of_nonempty s : s <> [] -> string_of s <> ""%string.
Proof. by destruct s. Qed.

Lemma int8_poll v lo hi : poll_ok lo hi -> lo <= v <= hi -> int8 v = v.
Proof. unfold poll_ok, ConfMinPoll, ConfMaxPoll, int8. intros [H1 H2] Hv. rewrite Z.mod_small; lia. Qed.

Lemma finite_plausible v : plausibleCalibration v = true -> finite v = true.
Proof. unfold plausibleCalibration, finite. rewrite !andb_true_iff. tauto. Qed.

Lemma positive_nonzero x : fgt x fzero = true -> feq x fzero = false /\ fle x fzero = false.
Proof. ford. Qed.

(** ** Keys *)

Lemma find_none {A} (f : A -> bool) l : List.find f l = None -> forall x, x ∈ l -> f x = false.
Proof. intros H x Hx. eapply List.find_none; [exact H|]. by apply list_elem_of_In. Qed.

Record keys_for (c : Configuration) (keys : Keys) : Prop := {
  kf_servers : forall s, s ∈ cf_Servers c -> sv_Key s <> 0 -> is_Some (keys !! sv_Key s);
  kf_require : forall e, e ∈ sr_RequireKey (cf_Serve c) -> is_Some (keys !! snd e);
  kf_leap : forall id, id ∈ sr_LeapKeys (cf_Serve c) -> is_Some (keys !! id)
}.

Lemma loadKeys_ok c file keys : loadKeys c file = Ok keys -> (forall k, file = Some k -> ring_ok k) -> ring_ok keys /\ keys_for c keys.
Proof.
  unfold loadKeys. cbv zeta. intros H Hf.
  set (read := if negb _ then _ else _) in H. assert (forall k, read = Ok k -> ring_ok k) as Hr.
  { subst read. intros k. case_goal; [destruct file; [intros [= <-]; by apply Hf|done]|]. intros [= <-]. apply ring_ok_empty. }
  destruct read as [ks|]; [|done]. cbn [result_bind] in H. specialize (Hr _ eq_refl).
  destruct (List.find _ (cf_Servers c)) eqn:E1; [done|]. destruct (List.find _ (sr_RequireKey _)) eqn:E2; [done|]. destruct (List.find _ (sr_LeapKeys _)) eqn:E3; [done|].
  revert H. intros [= <-]. split; [done|]. constructor; intros x Hx.
  - intros H0. pose proof (find_none _ _ E1 x Hx) as H. cbn beta in H. apply Z.eqb_neq in H0. rewrite H0 in H. cbn in H. apply bool_decide_eq_false in H. by apply not_eq_None_Some.
  - pose proof (find_none _ _ E2 x Hx) as H. apply bool_decide_eq_false in H. by apply not_eq_None_Some.
  - pose proof (find_none _ _ E3 x Hx) as H. apply bool_decide_eq_false in H. by apply not_eq_None_Some.
Qed.

(** ** Sources *)

Section Sources.
Context (precision : Z) (buildTime : time) (opens : string -> bool).
Hypothesis opens_all : forall d, opens d = true.

Lemma NewNTP_starts cfg : c_Name cfg <> ""%string -> c_Host cfg <> ""%string -> c_Port cfg <> 0 -> poll_ok (c_PollMin cfg) (c_PollMax cfg) ->
  (forall k, c_Key cfg = Some k -> length (Secret k) = 16%nat) ->
  exists n, NewNTP cfg (Some precision) = Ok n /\ c_Name (n_cfg n) = c_Name cfg /\ c_Key (n_cfg n) = c_Key cfg.
Proof.
  destruct cfg as [name addr host port key ib pmin pmax tmo lc]. cbn [c_Name c_Host c_Port c_PollMin c_PollMax c_Key]. unfold poll_ok, ConfMinPoll, ConfMaxPoll.
  intros H1 H2 H3 [H4 H5] H6. apply Z.eqb_neq in H3.
  assert ((pmin =? 0) = false /\ (pmax =? 0) = false) as [P1 P2] by (rewrite !Z.eqb_neq; lia).
  assert ((pmin <? MinPoll) || (MaxPoll <? pmax) || (pmax <? pmin) = false) as P3 by (unfold MinPoll, MaxPoll; rewrite !orb_false_iff, !Z.ltb_ge; lia).
  assert (match key with None => false | Some k => negb (length (Secret k) =? 16)%nat end = false) as Hk by (destruct key as [k|]; [by rewrite (H6 k eq_refl)|done]).
  unfold NewNTP. cbn [c_Name]. rewrite (bool_decide_eq_false_2 (name = ""%string)) by done. cbv zeta. cbn [c_Host c_Port].
  rewrite (bool_decide_eq_false_2 (host = ""%string)) by done. rewrite H3. cbn [c_PollMin]. rewrite P1. cbn [c_PollMax]. rewrite P2. cbn [c_PollMin c_PollMax].
  rewrite P3. cbn [c_Timeout]. destruct (tmo <=? 0); cbn -[Filter.NewFilter Log2Seconds Second]; rewrite Hk; eexists; by split.
Qed.

Lemma build_server_starts keys s : server_ok s -> ring_ok keys -> (sv_Key s <> 0 -> is_Some (keys !! sv_Key s)) -> (sv_LeapTrust s = true -> sv_Key s <> 0) ->
  exists spec peer, build_server precision keys s = Some (Ok (spec, peer)) /\ ss_Name spec = sv_Name s /\
    forall p, peer = Some p -> sv_LeapTrust s = true /\ pr_Name p = str_of (sv_Name s) /\ keys !! sv_Key s = Some (pr_Key p).
Proof.
  intros [Hn (host & port & Ha) Hk Hp _] Hr Hs Ht. unfold build_server. cbv zeta. rewrite Ha. destruct (ParseServerAddress_ok _ _ _ Ha) as [Hh Hport].
  set (key := if sv_Key s =? 0 then None else _).
  assert (forall k, key = Some k -> sv_Key s <> 0 /\ keys !! sv_Key s = Some k) as Hkey.
  { subst key. intros k. destruct (sv_Key s =? 0) eqn:E; [done|]. apply Z.eqb_neq in E. destruct (Hs E) as [k' ->]. cbn. by intros [= ->]. }
  assert (sv_LeapTrust s = true -> is_Some key) as Htk by (intros H; specialize (Ht H); subst key; apply Z.eqb_neq in Ht; rewrite Ht; eauto).
  clearbody key. destruct (NewNTP_starts (mkNTPConfig (sv_Name s) (sv_Address s) (string_of host) port key (sv_IBurst s) (int8 (sv_PollMin s)) (int8 (sv_PollMax s)) 0 false))
    as (n & En & E1 & E2); cbn [c_Name c_Host c_Port c_PollMin c_PollMax c_Key] in *.
  - done.
  - by apply string_of_nonempty.
  - lia.
  - rewrite !(int8_poll _ _ _ Hp); [done|destruct Hp; lia|destruct Hp; lia].
  - intros k E. destruct (Hkey k E) as [_ Hl]. by destruct (Hr _ _ Hl) as (_ & _ & Hlen & _).
  - rewrite En. destruct (sv_LeapTrust s) eqn:Et; [destruct (Htk eq_refl) as [k ->]|]; (eexists _, _; split; [done|]; cbn [ss_Name]; split; [done|]); [|done].
    intros p [= <-]. split; [done|]. split; [done|]. by apply Hkey.
Qed.

Lemma build_servers_starts keys l : Forall server_ok l -> ring_ok keys -> (forall s, s ∈ l -> sv_Key s <> 0 -> is_Some (keys !! sv_Key s)) ->
  (forall s, s ∈ l -> sv_LeapTrust s = true -> sv_Key s <> 0) ->
  exists specs peers, build_servers precision keys l = Some (Ok (specs, peers)) /\ ss_Name <$> specs = sv_Name <$> l /\
    forall p, p ∈ peers -> exists s, s ∈ l /\ sv_LeapTrust s = true /\ pr_Name p = str_of (sv_Name s) /\ keys !! sv_Key s = Some (pr_Key p).
Proof.
  intros Hl Hr. induction Hl as [|s l Hs Hl IH]; intros Hk Ht; cbn [build_servers].
  - exists [], []. split; [done|]. split; [done|]. intros p Hp. by apply elem_of_nil in Hp.
  - destruct (build_server_starts keys s Hs Hr) as (spec & peer & -> & En & Hp); [apply Hk; by left|apply Ht; by left|].
    destruct IH as (specs & peers & -> & Es & Hps); [intros x Hx; apply Hk; by right|intros x Hx; apply Ht; by right|]. cbn [mbind option_bind result_bind].
    eexists _, _. split; [done|]. split; [cbn; by rewrite En, Es|]. intros p Hin.
    assert (peer = Some p \/ p ∈ peers) as [->|Hin'] by (destruct peer; [apply elem_of_cons in Hin as [->|]; auto|auto]).
    + exists s. split; [by left|]. by apply Hp.
    + destruct (Hps p Hin') as (s' & H1 & H2). exists s'. split; [by right|done].
Qed.

Lemma validatePPS_starts c : pc_Name c <> ""%string -> pc_Type c ∈ [""; "gps-pps"]%string -> pc_Device c <> ""%string -> pc_Edge c = Assert \/ pc_Edge c = Clear ->
  finite (pc_Offset c) = true -> fgt (pc_LockJitter c) fzero = true -> finite (pc_LockJitter c) = true -> poll_ok (pc_PollMin c) (pc_PollMax c) ->
  fgt (pc_MaxSlewPPM c) fzero = true -> finite (pc_MaxSlewPPM c) = true ->
  exists c', defaultAndValidatePPS c true = Ok c' /\ pc_Name c' = pc_Name c /\ pc_Device c' = pc_Device c.
Proof.
  destruct c as [name type device edge off jit pmin pmax slew]. cbn [pc_Name pc_Type pc_Device pc_Edge pc_Offset pc_LockJitter pc_PollMin pc_PollMax pc_MaxSlewPPM].
  unfold poll_ok, ConfMinPoll, ConfMaxPoll. intros H1 H2 H3 H4 H5 H6 H7 [H8 H9] H10 H11.
  assert ((pmin =? 0) = false /\ (pmax =? 0) = false) as [P1 P2] by (rewrite !Z.eqb_neq; lia).
  assert ((pmin <? MinPoll) || (MaxPoll <? pmax) || (pmax <? pmin) = false) as P3 by (unfold MinPoll, MaxPoll; rewrite !orb_false_iff, !Z.ltb_ge; lia).
  assert (negb (edge =? Assert) && negb (edge =? Clear) = false) as Pe by (destruct H4 as [-> | ->]; done).
  assert (forall x, fgt x fzero = true -> feq x fzero = false /\ fle x fzero = false) as Hf.
  { intros x Hx. by apply positive_nonzero. }
  destruct (Hf _ H6) as [J1 J2], (Hf _ H10) as [S1 S2].
  unfold defaultAndValidatePPS. cbn [pc_Name]. rewrite (bool_decide_eq_false_2 (name = ""%string)) by done. cbv zeta. cbn [pc_Type].
  assert (exists t, (if bool_decide (type = ""%string) then (mkPPSConfig name type device edge off jit pmin pmax slew) <| pc_Type := "pps"%string |>
    else mkPPSConfig name type device edge off jit pmin pmax slew) = mkPPSConfig name t device edge off jit pmin pmax slew /\
    negb (bool_decide (t = "pps"%string)) && negb (bool_decide (t = "gps-pps"%string)) = false) as (t & -> & Ht).
  { apply elem_of_cons in H2 as [->|H2%list_elem_of_singleton]; [|subst type]; eexists; by split. }
  cbn [pc_Type pc_Device pc_Edge]. rewrite Ht. rewrite (bool_decide_eq_false_2 (device = ""%string)) by done. rewrite Pe. cbn [pc_LockJitter]. rewrite J1. cbn [pc_Offset pc_LockJitter].
  rewrite H5, H7, J2. cbn [negb orb pc_PollMin]. rewrite P1. cbn [pc_PollMax]. rewrite P2. cbn [pc_PollMin pc_PollMax]. rewrite P3. cbn [pc_MaxSlewPPM]. rewrite S1. cbn [pc_MaxSlewPPM].
  rewrite H11, S2. cbn [negb orb]. eexists; by split.
Qed.

Lemma ParseEdge_starts e : is_edge e = true -> exists z, ParseEdge e = Some z /\ (z = Assert \/ z = Clear).
Proof. unfold is_edge, ParseEdge. repeat case_bool_decide; intros; eauto; done. Qed.

Lemma start_pps_starts name c o c' : defaultAndValidatePPS c true = Ok c' -> start_pps opens name c o = Ok (mkSourceSpec (pc_Name c') o (BuiltPPS c')).
Proof. unfold start_pps. intros ->. by rewrite opens_all. Qed.

Lemma validateNMEA_starts c : nc_Name c <> ""%string -> nc_Device c <> ""%string -> nc_Baud c ∈ confBauds -> finite (nc_Offset c) = true ->
  Forall (fun s => s = str_of "RMC" \/ s = str_of "ZDA") (nc_Sentences c) ->
  exists c', defaultAndValidateNMEA c true = Ok c' /\ nc_Name c' = nc_Name c /\ nc_Device c' = nc_Device c.
Proof.
  intros H1 H2 H3 H4 H5. unfold defaultAndValidateNMEA. rewrite bool_decide_eq_false_2 by done. rewrite bool_decide_eq_false_2 by done.
  rewrite (bool_decide_eq_true_2 (nc_Baud c ∈ bauds)) by done. rewrite H4. cbn [negb]. destruct (length (nc_Sentences c) =? 0)%nat; [by eexists|].
  cbv zeta. destruct (List.find _ (nc_Sentences c)) as [k|] eqn:E; [|by eexists]. exfalso. apply List.find_some in E as [Hin Hk].
  rewrite Forall_forall in H5. apply list_elem_of_In in Hin. apply andb_true_iff in Hk as [K1 K2]. apply negb_true_iff, bool_decide_eq_false in K1, K2. by destruct (H5 k Hin).
Qed.

Lemma append_nonempty a b : a <> ""%string -> (a +:+ b)%string <> ""%string.
Proof. by destruct a. Qed.

Lemma build_refclock_starts maxSlew r : refclock_ok r -> fgt maxSlew fzero = true -> finite maxSlew = true ->
  exists specs, build_refclock buildTime opens maxSlew r = Ok specs /\ ss_Name <$> specs = SourceNames r.
Proof.
  intros [Hn Ht Hd Hp Hg (J1 & J2 & J3) Hpoll _] Hs1 Hs2. assert (finite (rf_LockJitter r) = true) as J4 by (unfold finite; by rewrite J2, J3).
  assert (int8 (rf_PollMin r) = rf_PollMin r /\ int8 (rf_PollMax r) = rf_PollMax r) as [P1 P2]
    by (split; apply (int8_poll _ _ _ Hpoll); destruct Hpoll; lia).
  unfold build_refclock, SourceNames, HasPPS. rewrite P1, P2. destruct Ht as [Et|Et]; rewrite Et; cbn -[start_pps start_nmea ParseEdge String.append].
  - destruct (Hp Et) as [He Ho]. destruct (ParseEdge_starts _ He) as (z & -> & Hz). apply finite_plausible in Ho.
    edestruct validatePPS_starts as (c' & Ec & En & _); [..|erewrite start_pps_starts by exact Ec]; cbn; try done; [by left|].
    eexists. split; [done|]. cbn. by rewrite En.
  - destruct (Hg Et) as [Hb Hdev He [O1 O2] Hsen]. apply finite_plausible in O1, O2.
    edestruct (validateNMEA_starts (mkNMEAConfig (rf_Name r +:+ "/nmea")%string (rf_Device r) (rf_Baud r) (rf_NMEAOffset r) (rf_Sentences r) buildTime))
      as (cn & En & Nn & _); cbn [nc_Name nc_Device nc_Baud nc_Offset nc_Sentences]; try done; [by apply append_nonempty|].
    unfold start_nmea at 1. rewrite En. rewrite opens_all. cbn -[start_pps ParseEdge String.append]. destruct (bool_decide (rf_PPS r = "none"%string)) eqn:Ep.
    + eexists. split; [done|]. cbn -[String.append]. by rewrite Nn.
    + apply bool_decide_eq_false in Ep. destruct (ParseEdge_starts _ (He Ep)) as (z & -> & Hz). cbn -[start_pps String.append].
      edestruct validatePPS_starts as (c' & Ec & Ek & _); [..|erewrite start_pps_starts by exact Ec]; cbn -[String.append]; try done.
      * by apply append_nonempty.
      * by apply elem_of_cons; right; left.
      * destruct (bool_decide (rf_PPS r = "dcd"%string)) eqn:E1; [done|]. destruct (bool_decide (rf_PPS r = "cts"%string)) eqn:E2; [done|]. cbn [orb].
        destruct Hdev as [Hdev|Hdev]; [|intros E; by rewrite E in Hdev]. apply bool_decide_eq_false in E1, E2. rewrite !elem_of_cons in Hdev.
        destruct Hdev as [?|[?|[?|?%elem_of_nil]]]; done.
      * eexists. split; [done|]. cbn -[String.append]. by rewrite Nn, Ek.
Qed.

Lemma build_refclocks_starts maxSlew l : Forall refclock_ok l -> fgt maxSlew fzero = true -> finite maxSlew = true ->
  exists specs, build_refclocks buildTime opens maxSlew l = Ok specs /\ ss_Name <$> specs = l ≫= SourceNames.
Proof.
  intros Hl H1 H2. induction Hl as [|r l Hr Hl (b & Eb & Nb)]; cbn [build_refclocks]; [by exists []|].
  destruct (build_refclock_starts maxSlew r Hr H1 H2) as (a & Ea & Na). rewrite Ea, Eb. exists (a ++ b). split; [done|]. by rewrite fmap_app, Na, Nb.
Qed.
End Sources.

(** ** The listener *)

Lemma serve_handler c keys : serve_ok (cf_Serve c) -> exists cfg h, handler_config c keys = Some cfg /\ cfg_Keys cfg = keys /\ NewHandler cfg = Ok h.
Proof.
  intros [_ (al & Hal & Hne) (de & Hde) Hre [R1 R2] [B1 B2] _ [M1 M2] _]. unfold handler_config, ServePrefixes. rewrite Hal. cbn [mbind option_bind]. rewrite Hde. cbn [mbind option_bind].
  assert (is_Some (mapM (fun e => (fun p => (Masked p, snd e)) <$> ParsePrefix (fst e)) (sr_RequireKey (cf_Serve c)))) as [re Er].
  { apply mapM_is_Some. apply Forall_forall. intros e He. destruct (Hre e He) as [p Hp]. cbn. rewrite Hp. by eexists. }
  rewrite Er. cbn [mbind option_bind]. eexists _, _. split; [done|]. split; [done|]. unfold NewHandler, config_errors.
  cbn [cfg_Allow cfg_RateLimitPPS cfg_RateBurst cfg_MaxClients cfg_hasStatus cfg_hasNow]. change maxRateLimit with confMaxRateLimit. rewrite R1, R2, B1, B2.
  destruct al; [done|]. unfold MinMaxClients in M1. replace (sr_MaxClients (cf_Serve c) <? 0) with false by (symmetry; apply Z.ltb_ge; lia). done.
Qed.

Lemma slew_finite x : fgt x fzero = true -> fle x (of_Z 500) = true -> finite x = true.
Proof. intros H1 H2. destruct x as [s|s| |s m e]; try done. by destruct s. Qed.

(** ** Claims *)

(** What the keys file parses to. *)
Definition key_file (input : str) : option Keys := match ParseKeys input with Ok k => Some k | Err _ => None end.

Lemma key_file_ring input k : key_file input = Some k -> ring_ok k.
Proof.
  unfold key_file, ParseKeys. destruct (scan_lines input) as [lines tooLong]. destruct (parse_lines ∅ 0 lines) as [ks|e] eqn:E; cbn; [|done].
  destruct tooLong; [done|]. intros [= <-]. eapply parse_lines_ok; [apply ring_ok_empty|exact E].
Qed.

Lemma Load_valid decode blocks data c : Load decode blocks data = Ok c -> sound_config c.
Proof. unfold Load. destruct (Parse decode blocks data) as [c'|]; [|done]. destruct (Validate c') eqn:E; [|done]. intros [= <-]. by apply Validate_sound. Qed.

(** Claim C2: a configuration that loads, starts.  Whatever TOML the decoder
    read, once [Load] accepts the configuration and [loadKeys] resolves its key
    references in any keys file that parses, and the devices open: building the
    sources neither fails nor panics, the sources are named in order as the
    configuration names them and all differently, every leap peer is a server
    marked as trusted and carries that server's own key, with a nonzero id and a
    16-byte secret; the engine is built; and a listener or a monitor that is
    enabled gets addresses and prefixes that parse and a request handler that
    its constructor accepts. *)
Theorem validated_starts {K : Kernel} decode blocks data input precision buildTime opens local freq known ls gen c keys :
  Load decode blocks data = Ok c -> loadKeys c (key_file input) = Ok keys -> (forall d, opens d = true) -> Z.even gen = true ->
  exists specs peers,
    build_sources precision buildTime opens c keys = Some (Ok (specs, peers)) /\
    ss_Name <$> specs = (sv_Name <$> cf_Servers c) ++ (cf_Refclocks c ≫= SourceNames) /\ NoDup (ss_Name <$> specs) /\ specs <> [] /\
    (forall p, p ∈ peers -> exists s, s ∈ cf_Servers c /\ sv_LeapTrust s = true /\ pr_Name p = str_of (sv_Name s) /\ ID (pr_Key p) = sv_Key s /\
       ID (pr_Key p) <> 0 /\ length (Secret (pr_Key p)) = 16%nat) /\
    (exists e, newEngine (engine_config c) (discipline_config precision c local) freq known ((fun s => (ss_Name s, ss_Options s)) <$> specs) ls gen = Some e) /\
    (serve_enabled (cf_Serve c) = true ->
       exists addrs cfg h, ServeListenAddrs c = Some addrs /\ addrs <> [] /\ handler_config c keys = Some cfg /\ NewHandler cfg = Ok h) /\
    (monitor_enabled (cf_Monitor c) = true -> exists a ps, MonitorListenAddr c = Some a /\ MonitorPrefixes c = Some ps /\ ps <> []).
Proof.
  intros Hc%Load_valid Hk Ho Hg. apply loadKeys_ok in Hk as [Hr Hk]; [|intros k; apply key_file_ring].
  destruct (build_servers_starts precision keys (cf_Servers c)) as (s1 & peers & E1 & N1 & Hp); [apply Hc|done|apply Hk|apply (cs_leap _ Hc)|].
  destruct (cs_slew _ Hc) as [S1 S2].
  destruct (build_refclocks_starts buildTime opens Ho (dc_MaxSlewPPM (cf_Discipline c)) (cf_Refclocks c)) as (s2 & E2 & N2); [apply Hc|done|by apply slew_finite|].
  exists (s1 ++ s2), peers. unfold build_sources. rewrite E1. cbn [mbind option_bind result_bind]. rewrite E2. split; [done|].
  assert (ss_Name <$> s1 ++ s2 = (sv_Name <$> cf_Servers c) ++ (cf_Refclocks c ≫= SourceNames)) as N by (by rewrite fmap_app, N1, N2).
  split; [done|]. rewrite N. split; [apply Hc|]. split; [|split; [|split; [|split]]].
  - intros E. apply app_nil in E as [-> ->]. cbn in N1, N2. destruct (cs_some _ Hc) as [H|H].
    + by destruct (cf_Servers c).
    + destruct (cf_Refclocks c) as [|r l]; [done|]. cbn in N2. symmetry in N2. apply app_nil in N2 as [N2 _]. unfold SourceNames in N2. destruct (bool_decide (rf_Type r = "gps"%string)); done.
  - intros p Hin. destruct (Hp p Hin) as (s & H1 & H2 & H3 & H4). exists s. destruct (Hr _ _ H4) as (I1 & I2 & I3 & _). split; [done|]. split; [done|]. split; [done|]. split; [done|]. split; [lia|done].
  - destruct (newEngine_resting (engine_config c) (discipline_config precision c local) freq known ((fun s => (ss_Name s, ss_Options s)) <$> s1 ++ s2) ls gen) as (e & He & _); [|done|by exists e].
    rewrite <- list_fmap_compose. change (NoDup (ss_Name <$> s1 ++ s2)). rewrite N. apply Hc.
  - intros Hs. destruct (serve_handler c keys (cs_serve _ Hc Hs)) as (cfg & h & H1 & _ & H2). destruct (cs_serve _ Hc Hs) as [(addrs & Ha & Hne & _) _ _ _ _ _ _ _ _]. by exists addrs, cfg, h.
  - intros Hm. destruct (cs_monitor _ Hc Hm) as [(a & Ha & _) (ps & Hps & Hne)]. by exists a, ps.
Qed.

(** Claim C1: what the network is told.  An engine runs any events on any
    clock, and a listener answers from one of the snapshots the engine
    published: an answer that does not say unsynchronized was given within 30 s
    of the publication of a snapshot that is synchronized, with that snapshot's
    leap indicator, stratum and reference; and, where a leap table is required,
    the leap authority was ready and UTC established. *)
Theorem daemon_answers_truth {K : Kernel} ec d freq known srcs ls gen evs srv request client receive mono pkt mac off :
  NoDup (srcs.*1) -> Z.even gen = true -> Forall event_ok evs -> Responder.server_ok srv -> Forall is_byte request -> Decode request = Ok (pkt, mac, off) ->
  exists e e' err, newEngine ec d freq known srcs ls gen = Some e /\ engine_run e evs = Some (e', err) /\
  forall s env at_ srv' out, In (EffPublish s) (e_trace e') -> Responder.e_status env = served_status s at_ -> Responder.status_ok (Responder.e_status env) ->
    Handle env srv request client receive mono = Some (srv', Some out) ->
    let p := decode_header out in
    NtpPacket.Leap p <> LeapUnsync ->
    serving s = true /\ fle (fsub at_ (es_PublishedMono s)) (Seconds maxServedStatusAge) = true /\
    NtpPacket.Leap p = System.st_Leap (es_sys s) /\ NtpPacket.Stratum p = System.st_Stratum (es_sys s) /\ NtpPacket.ReferenceID p = st_RefID (es_sys s) /\
    (es_LeapRequired s = true -> es_LeapReady s = true /\ es_TimeKnown s = true).
Proof.
  intros Hn Hg Hev Hsrv Hb Hd. destruct (engine_run_good ec d freq known srcs ls gen evs Hn Hg Hev) as (e & e' & err & H1 & H2 & Ht & _).
  exists e, e', err. split; [done|]. split; [done|]. intros s env at_ srv' out Hs Hst Hok Hh p Hl.
  destruct (server_reply env srv request client receive mono srv' out pkt mac off Hsrv Hok Hb Hh Hd) as (_ & _ & _ & _ & _ & _ & Hr).
  destruct (Hr Hl) as (R1 & R2 & R3 & R4). rewrite Hst in R1, R2, R3, R4. unfold served_status in *. cbn [Responder.st_Synced Responder.st_Leap Responder.st_Stratum Responder.st_ReferenceID] in *.
  apply andb_true_iff in R4 as [Hf Hv]. rewrite Hf, Hv in R1. cbn [andb] in R1.
  apply in_split in Hs as (post & pre & E). rewrite E in Ht. apply trace_ok_at in Ht as [(_ & Hs & _) _]. unfold serving in *. rewrite Hv in Hs.
  split; [done|]. split; [done|]. split; [done|]. split; [done|]. split; [done|]. apply Hs.
Qed.

(** ** Examples *)

(** A server with a key that is trusted for leap tables, a GPS receiver with
    its pulse on the same port, a listener and a monitor. *)
Definition example_decoded : Configuration :=
  Default <| cf_Daemon := mkDaemonConf "/var/lib/carillon/drift" (of_Z 900) (of_Z 1) "/var/run/carillon/carillon.sock" "" "/etc/carillon/keys" "info" |>
    <| cf_Servers := [mkServerConf "" "time.example:1123" 7 true false true false 0 0] |>
    <| cf_Refclocks := [mkRefclockConf "gps" "gps" "/dev/cuau0" "" fzero true false fzero 0 0 0 "dcd" "" fzero fzero [] []] |>
    <| cf_Serve := mkServeConf [str_of "0.0.0.0:123"; str_of "[::]:123"] [str_of "192.0.2.0/24"] [str_of "192.0.2.128/25"] [(str_of "192.0.2.64/26", 7)] [7]
         (of_Z 8) (of_Z 16) DefaultRateLimitV6Prefix DefaultMaxClients 0 true |>
    <| cf_Monitor := mkMonitorConf (str_of "127.0.0.1:9123") [str_of "127.0.0.0/8"] [] [] [] |>
    <| cf_Leap := mkLeapConf "peers" None |>.

Definition example_blocks : list (list string) := [["name"; "type"; "device"; "prefer"; "pps"]%string].
Definition example_load : result (list ConfError) Configuration := Config.Load (fun _ => Some example_decoded) (fun _ => Some example_blocks) [].

Example example_starts :
  match example_load with
  | Ok c => match loadKeys c (key_file example_file) with Ok keys => bool_decide (is_Some (keys !! 7)) && serve_enabled (cf_Serve c) | Err _ => false end
  | Err _ => false
  end = true.
Proof. vm_compute. reflexivity. Qed.

Example example_refusals :
  Validate Default = [CfNoSource] /\
  Config.Load (fun _ => Some (example_decoded <| cf_Servers := [] |>)) (fun _ => Some example_blocks) [] = Err [CfLeapNoPeer].
Proof. vm_compute. split; reflexivity. Qed.

Lemma example_load_ok : exists c keys, example_load = Ok c /\ loadKeys c (key_file example_file) = Ok keys /\ serve_enabled (cf_Serve c) = true /\
  (sv_Name <$> cf_Servers c) ++ (cf_Refclocks c ≫= SourceNames) = ["time.example:1123"; "gps/nmea"; "gps/pps"]%string.
Proof.
  pose proof example_starts as H. assert (match example_load with Ok c => (sv_Name <$> cf_Servers c) ++ (cf_Refclocks c ≫= SourceNames) | Err _ => [] end =
    ["time.example:1123"; "gps/nmea"; "gps/pps"]%string) as N by (vm_compute; reflexivity).
  destruct example_load as [c|]; [|discriminate H]. destruct (loadKeys c (key_file example_file)) as [keys|] eqn:E; [|discriminate H].
  exists c, keys. apply andb_true_iff in H as [_ H]. split; [done|]. split; [done|]. split; [done|exact N].
Qed.

Lemma validated_starts_witness :
  exists c keys specs peers, example_load = Ok c /\ build_sources (-20) zeroTime (fun _ => true) c keys = Some (Ok (specs, peers)) /\
    ss_Name <$> specs = ["time.example:1123"; "gps/nmea"; "gps/pps"]%string /\ exists cfg h, handler_config c keys = Some cfg /\ NewHandler cfg = Ok h.
Proof.
  destruct example_load_ok as (c & keys & Hl & Hk & Hs & Hn).
  destruct (validated_starts (K := example_kernel) (fun _ => Some example_decoded) (fun _ => Some example_blocks) [] example_file (-20) zeroTime (fun _ => true) [] fzero false
    example_no_leaps 0 c keys Hl Hk (fun _ => eq_refl) eq_refl) as (specs & peers & H1 & H2 & _ & _ & _ & _ & H3 & _).
  destruct (H3 Hs) as (addrs & cfg & h & _ & _ & H4 & H5).
  exists c, keys, specs, peers. split; [exact Hl|]. split; [exact H1|]. split; [rewrite H2; exact Hn|]. exists cfg, h. split; [exact H4|exact H5].
Defined.

(** A clock that moves two seconds a reading, and the example run up to its
    second synchronized update. *)
Definition example_clock : Kernel := {|
  k_now := fun n => unixTime (1767225600 + Z.of_nat n) 0; k_mono := fun n => of_Z (2 * Z.of_nat n); k_takes := fun _ => true;
  k_precision := -20; k_info := fun _ _ => initialInfo 6 |}.
Definition example_run : list event := take 11 example_events.

(** The last snapshot published. *)
Definition last_published (tr : list effect) : option EngineStatus := head (omap (fun f => match f with EffPublish s => Some s | _ => None end) tr).

Lemma last_published_In tr s : last_published tr = Some s -> In (EffPublish s) tr.
Proof.
  unfold last_published. induction tr as [|f tr IH]; [done|]. cbn. destruct f; cbn; intros H; try (right; by apply IH). left. congruence.
Qed.

Definition answering (s : EngineStatus) : Responder.Env := Responder.mkEnv (served_status s (of_Z 70)) (unixTime 1717200100 0) (unixTime 1717200101 0).

Definition answers_synced (s : EngineStatus) : bool :=
  let st := Responder.e_status (answering s) in
  (0 <=? Responder.st_Leap st) && (Responder.st_Leap st <? 4) && bool_decide (in_u 8 (Responder.st_Stratum st)) && bool_decide (in_s 8 (Responder.st_Precision st)) &&
  bool_decide (length (Responder.st_ReferenceID st) = 4%nat) && bool_decide (Forall is_byte (Responder.st_ReferenceID st)) &&
  match Handle (answering s) example_server example_request example_client (unixTime 1717200100 5) 0 with
  | Some (_, Some out) => negb (NtpPacket.Leap (decode_header out) =? LeapUnsync)
  | _ => false
  end.

Example example_engine_answers :
  (e ← newEngine (K := example_clock) example_engine_config System.example_cfg fzero false example_specs example_no_leaps 0;
   '(e, err) ← engine_run (K := example_clock) e example_run; answers_synced <$> last_published (e_trace e)) = Some true.
Proof. vm_compute. reflexivity. Qed.

Lemma answers_synced_spec s : answers_synced s = true -> Responder.status_ok (Responder.e_status (answering s)) /\
  exists srv' out, Handle (answering s) example_server example_request example_client (unixTime 1717200100 5) 0 = Some (srv', Some out) /\
    NtpPacket.Leap (decode_header out) <> LeapUnsync.
Proof.
  unfold answers_synced. cbv zeta. rewrite !andb_true_iff, !bool_decide_eq_true. intros ((((([H1 H2] & H3) & H4) & H5) & H6) & H7). split.
  - apply Z.leb_le in H1. apply Z.ltb_lt in H2. constructor; [split; [exact H1|exact H2]|exact H3|exact H4|exact H5|exact H6].
  - revert H7. generalize (Handle (answering s) example_server example_request example_client (unixTime 1717200100 5) 0). intros [[srv' [out|]]|] H7; [|discriminate H7|discriminate H7].
    exists srv', out. split; [reflexivity|]. apply Z.eqb_neq, negb_true_iff, H7.
Qed.

Lemma example_run_answers e e' err :
  newEngine (K := example_clock) example_engine_config System.example_cfg fzero false example_specs example_no_leaps 0 = Some e ->
  engine_run (K := example_clock) e example_run = Some (e', err) ->
  exists s srv' out, last_published (e_trace e') = Some s /\ Responder.status_ok (Responder.e_status (answering s)) /\
    Handle (answering s) example_server example_request example_client (unixTime 1717200100 5) 0 = Some (srv', Some out) /\
    NtpPacket.Leap (decode_header out) <> LeapUnsync.
Proof.
  intros H1 H2. pose proof example_engine_answers as Hx. apply bind_Some in Hx as (e0 & E0 & Hx). apply bind_Some in Hx as ([e1 err1] & E1 & Hx).
  assert (Some e0 = Some e) as E by exact (eq_trans (eq_sym E0) H1). apply (inj Some) in E. subst e0.
  assert (Some (e1, err1) = Some (e', err)) as E by exact (eq_trans (eq_sym E1) H2). apply (inj Some), pair_equal_spec in E as [-> ->].
  apply fmap_Some in Hx as (s & Hs & Ha). destruct (answers_synced_spec s (eq_sym Ha)) as (Hok & srv' & out & Hh & Hl).
  exists s, srv', out. split; [exact Hs|]. split; [exact Hok|]. split; [exact Hh|exact Hl].
Qed.

Lemma answering_status s : Responder.e_status (answering s) = served_status s (of_Z 70).
Proof. reflexivity. Qed.

Lemma daemon_answers_truth_witness :
  exists e e' err s srv' out, newEngine (K := example_clock) example_engine_config System.example_cfg fzero false example_specs example_no_leaps 0 = Some e /\
    engine_run (K := example_clock) e example_run = Some (e', err) /\ last_published (e_trace e') = Some s /\
    Handle (answering s) example_server example_request example_client (unixTime 1717200100 5) 0 = Some (srv', Some out) /\
    NtpPacket.Leap (decode_header out) = System.st_Leap (es_sys s) /\ serving s = true.
Proof.
  destruct example_decodes as (pkt & mac & off & Hd & _).
  destruct (daemon_answers_truth (K := example_clock) example_engine_config System.example_cfg fzero false example_specs example_no_leaps 0 example_run
    example_server example_request example_client (unixTime 1717200100 5) 0 pkt mac off) as (e & e' & err & H1 & H2 & H3);
    [apply NoDup_singleton|reflexivity|apply Forall_take, example_events_ok|apply example_server_ok|apply example_request_bytes|exact Hd|].
  destruct (example_run_answers e e' err H1 H2) as (s & srv' & out & Hs & Hok & Hh & Hl).
  destruct (H3 s (answering s) (of_Z 70) srv' out (last_published_In _ _ Hs) (answering_status s) Hok Hh Hl) as (R1 & _ & R2 & _).
  exists e, e', err, s, srv', out. split; [exact H1|]. split; [exact H2|]. split; [exact Hs|]. split; [exact Hh|]. split; [exact R2|exact R1].
Defined.
