(* ===== verification/StatusText.v ===== *)
(** * The text of states, statuses, modes and reference identifiers

    The String methods that the statistics files, the control socket and the
    monitor print. *)

From stdpp Require Import base list strings numbers.
From Stdlib Require Import Lia ZArith.
From S2P Require Import Prelude Float64 GoTime GoStrings NetipParse NtpTime NtpPacket Measurement Select Loop System GoDate GoText Refclock Pps.

Local Open Scope Z_scope.

Definition State_String (s : State) : string :=
  match s with StateUnsynced => "unsynced" | StateSettling => "settling" | StateSynced => "synced" | StateHoldover => "holdover" end.

Definition SelectStatus_String (s : SelectStatus) : string :=
  match s with
  | StatusUnreachable => "unreachable" | StatusNoSelect => "noselect" | StatusInvalid => "invalid" | StatusUnqualified => "unqualified"
  | StatusFalseticker => "falseticker" | StatusOutlier => "outlier" | StatusSurvivor => "survivor" | StatusSystem => "system"
  end.

Definition Leap_String (l : Z) : string :=
  if l =? LeapNone then "none" else if l =? LeapInsert then "insert" else if l =? LeapDelete then "delete" else "unsynchronized".

Definition Mode_String (m : Z) : string :=
  if m =? 1 then "symmetric-active" else if m =? 2 then "symmetric-passive" else if m =? 3 then "client" else if m =? 4 then "server"
  else if m =? 5 then "broadcast" else if m =? 6 then "control" else if m =? 7 then "private" else "reserved".

Definition Edge_String (e : Z) : string := if e =? Assert then "assert" else if e =? Clear then "clear" else "unknown".

(** The text of an identifier: its four characters, or an IPv4 address. *)
Definition RefID_String (r : RefID) : str := if IsText r then Text r else Join 46 (FormatUint <$> r).

(** Texts differ where the names do. *)
Lemma str_of_inj a b : str_of a = str_of b -> a = b.
Proof.
  revert b. induction a as [|c a IH]; intros [|c' b]; try done. cbn. intros H. apply (f_equal (fun l => (head l, tail l))) in H. apply pair_equal_spec in H as [H1 H2]. cbn in H1, H2. apply (inj Some) in H1. f_equal; [|by apply IH].
  assert (Ascii.N_of_ascii c = Ascii.N_of_ascii c') as E by lia. rewrite <- (Ascii.ascii_N_embedding c), <- (Ascii.ascii_N_embedding c'). by rewrite E.
Qed.
