(* ===== verification/Stats.v ===== *)
(** * internal/stats/writer.go: the daily statistics files

    A bounded queue of engine snapshots and one of accepted pulses, and a
    goroutine that writes them as rows of files Dir/YYYY/MM/DD/<kind>.tsv,
    buffered, rotated as the UTC day of a row changes and pruned by age.

    The disk is the directories and files under Dir.  Every call that may fail
    has a number, and [io] says what becomes of it: whether it succeeds, and for
    a write of the buffer how many of its bytes reach the file (a buffer decides
    by itself when to write).  The zone is the host's offset from UTC; the text
    of a float is a parameter; log lines are left out. *)

From stdpp Require Import base list strings numbers gmap.
From Stdlib Require Import Lia ZArith.
From S2P Require Import Prelude Float64 GoTime GoStrings NetipParse NtpTime NtpPacket Measurement Select Loop System ServerStats GoDate GoText Refclock Pps EngineLeap Engine StatusText.

Local Open Scope Z_scope.

(** ** Data *)

Definition queueSize : nat := 256.
Definition eventMinInterval : duration := Second.
Definition pulseQueueSize : nat := 4096.

(** A name under Dir, and what is there. *)
Abbreviation path := (list str).
Record Disk : Type := mkDisk { dk_dirs : list path; dk_files : gmap path str }.

(** [dailyFile]: the day, the file, the bytes in the writer's buffer, and
    whether a write of it has failed, after which it refuses all others. *)
Record dailyFile : Type := mkDailyFile { df_day : str; df_path : path; df_buf : str; df_failed : bool }.

#[export] Instance dailyFile_eta : Eta dailyFile := fun d => mkDailyFile (df_day d) (df_path d) (df_buf d) (df_failed d).

Record eventState : Type := mkEventState {
  ev_state : string; ev_systemSource : string; ev_ppsQualified : bool; ev_preferLost : bool; ev_sources : gmap string string
}.

(** [source.Pulse], with the name of its source. *)
Record AcceptedPulse : Type := mkAcceptedPulse { pl_Source : string; pl_Pulse : Pulse }.

Record Recorder : Type := mkRecorder {
  rc_keepDays : Z;
  rc_ch : list EngineStatus;
  rc_dropped : Z;
  rc_pulses : list AcceptedPulse;
  rc_pulsesDropped : Z;
  rc_files : gmap string dailyFile;
  rc_lastUpdates : Z;
  rc_lastEvents : option eventState;
  rc_lastEventAt : gmap (string * string) time;
  rc_horizon : option time;
  rc_disk : Disk;
  rc_calls : nat
}.

#[export] Instance Recorder_eta : Eta Recorder := fun r =>
  mkRecorder (rc_keepDays r) (rc_ch r) (rc_dropped r) (rc_pulses r) (rc_pulsesDropped r) (rc_files r) (rc_lastUpdates r) (rc_lastEvents r)
    (rc_lastEventAt r) (rc_horizon r) (rc_disk r) (rc_calls r).

Definition newRecorder (keepDays : Z) (disk : Disk) : Recorder := mkRecorder keepDays [] 0 [] 0 ∅ 0 None ∅ None disk 0.

Inductive StatsError : Type := ErrMkdir | ErrOpenFile | ErrStatFile | ErrHeader | ErrWriteRow | ErrFlush | ErrCloseFile.

(** [Record] and [Pulse]. *)
Definition Record_ (r : Recorder) (st : EngineStatus) : Recorder :=
  if (length (rc_ch r) <? queueSize)%nat then r <| rc_ch := rc_ch r ++ [st] |> else r <| rc_dropped := u64 (rc_dropped r + 1) |>.

Definition Recorder_Pulse (r : Recorder) (p : AcceptedPulse) : Recorder :=
  if IsZero (pu_At (pl_Pulse p)) then r
  else if (length (rc_pulses r) <? pulseQueueSize)%nat then r <| rc_pulses := rc_pulses r ++ [p] |>
  else r <| rc_pulsesDropped := u64 (rc_pulsesDropped r + 1) |>.

Section Writer.
Context (io : nat -> nat * bool) (zone : time -> Z) (number : f64 -> str).

(** ** Rows *)

Definition tab : Z := 9.
Definition newline : Z := 10.

(** [escape]. *)
Definition escape_byte (c : Z) : str :=
  if c =? 92 then [92; 92] else if c =? 9 then [92; 116] else if c =? 13 then [92; 114] else if c =? 10 then [92; 110] else [c].
Definition escape (s : str) : str := s ≫= escape_byte.

Definition row_of (fields : list str) : str := Join tab fields ++ [newline].
Definition header_of (names : list string) : str := row_of (str_of <$> names).

Definition boolText (b : bool) : string := if b then "true" else "false".

Definition pps_columns : list string := ["time"; "source"; "offset_seconds"; "sequence"].
Definition events_columns : list string := ["time"; "kind"; "subject"; "from"; "to"].
Definition loop_columns : list string :=
  ["time"; "state"; "system_source"; "offset_seconds"; "frequency_ppm"; "jitter_seconds"; "poll"; "pending_slew_seconds"; "stratum"; "root_delay_seconds";
   "root_dispersion_seconds"].
Definition sources_columns : list string :=
  ["time"; "source"; "status"; "reach"; "poll"; "offset_seconds"; "delay_seconds"; "dispersion_seconds"; "jitter_seconds"; "root_distance_seconds"; "stratum"; "refid"; "leap"].
Definition server_columns : list string :=
  ["time"; "family"; "served"; "unsynced"; "kod"; "denied"; "martian"; "ratelimited"; "badauth"; "badversion"; "nonclient"; "malformed"; "oversize"; "no_kernel_timestamp";
   "kernel_drops"; "clients"; "mode_control"; "mode_private"; "v1"; "v2"; "v3"; "v4"].

Definition pulse_line (p : AcceptedPulse) : str :=
  row_of [RFC3339Nano (pu_At (pl_Pulse p)); escape (str_of (pl_Source p)); number (pu_Offset (pl_Pulse p)); FormatUint (pu_Sequence (pl_Pulse p))].

Record change : Type := mkChange { ch_kind : string; ch_subject : string; ch_from : string; ch_to : string }.

Definition event_line (now : time) (c : change) : str :=
  row_of [RFC3339Nano now; str_of (ch_kind c); escape (str_of (ch_subject c)); escape (str_of (ch_from c)); escape (str_of (ch_to c))].

Definition system_poll (st : EngineStatus) : Z :=
  match List.find (fun s => bool_decide (ss_Name s = st_SystemSource (es_sys st))) (st_Sources (es_sys st)) with Some s => ss_Poll s | None => 0 end.

Definition loop_line (st : EngineStatus) : str :=
  let y := es_sys st in
  row_of [RFC3339Nano (es_Now st); str_of (State_String (st_State y)); escape (str_of (st_SystemSource y)); number (st_Offset y); number (st_Frequency y);
    number (st_Jitter y); FormatInt (system_poll st); number (st_Pending y); FormatUint (st_Stratum y); number (st_RootDelay y); number (st_RootDisp y)].

Definition source_line (now : time) (s : SourceStatus) : str :=
  row_of [RFC3339Nano now; escape (str_of (ss_Name s)); str_of (SelectStatus_String (ss_Status s)); FormatUint (ss_Reach s); FormatInt (ss_Poll s);
    number (ss_Offset s); number (ss_Delay s); number (ss_Dispersion s); number (ss_Jitter s); number (ss_Distance s);
    FormatUint (ss_Stratum s); escape (RefID_String (ss_RefID s)); str_of (Leap_String (ss_Leap s))].

Definition server_line (at_ : time) (family : string) (c : CounterSnapshot) : str :=
  row_of ([RFC3339Nano at_; str_of family] ++
    (FormatUint <$> [Served c; Unsynced c; KoD c; Denied c; Martian c; RateLimited c; BadAuth c; BadVersion c; NonClient c; Malformed c; Oversize c; NoKernelTS c; KernelDrops c]) ++
    [FormatInt (Clients c)] ++
    (FormatUint <$> [default 0 (Modes c !! 6%nat); default 0 (Modes c !! 7%nat); default 0 (Versions c !! 1%nat); default 0 (Versions c !! 2%nat); default 0 (Versions c !! 3%nat);
       default 0 (Versions c !! 4%nat)])).

(** ** The disk *)

(** The next call, and what becomes of it. *)
Definition call (r : Recorder) : Recorder * (nat * bool) := (r <| rc_calls := S (rc_calls r) |>, io (rc_calls r)).

Definition on_disk (r : Recorder) (f : Disk -> Disk) : Recorder := r <| rc_disk := f (rc_disk r) |>.

(** [os.MkdirAll] of a day's directory. *)
Definition add_dir (d : Disk) (p : path) : Disk := if bool_decide (p ∈ dk_dirs d) then d else mkDisk (dk_dirs d ++ [p]) (dk_files d).
Definition mkdirAll (y m d : str) (disk : Disk) : Disk := add_dir (add_dir (add_dir disk [y]) [y; m]) [y; m; d].

Definition append_file (p : path) (s : str) (d : Disk) : Disk := mkDisk (dk_dirs d) (alter (fun c => c ++ s) p (dk_files d)).

Definition is_prefix (p q : path) : bool := bool_decide (take (length p) q = p).

(** [os.RemoveAll] and [os.Remove] of a directory. *)
Definition removeAll (p : path) (d : Disk) : Disk :=
  mkDisk (List.filter (fun q => negb (is_prefix p q)) (dk_dirs d)) (filter (fun e => is_prefix p (fst e) = false) (dk_files d)).

Definition empty_dir (p : path) (d : Disk) : bool :=
  forallb (fun q => negb (is_prefix p q && (length q =? S (length p))%nat)) (dk_dirs d) &&
  forallb (fun e => negb (is_prefix p (fst e) && (length (fst e) =? S (length p))%nat)) (map_to_list (dk_files d)).

Definition removeIfEmpty (p : path) (r : Recorder) : Recorder :=
  let '(r, (_, ok)) := call r in
  if ok && empty_dir p (rc_disk r) then
    let '(r, (_, ok)) := call r in
    if ok then on_disk r (fun d => mkDisk (List.filter (fun q => negb (bool_decide (q = p))) (dk_dirs d)) (dk_files d)) else r
  else r.

(** The directories in a directory, by name. *)
Definition dirs_in (p : path) (d : Disk) : list str :=
  omap (fun q => if is_prefix p q && (length q =? S (length p))%nat then last q else None) (dk_dirs d).

(** ** Retention *)

Definition fourDigits (s : str) : bool := (length s =? 4)%nat && forallb is_digit s.

(** The first day kept: the day of the instant in the host's zone, less the
    days to keep. *)
Definition cutoff (keepDays : Z) (at_ : time) : Z :=
  let '(y, m, d) := civil ((Unix at_ + zone at_) / 86400) in days_of y m d - keepDays.

Definition expired (keepDays : Z) (at_ : time) (y m d : str) : bool :=
  match parse_date y m d with Some day => day <? cutoff keepDays at_ | None => false end.

Definition prune_day (at_ : time) (y m d : str) (r : Recorder) : Recorder :=
  if negb (length d =? 2)%nat || negb (expired (rc_keepDays r) at_ y m d) then r
  else let '(r, (_, ok)) := call r in if ok then on_disk r (removeAll [y; m; d]) else r.

Definition prune_month (at_ : time) (y m : str) (r : Recorder) : Recorder :=
  if negb (length m =? 2)%nat then r
  else
    let '(r, (_, ok)) := call r in
    if ok then removeIfEmpty [y; m] (fold_left (fun r d => prune_day at_ y m d r) (dirs_in [y; m] (rc_disk r)) r) else r.

Definition prune_year (at_ : time) (y : str) (r : Recorder) : Recorder :=
  if negb (fourDigits y) then r
  else
    let '(r, (_, ok)) := call r in
    if ok then removeIfEmpty [y] (fold_left (fun r m => prune_month at_ y m r) (dirs_in [y] (rc_disk r)) r) else r.

Definition prune (at_ : time) (r : Recorder) : Recorder :=
  if rc_keepDays r <=? 0 then r
  else
    let '(r, (_, ok)) := call r in
    if ok then fold_left (fun r y => prune_year at_ y r) (dirs_in [] (rc_disk r)) r else r.

Definition pruneTrusted (r : Recorder) : Recorder := match rc_horizon r with None => r | Some at_ => prune at_ r end.

Definition noteHorizon (r : Recorder) (st : EngineStatus) : Recorder :=
  if negb (bool_decide (st_State (es_sys st) = StateSynced)) || IsZero (es_Now st) then r
  else
    match rc_horizon r with
    | Some h => if After (es_Now st) h then r <| rc_horizon := Some (es_Now st) |> else r
    | None => r <| rc_horizon := Some (es_Now st) |>
    end.

(** ** Files *)

(** [bufio.Writer.WriteString]. *)
Definition WriteString (r : Recorder) (f : dailyFile) (s : str) : Recorder * dailyFile * bool :=
  if df_failed f then (r, f, false)
  else
    let '(r, (n, ok)) := call r in
    let all := df_buf f ++ s in
    (on_disk r (append_file (df_path f) (take n all)), f <| df_buf := drop n all |> <| df_failed := negb ok |>, ok).

(** [Flush]: an empty buffer is not written. *)
Definition Flush (r : Recorder) (f : dailyFile) : Recorder * dailyFile * bool :=
  if df_failed f then (r, f, false)
  else if (length (df_buf f) =? 0)%nat then (r, f, true)
  else
    let '(r, (n, ok)) := call r in
    if ok then (on_disk r (append_file (df_path f) (df_buf f)), f <| df_buf := [] |>, true)
    else (on_disk r (append_file (df_path f) (take n (df_buf f))), f <| df_failed := true |>, false).

Definition closeDaily (r : Recorder) (f : dailyFile) : Recorder * option StatsError :=
  let '(r, f, flushed) := Flush r f in
  let '(r, (_, closed)) := call r in
  (r, if negb flushed then Some ErrFlush else if negb closed then Some ErrCloseFile else None).

(** [OpenFile] with O_CREATE and O_APPEND: the file's directory must exist. *)
Definition openAppend (p : path) (r : Recorder) : Recorder * option str :=
  let '(r, (_, ok)) := call r in
  if negb ok || negb (bool_decide (removelast p ∈ dk_dirs (rc_disk r))) then (r, None)
  else
    let content := default [] (dk_files (rc_disk r) !! p) in
    (on_disk r (fun d => mkDisk (dk_dirs d) (<[p := content]> (dk_files d))), Some content).

(** Opens the file of a kind and a day, with the header when it is empty. *)
Definition open_daily (kind : string) (at_ : time) (header : str) (r : Recorder) : Recorder * option StatsError :=
  let y := padded 4 (Year at_) in let m := padded 2 (Month at_) in let d := padded 2 (Day at_) in
  let '(r, (_, ok)) := call r in
  if negb ok then (r, Some ErrMkdir)
  else
    let r := pruneTrusted (on_disk r (mkdirAll y m d)) in
    let p := [y; m; d; str_of kind ++ str_of ".tsv"] in
    let '(r, opened) := openAppend p r in
    match opened with
    | None => (r, Some ErrOpenFile)
    | Some content =>
        let '(r, (_, ok)) := call r in
        if negb ok then (fst (call r), Some ErrStatFile)
        else
          let f := mkDailyFile (DateOnly at_) p [] false in
          let '(r, f, ok) := if (length content =? 0)%nat then WriteString r f header else (r, f, true) in
          if ok then (r <| rc_files := <[kind := f]> (rc_files r) |>, None) else (fst (call r), Some ErrHeader)
    end.

(** [file]. *)
Definition daily (kind : string) (at_ : time) (header : str) (r : Recorder) : Recorder * option StatsError :=
  match rc_files r !! kind with
  | Some old =>
      if bool_decide (df_day old = DateOnly at_) then (r, None)
      else
        match closeDaily r old with
        | (r, Some e) => (r <| rc_files := <[kind := old <| df_failed := true |>]> (rc_files r) |>, Some e)
        | (r, None) => open_daily kind at_ header (r <| rc_files := delete kind (rc_files r) |>)
        end
  | None => open_daily kind at_ header r
  end.

Definition write (kind : string) (at_ : time) (header line : str) (r : Recorder) : Recorder * option StatsError :=
  match daily kind at_ header r with
  | (r, Some e) => (r, Some e)
  | (r, None) =>
      match rc_files r !! kind with
      | None => (r, None)
      | Some f =>
          let '(r, f, ok) := WriteString r f line in
          (r <| rc_files := <[kind := f]> (rc_files r) |>, if ok then None else Some ErrWriteRow)
      end
  end.

(** Writes rows in order, up to the first that fails. *)
Fixpoint write_all (kind : string) (at_ : time) (header : str) (lines : list str) (r : Recorder) : Recorder * option StatsError :=
  match lines with
  | [] => (r, None)
  | line :: lines => match write kind at_ header line r with (r, Some e) => (r, Some e) | (r, None) => write_all kind at_ header lines r end
  end.

(** ** Snapshots *)

Definition eventStateOf (st : EngineStatus) : eventState :=
  let y := es_sys st in
  mkEventState (State_String (st_State y)) (st_SystemSource y) (st_PPSQualified y) (st_PreferLost y)
    (fold_left (fun m s => <[ss_Name s := (SelectStatus_String (ss_Status s) +:+ "/" +:+ (if (ss_Reach s =? 0)%Z then "unreachable" else "reachable"))%string]> m)
       (st_Sources y) ∅).

Definition change_if (b : bool) (c : change) : list change := if b then [c] else [].

(** The transitions from one state to the next, sorted by kind and subject. *)
Definition change_less (a b : change) : bool :=
  if negb (bool_decide (ch_kind a = ch_kind b)) then String.ltb (ch_kind a) (ch_kind b) else String.ltb (ch_subject a) (ch_subject b).

Definition changes_of (old now : eventState) : list change :=
  sort_stable change_less
    (change_if (negb (bool_decide (ev_state now = ev_state old))) (mkChange "state" "" (ev_state old) (ev_state now)) ++
     change_if (negb (bool_decide (ev_systemSource now = ev_systemSource old))) (mkChange "system_source" "" (ev_systemSource old) (ev_systemSource now)) ++
     change_if (negb (Bool.eqb (ev_ppsQualified now) (ev_ppsQualified old))) (mkChange "pps_qualified" "" (boolText (ev_ppsQualified old)) (boolText (ev_ppsQualified now))) ++
     change_if (negb (Bool.eqb (ev_preferLost now) (ev_preferLost old))) (mkChange "prefer_lost" "" (boolText (ev_preferLost old)) (boolText (ev_preferLost now))) ++
     omap (fun e => match ev_sources old !! fst e with
                    | None => Some (mkChange "source" (fst e) "absent" (snd e))
                    | Some from => if bool_decide (from = snd e) then None else Some (mkChange "source" (fst e) from (snd e))
                    end) (map_to_list (ev_sources now)) ++
     omap (fun e => match ev_sources now !! fst e with None => Some (mkChange "source" (fst e) (snd e) "absent") | Some _ => None end)
       (map_to_list (ev_sources old))).

(** Too soon after the last row of the same subject. *)
Definition throttled (last : gmap (string * string) time) (now : time) (c : change) : bool :=
  match last !! (ch_kind c, ch_subject c) with Some t => Sub now t <? eventMinInterval | None => false end.

Fixpoint write_changes (now : time) (l : list change) (r : Recorder) : Recorder * option StatsError :=
  match l with
  | [] => (r, None)
  | c :: l =>
      if throttled (rc_lastEventAt r) now c then write_changes now l r
      else
        let r := r <| rc_lastEventAt := <[(ch_kind c, ch_subject c) := now]> (rc_lastEventAt r) |> in
        match write "events" now (header_of events_columns) (event_line now c) r with
        | (r, Some e) => (r, Some e)
        | (r, None) => write_changes now l r
        end
  end.

Definition writeEvents (st : EngineStatus) (r : Recorder) : Recorder * option StatsError :=
  let now := eventStateOf st in
  match rc_lastEvents r with
  | None => (r <| rc_lastEvents := Some now |>, None)
  | Some old => write_changes (es_Now st) (changes_of old now) (r <| rc_lastEvents := Some now |>)
  end.

Definition writeLoop (st : EngineStatus) (r : Recorder) : Recorder * option StatsError :=
  write "loop" (es_Now st) (header_of loop_columns) (loop_line st) r.

Definition writeSources (st : EngineStatus) (r : Recorder) : Recorder * option StatsError :=
  write_all "sources" (es_Now st) (header_of sources_columns) (source_line (es_Now st) <$> st_Sources (es_sys st)) r.

Definition process (st : EngineStatus) (r : Recorder) : Recorder * option StatsError :=
  if IsZero (es_Now st) then (r, None)
  else
    match writeEvents st (noteHorizon r st) with
    | (r, Some e) => (r, Some e)
    | (r, None) =>
        if (0 <? st_Updates (es_sys st)) && negb (st_Updates (es_sys st) =? rc_lastUpdates r) then
          match writeLoop st r with
          | (r, Some e) => (r, Some e)
          | (r, None) =>
              match writeSources st r with
              | (r, Some e) => (r, Some e)
              | (r, None) => (r <| rc_lastUpdates := st_Updates (es_sys st) |>, None)
              end
          end
        else (r, None)
    end.

Definition recordPulse (p : AcceptedPulse) (r : Recorder) : Recorder * option StatsError :=
  write "pps" (pu_At (pl_Pulse p)) (header_of pps_columns) (pulse_line p) r.

(** One row per family; none where there is no listener. *)
Definition recordServer (server : option StatsSnapshot) (now : time) (r : Recorder) : Recorder * option StatsError :=
  match server with
  | None => (r, None)
  | Some s => write_all "server" now (header_of server_columns) [server_line now "ipv4" (IPv4 s); server_line now "ipv6" (IPv6 s)] r
  end.

(** ** Flushing and closing *)

(** [flush] goes on after a failure; the files are a map. *)
Definition flush (r : Recorder) : Recorder * bool :=
  fold_left (fun '(r, good) '(kind, f) =>
      let '(r, f, ok) := Flush r f in (r <| rc_files := <[kind := f]> (rc_files r) |>, good && ok))
    (map_to_list (rc_files r)) (r, true).

Definition closeFiles (r : Recorder) : Recorder :=
  fold_left (fun r '(kind, f) => (closeDaily r f).1 <| rc_files := delete kind (rc_files r) |>) (map_to_list (rc_files r)) r.

(** A failure closes every file. *)
Definition report (x : Recorder * option StatsError) : Recorder := match x with (r, None) => r | (r, Some _) => closeFiles r end.

Definition flushAndReport (r : Recorder) : Recorder := let '(r, ok) := flush r in if ok then r else closeFiles r.

Definition reportDrops (r : Recorder) : Recorder := r <| rc_dropped := 0 |> <| rc_pulsesDropped := 0 |>.

Definition flush_tick (server : option StatsSnapshot) (now : time) (r : Recorder) : Recorder :=
  reportDrops (flushAndReport (report (recordServer server now r))).

(** ** The goroutine *)

Definition take_status (r : Recorder) : Recorder :=
  match rc_ch r with [] => r | st :: l => report (process st (r <| rc_ch := l |>)) end.

Definition take_pulse (r : Recorder) : Recorder :=
  match rc_pulses r with [] => r | p :: l => report (recordPulse p (r <| rc_pulses := l |>)) end.

(** What can happen: a snapshot or a pulse is offered, the goroutine takes one
    of either queue, or the minute is over. *)
Inductive stats_event : Type :=
| SeRecord (st : EngineStatus) | SePulse (p : AcceptedPulse) | SeTakeStatus | SeTakePulse | SeFlush (server : option StatsSnapshot) (now : time).

Definition stats_step (r : Recorder) (e : stats_event) : Recorder :=
  match e with
  | SeRecord st => Record_ r st
  | SePulse p => Recorder_Pulse r p
  | SeTakeStatus => take_status r
  | SeTakePulse => take_pulse r
  | SeFlush server now => flush_tick server now r
  end.

(** The end of [Run]: both queues are drained, [choose] says which of the two
    when both have something; the fuel is the number of queued items. *)
Fixpoint drain (choose : nat -> bool) (fuel : nat) (r : Recorder) : Recorder :=
  match fuel with
  | O => r
  | S fuel =>
      if (length (rc_pulses r) =? 0)%nat || (negb (length (rc_ch r) =? 0)%nat && choose fuel) then drain choose fuel (take_status r)
      else drain choose fuel (take_pulse r)
  end.

Definition stop (choose : nat -> bool) (server : option StatsSnapshot) (now : time) (r : Recorder) : Recorder :=
  closeFiles (flush_tick server now (drain choose (length (rc_ch r) + length (rc_pulses r)) r)).

Definition Recorder_Run (events : list stats_event) (choose : nat -> bool) (server : option StatsSnapshot) (now : time) (r : Recorder) : Recorder :=
  stop choose server now (fold_left stats_step events r).

End Writer.
