(* ===== verification/StatsKept.v ===== *)
(** * What the statistics writer never removes

    Proofs about [Stats]: whatever calls fail, a file whose day no retention
    clock of the run has put out of reach keeps its bytes; rows are only ever
    added behind them. *)

From stdpp Require Import base list strings numbers gmap.
From Stdlib Require Import Lia ZArith.
From S2P Require Import Prelude Float64 GoTime GoStrings NetipParse Measurement Select Loop System GoDate GoText Refclock Pps EngineLeap Engine ServerStats Stats.

Local Open Scope Z_scope.

Lemma mkdirAll_files y m d disk : dk_files (mkdirAll y m d disk) = dk_files disk.
Proof.
  assert (forall disk p, dk_files (add_dir disk p) = dk_files disk) as H by (intros dk p; unfold add_dir; by destruct (bool_decide _)). unfold mkdirAll. by rewrite !H.
Qed.

Section Kept.
Context (io : nat -> nat * bool) (zone : time -> Z) (number : f64 -> str).
Context (y m d : str) (rest : path).

Abbreviation q := (y :: m :: d :: rest).

(** Nothing but the disk, the open files, the events seen and the calls has
    changed, and the file is still there with its bytes. *)
Record kept (r r' : Recorder) : Prop := {
  kp_days : rc_keepDays r' = rc_keepDays r;
  kp_horizon : rc_horizon r' = rc_horizon r;
  kp_ch : rc_ch r' = rc_ch r;
  kp_file : forall c, dk_files (rc_disk r) !! q = Some c -> exists c', dk_files (rc_disk r') !! q = Some (c ++ c')
}.

Lemma kept_same r r' : rc_keepDays r' = rc_keepDays r -> rc_horizon r' = rc_horizon r -> rc_ch r' = rc_ch r -> dk_files (rc_disk r') = dk_files (rc_disk r) -> kept r r'.
Proof. intros H1 H2 H3 H4. constructor; try done. intros c Hc. exists []. by rewrite H4, app_nil_r. Qed.

Lemma kept_refl r : kept r r.
Proof. by apply kept_same. Qed.

Lemma kept_trans r1 r2 r3 : kept r1 r2 -> kept r2 r3 -> kept r1 r3.
Proof.
  intros [A1 A2 A3 A4] [B1 B2 B3 B4]. constructor; try congruence. intros c Hc. destruct (A4 c Hc) as [c1 H1]. destruct (B4 _ H1) as [c2 H2].
  exists (c1 ++ c2). by rewrite (assoc_L (++)).
Qed.

Lemma kept_fold {A} (f : Recorder -> A -> Recorder) (P : Recorder -> Prop) l : (forall r x, P r -> kept r (f r x) /\ P (f r x)) -> forall r, P r -> kept r (fold_left f l r) /\ P (fold_left f l r).
Proof.
  intros Hf. induction l as [|x l IH]; intros r Hr; cbn [fold_left]; [by split; [apply kept_refl|]|]. destruct (Hf r x Hr) as [H1 H2]. destruct (IH _ H2) as [H3 H4].
  split; [by eapply kept_trans|done].
Qed.

(** A change of the files that only appends. *)
Lemma kept_alter r p s : kept r (on_disk r (append_file p s)).
Proof.
  constructor; try done. intros c Hc. cbn. destruct (decide (p = q)) as [->|Hne].
  - exists s. rewrite lookup_alter_eq. by rewrite Hc.
  - exists []. rewrite lookup_alter_ne by done. by rewrite app_nil_r.
Qed.

Lemma kept_call r : kept r (call io r).1.
Proof. by apply kept_same. Qed.

(** ** Retention *)

(** The file's day is within reach of the retention clock. *)
Definition safe (r : Recorder) : Prop := rc_keepDays r <= 0 \/ forall h, rc_horizon r = Some h -> expired zone (rc_keepDays r) h y m d = false.

Lemma safe_kept r r' : kept r r' -> safe r -> safe r'.
Proof. intros [H1 H2 _ _]. unfold safe. by rewrite H1, H2. Qed.

Lemma kept_removeIfEmpty p r : kept r (removeIfEmpty io p r).
Proof.
  unfold removeIfEmpty. destruct (call io r) as [r1 [n ok]] eqn:E. pose proof (kept_call r) as H. rewrite E in H. case_goal; [|done].
  destruct (call io r1) as [r2 [n2 ok2]] eqn:E2. pose proof (kept_call r1) as H2. rewrite E2 in H2. eapply kept_trans; [exact H|]. case_goal; [|done]. eapply kept_trans; [exact H2|]. by apply kept_same.
Qed.

Lemma kept_prune_day h y' m' d' r : expired zone (rc_keepDays r) h y m d = false -> kept r (prune_day io zone h y' m' d' r).
Proof.
  intros Hs. unfold prune_day. destruct (_ || _) eqn:E; [apply kept_refl|]. destruct (call io r) as [r1 [n ok]] eqn:E1. pose proof (kept_call r) as H. rewrite E1 in H. case_goal; [|done].
  eapply kept_trans; [exact H|]. constructor; try done. intros c Hc. exists []. rewrite app_nil_r. cbn. apply map_lookup_filter_Some. split; [done|].
  unfold is_prefix. cbn [fst]. apply bool_decide_eq_false. cbn. intros Hp. apply orb_false_iff in E as [_ E]. apply negb_false_iff in E. congruence.
Qed.

Lemma kept_prune h r : rc_keepDays r <= 0 \/ expired zone (rc_keepDays r) h y m d = false -> kept r (prune io zone h r).
Proof.
  intros Hs. unfold prune. case_goal; [apply kept_refl|]. bool_step. destruct Hs as [Hs|Hs]; [lia|].
  set (P := fun r0 : Recorder => expired zone (rc_keepDays r0) h y m d = false).
  assert (forall a b, kept a b -> P a -> P b) as HP by (intros a b [D _ _ _]; unfold P; by rewrite D).
  assert (forall y' m' r0, P r0 -> kept r0 (prune_month io zone h y' m' r0)) as Hmonth.
  { intros y' m' r0 H0. unfold prune_month. case_goal; [apply kept_refl|]. destruct (call io r0) as [r1 [n ok]] eqn:E1. pose proof (kept_call r0) as H. rewrite E1 in H. cbn [fst] in H.
    case_goal; [|done]. eapply kept_trans; [exact H|]. eapply kept_trans; [|apply kept_removeIfEmpty].
    apply (kept_fold (fun r d => prune_day io zone h y' m' d r) P); [|by eapply HP]. intros a x Ha. pose proof (kept_prune_day h y' m' x a Ha) as Hk. split; [done|by eapply HP]. }
  assert (forall y' r0, P r0 -> kept r0 (prune_year io zone h y' r0)) as Hyear.
  { intros y' r0 H0. unfold prune_year. case_goal; [apply kept_refl|]. destruct (call io r0) as [r1 [n ok]] eqn:E1. pose proof (kept_call r0) as H. rewrite E1 in H. cbn [fst] in H.
    case_goal; [|done]. eapply kept_trans; [exact H|]. eapply kept_trans; [|apply kept_removeIfEmpty].
    apply (kept_fold (fun r m => prune_month io zone h y' m r) P); [|by eapply HP]. intros a x Ha. pose proof (Hmonth y' x a Ha) as Hk. split; [done|by eapply HP]. }
  destruct (call io r) as [r1 [n ok]] eqn:E1. pose proof (kept_call r) as H. rewrite E1 in H. cbn [fst] in H. case_goal; [|done]. eapply kept_trans; [exact H|].
  apply (kept_fold (fun r y' => prune_year io zone h y' r) P); [|by eapply HP]. intros a x Ha. pose proof (Hyear x a Ha) as Hk. split; [done|by eapply HP].
Qed.

Lemma kept_pruneTrusted r : safe r -> kept r (pruneTrusted io zone r).
Proof. unfold safe, pruneTrusted. intros Hs. destruct (rc_horizon r) as [h|]; [|apply kept_refl]. apply kept_prune. destruct Hs as [Hs|Hs]; [by left|right; by apply Hs]. Qed.

(** ** Files *)

(** Uses the lemma on the call that is destructed. *)
Ltac kept_step :=
  match goal with
  | |- context [call io ?r] => let E := fresh "E" in let H := fresh "K" in pose proof (kept_call r) as H; destruct (call io r) as [? [? ?]] eqn:E; cbn [fst] in H
  end.

Lemma kept_WriteString r f s : kept r (WriteString io r f s).1.1.
Proof. unfold WriteString. case_goal; [apply kept_refl|]. kept_step. cbn [fst]. eapply kept_trans; [exact K|apply kept_alter]. Qed.

Lemma kept_Flush r f : kept r (Flush io r f).1.1.
Proof. unfold Flush. repeat (case_goal; [apply kept_refl|]). kept_step. case_goal; cbn [fst]; (eapply kept_trans; [exact K|apply kept_alter]). Qed.

Lemma kept_closeDaily r f : kept r (closeDaily io r f).1.
Proof.
  unfold closeDaily. pose proof (kept_Flush r f) as H. destruct (Flush io r f) as [[r1 f1] ok]. cbn [fst] in H. kept_step. cbn [fst]. by eapply kept_trans.
Qed.

Lemma kept_openAppend p r : kept r (openAppend io p r).1.
Proof.
  unfold openAppend. kept_step. case_goal; cbn [fst]; [done|]. eapply kept_trans; [exact K|]. constructor; try done. intros c Hc. exists []. rewrite app_nil_r.
  match goal with |- context [on_disk ?r0 _] => change (<[p := default [] (dk_files (rc_disk r0) !! p)]> (dk_files (rc_disk r0)) !! q = Some c) end.
  destruct (decide (p = q)) as [E'|Hne]; [rewrite E', lookup_insert_eq; by rewrite Hc|by rewrite lookup_insert_ne].
Qed.

Lemma kept_open_daily kind at_ header r : safe r -> kept r (open_daily io zone kind at_ header r).1.
Proof.
  intros Hs. unfold open_daily. cbv zeta. kept_step. case_goal; [done|]. set (r1 := on_disk _ _).
  assert (kept r r1) as K1 by (eapply kept_trans; [exact K|]; apply kept_same; try reflexivity; apply mkdirAll_files).
  pose proof (kept_pruneTrusted r1 (safe_kept _ _ K1 Hs)) as K2. set (r2 := pruneTrusted io zone r1) in *. clearbody r2. pose proof (kept_trans _ _ _ K1 K2) as K3.
  set (p := [_; _; _; _]). pose proof (kept_openAppend p r2) as K4. destruct (openAppend io p r2) as [r3 [content|]]; cbn [fst] in *; [|by eapply kept_trans].
  pose proof (kept_trans _ _ _ K3 K4) as K5. clear K3 K4. pose proof (kept_call r3) as K6. destruct (call io r3) as [r4 [n4 ok4]]. cbn [fst] in K6. pose proof (kept_trans _ _ _ K5 K6) as K7. clear K5 K6.
  case_goal; cbn [fst]; [eapply kept_trans; [exact K7|apply kept_call]|].
  assert (forall f : dailyFile, kept r (if (length content =? 0)%nat then WriteString io r4 f header else (r4, f, true)).1.1) as K8.
  { intros f. case_goal; [eapply kept_trans; [exact K7|apply kept_WriteString]|done]. }
  match goal with |- context [if (length content =? 0)%nat then WriteString io r4 ?f header else _] => specialize (K8 f) end.
  destruct (if (length content =? 0)%nat then _ else _) as [[r5 f5] ok5]. cbn [fst] in K8. case_goal; cbn [fst]; (eapply kept_trans; [exact K8|]); [by apply kept_same|apply kept_call].
Qed.

Lemma kept_daily kind at_ header r : safe r -> kept r (daily io zone kind at_ header r).1.
Proof.
  intros Hs. unfold daily. destruct (rc_files r !! kind) as [old|]; [|by apply kept_open_daily]. case_goal; [apply kept_refl|].
  pose proof (kept_closeDaily r old) as K. destruct (closeDaily io r old) as [r1 [e|]]; cbn [fst] in *; [eapply kept_trans; [exact K|]; by apply kept_same|].
  set (r2 := r1 <| rc_files := _ |>). assert (kept r r2) as K2 by (eapply kept_trans; [exact K|]; by apply kept_same). eapply kept_trans; [exact K2|].
  apply kept_open_daily. by eapply safe_kept.
Qed.

Lemma kept_write kind at_ header line r : safe r -> kept r (write io zone kind at_ header line r).1.
Proof.
  intros Hs. unfold write. pose proof (kept_daily kind at_ header r Hs) as K. destruct (daily io zone kind at_ header r) as [r1 [e|]]; cbn [fst] in *; [done|].
  destruct (rc_files r1 !! kind) as [f|]; cbn [fst]; [|done]. pose proof (kept_WriteString r1 f line) as K2. destruct (WriteString io r1 f line) as [[r2 f2] ok]. cbn [fst] in *.
  eapply kept_trans; [exact K|]. eapply kept_trans; [exact K2|]. by apply kept_same.
Qed.

Lemma kept_write_all kind at_ header lines : forall r, safe r -> kept r (write_all io zone kind at_ header lines r).1.
Proof.
  induction lines as [|line lines IH]; intros r Hs; cbn [write_all]; [apply kept_refl|]. pose proof (kept_write kind at_ header line r Hs) as K.
  destruct (write io zone kind at_ header line r) as [r1 [e|]]; cbn [fst] in *; [done|]. eapply kept_trans; [exact K|]. apply IH. by eapply safe_kept.
Qed.

Lemma kept_write_changes now l : forall r, safe r -> kept r (write_changes io zone now l r).1.
Proof.
  induction l as [|c l IH]; intros r Hs; cbn [write_changes]; [apply kept_refl|]. case_goal; [by apply IH|].
  set (r1 := r <| rc_lastEventAt := _ |>). assert (kept r r1) as K1 by (by apply kept_same). pose proof (safe_kept _ _ K1 Hs) as Hs1.
  pose proof (kept_write "events" now (header_of events_columns) (event_line now c) r1 Hs1) as K. destruct (write io zone _ _ _ _ r1) as [r2 [e|]]; cbn [fst] in *; [by eapply kept_trans|].
  pose proof (kept_trans _ _ _ K1 K) as K2. eapply kept_trans; [exact K2|]. apply IH. by eapply safe_kept.
Qed.

Lemma kept_closeFiles r : kept r (closeFiles io r).
Proof.
  unfold closeFiles. refine (proj1 (kept_fold _ (fun _ => True) _ _ r I)). intros r0 [kind f] _. split; [|done].
  eapply kept_trans; [apply kept_closeDaily|]. by apply kept_same.
Qed.

Lemma kept_flush_fold l : forall r b, kept r (fold_left (fun '(r, good) '(kind, f) =>
  let '(r, f, ok) := Flush io r f in (r <| rc_files := <[kind := f]> (rc_files r) |>, good && ok)) l (r, b)).1.
Proof.
  induction l as [|[kind f] l IH]; intros r b; cbn [fold_left]; [apply kept_refl|]. pose proof (kept_Flush r f) as K. destruct (Flush io r f) as [[r1 f1] ok]. cbn [fst] in K.
  eapply kept_trans; [exact K|]. eapply kept_trans; [|apply IH]. by apply kept_same.
Qed.

Lemma kept_flushAndReport r : kept r (flushAndReport io r).
Proof.
  unfold flushAndReport, flush. pose proof (kept_flush_fold (map_to_list (rc_files r)) r true) as K. destruct (fold_left _ _ _) as [r1 ok]. cbn [fst] in K.
  case_goal; [done|]. eapply kept_trans; [exact K|apply kept_closeFiles].
Qed.

Lemma kept_report r x : kept r x.1 -> kept r (report io x).
Proof. destruct x as [r1 [e|]]; cbn; [|done]. intros K. eapply kept_trans; [exact K|apply kept_closeFiles]. Qed.

Lemma kept_flush_tick server now r : safe r -> kept r (flush_tick io zone server now r).
Proof.
  intros Hs. unfold flush_tick. set (x := recordServer io zone server now r).
  assert (kept r x.1) as K by (subst x; unfold recordServer; destruct server; [by apply kept_write_all|apply kept_refl]). clearbody x.
  pose proof (kept_trans _ _ _ (kept_report _ _ K) (kept_flushAndReport (report io x))) as K2. revert K2. generalize (flushAndReport io (report io x)). intros r2 K2.
  eapply kept_trans; [exact K2|]. by apply kept_same.
Qed.

(** ** The run *)

Lemma kept_process st r : safe (noteHorizon r st) -> kept (noteHorizon r st) (process io zone number st r).1 \/ (process io zone number st r).1 = r.
Proof.
  intros Hs. unfold process. case_goal; [by right|]. left. set (r0 := noteHorizon r st) in *. clearbody r0.
  assert (kept r0 (writeEvents io zone st r0).1) as K.
  { unfold writeEvents. destruct (rc_lastEvents r0) as [old|]; [|by apply kept_same]. set (r1 := r0 <| rc_lastEvents := _ |>). assert (kept r0 r1) as K1 by (by apply kept_same). eapply kept_trans; [exact K1|]. apply kept_write_changes. by eapply safe_kept. }
  destruct (writeEvents io zone st r0) as [r1 [e|]]; cbn [fst] in *; [done|]. pose proof (safe_kept _ _ K Hs) as Hs1. case_goal; [|done].
  pose proof (kept_write "loop" (es_Now st) (header_of loop_columns) (loop_line number st) r1 Hs1) as K2. unfold writeLoop.
  destruct (write io zone "loop" _ _ _ r1) as [r2 [e|]]; cbn [fst] in *; [by eapply kept_trans|]. pose proof (kept_trans _ _ _ K K2) as K3. pose proof (safe_kept _ _ K3 Hs) as Hs2.
  pose proof (kept_write_all "sources" (es_Now st) (header_of sources_columns) (source_line number (es_Now st) <$> st_Sources (es_sys st)) r2 Hs2) as K4. unfold writeSources.
  destruct (write_all io zone "sources" _ _ _ r2) as [r3 [e|]]; cbn [fst] in *; [by eapply kept_trans|]. eapply kept_trans; [exact K3|]. eapply kept_trans; [exact K4|]. by apply kept_same.
Qed.

(** A snapshot whose time, taken as the retention clock, leaves the day alone. *)
Definition harmless (keep : Z) (st : EngineStatus) : Prop := st_State (es_sys st) = StateSynced -> keep <= 0 \/ expired zone keep (es_Now st) y m d = false.

Record watched (keep : Z) (r : Recorder) : Prop := {
  wt_days : rc_keepDays r = keep;
  wt_safe : safe r;
  wt_ch : Forall (harmless keep) (rc_ch r)
}.

Lemma watched_kept keep r r' : kept r r' -> watched keep r -> watched keep r'.
Proof. intros K [H1 H2 H3]. constructor; [by rewrite (kp_days _ _ K)|by eapply safe_kept|by rewrite (kp_ch _ _ K)]. Qed.

Definition grows (r r' : Recorder) : Prop := forall c, dk_files (rc_disk r) !! q = Some c -> exists c', dk_files (rc_disk r') !! q = Some (c ++ c').

Lemma grows_refl r : grows r r.
Proof. intros c Hc. exists []. by rewrite app_nil_r. Qed.

Lemma grows_trans r1 r2 r3 : grows r1 r2 -> grows r2 r3 -> grows r1 r3.
Proof. intros A B c Hc. destruct (A c Hc) as [c1 H1]. destruct (B _ H1) as [c2 H2]. exists (c1 ++ c2). by rewrite (assoc_L (++)). Qed.

Lemma noteHorizon_safe keep r st : rc_keepDays r = keep -> harmless keep st -> safe r -> safe (noteHorizon r st).
Proof.
  intros Hk Hh Hs. unfold noteHorizon. destruct (_ || _) eqn:E; [done|]. apply orb_false_iff in E as [E _]. apply negb_false_iff, bool_decide_eq_true in E.
  specialize (Hh E). rewrite <- Hk in Hh. assert (safe (r <| rc_horizon := Some (es_Now st) |>)) as H.
  { destruct Hh as [Hh|Hh]; [by left|right]. intros h [= <-]. exact Hh. }
  destruct (rc_horizon r); [case_goal|]; done.
Qed.

Lemma take_status_watched keep r : watched keep r -> grows r (take_status io zone number r) /\ watched keep (take_status io zone number r).
Proof.
  intros [H1 H2 H3]. unfold take_status. destruct (rc_ch r) as [|st l] eqn:Ec; [by split; [apply grows_refl|constructor; rewrite ?Ec]|].
  apply List.Forall_cons_iff in H3 as [Hst Hl]. set (r0 := r <| rc_ch := l |>). pose proof (noteHorizon_safe keep r0 st H1 Hst H2) as Hs.
  assert (rc_ch (noteHorizon r0 st) = l /\ rc_keepDays (noteHorizon r0 st) = keep /\ rc_disk (noteHorizon r0 st) = rc_disk r) as (C1 & C2 & C3).
  { unfold noteHorizon. repeat case_goal; try (by split). all: destruct (rc_horizon r0); repeat case_goal; by split. }
  assert (forall r', kept (noteHorizon r0 st) r' -> grows r r' /\ watched keep r') as Hgo.
  { intros r' K. split; [intros c Hc; apply (kp_file _ _ K); by rewrite C3|]. eapply watched_kept; [exact K|]. constructor; [done|done|by rewrite C1]. }
  destruct (kept_process st r0 Hs) as [K|E]; [by apply Hgo, kept_report|].
  unfold report. destruct (process io zone number st r0) as [r1 [e|]]; cbn [fst] in E; subst r1; [pose proof (kept_closeFiles r0) as K|pose proof (kept_refl r0) as K].
  all: split; [intros c Hc; by apply (kp_file _ _ K)|]; eapply watched_kept; [exact K|]; by constructor.
Qed.

Lemma take_pulse_watched keep r : watched keep r -> grows r (take_pulse io zone number r) /\ watched keep (take_pulse io zone number r).
Proof.
  intros Hw. unfold take_pulse. destruct (rc_pulses r) as [|p l]; [by split; [apply grows_refl|]|]. set (r0 := r <| rc_pulses := l |>).
  assert (kept r r0) as K0 by (by apply kept_same). pose proof (watched_kept _ _ _ K0 Hw) as Hw0.
  pose proof (kept_report _ _ (kept_write "pps" (pu_At (pl_Pulse p)) (header_of pps_columns) (pulse_line number p) r0 (wt_safe _ _ Hw0))) as K.
  unfold recordPulse. pose proof (kept_trans _ _ _ K0 K) as K1. split; [exact (kp_file _ _ K1)|by eapply watched_kept].
Qed.

Lemma drain_watched keep choose fuel : forall r, watched keep r -> grows r (drain io zone number choose fuel r) /\ watched keep (drain io zone number choose fuel r).
Proof.
  induction fuel as [|fuel IH]; intros r Hw; cbn [drain]; [by split; [apply grows_refl|]|].
  case_goal; [destruct (take_status_watched keep r Hw) as [G W]|destruct (take_pulse_watched keep r Hw) as [G W]]; destruct (IH _ W) as [G2 W2]; (split; [by eapply grows_trans|done]).
Qed.

Lemma step_watched keep r e : watched keep r -> (forall st, e = SeRecord st -> harmless keep st) -> grows r (stats_step io zone number r e) /\ watched keep (stats_step io zone number r e).
Proof.
  intros Hw He. destruct e as [st|p| | |server now]; cbn [stats_step].
  - unfold Record_. specialize (He st eq_refl). destruct Hw as [H1 H2 H3]. case_goal; (split; [intros c Hc; exists []; by rewrite app_nil_r|]); constructor; try done. cbn. apply Forall_app. split; [done|]. by constructor.
  - unfold Recorder_Pulse. assert (forall r', kept r r' -> grows r r' /\ watched keep r') as Hk by (intros r' K; split; [exact (kp_file _ _ K)|by eapply watched_kept]).
    repeat case_goal; apply Hk; by apply kept_same.
  - by apply take_status_watched.
  - by apply take_pulse_watched.
  - pose proof (kept_flush_tick server now r (wt_safe _ _ Hw)) as K. split; [exact (kp_file _ _ K)|by eapply watched_kept].
Qed.

Lemma run_watched keep events choose server now : forall r, watched keep r -> (forall st, SeRecord st ∈ events -> harmless keep st) ->
  grows r (Recorder_Run io zone number events choose server now r).
Proof.
  unfold Recorder_Run. induction events as [|e events IH]; intros r Hw He; cbn [fold_left].
  - unfold stop. destruct (drain_watched keep choose (length (rc_ch r) + length (rc_pulses r)) r Hw) as [G W]. set (r1 := drain _ _ _ _ _ _) in *. clearbody r1.
    pose proof (kept_flush_tick server now r1 (wt_safe _ _ W)) as K. eapply grows_trans; [exact G|]. intros c Hc. by apply (kp_file _ _ (kept_trans _ _ _ K (kept_closeFiles _))).
  - destruct (step_watched keep r e Hw) as [G W]; [intros st ->; apply He; by left|]. eapply grows_trans; [exact G|]. apply IH; [done|]. intros st Hst. apply He. by right.
Qed.
End Kept.

(** ** Claim *)

Lemma unexpired zone keep at_ y m d day : (forall t, -86400 < zone t < 86400) -> parse_date y m d = Some day -> unixDay at_ - keep < day -> expired zone keep at_ y m d = false.
Proof.
  intros Hz Hp Hd. unfold expired. rewrite Hp. apply Z.ltb_ge. unfold cutoff. pose proof (days_of_civil ((Unix at_ + zone at_) / 86400)) as Hc.
  destruct (civil _) as [[cy cm] cd]. rewrite Hc. unfold unixDay in Hd. specialize (Hz at_). Z.to_euclidean_division_equations. lia.
Qed.

(** Claim C16: retention never reaches a day it should keep.  Whatever snapshots
    and pulses arrive in whatever order, whichever calls of the file system fail
    and whatever the host's time zone: a file of a day less than keep_days days
    before every time at which a snapshot said synchronized is still there when
    the recorder has stopped, with all its bytes, and nothing was written to it
    but behind them.  In particular an unsynchronized clock, however wrong, and a
    misdated row remove nothing. *)
Theorem stats_retention io zone number events choose server now keepDays disk y m d name c day :
  (forall t, -86400 < zone t < 86400) -> dk_files disk !! [y; m; d; name] = Some c -> parse_date y m d = Some day ->
  (forall st, SeRecord st ∈ events -> st_State (es_sys st) = StateSynced -> unixDay (es_Now st) - keepDays < day) ->
  exists c', dk_files (rc_disk (Recorder_Run io zone number events choose server now (newRecorder keepDays disk))) !! [y; m; d; name] = Some (c ++ c').
Proof.
  intros Hz Hc Hp He. apply (run_watched io zone number y m d [name] keepDays); [|intros st Hst Hs; right; by eapply unexpired; [| |apply He]|exact Hc].
  constructor; [done|by right|constructor].
Qed.

(** ** Examples *)

Definition all_ok (n : nat) : nat * bool := (0%nat, true).
Definition utc (t : time) : Z := 0.
Definition no_digits (x : f64) : str := [48].

Definition example_sys (state : State) (source : string) (updates : Z) : SysStatus :=
  mkSysStatus state 2 [192; 0; 2; 1] 0 fzero fzero fzero fzero true fzero fzero source false false fzero updates 0
    [mkSourceStatus "a" StatusSystem false false 255 6 fzero fzero fzero fzero fzero 1 [192; 0; 2; 1] 0 fzero "" fzero].

Definition example_snapshot (now : time) (state : State) (source : string) (updates : Z) : EngineStatus :=
  mkEngineStatus (example_sys state source updates) fzero now now 0 (-20) "" zeroTime state true false "" false None None zeroTime false zeroTime [].

Definition jan (d h : Z) : time := unixTime (1767225600 + 86400 * (d - 1) + 3600 * h) 0.
Definition jan_path (d : Z) (name : string) : path := [padded 4 2026; padded 2 1; padded 2 d; str_of name].
Definition archive : Disk :=
  mkDisk [[padded 4 2026]; [padded 4 2026; padded 2 1]; [padded 4 2026; padded 2 1; padded 2 1]] {[ jan_path 1 "loop.tsv" := str_of "x" ]}.

Definition run_with (zone : time -> Z) (keep : Z) (events : list stats_event) : Recorder :=
  Recorder_Run all_ok zone no_digits events (fun _ => true) None (jan 1 0) (newRecorder keep archive).

(** On 2 January at noon in UTC, keep_days = 1 keeps the file of 1 January on a
    host that runs in UTC, and removes it on one 13 hours ahead. *)
Example yesterday_removed_ahead_of_utc :
  let events := [SeRecord (example_snapshot (jan 2 12) StateSynced "a" 1); SeTakeStatus] in
  dk_files (rc_disk (run_with utc 1 events)) !! jan_path 1 "loop.tsv" = Some (str_of "x") /\
  dk_files (rc_disk (run_with (fun _ => 46800) 1 events)) !! jan_path 1 "loop.tsv" = None.
Proof. vm_compute. done. Qed.

Definition example_pulse (at_ : time) : AcceptedPulse := mkAcceptedPulse "pps" (mkPulse at_ fzero 7).

(** A pulse dated before the days kept: its directory is made, pruned away and
    then missing when the file is opened, so its row is not written; without
    retention it is. *)
Example old_row_withheld :
  let events := [SeRecord (example_snapshot (jan 20 0) StateSynced "a" 1); SeTakeStatus; SePulse (example_pulse (jan 5 0)); SeTakePulse] in
  dk_files (rc_disk (run_with utc 3 events)) !! jan_path 5 "pps.tsv" = None /\
  dk_files (rc_disk (run_with utc 0 events)) !! jan_path 5 "pps.tsv" = Some (header_of pps_columns ++ pulse_line no_digits (example_pulse (jan 5 0))).
Proof. vm_compute. done. Qed.

(** After the clock is stepped an hour back, the changes of a subject that was
    recorded before the step are left out until the old time is reached again. *)
Example events_withheld_after_step_back :
  let events := [SeRecord (example_snapshot (jan 2 12) StateUnsynced "" 0); SeTakeStatus;
                 SeRecord (example_snapshot (jan 2 13) StateSettling "" 0); SeTakeStatus;
                 SeRecord (example_snapshot (jan 2 12 + 60 * Second) StateSynced "" 0); SeTakeStatus;
                 SeRecord (example_snapshot (jan 2 12 + 600 * Second) StateHoldover "" 0); SeTakeStatus] in
  dk_files (rc_disk (run_with utc 0 events)) !! jan_path 2 "events.tsv" =
  Some (header_of events_columns ++ event_line (jan 2 13) (mkChange "state" "" "unsynced" "settling")).
Proof. vm_compute. done. Qed.

Lemma stats_retention_witness :
  exists c', dk_files (rc_disk (Recorder_Run all_ok (fun _ => 46800) no_digits [SeRecord (example_snapshot (jan 2 12) StateSynced "a" 1); SeTakeStatus] (fun _ => true) None
    (jan 1 0) (newRecorder 2 archive))) !! jan_path 1 "loop.tsv" = Some (str_of "x" ++ c').
Proof.
  apply (stats_retention all_ok (fun _ => 46800) no_digits [SeRecord (example_snapshot (jan 2 12) StateSynced "a" 1); SeTakeStatus] (fun _ => true) None (jan 1 0) 2 archive
    (padded 4 2026) (padded 2 1) (padded 2 1) (str_of "loop.tsv") (str_of "x") 20454).
  - intros t. lia.
  - reflexivity.
  - reflexivity.
  - intros st Hst _. apply elem_of_cons in Hst as [E|Hst]; [|apply list_elem_of_singleton in Hst; discriminate Hst].
    assert (st = example_snapshot (jan 2 12) StateSynced "a" 1) as -> by congruence. reflexivity.
Defined.
