(* ===== verification/StatsJournal.v ===== *)
(** * The statistics files as an append-only journal

    The abstract recorder writes rows to one list and has no files.  Where no
    call fails and nothing is pruned, the recorder of [Stats], with its daily
    files, buffers, rotation and flushes, refines it: each file is the header
    and the journal's rows of that kind and day, in order. *)

From stdpp Require Import base list strings numbers gmap.
From Stdlib Require Import Lia ZArith.
From S2P Require Import Prelude Float64 GoTime GoStrings NetipParse NtpTime Measurement Select Loop System ServerStats GoDate GoText Refclock Pps EngineLeap Engine StatusText Stats.

Local Open Scope Z_scope.

(** ** The journal *)

Record Row : Type := mkRow { rw_kind : string; rw_at : time; rw_line : str }.

Record Journal : Type := mkJournal {
  jn_ch : list EngineStatus; jn_pulses : list AcceptedPulse; jn_lastUpdates : Z; jn_lastEvents : option eventState; jn_lastEventAt : gmap (string * string) time;
  jn_rows : list Row
}.

#[export] Instance Journal_eta : Eta Journal := fun j => mkJournal (jn_ch j) (jn_pulses j) (jn_lastUpdates j) (jn_lastEvents j) (jn_lastEventAt j) (jn_rows j).

Definition newJournal : Journal := mkJournal [] [] 0 None ∅ [].

Definition columns_of (kind : string) : list string :=
  if bool_decide (kind = "pps"%string) then pps_columns
  else if bool_decide (kind = "events"%string) then events_columns
  else if bool_decide (kind = "loop"%string) then loop_columns
  else if bool_decide (kind = "sources"%string) then sources_columns
  else if bool_decide (kind = "server"%string) then server_columns
  else [].

Definition add_row (kind : string) (at_ : time) (line : str) (j : Journal) : Journal := j <| jn_rows := jn_rows j ++ [mkRow kind at_ line] |>.

Definition add_rows (kind : string) (at_ : time) (lines : list str) (j : Journal) : Journal := fold_left (fun j line => add_row kind at_ line j) lines j.

Section Journal.
Context (number : f64 -> str).

Fixpoint jn_changes (now : time) (l : list change) (j : Journal) : Journal :=
  match l with
  | [] => j
  | c :: l =>
      if throttled (jn_lastEventAt j) now c then jn_changes now l j
      else jn_changes now l (add_row "events" now (event_line now c) (j <| jn_lastEventAt := <[(ch_kind c, ch_subject c) := now]> (jn_lastEventAt j) |>))
  end.

Definition jn_events (st : EngineStatus) (j : Journal) : Journal :=
  let now := eventStateOf st in
  match jn_lastEvents j with
  | None => j <| jn_lastEvents := Some now |>
  | Some old => jn_changes (es_Now st) (changes_of old now) (j <| jn_lastEvents := Some now |>)
  end.

(** A snapshot adds its events, and after an update of the loop the loop's row
    and the sources'. *)
Definition jn_status (st : EngineStatus) (j : Journal) : Journal :=
  if IsZero (es_Now st) then j
  else
    let j := jn_events st j in
    if (0 <? st_Updates (es_sys st)) && negb (st_Updates (es_sys st) =? jn_lastUpdates j) then
      (add_rows "sources" (es_Now st) (source_line number (es_Now st) <$> st_Sources (es_sys st)) (add_row "loop" (es_Now st) (loop_line number st) j))
        <| jn_lastUpdates := st_Updates (es_sys st) |>
    else j.

Definition jn_server (server : option StatsSnapshot) (now : time) (j : Journal) : Journal :=
  match server with None => j | Some s => add_rows "server" now [server_line now "ipv4" (IPv4 s); server_line now "ipv6" (IPv6 s)] j end.

Definition jn_take_status (j : Journal) : Journal := match jn_ch j with [] => j | st :: l => jn_status st (j <| jn_ch := l |>) end.

Definition jn_take_pulse (j : Journal) : Journal :=
  match jn_pulses j with [] => j | p :: l => add_row "pps" (pu_At (pl_Pulse p)) (pulse_line number p) (j <| jn_pulses := l |>) end.

Definition jn_step (j : Journal) (e : stats_event) : Journal :=
  match e with
  | SeRecord st => if (length (jn_ch j) <? queueSize)%nat then j <| jn_ch := jn_ch j ++ [st] |> else j
  | SePulse p => if negb (IsZero (pu_At (pl_Pulse p))) && (length (jn_pulses j) <? pulseQueueSize)%nat then j <| jn_pulses := jn_pulses j ++ [p] |> else j
  | SeTakeStatus => jn_take_status j
  | SeTakePulse => jn_take_pulse j
  | SeFlush server now => jn_server server now j
  end.

Fixpoint jn_drain (choose : nat -> bool) (fuel : nat) (j : Journal) : Journal :=
  match fuel with
  | O => j
  | S fuel =>
      if (length (jn_pulses j) =? 0)%nat || (negb (length (jn_ch j) =? 0)%nat && choose fuel) then jn_drain choose fuel (jn_take_status j)
      else jn_drain choose fuel (jn_take_pulse j)
  end.

Definition jn_run (events : list stats_event) (choose : nat -> bool) (server : option StatsSnapshot) (now : time) : Journal :=
  let j := fold_left jn_step events newJournal in
  jn_server server now (jn_drain choose (length (jn_ch j) + length (jn_pulses j)) j).

End Journal.

(** ** The files of a journal *)

Definition path_of (kind : string) (at_ : time) : path := [padded 4 (Year at_); padded 2 (Month at_); padded 2 (Day at_); str_of kind ++ str_of ".tsv"].

Definition row_path (w : Row) : path := path_of (rw_kind w) (rw_at w).

(** The rows of a file, in order. *)
Definition rows_at (rows : list Row) (p : path) : list Row := List.filter (fun w => bool_decide (row_path w = p)) rows.

(** A file that has been opened: what it held, the header if that was nothing,
    and its rows. *)
Definition opened (disk : Disk) (rows : list Row) (kind : string) (p : path) : str :=
  let old := default [] (dk_files disk !! p) in
  old ++ (if (length old =? 0)%nat then header_of (columns_of kind) else []) ++ mjoin (rw_line <$> rows_at rows p).

Definition journal_file (disk : Disk) (rows : list Row) (p : path) : option str :=
  match rows_at rows p with [] => dk_files disk !! p | w :: _ => Some (opened disk rows (rw_kind w) p) end.

(** ** Names *)

Lemma app_inj_tail (a b c : str) : a ++ c = b ++ c -> a = b.
Proof. apply (inj (fun x => x ++ c)). Qed.

Lemma path_of_kind kind kind' at_ at' : path_of kind at_ = path_of kind' at' -> kind = kind'.
Proof. unfold path_of. intros E. assert (str_of kind ++ str_of ".tsv" = str_of kind' ++ str_of ".tsv") as E1 by congruence. by apply app_inj_tail, str_of_inj in E1. Qed.

Lemma path_of_day kind at_ at' : DateOnly at_ = DateOnly at' -> path_of kind at_ = path_of kind at'.
Proof. intros E. apply DateOnly_inj in E as (E1 & E2 & E3). unfold path_of. congruence. Qed.

Lemma rows_at_app rows w p : rows_at (rows ++ [w]) p = rows_at rows p ++ (if bool_decide (row_path w = p) then [w] else []).
Proof. unfold rows_at. rewrite List.filter_app. cbn. by destruct (bool_decide _). Qed.

Lemma rows_at_kind rows kind at_ w : w ∈ rows_at rows (path_of kind at_) -> rw_kind w = kind.
Proof. unfold rows_at. rewrite list_elem_of_In, List.filter_In. intros [_ H]. apply bool_decide_eq_true in H. exact (path_of_kind _ _ _ _ H). Qed.

(** ** The refinement *)

Section Refines.
Context (io : nat -> nat * bool) (zone : time -> Z) (number : f64 -> str) (disk0 : Disk).
Hypothesis io_ok : forall n, (io n).2 = true.

(** An open file: what is on the disk and in its buffer is what the journal
    says. *)
Record open_ok (rows : list Row) (files : gmap path str) (kind : string) (f : dailyFile) : Prop := {
  oo_fine : df_failed f = false;
  oo_day : exists at_, df_day f = DateOnly at_ /\ df_path f = path_of kind at_;
  oo_bytes : exists c, files !! df_path f = Some c /\ c ++ df_buf f = opened disk0 rows kind (df_path f)
}.

(** The recorder's files are the journal's; [fresh] is a kind whose file has
    just been opened and has no row yet. *)
Record files_ok (fresh : option string) (rows : list Row) (r : Recorder) : Prop := {
  fo_days : rc_keepDays r <= 0;
  fo_open : forall kind f, rc_files r !! kind = Some f -> open_ok rows (dk_files (rc_disk r)) kind f;
  fo_row : forall kind f, rc_files r !! kind = Some f -> fresh <> Some kind -> rows_at rows (df_path f) <> [];
  fo_closed : forall p, (forall kind f, rc_files r !! kind = Some f -> df_path f <> p) -> dk_files (rc_disk r) !! p = journal_file disk0 rows p
}.

(** The rest of the recorder's state. *)
Record fields_same (r r' : Recorder) : Prop := {
  fs_ch : rc_ch r' = rc_ch r; fs_pulses : rc_pulses r' = rc_pulses r; fs_updates : rc_lastUpdates r' = rc_lastUpdates r;
  fs_events : rc_lastEvents r' = rc_lastEvents r; fs_at : rc_lastEventAt r' = rc_lastEventAt r
}.

Lemma fields_refl r : fields_same r r.
Proof. done. Qed.

Lemma fields_trans r1 r2 r3 : fields_same r1 r2 -> fields_same r2 r3 -> fields_same r1 r3.
Proof. intros [A1 A2 A3 A4 A5] [B1 B2 B3 B4 B5]. constructor; congruence. Qed.

Lemma fields_calls r r' n : fields_same r r' -> fields_same r (r' <| rc_calls := n |>).
Proof. intros [A1 A2 A3 A4 A5]. by constructor. Qed.

Lemma fields_files r r' x : fields_same r r' -> fields_same r (r' <| rc_files := x |>).
Proof. intros [A1 A2 A3 A4 A5]. by constructor. Qed.

Lemma fields_disk r r' x : fields_same r r' -> fields_same r (on_disk r' x).
Proof. intros [A1 A2 A3 A4 A5]. by constructor. Qed.

Lemma open_kind rows files kind f kind' f' : open_ok rows files kind f -> open_ok rows files kind' f' -> df_path f = df_path f' -> kind = kind'.
Proof. intros [_ (a & _ & E1) _] [_ (a' & _ & E2) _] E. rewrite E1, E2 in E. by apply path_of_kind in E. Qed.

Lemma opened_other rows f files f' kind' s : open_ok rows files kind' f' -> df_path f <> df_path f' -> open_ok rows (alter (fun c => c ++ s) (df_path f) files) kind' f'.
Proof. intros [O1 O2 (c & Hc & E)] Hne. constructor; [done|done|]. exists c. split; [|done]. by rewrite lookup_alter_ne. Qed.

(** The bytes of one open file move from its buffer to the disk, with more
    rows behind. *)
Lemma files_move fresh rows r kind f moved buf : files_ok fresh rows r -> rc_files r !! kind = Some f -> moved ++ buf = df_buf f ->
  files_ok fresh rows ((on_disk r (append_file (df_path f) moved)) <| rc_files := <[kind := f <| df_buf := buf |>]> (rc_files r) |>).
Proof.
  intros [F1 F2 F3 F4] Hf Hb. pose proof (F2 _ _ Hf) as Ho. constructor; cbn [rc_keepDays rc_files rc_disk dk_files on_disk append_file set Recorder_eta]; [done|..].
  - intros kind' f'. destruct (decide (kind = kind')) as [<-|Hne].
    + rewrite lookup_insert_eq. intros [= <-]. destruct Ho as [O1 O2 (c & Hc & E)]. constructor; [done|done|]. exists (c ++ moved). cbn [df_path df_buf set dailyFile_eta].
      split; [by rewrite lookup_alter_eq, Hc|]. by rewrite <- (assoc_L (++)), Hb.
    + rewrite lookup_insert_ne by done. intros Hf'. apply opened_other; [by apply F2|]. intros E. apply Hne. by eapply open_kind; [| |exact E]; eauto.
  - intros kind' f'. destruct (decide (kind = kind')) as [<-|Hne]; [rewrite lookup_insert_eq; intros [= <-]; by apply (F3 kind f)|]. rewrite lookup_insert_ne by done. apply F3.
  - intros p Hp. pose proof (Hp kind (f <| df_buf := buf |>) (lookup_insert_eq _ _ _)) as Hne. change (df_path f <> p) in Hne. rewrite lookup_alter_ne by done. apply F4.
    intros kind' f' Hf'. destruct (decide (kind = kind')) as [<-|Hk]; [congruence|]. apply (Hp kind'). by rewrite lookup_insert_ne.
Qed.

Lemma opened_row rows kind kind' at_ line p : path_of kind at_ <> p -> opened disk0 (rows ++ [mkRow kind at_ line]) kind' p = opened disk0 rows kind' p.
Proof. intros Hne. unfold opened. rewrite rows_at_app. unfold row_path. cbn [rw_kind rw_at]. rewrite bool_decide_eq_false_2 by done. by rewrite app_nil_r. Qed.

Lemma opened_row_here rows kind at_ line : opened disk0 (rows ++ [mkRow kind at_ line]) kind (path_of kind at_) = opened disk0 rows kind (path_of kind at_) ++ line.
Proof.
  unfold opened. cbv zeta. rewrite rows_at_app. unfold row_path. cbn [rw_kind rw_at]. rewrite bool_decide_eq_true_2 by done. rewrite fmap_app, join_app. cbn.
  by rewrite app_nil_r, <- !(assoc_L (++)).
Qed.

(** One row is written to the open file of its kind and day. *)
Lemma files_row rows r kind at_ f line moved buf : files_ok (Some kind) rows r -> rc_files r !! kind = Some f -> df_path f = path_of kind at_ -> moved ++ buf = df_buf f ++ line ->
  files_ok None (rows ++ [mkRow kind at_ line]) ((on_disk r (append_file (df_path f) moved)) <| rc_files := <[kind := f <| df_buf := buf |>]> (rc_files r) |>).
Proof.
  intros [F1 F2 F3 F4] Hf Hp Hb. pose proof (F2 _ _ Hf) as Ho. constructor; cbn [rc_keepDays rc_files rc_disk dk_files on_disk append_file set Recorder_eta]; [done|..].
  - intros kind' f'. destruct (decide (kind = kind')) as [<-|Hne].
    + rewrite lookup_insert_eq. intros [= <-]. destruct Ho as [O1 O2 (c & Hc & E)]. constructor; [done|done|]. exists (c ++ moved). cbn [df_path df_buf set dailyFile_eta].
      split; [by rewrite lookup_alter_eq, Hc|]. rewrite <- (assoc_L (++)), Hb. rewrite Hp in *. rewrite opened_row_here. by rewrite <- E, (assoc_L (++)).
    + rewrite lookup_insert_ne by done. intros Hf'. assert (df_path f <> df_path f') as Hn by (intros E; apply Hne; by eapply open_kind; [| |exact E]; eauto).
      pose proof (opened_other rows f _ f' kind' moved (F2 _ _ Hf') Hn) as [O1 O2 (c & Hc & E)]. constructor; [done|done|]. exists c. split; [done|]. rewrite opened_row; [done|]. by rewrite <- Hp.
  - intros kind' f' Hf' _. rewrite rows_at_app. intros E. apply app_nil in E as [E1 E2]. destruct (decide (kind = kind')) as [<-|Hne].
    + rewrite lookup_insert_eq in Hf'. revert Hf'. intros [= <-]. cbn [df_path set dailyFile_eta] in E2. unfold row_path in E2. cbn [rw_kind rw_at] in E2. by rewrite bool_decide_eq_true_2 in E2.
    + rewrite lookup_insert_ne in Hf' by done. apply (F3 kind' f' Hf'); [congruence|done].
  - intros p Hpp. pose proof (Hpp kind (f <| df_buf := buf |>) (lookup_insert_eq _ _ _)) as Hne. change (df_path f <> p) in Hne. rewrite lookup_alter_ne by done.
    rewrite F4. + unfold journal_file. rewrite rows_at_app. unfold row_path at 2. cbn [rw_kind rw_at]. rewrite (bool_decide_eq_false_2 (path_of kind at_ = p)) by (by rewrite <- Hp). rewrite app_nil_r.
      destruct (rows_at rows p); [done|]. rewrite opened_row; [done|]. by rewrite <- Hp.
    + intros kind' f' Hf'. destruct (decide (kind = kind')) as [<-|Hk]; [congruence|]. apply (Hpp kind'). by rewrite lookup_insert_ne.
Qed.

(** ** Operations *)

Lemma call_ok r : exists n, call io r = (r <| rc_calls := S (rc_calls r) |>, (n, true)).
Proof. unfold call. specialize (io_ok (rc_calls r)). destruct (io (rc_calls r)) as [n b]. cbn in io_ok. subst b. by exists n. Qed.

Lemma files_calls fresh rows r n : files_ok fresh rows r <-> files_ok fresh rows (r <| rc_calls := n |>).
Proof. split; intros [F1 F2 F3 F4]; by constructor. Qed.

Lemma WriteString_ok rows r kind at_ f line : files_ok (Some kind) rows r -> rc_files r !! kind = Some f -> df_path f = path_of kind at_ ->
  exists r' f', WriteString io r f line = (r', f', true) /\ fields_same r r' /\ files_ok None (rows ++ [mkRow kind at_ line]) (r' <| rc_files := <[kind := f']> (rc_files r') |>).
Proof.
  intros Hs Hf Hp. unfold WriteString. rewrite (oo_fine _ _ _ _ (fo_open _ _ _ Hs _ _ Hf)). destruct (call_ok r) as [n ->]. eexists _, _. split; [done|]. split; [done|].
  set (f' := _ <| df_failed := _ |>). assert (f' = f <| df_buf := drop n (df_buf f ++ line) |>) as ->.
  { subst f'. destruct f as [fd fp fb ff]. pose proof (oo_fine _ _ _ _ (fo_open _ _ _ Hs _ _ Hf)) as E. cbn in E. subst ff. done. }
  apply (files_calls _ _ _ (S (rc_calls r))) in Hs. set (r1 := r <| rc_calls := _ |>) in *. change (rc_files r1) with (rc_files (on_disk r1 (append_file (df_path f) (take n (df_buf f ++ line))))).
  apply (files_row rows r1 kind at_ f line); [done|done|done|]. by rewrite take_drop.
Qed.

Lemma Flush_ok fresh rows r kind f : files_ok fresh rows r -> rc_files r !! kind = Some f ->
  exists r' f', Flush io r f = (r', f', true) /\ fields_same r r' /\ df_path f' = df_path f /\ df_buf f' = [] /\ rc_files r' = rc_files r /\
    files_ok fresh rows (r' <| rc_files := <[kind := f']> (rc_files r') |>).
Proof.
  intros Hs Hf. pose proof (oo_fine _ _ _ _ (fo_open _ _ _ Hs _ _ Hf)) as Ef. unfold Flush. rewrite Ef. destruct (length (df_buf f) =? 0)%nat eqn:El.
  - apply Nat.eqb_eq in El. apply length_zero_iff_nil in El. exists r, f. split; [done|]. split; [done|]. split; [done|]. split; [done|]. split; [done|].
    rewrite (insert_id (rc_files r)) by done. by destruct r.
  - destruct (call_ok r) as [n ->]. eexists _, _. split; [done|]. split; [done|]. split; [done|]. split; [done|]. split; [done|].
    apply (files_calls _ _ _ (S (rc_calls r))) in Hs. set (r1 := r <| rc_calls := _ |>) in *. apply (files_move fresh rows r1 kind f (df_buf f) []); [done|done|]. apply app_nil_r.
Qed.

(** A file that has rows is closed. *)
Lemma closeDaily_ok fresh rows r kind f : files_ok fresh rows r -> rc_files r !! kind = Some f -> fresh <> Some kind ->
  exists r', closeDaily io r f = (r', None) /\ fields_same r r' /\ rc_files r' = rc_files r /\ files_ok fresh rows (r' <| rc_files := delete kind (rc_files r') |>).
Proof.
  intros Hs Hf Hn. pose proof (fo_row _ _ _ Hs _ _ Hf Hn) as Hrow. unfold closeDaily. destruct (Flush_ok fresh rows r kind f Hs Hf) as (r1 & f1 & -> & Hfs & Hpath & Hbuf & Hfiles & [F1 F2 F3 F4]).
  destruct (call_ok r1) as [n ->]. eexists. split; [reflexivity|]. split; [by apply fields_calls|]. split; [exact Hfiles|]. cbn [rc_files rc_disk dk_files set Recorder_eta rc_keepDays] in *.
  assert (forall k g, delete kind (rc_files r1) !! k = Some g -> kind <> k /\ <[kind := f1]> (rc_files r1) !! k = Some g) as Hd.
  { intros k g. rewrite lookup_delete_Some. intros [H1 H2]. split; [done|]. by rewrite lookup_insert_ne. }
  constructor; cbn [rc_files rc_disk dk_files set Recorder_eta rc_keepDays]; [done| | |].
  - intros k g Hg. by apply F2, Hd.
  - intros k g Hg. by apply F3, Hd.
  - intros p Hp. destruct (decide (df_path f1 = p)) as [<-|Hne].
    + assert (<[kind := f1]> (rc_files r1) !! kind = Some f1) as E by (by rewrite lookup_insert_eq). destruct (F2 _ _ E) as [_ (at_ & _ & Ep) (c & Hc & Eb)].
      rewrite Hbuf, app_nil_r in Eb. rewrite Hc, Eb. unfold journal_file. rewrite Hpath in *. destruct (rows_at rows (df_path f)) as [|w l] eqn:Er; [done|].
      f_equal. f_equal. symmetry. apply (rows_at_kind rows kind at_). rewrite <- Ep, Er. by left.
    + apply F4. intros k g. destruct (decide (kind = k)) as [<-|Hk]; [rewrite lookup_insert_eq; by intros [= <-]|]. rewrite lookup_insert_ne by done. intros Hg. apply (Hp k). rewrite lookup_delete_ne by done. exact Hg.
Qed.

Lemma header_nonempty kind : header_of (columns_of kind) <> [].
Proof. unfold header_of, row_of. intros E. apply app_nil in E as [_ E]. done. Qed.

Lemma opened_nonempty rows kind p : opened disk0 rows kind p <> [].
Proof.
  unfold opened. cbv zeta. destruct (default [] (dk_files disk0 !! p)) as [|c l]; [|done]. cbn [length Nat.eqb app]. intros E. apply app_nil in E as [E _]. by apply header_nonempty in E.
Qed.

Lemma mkdirAll_here y m d disk : [y; m; d] ∈ dk_dirs (mkdirAll y m d disk) /\ dk_files (mkdirAll y m d disk) = dk_files disk.
Proof.
  assert (forall disk p, p ∈ dk_dirs (add_dir disk p) /\ dk_files (add_dir disk p) = dk_files disk) as H.
  { intros dk p. unfold add_dir. destruct (bool_decide _) eqn:E; [by apply bool_decide_eq_true in E|]. split; [|done]. cbn. apply elem_of_app. right. by left. }
  unfold mkdirAll. split; [apply H|]. by rewrite !(proj2 (H _ _)).
Qed.

Lemma pruneTrusted_off r : rc_keepDays r <= 0 -> pruneTrusted io zone r = r.
Proof. intros H. unfold pruneTrusted, prune. apply Z.leb_le in H. rewrite H. by destruct (rc_horizon r). Qed.

(** A file in the journal's state that is not open. *)
Lemma content_opened rows r kind at_ : files_ok None rows r -> rc_files r !! kind = None ->
  let p := path_of kind at_ in
  let content := default [] (dk_files (rc_disk r) !! p) in
  content ++ (if (length content =? 0)%nat then header_of (columns_of kind) else []) = opened disk0 rows kind p.
Proof.
  intros Hs Hk. cbv zeta. rewrite (fo_closed _ _ _ Hs).
  - unfold journal_file. destruct (rows_at rows (path_of kind at_)) as [|w l] eqn:Er.
    + unfold opened. rewrite Er. cbn. by rewrite app_nil_r.
    + assert (rw_kind w = kind) as -> by (apply (rows_at_kind rows kind at_); rewrite Er; by left). cbn [default from_option].
      destruct (opened disk0 rows kind (path_of kind at_)) eqn:E; [by apply opened_nonempty in E|]. cbn [length Nat.eqb]. apply app_nil_r.
  - intros k f Hf E. destruct (fo_open _ _ _ Hs _ _ Hf) as [_ (a & _ & Ep) _]. rewrite Ep in E. apply path_of_kind in E. subst k. congruence.
Qed.

Lemma open_daily_ok rows r kind at_ : files_ok None rows r -> rc_files r !! kind = None ->
  exists r' f, open_daily io zone kind at_ (header_of (columns_of kind)) r = (r', None) /\ fields_same r r' /\ rc_files r' !! kind = Some f /\ df_path f = path_of kind at_ /\
    files_ok (Some kind) rows r'.
Proof.
  intros Hs Hk. unfold open_daily. cbv zeta. destruct (call_ok r) as [n ->]. cbn [negb]. rewrite pruneTrusted_off by apply (fo_days _ _ _ Hs).
  set (p := [_; _; _; _]). change p with (path_of kind at_). clear p. set (p := path_of kind at_). set (r1 := on_disk _ _).
  destruct (mkdirAll_here (padded 4 (Year at_)) (padded 2 (Month at_)) (padded 2 (Day at_)) (rc_disk r)) as [M1 M2].
  unfold openAppend. destruct (call_ok r1) as [n1 ->]. cbn [negb orb]. set (r2 := r1 <| rc_calls := _ |>).
  rewrite (bool_decide_eq_true_2 (removelast p ∈ dk_dirs (rc_disk r2))) by exact M1. cbn [negb].
  assert (dk_files (rc_disk r2) = dk_files (rc_disk r)) as Ef by exact M2. rewrite Ef. pose proof (content_opened rows r kind at_ Hs Hk) as Hc. cbv zeta in Hc. fold p in Hc.
  set (content := default [] (dk_files (rc_disk r) !! p)) in *. set (r3 := on_disk r2 _).
  assert (dk_files (rc_disk r3) = <[p := content]> (dk_files (rc_disk r))) as E3 by (change (<[p := content]> (dk_files (rc_disk r2)) = <[p := content]> (dk_files (rc_disk r))); by rewrite Ef).
  destruct (call_ok r3) as [n3 ->]. cbn [negb]. set (r4 := r3 <| rc_calls := _ |>). set (f0 := mkDailyFile _ _ _ _).
  assert (forall r' buf moved, moved ++ buf = (if (length content =? 0)%nat then header_of (columns_of kind) else []) -> fields_same r r' -> rc_keepDays r' = rc_keepDays r ->
    rc_files r' = rc_files r -> dk_files (rc_disk r') = <[p := content ++ moved]> (dk_files (rc_disk r)) ->
    files_ok (Some kind) rows (r' <| rc_files := <[kind := mkDailyFile (DateOnly at_) p buf false]> (rc_files r') |>)) as Hfin.
  { intros r' buf moved Hm Hfs Hd Hfl Hdk. constructor; cbn [rc_files rc_disk dk_files set Recorder_eta rc_keepDays]; rewrite ?Hfl, ?Hdk.
    - rewrite Hd. apply Hs.
    - intros k g. destruct (decide (kind = k)) as [<-|Hne].
      + rewrite lookup_insert_eq. intros [= <-]. constructor; [done|by exists at_|]. exists (content ++ moved). cbn [df_path df_buf]. split; [by rewrite lookup_insert_eq|]. rewrite <- Hc, <- Hm. by rewrite (assoc_L (++)).
      + rewrite lookup_insert_ne by done. intros Hg. destruct (fo_open _ _ _ Hs _ _ Hg) as [O1 O2 (c & Hcc & Eb)]. constructor; [done|done|]. exists c. split; [|done].
        rewrite lookup_insert_ne; [done|]. intros E. apply Hne. destruct O2 as (a & _ & Ep). unfold p in E. rewrite Ep in E. by apply path_of_kind in E.
    - intros k g. destruct (decide (kind = k)) as [<-|Hne]; [done|]. rewrite lookup_insert_ne by done. intros Hg _. by apply (fo_row _ _ _ Hs k g).
    - intros p' Hp'. pose proof (Hp' kind _ (lookup_insert_eq _ _ _)) as Hn. cbn [df_path] in Hn. rewrite lookup_insert_ne by done. apply (fo_closed _ _ _ Hs). intros k g Hg.
      destruct (decide (kind = k)) as [<-|Hne]; [congruence|]. apply (Hp' k). by rewrite lookup_insert_ne. }
  destruct (length content =? 0)%nat eqn:El.
  - unfold WriteString. cbn [df_failed f0]. destruct (call_ok r4) as [n4 ->]. eexists _, _. split; [reflexivity|]. split; [done|].
    split; [apply lookup_insert_eq|]. split; [done|]. change (f0 <| df_buf := drop n4 (df_buf f0 ++ header_of (columns_of kind)) |> <| df_failed := negb true |>)
      with (mkDailyFile (DateOnly at_) p (drop n4 (header_of (columns_of kind))) false).
    apply (Hfin _ _ (take n4 (header_of (columns_of kind)))); [apply take_drop|done|done|done|]. change (alter (fun c => c ++ take n4 (header_of (columns_of kind))) p (dk_files (rc_disk r3)) = <[p := content ++ take n4 (header_of (columns_of kind))]> (dk_files (rc_disk r))).
    rewrite E3. by rewrite alter_insert_eq.
  - eexists _, _. split; [reflexivity|]. split; [done|]. split; [apply lookup_insert_eq|]. split; [done|]. apply (Hfin _ [] []); [done|done|done|done|]. by rewrite app_nil_r.
Qed.

Lemma files_weaken rows r kind : files_ok None rows r -> files_ok (Some kind) rows r.
Proof. intros [F1 F2 F3 F4]. constructor; [done|done| |done]. intros k f Hf _. by apply (F3 k f). Qed.

Lemma daily_ok rows r kind at_ : files_ok None rows r ->
  exists r' f, daily io zone kind at_ (header_of (columns_of kind)) r = (r', None) /\ fields_same r r' /\ rc_files r' !! kind = Some f /\ df_path f = path_of kind at_ /\
    files_ok (Some kind) rows r'.
Proof.
  intros Hs. unfold daily. destruct (rc_files r !! kind) as [old|] eqn:Ek; [|by apply open_daily_ok]. destruct (bool_decide (df_day old = DateOnly at_)) eqn:Ed.
  - apply bool_decide_eq_true in Ed. exists r, old. split; [done|]. split; [done|]. split; [done|]. split; [|by apply files_weaken].
    destruct (oo_day _ _ _ _ (fo_open _ _ _ Hs _ _ Ek)) as (a & E1 & E2). rewrite E2. apply path_of_day. congruence.
  - destruct (closeDaily_ok None rows r kind old Hs Ek) as (r1 & E1 & Hf1 & Hfl & Hs1); [done|]. rewrite E1. set (r2 := r1 <| rc_files := _ |>) in *.
    assert (fields_same r r2) as Hf2 by (by apply fields_files). destruct (open_daily_ok rows r2 kind at_ Hs1) as (r3 & f & H1 & H2 & H3 & H4 & H5); [apply lookup_delete_eq|].
    exists r3, f. split; [exact H1|]. split; [by eapply fields_trans|]. done.
Qed.

Lemma write_ok rows r kind at_ line : files_ok None rows r ->
  exists r', write io zone kind at_ (header_of (columns_of kind)) line r = (r', None) /\ fields_same r r' /\ files_ok None (rows ++ [mkRow kind at_ line]) r'.
Proof.
  intros Hs. unfold write. destruct (daily_ok rows r kind at_ Hs) as (r1 & f & -> & Hf1 & Hk & Hp & Hs1). rewrite Hk.
  destruct (WriteString_ok rows r1 kind at_ f line Hs1 Hk Hp) as (r2 & f2 & -> & Hf2 & Hs2). eexists. split; [reflexivity|]. split; [|exact Hs2].
  apply fields_files. by eapply fields_trans.
Qed.

(** The recorder does what the journal does. *)
Record sim (r : Recorder) (j : Journal) : Prop := {
  sm_files : files_ok None (jn_rows j) r;
  sm_ch : rc_ch r = jn_ch j; sm_pulses : rc_pulses r = jn_pulses j; sm_updates : rc_lastUpdates r = jn_lastUpdates j;
  sm_events : rc_lastEvents r = jn_lastEvents j; sm_at : rc_lastEventAt r = jn_lastEventAt j
}.

Lemma write_sim r j kind at_ line : sim r j -> exists r', write io zone kind at_ (header_of (columns_of kind)) line r = (r', None) /\ sim r' (add_row kind at_ line j).
Proof.
  intros [S1 S2 S3 S4 S5 S6]. destruct (write_ok _ r kind at_ line S1) as (r' & E & [F1 F2 F3 F4 F5] & Hs). exists r'. split; [done|]. constructor; [exact Hs|..]; cbn; congruence.
Qed.

Lemma write_all_sim kind at_ lines : forall r j, sim r j -> exists r', write_all io zone kind at_ (header_of (columns_of kind)) lines r = (r', None) /\ sim r' (add_rows kind at_ lines j).
Proof.
  induction lines as [|line lines IH]; intros r j Hs; cbn [write_all]; [by exists r|]. destruct (write_sim r j kind at_ line Hs) as (r1 & -> & Hs1). by apply (IH r1).
Qed.

Lemma write_changes_sim now l : forall r j, sim r j -> exists r', write_changes io zone now l r = (r', None) /\ sim r' (jn_changes now l j).
Proof.
  induction l as [|c l IH]; intros r j Hs; cbn [write_changes jn_changes]; [by exists r|]. rewrite (sm_at _ _ Hs). destruct (throttled (jn_lastEventAt j) now c); [by apply IH|].
  set (r1 := r <| rc_lastEventAt := _ |>). set (j1 := j <| jn_lastEventAt := _ |>). assert (sim r1 j1) as Hs1 by (destruct Hs as [[F1 F2 F3 F4] S2 S3 S4 S5 S6]; by constructor).
  destruct (write_sim r1 j1 "events" now (event_line now c) Hs1) as (r2 & E & Hs2). change (columns_of "events") with events_columns in E. rewrite E. by apply IH.
Qed.

Lemma process_sim st r j : sim r j -> exists r', process io zone number st r = (r', None) /\ sim r' (jn_status number st j).
Proof.
  intros Hs. unfold process, jn_status. destruct (IsZero (es_Now st)); [by exists r|]. cbv zeta. set (r0 := noteHorizon r st).
  assert (sim r0 j) as Hs0. { assert (forall x, sim (r <| rc_horizon := x |>) j) as H by (intros x; destruct Hs as [[F1 F2 F3 F4] S2 S3 S4 S5 S6]; by constructor). subst r0. unfold noteHorizon. case_goal; [done|]. destruct (rc_horizon r); [case_goal|]; auto. }
  clearbody r0. assert (exists r1, writeEvents io zone st r0 = (r1, None) /\ sim r1 (jn_events st j)) as (r1 & -> & Hs1).
  { unfold writeEvents, jn_events. rewrite (sm_events _ _ Hs0). assert (sim (r0 <| rc_lastEvents := Some (eventStateOf st) |>) (j <| jn_lastEvents := Some (eventStateOf st) |>)) as H
      by (destruct Hs0 as [[F1 F2 F3 F4] S2 S3 S4 S5 S6]; by constructor). destruct (jn_lastEvents j); [by apply write_changes_sim|by eexists]. }
  rewrite (sm_updates _ _ Hs1). set (j1 := jn_events st j) in *. clearbody j1. case_goal; [|by exists r1]. unfold writeLoop, writeSources.
  destruct (write_sim r1 j1 "loop" (es_Now st) (loop_line number st) Hs1) as (r2 & E2 & Hs2). change (columns_of "loop") with loop_columns in E2. rewrite E2.
  destruct (write_all_sim "sources" (es_Now st) (source_line number (es_Now st) <$> st_Sources (es_sys st)) r2 _ Hs2) as (r3 & E3 & Hs3). change (columns_of "sources") with sources_columns in E3. rewrite E3.
  eexists. split; [reflexivity|]. destruct Hs3 as [[F1 F2 F3 F4] S2 S3 S4 S5 S6]. by constructor.
Qed.

Lemma take_status_sim r j : sim r j -> sim (take_status io zone number r) (jn_take_status number j).
Proof.
  intros Hs. unfold take_status, jn_take_status. rewrite (sm_ch _ _ Hs). destruct (jn_ch j) as [|st l]; [done|].
  assert (sim (r <| rc_ch := l |>) (j <| jn_ch := l |>)) as H by (destruct Hs as [[F1 F2 F3 F4] S2 S3 S4 S5 S6]; by constructor).
  destruct (process_sim st _ _ H) as (r' & -> & Hs'). exact Hs'.
Qed.

Lemma take_pulse_sim r j : sim r j -> sim (take_pulse io zone number r) (jn_take_pulse number j).
Proof.
  intros Hs. unfold take_pulse, jn_take_pulse, recordPulse. rewrite (sm_pulses _ _ Hs). destruct (jn_pulses j) as [|p l]; [done|].
  assert (sim (r <| rc_pulses := l |>) (j <| jn_pulses := l |>)) as H by (destruct Hs as [[F1 F2 F3 F4] S2 S3 S4 S5 S6]; by constructor).
  destruct (write_sim _ _ "pps" (pu_At (pl_Pulse p)) (pulse_line number p) H) as (r' & E & Hs'). change (columns_of "pps") with pps_columns in E. rewrite E. exact Hs'.
Qed.

(** A list of open files, each once. *)
Definition lists (l : list (string * dailyFile)) (r : Recorder) : Prop := NoDup (l.*1) /\ forall k f, (k, f) ∈ l <-> rc_files r !! k = Some f.

Lemma lists_all r : lists (map_to_list (rc_files r)) r.
Proof. split; [apply NoDup_fst_map_to_list|]. intros k f. apply elem_of_map_to_list. Qed.

Lemma lists_cons kind f l r : lists ((kind, f) :: l) r -> rc_files r !! kind = Some f /\ kind ∉ l.*1 /\ NoDup (l.*1) /\ forall k g, (k, g) ∈ l <-> kind <> k /\ rc_files r !! k = Some g.
Proof.
  intros [H1 H2]. apply NoDup_cons in H1 as [H1 H3]. cbn [fst] in H1. split; [apply H2; by left|]. split; [done|]. split; [done|]. intros k g. rewrite <- H2, elem_of_cons. split.
  - intros Hin. split; [|by right]. intros <-. apply H1. apply list_elem_of_fmap. by exists (kind, g).
  - intros [Hne [E|Hin]]; [congruence|done].
Qed.

Lemma flush_fold rows l : forall r b, files_ok None rows r -> NoDup (l.*1) -> (forall k f, (k, f) ∈ l -> rc_files r !! k = Some f) ->
  exists r', fold_left (fun '(r, good) '(kind, f) => let '(r, f, ok) := Flush io r f in (r <| rc_files := <[kind := f]> (rc_files r) |>, good && ok)) l (r, b) = (r', b) /\
    fields_same r r' /\ files_ok None rows r'.
Proof.
  induction l as [|[kind f] l IH]; intros r b Hs Hn Hl; cbn [fold_left]; [by exists r|]. apply NoDup_cons in Hn as [Hk Hn]. cbn [fst] in Hk.
  destruct (Flush_ok None rows r kind f Hs) as (r1 & f1 & -> & Hf & _ & _ & Hfl & Hs1); [apply Hl; by left|]. rewrite andb_true_r.
  destruct (IH (r1 <| rc_files := <[kind := f1]> (rc_files r1) |>) b Hs1 Hn) as (r2 & E & Hf2 & Hs2).
  - intros k g Hin. change (<[kind := f1]> (rc_files r1) !! k = Some g). rewrite lookup_insert_ne; [rewrite Hfl; apply Hl; by right|]. intros <-. apply Hk. apply list_elem_of_fmap. by exists (kind, g).
  - exists r2. split; [exact E|]. split; [|done]. eapply fields_trans; [|exact Hf2]. by apply fields_files.
Qed.

Lemma flush_sim r j : sim r j -> sim (flushAndReport io r) j.
Proof.
  intros Hs. unfold flushAndReport, flush. destruct (lists_all r) as [L1 L2]. destruct (flush_fold (jn_rows j) (map_to_list (rc_files r)) r true (sm_files _ _ Hs) L1) as (r' & -> & [F1 F2 F3 F4 F5] & Hf);
    [intros k f Hin; by apply L2|]. destruct Hs as [S1 S2 S3 S4 S5 S6]. constructor; [exact Hf|..]; congruence.
Qed.

Lemma close_fold rows l : forall r, files_ok None rows r -> lists l r ->
  exists r', fold_left (fun r '(kind, f) => (closeDaily io r f).1 <| rc_files := delete kind (rc_files r) |>) l r = r' /\ fields_same r r' /\ files_ok None rows r' /\ rc_files r' = ∅.
Proof.
  induction l as [|[kind f] l IH]; intros r Hs Hl; cbn [fold_left].
  - exists r. split; [done|]. split; [done|]. split; [done|]. apply map_empty. intros k. destruct (rc_files r !! k) as [g|] eqn:E; [|done]. apply Hl in E. by apply elem_of_nil in E.
  - apply lists_cons in Hl as (Hk & Hni & Hn & Hl). destruct (closeDaily_ok None rows r kind f Hs Hk) as (r1 & E1 & Hf & Hfl & Hs1); [done|]. rewrite E1. cbn [fst]. rewrite <- Hfl.
    destruct (IH (r1 <| rc_files := delete kind (rc_files r1) |>) Hs1) as (r2 & E & Hf2 & Hs2 & He).
    + split; [done|]. intros k g. change (rc_files (r1 <| rc_files := delete kind (rc_files r1) |>)) with (delete kind (rc_files r1)). rewrite lookup_delete_Some, Hfl. apply Hl.
    + exists r2. split; [exact E|]. split; [|done]. eapply fields_trans; [|exact Hf2]. by apply fields_files.
Qed.

Lemma closeFiles_sim r j : sim r j -> sim (closeFiles io r) j /\ rc_files (closeFiles io r) = ∅.
Proof.
  intros Hs. unfold closeFiles. destruct (close_fold (jn_rows j) (map_to_list (rc_files r)) r (sm_files _ _ Hs) (lists_all r)) as (r' & -> & [F1 F2 F3 F4 F5] & Hf & He). split; [|done].
  destruct Hs as [S1 S2 S3 S4 S5 S6]. constructor; [exact Hf|..]; congruence.
Qed.

Lemma flush_tick_sim server now r j : sim r j -> sim (flush_tick io zone server now r) (jn_server server now j).
Proof.
  intros Hs. unfold flush_tick, jn_server, recordServer. assert (forall r j, sim r j -> sim (reportDrops r) j) as Hd by (intros r0 j0 [[F1 F2 F3 F4] S2 S3 S4 S5 S6]; by constructor).
  destruct server as [s|]; [|by apply Hd, flush_sim].
  destruct (write_all_sim "server" now [server_line now "ipv4" (IPv4 s); server_line now "ipv6" (IPv6 s)] r j Hs) as (r' & E & Hs'). change (columns_of "server") with server_columns in E. rewrite E.
  by apply Hd, flush_sim.
Qed.

Lemma step_sim r j e : sim r j -> sim (stats_step io zone number r e) (jn_step number j e).
Proof.
  intros Hs. destruct e as [st|p| | |server now]; cbn [stats_step jn_step].
  - unfold Record_. rewrite (sm_ch _ _ Hs). destruct Hs as [[F1 F2 F3 F4] S2 S3 S4 S5 S6]. case_goal; by constructor.
  - unfold Recorder_Pulse. rewrite (sm_pulses _ _ Hs). destruct Hs as [[F1 F2 F3 F4] S2 S3 S4 S5 S6]. destruct (IsZero _); cbn [negb andb]; [by constructor|]. case_goal; by constructor.
  - by apply take_status_sim.
  - by apply take_pulse_sim.
  - by apply flush_tick_sim.
Qed.

Lemma drain_sim choose fuel : forall r j, sim r j -> sim (drain io zone number choose fuel r) (jn_drain number choose fuel j).
Proof.
  induction fuel as [|fuel IH]; intros r j Hs; cbn [drain jn_drain]; [done|]. rewrite (sm_ch _ _ Hs), (sm_pulses _ _ Hs). case_goal; apply IH; [by apply take_status_sim|by apply take_pulse_sim].
Qed.

Lemma run_sim events : forall r j, sim r j -> sim (fold_left (stats_step io zone number) events r) (fold_left (jn_step number) events j).
Proof. induction events as [|e events IH]; intros r j Hs; cbn [fold_left]; [done|]. by apply IH, step_sim. Qed.

Lemma Run_sim events choose server now keepDays : keepDays <= 0 ->
  let r := Recorder_Run io zone number events choose server now (newRecorder keepDays disk0) in
  sim r (jn_run number events choose server now) /\ rc_files r = ∅.
Proof.
  intros Hk. cbv zeta. unfold Recorder_Run, stop, jn_run. assert (sim (newRecorder keepDays disk0) newJournal) as H0 by (constructor; try done; constructor; done).
  pose proof (run_sim events _ _ H0) as H1. set (r1 := fold_left (stats_step io zone number) events _) in *. set (j1 := fold_left (jn_step number) events _) in *.
  rewrite (sm_ch _ _ H1), (sm_pulses _ _ H1). by apply closeFiles_sim, flush_tick_sim, drain_sim.
Qed.
End Refines.

(** ** Reading rows *)

(** The fields of a line without its end. *)
Fixpoint split_tab (cur : str) (s : str) : list str :=
  match s with
  | [] => [reverse cur]
  | c :: s => if c =? tab then reverse cur :: split_tab [] s else split_tab (c :: cur) s
  end.

Definition read_row (line : str) : list str := split_tab [] (removelast line).

Fixpoint unescape (s : str) : str :=
  match s with
  | 92 :: c :: r => (if c =? 116 then 9 else if c =? 114 then 13 else if c =? 110 then 10 else c) :: unescape r
  | c :: r => c :: unescape r
  | [] => []
  end.

Lemma unescape_other c s : c <> 92 -> unescape (c :: s) = c :: unescape s.
Proof. intros Hc. destruct c as [|c|c]; try done. repeat (destruct c as [c|c|]; try done). Qed.

Lemma unescape_byte c s : unescape (escape_byte c ++ s) = c :: unescape s.
Proof.
  unfold escape_byte. destruct (Z.eqb_spec c 92) as [->|H]; [done|]. destruct (Z.eqb_spec c 9) as [->|H1]; [done|]. destruct (Z.eqb_spec c 13) as [->|H2]; [done|].
  destruct (Z.eqb_spec c 10) as [->|H3]; [done|]. by apply unescape_other.
Qed.

Lemma unescape_escape s : unescape (escape s) = s.
Proof. unfold escape. induction s as [|c s IH]; [done|]. cbn [mbind list_bind]. rewrite unescape_byte. by rewrite IH. Qed.

Lemma plain_escape s : plain (escape s).
Proof.
  unfold escape. induction s as [|c s IH]; [constructor|]. cbn [mbind list_bind]. apply plain_app. split; [|done]. unfold escape_byte. repeat case_goal; bool_step; repeat constructor; lia.
Qed.

Lemma split_tab_plain s : forall cur rest, plain s -> split_tab cur (s ++ rest) = split_tab (reverse s ++ cur) rest.
Proof.
  induction s as [|c s IH]; intros cur rest Hs; [done|]. apply plain_cons in Hs as [[Hc _] Hs]. cbn [app split_tab]. unfold tab. destruct (Z.eqb_spec c 9); [done|].
  rewrite (IH (c :: cur) rest Hs). rewrite reverse_cons, <- (assoc_L (++)). done.
Qed.

Lemma read_row_of fields : fields <> [] -> Forall plain fields -> read_row (row_of fields) = fields.
Proof.
  intros Hne Hp. unfold read_row, row_of. rewrite List.removelast_last. destruct fields as [|f fs]; [done|]. clear Hne. revert f Hp.
  induction fs as [|g fs IH]; intros f Hp; apply List.Forall_cons_iff in Hp as [Hf Hp].
  - cbn [Join]. rewrite <- (app_nil_r f) at 1. rewrite split_tab_plain by done. cbn. by rewrite app_nil_r, reverse_involutive.
  - change (Join tab (f :: g :: fs)) with (f ++ tab :: Join tab (g :: fs)). rewrite split_tab_plain by done. cbn [split_tab]. rewrite Z.eqb_refl, app_nil_r, reverse_involutive. by rewrite IH.
Qed.

(** A row of its kind: as many fields as columns, and no end of line inside. *)
Definition row_good (w : Row) : Prop := exists fields, rw_line w = row_of fields /\ length fields = length (columns_of (rw_kind w)) /\ fields <> [] /\ Forall plain fields.

Section Rows.
Context (number : f64 -> str).
Hypothesis number_plain : forall x, plain (number x).

Lemma str_of_plain_dec s : forallb (fun c => negb (c =? 9) && negb (c =? 10)) (str_of s) = true -> plain (str_of s).
Proof.
  intros H. unfold plain. apply Forall_forall. intros c Hc. rewrite List.forallb_forall in H. apply list_elem_of_In, H in Hc. apply andb_true_iff in Hc as [H1 H2].
  apply negb_true_iff, Z.eqb_neq in H1, H2. done.
Qed.

Lemma plain_State s : plain (str_of (State_String s)).
Proof. destruct s; by apply str_of_plain_dec. Qed.

Lemma plain_Status s : plain (str_of (SelectStatus_String s)).
Proof. destruct s; by apply str_of_plain_dec. Qed.

Lemma plain_Leap l : plain (str_of (Leap_String l)).
Proof. unfold Leap_String. repeat case_goal; by apply str_of_plain_dec. Qed.

(** The hints that close the fields of a row. *)
Create HintDb rows.
#[local] Hint Resolve plain_RFC3339Nano plain_escape plain_FormatUint plain_FormatInt number_plain List.Forall_nil List.Forall_cons : rows.
#[local] Hint Resolve plain_State plain_Status plain_Leap : rows.

Lemma changes_kind old now c : c ∈ changes_of old now -> plain (str_of (ch_kind c)).
Proof.
  unfold changes_of. rewrite (elem_of_sort_stable change_less). unfold change_if. rewrite !elem_of_app.
  intros [H|[H|[H|[H|[H|H]]]]]; try (destruct (negb _); [apply list_elem_of_singleton in H as ->|by apply elem_of_nil in H]; by apply str_of_plain_dec).
  all: apply list_elem_of_omap in H as ([k v] & _ & E); cbn [fst snd] in E.
  - destruct (ev_sources old !! k); [destruct (bool_decide _)|]; try done; apply (inj Some) in E as <-; by apply str_of_plain_dec.
  - destruct (ev_sources now !! k); [done|]. apply (inj Some) in E as <-. by apply str_of_plain_dec.
Qed.

Lemma rows_add kind at_ line j : Forall row_good (jn_rows j) -> row_good (mkRow kind at_ line) -> Forall row_good (jn_rows (add_row kind at_ line j)).
Proof. intros H1 H2. cbn. apply Forall_app. split; [done|by constructor]. Qed.

Lemma rows_adds kind at_ lines : forall j, Forall row_good (jn_rows j) -> Forall (fun line => row_good (mkRow kind at_ line)) lines -> Forall row_good (jn_rows (add_rows kind at_ lines j)).
Proof.
  unfold add_rows. induction lines as [|line lines IH]; intros j Hj Hl; cbn [fold_left]; [done|]. apply List.Forall_cons_iff in Hl as [H1 H2]. apply IH; [|done]. by apply rows_add.
Qed.

Ltac row_fields := match goal with |- row_good (mkRow _ _ ?l) => eexists; split; [reflexivity|]; split; [reflexivity|]; split; [discriminate|auto 40 with rows] end.

Lemma event_row now c : plain (str_of (ch_kind c)) -> row_good (mkRow "events" now (event_line now c)).
Proof. intros Hk. row_fields. Qed.

Lemma loop_row st : row_good (mkRow "loop" (es_Now st) (loop_line number st)).
Proof. row_fields. Qed.

Lemma source_row now s : row_good (mkRow "sources" now (source_line number now s)).
Proof. row_fields. Qed.

Lemma pulse_row at_ p : row_good (mkRow "pps" at_ (pulse_line number p)).
Proof. row_fields. Qed.

Lemma server_row now family c : plain (str_of family) -> row_good (mkRow "server" now (server_line now family c)).
Proof. intros Hf. unfold server_line. cbn [fmap list_fmap app]. row_fields. Qed.

Lemma rows_changes now l : forall j, Forall row_good (jn_rows j) -> Forall (fun c => plain (str_of (ch_kind c))) l -> Forall row_good (jn_rows (jn_changes now l j)).
Proof.
  induction l as [|c l IH]; intros j Hj Hl; cbn [jn_changes]; [done|]. apply List.Forall_cons_iff in Hl as [Hc Hl]. case_goal; [by apply IH|]. apply IH; [|done]. apply rows_add; [done|by apply event_row].
Qed.

Lemma rows_status st j : Forall row_good (jn_rows j) -> Forall row_good (jn_rows (jn_status number st j)).
Proof.
  intros Hj. unfold jn_status. case_goal; [done|]. cbv zeta. assert (Forall row_good (jn_rows (jn_events st j))) as He.
  { unfold jn_events. cbv zeta. destruct (jn_lastEvents j) as [old|]; [|done]. apply rows_changes; [done|]. apply Forall_forall. intros c. apply changes_kind. }
  set (j1 := jn_events st j) in *. clearbody j1. case_goal; [|done]. apply (rows_adds "sources"); [apply rows_add; [done|apply loop_row]|]. apply Forall_fmap, Forall_true. intros s. apply source_row.
Qed.

Lemma rows_server server now j : Forall row_good (jn_rows j) -> Forall row_good (jn_rows (jn_server server now j)).
Proof. intros Hj. unfold jn_server. destruct server; [|done]. apply rows_adds; [done|]. repeat constructor; apply server_row; by apply str_of_plain_dec. Qed.

Lemma rows_take j : Forall row_good (jn_rows j) -> Forall row_good (jn_rows (jn_take_status number j)) /\ Forall row_good (jn_rows (jn_take_pulse number j)).
Proof.
  intros Hj. unfold jn_take_status, jn_take_pulse. split; [destruct (jn_ch j)|destruct (jn_pulses j)]; try done; [by apply rows_status|]. apply rows_add; [done|apply pulse_row].
Qed.

Lemma rows_step j e : Forall row_good (jn_rows j) -> Forall row_good (jn_rows (jn_step number j e)).
Proof. intros Hj. destruct e; cbn [jn_step]; try (case_goal; done); [apply rows_take|apply rows_take|apply rows_server]; done. Qed.

Lemma rows_drain choose fuel : forall j, Forall row_good (jn_rows j) -> Forall row_good (jn_rows (jn_drain number choose fuel j)).
Proof. induction fuel as [|fuel IH]; intros j Hj; cbn [jn_drain]; [done|]. case_goal; apply IH, rows_take; done. Qed.

Lemma rows_run events choose server now : Forall row_good (jn_rows (jn_run number events choose server now)).
Proof.
  unfold jn_run. cbv zeta. apply rows_server, rows_drain. assert (Forall row_good (jn_rows newJournal)) as H by constructor. revert H. generalize newJournal.
  induction events as [|e events IH]; intros j Hj; cbn [fold_left]; [done|]. by apply IH, rows_step.
Qed.
End Rows.

(** ** Claim *)

Lemma Join_line fields : Forall plain fields -> newline ∉ Join tab fields.
Proof.
  intros Hp. induction Hp as [|f fs Hf Hp IH]; [by intros ?%elem_of_nil|]. assert (newline ∉ f) as Hn.
  { intros Hin. unfold plain in Hf. rewrite Forall_forall in Hf. destruct (Hf _ Hin). done. }
  destruct fs as [|g fs]; [exact Hn|]. change (Join tab (f :: g :: fs)) with (f ++ tab :: Join tab (g :: fs)). rewrite elem_of_app, elem_of_cons. intros [?|[?|?]]; done.
Qed.

(** Claim C15: the statistics files are the journal.  Where every call of the
    file system succeeds and no retention is set, over any snapshots, pulses and
    minute ticks, in any order and with any draining of the queues at the end,
    however the buffers choose to write and on whatever was on the disk before:
    each file ends up holding what it held, a header if that was nothing, and
    exactly the rows of its kind and UTC day that the abstract journal has, in
    order; every other file is untouched.  And every row reads back into as many
    fields as its header has columns, with no end of line but its own, so an
    escaped name cannot break a file, and unescaping gives the name back. *)
Theorem stats_refines_journal io zone number events choose server now keepDays disk :
  (forall n, (io n).2 = true) -> (forall x, plain (number x)) -> keepDays <= 0 ->
  let rows := jn_rows (jn_run number events choose server now) in
  (forall p, dk_files (rc_disk (Recorder_Run io zone number events choose server now (newRecorder keepDays disk))) !! p = journal_file disk rows p) /\
  (forall w, w ∈ rows -> length (read_row (rw_line w)) = length (columns_of (rw_kind w)) /\ exists body, rw_line w = body ++ [newline] /\ newline ∉ body) /\
  (forall name, unescape (escape name) = name /\ plain (escape name)).
Proof.
  intros Hio Hn Hk. cbv zeta. destruct (Run_sim io zone number disk Hio events choose server now keepDays Hk) as [Hs He]. split; [|split].
  - intros p. apply (fo_closed _ _ _ _ (sm_files _ _ _ Hs)). intros kind f Hf. rewrite He in Hf. by apply lookup_empty_Some in Hf.
  - intros w Hw. pose proof (rows_run number Hn events choose server now) as Hr. rewrite Forall_forall in Hr. destruct (Hr w Hw) as (fields & E & El & Hne & Hp). rewrite E.
    split; [by rewrite read_row_of|]. exists (Join tab fields). split; [done|]. by apply Join_line.
  - intros name. split; [apply unescape_escape|apply plain_escape].
Qed.

(** ** Example: two pulses of one day and one of the next *)

Definition example_pulses : list stats_event :=
  let at_ h := mkAcceptedPulse "gps	pps" (mkPulse (unixTime (1767225600 + 3600 * h) 0) fzero h) in
  [SePulse (at_ 22); SeTakePulse; SePulse (at_ 23); SePulse (at_ 24); SeTakePulse].

Definition some_digits (x : f64) : str := [48].

Definition example_content : str :=
  header_of pps_columns ++ str_of "2026-01-01T22:00:00Z	gps\tpps	0	22" ++ [10] ++ str_of "2026-01-01T23:00:00Z	gps\tpps	0	23" ++ [10].

Lemma example_journal :
  journal_file (mkDisk [] ∅) (jn_rows (jn_run some_digits example_pulses (fun _ => true) None 0)) (path_of "pps" (unixTime 1767225600 0)) = Some example_content.
Proof. vm_compute. reflexivity. Qed.

Lemma stats_refines_journal_witness :
  dk_files (rc_disk (Recorder_Run (fun n => (n, true)) (fun _ => 0) some_digits example_pulses (fun _ => true) None 0 (newRecorder 0 (mkDisk [] ∅)))) !!
    path_of "pps" (unixTime 1767225600 0) = Some example_content.
Proof.
  destruct (stats_refines_journal (fun n => (n, true)) (fun _ => 0) some_digits example_pulses (fun _ => true) None 0 0 (mkDisk [] ∅)) as [H _].
  - intros n. reflexivity.
  - intros x. repeat constructor; discriminate.
  - discriminate.
  - exact (eq_trans (H _) example_journal).
Defined.
