(* ===== verification/Control.v ===== *)
(** * internal/control: the status socket

    The conversions of an engine snapshot and of the listener's counters to
    what a client is sent, one connection from its request to its reply, the
    admission of connections, and the ownership of the socket's path.  JSON is a
    parameter; what a client sends is the bytes and whether it closed. *)

From stdpp Require Import base list strings numbers gmap.
From Stdlib Require Import Lia ZArith.
From S2P Require Import Prelude Float64 GoTime GoStrings Netip NetipParse NtpTime NtpPacket Measurement Select Loop System ServerStats GoDate GoText LeapTable LeapStore Exchange Refclock Pps EngineLeap Engine LeapUpdater StatusText.

Local Open Scope Z_scope.

(** ** Protocol *)

Record Request : Type := mkRequest { rq_Command : string; rq_Timeout : f64 }.

(** The whole of [source.Info]. *)
Record SourceInfo : Type := mkSourceInfo {
  si_Address : string; si_Resolved : option str; si_Reach : Z; si_Poll : Z; si_Denied : bool; si_LastRx : time; si_LastError : string;
  si_Sent : Z; si_Received : Z; si_Timeouts : Z; si_Bogus : Z; si_BadAuth : Z; si_Kiss : Z; si_NoKernelTS : Z; si_Stale : Z;
  si_Refclock : option (string * string * string * RefclockInfo)      (* type, device, edge *)
}.

(** [CtlRefclock]. *)
Record CtlRefclock : Type := mkCtlRefclock {
  cr_Name : string; cr_Type : string; cr_Device : string; cr_Edge : string; cr_Reach : Z; cr_Poll : Z;
  cr_Qualified : bool; cr_Stable : bool; cr_Locked : bool; cr_DisagreesWith : string; cr_Disagreement : f64;
  cr_LastPulse : option time; cr_LastSentence : option time; cr_info : RefclockInfo    (* the fields copied as they are *)
}.

Record CounterStats : Type := mkCounterStats {
  cs_counts : CounterSnapshot;                      (* the fields copied as they are *)
  cs_Modes : list (string * Z); cs_Versions : list (Z * Z);
  cs_LastRequest : option time; cs_LastServed : option time
}.

Record CtlSource : Type := mkCtlSource {
  so_Name : string; so_Status : string; so_Prefer : bool; so_NoSelect : bool; so_Reach : Z; so_Poll : Z;
  so_Offset : f64; so_Delay : f64; so_Dispersion : f64; so_Jitter : f64; so_Distance : f64; so_Stratum : Z; so_RefID : str; so_Leap : string;
  so_Address : string; so_Resolved : str; so_LastRx : option time; so_LastError : string;
  so_Sent : Z; so_Received : Z; so_Timeouts : Z; so_Bogus : Z; so_BadAuth : Z; so_Kiss : Z; so_Stale : Z; so_NoKernelTS : Z; so_Denied : bool
}.

Record Tracking : Type := mkTracking {
  tk_State : string; tk_Stratum : Z; tk_RefID : str; tk_Leap : string; tk_LeapSource : string; tk_LeapExpiry : option time; tk_ClockState : string;
  tk_LeapReady : bool; tk_LeapValid : bool; tk_LeapDisagreement : bool; tk_LeapRequired : bool; tk_LeapReason : string;
  tk_LeapRecord : option LeapRecord; tk_LeapUpdate : UpdateStatus; tk_RefTime : option time; tk_Now : time; tk_Uptime : f64;
  tk_sys : SysStatus;                                (* offset to steps, copied as they are *)
  tk_Version : string
}.

(** A nil time for one that has not happened. *)
Definition optionalTime (t : time) : option time := if IsZero t then None else Some t.
Definition timeOrZero (t : option time) : time := default zeroTime t.

Definition modes_of (c : CounterSnapshot) : list (string * Z) :=
  omap (fun '(m, v) => if (v =? 0) || (m =? ModeClient) then None else Some (Mode_String m, v)) (imap (fun i v => (Z.of_nat i, v)) (Modes c)).

Definition versions_of (c : CounterSnapshot) : list (Z * Z) :=
  omap (fun '(n, v) => if v =? 0 then None else Some (n, v)) (imap (fun i v => (Z.of_nat i, v)) (Versions c)).

Definition counterStatsOf (c : CounterSnapshot) : CounterStats :=
  mkCounterStats c (modes_of c) (versions_of c) (optionalTime (LastRequest c)) (optionalTime (LastServed c)).

Definition ServerStatsOf (s : StatsSnapshot) : CounterStats * CounterStats * CounterStats :=
  (counterStatsOf (Total s), counterStatsOf (IPv4 s), counterStatsOf (IPv6 s)).

(** The snapshot with its leap acquisition and the build's version. *)
Definition TrackingOf (st : EngineStatus) (update : UpdateStatus) (built : string) : Tracking :=
  let utc := if After (es_UTCbound st) (es_Now st) then es_UTCbound st else es_Now st in
  let y := es_sys st in
  mkTracking (State_String (st_State y)) (st_Stratum y) (RefID_String (st_RefID y)) (Leap_String (st_Leap y)) (es_LeapSource st) (optionalTime (es_LeapExpiry st))
    (State_String (es_ClockState st)) (es_LeapReady st) (negb (IsZero (es_LeapExpiry st)) && After (es_LeapExpiry st) utc) (es_LeapDisagreement st) (es_LeapRequired st)
    (es_LeapReason st) (es_LeapRecord st) update (optionalTime (es_RefTime st)) (es_Now st) (Seconds (es_Uptime st)) y built.

Definition info_of (infos : list (string * SourceInfo)) (name : string) : option SourceInfo :=
  snd <$> List.find (fun e => bool_decide (fst e = name)) infos.

Definition source_line_of (infos : list (string * SourceInfo)) (s : SourceStatus) : CtlSource :=
  let gone := bool_decide (ss_Status s = StatusUnreachable) in
  let stratum := if gone then 0 else ss_Stratum s in
  let refid := if gone then [] else RefID_String (ss_RefID s) in
  let base reach poll := mkCtlSource (ss_Name s) (SelectStatus_String (ss_Status s)) (ss_Prefer s) (ss_NoSelect s) reach poll (ss_Offset s) (ss_Delay s) (ss_Dispersion s)
    (ss_Jitter s) (ss_Distance s) stratum refid (Leap_String (ss_Leap s)) in
  match info_of infos (ss_Name s) with
  | None => base (ss_Reach s) (ss_Poll s) ""%string [] None ""%string 0 0 0 0 0 0 0 0 false
  | Some i => base (si_Reach i) (si_Poll i) (si_Address i) (default [] (si_Resolved i)) (optionalTime (si_LastRx i)) (si_LastError i) (si_Sent i) (si_Received i) (si_Timeouts i)
                (si_Bogus i) (si_BadAuth i) (si_Kiss i) (si_Stale i) (si_NoKernelTS i) (si_Denied i)
  end.

Definition SourcesOf (st : EngineStatus) (infos : list (string * SourceInfo)) : list CtlSource := source_line_of infos <$> st_Sources (es_sys st).

Definition refclock_of (st : EngineStatus) (infos : list (string * SourceInfo)) (s : SourceStatus) : option CtlRefclock :=
  i ← info_of infos (ss_Name s);
  '(type, device, edge, r) ← si_Refclock i;
  let pulse := bool_decide (type = "pps"%string) || bool_decide (type = "gps-pps"%string) in
  let reached := negb (ss_Reach s =? 0) in
  let qualified := if pulse then reached && st_PPSQualified (es_sys st) && negb (bool_decide (ss_Status s = StatusFalseticker)) else reached in
  Some (mkCtlRefclock (ss_Name s) type device edge (ss_Reach s) (ss_Poll s) qualified (r_Stable r) (qualified && r_Stable r) (ss_DisagreesWith s) (ss_Disagreement s)
          (optionalTime (r_LastPulse r)) (optionalTime (r_LastSentence r)) r).

Definition RefclocksOf (st : EngineStatus) (infos : list (string * SourceInfo)) : list CtlRefclock := omap (refclock_of st infos) (st_Sources (es_sys st)).

(** ** One connection *)

Definition maxRequest : nat := 4096.
Definition replyWriteTimeout : duration := 5 * Second.
Definition maxWaitDuration : duration := 2 ^ 63 - 1 - 4 * replyWriteTimeout.

Definition waitDuration (secs : f64) : duration :=
  if is_nan secs || fle secs fzero then 0
  else
    let ns := fmul secs (of_Z Second) in
    if (match ns with SpecFloat.S754_infinity false => true | _ => false end) || fge ns (of_Z maxWaitDuration) then maxWaitDuration
    else duration_of ns.

Inductive Response : Type :=
| RespError (text : string) | RespVersion (version : string) | RespTracking (t : Tracking) | RespSources (l : list CtlSource) | RespRefclocks (l : list CtlRefclock)
| RespServerStats (s : CounterStats * CounterStats * CounterStats) | RespSynced (synced : bool).

Section Connection.
Context (decode : str -> option Request) (encode : Response -> option str).

(** The engine's and the listener's answers, and whether the engine says
    synchronized before a wait of the given length, without end for none, is
    over or the client is gone. *)
Context (status : EngineStatus) (update : UpdateStatus) (infos : list (string * SourceInfo)) (stats : StatsSnapshot) (version built : string) (waits : option duration -> bool).

Definition dispatch (req : Request) : Response :=
  if bool_decide (rq_Command req = "version"%string) then RespVersion version
  else if bool_decide (rq_Command req = "tracking"%string) then RespTracking (TrackingOf status update built)
  else if bool_decide (rq_Command req = "sources"%string) then RespSources (SourcesOf status infos)
  else if bool_decide (rq_Command req = "refclock"%string) then RespRefclocks (RefclocksOf status infos)
  else if bool_decide (rq_Command req = "serverstats"%string) then RespServerStats (ServerStatsOf stats)
  else if bool_decide (rq_Command req = "waitsync"%string) then RespSynced (waits (if fgt (rq_Timeout req) fzero then Some (waitDuration (rq_Timeout req)) else None))
  else RespError "control: unknown command"%string.

(** The request line: [ReadSlice] of a buffer of 4096 bytes, or what came
    before the end. *)
Definition request_line (data : str) (eof : bool) : option str :=
  match cut_byte 10 (take maxRequest data) with
  | Some (line, _) => Some (line ++ [10])
  | None => if (maxRequest <=? length data)%nat then None else if eof && negb (length data =? 0)%nat then Some data else None
  end.

(** The bytes of a reply; a response that does not encode becomes an error. *)
Definition reply_bytes (resp : Response) : option str :=
  match encode resp with
  | Some b => Some (b ++ [10])
  | None => match encode (RespError "control: internal encoding failure"%string) with Some b => Some (b ++ [10]) | None => None end
  end.

Definition ctl_handle (data : str) (eof : bool) : option str :=
  match request_line data eof with
  | None => reply_bytes (RespError "control: malformed request"%string)
  | Some line =>
      match decode line with
      | None => reply_bytes (RespError "control: malformed request"%string)
      | Some req => reply_bytes (dispatch req)
      end
  end.

End Connection.

(** ** Admission *)

Definition maxConcurrentClients : Z := 128.

(** The accept loop and the handlers: the counter, the connections being
    handled, and the loop's reading of the counter when it has one. *)
Record CtlServer : Type := mkCtlServer { cv_waiters : Z; cv_handling : nat; cv_seen : option Z; cv_refused : Z }.

#[export] Instance CtlServer_eta : Eta CtlServer := fun s => mkCtlServer (cv_waiters s) (cv_handling s) (cv_seen s) (cv_refused s).

(** A connection is accepted and the counter read; it is refused or counted
    and handed to a handler; a handler ends. *)
Inductive ctl_event : Type := CtlAccept | CtlAdmit | CtlDone.

Definition ctl_step (s : CtlServer) (e : ctl_event) : CtlServer :=
  match e with
  | CtlAccept => match cv_seen s with None => s <| cv_seen := Some (cv_waiters s) |> | Some _ => s end
  | CtlAdmit =>
      match cv_seen s with
      | None => s
      | Some n =>
          if maxConcurrentClients <=? n then s <| cv_seen := None |> <| cv_refused := cv_refused s + 1 |>
          else s <| cv_seen := None |> <| cv_waiters := cv_waiters s + 1 |> <| cv_handling := S (cv_handling s) |>
      end
  | CtlDone => match cv_handling s with O => s | S n => s <| cv_waiters := cv_waiters s - 1 |> <| cv_handling := n |> end
  end.

(** ** The path *)

(** What is at the socket's path: nothing, something else, or a socket, with
    the process that listens on it if one does. *)
Inductive entry : Type := EntryAbsent | EntryOther | EntrySocket (listener : option nat).

(** How far a process is: [Listen] (the lock, the probe, the removal, the
    bind and the mode), serving, the end of [Serve] (the close, the removal, the release),
    and [Close], which the daemon calls last. *)
Inductive phase : Type :=
| PhStart | PhLocked | PhAbandoned | PhCleared | PhBound | PhServing | PhClosed | PhRemoved | PhReleased | PhLeaving | PhExited.

Record Host : Type := mkHost { ho_lock : option nat; ho_entry : entry; ho_phase : gmap nat phase }.

Definition phase_of (h : Host) (p : nat) : phase := default PhStart (ho_phase h !! p).
Definition become (h : Host) (p : nat) (ph : phase) : Host := mkHost (ho_lock h) (ho_entry h) (<[p := ph]> (ho_phase h)).
Definition with_entry (h : Host) (x : entry) : Host := mkHost (ho_lock h) x (ho_phase h).
Definition with_lock (h : Host) (l : option nat) : Host := mkHost l (ho_entry h) (ho_phase h).

(** A start that fails closes the lock file, and the process ends. *)
Definition give_up_start (h : Host) (p : nat) : Host := become (with_lock h None) p PhExited.

(** [lockPath]. *)
Definition lockPath (h : Host) (p : nat) : Host :=
  match ho_lock h with None => become (with_lock h (Some p)) p PhLocked | Some _ => become h p PhExited end.

(** [clearAbandonedSocket]: the inspection and the probe, then the removal of a
    socket nobody listens on. *)
Definition probe_path (h : Host) (p : nat) : Host :=
  match ho_entry h with
  | EntryAbsent => become h p PhCleared
  | EntrySocket None => become h p PhAbandoned
  | EntryOther | EntrySocket (Some _) => give_up_start h p
  end.

Definition remove_abandoned (h : Host) (p : nat) : Host := become (with_entry h EntryAbsent) p PhCleared.

(** [net.Listen], which fails where the name exists. *)
Definition bind_path (h : Host) (p : nat) : Host :=
  match ho_entry h with EntryAbsent => become (with_entry h (EntrySocket (Some p))) p PhBound | _ => give_up_start h p end.

(** The end of [Serve]: the listener is closed, which unlinks its name, the
    path is removed once the handlers are done, and the lock is released. *)
Definition serve_end (h : Host) (p : nat) : Host :=
  match phase_of h p with
  | PhServing => become (with_entry h EntryAbsent) p PhClosed
  | PhClosed => become (with_entry h EntryAbsent) p PhRemoved
  | PhRemoved => become (with_lock h None) p PhReleased
  | _ => h
  end.

(** [Close] after [Serve] has returned: the listener is closed and the lock
    released already, and the path is removed again. *)
Definition close_again (h : Host) (p : nat) : Host := become (with_entry h EntryAbsent) p PhLeaving.

(** The next step of a process. *)
Definition owner_step (h : Host) (p : nat) : Host :=
  match phase_of h p with
  | PhStart => lockPath h p
  | PhLocked => probe_path h p
  | PhAbandoned => remove_abandoned h p
  | PhCleared => bind_path h p
  | PhBound => become h p PhServing
  | PhServing | PhClosed | PhRemoved => serve_end h p
  | PhReleased => close_again h p
  | PhLeaving => become h p PhExited
  | PhExited => h
  end.

(** A call of [Listen] fails, by whatever cause: without the lock the process
    ends, with it the lock is released, and a socket that is bound already is
    closed and removed first. *)
Definition listen_fails (h : Host) (p : nat) : Host :=
  match phase_of h p with
  | PhStart => become h p PhExited
  | PhLocked | PhAbandoned | PhCleared => give_up_start h p
  | PhBound => give_up_start (with_entry h EntryAbsent) p
  | _ => h
  end.

(** The process dies where it is: its descriptors are closed, which releases
    the lock and leaves its socket behind. *)
Definition owner_crash (h : Host) (p : nat) : Host :=
  let h := if bool_decide (ho_lock h = Some p) then with_lock h None else h in
  let h := match ho_entry h with EntrySocket (Some q) => if bool_decide (q = p) then with_entry h (EntrySocket None) else h | _ => h end in
  become h p PhExited.

(** Steps, failures and crashes of any processes, in any order. *)
Inductive owner_event : Type := OwnStep (p : nat) | OwnFail (p : nat) | OwnCrash (p : nat).
Definition owner_apply (h : Host) (e : owner_event) : Host :=
  match e with OwnStep p => owner_step h p | OwnFail p => listen_fails h p | OwnCrash p => owner_crash h p end.
Definition owner_run (h : Host) (l : list owner_event) : Host := fold_left owner_apply l h.
