(* ===== verification/ControlSound.v ===== *)
(** * What the control socket guarantees

    Proofs about [Control]: its waits, requests and handlers are bounded, and
    one daemon at a time owns the path. *)

From stdpp Require Import base list strings numbers gmap.
From Stdlib Require Import Lia ZArith SpecFloat.
From S2P Require Import Prelude Float64 GoTime GoStrings NetipParse Select System Distributor Exchange Engine Control.

Local Open Scope Z_scope.

(** ** The mantissa of a product *)

Lemma digits2_bound p : Zpos p < 2 ^ Zpos (digits2_pos p).
Proof. induction p as [p IH|p IH|]; cbn [digits2_pos]; [rewrite Pos2Z.inj_succ, Z.pow_succ_r by lia; lia..|done]. Qed.

Lemma shr_1_half mrs : 0 <= shr_m mrs -> shr_m (shr_1 mrs) = shr_m mrs / 2.
Proof.
  destruct mrs as [m r s]. cbn [shr_m]. intros Hm. destruct m as [|[p|p|]|p]; cbn [shr_1 shr_m]; try done; try lia; Z.to_euclidean_division_equations; lia.
Qed.

Lemma iter_shr p : forall mrs, 0 <= shr_m mrs -> shr_m (iter_pos shr_1 p mrs) = shr_m mrs / 2 ^ Zpos p.
Proof.
  assert (forall a, 0 <= a -> 0 <= a / 2) as H2 by (intros; apply Z.div_pos; lia).
  induction p as [p IH|p IH|]; intros mrs Hm; cbn [iter_pos].
  - assert (0 <= shr_m (shr_1 mrs)) as H1 by (rewrite shr_1_half by done; auto). assert (0 <= shr_m (iter_pos shr_1 p (shr_1 mrs))) as H3 by (rewrite IH by done; apply Z.div_pos; lia).
    rewrite IH, IH, shr_1_half by done. rewrite !Z.div_div by lia. f_equal. replace (Zpos p~1) with (1 + Zpos p + Zpos p) by lia. rewrite !Z.pow_add_r by lia. lia.
  - assert (0 <= shr_m (iter_pos shr_1 p mrs)) as H3 by (rewrite IH by done; apply Z.div_pos; lia). rewrite IH, IH by done. rewrite Z.div_div by lia. f_equal.
    replace (Zpos p~0) with (Zpos p + Zpos p) by lia. by rewrite Z.pow_add_r by lia.
  - rewrite shr_1_half by done. done.
Qed.

Lemma shr_fexp_bound m e l : 0 <= m -> 0 <= shr_m (shr_fexp 53 1024 m e l).1 < 2 ^ 53.
Proof.
  intros Hm. unfold shr_fexp, shr. assert (shr_m (shr_record_of_loc m l) = m) as Em by (destruct l as [|[]]; done).
  assert (m < 2 ^ Zdigits2 m) as Hd by (destruct m as [|p|p]; [done|apply digits2_bound|lia]). assert (0 <= Zdigits2 m) as Hd0 by (destruct m; cbn; lia).
  set (n := fexp 53 1024 (Zdigits2 m + e) - e). assert (Zdigits2 m - 53 <= n) as Hn by (unfold n, fexp; lia). clearbody n.
  destruct n as [|n|n]; cbn [fst].
  - rewrite Em. split; [done|]. eapply Z.lt_le_trans; [exact Hd|]. apply Z.pow_le_mono_r; lia.
  - rewrite iter_shr by (by rewrite Em). rewrite Em. split; [apply Z.div_pos; lia|]. apply Z.div_lt_upper_bound; [lia|]. rewrite <- Z.pow_add_r by lia.
    eapply Z.lt_le_trans; [exact Hd|]. apply Z.pow_le_mono_r; lia.
  - rewrite Em. split; [done|]. eapply Z.lt_le_trans; [exact Hd|]. apply Z.pow_le_mono_r; lia.
Qed.

Lemma round_bound mx ex lx s sx m e : 0 <= mx -> binary_round_aux 53 1024 sx mx ex lx = S754_finite s m e -> Zpos m < 2 ^ 53 /\ s = sx.
Proof.
  intros Hm. unfold binary_round_aux. pose proof (shr_fexp_bound mx ex lx Hm) as H1. destruct (shr_fexp 53 1024 mx ex lx) as [mrs' e']. cbn [fst] in H1.
  assert (0 <= round_nearest_even (shr_m mrs') (loc_of_shr_record mrs')) as H2 by (unfold round_nearest_even; destruct (loc_of_shr_record mrs') as [|[]]; [|destruct (Z.even _)|..]; lia).
  pose proof (shr_fexp_bound _ e' loc_Exact H2) as H3. destruct (shr_fexp 53 1024 _ e' loc_Exact) as [mrs'' e'']. cbn [fst] in H3. destruct (shr_m mrs'') as [|p|p]; try done.
  case_goal; [|done]. intros [= <- <- <-]. split; [lia|done].
Qed.

Lemma fmul_mantissa x y s m e : fmul x y = S754_finite s m e -> Zpos m < 2 ^ 53.
Proof. destruct x as [?|?| |sx mx ex], y as [?|?| |sy my ey]; try done. intros H. apply round_bound in H; [apply H|done]. Qed.

(** ** Waits *)

Definition maxWaitFloat : f64 := S754_finite false 9007199235209742 10.

Lemma maxWaitFloat_eq : of_Z maxWaitDuration = maxWaitFloat.
Proof. vm_compute. reflexivity. Qed.

(** Below the limit, a product truncates below it. *)
Lemma trunc_below m e : Zpos m < 2 ^ 53 -> fle maxWaitFloat (S754_finite false m e) = false -> 0 <= ftrunc (S754_finite false m e) <= maxWaitDuration.
Proof.
  intros Hm Hf. apply fle_false in Hf. assert (e < 10 \/ e = 10 /\ Zpos m < 9007199235209742) as He.
  { destruct (decide (e < 10)) as [?|Hge]; [by left|]. right. apply not_and_l in Hf as [Hf|Hf]; [done|]. apply not_and_l in Hf as [Hf|Hf]; [done|].
    unfold klt, keq, maxWaitFloat in Hf. cbn in Hf. lia. }
  unfold ftrunc. cbn [cond_Zopp]. unfold maxWaitDuration, replyWriteTimeout, Second. destruct (0 <=? e) eqn:E0; bool_step.
  - split; [apply Z.mul_nonneg_nonneg; [lia|apply Z.pow_nonneg; lia]|]. destruct He as [He|[-> He]]; [|change (2 ^ 10) with 1024; lia].
    assert (2 ^ e <= 2 ^ 9) by (apply Z.pow_le_mono_r; lia). change (2 ^ 9) with 512 in *. nia.
  - split; [apply Z.div_pos; [lia|]; apply Z.pow_pos_nonneg; lia|]. assert (Zpos m / 2 ^ (- e) <= Zpos m) by (apply Z.div_le_upper_bound; [apply Z.pow_pos_nonneg; lia|]; assert (0 < 2 ^ (- e)) by (apply Z.pow_pos_nonneg; lia); nia). lia.
Qed.

Lemma waitDuration_range secs : 0 <= waitDuration secs <= maxWaitDuration.
Proof.
  unfold waitDuration. destruct (is_nan secs || fle secs fzero) eqn:E; [unfold maxWaitDuration, replyWriteTimeout, Second; lia|]. cbv zeta. rewrite maxWaitFloat_eq.
  destruct secs as [?|[]| |[] sm se]; try done. remember (fmul (S754_finite false sm se) (of_Z Second)) as ns eqn:En. symmetry in En.
  destruct ns as [s|[]| |s m e]; [vm_compute; split; discriminate..|]. cbn [orb].
  destruct (fge (S754_finite s m e) maxWaitFloat) eqn:El; [unfold maxWaitDuration, replyWriteTimeout, Second; lia|]. unfold fge in El. assert (s = false /\ Zpos m < 2 ^ 53) as [-> Hm].
  { split; [|by eapply fmul_mantissa]. assert (exists om oe, of_Z Second = S754_finite false om oe) as (om & oe & Eo) by (eexists _, _; vm_compute; reflexivity).
    rewrite Eo in En. cbn [fmul SFmul xorb] in En. by apply round_bound in En as [_ ->]. }
  pose proof (trunc_below m e Hm El) as H. unfold duration_of. rewrite i64_sane; [exact H|]. unfold maxWaitDuration, replyWriteTimeout, Second in H. lia.
Qed.

(** ** Admission *)

Record admitted (s : CtlServer) : Prop := {
  ad_count : cv_waiters s = Z.of_nat (cv_handling s);
  ad_bound : cv_waiters s <= maxConcurrentClients;
  ad_seen : forall n, cv_seen s = Some n -> cv_waiters s <= n
}.

Lemma admitted_step s e : admitted s -> admitted (ctl_step s e).
Proof.
  intros [H1 H2 H3]. destruct e; cbn [ctl_step].
  - destruct (cv_seen s) eqn:E; [by constructor; rewrite ?E|]. constructor; try done. intros n [= <-]. done.
  - destruct (cv_seen s) as [n|] eqn:E; [|by constructor; rewrite ?E]. specialize (H3 n eq_refl). case_goal; bool_step; (constructor; cbn; [lia|lia|done]).
  - destruct (cv_handling s) as [|k] eqn:E; [by constructor; rewrite ?E|]. constructor; cbn; [lia|lia|]. intros n Hn. specialize (H3 n Hn). lia.
Qed.

Lemma request_line_bound data eof line : request_line data eof = Some line -> (length line <= maxRequest)%nat.
Proof.
  unfold request_line. destruct (cut_byte 10 (take maxRequest data)) as [[a b]|] eqn:E.
  - intros [= <-]. assert (forall s x y, cut_byte 10 s = Some (x, y) -> (S (length x) <= length s)%nat) as H.
    { intros s. induction s as [|c s IH]; intros x y; cbn; [done|]. case_goal; [intros [= <- <-]; cbn; lia|]. destruct (cut_byte 10 s) as [[x' y']|]; [|done]. intros [= <- <-]. specialize (IH _ _ eq_refl). cbn. lia. }
    apply H in E. rewrite length_app. rewrite length_take in E. cbn. lia.
  - case_goal; [done|]. case_goal; [|done]. intros [= <-]. apply Nat.leb_gt in Heqb. lia.
Qed.

(** What a client can take.  In any interleaving of the accept loop
    with the handlers that end, at most 128 connections are handled at once and
    the counter is their number; a request line is at most 4096 bytes; and any
    timeout a request carries, NaN, infinite or huge, becomes a wait between zero
    and a limit to which every allowance the server and the client add still
    gives a representable duration. *)
Theorem control_bounded events data eof line secs :
  let s := fold_left ctl_step events (mkCtlServer 0 0 None 0) in
  cv_waiters s = Z.of_nat (cv_handling s) /\ (Z.of_nat (cv_handling s) <= 128) /\
  (request_line data eof = Some line -> (length line <= 4096)%nat) /\
  0 <= waitDuration secs /\ waitDuration secs + 4 * replyWriteTimeout < 2 ^ 63.
Proof.
  cbv zeta. assert (admitted (fold_left ctl_step events (mkCtlServer 0 0 None 0))) as [H1 H2 _].
  { assert (admitted (mkCtlServer 0 0 None 0)) as H by (constructor; try done; unfold maxConcurrentClients; cbn; lia). revert H. generalize (mkCtlServer 0 0 None 0).
    induction events as [|e events IH]; intros s Hs; cbn [fold_left]; [done|]. by apply IH, admitted_step. }
  split; [done|]. split; [unfold maxConcurrentClients in H2; lia|]. split; [apply request_line_bound|]. pose proof (waitDuration_range secs) as H. unfold maxWaitDuration in H. lia.
Qed.

(** ** Ownership *)

(** From the lock to its release. *)
Definition holding (ph : phase) : bool :=
  match ph with PhLocked | PhAbandoned | PhCleared | PhBound | PhServing | PhClosed | PhRemoved => true | _ => false end.

Definition locked_ok (h : Host) : Prop := forall p, holding (phase_of h p) = true -> ho_lock h = Some p.

Lemma phase_become h p ph q : phase_of (become h p ph) q = if bool_decide (p = q) then ph else phase_of h q.
Proof. unfold phase_of, become. cbn [ho_phase]. case_bool_decide as E; [subst q; by rewrite lookup_insert_eq|by rewrite lookup_insert_ne]. Qed.

(** A process moves and the lock does not, or the lock is released by the one
    that holds it. *)
Lemma locked_become h p ph x : locked_ok h -> (holding ph = true -> holding (phase_of h p) = true) -> locked_ok (become (with_entry h x) p ph).
Proof.
  intros H Hp q. rewrite phase_become. case_bool_decide as E; [subst q; intros Hq; by apply (H p), Hp|]. apply H.
Qed.

Lemma locked_release h p ph x : locked_ok h -> holding (phase_of h p) = true -> holding ph = false -> locked_ok (become (with_lock (with_entry h x) None) p ph).
Proof.
  intros H Hp Hph q. rewrite phase_become. case_bool_decide as E; [congruence|]. intros Hq. exfalso. apply E. apply H in Hp. specialize (H q Hq). congruence.
Qed.

Lemma with_entry_id h : with_entry h (ho_entry h) = h.
Proof. by destruct h. Qed.

Lemma locked_step h p : locked_ok h -> locked_ok (owner_step h p).
Proof.
  intros H. unfold owner_step, lockPath, probe_path, remove_abandoned, bind_path, serve_end, close_again. destruct (phase_of h p) eqn:E; try rewrite E.
  - destruct (ho_lock h) eqn:El; [rewrite <- (with_entry_id h); by apply locked_become|]. intros q. rewrite phase_become. case_bool_decide as Eq; [by subst q|]. intros Hq. specialize (H q Hq). congruence.
  - destruct (ho_entry h) as [| |[q|]] eqn:Ee; unfold give_up_start; rewrite <- (with_entry_id h); solve [apply locked_become; [done|by rewrite E]|apply locked_release; [done|by rewrite E|done]].
  - apply locked_become; [done|by rewrite E].
  - destruct (ho_entry h) as [| |q] eqn:Ee; [apply locked_become; [done|by rewrite E]|..]; unfold give_up_start; rewrite <- (with_entry_id h); (apply locked_release; [done|by rewrite E|done]).
  - rewrite <- (with_entry_id h). apply locked_become; [done|by rewrite E].
  - apply locked_become; [done|by rewrite E].
  - apply locked_become; [done|by rewrite E].
  - rewrite <- (with_entry_id h). apply locked_release; [done|by rewrite E|done].
  - by apply locked_become.
  - rewrite <- (with_entry_id h). by apply locked_become.
  - done.
Qed.

#[global] Instance entry_eq_dec : EqDecision entry.
Proof. solve_decision. Defined.

Lemma locked_fails h p : locked_ok h -> locked_ok (listen_fails h p).
Proof.
  intros H. unfold listen_fails, give_up_start. destruct (phase_of h p) eqn:E; try done;
    first [apply locked_release; [done|by rewrite E|done]|rewrite <- (with_entry_id h); solve [by apply locked_become|apply locked_release; [done|by rewrite E|done]]].
Qed.

(** What a crash leaves: the phases of the others, the lock unless the process
    held it, and the path, whose socket it no longer answers. *)
Lemma crash_fields h p :
  ho_phase (owner_crash h p) = <[p := PhExited]> (ho_phase h) /\ ho_lock (owner_crash h p) = (if bool_decide (ho_lock h = Some p) then None else ho_lock h) /\
  ho_entry (owner_crash h p) = (if bool_decide (ho_entry h = EntrySocket (Some p)) then EntrySocket None else ho_entry h).
Proof.
  destruct h as [l x m]. unfold owner_crash, become, with_entry, with_lock. cbn [ho_lock ho_entry ho_phase].
  destruct (bool_decide (l = Some p)); cbn [ho_lock ho_entry ho_phase]; destruct x as [| |[q|]]; cbn [ho_lock ho_entry ho_phase]; try done;
    (destruct (decide (q = p)) as [->|Hne]; [by rewrite !bool_decide_eq_true_2|by rewrite !bool_decide_eq_false_2 by congruence]).
Qed.

Lemma crash_phase h p q : phase_of (owner_crash h p) q = if bool_decide (p = q) then PhExited else phase_of h q.
Proof. unfold phase_of. rewrite (proj1 (crash_fields h p)). exact (phase_become h p PhExited q). Qed.

Lemma locked_crash h p : locked_ok h -> locked_ok (owner_crash h p).
Proof.
  intros H q. rewrite crash_phase. case_bool_decide as E; [done|]. intros Hq. destruct (crash_fields h p) as (_ & -> & _).
  apply H in Hq. rewrite bool_decide_eq_false_2 by congruence. done.
Qed.

(** ** The path belongs to the process that serves *)

(** What the path holds while a process is between the lock and its release. *)
Definition phase_path (p : nat) (ph : phase) (x : entry) : Prop :=
  match ph with
  | PhBound | PhServing => x = EntrySocket (Some p)
  | PhAbandoned => x = EntrySocket None
  | PhCleared | PhClosed | PhRemoved => x = EntryAbsent
  | _ => True
  end.

Definition path_ok (h : Host) : Prop := forall p, phase_path p (phase_of h p) (ho_entry h).

(** No process whose [Serve] has returned calls [Close]. *)
Definition no_late_close (h : Host) (e : owner_event) : Prop := match e with OwnStep p => phase_of h p <> PhReleased | OwnFail _ | OwnCrash _ => True end.


Lemma path_crash h p : path_ok h -> path_ok (owner_crash h p).
Proof.
  intros H q. unfold phase_path. rewrite crash_phase. case_bool_decide as E; [done|]. destruct (crash_fields h p) as (_ & _ & ->). specialize (H q). unfold phase_path in H.
  destruct (phase_of h q); try done; rewrite H; (rewrite bool_decide_eq_false_2 by congruence); done.
Qed.

(** A process between the lock and its release is the only one there is, so
    what it does to the path nobody else relies on. *)
Lemma path_moved h h' p ph : locked_ok h -> path_ok h -> ho_phase h' = <[p := ph]> (ho_phase h) -> holding (phase_of h p) = true \/ ho_entry h' = ho_entry h ->
  phase_path p ph (ho_entry h') -> path_ok h'.
Proof.
  intros Hl H Em Hp Hx q. assert (phase_of h' q = if bool_decide (p = q) then ph else phase_of h q) as -> by (unfold phase_of; rewrite Em; exact (phase_become h p ph q)).
  case_bool_decide as E; [by subst q|]. specialize (H q). destruct Hp as [Hp| ->]; [|done].
  apply Hl in Hp. specialize (Hl q). destruct (phase_of h q); try done; specialize (Hl eq_refl); congruence.
Qed.

Lemma path_step h p : locked_ok h -> path_ok h -> phase_of h p <> PhReleased -> path_ok (owner_step h p).
Proof.
  intros Hl H Hn. pose proof (fun h' ph => path_moved h h' p ph Hl H) as Hm. pose proof (H p) as Hp. unfold owner_step, lockPath, probe_path, remove_abandoned, bind_path, serve_end, close_again, give_up_start.
  destruct (phase_of h p) eqn:E; try done; [destruct (ho_lock h) eqn:El|destruct (ho_entry h) as [| |[q|]] eqn:Ee| |destruct (ho_entry h) as [| |[q|]] eqn:Ee|..];
    try done; (eapply Hm; [reflexivity|solve [by left|by right]|done]).
Qed.

Lemma path_fails h p : locked_ok h -> path_ok h -> path_ok (listen_fails h p).
Proof.
  intros Hl H. pose proof (fun h' ph => path_moved h h' p ph Hl H) as Hm. unfold listen_fails, give_up_start.
  destruct (phase_of h p) eqn:E; try done; (eapply Hm; [reflexivity|solve [by left|by right]|done]).
Qed.

(** ** Any run of any processes *)

(** No process of the run calls [Close] once its [Serve] has returned. *)
Fixpoint no_late_closes (h : Host) (l : list owner_event) : Prop :=
  match l with [] => True | e :: l => no_late_close h e /\ no_late_closes (owner_apply h e) l end.

Lemma owner_run_cons h e l : owner_run h (e :: l) = owner_run (owner_apply h e) l.
Proof. by destruct e. Qed.

Lemma locked_apply h e : locked_ok h -> locked_ok (owner_apply h e).
Proof. destruct e; [apply locked_step|apply locked_fails|apply locked_crash]. Qed.

Lemma locked_run l : forall h, locked_ok h -> locked_ok (owner_run h l).
Proof. induction l as [|e l IH]; intros h H; [done|]. rewrite owner_run_cons. by apply IH, locked_apply. Qed.

Lemma path_run l : forall h, locked_ok h -> path_ok h -> no_late_closes h l -> path_ok (owner_run h l).
Proof.
  induction l as [|e l IH]; intros h Hl Hp Hn; [done|]. rewrite owner_run_cons. destruct Hn as [Hn Hr]. apply IH; [by apply locked_apply| |done].
  destruct e; [by apply path_step|by apply path_fails|by apply path_crash].
Qed.

(** A host on which no process has begun, whatever lies at the path. *)
Definition quiet (x : entry) : Host := mkHost None x ∅.

Lemma quiet_phase x p : phase_of (quiet x) p = PhStart.
Proof. unfold phase_of, quiet. cbn. by rewrite lookup_empty. Qed.

Lemma quiet_ok x : locked_ok (quiet x) /\ path_ok (quiet x).
Proof. split; intros p; rewrite quiet_phase; done. Qed.

(** Claim C17: one daemon owns the control path.  In every interleaving of the
    steps, the failures and the crashes of any number of processes that start at the same
    path, whatever lay there before, at most one is anywhere between taking the
    lock and releasing it, so no start removes or replaces a socket another
    serves; and in a run in which no process calls [Close] after its [Serve] has
    released the lock, the path of a process that serves is its own live
    socket. *)
Theorem control_single_owner x l p q :
  (holding (phase_of (owner_run (quiet x) l) p) = true -> holding (phase_of (owner_run (quiet x) l) q) = true -> p = q) /\
  (no_late_closes (quiet x) l -> phase_of (owner_run (quiet x) l) p = PhServing -> ho_entry (owner_run (quiet x) l) = EntrySocket (Some p)).
Proof.
  destruct (quiet_ok x) as [Hl Hp]. split.
  - intros H1 H2. pose proof (locked_run l _ Hl) as H. apply H in H1, H2. congruence.
  - intros Hn Hs. pose proof (path_run l _ Hl Hp Hn p) as H. by rewrite Hs in H.
Qed.

(** The daemon's second [Close], which its main function defers, runs after
    [Serve] has released the lock: a successor that started in between serves a
    path that is no longer there. *)
Example late_close_unlinks_successor :
  let h := owner_run (quiet EntryAbsent) (repeat (OwnStep 1) 7 ++ repeat (OwnStep 2) 4 ++ [OwnStep 1]) in
  phase_of h 2 = PhServing /\ ho_entry h = EntryAbsent /\ ho_lock h = Some 2%nat.
Proof. vm_compute. done. Qed.

(** A daemon that crashes leaves its socket; the next one clears it and serves,
    a third is turned away at the lock. *)
Definition crash_and_restart : list owner_event := repeat (OwnStep 1) 4 ++ [OwnCrash 1] ++ repeat (OwnStep 2) 2 ++ [OwnStep 3] ++ repeat (OwnStep 2) 3.

Lemma control_single_owner_witness :
  phase_of (owner_run (quiet EntryAbsent) crash_and_restart) 2 = PhServing /\ phase_of (owner_run (quiet EntryAbsent) crash_and_restart) 3 = PhExited /\
  ho_entry (owner_run (quiet EntryAbsent) crash_and_restart) = EntrySocket (Some 2%nat).
Proof.
  assert (phase_of (owner_run (quiet EntryAbsent) crash_and_restart) 2 = PhServing) as H by (vm_compute; reflexivity).
  split; [exact H|]. split; [vm_compute; reflexivity|].
  apply (proj2 (control_single_owner EntryAbsent crash_and_restart 2 2)); [|exact H].
  vm_compute. repeat split; discriminate.
Defined.
