(* ===== verification/ControlClient.v ===== *)
(** * internal/control/client.go and the waitsync command of cmd/carillonctl

    Reading a response line, one call, the loop of [WaitSync] over its attempts,
    and the argument and exit status of carillonctl.  JSON, number syntax and
    the socket are parameters or inputs of an attempt; the printing of the
    other commands is left out. *)

From stdpp Require Import base list strings numbers.
From Stdlib Require Import Lia ZArith SpecFloat.
From S2P Require Import Prelude Float64 GoTime GoStrings NetipParse Exchange Control.

Local Open Scope Z_scope.

(** ** Reading a response *)

Definition maxResponse : nat := Z.to_nat 1048576.
Definition readBuffer : nat := Z.to_nat 65536.
Definition connectRetry : duration := 250 * (Second / 1000).

Inductive ReadError : Type := ErrTooLong | ErrRead.

(** [readLine]: [data] is what the connection delivers before it ends, [eof]
    whether it ends with an end of file or another error; [ReadSlice] returns up
    to a newline, a full buffer, or the end. *)
Fixpoint read_line (fuel limit buffer : nat) (data : str) (eof : bool) (out : str) : option (result ReadError str) :=
  match fuel with
  | O => None
  | S fuel =>
      let window := take buffer data in
      match cut_byte 10 window with
      | Some (line, _) => let out := out ++ line ++ [10] in Some (if (limit <? length out)%nat then Err ErrTooLong else Ok out)
      | None =>
          let out := out ++ window in
          if (limit <? length out)%nat then Some (Err ErrTooLong)
          else if (length data <? buffer)%nat then Some (if negb (length out =? 0)%nat && eof then Ok out else Err ErrRead)
          else read_line fuel limit buffer (drop buffer data) eof out
      end
  end.

Definition readLine (limit buffer : nat) (data : str) (eof : bool) : option (result ReadError str) := read_line (S (length data)) limit buffer data eof [].

(** ** One call *)

(** What becomes of an attempt to reach the daemon: nobody there yet, another
    failure of the connection, or the bytes it sent. *)
Inductive dial : Type := DialStarting | DialFailed | DialAnswered (data : str) (eof : bool).

Inductive CallError : Type := ErrStarting | ErrCall | ErrDecode | ErrDaemon (text : string).

(** The part of a response the client looks at: the error, and whether synced. *)
Record Reply : Type := mkReply { re_Error : string; re_Synced : option bool }.

Section Client.
Context (decode : str -> option Reply).

Definition Call (d : dial) : result CallError Reply :=
  match d with
  | DialStarting => Err ErrStarting
  | DialFailed => Err ErrCall
  | DialAnswered data eof =>
      match readLine maxResponse readBuffer data eof with
      | Some (Ok line) =>
          match decode line with
          | None => Err ErrDecode
          | Some r => if negb (bool_decide (re_Error r = ""%string)) then Err (ErrDaemon (re_Error r)) else Ok r
          end
      | _ => Err ErrCall
      end
  end.

(** An attempt of [WaitSync]: the clock before the call, the call, and the
    clock after it. *)
Record attempt : Type := mkAttempt { at_before : time; at_dial : dial; at_after : time; at_cancelled : bool }.

(** What [WaitSync] did: a request with the time left, a pause. *)
Inductive wait_action : Type := Asked (timeout : option duration) | Paused (now : time) (d : duration).

Inductive wait_result : Type := WaitDone (synced : bool) (err : option CallError) | WaitCancelled | WaitMore.

(** [time.Until] the deadline, if there is one, and whether it has passed. *)
Definition time_left (deadline : option time) (now : time) : option duration := (fun d => Sub d now) <$> deadline.
Definition is_over (deadline : option time) (now : time) : bool := match time_left deadline now with None => false | Some r => r <=? 0 end.

(** The loop over attempts; [WaitMore] when there are no more of them. *)
Fixpoint wait_sync (deadline : option time) (lastErr : option CallError) (l : list attempt) : list wait_action * wait_result :=
  match l with
  | [] => ([], WaitMore)
  | a :: l =>
      if is_over deadline (at_before a) then ([], WaitDone false lastErr)
      else
        let asked := Asked (time_left deadline (at_before a)) in
        match Call (at_dial a) with
        | Ok r => ([asked], WaitDone (match re_Synced r with Some b => b | None => false end) None)
        | Err ErrStarting =>
            if is_over deadline (at_after a) then ([asked], WaitDone false (Some ErrStarting))
            else
              let pause := match time_left deadline (at_after a) with None => connectRetry | Some r => if r <? connectRetry then r else connectRetry end in
              if at_cancelled a then ([asked; Paused (at_after a) pause], WaitCancelled)
              else let '(acts, res) := wait_sync deadline (Some ErrStarting) l in (asked :: Paused (at_after a) pause :: acts, res)
        | Err e => ([asked], WaitDone false (Some e))
        end
  end.

Definition WaitSync (start : time) (timeout : duration) (l : list attempt) : list wait_action * wait_result :=
  wait_sync (if 0 <? timeout then Some (Add start timeout) else None) None l.
End Client.

(** ** carillonctl waitsync *)

(** 9.223372e9. *)
Definition maxWaitSyncSeconds : f64 := of_Z 9223372000.

(** [parseWaitTimeout] on what the number parser says. *)
Definition parseWaitTimeout (parsed : option f64) : option f64 :=
  match parsed with
  | None => None
  | Some secs =>
      if is_nan secs || flt secs fzero || fgt secs maxWaitSyncSeconds then None
      else if fgt secs fzero && (duration_of (fmul secs (of_Z Second)) <=? 0) then None
      else Some secs
  end.

Definition wait_timeout (secs : f64) : duration := duration_of (fmul secs (of_Z Second)).

(** The exit status: 2 for a failure, 1 for not synchronized. *)
Definition waitsync_status (r : wait_result) : option Z :=
  match r with
  | WaitDone _ (Some _) => Some 2
  | WaitDone synced None => Some (if synced then 0 else 1)
  | WaitCancelled => Some 2
  | WaitMore => None
  end.

(** ** Reading in pieces is reading the line *)

Lemma cut_byte_app c a b : cut_byte c (a ++ b) =
  match cut_byte c a with
  | Some (l, r) => Some (l, r ++ b)
  | None => match cut_byte c b with Some (l, r) => Some (a ++ l, r) | None => None end
  end.
Proof.
  induction a as [|x a IH]; cbn [app cut_byte]; [by destruct (cut_byte c b) as [[]|]|]. case_goal; [done|]. rewrite IH. destruct (cut_byte c a) as [[l r]|]; [done|]. by destruct (cut_byte c b) as [[l r]|].
Qed.

Lemma cut_byte_length c s l r : cut_byte c s = Some (l, r) -> (length l < length s)%nat.
Proof.
  revert l r. induction s as [|x s IH]; intros l r; cbn [cut_byte]; [done|]. case_goal; [intros [= <- <-]; cbn; lia|]. destruct (cut_byte c s) as [[l' r']|]; [|done]. intros [= <- <-]. specialize (IH _ _ eq_refl). cbn. lia.
Qed.

(** The line by its definition: up to and with the newline, or all of it. *)
Definition line_of (limit : nat) (data : str) (eof : bool) : result ReadError str :=
  match cut_byte 10 data with
  | Some (line, _) => if (limit <? S (length line))%nat then Err ErrTooLong else Ok (line ++ [10])
  | None => if (limit <? length data)%nat then Err ErrTooLong else if negb (length data =? 0)%nat && eof then Ok data else Err ErrRead
  end.

Lemma read_line_spec limit buffer eof : (0 < buffer)%nat -> forall fuel data out, (length data < fuel)%nat -> cut_byte 10 out = None ->
  read_line fuel limit buffer data eof out = Some (line_of limit (out ++ data) eof).
Proof.
  intros Hb fuel. induction fuel as [|fuel IH]; intros data out Hf Ho; [lia|]. cbn [read_line]. cbv zeta. unfold line_of. rewrite cut_byte_app, Ho.
  assert (cut_byte 10 data = cut_byte 10 (take buffer data ++ drop buffer data)) as -> by (by rewrite take_drop). rewrite cut_byte_app. destruct (cut_byte 10 (take buffer data)) as [[line r]|] eqn:E.
  - rewrite !length_app. cbn [length]. rewrite <- app_assoc. replace (length out + (length line + 1))%nat with (S (length out + length line)) by lia. done.
  - destruct (limit <? length (out ++ take buffer data))%nat eqn:El.
    { apply Nat.ltb_lt in El. rewrite length_app in El. pose proof (length_take data buffer) as Ht. assert (length (take buffer data) <= length data)%nat by lia.
      destruct (cut_byte 10 (drop buffer data)) as [[l2 r2]|]; (rewrite (proj2 (Nat.ltb_lt _ _)); [done|rewrite !length_app; lia]). }
    destruct (length data <? buffer)%nat eqn:Es.
    + apply Nat.ltb_lt in Es. rewrite take_ge in El |- * by lia. rewrite drop_ge by lia. cbn [cut_byte]. by rewrite El.
    + apply Nat.ltb_ge in Es. rewrite IH; [|rewrite length_drop; lia|by rewrite cut_byte_app, Ho, E]. unfold line_of. rewrite !cut_byte_app, Ho, E. rewrite <- app_assoc, take_drop.
      destruct (cut_byte 10 (drop buffer data)) as [[l2 r2]|]; [|done]. by rewrite app_assoc.
Qed.

(** A response read through a buffer of any size is its line, at most as long
    as the limit. *)
Theorem readLine_whole limit buffer data eof : (0 < buffer)%nat -> readLine limit buffer data eof = Some (line_of limit data eof).
Proof. intros Hb. unfold readLine. by rewrite read_line_spec by (done || lia). Qed.

(** ** Waiting ends in time *)

(** What an action may be under a deadline: a request with time left, and a
    pause that ends by the deadline. *)
Definition within (deadline : time) (a : wait_action) : Prop :=
  match a with
  | Asked t => exists d, t = Some d /\ 0 < d
  | Paused now d => 0 < d <= connectRetry /\ now + d <= deadline
  end.

Lemma wait_sync_within decode deadline l : forall lastErr, Forall (within deadline) (wait_sync decode (Some deadline) lastErr l).1.
Proof.
  induction l as [|a l IH]; intros lastErr; cbn [wait_sync]; [constructor|]. unfold is_over, time_left. cbn [fmap option_fmap option_map]. cbv zeta. case_goal; [constructor|]. bool_step.
  assert (within deadline (Asked (Some (Sub deadline (at_before a))))) as Ha by (eexists; split; [done|lia]).
  destruct (Call decode (at_dial a)) as [r|[]]; try (by constructor; [exact Ha|constructor]). case_goal; [by constructor; [exact Ha|constructor]|]. bool_step.
  assert (within deadline (Paused (at_after a) (if Sub deadline (at_after a) <? connectRetry then Sub deadline (at_after a) else connectRetry))) as Hp.
  { cbn [within]. assert (connectRetry = 250000000) as -> by reflexivity. clear Ha IH. unfold Sub in *. case_goal; bool_step; lia. }
  case_goal; [by constructor; [exact Ha|constructor; [exact Hp|constructor]]|]. specialize (IH (Some ErrStarting)). destruct (wait_sync decode (Some deadline) (Some ErrStarting) l) as [acts res]. constructor; [exact Ha|]. by constructor.
Qed.

(** A failure the loop retries, and one it returns. *)
Lemma wait_sync_result decode deadline l : forall lastErr, (forall e, lastErr = Some e -> e = ErrStarting) ->
  match (wait_sync decode deadline lastErr l).2 with
  | WaitDone true err => err = None /\ exists a r, a ∈ l /\ Call decode (at_dial a) = Ok r /\ re_Synced r = Some true
  | WaitDone false None => True
  | WaitDone false (Some e) => e = ErrStarting \/ exists a, a ∈ l /\ Call decode (at_dial a) = Err e
  | WaitCancelled => exists a, a ∈ l /\ at_cancelled a = true
  | WaitMore => Forall (fun a => Call decode (at_dial a) = Err ErrStarting) l
  end.
Proof.
  induction l as [|a l IH]; intros lastErr Hl; cbn [wait_sync]; [constructor|]. cbv zeta. destruct (is_over deadline (at_before a)); cbn [snd].
  { destruct lastErr as [e|]; [|done]. left. by apply Hl. }
  destruct (Call decode (at_dial a)) as [r|e] eqn:E; [|destruct e]; cbn [snd]; try (right; exists a; split; [by left|done]); [destruct (re_Synced r) as [[]|] eqn:Er; try done; split; [done|]; exists a, r; split; [by left|done]|].
  - destruct (is_over deadline (at_after a)); cbn [snd]; [by left|]. destruct (at_cancelled a) eqn:Ec; cbn [snd]; [exists a; split; [by left|done]|].
    specialize (IH (Some ErrStarting)). destruct (wait_sync decode deadline (Some ErrStarting) l) as [acts res]. cbn [snd] in *.
    assert (match res with WaitMore => Forall (fun a => Call decode (at_dial a) = Err ErrStarting) l | _ => True end) as Hm by (destruct res; [done|done|by apply IH; intros ? [= <-]]).
    destruct res as [[] [e|]| |]; [..|by constructor]; specialize (IH (fun e H => eq_sym (f_equal (default ErrStarting) H))); try done.
    + destruct IH as [? _]. done.
    + destruct IH as (? & b & r & Hb & H). split; [done|]. exists b, r. split; [by right|done].
    + destruct IH as [?|(b & Hb & H)]; [by left|]. right. exists b. split; [by right|done].
    + destruct IH as (b & Hb & H). exists b. split; [by right|done].
Qed.

(** Waiting for the daemon keeps its deadline and its word.  With a timeout,
    every request is sent with time left and every pause ends by the deadline;
    a positive answer is the daemon's own answer to one of the attempts, and the
    only failures that are retried are those of a daemon that is still starting.
    An argument that is accepted waits for ever only if it is zero. *)
Theorem waitsync_kept decode start timeout l parsed secs :
  (0 < timeout -> Forall (within (start + timeout)) (WaitSync decode start timeout l).1) /\
  (forall err, (WaitSync decode start timeout l).2 = WaitDone true err -> exists a r, a ∈ l /\ Call decode (at_dial a) = Ok r /\ re_Synced r = Some true) /\
  ((WaitSync decode start timeout l).2 = WaitMore -> Forall (fun a => Call decode (at_dial a) = Err ErrStarting) l) /\
  (parseWaitTimeout parsed = Some secs -> fgt secs fzero = true -> 0 < wait_timeout secs).
Proof.
  unfold WaitSync. pose proof (fun d => wait_sync_result decode d l None) as Hr. split; [|split; [|split]].
  - intros Ht. rewrite (proj2 (Z.ltb_lt _ _) Ht). apply wait_sync_within.
  - intros err E. specialize (Hr (if 0 <? timeout then Some (Add start timeout) else None)). rewrite E in Hr. by apply Hr.
  - intros E. specialize (Hr (if 0 <? timeout then Some (Add start timeout) else None)). rewrite E in Hr. by apply Hr.
  - unfold parseWaitTimeout, wait_timeout. destruct parsed as [x|]; [|done]. case_goal; [done|]. destruct (fgt x fzero && _) eqn:E; [done|]. intros [= <-] Hx. rewrite Hx in E. cbn [andb] in E. bool_step. lia.
Qed.
