(* ===== verification/Monitor.v ===== *)
(** * internal/monitor: health and metrics over HTTP

    The health assessment of a snapshot, the response of the two JSON
    endpoints, who is let in, and the series a scrape exports.  net/http, JSON
    and the Prometheus registry are outside; what the registry refuses (a series
    sent twice, a series whose labels do not fit its description) is what the
    theorems of MonitorSound rule out. *)

From stdpp Require Import base list strings numbers.
From Stdlib Require Import Lia ZArith.
From S2P Require Import Prelude Float64 GoTime GoStrings Netip NetipParse NtpTime NtpPacket Measurement Select Loop System ServerStats GoDate GoText LeapTable LeapStore Refclock EngineLeap Engine LeapUpdater StatusText Control.

Local Open Scope Z_scope.

(** ** Health *)

(** [statusHealthy], [statusDegraded], [statusUnhealthy]. *)
Inductive HealthStatus : Type := Healthy | Degraded | Unhealthy.

#[export] Instance HealthStatus_eq_dec : EqDecision HealthStatus.
Proof. solve_decision. Defined.

Record Health : Type := mkHealth { he_Status : HealthStatus; he_Reasons : list string; he_SnapshotAge : f64 }.

#[export] Instance Health_eta : Eta Health := fun h => mkHealth (he_Status h) (he_Reasons h) (he_SnapshotAge h).

Definition snapshotStaleSeconds : f64 := of_Z 5.

Definition because (reason : string) (h : Health) : Health := h <| he_Reasons := he_Reasons h ++ [reason] |>.

(** What has been lost, where the clock is still worth using; and what makes
    it not. *)
Definition degrade (reason : string) (h : Health) : Health :=
  because reason (if bool_decide (he_Status h = Healthy) then h <| he_Status := Degraded |> else h).
Definition condemn (reason : string) (h : Health) : Health := because reason (h <| he_Status := Unhealthy |>).

Definition snapshot_age (st : EngineStatus) (mono : f64) : f64 :=
  let age := fsub mono (es_PublishedMono st) in if flt age fzero || feq (es_PublishedMono st) fzero then fzero else age.

(** The checks of [healthOf], in order. *)
Definition check_state (st : EngineStatus) (h : Health) : Health :=
  match st_State (es_sys st) with
  | StateSynced => h
  | StateHoldover => because "holdover" (h <| he_Status := Degraded |>)
  | s => because (State_String s) (h <| he_Status := Unhealthy |>)
  end.

Definition check_expiry (st : EngineStatus) (h : Health) : Health :=
  if IsZero (es_LeapExpiry st) then h
  else
    let utc := if After (es_UTCbound st) (es_Now st) then es_UTCbound st else es_Now st in
    let remaining := Sub (es_LeapExpiry st) utc in
    if remaining <=? 0 then (if negb (es_LeapRequired st) then degrade else condemn) "leapfile_expired" h
    else if remaining <=? 30 * 24 * Hour then degrade "leapfile_expiring" h
    else h.

Definition healthOf (st : EngineStatus) (update : UpdateStatus) (mono : f64) : Health :=
  let age := snapshot_age st mono in
  let h := check_state st (mkHealth Healthy [] age) in
  let h := if st_PreferLost (es_sys st) then degrade "preferred_source_lost" h else h in
  let h := if IsZero (es_Now st) || fgt age snapshotStaleSeconds then condemn "snapshot_stale" h else h in
  let h := if es_LeapRequired st && negb (es_LeapReady st) then condemn "leap_table_unavailable" h else h in
  let h := if es_LeapDisagreement st then degrade "leap_source_disagreement" h else h in
  let h := if bool_decide (us_LastRejection update = "conflict"%string) || bool_decide (us_LastRejection update = "armed"%string)
           then degrade "leap_conflict" h else h in
  check_expiry st h.

(** ** Snapshots *)

Record Metadata : Type := mkMetadata { md_ID : string; md_Name : string; md_Roles : list string }.

Record MonSnapshot : Type := mkMonSnapshot {
  ms_SnapshotAt : time; ms_ServedAt : time;
  ms_Instance : Metadata * string * time * f64;        (* version, started, uptime *)
  ms_Health : Health;
  ms_Tracking : Tracking; ms_Counts : Counts;
  ms_Sources : list CtlSource; ms_Refclocks : list CtlRefclock;
  ms_ServerEnabled : bool; ms_Server : CounterStats * CounterStats * CounterStats
}.

(** The engine's snapshot with its sources' information and the leap
    acquisition, at the wall and monotonic time of the request. *)
Definition SnapshotOf (st : EngineStatus) (infos : list (string * SourceInfo)) (update : UpdateStatus * Counts) (built : string) (stats : StatsSnapshot) (serverEnabled : bool)
    (meta : Metadata) (servedAt : time) (mono : f64) (startedAt : time) : MonSnapshot :=
  mkMonSnapshot (es_Now st) servedAt (meta, built, startedAt, Seconds (es_Uptime st)) (healthOf st (fst update) mono) (TrackingOf st (fst update) built) (snd update)
    (SourcesOf st infos) (RefclocksOf st infos) serverEnabled (ServerStatsOf stats).

(** ** The service *)

Inductive MonitorError : Type := ErrMonitorListen | ErrMonitorAllow | ErrMonitorPrefix (i : nat).

Fixpoint masked_allow (i : nat) (l : list Prefix) : result MonitorError (list Prefix) :=
  match l with
  | [] => Ok []
  | p :: l =>
      if negb (prefix_valid p) then Err (ErrMonitorPrefix i)
      else match masked_allow (S i) l with Ok ps => Ok (Masked p :: ps) | Err e => Err e end
  end.

(** The address and the prefixes [Listen] goes on with. *)
Definition monitor_listen (listen : AddrPort) (allow : list Prefix) : result MonitorError (AddrPort * list Prefix) :=
  if negb (IsValid (ap_addr listen)) then Err ErrMonitorListen
  else if (length allow =? 0)%nat then Err ErrMonitorAllow
  else
    match masked_allow 0 allow with
    | Err e => Err e
    | Ok ps => Ok (if Is4 (Unmap (ap_addr listen)) then mkAddrPort (Unmap (ap_addr listen)) (ap_port listen) else listen, ps)
    end.

Definition WithoutZone (a : Addr) : Addr := match a with Addr6 n _ => Addr6 n "" | _ => a end.

Definition allowPeers (allow : list Prefix) (remote : str) : bool :=
  match ParseAddrPort remote with
  | None => false
  | Some peer => existsb (fun p => Contains p (WithoutZone (Unmap (ap_addr peer)))) allow
  end.

Inductive MonEndpoint : Type := EpStatus | EpHealthz.

(** What is sent as JSON. *)
Inductive MonBody : Type := BodyStatus (s : MonSnapshot) | BodyHealth (at_ : time) (h : Health).

(** The code and the body, none for an error text. *)
Section Endpoints.
Context (encode : MonBody -> option str).

Definition writeJSON (code : Z) (b : MonBody) : Z * option str :=
  match encode b with None => (500, None) | Some body => (code, Some (body ++ [10])) end.

Definition endpoint (e : MonEndpoint) (s : MonSnapshot) : Z * option str :=
  match e with
  | EpStatus => writeJSON 200 (BodyStatus s)
  | EpHealthz => writeJSON (if bool_decide (he_Status (ms_Health s) = Unhealthy) then 503 else 200) (BodyHealth (ms_SnapshotAt s) (ms_Health s))
  end.

Definition monitor_request (allow : list Prefix) (remote : str) (e : MonEndpoint) (s : MonSnapshot) : Z * option str :=
  if allowPeers allow remote then endpoint e s else (403, None).
End Endpoints.

(** ** Metrics *)

Inductive MetricKind : Type := Gauge | Counter.
Record Metric : Type := mkMetric { mt_Name : string; mt_Labels : list str; mt_Kind : MetricKind; mt_Value : f64 }.

Definition mgauge (name : string) (value : f64) (labels : list str) : Metric := mkMetric name labels Gauge value.
Definition mcounter (name : string) (value : Z) (labels : list str) : Metric := mkMetric name labels Counter (of_Z value).
Definition boolValue (v : bool) : f64 := if v then of_Z 1 else fzero.

Definition timestampSeconds (t : time) : f64 := if IsZero t then fzero else fdiv (of_Z (UnixNano t)) (of_Z 1000000000).
Definition optionalTimestampSeconds (t : option time) : f64 := match t with None => fzero | Some t => timestampSeconds t end.

(** The descriptions, in the order of [Describe]: a name and its labels. *)
Definition Describe : list (string * list string) :=
  [("carillon_state", ["state"]); ("carillon_offset_seconds", []); ("carillon_frequency_ppm", []); ("carillon_jitter_seconds", []);
   ("carillon_root_dispersion_seconds", []); ("carillon_stratum", []); ("carillon_steps_total", []); ("carillon_updates_total", []); ("carillon_leap_pending", []);
   ("carillon_leapfile_expiry_timestamp_seconds", []); ("carillon_leapfile_valid", []); ("carillon_build_info", ["version"]);
   ("carillon_leap_ready", []); ("carillon_leap_table_required", []); ("carillon_leap_data_updated_timestamp_seconds", []); ("carillon_leap_events_total", ["result"]);
   ("carillon_source_offset_seconds", ["source"]); ("carillon_source_delay_seconds", ["source"]); ("carillon_source_jitter_seconds", ["source"]);
   ("carillon_source_root_distance_seconds", ["source"]); ("carillon_source_reach", ["source"]); ("carillon_source_selected", ["source"]);
   ("carillon_source_receive_timestamp_seconds", ["source"]); ("carillon_source_kernel_timestamp_missing_total", ["source"]);
   ("carillon_source_events_total", ["source"; "result"]);
   ("carillon_pps_samples_total", ["source"; "result"]); ("carillon_pps_jitter_seconds", ["source"]); ("carillon_pps_locked", ["source"]);
   ("carillon_gps_fix_valid", ["source"]); ("carillon_gps_satellites", ["source"]); ("carillon_gps_nmea_lag_seconds", ["source"]);
   ("carillon_server_enabled", []); ("carillon_server_requests_total", ["family"; "result"]); ("carillon_server_unsynced_replies_total", ["family"]);
   ("carillon_server_kod_replies_total", ["family"]); ("carillon_server_refused_mode_total", ["family"; "mode"]);
   ("carillon_server_client_version_total", ["family"; "version"]); ("carillon_server_clients", ["family"]); ("carillon_server_kernel_drops_total", ["family"]);
   ("carillon_server_last_request_timestamp_seconds", ["family"]); ("carillon_server_last_served_timestamp_seconds", ["family"]);
   ("carillon_server_kernel_timestamp_missing_total", ["family"])]%string.

Definition collect_system (s : MonSnapshot) : list Metric :=
  let t := ms_Tracking s in let y := tk_sys t in let c := ms_Counts s in
  [mgauge "carillon_state" (of_Z 1) [str_of (tk_State t)]; mgauge "carillon_offset_seconds" (st_Offset y) []; mgauge "carillon_frequency_ppm" (st_Frequency y) [];
   mgauge "carillon_jitter_seconds" (st_Jitter y) []; mgauge "carillon_root_dispersion_seconds" (st_RootDisp y) []; mgauge "carillon_stratum" (of_Z (tk_Stratum t)) [];
   mcounter "carillon_steps_total" (u64 (st_Steps y)) []; mcounter "carillon_updates_total" (u64 (st_Updates y)) [];
   mgauge "carillon_leap_pending" (boolValue (bool_decide (tk_Leap t = "insert"%string) || bool_decide (tk_Leap t = "delete"%string))) [];
   mgauge "carillon_leapfile_expiry_timestamp_seconds" (optionalTimestampSeconds (tk_LeapExpiry t)) []; mgauge "carillon_leapfile_valid" (boolValue (tk_LeapValid t)) [];
   mgauge "carillon_leap_ready" (boolValue (tk_LeapReady t)) []; mgauge "carillon_leap_table_required" (boolValue (tk_LeapRequired t)) [];
   mgauge "carillon_leap_data_updated_timestamp_seconds" (optionalTimestampSeconds (r ← tk_LeapRecord t; optionalTime (t_Updated (ob_table (lr_Object r))))) []] ++
  ((fun '(label, n) => mcounter "carillon_leap_events_total" n [str_of label]) <$>
     [("probes", ct_Probes c); ("bytes", ct_Bytes c); ("accepted", ct_Accepted c); ("failures", ct_Failures c); ("rollback", ct_Rollback c);
      ("conflict", ct_Conflict c); ("cache_failures", ct_CacheFailures c); ("served", ct_Served c); ("rate_limited", ct_RateLimited c)]%string) ++
  [mgauge "carillon_build_info" (of_Z 1) [str_of (tk_Version t)]].

Definition collect_source (s : CtlSource) : list Metric :=
  let name := str_of (so_Name s) in
  [mgauge "carillon_source_offset_seconds" (so_Offset s) [name]; mgauge "carillon_source_delay_seconds" (so_Delay s) [name];
   mgauge "carillon_source_jitter_seconds" (so_Jitter s) [name]; mgauge "carillon_source_root_distance_seconds" (so_Distance s) [name];
   mgauge "carillon_source_reach" (of_Z (so_Reach s)) [name]; mgauge "carillon_source_selected" (boolValue (bool_decide (so_Status s = "system"%string))) [name];
   mgauge "carillon_source_receive_timestamp_seconds" (optionalTimestampSeconds (so_LastRx s)) [name];
   mcounter "carillon_source_kernel_timestamp_missing_total" (so_NoKernelTS s) [name]] ++
  ((fun '(result, n) => mcounter "carillon_source_events_total" n [name; str_of result]) <$>
     [("sent", so_Sent s); ("received", so_Received s); ("timeout", so_Timeouts s); ("bogus", so_Bogus s); ("bad_auth", so_BadAuth s); ("kiss", so_Kiss s); ("stale", so_Stale s)]%string).

Definition collect_refclock (r : CtlRefclock) : list Metric :=
  let name := str_of (cr_Name r) in let i := cr_info r in
  (if bool_decide (cr_Type r = "pps"%string) || bool_decide (cr_Type r = "gps-pps"%string) then
     ((fun '(result, n) => mcounter "carillon_pps_samples_total" n [name; str_of result]) <$>
        [("ok", r_Samples i); ("timeout", r_Timeouts i); ("gap", r_Gaps i); ("glitch", r_Glitches i); ("spike", r_Spikes i)]%string) ++
     [mgauge "carillon_pps_jitter_seconds" (r_WindowJitter i) [name]; mgauge "carillon_pps_locked" (boolValue (cr_Locked r)) [name]]
   else []) ++
  (if bool_decide (cr_Type r = "gps-nmea"%string) then
     [mgauge "carillon_gps_fix_valid" (boolValue (r_FixValid i)) [name]; mgauge "carillon_gps_satellites" (of_Z (r_Satellites i)) [name];
      mgauge "carillon_gps_nmea_lag_seconds" (r_MeasuredLag i) [name]]
   else []).

Definition serverResults (v : CounterStats) : list (string * Z) :=
  let c := cs_counts v in
  [("served", Served c); ("denied", Denied c); ("martian", Martian c); ("rate_limited", RateLimited c); ("bad_auth", BadAuth c); ("bad_version", BadVersion c);
   ("non_client", NonClient c); ("malformed", Malformed c); ("oversize", Oversize c)]%string.

(** [ModeOrder] and [VersionOrder]. *)
Definition ModeOrder : list string := ["reserved"; "symmetric-active"; "symmetric-passive"; "server"; "broadcast"; "control"; "private"]%string.
Definition VersionOrder : list Z := [1; 2; 3; 4].

Definition collectFamily (family : string) (v : CounterStats) : list Metric :=
  let f := str_of family in let c := cs_counts v in
  ((fun '(result, n) => mcounter "carillon_server_requests_total" n [f; str_of result]) <$> serverResults v) ++
  [mcounter "carillon_server_unsynced_replies_total" (Unsynced c) [f]; mcounter "carillon_server_kod_replies_total" (KoD c) [f]] ++
  ((fun mode => mcounter "carillon_server_refused_mode_total" (default 0 (snd <$> List.find (fun e => bool_decide (fst e = mode)) (cs_Modes v))) [f; str_of mode]) <$> ModeOrder) ++
  ((fun n => mcounter "carillon_server_client_version_total" (default 0 (snd <$> List.find (fun e => bool_decide (fst e = n)) (cs_Versions v))) [f; FormatUint n]) <$> VersionOrder) ++
  [mgauge "carillon_server_clients" (of_Z (Clients c)) [f]; mcounter "carillon_server_kernel_drops_total" (KernelDrops c) [f];
   mcounter "carillon_server_kernel_timestamp_missing_total" (NoKernelTS c) [f];
   mgauge "carillon_server_last_request_timestamp_seconds" (optionalTimestampSeconds (cs_LastRequest v)) [f];
   mgauge "carillon_server_last_served_timestamp_seconds" (optionalTimestampSeconds (cs_LastServed v)) [f]].

Definition Collect (s : MonSnapshot) : list Metric :=
  let '(_, ipv4, ipv6) := ms_Server s in
  collect_system s ++ (ms_Sources s ≫= collect_source) ++ (ms_Refclocks s ≫= collect_refclock) ++
  [mgauge "carillon_server_enabled" (boolValue (ms_ServerEnabled s)) []] ++ collectFamily "ipv4" ipv4 ++ collectFamily "ipv6" ipv6.
