(* ===== verification/MonitorSound.v ===== *)
(** * What the monitoring service reports

    The health status is the worst of the reasons given for it, the health
    probe answers 200 exactly while the clock is worth using, and a scrape is
    one the Prometheus registry takes, in which the requests of the NTP listeners
    add up to the datagrams they read. *)

From stdpp Require Import base list strings numbers gmap.
From Stdlib Require Import Lia ZArith.
From S2P Require Import Prelude Float64 GoTime GoStrings Netip NetipParse NtpTime NtpPacket Measurement Select Loop System ServerStats GoDate GoText LeapTable LeapStore Responder Listener Refclock EngineLeap Engine LeapUpdater StatusText Control Monitor.

Local Open Scope Z_scope.

(** ** Health *)

Definition degrading : list string := ["holdover"; "preferred_source_lost"; "leap_source_disagreement"; "leap_conflict"; "leapfile_expiring"]%string.

(** What a reason means for a snapshot. *)
Definition severity (st : EngineStatus) (reason : string) : HealthStatus :=
  if bool_decide (reason ∈ degrading) || (bool_decide (reason = "leapfile_expired"%string) && negb (es_LeapRequired st)) then Degraded else Unhealthy.

Definition worse (a b : HealthStatus) : HealthStatus :=
  match a, b with Unhealthy, _ | _, Unhealthy => Unhealthy | Degraded, _ | _, Degraded => Degraded | _, _ => Healthy end.
Definition worst (l : list HealthStatus) : HealthStatus := fold_left worse l Healthy.

Lemma worst_snoc l x : worst (l ++ [x]) = worse (worst l) x.
Proof. unfold worst. by rewrite fold_left_app. Qed.

Lemma worst_none st l : worst (severity st <$> l) = Healthy <-> l = [].
Proof.
  split; [|by intros ->]. destruct (decide (l = [])) as [?|Hl]; [done|]. destruct (exists_last Hl) as (k & r & ->). rewrite fmap_app. cbn [fmap list_fmap]. rewrite worst_snoc.
  unfold severity at 2. case_goal; destruct (worst _); done.
Qed.

Definition explained (st : EngineStatus) (h : Health) : Prop := he_Status h = worst (severity st <$> he_Reasons h).

Lemma explained_degrade st reason h : severity st reason = Degraded -> explained st h -> explained st (degrade reason h).
Proof.
  unfold explained, degrade, because. intros Hs Hh. cbn [he_Status he_Reasons set]. rewrite fmap_app. cbn [fmap list_fmap]. rewrite worst_snoc, Hs.
  case_bool_decide as E; cbn [he_Status he_Reasons set]; rewrite <- Hh; [by rewrite E|]. by destruct (he_Status h).
Qed.

Lemma explained_condemn st reason h : severity st reason = Unhealthy -> explained st (condemn reason h).
Proof.
  unfold explained, condemn, because. intros Hs. cbn [he_Status he_Reasons set]. rewrite fmap_app. cbn [fmap list_fmap]. rewrite worst_snoc, Hs. by destruct (worst _).
Qed.

Lemma explained_expiry st h : explained st h -> explained st (check_expiry st h).
Proof.
  intros Hh. unfold check_expiry. case_goal; [done|]. cbv zeta. case_goal; [|case_goal; [by apply explained_degrade|done]].
  destruct (es_LeapRequired st) eqn:E; cbn [negb]; [apply explained_condemn|apply explained_degrade; [|done]]; unfold severity; rewrite E; reflexivity.
Qed.

Lemma healthOf_explained st update mono : explained st (healthOf st update mono).
Proof.
  assert (forall b r h, severity st r = Degraded -> explained st h -> explained st (if b : bool then degrade r h else h)) as Hd by (intros [] r h Hr Hh; [by apply explained_degrade|done]).
  assert (forall b r h, severity st r = Unhealthy -> explained st h -> explained st (if b : bool then condemn r h else h)) as Hc by (intros [] r h Hr Hh; [by apply explained_condemn|done]).
  unfold healthOf. cbv zeta. apply explained_expiry, Hd, Hd, Hc, Hc, Hd; try reflexivity.
  unfold check_state, explained. destruct (st_State (es_sys st)); reflexivity.
Qed.

(** The clock is worth using: synchronized or held over, published within the
    last five seconds, under a current leap table where one is required. *)
Definition worth_using (st : EngineStatus) (mono : f64) : bool :=
  let utc := if After (es_UTCbound st) (es_Now st) then es_UTCbound st else es_Now st in
  (bool_decide (st_State (es_sys st) = StateSynced) || bool_decide (st_State (es_sys st) = StateHoldover)) &&
  negb (IsZero (es_Now st)) && (feq (es_PublishedMono st) fzero || negb (fgt (fsub mono (es_PublishedMono st)) (of_Z 5))) &&
  (negb (es_LeapRequired st) || es_LeapReady st && (IsZero (es_LeapExpiry st) || (0 <? Sub (es_LeapExpiry st) utc))).

(** A clamped age is over the limit exactly when the age is. *)
Lemma stale_age st mono : fgt (snapshot_age st mono) snapshotStaleSeconds = negb (feq (es_PublishedMono st) fzero || negb (fgt (fsub mono (es_PublishedMono st)) (of_Z 5))).
Proof.
  unfold snapshot_age. cbv zeta. set (age := fsub mono (es_PublishedMono st)). destruct (feq (es_PublishedMono st) fzero); [by rewrite orb_true_r|]. rewrite orb_false_r. cbn [orb]. rewrite negb_involutive.
  destruct age as [[]|[]| |[] m e]; reflexivity.
Qed.

Lemma degrade_unhealthy r h : bool_decide (he_Status (degrade r h) = Unhealthy) = bool_decide (he_Status h = Unhealthy).
Proof. unfold degrade, because. destruct h as [[] l age]; reflexivity. Qed.

Lemma healthOf_unhealthy st update mono : bool_decide (he_Status (healthOf st update mono) = Unhealthy) = negb (worth_using st mono).
Proof.
  assert (forall b r h, bool_decide (he_Status (if b : bool then degrade r h else h) = Unhealthy) = bool_decide (he_Status h = Unhealthy)) as Hd by (intros [] r h; [apply degrade_unhealthy|done]).
  assert (forall b r h, bool_decide (he_Status (if b : bool then condemn r h else h) = Unhealthy) = (b || bool_decide (he_Status h = Unhealthy))) as Hc by (intros [] r h; done).
  assert (forall h, bool_decide (he_Status (check_expiry st h) = Unhealthy) =
    ((es_LeapRequired st && negb (IsZero (es_LeapExpiry st) || (0 <? Sub (es_LeapExpiry st) (if After (es_UTCbound st) (es_Now st) then es_UTCbound st else es_Now st)))) || bool_decide (he_Status h = Unhealthy))) as He.
  { intros h. unfold check_expiry. destruct (IsZero (es_LeapExpiry st)); [by rewrite andb_false_r|]. cbv zeta. cbn [orb]. set (rem := Sub _ _). rewrite Z.leb_antisym.
    destruct (0 <? rem); cbn [negb]; [rewrite andb_false_r; by rewrite Hd|]. destruct (es_LeapRequired st); cbn [negb andb orb]; [done|apply degrade_unhealthy]. }
  unfold healthOf, worth_using. cbv zeta. rewrite He, Hd, Hd, Hc, Hc, Hd, stale_age. set (stale := feq _ _ || _). set (left := IsZero (es_LeapExpiry st) || _). clearbody left stale.
  unfold check_state. destruct (st_State (es_sys st)), (IsZero (es_Now st)), stale, (es_LeapRequired st), (es_LeapReady st), left; reflexivity.
Qed.

(** Claim C18: the health probe tells whether to use the clock.  The status is
    the worst of the reasons given for it, so it is healthy exactly when there
    is none.  To a peer of the allowed networks the probe answers 200 exactly
    when the snapshot says synchronized or holdover, is at most five seconds
    old by the monotonic clock, however the wall clock was stepped, and has the
    leap authority ready and unexpired where it is required, and 503 otherwise;
    anyone else is refused before anything is read, and a body that does not
    encode is an error, never an empty success. *)
Theorem monitor_health encode allow remote st infos update built stats enabled meta servedAt mono startedAt :
  let s := SnapshotOf st infos update built stats enabled meta servedAt mono startedAt in
  let h := ms_Health s in
  he_Status h = worst (severity st <$> he_Reasons h) /\ (he_Status h = Healthy <-> he_Reasons h = []) /\
  monitor_request encode allow remote EpHealthz s =
    (if negb (allowPeers allow remote) then (403, None)
     else match encode (BodyHealth (es_Now st) h) with
          | None => (500, None)
          | Some body => (if worth_using st mono then 200 else 503, Some (body ++ [10]))
          end).
Proof.
  cbv zeta. pose proof (healthOf_explained st (fst update) mono) as He. split; [exact He|]. split.
  - cbn [ms_Health SnapshotOf]. rewrite He. apply worst_none.
  - unfold monitor_request. destruct (allowPeers allow remote); [|done]. cbn [negb endpoint]. unfold writeJSON. cbn [ms_Health ms_SnapshotAt SnapshotOf].
    destruct (encode _); [|done]. rewrite healthOf_unhealthy. by destruct (worth_using st mono).
Qed.

(** ** A scrape *)

Definition series (m : Metric) : string * list str := (mt_Name m, mt_Labels m).

(** A series the registry knows, with as many labels as it was described with. *)
Definition described (m : Metric) : bool := existsb (fun d => bool_decide (fst d = mt_Name m) && (length (snd d) =? length (mt_Labels m))%nat) Describe.

(** A part of a scrape: its series are among the given names, each is sent
    once and is described. *)
Record part (names : list string) (l : list Metric) : Prop := {
  pt_names : Forall (fun m => mt_Name m ∈ names) l;
  pt_once : NoDup (series <$> l);
  pt_described : forallb described l = true
}.

Definition apart (a b : list string) : bool := forallb (fun x => negb (existsb (String.eqb x) b)) a.

Lemma apart_not a b x : apart a b = true -> x ∈ a -> x ∉ b.
Proof.
  unfold apart. rewrite forallb_forall. intros H Ha Hb. specialize (H x (proj1 (list_elem_of_In _ _) Ha)). apply negb_true_iff in H.
  assert (existsb (String.eqb x) b = true) as E; [|congruence]. apply existsb_exists. exists x. split; [by apply list_elem_of_In|apply String.eqb_refl].
Qed.

Lemma part_app a b l k : part a l -> part b k -> apart a b = true -> part (a ++ b) (l ++ k).
Proof.
  intros [N1 O1 D1] [N2 O2 D2] Hd. constructor.
  - apply Forall_app. split; [refine (List.Forall_impl _ _ N1)|refine (List.Forall_impl _ _ N2)]; intros m Hm; apply elem_of_app; [by left|by right].
  - rewrite fmap_app. apply NoDup_app. split; [done|]. split; [|done]. intros x Hx Hy. apply list_elem_of_fmap in Hx as (m & -> & Hm), Hy as (m' & E & Hm').
    rewrite Forall_forall in N1, N2. apply N1 in Hm. apply N2 in Hm'. unfold series in E. injection E as E _. rewrite E in Hm. by eapply apart_not.
  - by rewrite forallb_app, D1, D2.
Qed.

(** Parts made one per item, told apart by their first label. *)
Lemma part_bind {A} (f : A -> list Metric) (name : A -> string) names l :
  (forall a, part names (f a)) -> (forall a, Forall (fun m => head (mt_Labels m) = Some (str_of (name a))) (f a)) -> NoDup (name <$> l) -> part names (l ≫= f).
Proof.
  intros Hf Hh. induction l as [|a l IH]; intros Hn; [by constructor; constructor|]. cbn [fmap list_fmap] in Hn. apply NoDup_cons in Hn as [Ha Hn]. destruct (Hf a) as [N1 O1 D1], (IH Hn) as [N2 O2 D2].
  change ((a :: l) ≫= f) with (f a ++ (l ≫= f)). constructor; [by apply Forall_app| |by rewrite forallb_app, D1, D2].
  rewrite fmap_app. apply NoDup_app. split; [done|]. split; [|done]. intros x Hx Hy. apply list_elem_of_fmap in Hx as (m & -> & Hm), Hy as (m' & E & Hm'). unfold series in E. injection E as _ E.
  apply list_elem_of_bind in Hm' as (b & Hm' & Hb). pose proof (Hh a) as H1. pose proof (Hh b) as H2. rewrite Forall_forall in H1, H2. apply H1 in Hm. apply H2 in Hm'. rewrite E, Hm' in Hm.
  apply (inj Some), str_of_inj in Hm. apply Ha. rewrite <- Hm. by apply list_elem_of_fmap_2.
Qed.

(** Series that differ in what a function keeps of them differ. *)
Lemma once_by {B} `{EqDecision B} (key : string * list str -> B) (l : list Metric) : bool_decide (NoDup (key <$> (series <$> l))) = true -> NoDup (series <$> l).
Proof. intros H. apply bool_decide_eq_true in H. by apply NoDup_fmap_1 in H. Qed.

Definition behind_first (x : string * list str) : string * list str := (fst x, tail (snd x)).

(** The names of each part, as they are described. *)
Definition names (from count : nat) : list string := fst <$> take count (drop from Describe).

Lemma in_names from count m l : bool_decide (mt_Name m ∈ names from count) = true -> Forall (fun m => mt_Name m ∈ names from count) l -> Forall (fun m => mt_Name m ∈ names from count) (m :: l).
Proof. intros H Hl. apply bool_decide_eq_true in H. by constructor. Qed.

Ltac part_of key := constructor; [repeat (apply in_names; [vm_compute; reflexivity|]); constructor|apply (once_by key); vm_compute; reflexivity|vm_compute; reflexivity].

Lemma part_system s : part (names 0 16) (collect_system s).
Proof. part_of (fun x : string * list str => (fst x, if String.eqb (fst x) "carillon_leap_events_total" then snd x else [])). Qed.

Lemma part_source s : part (names 16 9) (collect_source s).
Proof. part_of behind_first. Qed.

Lemma part_refclock r : part (names 25 6) (collect_refclock r).
Proof. unfold collect_refclock. destruct (bool_decide (cr_Type r = "pps"%string) || _), (bool_decide (cr_Type r = "gps-nmea"%string)); part_of behind_first. Qed.

Lemma part_enabled v : part (names 31 1) [mgauge "carillon_server_enabled" v []].
Proof. part_of behind_first. Qed.

Lemma part_family f : part (names 32 10) (collectFamily (fst f) (snd f)).
Proof. part_of behind_first. Qed.

Lemma source_labels s : Forall (fun m => head (mt_Labels m) = Some (str_of (so_Name s))) (collect_source s).
Proof. repeat constructor. Qed.

Lemma refclock_labels r : Forall (fun m => head (mt_Labels m) = Some (str_of (cr_Name r))) (collect_refclock r).
Proof. unfold collect_refclock. destruct (bool_decide (cr_Type r = "pps"%string) || _), (bool_decide (cr_Type r = "gps-nmea"%string)); repeat constructor. Qed.

Lemma family_labels f : Forall (fun m => head (mt_Labels m) = Some (str_of (fst f))) (collectFamily (fst f) (snd f)).
Proof. repeat constructor. Qed.

Lemma sources_names st infos : so_Name <$> SourcesOf st infos = ss_Name <$> st_Sources (es_sys st).
Proof. unfold SourcesOf. rewrite <- list_fmap_compose. apply list_fmap_ext. intros i s _. unfold compose, source_line_of. cbv zeta. by destruct (info_of infos (ss_Name s)). Qed.

Lemma refclock_of_name st infos s r : refclock_of st infos s = Some r -> cr_Name r = ss_Name s.
Proof. unfold refclock_of. destruct (info_of infos (ss_Name s)) as [i|]; [|done]. cbn [mbind option_bind]. destruct (si_Refclock i) as [[[[? ?] ?] ?]|]; [|done]. cbn. by intros [= <-]. Qed.

Lemma refclocks_names st infos : sublist (cr_Name <$> RefclocksOf st infos) (ss_Name <$> st_Sources (es_sys st)).
Proof.
  unfold RefclocksOf. induction (st_Sources (es_sys st)) as [|s l IH]; [constructor|]. cbn [omap list_omap]. destruct (refclock_of st infos s) as [r|] eqn:E; cbn [fmap list_fmap].
  - rewrite (refclock_of_name _ _ _ _ E). by constructor.
  - by constructor.
Qed.

Lemma part_collect st infos update built stats enabled meta servedAt mono startedAt :
  NoDup (ss_Name <$> st_Sources (es_sys st)) ->
  part (names 0 16 ++ names 16 9 ++ names 25 6 ++ names 31 1 ++ names 32 10) (Collect (SnapshotOf st infos update built stats enabled meta servedAt mono startedAt)).
Proof.
  intros Hn. unfold Collect. cbn [ms_Server SnapshotOf ServerStatsOf ms_Sources ms_Refclocks ms_ServerEnabled].
  repeat (apply part_app; [| |vm_compute; reflexivity]).
  - apply part_system.
  - apply (part_bind _ so_Name); [apply part_source|apply source_labels|by rewrite sources_names].
  - apply (part_bind _ cr_Name); [apply part_refclock|apply refclock_labels|]. eapply sublist_NoDup; [exact Hn|apply refclocks_names].
  - apply part_enabled.
  - pose proof (part_bind (fun f => collectFamily (fst f) (snd f)) fst (names 32 10) [("ipv4"%string, counterStatsOf (IPv4 stats)); ("ipv6"%string, counterStatsOf (IPv6 stats))] part_family family_labels) as H.
    cbn [mbind list_bind fst snd fmap list_fmap] in H. rewrite app_nil_r in H. apply H. apply (bool_decide_unpack _). vm_compute. exact I.
Qed.

Definition is_request (m : Metric) : bool := String.eqb (mt_Name m) "carillon_server_requests_total".

Lemma no_request ns l : apart ["carillon_server_requests_total"%string] ns = true -> part ns l -> List.filter is_request l = [].
Proof.
  intros Ha [Hn _ _]. induction Hn as [|m l Hm Hn IH]; [done|]. cbn [List.filter]. unfold is_request at 1. destruct (String.eqb_spec (mt_Name m) "carillon_server_requests_total") as [E|_]; [|done].
  exfalso. eapply (apart_not _ _ (mt_Name m) Ha); [rewrite E; constructor|done].
Qed.

Lemma collect_requests st infos update built stats enabled meta servedAt mono startedAt :
  NoDup (ss_Name <$> st_Sources (es_sys st)) ->
  mt_Value <$> List.filter is_request (Collect (SnapshotOf st infos update built stats enabled meta servedAt mono startedAt)) =
  (fun e => of_Z (snd e)) <$> (serverResults (counterStatsOf (IPv4 stats)) ++ serverResults (counterStatsOf (IPv6 stats))).
Proof.
  intros Hn. unfold Collect. cbn [ms_Server SnapshotOf ServerStatsOf ms_Sources ms_Refclocks ms_ServerEnabled]. rewrite !List.filter_app.
  rewrite (no_request (names 0 16) (collect_system _)); [|reflexivity|apply part_system].
  rewrite (no_request (names 16 9) (SourcesOf st infos ≫= collect_source)); [|reflexivity|apply (part_bind _ so_Name); [apply part_source|apply source_labels|by rewrite sources_names]].
  rewrite (no_request (names 25 6) (RefclocksOf st infos ≫= collect_refclock)); [|reflexivity|apply (part_bind _ cr_Name); [apply part_refclock|apply refclock_labels|]].
  - rewrite (no_request (names 31 1)); [reflexivity|reflexivity|apply part_enabled].
  - eapply sublist_NoDup; [exact Hn|apply refclocks_names].
Qed.

Definition total_of (l : list (string * Z)) : Z := foldr (fun e n => snd e + n) 0 l.

Lemma results_total v : total_of (serverResults v) = outcomes (cs_counts v).
Proof. unfold total_of, serverResults, outcomes. cbn [foldr snd]. lia. Qed.

Lemma total_app a b : total_of (a ++ b) = total_of a + total_of b.
Proof. unfold total_of. induction a as [|e a IH]; cbn [app foldr]; [lia|]. rewrite IH. lia. Qed.

(** Claim C19: a scrape is whole.  When the sources have different names, as a
    configuration that loads gives them, no series is sent twice and every one
    is described with as many labels, which is what the registry asks of a
    scrape.  The values of carillon_server_requests_total are those of its nine
    outcomes in two families, and after any datagrams on any listeners, in any
    order, their sum over all labels has grown by exactly the number of
    datagrams read, modulo the counters' 2^64: every datagram is in one of
    them, and in no other. *)
Theorem scrape_complete v es st infos update built enabled meta servedAt mono startedAt :
  service_ok v -> Forall (event_ok v) es -> gauge_ok v -> NoDup (ss_Name <$> st_Sources (es_sys st)) ->
  exists v', service_run v es = Some v' /\
  let stats := Snapshot (svc_stats v') in
  let results := serverResults (counterStatsOf (IPv4 stats)) ++ serverResults (counterStatsOf (IPv6 stats)) in
  let l := Collect (SnapshotOf st infos update built stats enabled meta servedAt mono startedAt) in
  NoDup (series <$> l) /\ forallb described l = true /\
  mt_Value <$> List.filter is_request l = (fun e => of_Z (snd e)) <$> results /\
  u64 (total_of results) = u64 (Requests (Total (Snapshot (svc_stats v))) + Z.of_nat (length es)).
Proof.
  intros Hv Hes Hg Hn. destruct (service_accounts v es Hv Hes Hg) as (v' & E & _ & _ & R). exists v'. split; [exact E|]. cbv zeta.
  destruct (part_collect st infos update built (Snapshot (svc_stats v')) enabled meta servedAt mono startedAt Hn) as [_ H1 H2].
  split; [exact H1|]. split; [exact H2|]. split; [by apply collect_requests|]. rewrite <- R, requests_total, !Requests_outcomes, addu_mod, total_app, !results_total. reflexivity.
Qed.

(** ** Example *)

Definition example_source (name : string) : SourceStatus := mkSourceStatus name StatusSystem false false 255 6 fzero fzero fzero fzero fzero 1 [192; 0; 2; 1] 0 fzero "" fzero.

Definition example_engine : EngineStatus :=
  mkEngineStatus (mkSysStatus StateSynced 2 [192; 0; 2; 1] 0 fzero fzero fzero fzero true fzero fzero "a" false false fzero 1 0 [example_source "a"; example_source "b"])
    (of_Z 7) (unixTime 1767225600 0) zeroTime 0 (-20) "" zeroTime StateSynced true false "" false None None zeroTime false zeroTime [].

(** Five seconds is fresh, six is not. *)
Example stale_after_five : worth_using example_engine (of_Z 12) = true /\ worth_using example_engine (of_Z 13) = false.
Proof. vm_compute. done. Qed.

Lemma scrape_complete_witness :
  exists v', service_run example_service example_events = Some v' /\
  let stats := Snapshot (svc_stats v') in
  let results := serverResults (counterStatsOf (IPv4 stats)) ++ serverResults (counterStatsOf (IPv6 stats)) in
  u64 (total_of results) = u64 (Requests (Total (Snapshot (svc_stats example_service))) + 4).
Proof.
  destruct (scrape_complete example_service example_events example_engine [] (zeroUpdateStatus, zeroCounts) "1" true (mkMetadata "" "" []) 0 fzero 0) as (v' & E & _ & _ & _ & H).
  - exact example_service_ok.
  - repeat apply List.Forall_cons; [..|apply List.Forall_nil]; (split; [cbn; lia|]; split; [exact example_status_ok|]).
    + exact example_request_bytes.
    + apply Forall_replicate. unfold is_byte. lia.
    + repeat constructor; cbn; lia.
    + exact example_request_bytes.
  - reflexivity.
  - apply (bool_decide_unpack _). vm_compute. exact I.
  - exists v'. split; [exact E|exact H].
Defined.
